(* ===== verification/_CoqProject ===== *)
-Q . S2P
Prelude.v
KState.v
DList.v
Sched.v
SchedProps.v
Mmu.v
Cap.v
Obj.v
Ipc.v
IpcProps.v
Frame.v
FrameProps.v
ProcSys.v
ProcProps.v
SList.v
Pool.v
Ranges.v
HList.v
Addr.v
AddrProps.v
AddrSpec.v
AddrMap.v
AddrFirst.v
Malloc.v
MallocProps.v
Root.v
RootProps.v
Crc.v
Str.v
Services.v
ServicesProps.v
Bytes.v
Fdt.v
FdtProps.v
FdtFind.v
Net.v
NetIp.v
NetUdp.v
NetTcp.v
NetDev.v
NetPres.v
NetStates.v
NetHost.v
NetSum.v
NetSend.v
NetRecv.v
NetArp.v
NetStream.v
NetBind.v
NetProps.v
NetFacts.v
LeBytes.v
Block.v
Lfs.v
LfsLog.v
LfsFile.v
FsHostSim.v
LfsTable.v
LfsDir.v
LfsCache.v
LfsRead.v
LfsGrow.v
LfsWrite.v
LfsFiles.v
LfsProps.v
LfsFacts.v
