(* ===== verification/Prelude.v ===== *)
(** * A verification development for the Agatha micro kernel

    Agatha is a micro kernel for 32-bit ARM boards (src/sys, src/arm/kern) with
    its root task (src/arm/root), the library its processes are linked with
    (src/lib, src/arm/lib) and the processes themselves (src/procs, drivers).  The
    kernel schedules processes, passes messages, signals and capabilities between
    them, and lets them make kernel objects and edit address spaces; memory is
    given out by the root task.

    ** How the code is modelled

    Pointers are the addresses the code uses; each type of object has a finite
    map from addresses to records with the fields of the struct.  Integers are
    [Z] with the wrap-around of the C type written out ([u32], [s32], [u64]).
    Operations are functions in the state monad [M] of this file whose outcomes
    tell a result from a deliberate end (panic, exit), from behaviour C leaves
    undefined ([Fault]: a nil pointer, an index outside an array, a call through
    a word outside a table) and from a loop bound of the model that was too small
    ([NoFuel]).  [wpe m s Q E] says that [m] run in [s] returns with [Q] or stops
    with [E], and does neither of the other two: total correctness, so each
    theorem with [wp] or [wpe] also says that the loops end and that no pointer
    or index is wrong.

    A call of [schedule] in the kernel does not come back until the process is
    switched to again: the rest of the call is kept as the continuation in the
    label of the process ([cont]), and [Ipc.resume] runs it.

    ** The files

    - Prelude.v: outcomes, the monad and its rules, machine words, lists indexed
      by integers.
    - KState.v: the kernel's objects (include/sysobj.h, arm/include/sysobj_mach.h),
      ready queues and machine state, with their accessors.
    - DList.v, SList.v: doubly and singly linked lists threaded through objects;
      the ready queues and the waiting lists are instances of the first, the
      lists of pools, ranges and objects of the second.
    - Sched.v, SchedProps.v: sys/proc.c.  [sched_inv] is the invariant of the ready
      queues, against a ghost assignment of a list to each queue; the theorems are
      that [next_proc] ends and finds a process of the highest priority, that
      [schedule] loses no ready process, and what priorities do.
    - Mmu.v: arm/lib/c/mmu.c and kernel_map of arm/kern/main.c; the kernel's own
      page tables and the window it maps into.
    - Cap.v: the two-level capability space, proc_find_cap of sys/sys.c.
      [resolves] is the specification of the lookup.
    - Obj.v: retype, split, merge and create.  [obj_inv] says that objects do not
      overlap and that the right to untyped memory is held once; each operation
      keeps it.
    - Ipc.v, IpcProps.v: recv, mesg, reply and signal of sys/sys.c with the system
      calls around them.  [wait_inv] relates the waiting list of each endpoint to
      the processes blocked on it; the theorems say who gets what in which order.
    - Frame.v, FrameProps.v: the system calls on frames and address spaces of
      arm/kern/sys.c.  [user_walk] is the walk of the processor over the tables
      in physical memory, which is what mapping and unmapping are specified by.
    - ProcSys.v, ProcProps.v: the calls on processes, interrupts (the GIC of
      arm/vexpress-a9), the system call table and its dispatch in vectors.S.
    - Pool.v: lib/pool/pool.c, refined from a pair of sets of blocks.
    - Ranges.v: the free memory of the root task, arm/root/mem.c, on top of Pool.v;
      the theorems are about the bytes that are free before and after.
    - Root.v, RootProps.v: arm/lib/c/sys.c (capability identifiers, kernel objects)
      and the rest of arm/root/mem.c, which call each other, and the memory
      requests of arm/root/main.c.  System calls are an interface, [Sys]; the
      kernel of this development is an instance of it, [kernel_sys].
    - Services.v, ServicesProps.v: the rest of the root task, arm/root/main.c and
      proc.c, with the table of services of arm/vexpress-a9/devices.c: the start of
      the bundled processes and the requests for resources.  The calls on processes,
      endpoints and address spaces are an interface, [ProcCalls].  What a device has
      is given out once; the other resources are endpoints of the services that the
      table names.
    - HList.v: lists whose nodes know the place that holds them.  Addr.v,
      AddrProps.v, AddrSpec.v, AddrMap.v, AddrFirst.v: the address space of a
      process, arm/lib/c/addr.c, on top of HList.v and Pool.v.  [addr_rep] relates
      the lists to the ranges and spans they hold; [SpaceOk] is what the kernel
      promises and [space_inv] relates the two; the theorems say that a frame is
      mapped where nothing is and can be unmapped again.
    - Malloc.v, MallocProps.v: lib/mem/alloc.c, the free lists by size; blocks in
      use never overlap each other or free chunks.
    - Crc.v: lib/crc/crc.c, equal to a bitwise definition.
    - Str.v: lib/string/string.c and conv.c: comparison, printing within bounds,
      numbers printed and read back.
    - Bytes.v: big-endian fields (arm/include/types.h) and the copying functions of
      lib/mem/util.c.
    - Fdt.v, FdtProps.v, FdtFind.v: lib/fdt/fdt.c.  [items] is a tree and [items_at]
      says that the blob holds it; each search of the words of the blob is shown to
      be a search of the tree ([answers_to] says which names a part of a path stands
      for), and [flatten_at] that encoded trees are held.
    - Net.v, NetIp.v, NetUdp.v, NetTcp.v, NetDev.v: the network stack, lib/net:
      ethernet and arp, ip with the pieces of packets, icmp, udp, tcp, and the
      requests of its clients (net.c, include/net.h).  NetHost.v says what the stack
      needs of the process it is linked into ([Host]) and what it is promised
      ([HostOk]), with an instance that runs, [sim_host].
    - NetPres.v, NetStates.v: what no operation does, and the states of a connection:
      each operation takes it through steps of [tcp_step] only, or makes a new one.  NetSum.v, NetSend.v, NetRecv.v: checksums, and packets as they
      are sent and taken in.  NetArp.v, NetStream.v, NetBind.v: the requests that
      wait for an address, the bytes of a connection, the bindings.  NetProps.v: the
      theorems that are built from them.  NetFacts.v: what the stack does where it
      parts from its purpose.
    - LeBytes.v: little-endian fields and parts of byte strings.  Block.v:
      lib/block/block.c, the server of a driver, and the calls to it, procs/lfs/help.c.
    - Lfs.v, LfsLog.v, LfsFile.v: procs/lfs/lfs.c: the structures in memory with the
      superblock and the checkpoints; segments, their scan, formatting and flushing;
      the table of inodes, blocks, and lfs_create, lfs_rm, lfs_write, lfs_read and
      lfs_trunc.  The process around them is the interface [FsHost].  FsHostSim.v says
      what is promised of it ([FsHostOk]), with an instance that runs behind Block.v,
      [sim].
    - LfsTable.v, LfsDir.v: the invariant of the table that is open to probing, and the
      list of what is pending.  LfsCache.v: what a block holds, in a frame or on the
      disk.  LfsRead.v, LfsGrow.v, LfsWrite.v: reading, the blocks that are added,
      writing.  LfsFiles.v: what files hold ([stored]).  LfsProps.v: the theorems, and
      small file systems; LfsFacts.v: where the code parts from its purpose.

    ** Fuel

    Loops over lists have one round of fuel more than there are objects in the
    map the list is threaded through, and a list that ends meets each of them at
    most once ([DList.dlist], [SList.slist_NoDup]); loops over pages have one
    round for each page; doubling loops have 33 rounds, one for each bit and one
    more; the recursion between requests and objects has two levels, which
    [RootProps.request_memory_depth] shows to be enough in every state.

    ** Where the code and its purpose part

    Some theorems state what the code does where it does not do what it means to:
    the priority 16 and the seventeenth process (SchedProps.v), the end of the
    mapping window (Mmu.v), slot 510 and negative identifiers (Cap.v), type 6,
    empty slots, stale slots and long frames (Obj.v), the range check of system
    call numbers and the start of a waiting process (ProcProps.v), alignment in
    the search for free memory (Ranges.v), the identifiers from 480 on and
    requests when memory is out (RootProps.v), the closing 0 (Str.v), the endpoint that
    is given out twice and full lists of resources (ServicesProps.v), the queues and
    packets of NetFacts.v, the blocks, checkpoints and segments of LfsFacts.v.

    ** Not modelled

    Device drivers and boards (register input and output), the start of the
    kernel (arm/kern/boot.c, the assembler around it), debugging output, the
    examples and tests, the FAT file system (lib/fat) and the log process.  What
    lfs_flush leaves on the disk and what the scan makes of it is modelled, but no
    theorem relates the two. *)
From stdpp Require Export base tactics decidable numbers list gmap.
From Stdlib Require Export ZArith Lia.

Local Open Scope Z_scope.

(** ** Outcomes of C code

    [Stop] is a deliberate end (the kernel's [panic], a process' [exit]);
    [Fault] is behaviour C leaves undefined (a nil or dangling pointer is
    followed, an array is indexed outside its bounds, a function table is
    called outside its bounds); [NoFuel] is the model's own way of saying that
    the loop bound it was given was too small, which [wp] and [wpe] exclude;
    [wlp], below, speaks of runs that return only. *)
Inductive stop := Panicked | Exited (code : Z).
Inductive fault := FNil | FBounds | FCall.

Inductive outcome (S A : Type) :=
  | Ok (a : A) (s : S)
  | Stop (w : stop) (s : S)
  | Fault (f : fault)
  | NoFuel.
Arguments Ok {S A} a s.
Arguments Stop {S A} w s.
Arguments Fault {S A} f.
Arguments NoFuel {S A}.

#[export] Instance stop_eq_dec : EqDecision stop.
Proof. solve_decision. Defined.
#[export] Instance fault_eq_dec : EqDecision fault.
Proof. solve_decision. Defined.

Definition M (S A : Type) : Type := S -> outcome S A.

Definition ret {S A} (a : A) : M S A := fun s => Ok a s.
Definition bind {S A B} (m : M S A) (k : A -> M S B) : M S B := fun s =>
  match m s with
  | Ok a s' => k a s'
  | Stop w s' => Stop w s'
  | Fault f => Fault f
  | NoFuel => NoFuel
  end.
Definition get {S} : M S S := fun s => Ok s s.
Definition gets {S A} (f : S -> A) : M S A := fun s => Ok (f s) s.
Definition modify {S} (f : S -> S) : M S unit := fun s => Ok tt (f s).
Definition halt {S A} (w : stop) : M S A := fun s => Stop w s.
Definition fail {S A} (f : fault) : M S A := fun _ => Fault f.
Definition nofuel {S A} : M S A := fun _ => NoFuel.
(** The value of a C expression that reads memory: no value, no defined behaviour. *)
Definition read {S A} (f : fault) (g : S -> option A) : M S A := fun s =>
  match g s with Some a => Ok a s | None => Fault f end.

(** An operation on a part of the state. *)
Definition zoom {S T A} (part : S -> T) (put : T -> S -> S) (m : M T A) : M S A := fun s =>
  match m (part s) with
  | Ok a t => Ok a (put t s)
  | Stop w t => Stop w (put t s)
  | Fault f => Fault f
  | NoFuel => NoFuel
  end.

Declare Scope c_scope.
Delimit Scope c_scope with c.
Notation "'let*' x := m 'in' k" := (bind m (fun x => k))
  (at level 10, x pattern, m at level 99, k at level 200) : c_scope.
Notation "m ;;; k" := (bind m (fun _ => k))
  (at level 100, k at level 200, right associativity) : c_scope.

(** ** Total-correctness triples

    [wpe m s Q E]: [m] run in [s] either returns with [Q] or stops with [E];
    it neither faults nor runs out of fuel.  [wp] forbids stopping as well. *)
Definition wpe {S A} (m : M S A) (s : S) (Q : A -> S -> Prop) (E : stop -> S -> Prop) : Prop :=
  match m s with
  | Ok a s' => Q a s'
  | Stop w s' => E w s'
  | Fault _ | NoFuel => False
  end.
Definition never {S} : stop -> S -> Prop := fun _ _ => False.
Abbreviation wp m s Q := (wpe m s Q never).

Section wp_rules.
Context {S : Type}.
Implicit Types s : S.
Implicit Types E : stop -> S -> Prop.

Lemma wpe_bind {A B} (m : M S A) (k : A -> M S B) s Q E :
  wpe m s (fun a s' => wpe (k a) s' Q E) E -> wpe (bind m k) s Q E.
Proof. unfold wpe, bind. by destruct (m s). Qed.

Lemma wpe_bind_inv {A B} (m : M S A) (k : A -> M S B) s Q E :
  wpe (bind m k) s Q E -> wpe m s (fun a s' => wpe (k a) s' Q E) E.
Proof. unfold wpe, bind. by destruct (m s). Qed.

Lemma wpe_ret {A} (a : A) s (Q : A -> S -> Prop) E : Q a s -> wpe (ret a) s Q E.
Proof. exact id. Qed.

Lemma wpe_get s (Q : S -> S -> Prop) E : Q s s -> wpe get s Q E.
Proof. exact id. Qed.

Lemma wpe_gets {A} (f : S -> A) s (Q : A -> S -> Prop) E : Q (f s) s -> wpe (gets f) s Q E.
Proof. exact id. Qed.

Lemma wpe_modify (f : S -> S) s (Q : unit -> S -> Prop) E : Q tt (f s) -> wpe (modify f) s Q E.
Proof. exact id. Qed.

Lemma wpe_halt {A} w s (Q : A -> S -> Prop) E : E w s -> wpe (halt w) s Q E.
Proof. exact id. Qed.

Lemma wpe_read {A} f (g : S -> option A) a s (Q : A -> S -> Prop) E :
  g s = Some a -> Q a s -> wpe (read f g) s Q E.
Proof. unfold wpe, read. intros H ?. by rewrite H. Qed.

Lemma wpe_mono {A} (m : M S A) s (Q Q' : A -> S -> Prop) (E E' : stop -> S -> Prop) :
  wpe m s Q E -> (forall a s', Q a s' -> Q' a s') -> (forall w s', E w s' -> E' w s') ->
  wpe m s Q' E'.
Proof. unfold wpe. destruct (m s); eauto. Qed.

Lemma wpe_ok {A} (m : M S A) s a s' (Q : A -> S -> Prop) E :
  m s = Ok a s' -> Q a s' -> wpe m s Q E.
Proof. unfold wpe. intros H ?. by rewrite H. Qed.

Lemma wpe_zoom {T A} (part : S -> T) (put : T -> S -> S) (m : M T A) s Q E :
  wpe m (part s) (fun a t => Q a (put t s)) (fun w t => E w (put t s)) -> wpe (zoom part put m) s Q E.
Proof. unfold wpe, zoom. by destruct (m (part s)). Qed.

(** Running a sequence whose first part is known. *)
Lemma bind_ok {A B} (m : M S A) (k : A -> M S B) s a s' :
  m s = Ok a s' -> bind m k s = k a s'.
Proof. unfold bind. intros H. by rewrite H. Qed.

Lemma bind_fault {A B} (m : M S A) (k : A -> M S B) s f :
  m s = Fault f -> bind m k s = Fault f.
Proof. unfold bind. intros H. by rewrite H. Qed.

Lemma read_fault {A} f (g : S -> option A) s : g s = None -> read f g s = Fault f.
Proof. unfold read. intros H. by rewrite H. Qed.

Lemma read_ok {A} f (g : S -> option A) a s : g s = Some a -> read f g s = Ok a s.
Proof. unfold read. intros H. by rewrite H. Qed.

Lemma wp_inv {A} (m : M S A) s (Q : A -> S -> Prop) :
  wp m s Q -> exists a s', m s = Ok a s' /\ Q a s'.
Proof. unfold wpe. destruct (m s) as [a s'|w s'| |]; intros H; [by exists a, s'|destruct H..]. Qed.

Lemma wp_run {A} (m : M S A) s (Q : A -> S -> Prop) a s' : wp m s Q -> m s = Ok a s' -> Q a s'.
Proof. unfold wpe. intros Hw Hrun. by rewrite Hrun in Hw. Qed.
End wp_rules.

Create HintDb wp.
#[export] Hint Resolve wpe_ret wpe_get wpe_gets wpe_modify : wp.

(** One step of symbolic execution at the head of a monadic term. *)
Ltac wstep :=
  lazymatch goal with
  | |- wpe (bind _ _) _ _ _ => apply wpe_bind
  | |- wpe (ret _) _ _ _ => apply wpe_ret
  | |- wpe get _ _ _ => apply wpe_get
  | |- wpe (gets _) _ _ _ => apply wpe_gets
  | |- wpe (modify _) _ _ _ => apply wpe_modify
  | |- wpe (read _ _) _ _ _ => eapply wpe_read; [eassumption|]
  | |- wpe (if ?b then _ else _) _ _ _ => let H := fresh "Hb" in destruct b eqn:H
  end.
Ltac wsteps := repeat (wstep; cbn beta).

(** ** What holds if an operation returns

    [wlp m s Q]: if [m] run in [s] returns, it returns with [Q].  [pres R m]: if [m]
    returns, the states before and after it are in [R]. *)
Definition wlp {St A} (m : M St A) (s : St) (Q : A -> St -> Prop) : Prop :=
  match m s with Ok a s' => Q a s' | _ => True end.
Definition pres {St A} (R : St -> St -> Prop) (m : M St A) : Prop := forall s, wlp m s (fun _ s' => R s s').

Section wlp_rules.
Context {St : Type}.
Implicit Types s : St.
Implicit Types R : St -> St -> Prop.

Lemma wlp_bind {A B} (m : M St A) (k : A -> M St B) s Q : wlp m s (fun a s' => wlp (k a) s' Q) -> wlp (bind m k) s Q.
Proof. unfold wlp, bind. by destruct (m s). Qed.
Lemma wlp_mono {A} (m : M St A) s (Q Q' : A -> St -> Prop) : wlp m s Q -> (forall a s', Q a s' -> Q' a s') -> wlp m s Q'.
Proof. unfold wlp. destruct (m s); eauto. Qed.
Lemma wlp_ret {A} (a : A) s (Q : A -> St -> Prop) : Q a s -> wlp (ret a) s Q.
Proof. exact id. Qed.
Lemma wlp_fail {A} f s (Q : A -> St -> Prop) : wlp (fail f) s Q.
Proof. exact I. Qed.
Lemma wlp_nofuel {A} s (Q : A -> St -> Prop) : wlp nofuel s Q.
Proof. exact I. Qed.
Lemma wlp_get s (Q : St -> St -> Prop) : Q s s -> wlp get s Q.
Proof. exact id. Qed.
Lemma wlp_modify (f : St -> St) s (Q : unit -> St -> Prop) : Q tt (f s) -> wlp (modify f) s Q.
Proof. exact id. Qed.
Lemma wlp_read {A} f (g : St -> option A) s (Q : A -> St -> Prop) : (forall a, g s = Some a -> Q a s) -> wlp (read f g) s Q.
Proof. unfold wlp, read. destruct (g s); eauto. Qed.
Lemma wlp_pres {A} R (m : M St A) s (Q : A -> St -> Prop) : pres R m -> (forall a s', R s s' -> Q a s') -> wlp m s Q.
Proof. intros Hm HQ. eapply wlp_mono; [apply Hm|]. cbn. eauto. Qed.
Lemma wlp_ok {A} (m : M St A) s (Q : A -> St -> Prop) a s' : wlp m s Q -> m s = Ok a s' -> Q a s'.
Proof. unfold wlp. intros HQ E. by rewrite E in HQ. Qed.
End wlp_rules.

(** ** Machine words *)
Definition u8 (x : Z) : Z := x mod 2 ^ 8.
Definition u16 (x : Z) : Z := x mod 2 ^ 16.
Definition u32 (x : Z) : Z := x mod 2 ^ 32.
Definition s32 (x : Z) : Z := (x + 2 ^ 31) mod 2 ^ 32 - 2 ^ 31.
Definition u64 (x : Z) : Z := x mod 2 ^ 64.
Definition NIL : Z := 0.
Definition OK : Z := 0.
Definition ERR : Z := -1.

(** C's truth values of a pointer or an integer. *)
Definition ctrue (x : Z) : bool := negb (x =? NIL).

(** [align_up]/[align_down] of sys/head.h and include/c.h, on a 32-bit
    [size_t]. *)
Definition align_up (x a : Z) : Z := Z.land (u32 (x + a - 1)) (u32 (Z.lnot (a - 1))).
Definition align_down (x a : Z) : Z := Z.land (u32 x) (u32 (Z.lnot (a - 1))).

Lemma u32_small x : 0 <= x < 2 ^ 32 -> u32 x = x.
Proof. intros. unfold u32. by apply Z.mod_small. Qed.

Lemma u32_bound x : 0 <= u32 x < 2 ^ 32.
Proof. unfold u32. apply Z.mod_pos_bound. lia. Qed.

Lemma s32_small x : - 2 ^ 31 <= x < 2 ^ 31 -> s32 x = x.
Proof. intros. unfold s32. rewrite Z.mod_small; lia. Qed.

Lemma s32_bound x : - 2 ^ 31 <= s32 x < 2 ^ 31.
Proof. unfold s32. pose proof (Z.mod_pos_bound (x + 2 ^ 31) (2 ^ 32)). lia. Qed.

Lemma u32_idemp x : u32 (u32 x) = u32 x.
Proof. apply u32_small, u32_bound. Qed.

Lemma u32_mul_pow2 a k : 0 <= k <= 32 -> u32 (a * 2 ^ k) = (a mod 2 ^ (32 - k)) * 2 ^ k.
Proof.
  intros. unfold u32. replace (2 ^ 32) with (2 ^ (32 - k) * 2 ^ k)
    by (rewrite <-Z.pow_add_r; [f_equal|..]; lia).
  pose proof (Z.pow_pos_nonneg 2 k). pose proof (Z.pow_pos_nonneg 2 (32 - k)).
  rewrite Z.mul_mod_distr_r; lia.
Qed.

(** Masking with a complemented power of two rounds down. *)
Lemma land_lnot_mask w x k : 0 <= k <= w -> 0 <= x < 2 ^ w ->
  Z.land x (Z.lnot (2 ^ k - 1) mod 2 ^ w) = x / 2 ^ k * 2 ^ k.
Proof.
  intros Hk Hx. rewrite <-Z.shiftr_div_pow2, <-Z.shiftl_mul_pow2 by lia.
  replace (2 ^ k - 1) with (Z.ones k) by (rewrite Z.ones_equiv; lia).
  rewrite <-Z.land_ones by lia. apply Z.bits_inj'; intros n Hn.
  rewrite !Z.land_spec, Z.lnot_spec by lia.
  rewrite (Z.testbit_ones_nonneg w), (Z.testbit_ones_nonneg k) by lia.
  rewrite Z.shiftl_spec by lia.
  destruct (Z.lt_ge_cases n k).
  - rewrite (proj2 (Z.ltb_lt n k)) by lia. rewrite (Z.testbit_neg_r _ (n - k)) by lia. cbn.
    by rewrite andb_false_r.
  - rewrite (proj2 (Z.ltb_ge n k)) by lia. rewrite Z.shiftr_spec by lia.
    replace (n - k + k) with n by lia. cbn. destruct (Z.ltb_spec n w).
    + by rewrite andb_true_r.
    + rewrite andb_false_r. symmetry.
      destruct (decide (x = 0)) as [->|]; [by apply Z.testbit_0_l|].
      apply Z.bits_above_log2; [lia|]. apply Z.log2_lt_pow2; [lia|].
      apply Z.lt_le_trans with (2 ^ w); [lia|]. apply Z.pow_le_mono_r; lia.
Qed.

Lemma land_lnot_ones x k : 0 <= k <= 32 -> 0 <= x < 2 ^ 32 ->
  Z.land x (u32 (Z.lnot (2 ^ k - 1))) = x / 2 ^ k * 2 ^ k.
Proof. apply land_lnot_mask. Qed.

Lemma align_down_pow2 x k : 0 <= k <= 32 -> 0 <= x < 2 ^ 32 ->
  align_down x (2 ^ k) = x / 2 ^ k * 2 ^ k.
Proof. intros. unfold align_down. rewrite u32_small by lia. by apply land_lnot_ones. Qed.

Lemma align_up_pow2 x k : 0 <= k <= 32 -> 0 <= x -> x + 2 ^ k - 1 < 2 ^ 32 ->
  align_up x (2 ^ k) = (x + 2 ^ k - 1) / 2 ^ k * 2 ^ k.
Proof.
  intros. unfold align_up. pose proof (Z.pow_pos_nonneg 2 k).
  rewrite u32_small by lia. apply land_lnot_ones; lia.
Qed.

Lemma align_up_bound x a : 0 <= align_up x a < 2 ^ 32.
Proof.
  unfold align_up. set (y := u32 (Z.lnot _)). unfold u32 at 1 2.
  rewrite <-(Z.land_ones _ 32), <-Z.land_assoc, (Z.land_comm (Z.ones 32)), Z.land_assoc, Z.land_ones by lia.
  apply Z.mod_pos_bound. lia.
Qed.

Lemma round_down_bounds x a : 0 < a -> x / a * a <= x < x / a * a + a.
Proof. intros. pose proof (Z.mul_div_le x a). pose proof (Z.mul_succ_div_gt x a). lia. Qed.

Lemma round_up_bounds x a : 0 < a -> x <= (x + a - 1) / a * a < x + a.
Proof. intros. pose proof (round_down_bounds (x + a - 1) a). lia. Qed.

(** Disjoint bits: an [or] is a sum. *)
Lemma lor_low_add x f k : 0 <= k -> x mod 2 ^ k = 0 -> 0 <= f < 2 ^ k -> Z.lor x f = x + f.
Proof.
  intros Hk Hx Hf. symmetry. apply Z.add_nocarry_lor. apply Z.bits_inj'; intros n Hn.
  rewrite Z.land_spec, Z.bits_0. destruct (Z.lt_ge_cases n k).
  - assert (Z.testbit x n = false) as ->; [|done].
    rewrite <-(Z.mod_pow2_bits_low x k n) by lia. by rewrite Hx, Z.bits_0.
  - rewrite <-(Z.mod_small f (2 ^ k)) by done. by rewrite Z.mod_pow2_bits_high, andb_false_r by lia.
Qed.

Lemma land_mask_low x f k : 0 <= k <= 32 -> x mod 2 ^ k = 0 -> 0 <= f < 2 ^ k -> 0 <= x + f < 2 ^ 32 ->
  Z.land (x + f) (u32 (Z.lnot (2 ^ k - 1))) = x.
Proof.
  intros Hk Hx Hf Hb. rewrite land_lnot_ones by lia.
  assert (x = 2 ^ k * (x / 2 ^ k)) by (apply Z_div_exact_full_2; lia).
  rewrite H at 1. rewrite (Z.mul_comm (2 ^ k)), Z.div_add_l by lia.
  rewrite (Z.div_small f) by lia. lia.
Qed.

(** Testing one bit with a mask. *)
Lemma land_pow2 x k : 0 <= k -> Z.land x (2 ^ k) = if Z.testbit x k then 2 ^ k else 0.
Proof.
  intros Hk. apply Z.bits_inj'; intros n Hn. rewrite Z.land_spec, Z.pow2_bits_eqb by lia.
  destruct (Z.eqb_spec k n) as [<-|Hne].
  - rewrite andb_true_r. destruct (Z.testbit x k) eqn:E; [|by rewrite Z.bits_0].
    by rewrite Z.pow2_bits_true.
  - rewrite andb_false_r. destruct (Z.testbit x k); [by rewrite Z.pow2_bits_false by lia|by rewrite Z.bits_0].
Qed.

(** ** Lists indexed by [Z] (C arrays of a fixed length) *)
Definition znth {A} (l : list A) (i : Z) : option A :=
  if (0 <=? i)%Z then l !! Z.to_nat i else None.
Definition zupd {A} (i : Z) (x : A) (l : list A) : list A :=
  if (0 <=? i)%Z then <[Z.to_nat i := x]> l else l.

Section zlist.
Context {A : Type}.
Implicit Types l : list A.

Lemma znth_lookup l i x : znth l i = Some x <-> 0 <= i /\ l !! Z.to_nat i = Some x.
Proof. unfold znth. destruct (Z.leb_spec 0 i); naive_solver lia. Qed.

Lemma znth_bound l i x : znth l i = Some x -> 0 <= i < Z.of_nat (length l).
Proof. rewrite znth_lookup. intros [? H]. apply lookup_lt_Some in H. lia. Qed.

Lemma znth_is_Some l i : 0 <= i < Z.of_nat (length l) -> is_Some (znth l i).
Proof.
  intros [H1 H2]. unfold znth. rewrite (proj2 (Z.leb_le 0 i)) by lia.
  apply lookup_lt_is_Some. lia.
Qed.

Lemma znth_None l i : znth l i = None <-> i < 0 \/ Z.of_nat (length l) <= i.
Proof.
  unfold znth. destruct (Z.leb_spec 0 i).
  - rewrite lookup_ge_None. lia.
  - split; [lia|done].
Qed.

Lemma length_zupd l i x : length (zupd i x l) = length l.
Proof. unfold zupd. case_match; [apply length_insert|done]. Qed.

Lemma znth_zupd_eq l i x : 0 <= i < Z.of_nat (length l) -> znth (zupd i x l) i = Some x.
Proof.
  intros. unfold znth, zupd. rewrite (proj2 (Z.leb_le 0 i)) by lia.
  apply list_lookup_insert_eq. lia.
Qed.

Lemma znth_zupd_ne l i j x : i <> j -> znth (zupd i x l) j = znth l j.
Proof.
  intros. unfold znth, zupd. destruct (Z.leb_spec 0 i), (Z.leb_spec 0 j); try done.
  apply list_lookup_insert_ne. lia.
Qed.

Lemma zupd_zupd l i x y : zupd i x (zupd i y l) = zupd i x l.
Proof. unfold zupd. case_match; [apply list_insert_insert_eq|done]. Qed.
End zlist.

Create HintDb zlist.
#[export] Hint Rewrite @length_zupd : zlist.

(** ** Generic facts on lists *)
Lemma last_cons_cons {A} (x y : A) l : last (x :: y :: l) = last (y :: l).
Proof. done. Qed.

Lemma NoDup_snoc {A} (l : list A) x : NoDup (l ++ [x]) <-> NoDup l /\ x ∉ l.
Proof.
  rewrite NoDup_app. split.
  - intros (? & Hd & _). split; [done|]. intros ?. eapply Hd; [done|]. by apply list_elem_of_singleton.
  - intros [? Hx]. split; [done|]. split; [|apply NoDup_singleton].
    intros y Hy ->%list_elem_of_singleton. done.
Qed.

(** ** Generic facts on maps *)
Lemma alter_insert_lookup {A} (m : gmap Z A) t f y :
  m !! t = Some y -> alter f t m = <[t := f y]> m.
Proof.
  intros Hy. apply map_eq. intros i. destruct (decide (i = t)) as [->|].
  - by rewrite lookup_alter_eq, lookup_insert_eq, Hy.
  - by rewrite lookup_alter_ne, lookup_insert_ne.
Qed.

(** Case analysis on the boolean tests of the code. *)
Ltac bdestruct_all :=
  repeat match goal with
  | H : (_ =? _) = true |- _ => apply Z.eqb_eq in H
  | H : (_ =? _) = false |- _ => apply Z.eqb_neq in H
  | H : (_ <? _) = true |- _ => apply Z.ltb_lt in H
  | H : (_ <? _) = false |- _ => apply Z.ltb_ge in H
  | H : (_ <=? _) = true |- _ => apply Z.leb_le in H
  | H : (_ <=? _) = false |- _ => apply Z.leb_gt in H
  | H : (_ && _)%bool = true |- _ => apply andb_prop in H; destruct H
  | H : (_ || _)%bool = false |- _ => apply orb_false_elim in H; destruct H
  | H : negb _ = true |- _ => apply negb_true_iff in H
  | H : negb _ = false |- _ => apply negb_false_iff in H
  end.
