(* ===== verification/KState.v ===== *)
(** * Kernel state: the objects of include/sysobj.h and arm/include/sysobj_mach.h,
    the scheduler's tables of sys/proc.c and the machine state of arm/kern/main.c.

    An object lives at the address the code uses for it; each type of object
    has its own map from addresses, and [k_head] holds the header (reference
    count and type tag) the code inspects before it casts.  Following a pointer
    that is not in the map of the type it is cast to is a [Fault]. *)
From S2P Require Import Prelude.

Local Open Scope Z_scope.
Local Open Scope c_scope.

(** ** Constants *)
Definition ROOT_PID : Z := 1.
Definition MESSAGE_LEN : Z := 64.
Definition PID_SIGNAL : Z := 0.
Definition CID_CLIST : Z := Z.shiftl 0 12.
Definition CID_PARENT : Z := Z.shiftl 1 12.
Definition CID_L1 : Z := Z.shiftl 2 12.
Definition CLIST_CAPS : Z := 510.
Definition CAP_write : Z := 1.
Definition CAP_read : Z := 2.
Definition OBJ_untyped : Z := 0.
Definition OBJ_endpoint : Z := 1.
Definition OBJ_caplist : Z := 2.
Definition OBJ_proc : Z := 3.
Definition OBJ_intr : Z := 4.
Definition OBJ_frame : Z := 5.
Definition OBJ_type_n : Z := 6.
Definition FRAME_NONE : Z := 0.
Definition FRAME_MEM : Z := 1.
Definition FRAME_DEV : Z := 2.
Definition FRAME_L1 : Z := 3.
Definition FRAME_L2 : Z := 4.
Definition FRAME_KOBJ : Z := 5.
Definition PRIORITY_MAX : Z := 16.
Definition MAX_PROCS : Z := 16.
Definition MIN_TIME_SLICE : Z := 10.

(** [sizeof] of the object structures on the 32-bit ARM targets. *)
Definition sizeof_untyped : Z := 12.
Definition sizeof_endpoint : Z := 28.
Definition sizeof_caplist : Z := 4088.
Definition sizeof_proc : Z := 1224.
Definition sizeof_intr : Z := 20.
Definition sizeof_frame : Z := 28.

(** SYSTICK, the length of a full time slice, is set by each board's build
    file; the scheduler relies on it being longer than a minimal slice. *)
Class Board := {
  SYSTICK : Z;
  SYSTICK_range : MIN_TIME_SLICE < SYSTICK < 2 ^ 31
}.
Definition vexpress_a9 : Board.
Proof. refine {| SYSTICK := 1000000 |}. unfold MIN_TIME_SLICE. lia. Defined.

(** ** Data *)
Record cap := mk_cap { c_perm : Z; c_obj : Z }.
Definition cap_empty : cap := mk_cap 0 NIL.
(** A [cap_t *]: the caplist it points into and the index of the slot.  The
    index is a plain integer because the code computes it before any check. *)
Definition capref : Type := Z * Z.

Inductive procstate := PROC_fault | PROC_ready | PROC_block_recv | PROC_block_send | PROC_block_reply.
#[export] Instance procstate_eq_dec : EqDecision procstate.
Proof. solve_decision. Defined.
#[export] Instance cap_eq_dec : EqDecision cap.
Proof. solve_decision. Defined.

(** What a saved [label_t] resumes: the kernel code after the call of
    [schedule] that saved it, or a process' first entry into user mode. *)
Inductive cont :=
  | K_zero                                         (* a cleared label *)
  | K_start (pc sp : Z)                            (* func_label(.., proc_start, pc, sp) *)
  | K_recv (e : Z) (o : option capref)             (* recv, inside its loop *)
  | K_reply
  | K_mesg (o : option capref)
  | K_signal
  | K_yield
  | K_exit
  | K_trap.

Record obj_head := mk_head { h_refs : Z; h_type : Z }.

Record obj_endpoint := mk_endpoint {
  e_signal : Z;
  e_bound : Z;
  e_rwait : Z;
  e_whead : Z;
  e_wtail : Z
}.
Definition set_e_signal (v : Z) (x : obj_endpoint) : obj_endpoint :=
  mk_endpoint v (e_bound x) (e_rwait x) (e_whead x) (e_wtail x).
Definition set_e_bound (v : Z) (x : obj_endpoint) : obj_endpoint :=
  mk_endpoint (e_signal x) v (e_rwait x) (e_whead x) (e_wtail x).
Definition set_e_rwait (v : Z) (x : obj_endpoint) : obj_endpoint :=
  mk_endpoint (e_signal x) (e_bound x) v (e_whead x) (e_wtail x).
Definition set_e_whead (v : Z) (x : obj_endpoint) : obj_endpoint :=
  mk_endpoint (e_signal x) (e_bound x) (e_rwait x) v (e_wtail x).
Definition set_e_wtail (v : Z) (x : obj_endpoint) : obj_endpoint :=
  mk_endpoint (e_signal x) (e_bound x) (e_rwait x) (e_whead x) v.

Record obj_proc := mk_proc {
  p_label : cont;
  p_state : procstate;
  p_pid : Z;
  p_priority : Z;
  p_ts : Z;
  p_slist : option (Z * Z);
  p_sprev : Z;
  p_snext : Z;
  p_vspace : Z;
  p_bound_signal : Z;
  p_m : list Z;
  p_m_ret : Z;
  p_give : option capref;
  p_take : option capref;
  p_wprev : Z;
  p_wnext : Z;
  p_cap_root : Z
}.
Definition set_p_label (v : cont) (x : obj_proc) : obj_proc :=
  mk_proc v (p_state x) (p_pid x) (p_priority x) (p_ts x) (p_slist x) (p_sprev x) (p_snext x) (p_vspace x) (p_bound_signal x) (p_m x) (p_m_ret x) (p_give x) (p_take x) (p_wprev x) (p_wnext x) (p_cap_root x).
Definition set_p_state (v : procstate) (x : obj_proc) : obj_proc :=
  mk_proc (p_label x) v (p_pid x) (p_priority x) (p_ts x) (p_slist x) (p_sprev x) (p_snext x) (p_vspace x) (p_bound_signal x) (p_m x) (p_m_ret x) (p_give x) (p_take x) (p_wprev x) (p_wnext x) (p_cap_root x).
Definition set_p_pid (v : Z) (x : obj_proc) : obj_proc :=
  mk_proc (p_label x) (p_state x) v (p_priority x) (p_ts x) (p_slist x) (p_sprev x) (p_snext x) (p_vspace x) (p_bound_signal x) (p_m x) (p_m_ret x) (p_give x) (p_take x) (p_wprev x) (p_wnext x) (p_cap_root x).
Definition set_p_priority (v : Z) (x : obj_proc) : obj_proc :=
  mk_proc (p_label x) (p_state x) (p_pid x) v (p_ts x) (p_slist x) (p_sprev x) (p_snext x) (p_vspace x) (p_bound_signal x) (p_m x) (p_m_ret x) (p_give x) (p_take x) (p_wprev x) (p_wnext x) (p_cap_root x).
Definition set_p_ts (v : Z) (x : obj_proc) : obj_proc :=
  mk_proc (p_label x) (p_state x) (p_pid x) (p_priority x) v (p_slist x) (p_sprev x) (p_snext x) (p_vspace x) (p_bound_signal x) (p_m x) (p_m_ret x) (p_give x) (p_take x) (p_wprev x) (p_wnext x) (p_cap_root x).
Definition set_p_slist (v : option (Z * Z)) (x : obj_proc) : obj_proc :=
  mk_proc (p_label x) (p_state x) (p_pid x) (p_priority x) (p_ts x) v (p_sprev x) (p_snext x) (p_vspace x) (p_bound_signal x) (p_m x) (p_m_ret x) (p_give x) (p_take x) (p_wprev x) (p_wnext x) (p_cap_root x).
Definition set_p_sprev (v : Z) (x : obj_proc) : obj_proc :=
  mk_proc (p_label x) (p_state x) (p_pid x) (p_priority x) (p_ts x) (p_slist x) v (p_snext x) (p_vspace x) (p_bound_signal x) (p_m x) (p_m_ret x) (p_give x) (p_take x) (p_wprev x) (p_wnext x) (p_cap_root x).
Definition set_p_snext (v : Z) (x : obj_proc) : obj_proc :=
  mk_proc (p_label x) (p_state x) (p_pid x) (p_priority x) (p_ts x) (p_slist x) (p_sprev x) v (p_vspace x) (p_bound_signal x) (p_m x) (p_m_ret x) (p_give x) (p_take x) (p_wprev x) (p_wnext x) (p_cap_root x).
Definition set_p_vspace (v : Z) (x : obj_proc) : obj_proc :=
  mk_proc (p_label x) (p_state x) (p_pid x) (p_priority x) (p_ts x) (p_slist x) (p_sprev x) (p_snext x) v (p_bound_signal x) (p_m x) (p_m_ret x) (p_give x) (p_take x) (p_wprev x) (p_wnext x) (p_cap_root x).
Definition set_p_bound_signal (v : Z) (x : obj_proc) : obj_proc :=
  mk_proc (p_label x) (p_state x) (p_pid x) (p_priority x) (p_ts x) (p_slist x) (p_sprev x) (p_snext x) (p_vspace x) v (p_m x) (p_m_ret x) (p_give x) (p_take x) (p_wprev x) (p_wnext x) (p_cap_root x).
Definition set_p_m (v : list Z) (x : obj_proc) : obj_proc :=
  mk_proc (p_label x) (p_state x) (p_pid x) (p_priority x) (p_ts x) (p_slist x) (p_sprev x) (p_snext x) (p_vspace x) (p_bound_signal x) v (p_m_ret x) (p_give x) (p_take x) (p_wprev x) (p_wnext x) (p_cap_root x).
Definition set_p_m_ret (v : Z) (x : obj_proc) : obj_proc :=
  mk_proc (p_label x) (p_state x) (p_pid x) (p_priority x) (p_ts x) (p_slist x) (p_sprev x) (p_snext x) (p_vspace x) (p_bound_signal x) (p_m x) v (p_give x) (p_take x) (p_wprev x) (p_wnext x) (p_cap_root x).
Definition set_p_give (v : option capref) (x : obj_proc) : obj_proc :=
  mk_proc (p_label x) (p_state x) (p_pid x) (p_priority x) (p_ts x) (p_slist x) (p_sprev x) (p_snext x) (p_vspace x) (p_bound_signal x) (p_m x) (p_m_ret x) v (p_take x) (p_wprev x) (p_wnext x) (p_cap_root x).
Definition set_p_take (v : option capref) (x : obj_proc) : obj_proc :=
  mk_proc (p_label x) (p_state x) (p_pid x) (p_priority x) (p_ts x) (p_slist x) (p_sprev x) (p_snext x) (p_vspace x) (p_bound_signal x) (p_m x) (p_m_ret x) (p_give x) v (p_wprev x) (p_wnext x) (p_cap_root x).
Definition set_p_wprev (v : Z) (x : obj_proc) : obj_proc :=
  mk_proc (p_label x) (p_state x) (p_pid x) (p_priority x) (p_ts x) (p_slist x) (p_sprev x) (p_snext x) (p_vspace x) (p_bound_signal x) (p_m x) (p_m_ret x) (p_give x) (p_take x) v (p_wnext x) (p_cap_root x).
Definition set_p_wnext (v : Z) (x : obj_proc) : obj_proc :=
  mk_proc (p_label x) (p_state x) (p_pid x) (p_priority x) (p_ts x) (p_slist x) (p_sprev x) (p_snext x) (p_vspace x) (p_bound_signal x) (p_m x) (p_m_ret x) (p_give x) (p_take x) (p_wprev x) v (p_cap_root x).
Definition set_p_cap_root (v : Z) (x : obj_proc) : obj_proc :=
  mk_proc (p_label x) (p_state x) (p_pid x) (p_priority x) (p_ts x) (p_slist x) (p_sprev x) (p_snext x) (p_vspace x) (p_bound_signal x) (p_m x) (p_m_ret x) (p_give x) (p_take x) (p_wprev x) (p_wnext x) v.

Record obj_intr := mk_intr {
  i_irqn : Z;
  i_end : Z;
  i_sig : Z
}.
Definition set_i_irqn (v : Z) (x : obj_intr) : obj_intr :=
  mk_intr v (i_end x) (i_sig x).
Definition set_i_end (v : Z) (x : obj_intr) : obj_intr :=
  mk_intr (i_irqn x) v (i_sig x).
Definition set_i_sig (v : Z) (x : obj_intr) : obj_intr :=
  mk_intr (i_irqn x) (i_end x) v.

Record obj_frame := mk_frame {
  f_pa : Z;
  f_len : Z;
  f_type : Z;
  f_va : Z;
  f_next : Z
}.
Definition set_f_pa (v : Z) (x : obj_frame) : obj_frame :=
  mk_frame v (f_len x) (f_type x) (f_va x) (f_next x).
Definition set_f_len (v : Z) (x : obj_frame) : obj_frame :=
  mk_frame (f_pa x) v (f_type x) (f_va x) (f_next x).
Definition set_f_type (v : Z) (x : obj_frame) : obj_frame :=
  mk_frame (f_pa x) (f_len x) v (f_va x) (f_next x).
Definition set_f_va (v : Z) (x : obj_frame) : obj_frame :=
  mk_frame (f_pa x) (f_len x) (f_type x) v (f_next x).
Definition set_f_next (v : Z) (x : obj_frame) : obj_frame :=
  mk_frame (f_pa x) (f_len x) (f_type x) (f_va x) v.

Record proc_list := mk_plist { l_head : Z; l_tail : Z }.
Definition plist_nil : proc_list := mk_plist NIL NIL.
Record ready_list := mk_ready {
  r_q0 : proc_list;
  r_q1 : proc_list;
  r_q : Z
}.
Definition set_r_q0 (v : proc_list) (x : ready_list) : ready_list :=
  mk_ready v (r_q1 x) (r_q x).
Definition set_r_q1 (v : proc_list) (x : ready_list) : ready_list :=
  mk_ready (r_q0 x) v (r_q x).
Definition set_r_q (v : Z) (x : ready_list) : ready_list :=
  mk_ready (r_q0 x) (r_q1 x) v.

(** Machine state: the physical words the kernel edits through its own
    mappings, its page tables, the window [va_next .. va_max) it maps frames in,
    and the interrupt controller's tables. *)
Record mach := mk_mach {
  m_passed : Z;
  m_pmem : gmap Z Z;
  m_ttb : Z;
  m_kernel_l1 : gmap Z Z;
  m_kernel_l2 : gmap Z Z;
  m_va_next : Z;
  m_va_min : Z;
  m_va_max : Z;
  m_given : list bool;
  m_handler : list (Z * Z);
  m_enabled : gset Z
}.
Definition set_m_passed (v : Z) (x : mach) : mach :=
  mk_mach v (m_pmem x) (m_ttb x) (m_kernel_l1 x) (m_kernel_l2 x) (m_va_next x) (m_va_min x) (m_va_max x) (m_given x) (m_handler x) (m_enabled x).
Definition set_m_pmem (v : gmap Z Z) (x : mach) : mach :=
  mk_mach (m_passed x) v (m_ttb x) (m_kernel_l1 x) (m_kernel_l2 x) (m_va_next x) (m_va_min x) (m_va_max x) (m_given x) (m_handler x) (m_enabled x).
Definition set_m_ttb (v : Z) (x : mach) : mach :=
  mk_mach (m_passed x) (m_pmem x) v (m_kernel_l1 x) (m_kernel_l2 x) (m_va_next x) (m_va_min x) (m_va_max x) (m_given x) (m_handler x) (m_enabled x).
Definition set_m_kernel_l1 (v : gmap Z Z) (x : mach) : mach :=
  mk_mach (m_passed x) (m_pmem x) (m_ttb x) v (m_kernel_l2 x) (m_va_next x) (m_va_min x) (m_va_max x) (m_given x) (m_handler x) (m_enabled x).
Definition set_m_kernel_l2 (v : gmap Z Z) (x : mach) : mach :=
  mk_mach (m_passed x) (m_pmem x) (m_ttb x) (m_kernel_l1 x) v (m_va_next x) (m_va_min x) (m_va_max x) (m_given x) (m_handler x) (m_enabled x).
Definition set_m_va_next (v : Z) (x : mach) : mach :=
  mk_mach (m_passed x) (m_pmem x) (m_ttb x) (m_kernel_l1 x) (m_kernel_l2 x) v (m_va_min x) (m_va_max x) (m_given x) (m_handler x) (m_enabled x).
Definition set_m_va_min (v : Z) (x : mach) : mach :=
  mk_mach (m_passed x) (m_pmem x) (m_ttb x) (m_kernel_l1 x) (m_kernel_l2 x) (m_va_next x) v (m_va_max x) (m_given x) (m_handler x) (m_enabled x).
Definition set_m_va_max (v : Z) (x : mach) : mach :=
  mk_mach (m_passed x) (m_pmem x) (m_ttb x) (m_kernel_l1 x) (m_kernel_l2 x) (m_va_next x) (m_va_min x) v (m_given x) (m_handler x) (m_enabled x).
Definition set_m_given (v : list bool) (x : mach) : mach :=
  mk_mach (m_passed x) (m_pmem x) (m_ttb x) (m_kernel_l1 x) (m_kernel_l2 x) (m_va_next x) (m_va_min x) (m_va_max x) v (m_handler x) (m_enabled x).
Definition set_m_handler (v : list (Z * Z)) (x : mach) : mach :=
  mk_mach (m_passed x) (m_pmem x) (m_ttb x) (m_kernel_l1 x) (m_kernel_l2 x) (m_va_next x) (m_va_min x) (m_va_max x) (m_given x) v (m_enabled x).
Definition set_m_enabled (v : gset Z) (x : mach) : mach :=
  mk_mach (m_passed x) (m_pmem x) (m_ttb x) (m_kernel_l1 x) (m_kernel_l2 x) (m_va_next x) (m_va_min x) (m_va_max x) (m_given x) (m_handler x) v.

Record kstate := mk_kstate {
  k_head : gmap Z obj_head;
  k_untyped : gmap Z Z;
  k_endpoint : gmap Z obj_endpoint;
  k_caplist : gmap Z (list cap);
  k_proc : gmap Z obj_proc;
  k_intr : gmap Z obj_intr;
  k_frame : gmap Z obj_frame;
  k_scratch : gmap Z Z;
  k_ready : list ready_list;
  k_up : Z;
  k_nextpid : Z;
  k_procs : list Z;
  k_mach : mach
}.
Definition set_k_head (v : gmap Z obj_head) (x : kstate) : kstate :=
  mk_kstate v (k_untyped x) (k_endpoint x) (k_caplist x) (k_proc x) (k_intr x) (k_frame x) (k_scratch x) (k_ready x) (k_up x) (k_nextpid x) (k_procs x) (k_mach x).
Definition set_k_untyped (v : gmap Z Z) (x : kstate) : kstate :=
  mk_kstate (k_head x) v (k_endpoint x) (k_caplist x) (k_proc x) (k_intr x) (k_frame x) (k_scratch x) (k_ready x) (k_up x) (k_nextpid x) (k_procs x) (k_mach x).
Definition set_k_endpoint (v : gmap Z obj_endpoint) (x : kstate) : kstate :=
  mk_kstate (k_head x) (k_untyped x) v (k_caplist x) (k_proc x) (k_intr x) (k_frame x) (k_scratch x) (k_ready x) (k_up x) (k_nextpid x) (k_procs x) (k_mach x).
Definition set_k_caplist (v : gmap Z (list cap)) (x : kstate) : kstate :=
  mk_kstate (k_head x) (k_untyped x) (k_endpoint x) v (k_proc x) (k_intr x) (k_frame x) (k_scratch x) (k_ready x) (k_up x) (k_nextpid x) (k_procs x) (k_mach x).
Definition set_k_proc (v : gmap Z obj_proc) (x : kstate) : kstate :=
  mk_kstate (k_head x) (k_untyped x) (k_endpoint x) (k_caplist x) v (k_intr x) (k_frame x) (k_scratch x) (k_ready x) (k_up x) (k_nextpid x) (k_procs x) (k_mach x).
Definition set_k_intr (v : gmap Z obj_intr) (x : kstate) : kstate :=
  mk_kstate (k_head x) (k_untyped x) (k_endpoint x) (k_caplist x) (k_proc x) v (k_frame x) (k_scratch x) (k_ready x) (k_up x) (k_nextpid x) (k_procs x) (k_mach x).
Definition set_k_frame (v : gmap Z obj_frame) (x : kstate) : kstate :=
  mk_kstate (k_head x) (k_untyped x) (k_endpoint x) (k_caplist x) (k_proc x) (k_intr x) v (k_scratch x) (k_ready x) (k_up x) (k_nextpid x) (k_procs x) (k_mach x).
Definition set_k_scratch (v : gmap Z Z) (x : kstate) : kstate :=
  mk_kstate (k_head x) (k_untyped x) (k_endpoint x) (k_caplist x) (k_proc x) (k_intr x) (k_frame x) v (k_ready x) (k_up x) (k_nextpid x) (k_procs x) (k_mach x).
Definition set_k_ready (v : list ready_list) (x : kstate) : kstate :=
  mk_kstate (k_head x) (k_untyped x) (k_endpoint x) (k_caplist x) (k_proc x) (k_intr x) (k_frame x) (k_scratch x) v (k_up x) (k_nextpid x) (k_procs x) (k_mach x).
Definition set_k_up (v : Z) (x : kstate) : kstate :=
  mk_kstate (k_head x) (k_untyped x) (k_endpoint x) (k_caplist x) (k_proc x) (k_intr x) (k_frame x) (k_scratch x) (k_ready x) v (k_nextpid x) (k_procs x) (k_mach x).
Definition set_k_nextpid (v : Z) (x : kstate) : kstate :=
  mk_kstate (k_head x) (k_untyped x) (k_endpoint x) (k_caplist x) (k_proc x) (k_intr x) (k_frame x) (k_scratch x) (k_ready x) (k_up x) v (k_procs x) (k_mach x).
Definition set_k_procs (v : list Z) (x : kstate) : kstate :=
  mk_kstate (k_head x) (k_untyped x) (k_endpoint x) (k_caplist x) (k_proc x) (k_intr x) (k_frame x) (k_scratch x) (k_ready x) (k_up x) (k_nextpid x) v (k_mach x).
Definition set_k_mach (v : mach) (x : kstate) : kstate :=
  mk_kstate (k_head x) (k_untyped x) (k_endpoint x) (k_caplist x) (k_proc x) (k_intr x) (k_frame x) (k_scratch x) (k_ready x) (k_up x) (k_nextpid x) (k_procs x) v.

(** ** Access to the state *)
Abbreviation KM A := (M kstate A).

Definition get_proc (a : Z) : KM obj_proc := read FNil (fun s => k_proc s !! a).
Definition put_proc (a : Z) (p : obj_proc) : KM unit :=
  modify (fun s => set_k_proc (<[a := p]> (k_proc s)) s).
(** [p->field = v] *)
Definition upd_proc (a : Z) (f : obj_proc -> obj_proc) : KM unit :=
  let* p := get_proc a in put_proc a (f p).

Definition get_endpoint (a : Z) : KM obj_endpoint := read FNil (fun s => k_endpoint s !! a).
Definition upd_endpoint (a : Z) (f : obj_endpoint -> obj_endpoint) : KM unit :=
  let* e := get_endpoint a in
  modify (fun s => set_k_endpoint (<[a := f e]> (k_endpoint s)) s).

Definition get_frame (a : Z) : KM obj_frame := read FNil (fun s => k_frame s !! a).
Definition upd_frame (a : Z) (f : obj_frame -> obj_frame) : KM unit :=
  let* e := get_frame a in
  modify (fun s => set_k_frame (<[a := f e]> (k_frame s)) s).

Definition get_intr (a : Z) : KM obj_intr := read FNil (fun s => k_intr s !! a).
Definition upd_intr (a : Z) (f : obj_intr -> obj_intr) : KM unit :=
  let* e := get_intr a in
  modify (fun s => set_k_intr (<[a := f e]> (k_intr s)) s).

Definition get_untyped (a : Z) : KM Z := read FNil (fun s => k_untyped s !! a).
Definition get_head (a : Z) : KM obj_head := read FNil (fun s => k_head s !! a).

(** The slot a [cap_t *] points to. *)
Definition cap_lookup (r : capref) (s : kstate) : option cap :=
  l ← k_caplist s !! r.1; znth l r.2.
Definition get_cap (r : capref) : KM cap := read FBounds (cap_lookup r).
Definition put_cap (r : capref) (c : cap) : KM unit :=
  let* _ := get_cap r in
  modify (fun s => set_k_caplist (alter (zupd r.2 c) r.1 (k_caplist s)) s).

(** The running process [up]. *)
Definition get_up : KM Z := gets k_up.

(** [&ready[pr].queue[i]] *)
Definition ready_q (i : Z) (r : ready_list) : proc_list := if i =? 0 then r_q0 r else r_q1 r.
Definition set_ready_q (i : Z) (l : proc_list) (r : ready_list) : ready_list :=
  if i =? 0 then set_r_q0 l r else set_r_q1 l r.
Definition get_ready (pr : Z) : KM ready_list := read FBounds (fun s => znth (k_ready s) pr).
Definition upd_ready (pr : Z) (f : ready_list -> ready_list) : KM unit :=
  let* r := get_ready pr in
  modify (fun s => set_k_ready (zupd pr (f r) (k_ready s)) s).
Definition get_queue (l : Z * Z) : KM proc_list :=
  let* r := get_ready l.1 in ret (ready_q l.2 r).
Definition upd_queue (l : Z * Z) (f : proc_list -> proc_list) : KM unit :=
  upd_ready l.1 (fun r => set_ready_q l.2 (f (ready_q l.2 r)) r).

Definition set_l_head (v : Z) (l : proc_list) : proc_list := mk_plist v (l_tail l).
Definition set_l_tail (v : Z) (l : proc_list) : proc_list := mk_plist (l_head l) v.

(** ** Results of a system call

    [r0] goes to the caller's r0; [uout] is what the call wrote through the
    caller's pointers.  [Switched] is the [goto_label] of [schedule]: the
    machine continues with the label of the process now in [k_up]. *)
Inductive uout :=
  | UNone
  | USignal (w : Z)                          (* *pid = PID_SIGNAL, first word of m *)
  | UMesg (pid : Z) (m : list Z)             (* *pid, *m of recv *)
  | UReply (m : list Z)                      (* *rp of mesg *)
  | UFrame (type pa len : Z).                (* frame_info *)
Inductive sysres := Returned (r0 : Z) (o : uout) | Switched.

(** ** Reasoning about accesses *)
Section access.
Implicit Types s : kstate.

Lemma wpe_get_proc a p s (Q : obj_proc -> kstate -> Prop) E :
  k_proc s !! a = Some p -> Q p s -> wpe (get_proc a) s Q E.
Proof. intros. by eapply wpe_read. Qed.

Lemma wpe_upd_proc a f p s (Q : unit -> kstate -> Prop) E :
  k_proc s !! a = Some p -> Q tt (set_k_proc (<[a := f p]> (k_proc s)) s) ->
  wpe (upd_proc a f) s Q E.
Proof. intros. apply wpe_bind. by eapply wpe_get_proc. Qed.

(** Repeated accesses to the process written last. *)
Lemma wpe_get_proc_eq a p m s (Q : obj_proc -> kstate -> Prop) E :
  Q p (set_k_proc (<[a := p]> m) s) -> wpe (get_proc a) (set_k_proc (<[a := p]> m) s) Q E.
Proof. apply wpe_get_proc. apply lookup_insert_eq. Qed.

Lemma wpe_upd_proc_eq a f p m s (Q : unit -> kstate -> Prop) E :
  Q tt (set_k_proc (<[a := f p]> m) s) ->
  wpe (upd_proc a f) (set_k_proc (<[a := p]> m) s) Q E.
Proof.
  intros HQ. eapply wpe_upd_proc; [apply lookup_insert_eq|].
  unfold set_k_proc in *; cbn in *. by rewrite insert_insert_eq.
Qed.

Lemma wpe_get_endpoint a e s (Q : obj_endpoint -> kstate -> Prop) E :
  k_endpoint s !! a = Some e -> Q e s -> wpe (get_endpoint a) s Q E.
Proof. intros. by eapply wpe_read. Qed.

Lemma wpe_upd_endpoint a f e s (Q : unit -> kstate -> Prop) E :
  k_endpoint s !! a = Some e ->
  Q tt (set_k_endpoint (<[a := f e]> (k_endpoint s)) s) ->
  wpe (upd_endpoint a f) s Q E.
Proof. intros. apply wpe_bind. by eapply wpe_get_endpoint. Qed.

Lemma wpe_get_frame a e s (Q : obj_frame -> kstate -> Prop) E :
  k_frame s !! a = Some e -> Q e s -> wpe (get_frame a) s Q E.
Proof. intros. by eapply wpe_read. Qed.

Lemma wpe_upd_frame a f e s (Q : unit -> kstate -> Prop) E :
  k_frame s !! a = Some e ->
  Q tt (set_k_frame (<[a := f e]> (k_frame s)) s) ->
  wpe (upd_frame a f) s Q E.
Proof. intros. apply wpe_bind. by eapply wpe_get_frame. Qed.

Lemma wpe_get_untyped a n s (Q : Z -> kstate -> Prop) E :
  k_untyped s !! a = Some n -> Q n s -> wpe (get_untyped a) s Q E.
Proof. intros. by eapply wpe_read. Qed.

Lemma wpe_get_head a h s (Q : obj_head -> kstate -> Prop) E :
  k_head s !! a = Some h -> Q h s -> wpe (get_head a) s Q E.
Proof. intros. by eapply wpe_read. Qed.

Lemma wpe_get_cap r c s (Q : cap -> kstate -> Prop) E :
  cap_lookup r s = Some c -> Q c s -> wpe (get_cap r) s Q E.
Proof. intros. by eapply wpe_read. Qed.

Lemma wpe_put_cap r c c' s (Q : unit -> kstate -> Prop) E :
  cap_lookup r s = Some c ->
  Q tt (set_k_caplist (alter (zupd r.2 c') r.1 (k_caplist s)) s) ->
  wpe (put_cap r c') s Q E.
Proof. intros. apply wpe_bind. by eapply wpe_get_cap. Qed.

Lemma wpe_get_ready pr r s (Q : ready_list -> kstate -> Prop) E :
  znth (k_ready s) pr = Some r -> Q r s -> wpe (get_ready pr) s Q E.
Proof. intros. by eapply wpe_read. Qed.

Lemma wpe_upd_ready pr f r s (Q : unit -> kstate -> Prop) E :
  znth (k_ready s) pr = Some r ->
  Q tt (set_k_ready (zupd pr (f r) (k_ready s)) s) ->
  wpe (upd_ready pr f) s Q E.
Proof. intros. apply wpe_bind. by eapply wpe_get_ready. Qed.

Lemma wpe_get_queue l r s (Q : proc_list -> kstate -> Prop) E :
  znth (k_ready s) l.1 = Some r -> Q (ready_q l.2 r) s -> wpe (get_queue l) s Q E.
Proof. intros. apply wpe_bind. by eapply wpe_get_ready. Qed.

Lemma cap_lookup_put r c' r' s :
  cap_lookup r' (set_k_caplist (alter (zupd r.2 c') r.1 (k_caplist s)) s) =
  if decide (r = r') then (fun _ => c') <$> cap_lookup r s else cap_lookup r' s.
Proof.
  destruct r as [a i], r' as [a' i']. unfold cap_lookup; cbn.
  destruct (decide (a = a')) as [<-|Ha].
  - rewrite lookup_alter_eq. destruct (k_caplist s !! a) as [l|]; cbn.
    2: { by case_decide. }
    destruct (decide (i = i')) as [<-|Hi]; case_decide; simplify_eq.
    + destruct (znth l i) as [c|] eqn:Hc; cbn.
      * apply znth_zupd_eq. by eapply znth_bound.
      * apply znth_None. rewrite length_zupd. by apply znth_None.
    + by apply znth_zupd_ne.
  - rewrite lookup_alter_ne by done. case_decide; naive_solver.
Qed.
End access.

(** Finds what an address holds in an updated state. *)
Ltac klook :=
  cbn;
  first
    [ eassumption
    | apply lookup_insert_eq
    | rewrite lookup_insert_ne by congruence; klook
    | simplify_map_eq; done ].

(** Extends [wstep] with the accesses of this file. *)
Ltac kstep :=
  lazymatch goal with
  | |- wpe (get_proc _) _ _ _ =>
      first [apply wpe_get_proc_eq | eapply wpe_get_proc; [klook|]]
  | |- wpe (upd_proc _ _) _ _ _ =>
      first [apply wpe_upd_proc_eq | eapply wpe_upd_proc; [klook|]]
  | |- wpe (get_endpoint _) _ _ _ => eapply wpe_get_endpoint; [klook|]
  | |- wpe (upd_endpoint _ _) _ _ _ => eapply wpe_upd_endpoint; [klook|]
  | |- wpe (get_frame _) _ _ _ => eapply wpe_get_frame; [klook|]
  | |- wpe (upd_frame _ _) _ _ _ => eapply wpe_upd_frame; [klook|]
  | |- wpe (get_untyped _) _ _ _ => eapply wpe_get_untyped; [klook|]
  | |- wpe (get_head _) _ _ _ => eapply wpe_get_head; [klook|]
  | |- wpe (get_cap _) _ _ _ => eapply wpe_get_cap; [klook|]
  | |- wpe (put_cap _ _) _ _ _ => eapply wpe_put_cap; [klook|]
  | |- wpe (get_ready _) _ _ _ => eapply wpe_get_ready; [klook|]
  | |- wpe (upd_ready _ _) _ _ _ => eapply wpe_upd_ready; [klook|]
  | |- wpe (get_queue _) _ _ _ => eapply wpe_get_queue; [klook|]
  | |- wpe get_up _ _ _ => apply wpe_gets
  | |- _ => wstep
  end.
Ltac ksteps := repeat (kstep; cbn beta).

(** ** A small concrete kernel

    The witnesses run on it: two processes of which the first is running, their
    capability lists, an endpoint, three blocks of untyped memory, a frame and an
    interrupt object; nothing is queued. *)
Definition demo_mach (va_next : Z) : mach :=
  mk_mach 0 ∅ 0 ∅ ∅ va_next 0xff000000 0xff400000 (replicate 128 false) (replicate 128 (0, 0)) ∅.
Definition demo_proc (pid root : Z) (st : procstate) : obj_proc :=
  mk_proc K_zero st pid 1 1000 None NIL NIL 0x60000000 0 (replicate 16 0) 0 None None NIL NIL root.
Definition demo_caps : list cap :=
  [mk_cap 3 0x3000; cap_empty; cap_empty; mk_cap 3 0x6000; mk_cap 3 0x5000; mk_cap 3 0x4000;
   mk_cap 3 0x2000; mk_cap 3 0x7000; mk_cap 3 0x7800; mk_cap 3 0x8000; mk_cap 3 0x8100] ++
  replicate 499 cap_empty.
Definition demo : kstate :=
  mk_kstate
    (list_to_map [(0x1000, mk_head 1 OBJ_proc); (0x2000, mk_head 1 OBJ_proc); (0x3000, mk_head 1 OBJ_caplist);
       (0x4000, mk_head 1 OBJ_caplist); (0x5000, mk_head 1 OBJ_endpoint); (0x6000, mk_head 1 OBJ_untyped);
       (0x7000, mk_head 1 OBJ_untyped); (0x7800, mk_head 1 OBJ_untyped); (0x8000, mk_head 1 OBJ_frame);
       (0x8100, mk_head 1 OBJ_intr)])
    (list_to_map [(0x6000, 0x1000); (0x7000, 0x800); (0x7800, 0x800)])
    {[ 0x5000 := mk_endpoint 0 NIL NIL NIL NIL ]}
    (list_to_map [(0x3000, demo_caps); (0x4000, mk_cap 3 0x4000 :: replicate 509 cap_empty)])
    (list_to_map [(0x1000, demo_proc 1 0x3000 PROC_ready); (0x2000, demo_proc 2 0x4000 PROC_fault)])
    {[ 0x8100 := mk_intr 0 NIL 0 ]}
    {[ 0x8000 := mk_frame 0 0 FRAME_NONE NIL NIL ]}
    ∅ (replicate 16 (mk_ready plist_nil plist_nil 0)) 0x1000 3
    ([0; 0x1000; 0x2000] ++ replicate 13 NIL) (demo_mach 0xff010000).
