(* ===== verification/DList.v ===== *)
(** * Intrusive doubly linked lists

    The kernel threads processes on two kinds of list: the scheduler's ready
    queues ([sprev]/[snext], sys/proc.c) and the senders waiting on an endpoint
    ([wprev]/[wnext], sys/sys.c).  Both are instances of this theory, which
    looks only at the pair of links of each node: a map from addresses to
    (previous, next). *)
From S2P Require Import Prelude KState.

Local Open Scope Z_scope.

Abbreviation links := (gmap Z (Z * Z)).

Definition firstz (d : Z) (l : list Z) : Z := default d (head l).
Definition lastz (d : Z) (l : list Z) : Z := default d (last l).

(** [dseg m p l n]: the nodes [l] are linked in this order, the first one's
    previous link is [p] and the last one's next link is [n]. *)
Fixpoint dseg (m : links) (p : Z) (l : list Z) (n : Z) : Prop :=
  match l with
  | [] => True
  | a :: l' => a <> NIL /\ m !! a = Some (p, firstz n l') /\ dseg m a l' n
  end.

(** The list a [proc_list_t] stands for. *)
Record dlist (m : links) (q : proc_list) (l : list Z) : Prop := {
  dl_head : l_head q = firstz NIL l;
  dl_tail : l_tail q = lastz NIL l;
  dl_seg : dseg m NIL l NIL;
  dl_nodup : NoDup l
}.

(** The two pointer surgeries of the code, on the links alone. *)
Definition links_append (m : links) (q : proc_list) (a : Z) : links :=
  let m1 := <[a := (l_tail q, NIL)]> m in
  if l_tail q =? NIL then m1 else alter (fun x => (x.1, a)) (l_tail q) m1.
Definition plist_append (q : proc_list) (a : Z) : proc_list :=
  mk_plist (if l_tail q =? NIL then a else l_head q) a.

Definition links_unlink (m : links) (p n : Z) : links :=
  let m1 := if p =? NIL then m else alter (fun x => (x.1, n)) p m in
  if n =? NIL then m1 else alter (fun x => (p, x.2)) n m1.
Definition plist_unlink (q : proc_list) (p n : Z) : proc_list :=
  mk_plist (if p =? NIL then n else l_head q) (if n =? NIL then p else l_tail q).

Section dlists.
Implicit Types (m : links) (q : proc_list) (l : list Z) (a b p n : Z).

Lemma firstz_app d l1 l2 : firstz d (l1 ++ l2) = firstz (firstz d l2) l1.
Proof. by destruct l1. Qed.

Lemma lastz_cons d a l : lastz d (a :: l) = lastz a l.
Proof. unfold lastz. rewrite last_cons. by destruct (last l). Qed.

Lemma lastz_app d l1 l2 : lastz d (l1 ++ l2) = lastz (lastz d l1) l2.
Proof. revert d. induction l1 as [|x l1 IH]; intros d; [done|]. cbn [app]. rewrite !lastz_cons. apply IH. Qed.

Lemma lastz_elem d l : lastz d l = d \/ lastz d l ∈ l.
Proof.
  revert d. induction l as [|x l IH]; intros d; [by left|]. right. rewrite lastz_cons.
  destruct (IH x) as [->|]; set_solver.
Qed.

Lemma firstz_elem d l : firstz d l = d \/ firstz d l ∈ l.
Proof. destruct l; cbn; [by left|right; set_solver]. Qed.

Lemma dseg_app m p l1 l2 n :
  dseg m p (l1 ++ l2) n <-> dseg m p l1 (firstz n l2) /\ dseg m (lastz p l1) l2 n.
Proof.
  revert p. induction l1 as [|a l1 IH]; intros p; cbn [app dseg]; [unfold lastz; cbn; tauto|].
  rewrite lastz_cons, IH, firstz_app. tauto.
Qed.

Lemma dseg_frame m m' p l n :
  (forall a, a ∈ l -> m' !! a = m !! a) -> dseg m p l n -> dseg m' p l n.
Proof.
  revert p. induction l as [|a l IH]; intros p Hm; cbn; [done|]. intros (? & Ha & ?).
  rewrite Hm by set_solver. repeat split; [done..|]. apply IH; [|done]. intros; apply Hm. set_solver.
Qed.

Lemma dseg_elem m p l n a : dseg m p l n -> a ∈ l -> a <> NIL /\ is_Some (m !! a).
Proof.
  revert p. induction l as [|b l IH]; intros p; cbn; [set_solver|].
  intros (? & ? & ?) [->|?]%elem_of_cons; [eauto|]. by eapply IH.
Qed.

Lemma dlist_frame m m' q l :
  (forall a, a ∈ l -> m' !! a = m !! a) -> dlist m q l -> dlist m' q l.
Proof. intros ? []. constructor; eauto using dseg_frame. Qed.

Lemma dlist_nil m : dlist m plist_nil [].
Proof. constructor; try done. apply NoDup_nil_2. Qed.

Lemma dlist_elem m q l a : dlist m q l -> a ∈ l -> a <> NIL /\ is_Some (m !! a).
Proof. intros []. by apply dseg_elem with NIL NIL. Qed.

Lemma lastz_nil l m p n : dseg m p l n -> lastz NIL l = NIL -> l = [].
Proof.
  intros Hd H0. destruct l as [|a l _] using rev_ind; [done|]. exfalso.
  rewrite lastz_app in H0. apply dseg_app in Hd as [_ Hd]. cbn in Hd. by destruct Hd.
Qed.

(** Appending at the tail. *)
Lemma dlist_append m q l a :
  dlist m q l -> a <> NIL -> a ∉ l ->
  dlist (links_append m q a) (plist_append q a) (l ++ [a]).
Proof.
  intros [Hh Ht Hs Hn] Ha Hal. unfold links_append, plist_append. rewrite Ht.
  destruct (Z.eqb_spec (lastz NIL l) NIL) as [E|E].
  - apply (lastz_nil _ m NIL NIL) in E as ->; [|done]. constructor; [done..| |by apply NoDup_singleton].
    cbn [app dseg]. split; [done|]. split; [|done]. by rewrite lookup_insert_eq.
  - destruct l as [|b l _] using rev_ind; [done|]. rewrite lastz_app in *. cbn.
    change (lastz (lastz NIL l) [b]) with b in *.
    apply NoDup_snoc in Hn as Hn'. destruct Hn' as [_ Hbl].
    apply dseg_app in Hs as [Hs1 (? & Hb & _)]. cbn in Hb.
    constructor; cbn [l_head l_tail].
    + rewrite Hh, !firstz_app. by destruct l.
    + by rewrite lastz_app.
    + rewrite !dseg_app, lastz_app. cbn [dseg]. repeat split; try done.
      * eapply dseg_frame, Hs1. intros c Hc. rewrite lookup_alter_ne by set_solver.
        rewrite lookup_insert_ne by set_solver. done.
      * rewrite lookup_alter_eq, lookup_insert_ne by set_solver. by rewrite Hb.
      * rewrite lookup_alter_ne by set_solver. by rewrite lookup_insert_eq.
    + apply NoDup_snoc. done.
Qed.

Lemma links_append_other m q a b :
  b <> a -> b <> l_tail q -> links_append m q a !! b = m !! b.
Proof.
  intros. unfold links_append. case_match; [by rewrite lookup_insert_ne|].
  by rewrite lookup_alter_ne, lookup_insert_ne.
Qed.

Lemma dlist_tail_elem m q l : dlist m q l -> l_tail q = NIL \/ l_tail q ∈ l.
Proof. intros []. rewrite dl_tail0. apply lastz_elem. Qed.

(** A change of a next or previous link at the border of a segment. *)
Lemma dseg_set_next m p l n n' :
  NoDup l -> dseg m p l n -> lastz NIL l <> NIL ->
  dseg (alter (fun x => (x.1, n')) (lastz NIL l) m) p l n'.
Proof.
  destruct l as [|b l _] using rev_ind; [done|]. rewrite lastz_app. cbn.
  intros [? Hbl]%NoDup_snoc [Hs1 (? & Hb & _)]%dseg_app Hb0.
  change (lastz (lastz NIL l) [b]) with b. rewrite dseg_app. cbn in *. repeat split; [|done|].
  - eapply dseg_frame, Hs1. intros c Hc. rewrite lookup_alter_ne by set_solver. done.
  - by rewrite lookup_alter_eq, Hb.
Qed.

Lemma dseg_set_prev m p p' l n :
  NoDup l -> dseg m p l n -> firstz NIL l <> NIL ->
  dseg (alter (fun x => (p', x.2)) (firstz NIL l) m) p' l n.
Proof.
  destruct l as [|b l]; [done|]. cbn. intros [Hbl ?]%NoDup_cons (? & Hb & Hs) Hb0. repeat split; [done|..].
  - by rewrite lookup_alter_eq, Hb.
  - eapply dseg_frame, Hs. intros c Hc. rewrite lookup_alter_ne by set_solver. done.
Qed.

Lemma dlist_links m q l1 a l2 :
  dlist m q (l1 ++ a :: l2) -> m !! a = Some (lastz NIL l1, firstz NIL l2).
Proof. intros [_ _ Hs _]. apply dseg_app in Hs as [_ (_ & ? & _)]. done. Qed.

Lemma firstz_nil_dseg m p l n : dseg m p l n -> firstz NIL l = NIL -> l = [].
Proof. destruct l; [done|]. by intros [? _]. Qed.

(** Taking a node out. *)
Lemma dlist_unlink m q l1 a l2 :
  dlist m q (l1 ++ a :: l2) ->
  dlist (links_unlink m (lastz NIL l1) (firstz NIL l2))
    (plist_unlink q (lastz NIL l1) (firstz NIL l2)) (l1 ++ l2).
Proof.
  intros [Hh Ht Hs Hn]. apply dseg_app in Hs as [Hs1 (Ha & Hl & Hs2)].
  apply NoDup_app in Hn as (Hn1 & Hd & [Ha2 Hn2]%NoDup_cons).
  assert (Hd' : forall x, x ∈ l1 -> x ∉ l2) by (intros x ? ?; by eapply Hd, list_elem_of_further).
  assert (Hn12 : NoDup (l1 ++ l2)) by (apply NoDup_app; eauto).
  change (firstz NIL (a :: l2)) with a in *.
  constructor; [| | |done]; cbn [plist_unlink l_head l_tail].
  - rewrite Hh, firstz_app. destruct (Z.eqb_spec (lastz NIL l1) NIL) as [E|E].
    + apply (lastz_nil _ _ _ _ Hs1) in E as ->. done.
    + rewrite firstz_app. by destruct l1.
  - rewrite Ht, lastz_app, lastz_cons. destruct (Z.eqb_spec (firstz NIL l2) NIL) as [E|E].
    + apply (firstz_nil_dseg _ _ _ _ Hs2) in E as ->. by rewrite app_nil_r.
    + destruct l2; [done|]. by rewrite lastz_app, !lastz_cons.
  - unfold links_unlink.
    assert (H1 : dseg (if lastz NIL l1 =? NIL then m
                       else alter (fun x => (x.1, firstz NIL l2)) (lastz NIL l1) m)
                   NIL l1 (firstz NIL l2)).
    { destruct (Z.eqb_spec (lastz NIL l1) NIL) as [E|E].
      - apply (lastz_nil _ _ _ _ Hs1) in E as ->. done.
      - by eapply dseg_set_next. }
    assert (H2 : dseg (if lastz NIL l1 =? NIL then m
                       else alter (fun x => (x.1, firstz NIL l2)) (lastz NIL l1) m) a l2 NIL).
    { destruct (Z.eqb_spec (lastz NIL l1) NIL) as [E|E]; [done|].
      eapply dseg_frame, Hs2. intros c Hc. apply lookup_alter_ne. intros <-.
      destruct (lastz_elem NIL l1); [done|]. by eapply Hd'. }
    destruct (Z.eqb_spec (firstz NIL l2) NIL) as [E|E].
    + apply (firstz_nil_dseg _ _ _ _ Hs2) in E as ->. by rewrite app_nil_r.
    + apply dseg_app. split; [|by eapply dseg_set_prev].
      eapply dseg_frame, H1. intros c Hc. apply lookup_alter_ne. intros <-.
      destruct (firstz_elem NIL l2); [done|]. by eapply Hd'.
Qed.

Lemma links_unlink_other m p n b : b <> p -> b <> n -> links_unlink m p n !! b = m !! b.
Proof. intros. unfold links_unlink. repeat case_match; by rewrite ?lookup_alter_ne. Qed.

(** Splitting a list at a member. *)
Lemma dlist_split m q l a : dlist m q l -> a ∈ l ->
  exists l1 l2, l = l1 ++ a :: l2 /\ m !! a = Some (lastz NIL l1, firstz NIL l2) /\
    a ∉ l1 /\ a ∉ l2.
Proof.
  intros Hd (l1 & l2 & ->)%list_elem_of_split. exists l1, l2. split; [done|].
  split; [by eapply dlist_links|]. destruct Hd as [_ _ _ Hn].
  apply NoDup_app in Hn as (_ & Hx & [? _]%NoDup_cons). split; [|done].
  intros ?. by eapply Hx, list_elem_of_here.
Qed.
End dlists.

(** ** Deciding the invariant on a concrete state *)
#[export] Instance dseg_dec m p l n : Decision (dseg m p l n).
Proof.
  revert p. induction l as [|a l IH]; intros p; cbn [dseg]; [apply _|].
  destruct (decide (a <> NIL)); [|right; tauto].
  destruct (decide (m !! a = Some (p, firstz n l))); [|right; tauto].
  destruct (IH a); [left|right]; tauto.
Defined.
#[export] Instance dlist_dec m q l : Decision (dlist m q l).
Proof.
  refine (cast_if (decide (l_head q = firstz NIL l /\ l_tail q = lastz NIL l /\ dseg m NIL l NIL /\ NoDup l)));
    abstract (split || idtac; firstorder (constructor; auto)).
Defined.
