(* ===== verification/Sched.v ===== *)
(** * The scheduler, sys/proc.c

    Each priority has two ready queues and an index telling which of them is
    current.  [next_proc] scans the current queue, parks processes whose time
    slice is used up on the other queue, and swaps the two when the current one
    is empty.  The model runs on the links of the processes themselves; the
    ghost argument [Q] of [sched_inv] says which list each queue stands for. *)
From S2P Require Import Prelude KState DList.

Local Open Scope Z_scope.
Local Open Scope c_scope.

(** ** Operations *)
Definition add_to_list_tail (l : Z * Z) (p : Z) : KM unit :=
  upd_proc p (set_p_slist (Some l)) ;;;
  upd_proc p (set_p_snext NIL) ;;;
  let* q := get_queue l in
  upd_proc p (set_p_sprev (l_tail q)) ;;;
  (let* q := get_queue l in
   if l_tail q =? NIL then upd_queue l (set_l_head p)
   else upd_proc (l_tail q) (set_p_snext p)) ;;;
  upd_queue l (set_l_tail p).

Definition remove_from_list (l : Z * Z) (p : Z) : KM unit :=
  upd_proc p (set_p_slist None) ;;;
  (let* x := get_proc p in
   if ctrue (p_sprev x) then upd_proc (p_sprev x) (set_p_snext (p_snext x))
   else upd_queue l (set_l_head (p_snext x))) ;;;
  (let* x := get_proc p in
   if ctrue (p_snext x) then upd_proc (p_snext x) (set_p_sprev (p_sprev x))
   else upd_queue l (set_l_tail (p_sprev x))).

(** [&ready[q].queue[ready[q].q]] and [&ready[q].queue[(ready[q].q + 1) % 2]] *)
Definition current_queue (pr : Z) : KM (Z * Z) :=
  let* r := get_ready pr in ret (pr, r_q r).
Definition other_queue (pr : Z) : KM (Z * Z) :=
  let* r := get_ready pr in ret (pr, (r_q r + 1) mod 2).

(** The [while (p != nil)] loop of next_proc: the process found, or nil when
    the queue has been emptied. *)
Fixpoint next_proc_scan (fuel : nat) (q p : Z) : KM Z :=
  match fuel with
  | O => nofuel
  | S fuel =>
    if p =? NIL then ret NIL else
    let* x := get_proc p in
    let n := p_snext x in
    if decide (p_state x = PROC_ready) then
      if MIN_TIME_SLICE <? p_ts x then ret p
      else
        (let* l := current_queue q in remove_from_list l p) ;;;
        (let* l := other_queue q in add_to_list_tail l p) ;;;
        next_proc_scan fuel q n
    else
      (let* l := current_queue q in remove_from_list l p) ;;;
      next_proc_scan fuel q n
  end.

(** The [for] loop that gives every process of the new current queue a full
    time slice. *)
Fixpoint next_proc_refill `{Board} (fuel : nat) (p : Z) : KM unit :=
  match fuel with
  | O => nofuel
  | S fuel =>
    if p =? NIL then ret tt else
    upd_proc p (set_p_ts SYSTICK) ;;;
    let* x := get_proc p in
    next_proc_refill fuel (p_snext x)
  end.

(** A list holds a process at most once, so one more than their number bounds
    every traversal. *)
Definition proc_fuel : KM nat := gets (fun s => S (size (k_proc s))).

Fixpoint next_proc_loop `{Board} (fuel : nat) (q : Z) : KM Z :=
  match fuel with
  | O => nofuel
  | S fuel =>
    if q <? 0 then ret NIL else
    let* n := proc_fuel in
    let* l := current_queue q in
    let* h := get_queue l in
    let* p := next_proc_scan n q (l_head h) in
    if ctrue p then ret p else
    upd_ready q (fun r => set_r_q ((r_q r + 1) mod 2) r) ;;;
    let* l := current_queue q in
    let* h := get_queue l in
    next_proc_refill n (l_head h) ;;;
    let* h := get_queue l in
    if l_head h =? NIL then next_proc_loop fuel (q - 1) else next_proc_loop fuel q
  end.

(** Each priority is visited at most twice: its current queue, and after the swap
    its other queue, whose processes then all have a full time slice. *)
Definition next_proc_fuel : nat := 33.
Definition next_proc `{Board} : KM Z := next_proc_loop next_proc_fuel (PRIORITY_MAX - 1).

Definition mmu_switch (pa : Z) : KM unit :=
  modify (fun s => set_k_mach (set_m_ttb pa (k_mach s)) s).

Definition set_up (p : Z) : KM unit := modify (set_k_up p).

(** The first part of [schedule]: account for the time the caller used, save
    where it resumes, and put it back on its queue. *)
Definition schedule_leave (n : Z) (k : cont) : KM unit :=
  let* up := get_up in
  if ctrue up then
    let* passed := gets (fun s => m_passed (k_mach s)) in
    upd_proc up (set_p_label k) ;;;
    upd_proc up (fun p => set_p_ts (s32 (p_ts p - passed)) p) ;;;
    upd_proc up (fun p => if p_ts p <? 0 then set_p_ts 0 p else p) ;;;
    (if ctrue n then
       let* u := get_proc up in
       upd_proc n (fun p => set_p_ts (s32 (p_ts p + p_ts u)) p)
     else ret tt) ;;;
    let* u := get_proc up in
    if decide (p_state u = PROC_ready) then
      match p_slist u with
      | None => let* l := current_queue (p_priority u) in add_to_list_tail l up
      | Some _ => ret tt
      end
    else upd_proc up (set_p_ts 0)
  else ret tt.

(** The choice of the next process. *)
Definition schedule_pick `{Board} (n : Z) : KM unit :=
  let* given :=
    (if ctrue n then
       let* x := get_proc n in ret (bool_decide (p_state x = PROC_ready))
     else ret false) in
  if (given : bool) then
    let* x := get_proc n in
    if MIN_TIME_SLICE <? p_ts x then set_up n
    else match p_slist x with
    | None =>
      (let* l := other_queue (p_priority x) in add_to_list_tail l n) ;;;
      let* p := next_proc in set_up p
    | Some _ => let* p := next_proc in set_up p
    end
  else let* p := next_proc in set_up p.

Definition schedule `{Board} (n : Z) (k : cont) : KM sysres :=
  schedule_leave n k ;;;
  schedule_pick n ;;;
  let* up := get_up in
  if ctrue up then
    let* u := get_proc up in
    mmu_switch (p_vspace u) ;;;
    ret Switched
  else halt Panicked.

Definition proc_init `{Board} (p : Z) : KM Z :=
  let* pid := gets k_nextpid in
  modify (set_k_nextpid (u32 (pid + 1))) ;;;
  let* _ := read FBounds (fun s => znth (k_procs s) pid) in
  modify (fun s => set_k_procs (zupd pid p (k_procs s)) s) ;;;
  upd_proc p (set_p_label K_zero) ;;;
  upd_proc p (set_p_pid pid) ;;;
  upd_proc p (set_p_priority 0) ;;;
  upd_proc p (set_p_ts SYSTICK) ;;;
  upd_proc p (set_p_slist None) ;;;
  upd_proc p (set_p_sprev NIL) ;;;
  upd_proc p (set_p_snext NIL) ;;;
  upd_proc p (set_p_wprev NIL) ;;;
  upd_proc p (set_p_wnext NIL) ;;;
  upd_proc p (set_p_state PROC_fault) ;;;
  ret OK.

Definition proc_free (p : Z) : KM Z :=
  let* x := get_proc p in
  match p_slist x with
  | Some l => remove_from_list l p ;;; ret OK
  | None => ret OK
  end.

Definition proc_fault (p : Z) : KM Z :=
  upd_proc p (set_p_state PROC_fault) ;;;
  let* x := get_proc p in
  match p_slist x with
  | Some l => remove_from_list l p ;;; ret OK
  | None => ret OK
  end.

Definition proc_ready (p : Z) : KM Z :=
  upd_proc p (set_p_state PROC_ready) ;;;
  let* x := get_proc p in
  match p_slist x with
  | None => (let* l := other_queue (p_priority x) in add_to_list_tail l p) ;;; ret OK
  | Some _ => ret OK
  end.

Definition proc_set_priority (p priority : Z) : KM Z :=
  let priority := if PRIORITY_MAX <? priority then PRIORITY_MAX else priority in
  upd_proc p (set_p_priority priority) ;;;
  let* x := get_proc p in
  match p_slist x with
  | Some l =>
    remove_from_list l p ;;;
    (let* l := other_queue (p_priority x) in add_to_list_tail l p) ;;;
    ret OK
  | None => ret OK
  end.

Definition find_proc (pid : Z) : KM Z :=
  if pid <? 0 then ret NIL
  else if pid <? MAX_PROCS then read FBounds (fun s => znth (k_procs s) pid)
  else ret NIL.

(** ** The scheduler's invariant *)
Definition slinks (s : kstate) : gmap Z (Z * Z) :=
  (fun p => (p_sprev p, p_snext p)) <$> k_proc s.
Definition valid_q (l : Z * Z) : Prop := 0 <= l.1 < PRIORITY_MAX /\ (l.2 = 0 \/ l.2 = 1).

(** [Q l] is the list of processes on queue [l]: it is well formed, its members
    are the processes whose [slist] names it, and a process is only ever on a
    queue of its own priority. *)
Record sched_inv (s : kstate) (Q : Z * Z -> list Z) : Prop := {
  si_ready : length (k_ready s) = Z.to_nat PRIORITY_MAX;
  si_current : forall pr r, znth (k_ready s) pr = Some r -> r_q r = 0 \/ r_q r = 1;
  si_queue : forall l r, valid_q l -> znth (k_ready s) l.1 = Some r ->
    dlist (slinks s) (ready_q l.2 r) (Q l);
  si_member : forall l a, valid_q l -> a ∈ Q l ->
    exists p, k_proc s !! a = Some p /\ p_slist p = Some l;
  si_slist : forall a p l, k_proc s !! a = Some p -> p_slist p = Some l ->
    valid_q l /\ l.1 = p_priority p /\ a ∈ Q l;
  si_priority : forall a p, k_proc s !! a = Some p -> 0 <= p_priority p < PRIORITY_MAX;
  si_nil : k_proc s !! NIL = None
}.

Definition qupd (Q : Z * Z -> list Z) (l : Z * Z) (x : list Z) : Z * Z -> list Z :=
  fun l' => if decide (l' = l) then x else Q l'.

(** What list surgery leaves alone: everything but the queues' ends and the
    processes' [slist], [sprev] and [snext]. *)
Definition pcore (p : obj_proc) : obj_proc :=
  set_p_slist None (set_p_sprev NIL (set_p_snext NIL p)).
Record sframe (s s' : kstate) : Prop := {
  sf_proc : pcore <$> k_proc s' = pcore <$> k_proc s;
  sf_current : r_q <$> k_ready s' = r_q <$> k_ready s;
  sf_rest : s' = set_k_ready (k_ready s') (set_k_proc (k_proc s') s)
}.

#[export] Instance sframe_refl : Reflexive sframe.
Proof. intros []. by constructor. Qed.
#[export] Instance sframe_trans : Transitive sframe.
Proof.
  intros s1 s2 s3 [H1 H2 H3] [G1 G2 G3]. constructor; [congruence..|].
  rewrite G3, H3. by destruct s1, s2, s3.
Qed.

(** The part of a process the invariant looks at. *)
Definition sview (p : obj_proc) : Z * Z * option (Z * Z) * Z :=
  (p_sprev p, p_snext p, p_slist p, p_priority p).

Section sched_facts.
Implicit Types (s : kstate) (Q : Z * Z -> list Z) (l : Z * Z) (a : Z) (p : obj_proc) (m : gmap Z obj_proc).

Lemma qupd_eq Q l x : qupd Q l x l = x.
Proof. unfold qupd. by rewrite decide_True. Qed.
Lemma qupd_ne Q l l' x : l' <> l -> qupd Q l x l' = Q l'.
Proof. intros. unfold qupd. by rewrite decide_False. Qed.

Lemma sview_lookup s s' a p :
  sview <$> k_proc s' = sview <$> k_proc s -> k_proc s' !! a = Some p ->
  exists p', k_proc s !! a = Some p' /\ sview p = sview p'.
Proof.
  intros Hv Hp. apply (f_equal (.!! a)) in Hv. rewrite !lookup_fmap, Hp in Hv.
  destruct (k_proc s !! a) as [p'|]; [|done]. exists p'. split; [done|]. cbn in Hv. congruence.
Qed.

Lemma slinks_sview s : slinks s = fst ∘ fst <$> (sview <$> k_proc s).
Proof. unfold slinks. rewrite <-!map_fmap_compose. reflexivity. Qed.

(** The invariant depends on the queues and the scheduling view only. *)
Lemma sched_inv_ext s s' Q :
  sview <$> k_proc s' = sview <$> k_proc s -> k_ready s' = k_ready s ->
  sched_inv s Q -> sched_inv s' Q.
Proof.
  intros Hv Hr []. assert (Hl : slinks s' = slinks s) by (rewrite !slinks_sview; congruence).
  constructor; rewrite ?Hr, ?Hl; try done.
  - intros l a Hl' Ha. destruct (si_member0 l a Hl' Ha) as (p & Hp & ?).
    destruct (sview_lookup s' s a p) as (p' & ? & ?); [done..|]. exists p'.
    split; [done|]. unfold sview in *. congruence.
  - intros a p l Hp Hs. destruct (sview_lookup s s' a p) as (p' & ? & Hw); [done..|].
    unfold sview in Hw. destruct (si_slist0 a p' l) as (? & ? & ?); [done|congruence|].
    split; [done|]. split; [congruence|done].
  - intros a p Hp. destruct (sview_lookup s s' a p) as (p' & ? & Hw); [done..|].
    unfold sview in Hw. specialize (si_priority0 a p' ltac:(done)). by simplify_eq/=; congruence.
  - destruct (k_proc s' !! NIL) eqn:E; [|done].
    destruct (sview_lookup s s' NIL o) as (p' & ? & Hw); [done..|]. congruence.
Qed.

Lemma sview_insert m a p p' :
  m !! a = Some p -> sview p' = sview p -> sview <$> <[a := p']> m = sview <$> m.
Proof. intros Hp Hv. rewrite fmap_insert, Hv. apply insert_id. by rewrite lookup_fmap, Hp. Qed.

Lemma pcore_insert m a p p' :
  m !! a = Some p -> pcore p' = pcore p -> pcore <$> <[a := p']> m = pcore <$> m.
Proof. intros Hp Hv. rewrite fmap_insert, Hv. apply insert_id. by rewrite lookup_fmap, Hp. Qed.

Lemma sframe_lookup s s' a p :
  sframe s s' -> k_proc s !! a = Some p ->
  exists p', k_proc s' !! a = Some p' /\ pcore p' = pcore p.
Proof.
  intros [Hv _ _] Hp. apply (f_equal (.!! a)) in Hv. rewrite !lookup_fmap, Hp in Hv.
  destruct (k_proc s' !! a) as [p'|]; [|done]. exists p'. split; [done|]. cbn in Hv. congruence.
Qed.

Lemma sframe_lookup_back s s' a p :
  sframe s s' -> k_proc s' !! a = Some p ->
  exists p', k_proc s !! a = Some p' /\ pcore p = pcore p'.
Proof.
  intros [Hv _ _] Hp. apply (f_equal (.!! a)) in Hv. rewrite !lookup_fmap, Hp in Hv.
  destruct (k_proc s !! a) as [p'|]; [|done]. exists p'. split; [done|]. cbn in Hv. congruence.
Qed.

Lemma valid_q_ready s Q l : sched_inv s Q -> valid_q l ->
  exists r, znth (k_ready s) l.1 = Some r.
Proof.
  intros [] [? _]. destruct (znth_is_Some (k_ready s) l.1) as [r ?]; [|by exists r].
  rewrite si_ready0. unfold PRIORITY_MAX in *. lia.
Qed.

Lemma ready_q_set i i' v r : (i = 0 \/ i = 1) -> (i' = 0 \/ i' = 1) ->
  ready_q i' (set_ready_q i v r) = if decide (i' = i) then v else ready_q i' r.
Proof. intros [->| ->] [->| ->]; done. Qed.

Lemma r_q_set i v r : r_q (set_ready_q i v r) = r_q r.
Proof. unfold set_ready_q. by case_match. Qed.
End sched_facts.

Section sched_change.
Implicit Types (s : kstate) (Q : Z * Z -> list Z) (l : Z * Z) (a b : Z) (p : obj_proc).

Lemma slinks_lookup s a : slinks s !! a = (fun p => (p_sprev p, p_snext p)) <$> k_proc s !! a.
Proof. apply lookup_fmap. Qed.

Lemma queues_disjoint s Q l l' a :
  sched_inv s Q -> valid_q l -> valid_q l' -> a ∈ Q l -> a ∈ Q l' -> l = l'.
Proof.
  intros Hi Hl Hl' Ha Ha'. destruct (si_member _ _ Hi l a) as (p & ? & ?); [done..|].
  destruct (si_member _ _ Hi l' a) as (p' & ? & ?); [done..|]. congruence.
Qed.

(** One queue and the [slist] of one process change together. *)
Lemma sched_inv_change s s' Q l a p r q' L o :
  sched_inv s Q -> valid_q l -> sframe s s' ->
  k_proc s !! a = Some p ->
  znth (k_ready s) l.1 = Some r ->
  k_ready s' = zupd l.1 (set_ready_q l.2 q' r) (k_ready s) ->
  (forall l' b, valid_q l' -> l' <> l -> b ∈ Q l' -> slinks s' !! b = slinks s !! b) ->
  dlist (slinks s') q' L ->
  (forall b, p_slist <$> k_proc s' !! b =
     if decide (b = a) then Some o else p_slist <$> k_proc s !! b) ->
  (forall b, b ∈ L <-> b ∈ Q l /\ b <> a \/ b = a /\ o = Some l) ->
  (o = None \/ o = Some l /\ l.1 = p_priority p) ->
  (forall l', valid_q l' -> l' <> l -> a ∉ Q l') ->
  sched_inv s' (qupd Q l L).
Proof.
  intros Hi Hl Hf Hp Hr Hr' Hoth Hd Hs HL Ho Ha. pose proof Hi as [].
  assert (Hb : 0 <= l.1 < Z.of_nat (length (k_ready s))) by by eapply znth_bound.
  constructor.
  - by rewrite Hr', length_zupd.
  - intros pr r1. rewrite Hr'. destruct (decide (l.1 = pr)) as [<-|].
    + rewrite znth_zupd_eq by done. intros [= <-]. rewrite r_q_set. eauto.
    + rewrite znth_zupd_ne by done. eauto.
  - intros l' r1 Hl' Hr1. rewrite Hr' in Hr1. destruct (decide (l' = l)) as [->|Hne].
    + rewrite qupd_eq. rewrite znth_zupd_eq in Hr1 by done. simplify_eq.
      rewrite ready_q_set by (apply Hl || apply Hl'). by rewrite decide_True.
    + rewrite qupd_ne by done.
      assert (exists r0, znth (k_ready s) l'.1 = Some r0 /\ ready_q l'.2 r1 = ready_q l'.2 r0)
        as (r0 & Hr0 & ->).
      { destruct (decide (l.1 = l'.1)) as [E|].
        - rewrite <-E in *. rewrite znth_zupd_eq in Hr1 by done. simplify_eq. exists r.
          split; [done|]. rewrite ready_q_set by (apply Hl || apply Hl').
          rewrite decide_False; [done|]. intros ?. destruct l, l'; naive_solver.
        - rewrite znth_zupd_ne in Hr1 by done. eauto. }
      eapply dlist_frame, si_queue0; [|done..]. intros b ?. by eapply Hoth.
  - intros l' b Hl' Hb'. specialize (Hs b). unfold qupd in Hb'. case_decide; subst.
    + apply HL in Hb' as [[Hb' ?]|[-> ->]].
      * rewrite decide_False in Hs by done. destruct (si_member0 l b) as (pb & Hpb & ?); [done..|].
        rewrite Hpb in Hs. destruct (k_proc s' !! b) as [p'|]; [|done]. exists p'. cbn in Hs.
        split; [done|congruence].
      * rewrite decide_True in Hs by done. destruct (k_proc s' !! a) as [p'|]; [|done].
        exists p'. cbn in Hs. split; [done|congruence].
    + rewrite decide_False in Hs by (intros ->; by eapply Ha).
      destruct (si_member0 l' b) as (pb & Hpb & ?); [done..|].
      rewrite Hpb in Hs. destruct (k_proc s' !! b) as [p'|]; [|done]. exists p'. cbn in Hs.
      split; [done|congruence].
  - intros b pb l' Hpb Hsl. specialize (Hs b). rewrite Hpb in Hs. cbn in Hs.
    destruct (sframe_lookup_back s s' b pb Hf Hpb) as (pb0 & Hpb0 & Hc).
    assert (Hpr : p_priority pb = p_priority pb0)
      by (change (p_priority (pcore pb) = p_priority (pcore pb0)); congruence).
    case_decide; subst.
    + simplify_eq. destruct Ho as [|[Ho ?]]; [congruence|].
      assert (l' = l) as -> by congruence. split; [done|]. split; [congruence|].
      rewrite qupd_eq. apply HL. right. split; [done|congruence].
    + rewrite Hpb0 in Hs. cbn in Hs.
      destruct (si_slist0 b pb0 l') as (Hl' & ? & ?); [done|congruence|].
      split; [done|]. split; [congruence|]. unfold qupd. case_decide; [|done]. subst. apply HL. auto.
  - intros b pb Hpb. destruct (sframe_lookup_back s s' b pb Hf Hpb) as (pb0 & Hpb0 & Hc).
    assert (Hpr : p_priority pb = p_priority pb0)
      by (change (p_priority (pcore pb) = p_priority (pcore pb0)); congruence).
    rewrite Hpr. eauto.
  - destruct (k_proc s' !! NIL) as [p'|] eqn:E; [|done].
    destruct (sframe_lookup_back s s' NIL p' Hf E) as (? & ? & _). congruence.
Qed.

Lemma zupd_same {A} i (x : A) (k : list A) : znth k i = Some x -> zupd i x k = k.
Proof.
  intros [? H]%znth_lookup. unfold zupd. case_match; [|done]. by apply list_insert_id.
Qed.

Lemma r_q_zupd pr i v r (k : list ready_list) :
  znth k pr = Some r -> r_q <$> zupd pr (set_ready_q i v r) k = r_q <$> k.
Proof.
  intros Hr. apply znth_lookup in Hr as [? Hr]. unfold zupd. case_match; [|done].
  rewrite list_fmap_insert, r_q_set. apply list_insert_id. by rewrite list_lookup_fmap, Hr.
Qed.

Lemma upd_queue_spec l f r s (Qp : unit -> kstate -> Prop) E :
  znth (k_ready s) l.1 = Some r ->
  Qp tt (set_k_ready (zupd l.1 (set_ready_q l.2 (f (ready_q l.2 r)) r) (k_ready s)) s) ->
  wpe (upd_queue l f) s Qp E.
Proof. intros. unfold upd_queue. by eapply wpe_upd_ready. Qed.
End sched_change.

(** The processes after [add_to_list_tail] and [remove_from_list], as pure
    functions of the processes before. *)
Definition append_procs (l : Z * Z) (q : proc_list) (a : Z) (p : obj_proc)
    (ps : gmap Z obj_proc) : gmap Z obj_proc :=
  let ps1 := <[a := set_p_sprev (l_tail q) (set_p_snext NIL (set_p_slist (Some l) p))]> ps in
  if l_tail q =? NIL then ps1 else alter (set_p_snext a) (l_tail q) ps1.
Definition unlink_procs (a : Z) (p : obj_proc) (ps : gmap Z obj_proc) : gmap Z obj_proc :=
  let ps1 := <[a := set_p_slist None p]> ps in
  let ps2 := if p_sprev p =? NIL then ps1
             else alter (set_p_snext (p_snext p)) (p_sprev p) ps1 in
  if p_snext p =? NIL then ps2 else alter (set_p_sprev (p_sprev p)) (p_snext p) ps2.

Section pure_lists.
Implicit Types (ps : gmap Z obj_proc) (l : Z * Z) (a b t : Z) (p : obj_proc).
Let lk (p : obj_proc) : Z * Z := (p_sprev p, p_snext p).

Lemma fmap_alter_proj {B} (f : obj_proc -> B) (h : B -> B) g t ps :
  (forall p, f (g p) = h (f p)) -> f <$> alter g t ps = alter h t (f <$> ps).
Proof.
  intros Hfg. apply map_eq; intros i. rewrite lookup_fmap. destruct (decide (i = t)) as [->|].
  - rewrite !lookup_alter_eq, lookup_fmap. destruct (ps !! t); cbn; by rewrite ?Hfg.
  - by rewrite !lookup_alter_ne, lookup_fmap.
Qed.

Lemma fmap_alter_same {B} (f : obj_proc -> B) g t ps :
  (forall p, f (g p) = f p) -> f <$> alter g t ps = f <$> ps.
Proof.
  intros Hfg. apply map_eq; intros i. rewrite !lookup_fmap, lookup_alter. case_decide; [|done].
  subst. destruct (ps !! i); cbn; by rewrite ?Hfg.
Qed.

Lemma append_links l q a p ps :
  lk <$> append_procs l q a p ps = links_append (lk <$> ps) q a.
Proof.
  unfold append_procs, links_append. case_match.
  - by rewrite fmap_insert.
  - rewrite (fmap_alter_proj lk (fun x => (x.1, a))) by done. by rewrite fmap_insert.
Qed.

Lemma append_core l q a p ps :
  ps !! a = Some p -> pcore <$> append_procs l q a p ps = pcore <$> ps.
Proof.
  intros. unfold append_procs. case_match; rewrite ?fmap_alter_same by done;
    by eapply pcore_insert.
Qed.

Lemma fmap_slist_alter g t ps b : (forall p, p_slist (g p) = p_slist p) ->
  p_slist <$> alter g t ps !! b = p_slist <$> ps !! b.
Proof. intros. rewrite <-!lookup_fmap. by rewrite fmap_alter_same. Qed.

Lemma append_slist l q a p ps b :
  p_slist <$> append_procs l q a p ps !! b =
  if decide (b = a) then Some (Some l) else p_slist <$> ps !! b.
Proof.
  unfold append_procs. case_match; rewrite ?fmap_slist_alter by done; rewrite lookup_insert;
    destruct (decide (a = b)); case_decide; by subst.
Qed.

Lemma unlink_links a p ps : ps !! a = Some p ->
  lk <$> unlink_procs a p ps = links_unlink (lk <$> ps) (p_sprev p) (p_snext p).
Proof.
  intros Hp. assert (He : lk <$> <[a := set_p_slist None p]> ps = lk <$> ps).
  { rewrite fmap_insert. apply insert_id. by rewrite lookup_fmap, Hp. }
  unfold unlink_procs, links_unlink.
  repeat case_match; rewrite ?(fmap_alter_proj lk (fun x => (p_sprev p, x.2))) by done;
    rewrite ?(fmap_alter_proj lk (fun x => (x.1, p_snext p))) by done; by rewrite He.
Qed.

Lemma unlink_core a p ps : ps !! a = Some p -> pcore <$> unlink_procs a p ps = pcore <$> ps.
Proof.
  intros. unfold unlink_procs. repeat case_match; rewrite ?fmap_alter_same by done;
    by eapply pcore_insert.
Qed.

Lemma unlink_slist a p ps b : 
  p_slist <$> unlink_procs a p ps !! b =
  if decide (b = a) then Some None else p_slist <$> ps !! b.
Proof.
  unfold unlink_procs. repeat case_match; rewrite ?fmap_slist_alter by done;
    rewrite lookup_insert; destruct (decide (a = b)); case_decide; by subst.
Qed.
End pure_lists.

Section sched_lists.
Implicit Types (s : kstate) (Q : Z * Z -> list Z) (l : Z * Z) (a b : Z) (p : obj_proc).

Lemma add_to_list_tail_run s l r a p :
  valid_q l -> k_proc s !! a = Some p -> znth (k_ready s) l.1 = Some r ->
  let q := ready_q l.2 r in
  (l_tail q <> NIL -> l_tail q <> a /\ is_Some (k_proc s !! l_tail q)) ->
  add_to_list_tail l a s =
  Ok tt (set_k_ready (zupd l.1 (set_ready_q l.2 (plist_append q a) r) (k_ready s))
           (set_k_proc (append_procs l q a p (k_proc s)) s)).
Proof.
  intros Hl Hp Hr q Ht.
  assert (Hb : 0 <= l.1 < Z.of_nat (length (k_ready s))) by by eapply znth_bound.
  match goal with |- _ = Ok tt ?s' => set (s1 := s') end.
  cut (wp (add_to_list_tail l a) s (fun _ s2 => s2 = s1)).
  { intros (x & ? & ? & ->)%wp_inv. by destruct x. }
  unfold add_to_list_tail. do 5 (kstep; cbn beta). eapply wpe_get_queue; [done|].
  fold q. do 4 (kstep; cbn beta). eapply wpe_get_queue; [done|].
  fold q. unfold s1, append_procs, plist_append. destruct (Z.eqb_spec (l_tail q) NIL) as [E|E].
  - eapply upd_queue_spec; [done|]. cbn beta.
    eapply upd_queue_spec; [by apply znth_zupd_eq|]. cbn. fold q.
    rewrite zupd_zupd, ready_q_set by apply Hl. rewrite decide_True by done.
    unfold set_ready_q. by destruct Hl as [_ [-> | ->]].
  - destruct (Ht E) as [? [y Hy]].
    eapply wpe_upd_proc; [by cbn; rewrite lookup_insert_ne|]. cbn beta.
    eapply upd_queue_spec; [done|]. cbn. fold q.
    by rewrite (alter_insert_lookup _ _ _ y) by (by rewrite lookup_insert_ne).
Qed.

Lemma not_queued s Q a p :
  sched_inv s Q -> k_proc s !! a = Some p -> p_slist p = None ->
  forall l, valid_q l -> a ∉ Q l.
Proof.
  intros Hi Hp Hsl l Hl Ha. destruct (si_member _ _ Hi l a) as (? & ? & ?); [done..|]. congruence.
Qed.

Lemma member_not_nil s Q l a : sched_inv s Q -> valid_q l -> a ∈ Q l -> a <> NIL.
Proof.
  intros Hi Hl Ha ->. destruct (si_member _ _ Hi l NIL) as (? & Hx & _); [done..|].
  by rewrite (si_nil _ _ Hi) in Hx.
Qed.

(** Appending a process that is on no queue. *)
Lemma add_to_list_tail_spec s Q l a p :
  sched_inv s Q -> valid_q l -> k_proc s !! a = Some p ->
  p_slist p = None -> l.1 = p_priority p ->
  wp (add_to_list_tail l a) s
    (fun _ s' => sched_inv s' (qupd Q l (Q l ++ [a])) /\ sframe s s').
Proof.
  intros Hi Hl Hp Hsl Hpr. destruct (valid_q_ready s Q l Hi Hl) as [r Hr].
  pose proof (si_queue _ _ Hi l r Hl Hr) as Hd.
  pose proof (not_queued s Q a p Hi Hp Hsl) as Hnot.
  assert (Ha0 : a <> NIL) by (intros ->; rewrite (si_nil _ _ Hi) in Hp; done).
  eapply wpe_ok.
  { apply (add_to_list_tail_run s l r a p Hl Hp Hr). intros E.
    destruct (dlist_tail_elem _ _ _ Hd) as [?|Ht]; [done|].
    destruct (si_member _ _ Hi l _ Hl Ht) as (y & Hy & _).
    split; [|by eexists]. intros <-. by apply (Hnot l). }
  set (q := ready_q l.2 r) in *. match goal with |- _ /\ sframe s ?x => set (s' := x) end.
  assert (Hf : sframe s s').
  { constructor; [by apply append_core|by apply r_q_zupd|by destruct s]. }
  split; [|done].
  eapply (sched_inv_change s s' Q l a p r (plist_append q a) _ (Some l)); try done.
  - intros l' b Hl' Hne Hb'. unfold slinks, s'; cbn. rewrite append_links. apply links_append_other.
    + intros ->. by eapply Hnot.
    + intros ->. destruct (dlist_tail_elem _ _ _ Hd) as [E|Ht].
      * rewrite E in Hb'. by apply (member_not_nil _ _ _ _ Hi Hl') in Hb'.
      * apply Hne. by eapply queues_disjoint.
  - unfold slinks, s'; cbn. rewrite append_links. apply dlist_append; auto.
  - intros b. apply append_slist.
  - intros b. rewrite elem_of_app, list_elem_of_singleton. split.
    + intros [?| ->]; [left|by right]. split; [done|]. intros ->. by eapply Hnot.
    + intros [[? _]|[-> _]]; auto.
  - by right.
  - auto.
Qed.

Lemma remove_from_list_run s l r a p :
  valid_q l -> k_proc s !! a = Some p -> znth (k_ready s) l.1 = Some r ->
  (p_sprev p <> NIL -> p_sprev p <> a /\ is_Some (k_proc s !! p_sprev p)) ->
  (p_snext p <> NIL -> p_snext p <> a /\ is_Some (k_proc s !! p_snext p)) ->
  remove_from_list l a s =
  Ok tt (set_k_ready (zupd l.1 (set_ready_q l.2
            (plist_unlink (ready_q l.2 r) (p_sprev p) (p_snext p)) r) (k_ready s))
           (set_k_proc (unlink_procs a p (k_proc s)) s)).
Proof.
  intros Hl Hp Hr Hpv Hnx.
  assert (Hb : 0 <= l.1 < Z.of_nat (length (k_ready s))) by by eapply znth_bound.
  match goal with |- _ = Ok tt ?s' => set (s1 := s') end.
  cut (wp (remove_from_list l a) s (fun _ s2 => s2 = s1)).
  { intros (x & ? & ? & ->)%wp_inv. by destruct x. }
  unfold remove_from_list. do 5 (kstep; cbn beta). unfold ctrue; cbn [p_sprev p_snext set_p_slist].
  unfold s1, unlink_procs, plist_unlink.
  assert (Hset : set_ready_q l.2 (ready_q l.2 r) r = r)
    by (destruct Hl as [_ [-> | ->]]; by destruct r).
  destruct (Z.eqb_spec (p_sprev p) NIL) as [E|E]; cbn [negb].
  - eapply upd_queue_spec; [done|]. kstep.
    eapply wpe_get_proc; [apply lookup_insert_eq|]. cbn [p_sprev p_snext set_p_slist].
    destruct (Z.eqb_spec (p_snext p) NIL) as [E'|E']; cbn [negb].
    + eapply upd_queue_spec; [by apply znth_zupd_eq|]. cbn.
      rewrite zupd_zupd, ready_q_set by apply Hl. rewrite decide_True by done.
      unfold set_ready_q. by destruct Hl as [_ [-> | ->]].
    + destruct (Hnx E') as [? [y Hy]].
      eapply wpe_upd_proc; [by cbn; rewrite lookup_insert_ne|].
      by rewrite (alter_insert_lookup _ _ _ y) by (by rewrite lookup_insert_ne).
  - destruct (Hpv E) as [? [y Hy]].
    eapply wpe_upd_proc; [by cbn; rewrite lookup_insert_ne|]. kstep. cbn.
    rewrite <-(alter_insert_lookup (<[a := _]> _) _ (set_p_snext (p_snext p)) y)
      by (by rewrite lookup_insert_ne).
    eapply wpe_get_proc; [by cbn; rewrite lookup_alter_ne, lookup_insert_eq|].
    cbn [p_sprev p_snext set_p_slist].
    destruct (Z.eqb_spec (p_snext p) NIL) as [E'|E']; cbn [negb].
    + eapply upd_queue_spec; [done|]. done.
    + destruct (Hnx E') as [? [z Hz]]. 
      set (ps := alter _ _ _). assert (exists w, ps !! p_snext p = Some w) as [w Hw].
      { unfold ps. rewrite lookup_alter. case_decide; rewrite lookup_insert_ne by done.
        - subst. rewrite H1, Hz. by eexists.
        - by exists z. }
      eapply wpe_upd_proc; [done|]. cbn. rewrite (alter_insert_lookup _ _ _ w) by done.
      unfold set_k_ready, set_k_proc; cbn. rewrite zupd_same; [done|]. rewrite Hr. f_equal.
      destruct l as [? i], Hl as [_ [-> | ->]]; destruct r as [[] [] ?]; done.
Qed.
End sched_lists.

Definition is_ready (s : kstate) (a : Z) : bool :=
  match k_proc s !! a with
  | Some p => bool_decide (p_state p = PROC_ready)
  | None => false
  end.
Definition slice (s : kstate) (a : Z) : Z :=
  match k_proc s !! a with Some p => p_ts p | None => 0 end.

Section sched_remove.
Implicit Types (s : kstate) (Q : Z * Z -> list Z) (l : Z * Z) (a b : Z) (p : obj_proc).

(** Taking a process off its queue. *)
Lemma remove_from_list_spec s Q l a p (l1 l2 : list Z) :
  sched_inv s Q -> k_proc s !! a = Some p -> p_slist p = Some l -> Q l = l1 ++ a :: l2 ->
  wp (remove_from_list l a) s
    (fun _ s' => sched_inv s' (qupd Q l (l1 ++ l2)) /\ sframe s s' /\
                 exists p', k_proc s' !! a = Some p' /\ p_slist p' = None).
Proof.
  intros Hi Hp Hsl HQ. destruct (si_slist _ _ Hi a p l Hp Hsl) as (Hl & Hpr & Ha).
  destruct (valid_q_ready s Q l Hi Hl) as [r Hr].
  pose proof (si_queue _ _ Hi l r Hl Hr) as Hd. rewrite HQ in Hd.
  assert (Hlk : (p_sprev p, p_snext p) = (lastz NIL l1, firstz NIL l2)).
  { pose proof (dlist_links _ _ _ _ _ Hd) as E. rewrite slinks_lookup, Hp in E. by injection E as -> ->. }
  injection Hlk as Hpv Hnx.
  assert (Hn : NoDup (l1 ++ a :: l2)) by apply Hd.
  apply NoDup_app in Hn as (_ & Hn1 & [Hn2 _]%NoDup_cons).
  assert (Hnode : forall b, b <> NIL -> b ∈ l1 ++ l2 -> b <> a /\ is_Some (k_proc s !! b)).
  { intros b _ Hb. split.
    - intros ->. apply elem_of_app in Hb as [Hb|Hb]; [|done].
      by eapply Hn1, list_elem_of_here.
    - destruct (si_member _ _ Hi l b Hl) as (x & Hx & _); [|by eexists].
      rewrite HQ. set_solver. }
  assert (Ha1 : a ∉ l1 ++ l2).
  { intros Hx. destruct (Hnode a) as [? _]; [|done..]. by eapply member_not_nil. }
  eapply wpe_ok.
  { apply (remove_from_list_run s l r a p Hl Hp Hr).
    - rewrite Hpv. intros ?. apply Hnode; [done|]. destruct (lastz_elem NIL l1); set_solver.
    - rewrite Hnx. intros ?. apply Hnode; [done|]. destruct (firstz_elem NIL l2); set_solver. }
  match goal with |- _ /\ sframe s ?x /\ _ => set (s' := x) end.
  assert (Hf : sframe s s').
  { constructor; [by apply unlink_core|by apply r_q_zupd|by destruct s]. }
  split; [|split; [done|]].
  2: { pose proof (unlink_slist a p (k_proc s) a) as E. rewrite decide_True in E by done.
       unfold s'; cbn. destruct (unlink_procs _ _ _ !! a) as [p'|]; [|done]. exists p'.
       cbn in E. split; [done|congruence]. }
  eapply (sched_inv_change s s' Q l a p r _ _ None); try done.
  - intros l' b Hl' Hne Hb'. unfold slinks, s'; cbn. rewrite unlink_links by done.
    assert (Hx : b ∉ l1 ++ a :: l2).
    { rewrite <-HQ. intros ?. apply Hne. by eapply queues_disjoint. }
    pose proof (member_not_nil _ _ _ _ Hi Hl' Hb').
    rewrite Hpv, Hnx. apply links_unlink_other; intros ->.
    + destruct (lastz_elem NIL l1); set_solver.
    + destruct (firstz_elem NIL l2); set_solver.
  - unfold slinks, s'; cbn. rewrite unlink_links by done. rewrite Hpv, Hnx. by eapply dlist_unlink.
  - intros b. apply unlink_slist.
  - intros b. rewrite HQ, elem_of_app, elem_of_app, elem_of_cons. split.
    + intros Hb. left. split; [tauto|]. intros ->. set_solver.
    + intros [[? ?]|[_ ?]]; [tauto|done].
  - by left.
  - intros l' Hl' Hne Hx. apply Hne. by eapply queues_disjoint.
Qed.

Lemma sframe_is_ready s s' a : sframe s s' -> is_ready s' a = is_ready s a.
Proof.
  intros Hf. unfold is_ready. destruct (k_proc s !! a) as [p|] eqn:E.
  - destruct (sframe_lookup s s' a p Hf E) as (p' & -> & Hc).
    change (p_state p') with (p_state (pcore p')). by rewrite Hc.
  - destruct (k_proc s' !! a) as [p'|] eqn:E'; [|done].
    destruct (sframe_lookup_back s s' a p' Hf E') as (? & ? & _). congruence.
Qed.

Lemma sframe_slice s s' a : sframe s s' -> slice s' a = slice s a.
Proof.
  intros Hf. unfold slice. destruct (k_proc s !! a) as [p|] eqn:E.
  - destruct (sframe_lookup s s' a p Hf E) as (p' & -> & Hc).
    change (p_ts p') with (p_ts (pcore p')). by rewrite Hc.
  - destruct (k_proc s' !! a) as [p'|] eqn:E'; [|done].
    destruct (sframe_lookup_back s s' a p' Hf E') as (? & ? & _). congruence.
Qed.

Lemma sframe_current s s' pr r : sframe s s' -> znth (k_ready s) pr = Some r ->
  exists r', znth (k_ready s') pr = Some r' /\ r_q r' = r_q r.
Proof.
  intros [_ Hq _] [? Hr]%znth_lookup. apply (f_equal (.!! Z.to_nat pr)) in Hq.
  rewrite !list_lookup_fmap, Hr in Hq. destruct (k_ready s' !! Z.to_nat pr) as [r'|] eqn:E; [|done].
  exists r'. split; [by apply znth_lookup|]. cbn in Hq. congruence.
Qed.
End sched_remove.

(** What [next_proc] leaves alone: everything but the queues and the processes'
    places on them and time slices. *)
Definition ncore (p : obj_proc) : obj_proc := set_p_ts 0 (pcore p).
Record nframe (s s' : kstate) : Prop := {
  nf_proc : ncore <$> k_proc s' = ncore <$> k_proc s;
  nf_rest : s' = set_k_ready (k_ready s') (set_k_proc (k_proc s') s)
}.

#[export] Instance nframe_refl : Reflexive nframe.
Proof. intros []. by constructor. Qed.
#[export] Instance nframe_trans : Transitive nframe.
Proof.
  intros s1 s2 s3 [H1 H2] [G1 G2]. constructor; [congruence|].
  rewrite G2, H2. by destruct s1, s2, s3.
Qed.

Definition queued (Q : Z * Z -> list Z) (pr a : Z) : Prop := a ∈ Q (pr, 0) \/ a ∈ Q (pr, 1).

Section next_proc_facts.
Context `{Board}.
Implicit Types (s : kstate) (Q : Z * Z -> list Z) (l : Z * Z) (a b p q : Z) (L : list Z).

Lemma sframe_nframe s s' : sframe s s' -> nframe s s'.
Proof.
  intros [Hc _ Hr]. constructor; [|done].
  assert (Hx : forall m : gmap Z obj_proc, ncore <$> m = set_p_ts 0 <$> (pcore <$> m))
    by (intros m; by rewrite <-map_fmap_compose).
  by rewrite !Hx, Hc.
Qed.

Lemma nframe_lookup s s' a x : nframe s s' -> k_proc s !! a = Some x ->
  exists x', k_proc s' !! a = Some x' /\ ncore x' = ncore x.
Proof.
  intros [Hv _] Hp. apply (f_equal (.!! a)) in Hv. rewrite !lookup_fmap, Hp in Hv.
  destruct (k_proc s' !! a) as [p'|]; [|done]. exists p'. split; [done|]. cbn in Hv. congruence.
Qed.

Lemma nframe_sym_lookup s s' a : nframe s s' -> k_proc s !! a = None -> k_proc s' !! a = None.
Proof.
  intros [Hv _] Hp. apply (f_equal (.!! a)) in Hv. rewrite !lookup_fmap, Hp in Hv.
  by destruct (k_proc s' !! a).
Qed.

Lemma nframe_is_ready s s' a : nframe s s' -> is_ready s' a = is_ready s a.
Proof.
  intros Hf. unfold is_ready. destruct (k_proc s !! a) as [x|] eqn:E.
  - destruct (nframe_lookup s s' a x Hf E) as (x' & -> & Hc).
    change (p_state x') with (p_state (ncore x')). by rewrite Hc.
  - by rewrite (nframe_sym_lookup s s' a Hf E).
Qed.

Definition cur_q q (r : ready_list) : Z * Z := (q, r_q r).
Definition oth_q q (r : ready_list) : Z * Z := (q, (r_q r + 1) mod 2).

Lemma oth_q_cases q r : r_q r = 0 \/ r_q r = 1 ->
  (cur_q q r = (q, 0) /\ oth_q q r = (q, 1)) \/ (cur_q q r = (q, 1) /\ oth_q q r = (q, 0)).
Proof. unfold cur_q, oth_q. intros [-> | ->]; auto. Qed.

Lemma oth_q_ne q r : r_q r = 0 \/ r_q r = 1 -> oth_q q r <> cur_q q r.
Proof. intros Hr. destruct (oth_q_cases q r Hr) as [[-> ->]|[-> ->]]; congruence. Qed.

Lemma valid_cur s Q q r : sched_inv s Q -> znth (k_ready s) q = Some r ->
  valid_q (cur_q q r) /\ valid_q (oth_q q r).
Proof.
  intros Hi Hr. pose proof (si_current _ _ Hi q r Hr) as Hc.
  apply znth_bound in Hr. rewrite (si_ready _ _ Hi) in Hr.
  assert (0 <= q < PRIORITY_MAX) by (unfold PRIORITY_MAX in *; lia).
  destruct (oth_q_cases q r Hc) as [[-> ->]|[-> ->]]; split; split; cbn; auto.
Qed.

Lemma wpe_current_queue q r s (Qp : Z * Z -> kstate -> Prop) E :
  znth (k_ready s) q = Some r -> Qp (cur_q q r) s -> wpe (current_queue q) s Qp E.
Proof. intros. apply wpe_bind. by eapply wpe_get_ready. Qed.

Lemma wpe_other_queue q r s (Qp : Z * Z -> kstate -> Prop) E :
  znth (k_ready s) q = Some r -> Qp (oth_q q r) s -> wpe (other_queue q) s Qp E.
Proof. intros. apply wpe_bind. by eapply wpe_get_ready. Qed.

(** The next link of a member of a queue. *)
Lemma queue_next s Q l a L x : sched_inv s Q -> valid_q l -> Q l = a :: L ->
  k_proc s !! a = Some x -> p_snext x = firstz NIL L.
Proof.
  intros Hi Hl HQ Hp. destruct (valid_q_ready s Q l Hi Hl) as [r Hr].
  pose proof (si_queue _ _ Hi l r Hl Hr) as Hd. rewrite HQ in Hd.
  pose proof (dlist_links _ _ [] _ _ Hd) as E. rewrite slinks_lookup, Hp in E. cbn in E. congruence.
Qed.

Definition ready_in s L : list Z := filter (fun a => is_ready s a = true) L.

Lemma ready_in_frame s s' L : nframe s s' -> ready_in s' L = ready_in s L.
Proof.
  intros Hf. unfold ready_in. apply list_filter_iff. intros x. by rewrite (nframe_is_ready s s').
Qed.

(** The scan parks a prefix of the current queue, dropping what is not ready,
    and stops at the first ready process that has time left. *)
Definition scanned s Q q r L (a : Z) (s' : kstate) Q' : Prop :=
  sched_inv s' Q' /\ sframe s s' /\
  (forall l, l <> cur_q q r -> l <> oth_q q r -> Q' l = Q l) /\
  exists L1 L2, L = L1 ++ L2 /\ Q' (cur_q q r) = L2 /\
    Q' (oth_q q r) = Q (oth_q q r) ++ ready_in s L1 /\
    (forall b, b ∈ L1 -> is_ready s b = true -> slice s b <= MIN_TIME_SLICE) /\
    a = firstz NIL L2 /\
    (a <> NIL -> is_ready s a = true /\ MIN_TIME_SLICE < slice s a).

Lemma scan_stop s Q q r L a : sched_inv s Q -> Q (cur_q q r) = L -> a = firstz NIL L ->
  (a <> NIL -> is_ready s a = true /\ MIN_TIME_SLICE < slice s a) ->
  scanned s Q q r L a s Q.
Proof.
  intros ? HQ -> ?. split; [done|]. split; [done|]. split; [done|].
  exists [], L. repeat split; try done; cbn; [by rewrite app_nil_r|set_solver|naive_solver..].
Qed.

Lemma scan_step s Q q r a L b s1 Q1 s2 Q2 :
  sframe s s1 -> (forall l, l <> cur_q q r -> l <> oth_q q r -> Q1 l = Q l) ->
  Q1 (oth_q q r) = Q (oth_q q r) ++ ready_in s [a] ->
  (is_ready s a = true -> slice s a <= MIN_TIME_SLICE) ->
  scanned s1 Q1 q r L b s2 Q2 -> scanned s Q q r (a :: L) b s2 Q2.
Proof.
  intros Hf Hoth Ho Ha (Hi2 & Hf2 & Hoth2 & L1 & L2 & -> & HL2 & Ho2 & Hs & Hb & Hr).
  split; [done|]. split; [by etransitivity|]. split.
  { intros. rewrite Hoth2, Hoth; done. }
  exists (a :: L1), L2. split; [done|]. split; [done|]. split; [|split; [|split]].
  - rewrite Ho2, Ho, (ready_in_frame s s1) by by apply sframe_nframe.
    rewrite <-app_assoc. f_equal. unfold ready_in. by rewrite <-filter_app.
  - intros x [->|Hx]%elem_of_cons; [done|]. specialize (Hs x Hx).
    by rewrite (sframe_is_ready s s1), (sframe_slice s s1) in Hs by done.
  - done.
  - by rewrite (sframe_is_ready s s1), (sframe_slice s s1) in Hr by done.
Qed.
End next_proc_facts.

Section next_proc_proofs.
Context `{Board}.
Implicit Types (s : kstate) (Q : Z * Z -> list Z) (l : Z * Z) (a b p q : Z) (L : list Z).

(** [current_queue q] then removal of its first process. *)
Lemma unlink_head s Q q r a x L :
  sched_inv s Q -> znth (k_ready s) q = Some r -> Q (cur_q q r) = a :: L ->
  k_proc s !! a = Some x ->
  wp (let* l := current_queue q in remove_from_list l a) s
    (fun _ s' => sched_inv s' (qupd Q (cur_q q r) L) /\ sframe s s' /\
                 exists x', k_proc s' !! a = Some x' /\ p_slist x' = None).
Proof.
  intros Hi Hr HQ Hx. destruct (valid_cur s Q q r Hi Hr) as [Hc _].
  apply wpe_bind. eapply wpe_current_queue; [done|].
  destruct (si_member _ _ Hi (cur_q q r) a) as (x' & Hx' & Hs); [done|rewrite HQ; set_solver|].
  rewrite Hx in Hx'. injection Hx' as <-.
  apply (remove_from_list_spec s Q _ a x [] L Hi Hx Hs HQ).
Qed.

Lemma sframe_priority s s' Q q r a x x' : sched_inv s Q -> sframe s s' ->
  valid_q (cur_q q r) -> a ∈ Q (cur_q q r) ->
  k_proc s !! a = Some x -> k_proc s' !! a = Some x' -> q = p_priority x'.
Proof.
  intros Hi Hf Hc Ha Hx Hx'. destruct (si_member _ _ Hi _ _ Hc Ha) as (y & Hy & Hs).
  rewrite Hx in Hy. injection Hy as <-. destruct (si_slist _ _ Hi _ _ _ Hx Hs) as (_ & E & _).
  destruct (sframe_lookup s s' a x Hf Hx) as (y & Hy & Hcore). rewrite Hx' in Hy. injection Hy as <-.
  change (p_priority x') with (p_priority (pcore x')). by rewrite Hcore.
Qed.

Lemma next_proc_scan_spec fuel s Q q r L :
  sched_inv s Q -> znth (k_ready s) q = Some r -> Q (cur_q q r) = L -> (length L < fuel)%nat ->
  wp (next_proc_scan fuel q (firstz NIL L)) s
    (fun a s' => exists Q', scanned s Q q r L a s' Q').
Proof.
  revert s Q r L. induction fuel as [|fuel IH]; intros s Q r L Hi Hr HQ Hlen; [lia|].
  destruct (valid_cur s Q q r Hi Hr) as [Hc Ho]. cbn [next_proc_scan].
  destruct L as [|a L]; [|change (firstz NIL (a :: L)) with a].
  { apply wpe_ret. exists Q. by apply scan_stop. }
  pose proof (member_not_nil s Q _ a Hi Hc ltac:(rewrite HQ; set_solver)) as Ha0.
  rewrite (proj2 (Z.eqb_neq _ _) Ha0).
  destruct (si_member _ _ Hi (cur_q q r) a) as (x & Hx & Hsl); [done|rewrite HQ; set_solver|].
  assert (Hrd : is_ready s a = bool_decide (p_state x = PROC_ready)) by (unfold is_ready; by rewrite Hx).
  assert (Hts : slice s a = p_ts x) by (unfold slice; by rewrite Hx).
  do 2 (kstep; cbn beta zeta). rewrite (queue_next s Q _ a L x Hi Hc HQ Hx).
  destruct (decide (p_state x = PROC_ready)) as [Hst|Hst];
    [rewrite bool_decide_true in Hrd by done; destruct (Z.ltb_spec MIN_TIME_SLICE (p_ts x))|
     rewrite bool_decide_false in Hrd by done].
  - apply wpe_ret. exists Q. apply scan_stop; [done..|]. intros _. rewrite Hts. done.
  - apply wpe_bind. eapply wpe_mono; [by eapply unlink_head|cbn|done].
    intros _ s1 (Hi1 & Hf1 & x1 & Hx1 & Hs1).
    destruct (sframe_current s s1 q r Hf1 Hr) as (r1 & Hr1 & Hq1).
    assert (Ecur : cur_q q r1 = cur_q q r) by (unfold cur_q; congruence).
    assert (Eoth : oth_q q r1 = oth_q q r) by (unfold oth_q; congruence).
    apply wpe_bind. apply wpe_bind. eapply wpe_other_queue; [done|]. rewrite Eoth.
    eapply wpe_mono; [eapply add_to_list_tail_spec|cbn|done]; [done..| |].
    { apply (sframe_priority s s1 Q q r a x x1); try done. rewrite HQ. set_solver. }
    intros _ s2 (Hi2 & Hf2). destruct (sframe_current s1 s2 q r1 Hf2 Hr1) as (r2 & Hr2 & Hq2).
    assert (Ecur2 : cur_q q r2 = cur_q q r) by (unfold cur_q; congruence).
    assert (Eoth2 : oth_q q r2 = oth_q q r) by (unfold oth_q; congruence).
    assert (Hne : oth_q q r <> cur_q q r) by exact (oth_q_ne q r (si_current _ _ Hi q r Hr)).
    eapply wpe_mono; [eapply (IH s2 _ r2 L); [done..| |cbn in Hlen; lia]|cbn|done].
    { rewrite Ecur2. rewrite qupd_ne by done. apply qupd_eq. }
    intros b s3 (Q3 & H3). exists Q3.
    assert (Hs2 : scanned s2 (qupd (qupd Q (cur_q q r) L) (oth_q q r)
                    (qupd Q (cur_q q r) L (oth_q q r) ++ [a])) q r L b s3 Q3).
    { unfold scanned in *. rewrite Ecur2, Eoth2 in H3. done. }
    eapply scan_step, Hs2.
    + by etransitivity.
    + intros l Hl1 Hl2. by rewrite !qupd_ne.
    + rewrite qupd_eq, qupd_ne by done. unfold ready_in. by rewrite filter_cons_True.
    + intros _. rewrite Hts. lia.
  - apply wpe_bind. eapply wpe_mono; [by eapply unlink_head|cbn|done].
    intros _ s1 (Hi1 & Hf1 & x1 & Hx1 & Hs1).
    destruct (sframe_current s s1 q r Hf1 Hr) as (r1 & Hr1 & Hq1).
    assert (Ecur : cur_q q r1 = cur_q q r) by (unfold cur_q; congruence).
    assert (Eoth : oth_q q r1 = oth_q q r) by (unfold oth_q; congruence).
    assert (Hne : oth_q q r <> cur_q q r) by exact (oth_q_ne q r (si_current _ _ Hi q r Hr)).
    eapply wpe_mono; [eapply (IH s1 _ r1 L); [done..| |cbn in Hlen; lia]|cbn|done].
    { rewrite Ecur. apply qupd_eq. }
    intros b s3 (Q3 & H3). exists Q3.
    assert (Hs2 : scanned s1 (qupd Q (cur_q q r) L) q r L b s3 Q3).
    { unfold scanned in *. by rewrite Ecur, Eoth in H3. }
    eapply scan_step, Hs2; [done| | |by rewrite Hrd].
    + intros l Hl1 Hl2. by rewrite qupd_ne.
    + rewrite qupd_ne by done. unfold ready_in. rewrite filter_cons_False by (by rewrite Hrd).
      by rewrite filter_nil, app_nil_r.
Qed.

(** The refill loop gives every member of the list a full slice. *)
Definition refill L (ps : gmap Z obj_proc) : gmap Z obj_proc :=
  foldl (fun m a => alter (set_p_ts SYSTICK) a m) ps L.

Lemma fmap_refill {B} (f : obj_proc -> B) L ps :
  (forall x, f (set_p_ts SYSTICK x) = f x) -> f <$> refill L ps = f <$> ps.
Proof.
  intros Hf. revert ps. induction L as [|a L IH]; intros ps; cbn; [done|].
  unfold refill in IH. by rewrite IH, fmap_alter_same.
Qed.

Lemma refill_lookup_ne L ps b : b ∉ L -> refill L ps !! b = ps !! b.
Proof.
  revert ps. induction L as [|a L IH]; intros ps Hb; cbn; [done|]. unfold refill in IH.
  rewrite IH by set_solver. apply lookup_alter_ne. set_solver.
Qed.

Lemma refill_slice L s a : a ∈ L -> is_Some (k_proc s !! a) ->
  slice (set_k_proc (refill L (k_proc s)) s) a = SYSTICK.
Proof.
  unfold slice; cbn [k_proc set_k_proc]. intros Ha. generalize (k_proc s) as ps.
  induction L as [|b L IH]; intros ps Hx; [set_solver|]. cbn. unfold refill in IH.
  destruct (decide (a ∈ L)) as [Hin|Hin].
  - apply IH; [done|]. rewrite lookup_alter. case_decide; [|done]. by subst; apply fmap_is_Some.
  - assert (a = b) as -> by set_solver. fold (refill L (alter (set_p_ts SYSTICK) b ps)).
    rewrite refill_lookup_ne, lookup_alter_eq by done. by destruct Hx as [x ->].
Qed.

Lemma next_proc_refill_spec fuel m p L s n :
  dseg m p L NIL -> NoDup L -> (length L < fuel)%nat -> slinks s = m -> n = firstz NIL L ->
  next_proc_refill fuel n s = Ok tt (set_k_proc (refill L (k_proc s)) s).
Proof.
  revert p L s n. induction fuel as [|fuel IH]; intros p L s n Hd Hn Hlen Hm ->; [lia|].
  destruct L as [|a L]; cbn [next_proc_refill].
  { change (firstz NIL [] =? NIL) with true. cbn. by destruct s. }
  change (firstz NIL (a :: L)) with a. destruct Hd as (Ha & Hlk & Hd).
  rewrite (proj2 (Z.eqb_neq _ _) Ha). subst m. rewrite slinks_lookup in Hlk.
  destruct (k_proc s !! a) as [x|] eqn:Hx; [|done]. cbn in Hlk. injection Hlk as Hpv Hnx.
  unfold bind at 1, upd_proc, bind at 1, get_proc at 1, read. rewrite Hx.
  cbn [put_proc modify]. unfold bind, get_proc, read; cbn. rewrite lookup_insert_eq.
  apply NoDup_cons in Hn as [_ Hn].
  rewrite (IH a L) by (try done; cbn in *; try lia;
    unfold slinks; cbn; rewrite fmap_insert; apply insert_id; by rewrite lookup_fmap, Hx).
  cbn. by rewrite (alter_insert_lookup _ _ _ x).
Qed.
End next_proc_proofs.

Section next_proc_main.
Context `{Board}.
Implicit Types (s : kstate) (Q : Z * Z -> list Z) (l : Z * Z) (a b p q pr : Z) (L : list Z).

(** Swapping the queues of a priority. *)
Definition flip q (s : kstate) : kstate :=
  match znth (k_ready s) q with
  | Some r => set_k_ready (zupd q (set_r_q ((r_q r + 1) mod 2) r) (k_ready s)) s
  | None => s
  end.

Lemma flip_lookup s q r : znth (k_ready s) q = Some r ->
  znth (k_ready (flip q s)) q = Some (set_r_q ((r_q r + 1) mod 2) r).
Proof.
  intros Hr. unfold flip. rewrite Hr. cbn. apply znth_zupd_eq. by eapply znth_bound.
Qed.

Lemma flip_inv s Q q : sched_inv s Q -> sched_inv (flip q s) Q.
Proof.
  intros Hi. unfold flip. destruct (znth (k_ready s) q) as [r|] eqn:Hr; [|done].
  assert (Hb : 0 <= q < Z.of_nat (length (k_ready s))) by by eapply znth_bound.
  pose proof Hi as []. constructor; cbn [k_ready k_proc set_k_ready]; try done.
  - by rewrite length_zupd.
  - intros pr r'. destruct (decide (q = pr)) as [<-|].
    + rewrite znth_zupd_eq by done. intros [= <-]. cbn.
      destruct (si_current0 q r Hr) as [-> | ->]; auto.
    + rewrite znth_zupd_ne by done. eauto.
  - intros l r' Hl. destruct (decide (q = l.1)) as [->|].
    + rewrite znth_zupd_eq by done. intros [= <-].
      change (ready_q l.2 (set_r_q ((r_q r + 1) mod 2) r)) with (ready_q l.2 r). eauto.
    + rewrite znth_zupd_ne by done. eauto.
Qed.

Lemma flip_nframe s q : nframe s (flip q s).
Proof.
  unfold flip. destruct (znth (k_ready s) q); [|done]. constructor; [done|]. by destruct s.
Qed.

Lemma refill_inv s Q L : sched_inv s Q -> sched_inv (set_k_proc (refill L (k_proc s)) s) Q.
Proof. apply sched_inv_ext; [|done]. by apply fmap_refill. Qed.

Lemma refill_nframe s L : nframe s (set_k_proc (refill L (k_proc s)) s).
Proof. constructor; [by apply fmap_refill|by destruct s]. Qed.

Lemma queue_length s Q l : sched_inv s Q -> valid_q l ->
  (length (Q l) < S (size (k_proc s)))%nat.
Proof.
  intros Hi Hl. destruct (valid_q_ready s Q l Hi Hl) as [r Hr].
  pose proof (dl_nodup _ _ _ (si_queue _ _ Hi l r Hl Hr)) as Hn.
  apply Nat.lt_succ_r. rewrite <-size_dom. rewrite <-(size_list_to_set (C := gset Z)) by done.
  apply subseteq_size. intros a Ha%elem_of_list_to_set. apply elem_of_dom.
  destruct (si_member _ _ Hi l a) as (p & ? & _); [done..|]. by exists p.
Qed.

(** One visit of a priority that finds nothing to run leaves its old current
    queue empty, and its ready processes with a full slice on the other one,
    which becomes current. *)
Record visited s Q q r s' Q' : Prop := {
  vi_inv : sched_inv s' Q';
  vi_frame : nframe s s';
  vi_other : forall l, l <> cur_q q r -> l <> oth_q q r -> Q' l = Q l;
  vi_empty : Q' (cur_q q r) = [];
  vi_parked : Q' (oth_q q r) = Q (oth_q q r) ++ ready_in s (Q (cur_q q r));
  vi_spent : forall b, b ∈ Q (cur_q q r) -> is_ready s b = true -> slice s b <= MIN_TIME_SLICE;
  vi_full : forall b, b ∈ Q' (oth_q q r) -> slice s' b = SYSTICK;
  vi_current : exists r', znth (k_ready s') q = Some r' /\
    cur_q q r' = oth_q q r /\ oth_q q r' = cur_q q r
}.

Lemma next_proc_visit fuel s Q q r (Qp : Z -> kstate -> Prop) :
  sched_inv s Q -> znth (k_ready s) q = Some r ->
  (forall a s' Q', a <> NIL -> scanned s Q q r (Q (cur_q q r)) a s' Q' -> Qp a s') ->
  (forall s' Q', visited s Q q r s' Q' ->
     wp (next_proc_loop fuel (match Q' (oth_q q r) with [] => q - 1 | _ => q end)) s' Qp) ->
  wp (next_proc_loop (S fuel) q) s Qp.
Proof.
  intros Hi Hr Hfound Hnext. destruct (valid_cur s Q q r Hi Hr) as [Hc Ho].
  assert (Hq : 0 <= q) by (apply znth_bound in Hr; lia).
  cbn [next_proc_loop]. rewrite (proj2 (Z.ltb_ge q 0)) by done.
  apply wpe_bind, wpe_gets, wpe_bind. eapply wpe_current_queue; [done|].
  apply wpe_bind. eapply wpe_get_queue; [done|].
  rewrite (dl_head _ _ _ (si_queue _ _ Hi _ _ Hc Hr)).
  apply wpe_bind. eapply wpe_mono; [apply next_proc_scan_spec; [done..|by apply queue_length]|cbn|done].
  intros a s1 (Q1 & Hs). unfold ctrue. destruct (Z.eqb_spec a NIL) as [->|Ha]; cbn [negb].
  2: { apply wpe_ret. by eapply Hfound. }
  destruct Hs as (Hi1 & Hf1 & Hoth1 & L1 & L2 & HL & HL2 & Hpark & Hspent & HN & _).
  assert (L2 = []) as ->.
  { destruct L2 as [|x L2]; [done|]. exfalso. symmetry in HN. revert HN.
    apply (member_not_nil _ _ _ x Hi1 Hc). rewrite HL2. apply list_elem_of_here. }
  rewrite app_nil_r in HL. subst L1.
  destruct (sframe_current s s1 q r Hf1 Hr) as (r1 & Hr1 & Hq1).
  assert (Ecur : cur_q q r1 = cur_q q r) by (unfold cur_q; congruence).
  assert (Eoth : oth_q q r1 = oth_q q r) by (unfold oth_q; congruence).
  pose proof (flip_lookup s1 q r1 Hr1) as Hr2. pose proof (flip_inv s1 Q1 q Hi1) as Hi2.
  apply wpe_bind. eapply wpe_upd_ready; [done|]. cbn beta.
  replace (set_k_ready _ s1) with (flip q s1) by (unfold flip; by rewrite Hr1).
  set (r2 := set_r_q ((r_q r1 + 1) mod 2) r1) in *.
  assert (Hcur2 : cur_q q r2 = oth_q q r) by (unfold cur_q, oth_q; cbn; congruence).
  assert (Hoth2 : oth_q q r2 = cur_q q r).
  { unfold cur_q, oth_q; cbn. rewrite Hq1. pose proof (si_current _ _ Hi q r Hr) as [-> | ->]; done. }
  apply wpe_bind. eapply wpe_current_queue; [done|]. rewrite Hcur2.
  apply wpe_bind. eapply wpe_get_queue; [apply Hr2|].
  pose proof (si_queue _ _ Hi2 _ _ Ho Hr2) as Hd. rewrite (dl_head _ _ _ Hd).
  set (L := Q1 (oth_q q r)) in *.
  apply wpe_bind. eapply wpe_ok.
  { apply (next_proc_refill_spec (S (size (k_proc s))) (slinks (flip q s1)) NIL L (flip q s1)); [apply Hd|apply Hd| |done..].
    assert (Hsz : size (k_proc (flip q s1)) = size (k_proc s)).
    { unfold flip. rewrite Hr1. cbn. rewrite <-(map_size_fmap pcore (k_proc s1)), (sf_proc _ _ Hf1).
      apply map_size_fmap. }
    rewrite <-Hsz. by apply (queue_length _ Q1). }
  apply wpe_bind. eapply wpe_get_queue; [apply Hr2|]. rewrite (dl_head _ _ _ Hd).
  set (s3 := set_k_proc _ _).
  assert (Hv : visited s Q q r s3 Q1).
  { constructor; try done.
    - by apply refill_inv.
    - etransitivity; [by apply sframe_nframe|]. etransitivity; [apply flip_nframe|]. apply refill_nframe.
    - intros b Hb. apply refill_slice; [done|].
      destruct (si_member _ _ Hi2 _ b Ho Hb) as (x & Hx & _). by exists x.
    - exists r2. done. }
  specialize (Hnext s3 Q1 Hv). fold L in Hnext. clearbody L. destruct L as [|b L]; [done|].
  change (firstz NIL (b :: L)) with b. rewrite (proj2 (Z.eqb_neq b NIL)); [done|].
  destruct Hd as [_ _ Hd _]. by destruct Hd.
Qed.
End next_proc_main.

(** What a search that starts at priority [q] finds: [a] is a ready process of
    the highest priority that has one, with time to run, or nil when no queued
    process is ready.  No ready process is lost from its priority. *)
Record searched (q : Z) (s : kstate) (Q : Z * Z -> list Z) (a : Z) (s' : kstate)
    (Q' : Z * Z -> list Z) : Prop := {
  se_inv : sched_inv s' Q';
  se_frame : nframe s s';
  se_above : forall l, q < l.1 -> Q' l = Q l;
  se_keeps : forall pr b, is_ready s b = true -> queued Q' pr b <-> queued Q pr b;
  se_none : a = NIL -> forall pr b, 0 <= pr <= q -> queued Q pr b -> is_ready s b = false;
  se_some : a <> NIL -> exists pr, 0 <= pr <= q /\ queued Q pr a /\ is_ready s a = true /\
    MIN_TIME_SLICE < slice s' a /\
    forall pr' b, pr < pr' <= q -> queued Q pr' b -> is_ready s b = false
}.

Section next_proc_search.
Context `{Board}.
Implicit Types (s : kstate) (Q : Z * Z -> list Z) (l : Z * Z) (a b p q pr : Z) (L : list Z).

Lemma queued_cases Q q r b : r_q r = 0 \/ r_q r = 1 ->
  queued Q q b <-> b ∈ Q (cur_q q r) \/ b ∈ Q (oth_q q r).
Proof. unfold queued. intros Hr. destruct (oth_q_cases q r Hr) as [[-> ->]|[-> ->]]; tauto. Qed.

Lemma queued_other Q Q' q r pr b : r_q r = 0 \/ r_q r = 1 -> pr <> q ->
  (forall l, l <> cur_q q r -> l <> oth_q q r -> Q' l = Q l) ->
  queued Q' pr b <-> queued Q pr b.
Proof.
  intros Hr Hne Hl. unfold queued.
  destruct (oth_q_cases q r Hr) as [[E1 E2]|[E1 E2]]; rewrite E1, E2 in Hl;
    rewrite !Hl by congruence; done.
Qed.

Lemma elem_ready_in s L b : b ∈ ready_in s L <-> is_ready s b = true /\ b ∈ L.
Proof. unfold ready_in. by rewrite list_elem_of_filter. Qed.

Lemma scanned_keeps s Q q r a s' Q' pr b :
  r_q r = 0 \/ r_q r = 1 -> scanned s Q q r (Q (cur_q q r)) a s' Q' ->
  is_ready s b = true -> queued Q' pr b <-> queued Q pr b.
Proof.
  intros Hr (_ & _ & Hoth & L1 & L2 & HL & HL2 & Hp & _) Hb.
  destruct (decide (pr = q)) as [->|]; [|by eapply queued_other].
  rewrite !(queued_cases _ q r) by done. rewrite Hp, HL2, HL, !elem_of_app, elem_ready_in. tauto.
Qed.

Lemma visited_keeps s Q q r s' Q' pr b :
  r_q r = 0 \/ r_q r = 1 -> visited s Q q r s' Q' ->
  is_ready s b = true -> queued Q' pr b <-> queued Q pr b.
Proof.
  intros Hr [_ _ Hoth Hc Hp _ _ _] Hb.
  destruct (decide (pr = q)) as [->|]; [|by eapply queued_other].
  rewrite !(queued_cases _ q r) by done. rewrite Hp, Hc, !elem_of_app, elem_ready_in. set_solver.
Qed.

Lemma cur_above q r l : q < l.1 -> l <> cur_q q r /\ l <> oth_q q r.
Proof. intros. split; intros ->; cbn in *; lia. Qed.

(** A scan that finds a process ends the search. *)
Lemma searched_found s Q q r a s' Q' : sched_inv s Q -> znth (k_ready s) q = Some r ->
  a <> NIL -> scanned s Q q r (Q (cur_q q r)) a s' Q' -> searched q s Q a s' Q'.
Proof.
  intros Hi Hr Ha Hs. pose proof (si_current _ _ Hi q r Hr) as Hc.
  pose proof (scanned_keeps s Q q r a s' Q') as Hk.
  destruct Hs as (Hi' & Hf & Hoth & L1 & L2 & HL & HL2 & Hp & Hsp & HaL & Hrd).
  pose proof (znth_bound _ _ _ Hr). destruct (Hrd Ha) as [? Hsl].
  constructor; try done.
  - by apply sframe_nframe.
  - intros l Hl. by apply Hoth; apply cur_above.
  - intros. apply Hk; [done| |done]. split; [done|]. split; [done|]. split; [done|].
    by exists L1, L2.
  - intros _. exists q. split; [lia|]. split.
    { apply (queued_cases _ q r); [done|]. left. rewrite HL. destruct L2 as [|x L2]; [done|].
      change (firstz NIL (x :: L2)) with x in HaL. subst. set_solver. }
    split; [done|]. split; [|lia]. by rewrite (sframe_slice s s').
Qed.

(** A search carries over a visit. *)
Lemma searched_visited s Q q r q' a s1 Q1 s2 Q2 : sched_inv s Q -> znth (k_ready s) q = Some r ->
  visited s Q q r s1 Q1 -> searched q' s1 Q1 a s2 Q2 -> q' <= q ->
  (q' < q -> q' = q - 1 /\ forall b, queued Q q b -> is_ready s b = false) ->
  searched q s Q a s2 Q2.
Proof.
  intros Hi Hr Hv Hs Hq Hlt. pose proof (si_current _ _ Hi q r Hr) as Hc.
  assert (Hk : forall pr b, is_ready s b = true -> queued Q1 pr b <-> queued Q pr b)
    by (intros; by eapply visited_keeps).
  assert (Hrd : forall b, is_ready s1 b = is_ready s b)
    by (intros; apply nframe_is_ready, Hv).
  assert (Hno : forall pr b, q' < pr <= q -> queued Q pr b -> is_ready s b = false).
  { intros pr b Hpr Hb. destruct Hlt as [-> Hx]; [lia|]. apply Hx. by replace q with pr by lia. }
  assert (Hb1 : forall pr b, queued Q pr b -> is_ready s b = true -> queued Q1 pr b)
    by (intros; by apply Hk).
  destruct Hs as [Hi2 Hf2 Hab Hkp Hn Hsm]. constructor; [done| | | | |].
  - etransitivity; [apply Hv|done].
  - intros l Hl. rewrite Hab by lia. by apply Hv; apply cur_above.
  - intros pr b Hb. rewrite Hkp by by rewrite Hrd. by apply Hk.
  - intros Ha pr b Hpr Hb. destruct (is_ready s b) eqn:E; [|done].
    destruct (decide (pr <= q')); [|rewrite (Hno pr b) in E by (done || lia); done].
    pose proof (Hn Ha pr b ltac:(lia) (Hb1 pr b Hb E)) as E'. by rewrite Hrd, E in E'.
  - intros Ha. destruct (Hsm Ha) as (pr & Hpr & Hq1 & Hr1 & Hsl & Hhi). exists pr.
    rewrite Hrd in Hr1. split; [lia|]. split; [by apply Hk|]. split; [done|]. split; [done|].
    intros pr' b Hpr' Hb. destruct (is_ready s b) eqn:E; [|done].
    destruct (decide (pr' <= q')); [|rewrite (Hno pr' b) in E by (done || lia); done].
    pose proof (Hhi pr' b ltac:(lia) (Hb1 pr' b Hb E)) as E'. by rewrite Hrd, E in E'.
Qed.

(** The search terminates, two visits per priority, with what it is for. *)
Lemma next_proc_loop_spec n fuel s Q :
  sched_inv s Q -> Z.of_nat n <= PRIORITY_MAX -> (2 * n + 1 <= fuel)%nat ->
  wp (next_proc_loop fuel (Z.of_nat n - 1)) s
    (fun a s' => exists Q', searched (Z.of_nat n - 1) s Q a s' Q').
Proof.
  revert fuel s Q. induction n as [|n IH]; intros fuel s Q Hi Hn Hfuel.
  { destruct fuel as [|fuel]; [lia|]. cbn. exists Q. constructor; try done; lia. }
  assert (Hq : 0 <= Z.of_nat (S n) - 1 < PRIORITY_MAX) by lia.
  set (q := Z.of_nat (S n) - 1) in *.
  destruct fuel as [|[|fuel]]; [lia..|].
  destruct (znth_is_Some (k_ready s) q) as [r Hr].
  { rewrite (si_ready _ _ Hi). unfold PRIORITY_MAX in *. lia. }
  pose proof (si_current _ _ Hi q r Hr) as Hc.
  assert (Hgo : forall s1 Q1, sched_inv s1 Q1 -> forall fuel, (2 * n + 1 <= fuel)%nat ->
    wp (next_proc_loop fuel (q - 1)) s1 (fun a s2 => exists Q2, searched (q - 1) s1 Q1 a s2 Q2)).
  { intros s1 Q1 Hi1 f Hf. unfold q. replace (Z.of_nat (S n) - 1 - 1) with (Z.of_nat n - 1) by lia.
    apply IH; [done|lia|done]. }
  eapply next_proc_visit; [done..| |].
  { intros a s' Q' Ha Hs. exists Q'. by eapply searched_found. }
  intros s1 Q1 Hv. pose proof (vi_inv _ _ _ _ _ _ Hv) as Hi1.
  destruct (Q1 (oth_q q r)) as [|x L] eqn:HL.
  { eapply wpe_mono; [eapply Hgo; [done|lia]|cbn|done]. intros a s2 [Q2 Hs2]. exists Q2.
    apply (searched_visited s Q q r (q - 1) a s1 Q1); [done..|lia|]. intros _. split; [done|]. intros b Hb.
    destruct (is_ready s b) eqn:E; [|done]. exfalso.
    pose proof (vi_parked _ _ _ _ _ _ Hv) as Hp. rewrite HL in Hp. symmetry in Hp.
    apply app_nil in Hp as [Hp1 Hp2]. apply (queued_cases _ q r) in Hb; [|done].
    rewrite Hp1 in Hb. destruct Hb as [Hb|Hb]; [|set_solver].
    assert (b ∈ ready_in s (Q (cur_q q r))) by by apply elem_ready_in. rewrite Hp2 in *. set_solver. }
  destruct (vi_current _ _ _ _ _ _ Hv) as (r1 & Hr1 & E1 & E2).
  eapply next_proc_visit; [done..| |].
  { intros a s2 Q2 Ha Hs2. exists Q2. apply (searched_visited s Q q r q a s1 Q1); [done..| |lia|lia].
    by eapply searched_found. }
  intros s2 Q2 Hv2.
  assert (Hnone : ready_in s1 (Q1 (cur_q q r1)) = []).
  { destruct (ready_in s1 _) as [|y L'] eqn:Ey; [done|]. exfalso.
    assert (Hy : y ∈ ready_in s1 (Q1 (cur_q q r1))) by (rewrite Ey; set_solver).
    apply elem_ready_in in Hy as [Hy1 Hy2].
    pose proof (vi_spent _ _ _ _ _ _ Hv2 y Hy2 Hy1) as Hle. rewrite E1 in Hy2.
    rewrite (vi_full _ _ _ _ _ _ Hv y Hy2) in Hle. destruct SYSTICK_range. lia. }
  assert (HQ2 : Q2 (oth_q q r1) = []).
  { rewrite (vi_parked _ _ _ _ _ _ Hv2), Hnone, E2, (vi_empty _ _ _ _ _ _ Hv). done. }
  rewrite HQ2. eapply wpe_mono; [eapply Hgo; [apply Hv2|lia]|cbn|done]. intros a s3 [Q3 Hs3]. exists Q3.
  apply (searched_visited s Q q r q a s1 Q1); [done..| |lia|lia].
  apply (searched_visited s1 Q1 q r1 (q - 1) a s2 Q2); [done..|lia|]. intros _. split; [done|]. intros b Hb.
  destruct (is_ready s1 b) eqn:E; [|done]. exfalso.
  apply (queued_cases _ q r) in Hb; [|done]. rewrite (vi_empty _ _ _ _ _ _ Hv), <-E1 in Hb.
  destruct Hb as [Hb|Hb]; [set_solver|].
  assert (Hx : b ∈ ready_in s1 (Q1 (cur_q q r1))) by by apply elem_ready_in.
  rewrite Hnone in Hx. set_solver.
Qed.
End next_proc_search.
