(* ===== verification/SchedProps.v ===== *)
(** * What the scheduler guarantees

    The theorems on [next_proc], [schedule] and the operations that change a
    process' scheduling state, over the invariant of Sched.v. *)
From S2P Require Import Prelude KState DList Sched.

Local Open Scope Z_scope.
Local Open Scope c_scope.

(** No process that could run is forgotten: except the running one, which is
    requeued when it gives up the processor, it is on a queue. *)
Definition no_lost (s : kstate) : Prop :=
  forall a p, k_proc s !! a = Some p -> p_state p = PROC_ready -> a <> k_up s -> p_slist p <> None.

(** A context switch leaves alone all but the scheduler's own fields, the saved
    label, the running process and the translation table base. *)
Definition tcore (p : obj_proc) : obj_proc := set_p_label K_zero (ncore p).
Record tframe (s s' : kstate) : Prop := {
  tf_proc : tcore <$> k_proc s' = tcore <$> k_proc s;
  tf_rest : exists ps rd up ttb,
    s' = set_k_mach (set_m_ttb ttb (k_mach s)) (set_k_up up (set_k_ready rd (set_k_proc ps s)))
}.

#[export] Instance tframe_refl : Reflexive tframe.
Proof.
  intros s. constructor; [done|]. exists (k_proc s), (k_ready s), (k_up s), (m_ttb (k_mach s)).
  by destruct s as [? ? ? ? ? ? ? ? ? ? ? ? []].
Qed.
#[export] Instance tframe_trans : Transitive tframe.
Proof.
  intros s1 s2 s3 [H1 (p1 & r1 & u1 & t1 & ->)] [H2 (p2 & r2 & u2 & t2 & ->)].
  constructor; [congruence|]. by exists p2, r2, u2, t2.
Qed.

Section frames.
Implicit Types (s : kstate) (Q : Z * Z -> list Z) (a n : Z) (p : obj_proc).

Lemma nframe_tframe s s' : nframe s s' -> tframe s s'.
Proof.
  intros [Hp Hr]. constructor.
  - assert (Hx : forall m : gmap Z obj_proc, tcore <$> m = set_p_label K_zero <$> (ncore <$> m))
      by (intros m; by rewrite <-map_fmap_compose).
    by rewrite !Hx, Hp.
  - exists (k_proc s'), (k_ready s'), (k_up s), (m_ttb (k_mach s)). rewrite Hr.
    by destruct s as [? ? ? ? ? ? ? ? ? ? ? ? []].
Qed.

Lemma sframe_tframe s s' : sframe s s' -> tframe s s'.
Proof. intros. by apply nframe_tframe, sframe_nframe. Qed.

Lemma alter_tframe s a f : (forall p, tcore (f p) = tcore p) ->
  tframe s (set_k_proc (alter f a (k_proc s)) s).
Proof.
  intros Hf. constructor; [by apply fmap_alter_same|].
  exists (alter f a (k_proc s)), (k_ready s), (k_up s), (m_ttb (k_mach s)).
  by destruct s as [? ? ? ? ? ? ? ? ? ? ? ? []].
Qed.

Lemma set_up_tframe s a : tframe s (set_k_up a s).
Proof.
  constructor; [done|]. exists (k_proc s), (k_ready s), a, (m_ttb (k_mach s)).
  by destruct s as [? ? ? ? ? ? ? ? ? ? ? ? []].
Qed.

Lemma mmu_tframe s t : tframe s (set_k_mach (set_m_ttb t (k_mach s)) s).
Proof. constructor; [done|]. exists (k_proc s), (k_ready s), (k_up s), t. by destruct s. Qed.

Lemma tframe_lookup s s' a p : tframe s s' -> k_proc s !! a = Some p ->
  exists p', k_proc s' !! a = Some p' /\ tcore p' = tcore p.
Proof.
  intros [Hv _] Hp. apply (f_equal (.!! a)) in Hv. rewrite !lookup_fmap, Hp in Hv.
  destruct (k_proc s' !! a) as [p'|]; [|done]. exists p'. split; [done|]. cbn in Hv. congruence.
Qed.

Lemma tframe_lookup_back s s' a p : tframe s s' -> k_proc s' !! a = Some p ->
  exists p', k_proc s !! a = Some p' /\ tcore p = tcore p'.
Proof.
  intros [Hv _] Hp. apply (f_equal (.!! a)) in Hv. rewrite !lookup_fmap, Hp in Hv.
  destruct (k_proc s !! a) as [p'|]; [|done]. exists p'. split; [done|]. cbn in Hv. congruence.
Qed.

Lemma tframe_is_ready s s' a : tframe s s' -> is_ready s' a = is_ready s a.
Proof.
  intros Hf. unfold is_ready. destruct (k_proc s !! a) as [p|] eqn:E.
  - destruct (tframe_lookup s s' a p Hf E) as (p' & -> & Hc).
    change (p_state p') with (p_state (tcore p')). by rewrite Hc.
  - destruct (k_proc s' !! a) as [p'|] eqn:E'; [|done].
    destruct (tframe_lookup_back s s' a p' Hf E') as (? & ? & _). congruence.
Qed.

Lemma upd_proc_alter s a f : is_Some (k_proc s !! a) ->
  upd_proc a f s = Ok tt (set_k_proc (alter f a (k_proc s)) s).
Proof.
  intros [p Hp]. unfold upd_proc, bind, get_proc, read. rewrite Hp. cbn.
  by rewrite (alter_insert_lookup _ _ _ p).
Qed.

Lemma alter_inv s Q a f : (forall p, sview (f p) = sview p) -> sched_inv s Q ->
  sched_inv (set_k_proc (alter f a (k_proc s)) s) Q.
Proof. intros Hf. apply sched_inv_ext; [by apply fmap_alter_same|done]. Qed.

Lemma alter_is_Some (ps : gmap Z obj_proc) a f b :
  is_Some (ps !! b) -> is_Some (alter f a ps !! b).
Proof. intros [p Hp]. rewrite lookup_alter. case_decide; subst; rewrite Hp; eauto. Qed.

Lemma is_ready_proc s a : is_ready s a = true <->
  exists p, k_proc s !! a = Some p /\ p_state p = PROC_ready.
Proof.
  unfold is_ready. destruct (k_proc s !! a) as [p|].
  - rewrite bool_decide_eq_true. split; [by exists p|]. by intros (? & [= <-] & ?).
  - split; [done|]. by intros (? & ? & _).
Qed.

(** Queued is the same as having a queue. *)
Lemma slist_queued s Q a p : sched_inv s Q -> k_proc s !! a = Some p ->
  p_slist p <> None <-> queued Q (p_priority p) a.
Proof.
  intros Hi Hp. split.
  - destruct (p_slist p) as [l|] eqn:E; [|done]. intros _.
    destruct (si_slist _ _ Hi a p l Hp E) as ([_ Hl] & <- & Ha). destruct l as [? i].
    destruct Hl as [Hl|Hl]; cbn in Hl; subst i; [by left|by right].
  - pose proof (si_priority _ _ Hi a p Hp).
    assert (Hv : forall i, i = 0 \/ i = 1 -> valid_q (p_priority p, i)) by done.
    intros [Ha|Ha]; (eapply (si_member _ _ Hi) in Ha as (p' & Hp' & Hs); [congruence|auto]).
Qed.
End frames.

(** Updates of time slices. *)
Record uframe (s s' : kstate) : Prop := {
  uf_n : nframe s s';
  uf_view : sview <$> k_proc s' = sview <$> k_proc s;
  uf_ready : k_ready s' = k_ready s;
  uf_up : k_up s' = k_up s
}.
#[export] Instance uframe_refl : Reflexive uframe.
Proof. by constructor. Qed.
#[export] Instance uframe_trans : Transitive uframe.
Proof. intros s1 s2 s3 [] []. constructor; [by etransitivity|congruence..]. Qed.

Definition benign (f : obj_proc -> obj_proc) : Prop :=
  (forall p, ncore (f p) = ncore p) /\ (forall p, sview (f p) = sview p).

(** Every ready process is on a queue. *)
Definition all_queued (s : kstate) : Prop :=
  forall a p, k_proc s !! a = Some p -> p_state p = PROC_ready -> p_slist p <> None.

Section updates.
Implicit Types (s : kstate) (Q : Z * Z -> list Z) (a n : Z) (p : obj_proc).

Lemma uframe_inv s s' Q : uframe s s' -> sched_inv s Q -> sched_inv s' Q.
Proof. intros []. by apply sched_inv_ext. Qed.

Lemma tframe_is_Some s s' a : tframe s s' -> is_Some (k_proc s !! a) -> is_Some (k_proc s' !! a).
Proof. intros Hf [p Hp]. destruct (tframe_lookup s s' a p Hf Hp) as (p' & ? & _). by exists p'. Qed.

Lemma nframe_lookup_back s s' a p : nframe s s' -> k_proc s' !! a = Some p ->
  exists p', k_proc s !! a = Some p' /\ ncore p = ncore p'.
Proof.
  intros [Hv _] Hp. apply (f_equal (.!! a)) in Hv. rewrite !lookup_fmap, Hp in Hv.
  destruct (k_proc s !! a) as [p'|]; [|done]. exists p'. split; [done|]. cbn in Hv. congruence.
Qed.

Lemma alter_nframe s a f : (forall p, ncore (f p) = ncore p) ->
  nframe s (set_k_proc (alter f a (k_proc s)) s).
Proof. intros Hf. constructor; [by apply fmap_alter_same|by destruct s]. Qed.

Lemma uframe_is_Some s s' a : uframe s s' -> is_Some (k_proc s !! a) -> is_Some (k_proc s' !! a).
Proof. intros []. by apply tframe_is_Some, nframe_tframe. Qed.

Lemma uframe_lookup s s' a p : uframe s s' -> k_proc s' !! a = Some p ->
  exists p', k_proc s !! a = Some p' /\ ncore p = ncore p' /\ sview p = sview p'.
Proof.
  intros [Ht Hv _ _] Hp. destruct (nframe_lookup_back s s' a p Ht Hp) as (p' & Hp' & Hc).
  destruct (sview_lookup s s' a p Hv Hp) as (p2 & Hp2 & Hv2). exists p'.
  assert (p2 = p') as -> by congruence. done.
Qed.

Lemma upd_uframe s a f : benign f -> uframe s (set_k_proc (alter f a (k_proc s)) s).
Proof. intros []. constructor; [by apply alter_nframe|by apply fmap_alter_same|done..]. Qed.

(** A benign update in sequence, from a state reached by benign updates. *)
Lemma wpe_upd_uframe {A} s s0 a f (m : KM A) Qp E : uframe s s0 ->
  is_Some (k_proc s !! a) -> benign f ->
  (forall s1, uframe s s1 -> wpe m s1 Qp E) -> wpe (upd_proc a f ;;; m) s0 Qp E.
Proof.
  intros Hf Ha Hb Hk. apply wpe_bind. eapply wpe_ok.
  - apply upd_proc_alter. by eapply uframe_is_Some.
  - apply Hk. etransitivity; [done|]. by apply upd_uframe.
Qed.

Lemma sframe_slist s s' a p : sframe s s' -> k_proc s' !! a = Some p ->
  exists p', k_proc s !! a = Some p' /\ p_state p = p_state p' /\ p_priority p = p_priority p'.
Proof.
  intros Hf Hp. destruct (sframe_lookup_back s s' a p Hf Hp) as (p' & Hp' & Hc). exists p'.
  split; [done|]. change (p_state p) with (p_state (pcore p)).
  change (p_priority p) with (p_priority (pcore p)). by rewrite Hc.
Qed.
End updates.

(** The state after [set_label] saved the running process' continuation. *)
Definition saved (k : cont) (s : kstate) : kstate :=
  if k_up s =? NIL then s else set_k_proc (alter (set_p_label k) (k_up s) (k_proc s)) s.

Section scheduling.
Context `{Board}.
Implicit Types (s : kstate) (Q : Z * Z -> list Z) (a n : Z) (p : obj_proc) (k : cont).

(** A process given to [add_to_list_tail] through one of its priority's
    queues. *)
Lemma enqueue_spec s Q a p (which : Z -> KM (Z * Z)) :
  (which = current_queue \/ which = other_queue) ->
  sched_inv s Q -> k_proc s !! a = Some p -> p_slist p = None ->
  wp (let* l := which (p_priority p) in add_to_list_tail l a) s
    (fun _ s' => exists Q', sched_inv s' Q' /\ sframe s s' /\
       (forall b, queued Q' (p_priority p) b <-> queued Q (p_priority p) b \/ b = a) /\
       (forall pr b, pr <> p_priority p -> queued Q' pr b <-> queued Q pr b)).
Proof.
  intros Hw Hi Hp Hs. pose proof (si_priority _ _ Hi a p Hp) as Hpr.
  destruct (znth_is_Some (k_ready s) (p_priority p)) as [r Hr].
  { rewrite (si_ready _ _ Hi). unfold PRIORITY_MAX in *. lia. }
  destruct (valid_cur s Q _ r Hi Hr) as [Hc Ho].
  pose proof (si_current _ _ Hi _ r Hr) as Hq.
  assert (Hl : exists l, (l = cur_q (p_priority p) r \/ l = oth_q (p_priority p) r) /\ valid_q l /\
    forall (Qp : Z * Z -> kstate -> Prop), Qp l s -> wp (which (p_priority p)) s Qp).
  { destruct Hw as [-> | ->].
    - exists (cur_q (p_priority p) r). split; [by left|]. split; [done|]. intros. by eapply wpe_current_queue.
    - exists (oth_q (p_priority p) r). split; [by right|]. split; [done|]. intros. by eapply wpe_other_queue. }
  destruct Hl as (l & Hl & Hlv & Hrun). apply wpe_bind, Hrun.
  assert (Hl1 : l.1 = p_priority p) by (by destruct Hl as [-> | ->]).
  eapply wpe_mono; [by eapply add_to_list_tail_spec|cbn|done].
  intros _ s' [Hi' Hf]. eexists. split; [done|]. split; [done|]. unfold queued. split.
  - intros b. destruct Hl as [-> | ->], (oth_q_cases (p_priority p) r Hq) as [[E1 E2]|[E1 E2]];
      rewrite ?E1, ?E2; rewrite qupd_eq, qupd_ne by congruence; set_solver.
  - intros pr b Hne. rewrite !qupd_ne; [done|..]; intros <-; cbn in Hl1; congruence.
Qed.

(** Leaving the processor. *)
Lemma schedule_leave_spec s Q n k :
  sched_inv s Q -> no_lost s ->
  (k_up s <> NIL -> is_Some (k_proc s !! k_up s)) ->
  (n <> NIL -> is_Some (k_proc s !! n)) ->
  wp (schedule_leave n k) s (fun _ s' => exists Q', sched_inv s' Q' /\ nframe (saved k s) s' /\
    k_up s' = k_up s /\ all_queued s').
Proof.
  intros Hi Hnl Hup Hn. unfold schedule_leave, ctrue. apply wpe_bind, wpe_gets.
  unfold saved. destruct (Z.eqb_spec (k_up s) NIL) as [E|E]; cbn [negb].
  { apply wpe_ret. exists Q. split; [done|]. split; [done|]. split; [done|].
    intros a p Hp Hst. apply (Hnl a p Hp Hst). intros ->. rewrite E, (si_nil _ _ Hi) in Hp. done. }
  specialize (Hup E). set (u := k_up s) in *. apply wpe_bind, wpe_gets.
  apply wpe_bind. eapply wpe_ok; [by apply upd_proc_alter|]. cbn beta.
  set (s0 := set_k_proc _ s).
  assert (Hi0 : sched_inv s0 Q) by by apply alter_inv.
  assert (Hnl0 : no_lost s0).
  { intros a p Hp Hst Ha. unfold s0 in Hp; cbn in Hp. rewrite lookup_alter_ne in Hp by done. by eapply Hnl. }
  assert (Hup0 : is_Some (k_proc s0 !! u)) by by apply alter_is_Some.
  assert (Hn0 : n <> NIL -> is_Some (k_proc s0 !! n)) by (intros; apply alter_is_Some; auto).
  assert (Hu0 : k_up s0 = u) by done.
  generalize (m_passed (k_mach s)) as passed. intros passed.
  clearbody s0 u. clear Hi Hnl Hup Hn E s. rename s0 into s, Hi0 into Hi, Hnl0 into Hnl, Hup0 into Hup,
    Hn0 into Hn, Hu0 into Hu.
  eapply (wpe_upd_uframe s); [done..|]. intros s2 Hf2.
  eapply (wpe_upd_uframe s); [done|done|by split; intros; case_match|]. intros s3 Hf3.
  apply wpe_bind.
  eapply (wpe_mono _ _ (fun _ s4 => uframe s s4)); [|cbn|done].
  { destruct (Z.eqb_spec n NIL) as [En|En]; cbn [negb]; [by apply wpe_ret|].
    destruct (uframe_is_Some s s3 u Hf3 Hup) as [x Hx].
    apply wpe_bind. eapply wpe_get_proc; [done|].
    eapply wpe_ok; [apply upd_proc_alter; eapply uframe_is_Some; eauto|].
    etransitivity; [done|]. by apply upd_uframe. }
  intros _ s4 Hf4. destruct (uframe_is_Some s s4 u Hf4 Hup) as [x Hx].
  apply wpe_bind. eapply wpe_get_proc; [done|].
  pose proof (uframe_inv s s4 Q Hf4 Hi) as Hi4.
  assert (Hq4 : forall a p, a <> u -> k_proc s4 !! a = Some p -> p_state p = PROC_ready -> p_slist p <> None).
  { intros a p Ha Hp Hst. destruct (uframe_lookup s s4 a p Hf4 Hp) as (p' & Hp' & Ht & Hv).
    assert (p_slist p = p_slist p') as -> by (unfold sview in Hv; congruence).
    apply (Hnl a p' Hp'); [|congruence]. change (p_state p') with (p_state (ncore p')). by rewrite <-Ht. }
  assert (Hu4 : k_up s4 = u) by (rewrite <-Hu; apply Hf4).
  destruct (decide (p_state x = PROC_ready)) as [Hst|Hst].
  - destruct (p_slist x) as [l|] eqn:Hsl.
    + apply wpe_ret. exists Q. split; [done|]. split; [apply Hf4|]. split; [done|].
      intros a p Hp Hr. destruct (decide (a = u)) as [->|]; [|by eapply Hq4]. congruence.
    + eapply wpe_mono; [eapply (enqueue_spec s4 Q u x current_queue); auto|cbn|done].
      intros _ s5 (Q5 & Hi5 & Hf5 & Hq5 & Hq5'). exists Q5. split; [done|].
      split; [etransitivity; [apply Hf4|by apply sframe_nframe]|].
      split; [rewrite (sf_rest _ _ Hf5); done|].
      intros a p Hp Hr. destruct (sframe_slist s4 s5 a p Hf5 Hp) as (p' & Hp' & Est & Epr).
      apply (slist_queued s5 Q5 a p Hi5 Hp).
      destruct (decide (a = u)) as [->|Ha].
      * assert (p' = x) as -> by congruence. rewrite Epr. apply Hq5. by right.
      * assert (Hq : queued Q (p_priority p') a).
        { apply (slist_queued s4 Q a p' Hi4 Hp'). apply (Hq4 a); [done..|congruence]. }
        rewrite <-Epr in Hq. destruct (decide (p_priority p = p_priority x)) as [Ex|Ex].
        -- rewrite Ex in *. apply Hq5. by left.
        -- by apply Hq5'.
  - eapply wpe_ok; [apply upd_proc_alter; by exists x|].
    pose proof (upd_uframe s4 u (set_p_ts 0) ltac:(done)) as Hf5.
    exists Q. split; [by eapply uframe_inv|]. split; [etransitivity; [apply Hf4|apply Hf5]|].
    split; [done|]. intros a p Hp Hr.
    destruct (uframe_lookup _ _ a p Hf5 Hp) as (p' & Hp' & Ht & Hv).
    assert (Est : p_state p = p_state p')
      by (change (p_state (ncore p) = p_state (ncore p')); congruence).
    assert (p_slist p = p_slist p') as -> by (unfold sview in Hv; congruence).
    apply (Hq4 a); [intros ->|done|congruence]. congruence.
Qed.

Lemma searched_up q s Q a s' Q' : searched q s Q a s' Q' -> k_up s' = k_up s.
Proof. intros [_ Hf _ _ _ _]. rewrite (nf_rest _ _ Hf). done. Qed.

Lemma next_proc_spec s Q : sched_inv s Q ->
  wp next_proc s (fun a s' => exists Q', searched (PRIORITY_MAX - 1) s Q a s' Q').
Proof.
  intros Hi. unfold next_proc. change (PRIORITY_MAX - 1) with (Z.of_nat 16 - 1).
  apply next_proc_loop_spec; [done|by unfold PRIORITY_MAX|by unfold next_proc_fuel; lia].
Qed.

(** A search keeps every ready process queued. *)
Lemma searched_all_queued q s Q a s' Q' : sched_inv s Q -> all_queued s ->
  searched q s Q a s' Q' -> all_queued s'.
Proof.
  intros Hi Hq Hs b p Hp Hst. destruct Hs as [Hi' Hf _ Hk _ _].
  apply (slist_queued s' Q' b p Hi' Hp).
  assert (Hr : is_ready s b = true).
  { rewrite <-(nframe_is_ready s s') by done. apply is_ready_proc. by exists p. }
  apply Hk; [done|]. apply is_ready_proc in Hr as (p' & Hp' & Hst').
  assert (p_priority p = p_priority p') as ->.
  { destruct (nframe_lookup s s' b p' Hf Hp') as (p2 & Hp2 & Hc).
    assert (p2 = p) as -> by congruence.
    change (p_priority p) with (p_priority (ncore p)). by rewrite Hc. }
  apply (slist_queued s Q b p' Hi Hp'). by apply (Hq b).
Qed.
End scheduling.

Definition prio (s : kstate) (a : Z) : Z :=
  match k_proc s !! a with Some p => p_priority p | None => -1 end.

(** What the choice of the next process achieves: it is ready, has time to run,
    and unless it is the one the caller asked for no ready process has a higher
    priority; nil means that nothing is ready. *)
Record picked (s : kstate) (n : Z) (s' : kstate) : Prop := {
  pk_none : k_up s' = NIL -> forall b, is_ready s b = false;
  pk_ready : k_up s' <> NIL -> is_ready s (k_up s') = true;
  pk_slice : k_up s' <> NIL -> MIN_TIME_SLICE < slice s' (k_up s');
  pk_highest : k_up s' <> NIL -> k_up s' = n \/
    forall b, is_ready s b = true -> prio s b <= prio s (k_up s')
}.

Section schedule.
Context `{Board}.
Implicit Types (s : kstate) (Q : Z * Z -> list Z) (a n : Z) (p : obj_proc) (k : cont).

Lemma is_ready_queued s Q b : sched_inv s Q -> all_queued s -> is_ready s b = true ->
  0 <= prio s b < PRIORITY_MAX /\ queued Q (prio s b) b.
Proof.
  intros Hi Hq (p & Hp & Hst)%is_ready_proc. unfold prio. rewrite Hp.
  split; [by eapply si_priority|]. apply (slist_queued s Q b p Hi Hp). by eapply Hq.
Qed.

Lemma prio_queued s Q b pr : sched_inv s Q -> queued Q pr b -> 0 <= pr < PRIORITY_MAX -> prio s b = pr.
Proof.
  intros Hi Hq Hpr. assert (Hv : forall i, i = 0 \/ i = 1 -> valid_q (pr, i)) by done. unfold prio.
  destruct Hq as [Hb|Hb]; (eapply (si_member _ _ Hi) in Hb as (p & Hp & Hs); [|auto]);
    rewrite Hp; destruct (si_slist _ _ Hi b p _ Hp Hs) as (_ & E & _); cbn in E; congruence.
Qed.

Lemma nframe_prio s s' a : nframe s s' -> prio s' a = prio s a.
Proof.
  intros Hf. unfold prio. destruct (k_proc s !! a) as [p|] eqn:E.
  - destruct (nframe_lookup s s' a p Hf E) as (p' & -> & Hc).
    change (p_priority p') with (p_priority (ncore p')). by rewrite Hc.
  - by rewrite (nframe_sym_lookup s s' a Hf E).
Qed.

Lemma set_up_inv s Q a : sched_inv s Q -> sched_inv (set_k_up a s) Q.
Proof. by apply sched_inv_ext. Qed.

(** [up = next_proc()] *)
Lemma pick_search s Q n : sched_inv s Q -> all_queued s ->
  wp (let* r := next_proc in set_up r) s (fun _ s' => exists Q', sched_inv s' Q' /\
    nframe s (set_k_up (k_up s) s') /\ all_queued s' /\ picked s n s').
Proof.
  intros Hi Hq. apply wpe_bind. eapply wpe_mono; [by apply next_proc_spec|cbn|done].
  intros a s1 (Q1 & Hs). exists Q1.
  pose proof (searched_all_queued _ s Q a s1 Q1 Hi Hq Hs) as Hq1.
  pose proof (searched_up _ s Q a s1 Q1 Hs) as Hup.
  destruct Hs as [Hi1 Hf1 _ _ Hn Hsm]. split; [by apply set_up_inv|]. split; [|split; [done|]].
  { replace (set_k_up (k_up s) (set_k_up a s1)) with s1; [done|]. rewrite <-Hup. by destruct s1. }
  constructor; cbn [k_up set_k_up].
  - intros Ha b. destruct (is_ready s b) eqn:E; [|done]. exfalso.
    destruct (is_ready_queued s Q b Hi Hq E) as [Hpr Hb].
    rewrite (Hn Ha (prio s b) b) in E by (done || unfold PRIORITY_MAX in *; lia). done.
  - intros Ha. by destruct (Hsm Ha) as (pr & _ & _ & ? & _).
  - intros Ha. destruct (Hsm Ha) as (pr & _ & _ & _ & Hsl & _). done.
  - intros Ha. right. intros b Hb. destruct (Hsm Ha) as (pr & Hpr & Hqa & _ & _ & Hhi).
    rewrite (prio_queued s Q a pr Hi Hqa) by (unfold PRIORITY_MAX in *; lia).
    destruct (is_ready_queued s Q b Hi Hq Hb) as [Hpb Hqb].
    destruct (Z.le_gt_cases (prio s b) pr) as [|Hgt]; [done|]. exfalso.
    rewrite (Hhi (prio s b) b) in Hb; [done| |done]. unfold PRIORITY_MAX in *; lia.
Qed.

Lemma schedule_pick_spec s Q n : sched_inv s Q -> all_queued s ->
  (n <> NIL -> is_Some (k_proc s !! n)) ->
  wp (schedule_pick n) s (fun _ s' => exists Q', sched_inv s' Q' /\
    nframe s (set_k_up (k_up s) s') /\ all_queued s' /\ picked s n s').
Proof.
  intros Hi Hq Hn. unfold schedule_pick, ctrue. apply wpe_bind.
  destruct (Z.eqb_spec n NIL) as [E|E]; cbn [negb]; [apply wpe_ret; by eapply pick_search|].
  destruct (Hn E) as [x Hx]. apply wpe_bind. eapply wpe_get_proc; [done|]. apply wpe_ret.
  destruct (decide (p_state x = PROC_ready)) as [Hst|Hst].
  2: { rewrite bool_decide_false by done. by eapply pick_search. }
  rewrite bool_decide_true by done. apply wpe_bind. eapply wpe_get_proc; [done|].
  destruct (Z.ltb_spec MIN_TIME_SLICE (p_ts x)) as [Hts|Hts].
  - apply wpe_modify. exists Q. split; [by apply set_up_inv|].
    split; [by destruct s|]. split; [done|]. constructor; cbn [k_up set_k_up]; [done| | |by left].
    + intros _. apply is_ready_proc. by exists x.
    + intros _. unfold slice; cbn. by rewrite Hx.
  - destruct (p_slist x) as [l|] eqn:Hsl; [by eapply pick_search|].
    exfalso. by apply (Hq n x).
Qed.
End schedule.

(** ** The properties *)
Section sched_properties.
Context `{Board}.
Implicit Types (s : kstate) (Q : Z * Z -> list Z) (a n : Z) (p : obj_proc) (k : cont).

Lemma saved_inv s Q k : sched_inv s Q -> sched_inv (saved k s) Q.
Proof. unfold saved. case_match; [done|]. by apply alter_inv. Qed.

Lemma saved_tframe s k : tframe s (saved k s).
Proof. unfold saved. case_match; [done|]. by apply alter_tframe. Qed.

Lemma saved_up s k : k_up (saved k s) = k_up s.
Proof. unfold saved. by case_match. Qed.

Lemma tframe_prio s s' a : tframe s s' -> prio s' a = prio s a.
Proof.
  intros Hf. unfold prio. destruct (k_proc s !! a) as [p|] eqn:E.
  - destruct (tframe_lookup s s' a p Hf E) as (p' & -> & Hc).
    change (p_priority p') with (p_priority (tcore p')). by rewrite Hc.
  - destruct (k_proc s' !! a) as [p'|] eqn:E'; [|done].
    destruct (tframe_lookup_back s s' a p' Hf E') as (? & ? & _). congruence.
Qed.

Lemma all_queued_no_lost s : all_queued s -> no_lost s.
Proof. intros Hq a p ? ? _. by eapply Hq. Qed.

(** C2: [next_proc] always returns, and what it returns is right: nil only when
    no process on any ready queue is ready, and otherwise a queued ready process
    with more than a minimal time slice, such that no ready process is queued at
    a higher priority.  The queues stay well formed, no ready process leaves its
    priority's queues, and nothing but queue links and time slices changes. *)
Theorem next_proc_correct s Q :
  sched_inv s Q ->
  exists a s' Q', next_proc s = Ok a s' /\ sched_inv s' Q' /\ nframe s s' /\
    (forall pr b, is_ready s b = true -> queued Q' pr b <-> queued Q pr b) /\
    (a = NIL -> forall pr b, 0 <= pr < PRIORITY_MAX -> queued Q pr b -> is_ready s b = false) /\
    (a <> NIL -> exists pr, 0 <= pr < PRIORITY_MAX /\ queued Q pr a /\ is_ready s a = true /\
       MIN_TIME_SLICE < slice s' a /\
       forall pr' b, pr < pr' < PRIORITY_MAX -> queued Q pr' b -> is_ready s b = false).
Proof.
  intros Hi. destruct (wp_inv _ _ _ (next_proc_spec s Q Hi)) as (a & s' & Hrun & Q' & Hs).
  exists a, s', Q'. destruct Hs as [? ? _ Hk Hn Hsm]. do 4 (split; [done|]). split.
  - intros Ha pr b Hpr. apply Hn; [done|lia].
  - intros Ha. destruct (Hsm Ha) as (pr & ? & ? & ? & ? & Hhi). exists pr. split; [lia|].
    do 3 (split; [done|]). intros pr' b ?. apply Hhi. lia.
Qed.

Lemma schedule_spec s Q n k :
  sched_inv s Q -> no_lost s ->
  (k_up s <> NIL -> is_Some (k_proc s !! k_up s)) ->
  (n <> NIL -> is_Some (k_proc s !! n)) ->
  wpe (schedule n k) s
    (fun r s' => r = Switched /\ exists Q', sched_inv s' Q' /\ all_queued s' /\ tframe s s' /\
       p_label <$> k_proc s' = p_label <$> k_proc (saved k s) /\
       is_ready s (k_up s') = true /\ MIN_TIME_SLICE < slice s' (k_up s') /\
       (k_up s' = n \/ forall b, is_ready s b = true -> prio s b <= prio s (k_up s')) /\
       Some (m_ttb (k_mach s')) = p_vspace <$> k_proc s' !! k_up s')
    (fun w s' => w = Panicked /\ forall b, is_ready s b = false).
Proof.
  intros Hi Hnl Hup Hn. unfold schedule. apply wpe_bind.
  eapply wpe_mono; [by eapply schedule_leave_spec|cbn beta|done].
  intros _ s1 (Q1 & Hi1 & Hf1 & Hu1 & Hq1).
  assert (Ht1 : tframe s s1) by (etransitivity; [by apply saved_tframe|by apply nframe_tframe]).
  apply wpe_bind. eapply wpe_mono; [eapply (schedule_pick_spec s1 Q1 n Hi1 Hq1)|cbn beta|done].
  { intros ?. eapply tframe_is_Some; eauto. }
  intros _ s2 (Q2 & Hi2 & Hf2 & Hq2 & [Hnone Hrd Hsl Hhi]).
  assert (Ht2 : tframe s s2).
  { etransitivity; [exact Ht1|]. etransitivity; [by apply nframe_tframe|].
    pose proof (set_up_tframe (set_k_up (k_up s1) s2) (k_up s2)) as Hx.
    by replace (set_k_up _ (set_k_up _ s2)) with s2 in Hx by by destruct s2. }
  assert (Hrd' : forall b, is_ready s1 b = is_ready s b) by (intros; by apply tframe_is_ready).
  apply wpe_bind, wpe_gets. unfold ctrue. destruct (Z.eqb_spec (k_up s2) NIL) as [E|E]; cbn [negb].
  { split; [done|]. intros b. rewrite <-Hrd'. by apply Hnone. }
  pose proof (Hrd E) as Hr. rewrite Hrd' in Hr.
  assert (Hr2 : is_ready s2 (k_up s2) = true) by (by rewrite (tframe_is_ready s s2)).
  apply is_ready_proc in Hr2 as (u & Hu & _).
  apply wpe_bind. eapply wpe_get_proc; [done|]. apply wpe_bind, wpe_modify, wpe_ret.
  split; [done|]. exists Q2. split; [by eapply sched_inv_ext, Hi2|]. split; [done|].
  split; [etransitivity; [done|apply mmu_tframe]|]. cbn [k_proc set_k_mach k_up k_mach].
  split.
  { pose proof (nf_proc _ _ Hf2) as E2. pose proof (nf_proc _ _ Hf1) as E1. cbn in E2.
    assert (Hx : forall m : gmap Z obj_proc, p_label <$> m = p_label <$> (ncore <$> m))
      by (intros m; by rewrite <-map_fmap_compose).
    by rewrite Hx, E2, E1, <-Hx. }
  split; [done|]. split; [by apply Hsl|]. split; [|by rewrite Hu].
  destruct (Hhi E) as [?|Hmax]; [by left|right]. intros b Hb.
  rewrite <-!(tframe_prio s s1) by done. apply Hmax. by rewrite Hrd'.
Qed.

(** C1: [schedule] saves the caller's continuation, leaves every ready process
    on a queue, and switches to a ready process that has time to run and is
    either the one the caller asked for or of the highest priority among all
    ready processes; it panics only when no process is ready.  Apart from queue
    links, time slices, the saved label, [up] and the translation base, which
    becomes the new process' address space, nothing changes. *)
Theorem schedule_correct s Q n k :
  sched_inv s Q -> no_lost s ->
  (k_up s <> NIL -> is_Some (k_proc s !! k_up s)) ->
  (n <> NIL -> is_Some (k_proc s !! n)) ->
  wpe (schedule n k) s
    (fun r s' => r = Switched /\ exists Q', sched_inv s' Q' /\ all_queued s' /\ tframe s s' /\
       p_label <$> k_proc s' = p_label <$> k_proc (saved k s) /\
       is_ready s (k_up s') = true /\ MIN_TIME_SLICE < slice s' (k_up s') /\
       (k_up s' = n \/ forall b, is_ready s b = true -> prio s b <= prio s (k_up s')) /\
       Some (m_ttb (k_mach s')) = p_vspace <$> k_proc s' !! k_up s')
    (fun w s' => w = Panicked /\ forall b, is_ready s b = false).
Proof. exact (schedule_spec s Q n k). Qed.
End sched_properties.

(** [p->state = st] *)
Definition with_state (a : Z) (st : procstate) (s : kstate) : kstate :=
  set_k_proc (alter (set_p_state st) a (k_proc s)) s.

Section state_changes.
Context `{Board}.
Implicit Types (s : kstate) (Q : Z * Z -> list Z) (a : Z) (p : obj_proc).

Lemma with_state_inv s Q a st : sched_inv s Q -> sched_inv (with_state a st s) Q.
Proof. by apply alter_inv. Qed.

Lemma with_state_lookup s a st p : k_proc s !! a = Some p ->
  k_proc (with_state a st s) !! a = Some (set_p_state st p).
Proof. intros Hp. cbn. by rewrite lookup_alter_eq, Hp. Qed.

Lemma with_state_lookup_ne s a st b : b <> a -> k_proc (with_state a st s) !! b = k_proc s !! b.
Proof. intros. cbn. by rewrite lookup_alter_ne. Qed.

Lemma wpe_with_state a st s (Qp : unit -> kstate -> Prop) E : is_Some (k_proc s !! a) ->
  Qp tt (with_state a st s) -> wpe (upd_proc a (set_p_state st)) s Qp E.
Proof. intros. eapply wpe_ok; [by apply upd_proc_alter|]. done. Qed.

(** [proc_ready] makes the process ready and queues it unless it already is. *)
Lemma proc_ready_spec s Q a : sched_inv s Q -> is_Some (k_proc s !! a) ->
  wp (proc_ready a) s (fun r s' => r = OK /\ exists Q', sched_inv s' Q' /\
    sframe (with_state a PROC_ready s) s' /\
    (exists p, k_proc s' !! a = Some p /\ p_state p = PROC_ready /\ p_slist p <> None) /\
    forall pr b, b <> a -> queued Q' pr b <-> queued Q pr b).
Proof.
  intros Hi [p Hp]. unfold proc_ready. apply wpe_bind, wpe_with_state; [by exists p|].
  pose proof (with_state_lookup s a PROC_ready p Hp) as Hp1.
  pose proof (with_state_inv s Q a PROC_ready Hi) as Hi1.
  set (s1 := with_state a PROC_ready s) in *. set (p1 := set_p_state PROC_ready p) in *.
  apply wpe_bind. eapply wpe_get_proc; [done|]. destruct (p_slist p1) as [l|] eqn:Hsl.
  - apply wpe_ret. split; [done|]. exists Q. split; [done|]. split; [done|]. split; [|done].
    exists p1. by rewrite Hsl.
  - apply wpe_bind. eapply wpe_mono; [eapply (enqueue_spec s1 Q a p1 other_queue); auto|cbn|done].
    intros _ s2 (Q2 & Hi2 & Hf2 & Hq & Hq'). split; [done|]. exists Q2. split; [done|].
    split; [done|]. destruct (sframe_lookup s1 s2 a p1 Hf2 Hp1) as (p2 & Hp2 & Hc). split.
    + exists p2. split; [done|].
      assert (Hpr : p_priority p2 = p_priority p1)
        by (change (p_priority (pcore p2) = p_priority (pcore p1)); by rewrite Hc).
      split; [change (p_state (pcore p2) = PROC_ready); by rewrite Hc|].
      apply (slist_queued s2 Q2 a p2 Hi2 Hp2). rewrite Hpr. apply Hq. by right.
    + intros pr b Hb. destruct (decide (pr = p_priority p1)) as [->|]; [|by apply Hq'].
      split; intros Hx; [by apply Hq in Hx as [?| ->]|apply Hq; by left].
Qed.

Lemma dequeue_spec s Q a p l : sched_inv s Q -> k_proc s !! a = Some p -> p_slist p = Some l ->
  wp (remove_from_list l a) s (fun _ s' => exists Q', sched_inv s' Q' /\ sframe s s' /\
    (exists p', k_proc s' !! a = Some p' /\ p_slist p' = None) /\
    forall pr b, b <> a -> queued Q' pr b <-> queued Q pr b).
Proof.
  intros Hi Hp Hsl. destruct (si_slist _ _ Hi a p l Hp Hsl) as (Hl & _ & Ha).
  apply list_elem_of_split in Ha as (l1 & l2 & HQ).
  eapply wpe_mono; [by eapply remove_from_list_spec|cbn|done].
  intros _ s' (Hi' & Hf & Hs). eexists. split; [done|]. split; [done|]. split; [done|].
  intros pr b Hb. unfold queued, qupd.
  repeat case_decide; subst; rewrite ?HQ; set_solver.
Qed.

(** [proc_fault] stops the process and takes it off its queue. *)
Lemma proc_fault_spec s Q a : sched_inv s Q -> is_Some (k_proc s !! a) ->
  wp (proc_fault a) s (fun r s' => r = OK /\ exists Q', sched_inv s' Q' /\
    sframe (with_state a PROC_fault s) s' /\
    (exists p, k_proc s' !! a = Some p /\ p_state p = PROC_fault /\ p_slist p = None) /\
    forall pr b, b <> a -> queued Q' pr b <-> queued Q pr b).
Proof.
  intros Hi [p Hp]. unfold proc_fault. apply wpe_bind, wpe_with_state; [by exists p|].
  pose proof (with_state_lookup s a PROC_fault p Hp) as Hp1.
  pose proof (with_state_inv s Q a PROC_fault Hi) as Hi1.
  set (s1 := with_state a PROC_fault s) in *. set (p1 := set_p_state PROC_fault p) in *.
  apply wpe_bind. eapply wpe_get_proc; [done|]. destruct (p_slist p1) as [l|] eqn:Hsl.
  - apply wpe_bind. eapply wpe_mono; [by eapply dequeue_spec|cbn|done].
    intros _ s2 (Q2 & Hi2 & Hf2 & (p2 & Hp2 & Hs2) & Hq). split; [done|]. exists Q2.
    split; [done|]. split; [done|]. split; [|done]. exists p2. split; [done|]. split; [|done].
    destruct (sframe_lookup s1 s2 a p1 Hf2 Hp1) as (p3 & Hp3 & Hc).
    assert (p3 = p2) as -> by congruence. change (p_state (pcore p2) = PROC_fault). by rewrite Hc.
  - apply wpe_ret. split; [done|]. exists Q. do 2 (split; [done|]). split; [|done]. by exists p1.
Qed.
End state_changes.

Definition with_priority (a pr : Z) (s : kstate) : kstate :=
  set_k_proc (alter (set_p_priority pr) a (k_proc s)) s.

Section priority_changes.
Context `{Board}.
Implicit Types (s : kstate) (Q : Z * Z -> list Z) (a pr : Z) (p : obj_proc).

Lemma alter_commute {A} (f g : A -> A) i j (m : gmap Z A) :
  (forall x, f (g x) = g (f x)) -> alter f i (alter g j m) = alter g j (alter f i m).
Proof.
  intros Hfg. apply map_eq; intros k. rewrite !lookup_alter.
  repeat case_decide; subst; rewrite ?lookup_alter_eq, ?lookup_alter_ne by done; try done.
  destruct (m !! k); cbn; by rewrite ?Hfg.
Qed.

Lemma unlink_priority a pr p (ps : gmap Z obj_proc) : ps !! a = Some p ->
  unlink_procs a (set_p_priority pr p) (alter (set_p_priority pr) a ps) =
  alter (set_p_priority pr) a (unlink_procs a p ps).
Proof.
  intros Hp. unfold unlink_procs.
  change (p_sprev (set_p_priority pr p)) with (p_sprev p).
  change (p_snext (set_p_priority pr p)) with (p_snext p).
  assert (Hx : <[a := set_p_slist None (set_p_priority pr p)]> (alter (set_p_priority pr) a ps) =
               alter (set_p_priority pr) a (<[a := set_p_slist None p]> ps)).
  { apply map_eq; intros k. rewrite lookup_insert, !lookup_alter. case_decide; subst.
    - by rewrite lookup_insert_eq.
    - by rewrite lookup_insert_ne. }
  repeat case_match; rewrite Hx; by rewrite ?(alter_commute _ (set_p_priority pr)).
Qed.

Lemma priority_inv s Q a pr p : sched_inv s Q -> k_proc s !! a = Some p -> p_slist p = None ->
  0 <= pr < PRIORITY_MAX -> sched_inv (with_priority a pr s) Q.
Proof.
  intros Hi Hp Hsl Hpr. pose proof (not_queued s Q a p Hi Hp Hsl) as Hnot.
  assert (Hlk : slinks (with_priority a pr s) = slinks s) by by apply fmap_alter_same.
  constructor; rewrite ?Hlk; cbn [k_proc k_ready with_priority set_k_proc]; try apply Hi.
  - intros l b Hl Hb. rewrite lookup_alter_ne; [by apply Hi|]. intros ->. by apply (Hnot l).
  - intros b p' l. rewrite lookup_alter. case_decide; [|by apply Hi].
    subst b. rewrite Hp. intros [= <-]. cbn. congruence.
  - intros b p'. rewrite lookup_alter. case_decide; [|by apply Hi].
    subst b. rewrite Hp. by intros [= <-].
  - rewrite lookup_alter_ne; [by apply Hi|]. intros ->. rewrite (si_nil _ _ Hi) in Hp. done.
Qed.

(** The removal from the old queue is not affected by the new priority. *)
Lemma remove_priority s Q a pr p l : sched_inv s Q -> k_proc s !! a = Some p ->
  p_slist p = Some l ->
  exists s1 Q1, remove_from_list l a (with_priority a pr s) = Ok tt (with_priority a pr s1) /\
    sched_inv s1 Q1 /\ sframe s s1 /\ (exists p', k_proc s1 !! a = Some p' /\ p_slist p' = None) /\
    forall pr' b, b <> a -> queued Q1 pr' b <-> queued Q pr' b.
Proof.
  intros Hi Hp Hsl. destruct (wp_inv _ _ _ (dequeue_spec s Q a p l Hi Hp Hsl)) as ([] & s1 & Hrun & Q1 & H1).
  exists s1, Q1. split; [|by destruct H1 as (? & ? & ? & ?)].
  destruct (si_slist _ _ Hi a p l Hp Hsl) as (Hl & _ & Ha).
  destruct (valid_q_ready s Q l Hi Hl) as [r Hr].
  pose proof (si_queue _ _ Hi l r Hl Hr) as Hd.
  apply list_elem_of_split in Ha as (l1 & l2 & HQ). rewrite HQ in Hd.
  pose proof (dlist_links _ _ _ _ _ Hd) as E. rewrite slinks_lookup, Hp in E. injection E as E1 E2.
  assert (Hnode : forall b, b ∈ l1 ++ l2 -> b <> a /\ is_Some (k_proc s !! b)).
  { intros b Hb. pose proof (dl_nodup _ _ _ Hd) as Hn. split.
    - intros ->. apply NoDup_app in Hn as (_ & Hn1 & [Hn2 _]%NoDup_cons).
      apply elem_of_app in Hb as [Hb|Hb]; [|done]. by eapply Hn1, list_elem_of_here.
    - destruct (si_member _ _ Hi l b Hl) as (x & Hx & _); [|by exists x]. rewrite HQ. set_solver. }
  assert (Hpv : p_sprev p <> NIL -> p_sprev p <> a /\ is_Some (k_proc s !! p_sprev p)).
  { rewrite E1. intros ?. apply Hnode. destruct (lastz_elem NIL l1); set_solver. }
  assert (Hnx : p_snext p <> NIL -> p_snext p <> a /\ is_Some (k_proc s !! p_snext p)).
  { rewrite E2. intros ?. apply Hnode. destruct (firstz_elem NIL l2); set_solver. }
  rewrite (remove_from_list_run s l r a p Hl Hp Hr Hpv Hnx) in Hrun. injection Hrun as <-.
  rewrite (remove_from_list_run (with_priority a pr s) l r a (set_p_priority pr p)); [|done| |done| |].
  - unfold with_priority; cbn. by rewrite unlink_priority.
  - cbn. by rewrite lookup_alter_eq, Hp.
  - intros Hx. destruct (Hpv Hx). split; [done|]. by apply alter_is_Some.
  - intros Hx. destruct (Hnx Hx). split; [done|]. by apply alter_is_Some.
Qed.

(** [proc_set_priority] to a priority below PRIORITY_MAX returns OK; the
    process has the new priority and, if it was queued, is now on a queue of
    that priority; all other processes stay where they were and nothing else
    changes. *)
Theorem proc_set_priority_correct s Q a pr p :
  sched_inv s Q -> k_proc s !! a = Some p -> 0 <= pr < PRIORITY_MAX ->
  exists s' Q', proc_set_priority a pr s = Ok OK s' /\ sched_inv s' Q' /\
    sframe (with_priority a pr s) s' /\ prio s' a = pr /\
    (queued Q' pr a <-> p_slist p <> None) /\
    forall pr' b, b <> a -> queued Q' pr' b <-> queued Q pr' b.
Proof.
  intros Hi Hp Hpr.
  cut (wp (proc_set_priority a pr) s (fun r s' => r = OK /\ exists Q', sched_inv s' Q' /\
    sframe (with_priority a pr s) s' /\ prio s' a = pr /\
    (queued Q' pr a <-> p_slist p <> None) /\
    forall pr' b, b <> a -> queued Q' pr' b <-> queued Q pr' b)).
  { intros (r & s' & Hrun & -> & Q' & Hx)%wp_inv. by exists s', Q'. }
  unfold proc_set_priority. rewrite (proj2 (Z.ltb_ge _ _)) by lia.
  apply wpe_bind. eapply wpe_ok; [apply upd_proc_alter; by exists p|].
  fold (with_priority a pr s).
  assert (Hp1 : k_proc (with_priority a pr s) !! a = Some (set_p_priority pr p))
    by (cbn; by rewrite lookup_alter_eq, Hp).
  apply wpe_bind. eapply wpe_get_proc; [done|]. cbn [p_slist p_priority set_p_priority].
  destruct (p_slist p) as [l|] eqn:Hsl.
  - destruct (remove_priority s Q a pr p l Hi Hp Hsl) as (s1 & Q1 & Hrun & Hi1 & Hf1 & (p1 & Hq1 & Hs1) & Hk1).
    apply wpe_bind. eapply wpe_ok; [done|]. cbn beta.
    pose proof (priority_inv s1 Q1 a pr p1 Hi1 Hq1 Hs1 Hpr) as Hi2.
    assert (Hp2 : k_proc (with_priority a pr s1) !! a = Some (set_p_priority pr p1))
      by (cbn; by rewrite lookup_alter_eq, Hq1).
    assert (Hf2 : sframe (with_priority a pr s) (with_priority a pr s1)).
    { destruct Hf1 as [E1 E2 E3]. constructor; [|done|].
      - cbn. rewrite !(fmap_alter_proj pcore (set_p_priority pr)) by done. by rewrite E1.
      - rewrite E3. by destruct s, s1. }
    apply wpe_bind. eapply wpe_mono;
      [eapply (enqueue_spec _ Q1 a (set_p_priority pr p1) other_queue); auto|cbn beta|done].
    intros _ s3 (Q3 & Hi3 & Hf3 & Hq3 & Hq3'). apply wpe_ret. split; [done|]. exists Q3.
    split; [done|]. split; [by etransitivity|]. split; [|split].
    + rewrite (nframe_prio _ s3) by by apply sframe_nframe. unfold prio. by rewrite Hp2.
    + split; [done|]. intros _. apply Hq3. by right.
    + intros pr' b Hb. rewrite <-Hk1 by done. destruct (decide (pr' = pr)) as [->|Hne].
      * split; intros Hx; [by apply Hq3 in Hx as [?| ->]|apply Hq3; by left].
      * by apply Hq3'.
  - apply wpe_ret. split; [done|]. exists Q.
    pose proof (priority_inv s Q a pr p Hi Hp Hsl Hpr) as Hi2. split; [done|]. split; [done|].
    split; [unfold prio; by rewrite Hp1|]. split; [|done]. split; [|done].
    intros Hx. apply (slist_queued _ Q a _ Hi2 Hp1) in Hx. by cbn in Hx.
Qed.

(** A priority of PRIORITY_MAX or more is clamped to PRIORITY_MAX, which is
    one past the last ready list: on a queued process the call indexes [ready]
    outside its bounds. *)
Theorem proc_set_priority_overrun s Q a pr p :
  sched_inv s Q -> k_proc s !! a = Some p -> p_slist p <> None -> PRIORITY_MAX <= pr ->
  proc_set_priority a pr s = Fault FBounds.
Proof.
  intros Hi Hp Hsl Hpr. destruct (p_slist p) as [l|] eqn:E; [|done].
  assert (Hc : (if PRIORITY_MAX <? pr then PRIORITY_MAX else pr) = PRIORITY_MAX)
    by (destruct (Z.ltb_spec PRIORITY_MAX pr); lia).
  unfold proc_set_priority. rewrite Hc.
  destruct (remove_priority s Q a PRIORITY_MAX p l Hi Hp E) as (s1 & Q1 & Hrun & Hi1 & Hf1 & _).
  rewrite (bind_ok _ _ _ tt _ (upd_proc_alter s a _ (ltac:(by exists p)))).
  fold (with_priority a PRIORITY_MAX s).
  rewrite (bind_ok _ _ _ (set_p_priority PRIORITY_MAX p) (with_priority a PRIORITY_MAX s))
    by (apply read_ok; cbn; by rewrite lookup_alter_eq, Hp).
  cbn [p_slist p_priority set_p_priority]. rewrite E. rewrite (bind_ok _ _ _ _ _ Hrun).
  apply bind_fault, bind_fault, bind_fault, read_fault, znth_None. right. cbn.
  rewrite (si_ready _ _ Hi1). unfold PRIORITY_MAX. lia.
Qed.

(** [proc_init] gives out the process ids in order and records the process
    under its id, until all MAX_PROCS entries of the table are used: the next
    call writes outside the table. *)
Theorem proc_init_pids s a p :
  k_proc s !! a = Some p -> length (k_procs s) = Z.to_nat MAX_PROCS -> 0 <= k_nextpid s < 2 ^ 32 ->
  (k_nextpid s < MAX_PROCS -> exists s' p', proc_init a s = Ok OK s' /\
    k_proc s' = <[a := p']> (k_proc s) /\
    p_pid p' = k_nextpid s /\ p_state p' = PROC_fault /\ p_slist p' = None /\
    p_priority p' = 0 /\ p_ts p' = SYSTICK /\
    k_nextpid s' = k_nextpid s + 1 /\ find_proc (k_nextpid s) s' = Ok a s') /\
  (MAX_PROCS <= k_nextpid s -> proc_init a s = Fault FBounds).
Proof.
  intros Hp Hlen Hpid. split.
  - intros Hlt. assert (Hb : 0 <= k_nextpid s < Z.of_nat (length (k_procs s)))
      by (rewrite Hlen; unfold MAX_PROCS in *; lia).
    destruct (znth_is_Some (k_procs s) (k_nextpid s) Hb) as [x Hx].
    cut (wp (proc_init a) s (fun r s' => r = OK /\ exists p',
      k_proc s' = <[a := p']> (k_proc s) /\
    p_pid p' = k_nextpid s /\ p_state p' = PROC_fault /\ p_slist p' = None /\
    p_priority p' = 0 /\ p_ts p' = SYSTICK /\
    k_nextpid s' = k_nextpid s + 1 /\ k_procs s' = zupd (k_nextpid s) a (k_procs s))).
    { intros (r & s' & Hrun & -> & p' & Hx1 & Hx2 & Hx3 & Hx4 & Hx5 & Hx6 & Hx7 & Hx8)%wp_inv.
      exists s', p'. do 8 (split; [done|]). unfold find_proc.
      rewrite (proj2 (Z.ltb_ge _ 0)), (proj2 (Z.ltb_lt _ MAX_PROCS)) by lia.
      unfold read. by rewrite Hx8, znth_zupd_eq. }
    unfold proc_init. do 4 (wstep; cbn beta). apply wpe_bind. eapply wpe_read; [cbn; exact Hx|].
    do 2 (wstep; cbn beta).
    ksteps. split; [done|]. eexists. split; [cbn; done|]. cbn. repeat split. rewrite u32_small; [done|].
    unfold MAX_PROCS in *; lia.
  - intros Hge. unfold proc_init, bind at 1, gets, bind at 1, modify, bind at 1, read; cbn [k_procs set_k_nextpid].
    rewrite (proj2 (znth_None (k_procs s) (k_nextpid s))); [done|]. right. rewrite Hlen.
    unfold MAX_PROCS in *. lia.
Qed.
End priority_changes.

(** ** The invariant on concrete states *)
Definition all_queues : list (Z * Z) := pr ← seqZ 0 PRIORITY_MAX; [(pr, 0); (pr, 1)].

Definition queue_ok (s : kstate) (Q : Z * Z -> list Z) (l : Z * Z) : bool :=
  match znth (k_ready s) l.1 with
  | Some r => bool_decide (dlist (slinks s) (ready_q l.2 r) (Q l))
  | None => true
  end && bool_decide (Forall (fun a => p_slist <$> k_proc s !! a = Some (Some l)) (Q l)).
Definition proc_ok (Q : Z * Z -> list Z) (a : Z) (p : obj_proc) : bool :=
  bool_decide (0 <= p_priority p < PRIORITY_MAX) &&
  match p_slist p with
  | Some l => bool_decide (l ∈ all_queues /\ l.1 = p_priority p /\ a ∈ Q l)
  | None => true
  end.
Definition sched_invb (s : kstate) (Q : Z * Z -> list Z) : bool :=
  bool_decide (length (k_ready s) = Z.to_nat PRIORITY_MAX) &&
  bool_decide (Forall (fun r => r_q r = 0 \/ r_q r = 1) (k_ready s)) &&
  bool_decide (Forall (fun l => queue_ok s Q l = true) all_queues) &&
  bool_decide (map_Forall (fun a p => proc_ok Q a p = true) (k_proc s)) &&
  bool_decide (k_proc s !! NIL = None).

Lemma all_queues_valid l : l ∈ all_queues <-> valid_q l.
Proof.
  destruct l as [pr i]. unfold all_queues, valid_q. rewrite list_elem_of_bind. split.
  - intros (pr' & Hi & Hp%elem_of_seqZ). unfold PRIORITY_MAX in *.
    apply elem_of_cons in Hi as [[= -> ->]|Hi]; [cbn; lia|]. apply list_elem_of_singleton in Hi as [= -> ->]. cbn; lia.
  - cbn. intros [Hp Hi]. exists pr. split; [destruct Hi as [->| ->]; set_solver|]. apply elem_of_seqZ. lia.
Qed.

Lemma sched_invb_sound s Q : sched_invb s Q = true -> sched_inv s Q.
Proof.
  unfold sched_invb. intros [[[[H1 H2]%andb_prop H3]%andb_prop H4]%andb_prop H5]%andb_prop.
  apply bool_decide_eq_true in H1, H2, H3, H4, H5.
  assert (HQ : forall l, valid_q l -> queue_ok s Q l = true).
  { intros l Hl%all_queues_valid. exact (proj1 (Forall_forall _ _) H3 l Hl). }
  assert (HP : forall a p, k_proc s !! a = Some p -> proc_ok Q a p = true) by exact H4.
  constructor; [done| | | | | |done].
  - intros pr r [_ Hr]%znth_lookup. exact (proj1 (Forall_lookup _ _) H2 _ _ Hr).
  - intros l r Hl Hr. specialize (HQ l Hl). unfold queue_ok in HQ. rewrite Hr in HQ.
    apply andb_prop in HQ as [HQ _]. by apply bool_decide_eq_true in HQ.
  - intros l a Hl Ha. specialize (HQ l Hl). unfold queue_ok in HQ. apply andb_prop in HQ as [_ HQ].
    apply bool_decide_eq_true in HQ. pose proof (proj1 (Forall_forall _ _) HQ a Ha) as E. cbn beta in E.
    destruct (k_proc s !! a) as [p|]; [|done]. exists p. split; [done|]. cbn in E. congruence.
  - intros a p l Hp Hs. specialize (HP a p Hp). unfold proc_ok in HP. rewrite Hs in HP.
    apply andb_prop in HP as [_ HP]. apply bool_decide_eq_true in HP as (Hl & ? & ?). by apply all_queues_valid in Hl.
  - intros a p Hp. specialize (HP a p Hp). unfold proc_ok in HP. apply andb_prop in HP as [HP _].
    by apply bool_decide_eq_true in HP.
Qed.

(** [demo] with both processes queued at priority 1. *)
Definition demo_queued : kstate :=
  match (proc_ready 0x1000 ;;; proc_ready 0x2000)%c demo with Ok _ s => s | _ => demo end.
Definition demo_Q (l : Z * Z) : list Z := if decide (l = (1, 1)) then [0x1000; 0x2000] else [].

Lemma demo_sched : sched_inv demo (fun _ => []).
Proof. apply sched_invb_sound. by vm_compute. Qed.
Lemma demo_queued_sched : sched_inv demo_queued demo_Q.
Proof. apply sched_invb_sound. by vm_compute. Qed.

Definition no_lostb (s : kstate) : bool :=
  bool_decide (map_Forall (fun a p => p_state p = PROC_ready -> a <> k_up s -> p_slist p <> None) (k_proc s)).
Lemma no_lostb_sound s : no_lostb s = true -> no_lost s.
Proof. intros H%bool_decide_eq_true. exact H. Qed.

Lemma next_proc_correct_witness :
  let _ := vexpress_a9 in
  exists a s' Q', next_proc demo_queued = Ok a s' /\ sched_inv s' Q' /\ nframe demo_queued s' /\
    (forall pr b, is_ready demo_queued b = true -> queued Q' pr b <-> queued demo_Q pr b) /\
    (a = NIL -> forall pr b, 0 <= pr < PRIORITY_MAX -> queued demo_Q pr b -> is_ready demo_queued b = false) /\
    (a <> NIL -> exists pr, 0 <= pr < PRIORITY_MAX /\ queued demo_Q pr a /\ is_ready demo_queued a = true /\
       MIN_TIME_SLICE < slice s' a /\
       forall pr' b, pr < pr' < PRIORITY_MAX -> queued demo_Q pr' b -> is_ready demo_queued b = false).
Proof. intros B. exact (@next_proc_correct B demo_queued demo_Q demo_queued_sched). Defined.

Lemma schedule_correct_witness :
  let _ := vexpress_a9 in let s := demo_queued in
  wpe (schedule 0x2000 K_yield) s
    (fun r s' => r = Switched /\ exists Q', sched_inv s' Q' /\ all_queued s' /\ tframe s s' /\
       p_label <$> k_proc s' = p_label <$> k_proc (saved K_yield s) /\
       is_ready s (k_up s') = true /\ MIN_TIME_SLICE < slice s' (k_up s') /\
       (k_up s' = 0x2000 \/ forall b, is_ready s b = true -> prio s b <= prio s (k_up s')) /\
       Some (m_ttb (k_mach s')) = p_vspace <$> k_proc s' !! k_up s')
    (fun w s' => w = Panicked /\ forall b, is_ready s b = false).
Proof.
  intros B s. apply (@schedule_correct B s demo_Q); [exact demo_queued_sched|apply no_lostb_sound; by vm_compute|..];
    intros _; (eexists; vm_compute; reflexivity).
Defined.

Lemma proc_set_priority_correct_witness :
  exists s' Q' p, proc_set_priority 0x1000 3 demo_queued = Ok OK s' /\ sched_inv s' Q' /\
    sframe (with_priority 0x1000 3 demo_queued) s' /\ prio s' 0x1000 = 3 /\ (queued Q' 3 0x1000 <-> p_slist p <> None) /\
    forall pr' b, b <> 0x1000 -> queued Q' pr' b <-> queued demo_Q pr' b.
Proof.
  assert (Hp : exists p, k_proc demo_queued !! 0x1000 = Some p) by (eexists; vm_compute; reflexivity).
  destruct Hp as [p Hp].
  destruct (proc_set_priority_correct demo_queued demo_Q 0x1000 3 p demo_queued_sched Hp) as (s' & Q' & H);
    [unfold PRIORITY_MAX; lia|]. by exists s', Q', p.
Defined.

Lemma proc_set_priority_overrun_witness : proc_set_priority 0x1000 16 demo_queued = Fault FBounds.
Proof.
  assert (Hp : exists p, k_proc demo_queued !! 0x1000 = Some p /\ p_slist p = Some (1, 1))
    by (eexists; vm_compute; split; reflexivity).
  destruct Hp as (p & Hp & Hs).
  apply (proc_set_priority_overrun demo_queued demo_Q 0x1000 16 p demo_queued_sched Hp);
    [congruence|unfold PRIORITY_MAX; lia].
Defined.

Lemma proc_init_pids_witness :
  let _ := vexpress_a9 in
  exists s' p', proc_init 0x2000 demo = Ok OK s' /\ k_proc s' = <[0x2000 := p']> (k_proc demo) /\
    p_pid p' = 3 /\ p_state p' = PROC_fault /\ p_slist p' = None /\ p_priority p' = 0 /\ p_ts p' = SYSTICK /\
    k_nextpid s' = 4 /\ find_proc 3 s' = Ok 0x2000 s'.
Proof.
  intros B. apply (@proc_init_pids B demo 0x2000 (demo_proc 2 0x4000 PROC_fault)); [reflexivity|done|cbn; lia|done].
Defined.
