(* ===== verification/Mmu.v ===== *)
(** * Page tables: arm/include/arm/mmu.h, arm/lib/c/mmu.c, and the kernel's own
    mapping window (kernel_map and kernel_unmap of arm/kern/main.c)

    A table is an array of words: a map from word indices to 32-bit entries,
    absent entries being zero.  A [uint32_t *] into it is an offset. *)
From S2P Require Import Prelude KState.

Local Open Scope Z_scope.
Local Open Scope c_scope.

(** ** mmu.h *)
Definition L1X (va : Z) : Z := Z.shiftr (u32 va) 20.
Definition L2X (va : Z) : Z := Z.land (Z.shiftr (u32 va) 12) (Z.shiftl 1 8 - 1).
Definition L1VA (x : Z) : Z := u32 (Z.shiftl (u32 x) 20).
Definition L2VA (x : Z) : Z := u32 (Z.shiftl (u32 x) 12).
Definition L1PA (r : Z) : Z := Z.land (u32 r) (u32 (Z.lnot 3)).
Definition L2PA (r : Z) : Z := Z.land (u32 r) (u32 (Z.lnot 511)).
Definition L1_COARSE : Z := 1.
Definition L1_SECTION : Z := 2.
Definition L1_FAULT : Z := 0.
Definition L2_FAULT : Z := 0.
Definition L2_SMALL : Z := 2.
Definition PAGE_SHIFT : Z := 12.
Definition PAGE_SIZE : Z := Z.shiftl 1 PAGE_SHIFT.
Definition TABLE_SHIFT : Z := 20.
Definition TABLE_AREA : Z := Z.shiftl 1 TABLE_SHIFT.
Definition TABLE_SIZE : Z := PAGE_SIZE.
Definition SECTION_SIZE : Z := Z.shiftl 1 20.
Definition PAGE_ALIGN (x : Z) : Z := align_up x PAGE_SIZE.
Definition PAGE_ALIGN_DN (x : Z) : Z := align_down x PAGE_SIZE.
Definition TABLE_ALIGN (x : Z) : Z := align_up x TABLE_AREA.
Definition TABLE_ALIGN_DN (x : Z) : Z := align_down x TABLE_AREA.
Definition AP_RW_NO : Z := 1.
Definition AP_RW_RW : Z := 3.

(** ** mmu.c

    The C loops count a 32-bit [o] up; [for_loop] runs at most [fuel] rounds
    and gives [None] when that is not enough. *)
Fixpoint for_loop {A} (fuel : nat) (cond : Z -> bool) (step : Z -> Z) (body : Z -> A -> A)
    (o : Z) (a : A) : option A :=
  if cond o then
    match fuel with
    | O => None
    | S fuel => for_loop fuel cond step body (step o) (body o a)
    end
  else Some a.

Definition word (t : gmap Z Z) (i : Z) : Z := default 0 (t !! i).
Definition pages (len : Z) : nat := S (Z.to_nat (len / PAGE_SIZE)).
Definition sections (len : Z) : nat := S (Z.to_nat (len / SECTION_SIZE)).

Definition map_l2 (l1 : gmap Z Z) (pa va len : Z) : option (gmap Z Z) :=
  for_loop (pages len) (fun o => u32 (Z.shiftl o 12) <? len) (fun o => u32 (o + 1))
    (fun o t => <[L1X va + o := Z.lor (u32 (pa + Z.shiftl o 12)) L1_COARSE]> t) 0 l1.

Definition unmap_l2 (l1 : gmap Z Z) (va len : Z) : option (gmap Z Z) :=
  for_loop (pages len) (fun o => u32 (Z.shiftl o 12) <? len) (fun o => u32 (o + 1))
    (fun o t => <[L1X va + o := 0]> t) 0 l1.

(** tex, c and b of a mapping *)
Definition cache_bits (cache : bool) : Z * Z * Z := if cache then (7, 1, 0) else (0, 0, 1).
Definition small_page (pa : Z) (ap : Z) (cache : bool) : Z :=
  let '(tex, c, b) := cache_bits cache in
  Z.lor (Z.lor (Z.lor (Z.lor (Z.lor (u32 pa) L2_SMALL)
    (Z.shiftl tex 6)) (Z.shiftl ap 4)) (Z.shiftl c 3)) (Z.shiftl b 2).

(** [l2] is the offset of the table in the array [t]. *)
Definition map_pages (l2 : Z) (t : gmap Z Z) (pa va len ap : Z) (cache : bool) : option (gmap Z Z) :=
  for_loop (pages len) (fun o => u32 (Z.shiftl o PAGE_SHIFT) <? len) (fun o => u32 (o + 1))
    (fun o t => <[l2 + L2X va + o := small_page (pa + Z.shiftl o PAGE_SHIFT) ap cache]> t) 0 t.

Definition unmap_pages (l2 : Z) (t : gmap Z Z) (va len : Z) : option (gmap Z Z) :=
  for_loop (pages len) (fun o => u32 (Z.shiftl o PAGE_SHIFT) <? len) (fun o => u32 (o + 1))
    (fun o t => <[l2 + L2X va + o := L2_FAULT]> t) 0 t.

Definition section_entry (pa ap : Z) (cache : bool) : Z :=
  let '(tex, c, b) := cache_bits cache in
  Z.lor (Z.lor (Z.lor (Z.lor (Z.lor (u32 pa) L1_SECTION)
    (Z.shiftl tex 12)) (Z.shiftl ap 10)) (Z.shiftl c 3)) (Z.shiftl b 2).

Definition map_sections (l1 : gmap Z Z) (pa va len ap : Z) (cache : bool) : option (gmap Z Z) :=
  for_loop (sections len) (fun o => o <? len) (fun o => u32 (o + SECTION_SIZE))
    (fun o t => <[L1X (va + o) := section_entry (pa + o) ap cache]> t) 0 l1.

Definition unmap_sections (l1 : gmap Z Z) (va len : Z) : option (gmap Z Z) :=
  for_loop (sections len) (fun o => o <? len) (fun o => u32 (o + SECTION_SIZE))
    (fun o t => <[L1X (va + o) := L1_FAULT]> t) 0 l1.

(** ** kernel_map and kernel_unmap *)
Definition upd_mach (f : mach -> mach) : KM unit :=
  modify (fun s => set_k_mach (f (k_mach s)) s).
Definition opt {A} (o : option A) : KM A :=
  match o with Some a => ret a | None => nofuel end.

Definition kernel_map (pa len : Z) (cache : bool) : KM Z :=
  let off := u32 (pa - PAGE_ALIGN_DN pa) in
  let pa := PAGE_ALIGN_DN pa in
  let len := PAGE_ALIGN len in
  let* m := gets k_mach in
  let va := m_va_next m in
  if m_va_max m <? u32 (va + len) then halt Panicked else
  let* va :=
    (if negb (L1X va =? L1X (va + len)) then
       let va' := u32 (Z.shiftl (L1X (va + len)) 20) in
       if negb (L1X va' =? L1X (va' + len)) then halt Panicked else ret va'
     else ret va) in
  upd_mach (set_m_va_next (u32 (va + len))) ;;;
  let o := L1X va - L1X (m_va_min m) in
  let* t := opt (map_pages (o * 1024) (m_kernel_l2 m) pa va len AP_RW_NO cache) in
  upd_mach (set_m_kernel_l2 t) ;;;
  ret (u32 (va + off)).

Definition kernel_unmap (va len : Z) : KM unit :=
  let* m := gets k_mach in
  let o := L1X va - L1X (m_va_min m) in
  let* t := opt (unmap_pages (o * 1024) (m_kernel_l2 m) va len) in
  upd_mach (set_m_kernel_l2 t).

(** ** Memory seen through the kernel's window

    [kernel_pa] is the ARM small-page walk of the kernel's tables; the kernel
    reads and writes physical words through it. *)
Definition kernel_entry (m : mach) (va : Z) : Z :=
  word (m_kernel_l2 m) ((L1X va - L1X (m_va_min m)) * 1024 + L2X va).
Definition kernel_pa (m : mach) (va : Z) : option Z :=
  let e := kernel_entry m va in
  if e =? L2_FAULT then None else Some (Z.land e (u32 (Z.lnot 4095)) + va mod PAGE_SIZE).
Definition load_word (va : Z) : KM Z :=
  let* pa := read FNil (fun s => kernel_pa (k_mach s) va) in
  gets (fun s => word (m_pmem (k_mach s)) pa).
Definition store_word (va v : Z) : KM unit :=
  let* pa := read FNil (fun s => kernel_pa (k_mach s) va) in
  upd_mach (fun m => set_m_pmem (<[pa := v]> (m_pmem m)) m).

(** ** Properties of the table editing loops *)
Definition n_pages (len : Z) : Z := (len + (PAGE_SIZE - 1)) / PAGE_SIZE.

Section loops.
Implicit Types (t : gmap Z Z) (o n len base : Z).

Lemma PAGE_SIZE_eq : PAGE_SIZE = 4096.
Proof. reflexivity. Qed.

Lemma n_pages_lt len o : o < n_pages len <-> o * PAGE_SIZE < len.
Proof.
  unfold n_pages. rewrite PAGE_SIZE_eq. pose proof (Z.div_mod (len + (4096 - 1)) 4096).
  pose proof (Z.mod_pos_bound (len + (4096 - 1)) 4096). lia.
Qed.

Lemma for_loop_pages {A} (body : Z -> A -> A) len fuel o (a : A) :
  0 <= len <= 2 ^ 32 - PAGE_SIZE -> 0 <= o <= n_pages len -> (Z.to_nat (n_pages len - o) <= fuel)%nat ->
  for_loop fuel (fun o => u32 (Z.shiftl o 12) <? len) (fun o => u32 (o + 1)) body o a =
  Some (foldl (fun a o => body o a) a (seqZ o (n_pages len - o))).
Proof.
  intros Hlen. assert (Hn : n_pages len < 2 ^ 20).
  { destruct (Z.lt_ge_cases (n_pages len) (2 ^ 20)) as [|Hge]; [done|]. exfalso.
    assert (Hx : 2 ^ 20 - 1 < n_pages len) by lia. apply n_pages_lt in Hx. rewrite PAGE_SIZE_eq in *. lia. }
  revert o a. induction fuel as [|fuel IH]; intros o a Ho Hf; cbn [for_loop];
    rewrite Z.shiftl_mul_pow2, u32_small by lia; change (2 ^ 12) with PAGE_SIZE.
  - assert (o = n_pages len) as -> by lia. rewrite Z.sub_diag.
    destruct (Z.ltb_spec (n_pages len * PAGE_SIZE) len) as [Hc|]; [|reflexivity].
    apply n_pages_lt in Hc. lia.
  - destruct (Z.ltb_spec (o * PAGE_SIZE) len) as [Hc|Hc].
    + apply n_pages_lt in Hc. rewrite u32_small by lia. rewrite IH by lia.
      rewrite (seqZ_cons o) by lia. cbn. do 3 f_equal; lia.
    + assert (o = n_pages len) as ->.
      { destruct (Z.lt_ge_cases o (n_pages len)) as [Hx|]; [|lia]. apply n_pages_lt in Hx. lia. }
      by rewrite Z.sub_diag.
Qed.

Lemma foldl_insert_lookup base (f : Z -> Z) (n : nat) t j :
  foldl (fun t o => <[base + o := f o]> t) t (seqZ 0 (Z.of_nat n)) !! j =
  if decide (base <= j < base + Z.of_nat n) then Some (f (j - base)) else t !! j.
Proof.
  induction n as [|n IH].
  - cbn. rewrite decide_False by lia. done.
  - rewrite seqZ_S, foldl_app. cbn [foldl]. rewrite lookup_insert.
    destruct (decide (base + (0 + Z.of_nat n) = j)) as [<-|Hne].
    + rewrite decide_True by lia. do 2 f_equal. lia.
    + rewrite IH. repeat case_decide; try lia; done.
Qed.

Lemma pages_fuel len : 0 <= len -> (Z.to_nat (n_pages len - 0) <= pages len)%nat.
Proof.
  intros. unfold pages, n_pages. rewrite PAGE_SIZE_eq.
  pose proof (Z.div_mod (len + (4096 - 1)) 4096). pose proof (Z.mod_pos_bound (len + (4096 - 1)) 4096).
  pose proof (Z.div_mod len 4096). pose proof (Z.mod_pos_bound len 4096). lia.
Qed.

Lemma page_loop_lookup base (f : Z -> Z) len t :
  0 <= len <= 2 ^ 32 - PAGE_SIZE ->
  exists t', for_loop (pages len) (fun o => u32 (Z.shiftl o 12) <? len) (fun o => u32 (o + 1))
               (fun o t => <[base + o := f o]> t) 0 t = Some t' /\
    forall j, t' !! j = if decide (base <= j < base + n_pages len) then Some (f (j - base)) else t !! j.
Proof.
  intros Hlen. assert (Hn : 0 <= n_pages len)
    by (unfold n_pages; rewrite PAGE_SIZE_eq in *; apply Z.div_pos; lia).
  eexists. split; [apply for_loop_pages; [done|lia|apply pages_fuel; lia]|].
  intros j. rewrite Z.sub_0_r. rewrite <-(Z2Nat.id (n_pages len)) by done. apply foldl_insert_lookup.
Qed.
End loops.

Section entries.
Definition page_flags (ap : Z) (cache : bool) : Z :=
  let '(tex, c, b) := cache_bits cache in
  Z.lor (Z.lor (Z.lor (Z.lor L2_SMALL (Z.shiftl tex 6)) (Z.shiftl ap 4)) (Z.shiftl c 3)) (Z.shiftl b 2).

Lemma page_flags_bound ap cache : 0 <= ap < 4 -> 0 <= page_flags ap cache < 512.
Proof.
  intros. assert (ap = 0 \/ ap = 1 \/ ap = 2 \/ ap = 3) as [-> |[-> |[-> | ->]]] by lia;
    by destruct cache.
Qed.

(** A small-page entry for a page-aligned address is the address plus flags. *)
Lemma small_page_add pa ap cache : 0 <= pa < 2 ^ 32 -> pa mod PAGE_SIZE = 0 -> 0 <= ap < 4 ->
  small_page pa ap cache = pa + page_flags ap cache.
Proof.
  intros Hpa Hal Hap. unfold small_page. rewrite u32_small by done.
  rewrite <-(lor_low_add pa (page_flags ap cache) 12);
    [|lia|done|pose proof (page_flags_bound ap cache Hap); lia].
  unfold page_flags. destruct (cache_bits cache) as [[tex c] b]. by rewrite !Z.lor_assoc.
Qed.

Lemma small_page_bound pa ap cache : 0 <= pa < 2 ^ 32 -> pa mod PAGE_SIZE = 0 -> 0 <= ap < 4 ->
  0 <= pa + page_flags ap cache < 2 ^ 32.
Proof.
  intros Hpa Hal Hap. pose proof (page_flags_bound ap cache Hap).
  rewrite PAGE_SIZE_eq in Hal. pose proof (Z.div_mod pa 4096). lia.
Qed.

Lemma small_page_frame pa ap cache : 0 <= pa < 2 ^ 32 -> pa mod PAGE_SIZE = 0 -> 0 <= ap < 4 ->
  Z.land (small_page pa ap cache) (u32 (Z.lnot 4095)) = pa.
Proof.
  intros Hpa Hal Hap. rewrite small_page_add by done. pose proof (page_flags_bound ap cache Hap).
  apply (land_mask_low pa _ 12); [lia|done|lia|by apply small_page_bound].
Qed.

Lemma L2PA_small_page pa ap cache : 0 <= pa < 2 ^ 32 -> pa mod PAGE_SIZE = 0 -> 0 <= ap < 4 ->
  L2PA (small_page pa ap cache) = pa.
Proof.
  intros Hpa Hal Hap. unfold L2PA. rewrite small_page_add by done.
  rewrite u32_small by by apply small_page_bound. pose proof (page_flags_bound ap cache Hap).
  apply (land_mask_low pa _ 9); [lia| |done|by apply small_page_bound].
  rewrite PAGE_SIZE_eq in Hal. change (2 ^ 9) with 512.
  pose proof (Z.div_mod pa 4096 ltac:(lia)) as E. rewrite Hal in E. rewrite E.
  replace (4096 * (pa / 4096) + 0) with ((8 * (pa / 4096)) * 512) by lia. by apply Z_mod_mult.
Qed.

Lemma small_page_nonzero pa ap cache : 0 <= pa < 2 ^ 32 -> pa mod PAGE_SIZE = 0 -> 0 <= ap < 4 ->
  small_page pa ap cache <> L2_FAULT.
Proof.
  intros Hpa Hal Hap. rewrite small_page_add by done. unfold L2_FAULT.
  assert (0 < page_flags ap cache); [|lia].
  assert (ap = 0 \/ ap = 1 \/ ap = 2 \/ ap = 3) as [-> |[-> |[-> | ->]]] by lia;
    by destruct cache.
Qed.

Lemma L2X_bound va : 0 <= L2X va < 256.
Proof.
  unfold L2X. change (Z.shiftl 1 8 - 1) with (Z.ones 8). rewrite Z.land_ones by lia.
  apply Z.mod_pos_bound. lia.
Qed.

Lemma L1X_div va : 0 <= va < 2 ^ 32 -> L1X va = va / 2 ^ 20.
Proof. intros. unfold L1X. by rewrite u32_small, Z.shiftr_div_pow2. Qed.

Lemma L2X_div va : 0 <= va < 2 ^ 32 -> L2X va = va / 2 ^ 12 mod 2 ^ 8.
Proof.
  intros. unfold L2X. change (Z.shiftl 1 8 - 1) with (Z.ones 8).
  by rewrite u32_small, Z.land_ones, Z.shiftr_div_pow2.
Qed.
End entries.

(** ** A mapping made of small pages *)
Ltac divmod := Z.div_mod_to_equations; lia.

Lemma page_div x : x / 2 ^ 20 = x / PAGE_SIZE / 256.
Proof. rewrite PAGE_SIZE_eq, Z.div_div by lia. done. Qed.

(** Where the entry of [va] is in a row of tables of which the first one
    translates the section [c]. *)
Definition entry_index (c va : Z) : Z := (L1X va - c) * 1024 + L2X va.

Lemma entry_index_page c va : 0 <= va < 2 ^ 32 ->
  entry_index c va = (va / PAGE_SIZE / 256 - c) * 1024 + va / PAGE_SIZE mod 256.
Proof. intros. unfold entry_index. rewrite L1X_div, L2X_div, page_div by done. done. Qed.

Section window.
Variables (c pa va len ap : Z) (cache : bool) (t : gmap Z Z).
Hypothesis Hva : 0 <= va < 2 ^ 32.
Hypothesis Hva_al : va mod PAGE_SIZE = 0.
Hypothesis Hlen : 0 <= len.
Hypothesis Hend : va + len < 2 ^ 32.
Hypothesis Hlen_al : len mod PAGE_SIZE = 0.
Hypothesis Hsect : L1X va = L1X (va + len).

Lemma window_n_pages : n_pages len = len / PAGE_SIZE.
Proof. unfold n_pages. rewrite PAGE_SIZE_eq in *. divmod. Qed.

Lemma window_section : va / PAGE_SIZE / 256 = (va + len) / PAGE_SIZE / 256.
Proof. rewrite !L1X_div, !page_div in Hsect by lia. done. Qed.

(** The index of an address inside the mapping. *)
Lemma window_inside x : va <= x < va + len ->
  entry_index c x = entry_index c va + (x - va) / PAGE_SIZE /\
  0 <= (x - va) / PAGE_SIZE < n_pages len.
Proof.
  intros Hx. rewrite !entry_index_page by lia. rewrite window_n_pages.
  pose proof window_section as Hs. rewrite PAGE_SIZE_eq in *. divmod.
Qed.

Lemma window_outside x : 0 <= x < 2 ^ 32 -> x < va \/ va + len <= x ->
  ~ (entry_index c va <= entry_index c x < entry_index c va + n_pages len).
Proof.
  intros Hx Hout. rewrite !entry_index_page by lia. rewrite window_n_pages.
  pose proof window_section as Hs. rewrite PAGE_SIZE_eq in *. divmod.
Qed.

Lemma map_pages_window :
  exists t', map_pages ((L1X va - c) * 1024) t pa va len ap cache = Some t' /\
    (forall x, va <= x < va + len ->
       word t' (entry_index c x) = small_page (pa + (x - va) / PAGE_SIZE * PAGE_SIZE) ap cache) /\
    (forall x, 0 <= x < 2 ^ 32 -> x < va \/ va + len <= x ->
       word t' (entry_index c x) = word t (entry_index c x)).
Proof.
  assert (Hl : len <= 2 ^ 32 - PAGE_SIZE) by (rewrite PAGE_SIZE_eq in *; divmod).
  destruct (page_loop_lookup (entry_index c va)
    (fun o => small_page (pa + Z.shiftl o PAGE_SHIFT) ap cache) len t) as (t' & Hrun & Ht'); [lia|].
  exists t'. split; [done|]. split.
  - intros x Hx. destruct (window_inside x Hx) as [Hi Hn]. unfold word. rewrite Ht', decide_True by lia.
    cbn. f_equal. rewrite Z.shiftl_mul_pow2 by (unfold PAGE_SHIFT; lia).
    change (2 ^ PAGE_SHIFT) with PAGE_SIZE. do 2 f_equal. lia.
  - intros x Hx Hout. pose proof (window_outside x Hx Hout). unfold word. by rewrite Ht', decide_False.
Qed.

Lemma unmap_pages_window :
  exists t', unmap_pages ((L1X va - c) * 1024) t va len = Some t' /\
    (forall x, va <= x < va + len -> word t' (entry_index c x) = L2_FAULT) /\
    (forall x, 0 <= x < 2 ^ 32 -> x < va \/ va + len <= x ->
       word t' (entry_index c x) = word t (entry_index c x)).
Proof.
  assert (Hl : len <= 2 ^ 32 - PAGE_SIZE) by (rewrite PAGE_SIZE_eq in *; divmod).
  destruct (page_loop_lookup (entry_index c va) (fun _ => L2_FAULT) len t) as (t' & Hrun & Ht'); [lia|].
  exists t'. split; [done|]. split.
  - intros x Hx. destruct (window_inside x Hx) as [Hi Hn]. unfold word. by rewrite Ht', decide_True by lia.
  - intros x Hx Hout. pose proof (window_outside x Hx Hout). unfold word. by rewrite Ht', decide_False.
Qed.
End window.

(** *** Lengths and addresses rounded to pages *)
Lemma PAGE_ALIGN_spec len : 0 <= len -> len + 4095 < 2 ^ 32 ->
  PAGE_ALIGN len mod PAGE_SIZE = 0 /\ len <= PAGE_ALIGN len < len + PAGE_SIZE.
Proof.
  intros. unfold PAGE_ALIGN. change PAGE_SIZE with (2 ^ 12). rewrite align_up_pow2 by lia.
  split; [by apply Z_mod_mult|]. apply round_up_bounds. lia.
Qed.

Lemma PAGE_ALIGN_id len : 0 <= len -> len + 4095 < 2 ^ 32 -> len mod PAGE_SIZE = 0 -> PAGE_ALIGN len = len.
Proof.
  intros H0 H1 Hal. destruct (PAGE_ALIGN_spec len H0 H1) as [Ha Hb]. rewrite PAGE_SIZE_eq in *. divmod.
Qed.

Lemma pow2_page k : 12 <= k -> 2 ^ k mod PAGE_SIZE = 0.
Proof.
  intros. replace k with (k - 12 + 12) by lia. rewrite Z.pow_add_r by lia. apply Z_mod_mult.
Qed.

Lemma PAGE_ALIGN_DN_spec pa : 0 <= pa < 2 ^ 32 ->
  PAGE_ALIGN_DN pa mod PAGE_SIZE = 0 /\ PAGE_ALIGN_DN pa <= pa < PAGE_ALIGN_DN pa + PAGE_SIZE.
Proof.
  intros. unfold PAGE_ALIGN_DN. change PAGE_SIZE with (2 ^ 12). rewrite align_down_pow2 by lia.
  split; [by apply Z_mod_mult|]. apply round_down_bounds. lia.
Qed.

(** The first address of the section [x]. *)
Lemma section_start x : 0 <= x < 2 ^ 32 ->
  u32 (Z.shiftl (L1X x) 20) = x / 2 ^ 20 * 2 ^ 20 /\ (x / 2 ^ 20 * 2 ^ 20) mod PAGE_SIZE = 0.
Proof.
  intros. rewrite L1X_div, Z.shiftl_mul_pow2 by lia. pose proof (round_down_bounds x (2 ^ 20)).
  assert (0 <= x / 2 ^ 20) by (apply Z.div_pos; lia).
  rewrite u32_small by lia. split; [done|]. rewrite PAGE_SIZE_eq.
  replace (x / 2 ^ 20 * 2 ^ 20) with (x / 2 ^ 20 * 256 * 4096) by lia. by apply Z_mod_mult.
Qed.

(** ** The kernel's mapping window *)
Record window_ok (m : mach) : Prop := {
  wo_min : 0 <= m_va_min m <= m_va_next m;
  wo_max : m_va_next m <= m_va_max m <= 2 ^ 32 - TABLE_AREA;
  wo_next : m_va_next m mod PAGE_SIZE = 0;
  wo_area : m_va_max m mod TABLE_AREA = 0
}.

(** What a mapping leaves behind: [v] stands for [pa], the window has moved on. *)
Definition mapped (m : mach) (pa len : Z) (v : Z) (m' : mach) : Prop :=
  let base := v - pa mod PAGE_SIZE in
  m_va_next m <= base /\ base + PAGE_ALIGN len = m_va_next m' /\ m_va_next m' < 2 ^ 32 /\
  base mod PAGE_SIZE = 0 /\ L1X base = L1X (base + PAGE_ALIGN len) /\
  (exists t, m' = set_m_kernel_l2 t (set_m_va_next (m_va_next m') m)) /\
  (forall k, 0 <= k -> pa mod PAGE_SIZE + k < PAGE_ALIGN len -> kernel_pa m' (v + k) = Some (pa + k)) /\
  (forall x, 0 <= x < m_va_next m -> kernel_pa m' x = kernel_pa m x).

Lemma pa_split pa : 0 <= pa < 2 ^ 32 -> PAGE_ALIGN_DN pa = pa - pa mod PAGE_SIZE.
Proof. intros H. pose proof (PAGE_ALIGN_DN_spec pa H). rewrite PAGE_SIZE_eq in *. divmod. Qed.

Section kernel_map.
Variables (m : mach) (pa L va : Z) (cache : bool).
Let off := pa mod PAGE_SIZE.
Hypothesis Hva0 : 0 <= m_va_next m <= va.
Hypothesis Hva_al : va mod PAGE_SIZE = 0.
Hypothesis HL : 0 <= L.
Hypothesis HL_al : L mod PAGE_SIZE = 0.
Hypothesis Hend : va + L < 2 ^ 32.
Hypothesis Hsect : L1X va = L1X (va + L).
Hypothesis Hpa : 0 <= pa.
Hypothesis Hpa_end : pa + L < 2 ^ 32.

(** The tail of [kernel_map], once the window position is chosen. *)
Lemma kernel_map_at :
  exists t, map_pages ((L1X va - L1X (m_va_min m)) * 1024) (m_kernel_l2 m)
              (PAGE_ALIGN_DN pa) va L AP_RW_NO cache = Some t /\
    let m' := set_m_kernel_l2 t (set_m_va_next (va + L) m) in
    (forall k, 0 <= k -> off + k < L -> kernel_pa m' (va + off + k) = Some (pa + k)) /\
    (forall x, 0 <= x < m_va_next m -> kernel_pa m' x = kernel_pa m x).
Proof.
  destruct (map_pages_window (L1X (m_va_min m)) (PAGE_ALIGN_DN pa) va L AP_RW_NO cache (m_kernel_l2 m))
    as (t & Hrun & Hin & Hout); try done; try lia.
  exists t. split; [done|]. split.
  - intros k Hk Hoff. pose proof (Z.mod_pos_bound pa PAGE_SIZE ltac:(done)) as Hb.
    unfold kernel_pa, kernel_entry. cbn. fold (entry_index (L1X (m_va_min m)) (va + off + k)).
    set (q := PAGE_ALIGN_DN pa + (va + off + k - va) / PAGE_SIZE * PAGE_SIZE).
    assert (Hq : q mod PAGE_SIZE = 0 /\ 0 <= q /\ q <= pa + k /\ q + (va + off + k) mod PAGE_SIZE = pa + k).
    { unfold q. rewrite pa_split by lia. unfold off in *. rewrite PAGE_SIZE_eq in *. divmod. }
    destruct Hq as (Hq1 & Hq2 & Hq3 & Hq4). unfold off in *.
    rewrite Hin by lia. fold q.
    rewrite (proj2 (Z.eqb_neq _ _)) by (apply small_page_nonzero; [lia|done|done]).
    rewrite small_page_frame; [by rewrite Hq4|lia|done|done].
  - intros x Hx. unfold kernel_pa, kernel_entry. cbn. fold (entry_index (L1X (m_va_min m)) x).
    by rewrite Hout by lia.
Qed.
End kernel_map.

(** Where [kernel_map] puts a mapping. *)
Definition place (va len : Z) : Z :=
  if L1X va =? L1X (va + len) then va else (va + len) / 2 ^ 20 * 2 ^ 20.

Lemma place_ok va len : 0 <= va -> va mod PAGE_SIZE = 0 -> 0 <= len -> len mod PAGE_SIZE = 0 ->
  va + len <= 2 ^ 32 - TABLE_AREA -> len < TABLE_AREA ->
  va <= place va len <= va + len /\ place va len mod PAGE_SIZE = 0 /\ place va len + len < 2 ^ 32 /\
  L1X (place va len) = L1X (place va len + len).
Proof.
  unfold place. change TABLE_AREA with (2 ^ 20). intros Hva Hal Hl Hlal Hend Hlt.
  destruct (Z.eqb_spec (L1X va) (L1X (va + len))) as [Heq|Hne].
  - repeat split; [lia|lia|done|lia|done].
  - destruct (section_start (va + len)) as [_ Hp]; [lia|].
    rewrite !L1X_div in Hne by lia. pose proof (round_down_bounds (va + len) (2 ^ 20)).
    assert (0 <= (va + len) / 2 ^ 20) by (apply Z.div_pos; lia).
    repeat split; [divmod|lia|done|lia|]. rewrite !L1X_div by lia. divmod.
Qed.

Lemma place_too_big va len : 0 <= va -> TABLE_AREA <= len <= 2 ^ 31 -> va + len < 2 ^ 32 ->
  L1X va <> L1X (va + len) /\
  L1X ((va + len) / 2 ^ 20 * 2 ^ 20) <> L1X ((va + len) / 2 ^ 20 * 2 ^ 20 + len).
Proof.
  change TABLE_AREA with (2 ^ 20). intros Hva Hl Hend. split; [rewrite !L1X_div by lia; divmod|].
  pose proof (round_down_bounds (va + len) (2 ^ 20)). assert (0 <= (va + len) / 2 ^ 20) by (apply Z.div_pos; lia).
  unfold L1X. rewrite !Z.shiftr_div_pow2 by lia. rewrite (u32_small (_ * _)) by lia. unfold u32. divmod.
Qed.

(** The run of [kernel_map] when the request fits. *)
Lemma kernel_map_placed (s : kstate) (pa len : Z) (cache : bool) :
  let m := k_mach s in let L := PAGE_ALIGN len in
  window_ok m -> 0 <= len <= 2 ^ 31 - PAGE_SIZE -> 0 <= pa -> pa + L < 2 ^ 32 ->
  m_va_next m + L <= m_va_max m -> L < TABLE_AREA ->
  let va := place (m_va_next m) L in
  exists t, let m' := set_m_kernel_l2 t (set_m_va_next (va + L) m) in
    kernel_map pa len cache s = Ok (va + pa mod PAGE_SIZE) (set_k_mach m' s) /\
    m_va_next m <= va <= m_va_next m + L /\ va + L < 2 ^ 32 /\ va mod PAGE_SIZE = 0 /\ L1X va = L1X (va + L) /\
    (forall k, 0 <= k -> pa mod PAGE_SIZE + k < L -> kernel_pa m' (va + pa mod PAGE_SIZE + k) = Some (pa + k)) /\
    (forall x, 0 <= x < m_va_next m -> kernel_pa m' x = kernel_pa m x).
Proof.
  intros m L [Hmin Hmax Hnx Harea] Hlen Hpa Hpa_end Hin Hsmall va.
  destruct (PAGE_ALIGN_spec len) as [HLal HL]; [lia|rewrite PAGE_SIZE_eq in *; lia|]. fold L in HLal, HL.
  destruct (place_ok (m_va_next m) L) as (P1 & P2 & P3 & P4); [lia|exact Hnx|lia|exact HLal|lia|lia|].
  fold va in P1, P2, P3, P4.
  assert (Hb : 0 <= pa mod PAGE_SIZE < PAGE_SIZE) by (apply Z.mod_pos_bound; done).
  destruct (kernel_map_at m pa L va cache) as (t & Hrun & Hk & Hx); [lia|exact P2|lia|exact HLal|lia|exact P4|lia|lia|].
  exists t. split; [|split_and!; [lia|lia|exact P3|exact P2|exact P4|exact Hk|exact Hx]].
  unfold kernel_map. rewrite (pa_split pa) in * by lia. fold L. change TABLE_AREA with (2 ^ 20) in *.
  replace (u32 (pa - (pa - pa mod PAGE_SIZE))) with (pa mod PAGE_SIZE)
    by (rewrite PAGE_SIZE_eq in *; rewrite u32_small by lia; lia).
  erewrite bind_ok by reflexivity. fold m. rewrite (u32_small (m_va_next m + L)) by lia.
  rewrite (proj2 (Z.ltb_ge _ _) Hin). erewrite (bind_ok _ _ s va).
  2:{ unfold va, place in *. rewrite (proj1 (section_start (m_va_next m + L) ltac:(lia))).
      destruct (L1X (m_va_next m) =? L1X (m_va_next m + L)); [done|]. cbn [negb].
      by rewrite P4, Z.eqb_refl. }
  rewrite (u32_small (va + L)) by lia. unfold upd_mach, modify, bind. rewrite Hrun. cbn.
  rewrite u32_small by (rewrite PAGE_SIZE_eq in *; lia). done.
Qed.

(** What is left of the window is enough, and one table covers the request. *)
Definition has_room (m : mach) (len : Z) : Prop :=
  m_va_next m + PAGE_ALIGN len <= m_va_max m /\ PAGE_ALIGN len < TABLE_AREA.

Lemma place_inside va len max : 0 <= va -> 0 <= len < TABLE_AREA -> va + len < max -> max <= 2 ^ 32 - TABLE_AREA -> max mod TABLE_AREA = 0 ->
  place va len + len <= max.
Proof.
  unfold place. change TABLE_AREA with (2 ^ 20). intros Hva Hl Hend Hmax Hal.
  destruct (L1X va =? L1X (va + len)); [lia|]. pose proof (round_down_bounds (va + len) (2 ^ 20)). divmod.
Qed.

Lemma kernel_map_spec (s : kstate) (pa len : Z) (cache : bool)
    (Hw : window_ok (k_mach s))
    (Hlen : 0 <= len <= 2 ^ 31 - PAGE_SIZE)
    (Hpa : 0 <= pa)
    (Hpa_end : pa + PAGE_ALIGN len < 2 ^ 32)
    (Hfit : m_va_next (k_mach s) + PAGE_ALIGN len < 2 ^ 32) :
  wpe (kernel_map pa len cache) s
    (fun v s' => mapped (k_mach s) pa len v (k_mach s') /\ s' = set_k_mach (k_mach s') s /\ has_room (k_mach s) len /\
       (m_va_next (k_mach s') <= m_va_max (k_mach s) \/ m_va_next (k_mach s) + PAGE_ALIGN len = m_va_max (k_mach s)))
    (fun w s' => w = Panicked /\ s' = s /\ ~ has_room (k_mach s) len).
Proof.
  destruct Hw as [Hmin Hmax Hnx Harea]. set (m := k_mach s) in *.
  destruct (PAGE_ALIGN_spec len) as [HLal HL]; [lia|rewrite PAGE_SIZE_eq in *; lia|].
  set (L := PAGE_ALIGN len) in *.
  destruct (Z.ltb_spec (m_va_max m) (m_va_next m + L)) as [Hover|Hin];
    [|destruct (Z.le_gt_cases TABLE_AREA L) as [Hbig|Hsmall]].
  1, 2: unfold kernel_map; fold L; apply wpe_bind, wpe_gets; fold m; rewrite (u32_small (m_va_next m + L)) by lia.
  { rewrite (proj2 (Z.ltb_lt _ _) Hover). apply wpe_halt. split_and!; [done..|]. intros [? _]. fold m L in H. lia. }
  { destruct (place_too_big (m_va_next m) L) as [H1 H2]; [lia|rewrite PAGE_SIZE_eq in *; lia|lia|].
    rewrite (proj2 (Z.ltb_ge _ _) Hin), (proj2 (Z.eqb_neq _ _) H1). cbn [negb].
    rewrite (proj1 (section_start (m_va_next m + L) ltac:(lia))).
    rewrite (proj2 (Z.eqb_neq _ _) H2). cbn [negb]. apply wpe_bind, wpe_halt. split_and!; [done..|]. intros [_ ?]. fold L in H. lia. }
  destruct (kernel_map_placed s pa len cache) as (t & Hrun & Hva & Hb & Hal & Hse & Hk & Hx);
    [by constructor|done|done|done|done|done|].
  fold m L in Hrun, Hva, Hb, Hal, Hse, Hk, Hx. set (va := place (m_va_next m) L) in *.
  eapply wpe_ok; [exact Hrun|]. split; [|split; [done|split; [split; fold m L; lia|]]].
  2: { destruct (Z.eq_dec (m_va_next m + L) (m_va_max m)) as [E|E]; [by right|left]. cbn. apply place_inside; lia || done. }
  unfold mapped.
  replace (va + pa mod PAGE_SIZE - pa mod PAGE_SIZE) with va by lia.
  split_and!; [exact (proj1 Hva)|reflexivity|exact Hb|exact Hal|exact Hse|by exists t|exact Hk|exact Hx].
Qed.


Lemma demo_window va : 0xff000000 <= va <= 0xff400000 -> va mod PAGE_SIZE = 0 -> window_ok (demo_mach va).
Proof. intros. constructor; change TABLE_AREA with (2 ^ 20); cbn [demo_mach m_va_min m_va_max m_va_next]; [lia|lia|done|done]. Qed.


(** A request that would end exactly where the window ends passes the
    check of [kernel_map], is moved up to the next section, and so is mapped
    entirely outside the window, by writes past the kernel's page tables. *)
Theorem kernel_map_past_window (s : kstate) (pa len : Z) (cache : bool)
    (Hw : window_ok (k_mach s))
    (Hlen : 0 < len) (Hsmall : PAGE_ALIGN len < TABLE_AREA) (Hlen_max : len <= 2 ^ 31 - PAGE_SIZE)
    (Hpa : 0 <= pa) (Hpa_end : pa + PAGE_ALIGN len < 2 ^ 32)
    (Hexact : m_va_next (k_mach s) + PAGE_ALIGN len = m_va_max (k_mach s)) :
  wpe (kernel_map pa len cache) s (fun v s' => m_va_max (k_mach s) <= v /\
    m_va_next (k_mach s') = m_va_max (k_mach s) + PAGE_ALIGN len) never.
Proof.
  destruct (PAGE_ALIGN_spec len) as [HLal HL]; [lia|rewrite PAGE_SIZE_eq in *; lia|].
  destruct (kernel_map_placed s pa len cache) as (t & Hrun & _); [done|lia|done|done|lia|done|].
  eapply wpe_ok; [exact Hrun|]. destruct Hw as [Hmin Hmax Hnx Harea].
  pose proof (Z.mod_pos_bound pa PAGE_SIZE ltac:(done)) as Hb.
  assert (place (m_va_next (k_mach s)) (PAGE_ALIGN len) = m_va_max (k_mach s)) as ->; [|cbn; lia].
  unfold place. rewrite Hexact. change TABLE_AREA with (2 ^ 20) in *. rewrite !L1X_div by lia.
  rewrite (proj2 (Z.eqb_neq _ _)); divmod.
Qed.

Lemma kernel_map_past_window_witness :
  let s := set_k_mach (demo_mach 0xff3ff000) demo in
  wpe (kernel_map 0x60001000 0x1000 true) s (fun v s' => m_va_max (k_mach s) <= v /\
    m_va_next (k_mach s') = m_va_max (k_mach s) + PAGE_ALIGN 0x1000) never.
Proof. apply kernel_map_past_window; [by apply demo_window|by vm_compute..]. Defined.
