(* ===== verification/Cap.v ===== *)
(** * Capabilities: proc_find_cap of sys/sys.c and proc_find_cap_type of
    arm/kern/sys.c

    A capability identifier [cid] names a slot of the caller's root list
    ([cid >> 12]) or, when its low twelve bits are not zero, a slot of the list
    that slot holds. *)
From S2P Require Import Prelude KState.

Local Open Scope Z_scope.
Local Open Scope c_scope.

(** ** Operations *)
Definition proc_find_cap (p cid : Z) : KM (option capref) :=
  let base := Z.shiftr cid 12 in
  let sub := Z.land cid 0xfff in
  if CLIST_CAPS <=? base then ret None else
  let* x := get_proc p in
  let c := (p_cap_root x, base) in
  if sub =? 0 then ret (Some c) else
  let* v := get_cap c in
  if negb (ctrue (Z.land (c_perm v) CAP_read)) then ret None else
  let* h := get_head (c_obj v) in
  if negb (h_type h =? OBJ_caplist) then ret None
  else if CLIST_CAPS <? sub then ret None
  else ret (Some (c_obj v, sub)).

Definition proc_find_cap_type (p cid perm type : Z) : KM (option capref) :=
  let* c := proc_find_cap p cid in
  match c with
  | None => ret None
  | Some c =>
    let* v := get_cap c in
    if negb (Z.land (c_perm v) perm =? perm) then ret None else
    if c_perm v =? 0 then ret (Some c) else
    let* h := get_head (c_obj v) in
    if negb (h_type h =? type) then ret None else ret (Some c)
  end.

(** ** The capability space *)

(** [has_perm c m]: the capability carries every right of the mask. *)
Definition has_perm (c : cap) (m : Z) : Prop := Z.land (c_perm c) m = m.
#[export] Instance has_perm_dec c m : Decision (has_perm c m) := decide (_ = _).

(** Which slot a [cid] stands for: the promise of the lookup, without its
    order of checks. *)
Inductive resolves (s : kstate) (root : Z) : Z -> capref -> Prop :=
  | resolves_root base :
      0 <= base < CLIST_CAPS -> resolves s root (base * 4096) (root, base)
  | resolves_sub base sub c h :
      0 <= base < CLIST_CAPS -> 0 < sub < CLIST_CAPS ->
      cap_lookup (root, base) s = Some c -> has_perm c CAP_read ->
      k_head s !! c_obj c = Some h -> h_type h = OBJ_caplist ->
      resolves s root (base * 4096 + sub) (c_obj c, sub).

(** A capability list is as long as the structure says, a header's type tells
    which kind of object follows it, and a capability with rights points to an
    object. *)
Record caps_ok (s : kstate) : Prop := {
  co_len : forall a l, k_caplist s !! a = Some l -> length l = Z.to_nat CLIST_CAPS;
  co_type : forall a h, k_head s !! a = Some h -> h_type h = OBJ_caplist -> is_Some (k_caplist s !! a);
  co_obj : forall r c, cap_lookup r s = Some c -> c_perm c <> 0 -> is_Some (k_head s !! c_obj c)
}.

(** Writing a slot keeps the lists' lengths. *)
Lemma alter_lengths (m : gmap Z (list cap)) (n : nat) (r : capref) (c : cap) :
  (forall a l, m !! a = Some l -> length l = n) ->
  forall a l, alter (zupd r.2 c) r.1 m !! a = Some l -> length l = n.
Proof.
  intros Hm a l. rewrite lookup_alter. case_decide as E; [|apply Hm].
  destruct (m !! r.1) as [l0|] eqn:Hl; [|done]. cbn. intros Hx%(inj Some). rewrite <-Hx, length_zupd. by eapply Hm.
Qed.

Section caps.
Implicit Types (s : kstate) (p cid root : Z) (r : capref) (c : cap).

Lemma cid_split cid : 0 <= cid ->
  cid = Z.shiftr cid 12 * 4096 + Z.land cid 0xfff /\
  0 <= Z.shiftr cid 12 /\ 0 <= Z.land cid 0xfff < 4096.
Proof.
  intros. change 0xfff with (Z.ones 12). rewrite Z.land_ones, Z.shiftr_div_pow2 by lia.
  change (2 ^ 12) with 4096. pose proof (Z.div_mod cid 4096). pose proof (Z.mod_pos_bound cid 4096).
  pose proof (Z.div_pos cid 4096). lia.
Qed.

Lemma cid_join base sub : 0 <= base -> 0 <= sub < 4096 ->
  Z.shiftr (base * 4096 + sub) 12 = base /\ Z.land (base * 4096 + sub) 0xfff = sub.
Proof.
  intros. change 0xfff with (Z.ones 12). rewrite Z.land_ones, Z.shiftr_div_pow2 by lia.
  change (2 ^ 12) with 4096. rewrite Z.add_comm, Z.div_add, Z.mod_add by lia.
  rewrite Z.div_small, Z.mod_small by lia. lia.
Qed.

Lemma has_read c : ctrue (Z.land (c_perm c) CAP_read) = true <-> has_perm c CAP_read.
Proof.
  unfold has_perm, ctrue. change CAP_read with (2 ^ 1). rewrite (land_pow2 _ 1) by lia.
  by destruct (Z.testbit (c_perm c) 1).
Qed.

Lemma has_perm_nonzero c m : m <> 0 -> has_perm c m -> c_perm c <> 0.
Proof. unfold has_perm. intros Hm H E. rewrite E, Z.land_0_l in H. lia. Qed.

Lemma cap_lookup_root s p x base : caps_ok s ->
  is_Some (k_caplist s !! p_cap_root x) -> 0 <= base < CLIST_CAPS -> k_proc s !! p = Some x ->
  is_Some (cap_lookup (p_cap_root x, base) s).
Proof.
  intros [Hlen _ _] [l Hl] Hb _. unfold cap_lookup. cbn. rewrite Hl. cbn.
  apply znth_is_Some. rewrite (Hlen _ _ Hl). unfold CLIST_CAPS in *. lia.
Qed.

Lemma resolves_slot s root cid r : caps_ok s -> is_Some (k_caplist s !! root) ->
  resolves s root cid r -> is_Some (cap_lookup r s).
Proof.
  intros [Hlen Htype _] [l Hl] [base Hb|base sub c h Hb Hs Hc Hr Hh Ht].
  - unfold cap_lookup. cbn. rewrite Hl. cbn. apply znth_is_Some.
    rewrite (Hlen _ _ Hl). unfold CLIST_CAPS in *. lia.
  - destruct (Htype _ _ Hh Ht) as [l' Hl']. unfold cap_lookup. cbn. rewrite Hl'. cbn. apply znth_is_Some.
    rewrite (Hlen _ _ Hl'). unfold CLIST_CAPS in *. lia.
Qed.

(** Every branch of the lookup. *)
Lemma proc_find_cap_spec s p x cid (Q : option capref -> kstate -> Prop) E :
  caps_ok s -> k_proc s !! p = Some x -> is_Some (k_caplist s !! p_cap_root x) ->
  0 <= cid -> Z.land cid 0xfff <> CLIST_CAPS ->
  (forall r, resolves s (p_cap_root x) cid r -> is_Some (cap_lookup r s) -> Q (Some r) s) ->
  ((forall r, ~ resolves s (p_cap_root x) cid r) -> Q None s) ->
  wpe (proc_find_cap p cid) s Q E.
Proof.
  intros Hok Hp Hroot Hcid Hsub HS HN. destruct (cid_split cid Hcid) as (Heq & Hb & Hs).
  assert (HN' : (forall r, resolves s (p_cap_root x) cid r -> False) -> Q None s) by done.
  assert (HS' : forall r, resolves s (p_cap_root x) cid r -> Q (Some r) s)
    by (intros r Hr; apply HS; [done|]; by eapply resolves_slot).
  clear HS HN. unfold proc_find_cap. set (base := Z.shiftr cid 12) in *. set (sub := Z.land cid 0xfff) in *.
  assert (Hinv : forall r, resolves s (p_cap_root x) cid r ->
    base < CLIST_CAPS /\ (sub = 0 \/ exists c h, sub < CLIST_CAPS /\ cap_lookup (p_cap_root x, base) s = Some c /\
      has_perm c CAP_read /\ k_head s !! c_obj c = Some h /\ h_type h = OBJ_caplist)).
  { intros r Hr. inversion Hr as [b Hb' E1 E2|b b' c h Hb' Hs' Hc Hpm Hh Ht E1 E2]; subst r.
    - rewrite <-(Z.add_0_r (b * 4096)) in E1. destruct (cid_join b 0) as [J1 J2]; [lia|lia|].
      unfold base, sub. rewrite <-E1, J1, J2. split; [lia|by left].
    - unfold CLIST_CAPS in *. destruct (cid_join b b') as [J1 J2]; [lia|lia|].
      unfold base, sub. rewrite <-E1, J1, J2. split; [lia|]. right. exists c, h. split; [lia|done]. }
  destruct (Z.leb_spec CLIST_CAPS base) as [Hge|Hlt].
  { apply wpe_ret, HN'. intros r Hr. destruct (Hinv r Hr). lia. }
  ksteps.
  - apply Z.eqb_eq in Hb0. apply HS'. rewrite Heq, Hb0, Z.add_0_r. by constructor.
  - apply Z.eqb_neq in Hb0. destruct (cap_lookup_root s p x base) as [v Hv]; [done..|].
    ksteps.
    { apply HN'. intros r Hr. apply negb_true_iff in Hb1.
      destruct (Hinv r Hr) as (_ & [?|(c & h & ? & Hc & Hpm & _)]); [done|].
      simplify_eq. apply has_read in Hpm. congruence. }
    apply negb_false_iff, has_read in Hb1.
    destruct (co_obj s Hok _ v Hv) as [h Hh]; [by apply (has_perm_nonzero v CAP_read)|].
    ksteps; bdestruct_all.
    { apply HN'. intros r Hr. destruct (Hinv r Hr) as (_ & [?|(c & h' & ? & Hc & Hpm & Hh' & ?)]); [done|].
      by simplify_eq. }
    { apply HN'. intros r Hr. destruct (Hinv r Hr) as (_ & [?|(c & h' & ? & Hc & Hpm & Hh' & ?)]); [done|].
      lia. }
    apply HS'. rewrite Heq. econstructor; [lia|lia|done..].
Qed.
End caps.

(** ** The caller's capability space

    What a system call relies on: the running process has a root list, and the
    identifiers it passes are ones the structure covers. *)
Definition runs_with (s : kstate) (root : Z) : Prop :=
  exists x, k_proc s !! k_up s = Some x /\ p_cap_root x = root /\ is_Some (k_caplist s !! root).
Definition cid_ok (cid : Z) : Prop := 0 <= cid /\ Z.land cid 0xfff <> CLIST_CAPS.
#[export] Instance cid_ok_dec cid : Decision (cid_ok cid).
Proof. unfold cid_ok. apply _. Defined.

Lemma has_write c : ctrue (Z.land (c_perm c) CAP_write) = true <-> has_perm c CAP_write.
Proof.
  unfold has_perm, ctrue. change CAP_write with (2 ^ 0). rewrite (land_pow2 _ 0) by lia.
  by destruct (Z.testbit (c_perm c) 0).
Qed.

Lemma resolves_det s root cid r r' : resolves s root cid r -> resolves s root cid r' -> r = r'.
Proof.
  assert (J : forall b sub b' sub', 0 <= b -> 0 <= sub < 4096 -> 0 <= b' -> 0 <= sub' < 4096 ->
    b * 4096 + sub = b' * 4096 + sub' -> b = b' /\ sub = sub') by lia.
  intros [b Hb|b sub c h Hb Hs Hc Hp Hh Ht] H; inversion H as [b' Hb' E1 E2|b' sub' c' h' Hb' Hs' Hc' Hp' Hh' Ht' E1 E2];
    unfold CLIST_CAPS in *.
  - destruct (J b' 0 b 0) as [-> _]; [lia..|done].
  - destruct (J b' sub' b 0); lia.
  - destruct (J b' 0 b sub); lia.
  - destruct (J b' sub' b sub) as [-> ->]; [lia..|]. by simplify_eq.
Qed.

(** The lookup on behalf of the running process. *)
Lemma wpe_find s root cid (Q : option capref -> kstate -> Prop) E :
  caps_ok s -> runs_with s root -> cid_ok cid ->
  (forall r c, resolves s root cid r -> cap_lookup r s = Some c -> Q (Some r) s) ->
  ((forall r, ~ resolves s root cid r) -> Q None s) ->
  wpe (proc_find_cap (k_up s) cid) s Q E.
Proof.
  intros Hok (x & Hx & <- & Hroot) [H1 H2] HS HN.
  apply (proc_find_cap_spec s (k_up s) x cid); [done..| |done]. intros r Hr [c Hc]. by eapply HS.
Qed.

Lemma find_runs s root cid r : caps_ok s -> runs_with s root -> cid_ok cid ->
  resolves s root cid r -> proc_find_cap (k_up s) cid s = Ok (Some r) s.
Proof.
  intros Hok Hup Hcid Hr. assert (wp (proc_find_cap (k_up s) cid) s (fun o s' => o = Some r /\ s' = s)) as Hw.
  - apply (wpe_find s root); [done..| |].
    + intros r' c Hr' _. split; [|done]. f_equal. by eapply resolves_det.
    + intros Hno. by destruct (Hno r).
  - apply wp_inv in Hw as (? & ? & ? & -> & ->). done.
Qed.

(** The slot [r], named by [cid], holds [c], a capability with the rights [m] to an
    object of the type [t]. *)
Definition holds (s : kstate) (root cid m t : Z) (r : capref) (c : cap) : Prop :=
  resolves s root cid r /\ cap_lookup r s = Some c /\ c_perm c <> 0 /\ has_perm c m /\
  exists h, k_head s !! c_obj c = Some h /\ h_type h = t.

Lemma find_type_run s root cid m t r c : caps_ok s -> runs_with s root -> cid_ok cid ->
  holds s root cid m t r c -> proc_find_cap_type (k_up s) cid m t s = Ok (Some r) s.
Proof.
  intros Hok Hrun Hcid (Hr & Hc & Hp & Hm & h & Hh & Ht). unfold proc_find_cap_type.
  erewrite bind_ok by by eapply find_runs. unfold get_cap. erewrite bind_ok by by apply read_ok.
  rewrite (proj2 (Z.eqb_eq _ _) Hm), (proj2 (Z.eqb_neq _ _) Hp). cbn [negb]. unfold get_head.
  erewrite bind_ok by by apply read_ok. by rewrite Ht, Z.eqb_refl.
Qed.

(** ** What the lookup delivers *)

(** The checks of [caps_ok] on a concrete state. *)
Definition caps_okb (s : kstate) : bool :=
  bool_decide (map_Forall (fun _ l => length l = Z.to_nat CLIST_CAPS /\
    Forall (fun c => c_perm c <> 0 -> is_Some (k_head s !! c_obj c)) l) (k_caplist s)) &&
  bool_decide (map_Forall (fun a h => h_type h = OBJ_caplist -> is_Some (k_caplist s !! a)) (k_head s)).

Lemma caps_okb_sound s : caps_okb s = true -> caps_ok s.
Proof.
  unfold caps_okb. intros [H1%bool_decide_eq_true H2%bool_decide_eq_true]%andb_prop. constructor.
  - intros a l Hl. by apply (H1 a l).
  - exact H2.
  - intros [a i] c Hc. unfold cap_lookup in Hc. cbn in Hc. destruct (k_caplist s !! a) as [l|] eqn:Hl; [|done].
    cbn in Hc. apply znth_lookup in Hc as [_ Hc]. destruct (H1 a l Hl) as [_ HF].
    exact (proj1 (Forall_lookup _ _) HF _ _ Hc).
Qed.

Lemma demo_caps_ok : caps_ok demo.
Proof. apply caps_okb_sound. by vm_compute. Qed.

Lemma proc_find_cap_type_spec s p x cid perm type (Q : option capref -> kstate -> Prop) E :
  caps_ok s -> k_proc s !! p = Some x -> is_Some (k_caplist s !! p_cap_root x) ->
  0 <= cid -> Z.land cid 0xfff <> CLIST_CAPS ->
  (forall r c, resolves s (p_cap_root x) cid r -> cap_lookup r s = Some c -> has_perm c perm ->
     (c_perm c <> 0 -> exists h, k_head s !! c_obj c = Some h /\ h_type h = type) -> Q (Some r) s) ->
  Q None s ->
  wpe (proc_find_cap_type p cid perm type) s Q E.
Proof.
  intros Hok Hp Hroot Hcid Hsub HS HN. unfold proc_find_cap_type. apply wpe_bind.
  eapply proc_find_cap_spec; [done..| |]; cbn.
  - intros r Hr [c Hc]. ksteps; bdestruct_all; [done|..].
    + eapply HS; [done..|]. intros ?. done.
    + destruct (co_obj s Hok r c Hc) as [h Hh]; [done|]. ksteps; bdestruct_all; [done|].
      eapply HS; [done..|]. eauto.
  - intros _. by apply wpe_ret.
Qed.

(** C16: In a well-formed capability space, the lookup of an identifier that is
    not negative and whose second index is not 510 (see [proc_find_cap_escapes] for
    those) returns exactly the slot the identifier stands for -- with the read right
    demanded of the list it goes through -- or nothing when there is none; it changes
    nothing, and the slot it returns exists. *)
Theorem proc_find_cap_correct (s : kstate) (p cid : Z) (x : obj_proc)
    (Hok : caps_ok s) (Hp : k_proc s !! p = Some x) (Hroot : is_Some (k_caplist s !! p_cap_root x))
    (Hcid : 0 <= cid) (Hsub : Z.land cid 0xfff <> CLIST_CAPS) :
  wp (proc_find_cap p cid) s (fun r s' => s' = s /\
    match r with
    | Some r => resolves s (p_cap_root x) cid r /\ is_Some (cap_lookup r s)
    | None => forall r, ~ resolves s (p_cap_root x) cid r
    end).
Proof. by eapply proc_find_cap_spec. Qed.

Lemma proc_find_cap_correct_witness :
  wp (proc_find_cap 0x1000 0x5007) demo (fun r s' => s' = demo /\
    match r with
    | Some r => resolves demo 0x3000 0x5007 r /\ is_Some (cap_lookup r demo)
    | None => forall r, ~ resolves demo 0x3000 0x5007 r
    end).
Proof.
  apply (proc_find_cap_correct demo 0x1000 0x5007 (demo_proc 1 0x3000 PROC_ready));
    [exact demo_caps_ok|reflexivity|by eexists|done|done].
Defined.

(** The bounds check of the lookup lets one index too many through (it
    tests [sub > CLIST_CAPS]), and none at all below zero: a process that names
    slot 510 of one of its lists, or uses a negative identifier, is given a
    reference to memory outside the list. *)
Theorem proc_find_cap_escapes (s : kstate) (p cid : Z) (x : obj_proc) (r : capref)
    (Hok : caps_ok s) (Hp : k_proc s !! p = Some x) (Hroot : is_Some (k_caplist s !! p_cap_root x))
    (Hr : (exists base c h, cid = base * 4096 + CLIST_CAPS /\ 0 <= base < CLIST_CAPS /\
             cap_lookup (p_cap_root x, base) s = Some c /\ has_perm c CAP_read /\
             k_head s !! c_obj c = Some h /\ h_type h = OBJ_caplist /\ r = (c_obj c, CLIST_CAPS)) \/
          (exists base, cid = base * 4096 /\ base < 0 /\ r = (p_cap_root x, base))) :
  proc_find_cap p cid s = Ok (Some r) s /\ cap_lookup r s = None.
Proof.
  destruct Hr as [(base & c & h & -> & Hb & Hc & Hpm & Hh & Ht & ->)|(base & -> & Hb & ->)].
  - split.
    + unfold proc_find_cap, get_proc, get_cap, get_head, bind, read, ret.
      destruct (cid_join base CLIST_CAPS) as [-> ->]; [lia|done|].
      rewrite (proj2 (Z.leb_gt CLIST_CAPS base)), Hp by lia. cbn. rewrite Hc. cbn.
      rewrite (proj2 (has_read c) Hpm). cbn. by rewrite Hh, Ht.
    + destruct (co_type s Hok _ _ Hh Ht) as [l Hl]. unfold cap_lookup. cbn [fst snd]. rewrite Hl. cbn [mbind option_bind].
      apply znth_None. rewrite (co_len s Hok _ _ Hl). right. done.
  - split.
    + unfold proc_find_cap, get_proc, bind, read, ret.
      change 0xfff with (Z.ones 12). rewrite Z.land_ones, Z.shiftr_div_pow2 by lia.
      change (2 ^ 12) with 4096. rewrite Z.div_mul, Z_mod_mult by lia.
      rewrite (proj2 (Z.leb_gt CLIST_CAPS base)), Hp by (unfold CLIST_CAPS; lia). done.
    + destruct Hroot as [l Hl]. unfold cap_lookup. cbn [fst snd]. rewrite Hl. cbn [mbind option_bind]. apply znth_None. by left.
Qed.

Lemma proc_find_cap_escapes_witness :
  proc_find_cap 0x1000 0x51fe demo = Ok (Some (0x4000, 510)) demo /\ cap_lookup (0x4000, 510) demo = None.
Proof.
  apply (proc_find_cap_escapes demo 0x1000 0x51fe (demo_proc 1 0x3000 PROC_ready));
    [exact demo_caps_ok|reflexivity|by eexists|left].
  exists 5, (mk_cap 3 0x4000), (mk_head 1 OBJ_caplist). by repeat split.
Defined.
