(* ===== verification/Obj.v ===== *)
(** * Kernel objects: sys_obj_retype, sys_obj_split, sys_obj_merge of sys/sys.c,
    sys_obj_create and the size and initialisation tables of arm/kern/sys.c

    Objects are made out of untyped memory.  [k_scratch] keeps the words that
    splitting has left in untyped memory: the initialisers do not clear all of
    what they are given, so these words can become part of a new object. *)
From S2P Require Import Prelude KState Sched Mmu Cap.

Local Open Scope Z_scope.
Local Open Scope c_scope.

(** ** Sizes and initialisation *)
Definition obj_untyped_size (n : Z) : Z := if n <? sizeof_untyped then 0 else n.
Definition obj_endpoint_size (n : Z) : Z := if negb (n =? 1) then 0 else sizeof_endpoint.
Definition obj_caplist_size (n : Z) : Z := if negb (n =? 1) then 0 else sizeof_caplist.
Definition obj_proc_size (n : Z) : Z := if negb (n =? 1) then 0 else sizeof_proc.
Definition obj_intr_size (n : Z) : Z := sizeof_intr.
Definition obj_frame_size (n : Z) : Z := sizeof_frame.

Definition put_head (a : Z) (h : obj_head) : KM unit :=
  modify (fun s => set_k_head (<[a := h]> (k_head s)) s).
Definition scratch (s : kstate) (a : Z) : Z := word (k_scratch s) a.

(** The header and the length of an untyped object: three words of its memory. *)
Definition write_untyped (o refs len : Z) : KM unit :=
  put_head o (mk_head refs OBJ_untyped) ;;;
  modify (fun s => set_k_untyped (<[o := len]> (k_untyped s)) s) ;;;
  modify (fun s => set_k_scratch
    (<[o := refs]> (<[o + 4 := OBJ_untyped]> (<[o + 8 := len]> (k_scratch s)))) s).

Definition obj_untyped_init (o n : Z) : KM Z :=
  modify (fun s => set_k_untyped (<[o := n]> (k_untyped s)) s) ;;;
  modify (fun s => set_k_scratch (<[o + 8 := n]> (k_scratch s)) s) ;;;
  ret OK.

Definition obj_endpoint_init (o n : Z) : KM Z :=
  modify (fun s => set_k_endpoint (<[o := mk_endpoint 0 NIL NIL NIL NIL]> (k_endpoint s)) s) ;;;
  ret OK.

(** [caps[i]] of the memory at [o]. *)
Definition stale_cap (s : kstate) (o : Z) (i : nat) : cap :=
  mk_cap (scratch s (o + 8 + 8 * Z.of_nat i)) (scratch s (o + 12 + 8 * Z.of_nat i)).
(** The loop clears the slots below 255. *)
Definition obj_caplist_init (o n : Z) : KM Z :=
  modify (fun s => set_k_caplist
    (<[o := replicate 255 cap_empty ++ (stale_cap s o <$> seq 255 255)]> (k_caplist s)) s) ;;;
  ret OK.

Definition proc_zero : obj_proc :=
  mk_proc K_zero PROC_fault 0 0 0 None NIL NIL 0 0 (replicate 16 0) 0 None None NIL NIL NIL.
Definition obj_proc_init `{Board} (o n : Z) : KM Z :=
  put_proc o proc_zero ;;;
  let* r := proc_init o in
  if negb (r =? OK) then ret ERR else ret OK.

Definition obj_intr_init (o n : Z) : KM Z :=
  modify (fun s => set_k_intr (<[o := mk_intr 0 NIL 0]> (k_intr s)) s) ;;;
  ret OK.

(** [va] and [next] keep what the memory held. *)
Definition obj_frame_init (o n : Z) : KM Z :=
  modify (fun s => set_k_frame
    (<[o := mk_frame 0 0 FRAME_NONE (scratch s (o + 20)) (scratch s (o + 24))]> (k_frame s)) s) ;;;
  ret OK.

(** Calls through the tables [obj_size_funcs] and [obj_init_funcs]. *)
Definition obj_size_funcs (type n : Z) : KM Z :=
  if type =? OBJ_untyped then ret (obj_untyped_size n)
  else if type =? OBJ_endpoint then ret (obj_endpoint_size n)
  else if type =? OBJ_caplist then ret (obj_caplist_size n)
  else if type =? OBJ_proc then ret (obj_proc_size n)
  else if type =? OBJ_intr then ret (obj_intr_size n)
  else if type =? OBJ_frame then ret (obj_frame_size n)
  else fail FCall.
Definition obj_init_funcs `{Board} (type o n : Z) : KM Z :=
  if type =? OBJ_untyped then obj_untyped_init o n
  else if type =? OBJ_endpoint then obj_endpoint_init o n
  else if type =? OBJ_caplist then obj_caplist_init o n
  else if type =? OBJ_proc then obj_proc_init o n
  else if type =? OBJ_intr then obj_intr_init o n
  else if type =? OBJ_frame then obj_frame_init o n
  else fail FCall.

(** ** System calls *)
Definition retype_head (o type : Z) : KM unit :=
  put_head o (mk_head 1 type) ;;;
  modify (fun s => set_k_scratch (<[o := 1]> (<[o + 4 := type]> (k_scratch s))) s) ;;;
  modify (fun s => set_k_untyped (delete o (k_untyped s)) s).

Definition sys_obj_retype `{Board} (cid type n : Z) : KM Z :=
  if (type <? 0) || (OBJ_type_n <? type) then ret ERR else
  let* up := get_up in
  let* c := proc_find_cap up cid in
  match c with
  | None => ret ERR
  | Some c =>
    let* v := get_cap c in
    if c_perm v =? 0 then ret ERR else
    let* h := get_head (c_obj v) in
    if negb (h_type h =? OBJ_untyped) then ret ERR else
    let o := c_obj v in
    let* len := obj_size_funcs type n in
    if len =? 0 then ret ERR else
    let* olen := get_untyped o in
    if olen <? len then ret ERR else
    retype_head o type ;;;
    obj_init_funcs type o n
  end.

Definition sys_obj_split (cid nid : Z) : KM Z :=
  let* up := get_up in
  let* c := proc_find_cap up cid in
  match c with
  | None => ret ERR
  | Some c =>
    let* v := get_cap c in
    if negb (ctrue (Z.land (c_perm v) CAP_write)) then ret ERR else
    let* h := get_head (c_obj v) in
    if negb (h_type h =? OBJ_untyped) then ret ERR else
    let* nc := proc_find_cap up nid in
    match nc with
    | None => ret ERR
    | Some nc =>
      let* nv := get_cap nc in
      if negb (c_perm nv =? 0) then ret ERR else
      let o := c_obj v in
      let* olen := get_untyped o in
      let len := Z.shiftr olen 1 in
      if len <? sizeof_untyped then ret ERR else
      let no := u32 (o + len) in
      write_untyped no 1 len ;;;
      write_untyped o 1 len ;;;
      put_cap nc (mk_cap (Z.lor CAP_read CAP_write) no) ;;;
      ret OK
    end
  end.

Definition sys_obj_merge (cid_l cid_h : Z) : KM Z :=
  let* up := get_up in
  let* cl := proc_find_cap up cid_l in
  let* ch := proc_find_cap up cid_h in
  match cl, ch with
  | Some cl, Some ch =>
    let* l := get_cap cl in
    let* h := get_cap ch in
    let* hl := get_head (c_obj l) in
    if negb (h_type hl =? OBJ_untyped) then ret ERR else
    let* hh := get_head (c_obj h) in
    if negb (h_type hh =? OBJ_untyped) then ret ERR else
    if 1 <? h_refs hl then ret ERR else
    if 1 <? h_refs hh then ret ERR else
    let ol := c_obj l in
    let oh := c_obj h in
    let* ll := get_untyped ol in
    let* lh := get_untyped oh in
    if negb (ll =? lh) then ret ERR else
    if negb (u32 (ol + ll) =? oh) then ret ERR else
    (* oh's words stay behind in what is now ol's memory *)
    modify (fun s => set_k_untyped (<[ol := u32 (ll + lh)]> (delete oh (k_untyped s))) s) ;;;
    modify (fun s => set_k_head (delete oh (k_head s)) s) ;;;
    modify (fun s => set_k_scratch (<[ol + 8 := u32 (ll + lh)]> (k_scratch s)) s) ;;;
    put_cap ch cap_empty ;;;
    ret OK
  | _, _ => ret ERR
  end.

(** The [while (true)] loop of sys_obj_create: is [len] a power of two of at
    least a page? *)
Fixpoint create_len (fuel : nat) (mlen len : Z) : option bool :=
  match fuel with
  | O => None
  | S fuel =>
    if len <? mlen then Some false
    else if mlen =? len then Some true
    else create_len fuel (u32 (Z.shiftl mlen 1)) len
  end.

Definition in_range (lo len a : Z) : bool := (lo <=? a) && (a <? lo + len).
(** [memset(o, 0, len)] of the frame at [pa] mapped at [o]: its last byte must
    be mapped too. *)
Definition clear_frame (o pa len : Z) : KM unit :=
  let* _ := read FNil (fun s => kernel_pa (k_mach s) (o + len - 1)) in
  modify (fun s => set_k_scratch (filter (fun x => negb (in_range o len x.1)) (k_scratch s)) s) ;;;
  upd_mach (fun m => set_m_pmem (filter (fun x => negb (in_range pa len x.1)) (m_pmem m)) m).

Definition sys_obj_create (fid nid : Z) : KM Z :=
  let* up := get_up in
  let* fc := proc_find_cap up fid in
  let* nc := proc_find_cap up nid in
  match fc, nc with
  | Some fc, Some nc =>
    let* nv := get_cap nc in
    if negb (c_perm nv =? 0) then ret ERR else
    let* fv := get_cap fc in
    if negb (ctrue (Z.land (c_perm fv) CAP_write)) || negb (ctrue (Z.land (c_perm fv) CAP_read)) then ret ERR else
    let* h := get_head (c_obj fv) in
    if negb (h_type h =? OBJ_frame) then ret ERR else
    let* f := get_frame (c_obj fv) in
    if negb (f_type f =? FRAME_MEM) then ret ERR else
    let* ok := opt (create_len 33 0x1000 (f_len f)) in
    if negb ok then ret ERR else
    let* o := kernel_map (f_pa f) (f_len f) true in
    if o =? NIL then ret ERR else
    clear_frame o (f_pa f) (f_len f) ;;;
    write_untyped o 0 (f_len f) ;;;
    obj_untyped_init o (f_len f) ;;;
    put_cap nc (mk_cap (Z.lor CAP_write CAP_read) o) ;;;
    upd_frame (c_obj fv) (set_f_type FRAME_KOBJ) ;;;
    put_cap fc cap_empty ;;;
    ret OK
  | _, _ => ret ERR
  end.

(** ** The invariant of the object memory *)
Definition obj_size (s : kstate) (a : Z) (h : obj_head) : Z :=
  if h_type h =? OBJ_untyped then default 0 (k_untyped s !! a)
  else if h_type h =? OBJ_endpoint then sizeof_endpoint
  else if h_type h =? OBJ_caplist then sizeof_caplist
  else if h_type h =? OBJ_proc then sizeof_proc
  else if h_type h =? OBJ_intr then sizeof_intr
  else sizeof_frame.

(** Every object lies in the address space, no two overlap, untyped objects are
    large enough for their own header, and the right to untyped memory is
    linear: one capability at most refers to a block. *)
Record obj_inv (s : kstate) : Prop := {
  oi_caps : caps_ok s;
  oi_range : forall a h, k_head s !! a = Some h -> 0 < a /\ a + obj_size s a h <= 2 ^ 32;
  oi_untyped : forall a h, k_head s !! a = Some h -> h_type h = OBJ_untyped ->
    exists n, k_untyped s !! a = Some n /\ sizeof_untyped <= n;
  oi_disjoint : forall a b h h', k_head s !! a = Some h -> k_head s !! b = Some h' -> a < b ->
    a + obj_size s a h <= b;
  oi_list : forall a, is_Some (k_caplist s !! a) -> exists h, k_head s !! a = Some h /\ h_type h = OBJ_caplist;
  oi_linear : forall r r' c c' h, cap_lookup r s = Some c -> cap_lookup r' s = Some c' ->
    c_perm c <> 0 -> c_perm c' <> 0 -> c_obj c = c_obj c' ->
    k_head s !! c_obj c = Some h -> h_type h = OBJ_untyped -> r = r'
}.

Section obj_inv.
Implicit Types (s : kstate) (r : capref) (c : cap) (h : obj_head).

Lemma obj_size_untyped s a h n :
  h_type h = OBJ_untyped -> k_untyped s !! a = Some n -> obj_size s a h = n.
Proof. intros Ht Hn. unfold obj_size. by rewrite Ht, Hn. Qed.

Lemma obj_size_pos s a h : obj_inv s -> k_head s !! a = Some h -> 0 < obj_size s a h.
Proof.
  intros Hi Ha. destruct (Z.eq_dec (h_type h) OBJ_untyped) as [Ht|Ht].
  - destruct (oi_untyped s Hi a h Ha Ht) as (n & Hn & Hl). rewrite (obj_size_untyped s a h n) by done.
    unfold sizeof_untyped in Hl. lia.
  - unfold obj_size. rewrite (proj2 (Z.eqb_neq _ _) Ht). repeat case_match; done.
Qed.

(** The object a capability with rights refers to. *)
Lemma cap_object s r c : obj_inv s -> cap_lookup r s = Some c -> c_perm c <> 0 ->
  exists h, k_head s !! c_obj c = Some h.
Proof. intros Hi Hc Hp. exact (co_obj s (oi_caps s Hi) r c Hc Hp). Qed.
End obj_inv.

(** ** Splitting *)

(** The state after the block [o] has been cut into halves of [len] bytes, the
    right to the upper half being put in slot [nc]. *)
Definition split_state (s : kstate) (nc : capref) (o len : Z) : kstate :=
  let scr := <[o + len := 1]> (<[o + len + 4 := OBJ_untyped]> (<[o + len + 8 := len]> (k_scratch s))) in
  mk_kstate
    (<[o := mk_head 1 OBJ_untyped]> (<[o + len := mk_head 1 OBJ_untyped]> (k_head s)))
    (<[o := len]> (<[o + len := len]> (k_untyped s)))
    (k_endpoint s)
    (alter (zupd nc.2 (mk_cap (Z.lor CAP_read CAP_write) (o + len))) nc.1 (k_caplist s))
    (k_proc s) (k_intr s) (k_frame s)
    (<[o := 1]> (<[o + 4 := OBJ_untyped]> (<[o + 8 := len]> scr)))
    (k_ready s) (k_up s) (k_nextpid s) (k_procs s) (k_mach s).

(** When a split is possible. *)
Record can_split (s : kstate) (root cid nid : Z) (nc : capref) (o n : Z) : Prop := {
  cs_from : exists r c h, resolves s root cid r /\ cap_lookup r s = Some c /\ has_perm c CAP_write /\
    c_obj c = o /\ k_head s !! o = Some h /\ h_type h = OBJ_untyped;
  cs_len : k_untyped s !! o = Some n /\ 2 * sizeof_untyped <= n;
  cs_to : exists v, resolves s root nid nc /\ cap_lookup nc s = Some v /\ c_perm v = 0
}.

Section split.
Variables (s : kstate) (root cid nid : Z) (nc : capref) (o n : Z).
Hypothesis Hinv : obj_inv s.
Hypothesis Hcan : can_split s root cid nid nc o n.
Let len := n / 2.
Let s' := split_state s nc o len.

Lemma split_len : sizeof_untyped <= len /\ 2 * len <= n.
Proof. destruct Hcan as [_ [_ Hn] _]. unfold len, sizeof_untyped in *. Z.div_mod_to_equations. lia. Qed.

Lemma split_old : exists h, k_head s !! o = Some h /\ h_type h = OBJ_untyped /\ obj_size s o h = n.
Proof.
  destruct Hcan as [(r & c & h & _ & _ & _ & _ & Hh & Ht) [Hn _] _]. exists h.
  split; [done|]. split; [done|]. by apply obj_size_untyped.
Qed.

(** The upper half is fresh: no object starts inside the block. *)
Lemma split_inside a : o < a < o + n -> k_head s !! a = None.
Proof.
  intros Ha. destruct split_old as (h & Hh & Ht & Hs). destruct (k_head s !! a) as [h'|] eqn:E; [|done].
  pose proof (oi_disjoint s Hinv o a h h' Hh E). lia.
Qed.

Lemma split_fresh : k_head s !! (o + len) = None.
Proof. apply split_inside. pose proof split_len as [H1 H2]. unfold sizeof_untyped in *. lia. Qed.

(** An object of the state after the split. *)
Lemma split_head a h : k_head s' !! a = Some h ->
  (a = o /\ h_type h = OBJ_untyped /\ obj_size s' a h = len) \/
  (a = o + len /\ h_type h = OBJ_untyped /\ obj_size s' a h = len) \/
  (a <> o /\ a <> o + len /\ k_head s !! a = Some h /\ obj_size s' a h = obj_size s a h).
Proof.
  pose proof split_len as [H1 H2]. unfold sizeof_untyped in *. unfold s', split_state. cbn. intros Ha.
  destruct (decide (a = o)) as [->|Hne].
  { left. rewrite lookup_insert_eq in Ha. simplify_eq. unfold obj_size; cbn. by rewrite lookup_insert_eq. }
  rewrite lookup_insert_ne in Ha by done. destruct (decide (a = o + len)) as [->|Hne'].
  { right; left. rewrite lookup_insert_eq in Ha. simplify_eq. unfold obj_size; cbn.
    rewrite lookup_insert_ne by lia. by rewrite lookup_insert_eq. }
  rewrite lookup_insert_ne in Ha by done. right; right. split_and!; [done..|].
  unfold obj_size; cbn. by rewrite !lookup_insert_ne by done.
Qed.

Lemma split_caps r c : cap_lookup r s' = Some c ->
  (r = nc /\ c = mk_cap (Z.lor CAP_read CAP_write) (o + len)) \/ (r <> nc /\ cap_lookup r s = Some c).
Proof.
  intros Hc. assert (E : cap_lookup r s' = if decide (nc = r) then (fun _ => mk_cap (Z.lor CAP_read CAP_write) (o + len)) <$> cap_lookup nc s
    else cap_lookup r s) by exact (cap_lookup_put nc _ r s). rewrite E in Hc.
  case_decide; [left|right; by auto]. destruct (cap_lookup nc s); naive_solver.
Qed.

Lemma split_caps_ok : caps_ok s'.
Proof.
  destruct (oi_caps s Hinv) as [Hlen Htype Hobj]. constructor.
  - by apply alter_lengths.
  - intros a h Ha Ht. cbn. assert (Hs : is_Some (k_caplist s !! a)).
    { destruct (split_head a h Ha) as [(_ & E & _)|[(_ & E & _)|(_ & _ & E & _)]];
        [by rewrite E in Ht..|by eapply Htype]. }
    rewrite lookup_alter. case_decide; [|done]. subst a. destruct Hs as [l ->]. by eexists.
  - intros r c Hc Hp. cbn. destruct (split_caps r c Hc) as [[-> ->]|[_ Hc']].
    + cbn. rewrite lookup_insert_ne, lookup_insert_eq; [by eexists|].
      pose proof split_len as [H1 _]. unfold sizeof_untyped in *. lia.
    + rewrite !lookup_insert_is_Some'. right. right. by eapply Hobj.
Qed.

(** An object other than the block lies below it or above it. *)
Lemma split_outside a h : a <> o -> k_head s !! a = Some h ->
  a + obj_size s a h <= o \/ o + n <= a.
Proof.
  intros Hne Ha. destruct split_old as (h0 & Hh & Ht & Hs). destruct (Z.lt_ge_cases a o) as [Hlt|Hge].
  - left. by apply (oi_disjoint s Hinv a o h h0).
  - right. rewrite <-Hs. apply (oi_disjoint s Hinv o a h0 h); [done..|lia].
Qed.

Lemma split_disjoint a b h h' : k_head s' !! a = Some h -> k_head s' !! b = Some h' -> a < b ->
  a + obj_size s' a h <= b.
Proof.
  pose proof split_len as [H1 H2]. unfold sizeof_untyped in *. intros Ha Hb Hlt.
  destruct (split_head a h Ha) as [(-> & _ & ->)|[(-> & _ & ->)|(A1 & A2 & A3 & ->)]];
    destruct (split_head b h' Hb) as [(-> & _ & _)|[(-> & _ & _)|(B1 & B2 & B3 & _)]]; try lia.
  - destruct (split_outside b h' B1 B3); [|lia]. pose proof (obj_size_pos s b h' Hinv B3). lia.
  - destruct (split_outside b h' B1 B3); [|lia]. pose proof (obj_size_pos s b h' Hinv B3). lia.
  - destruct (split_outside a h A1 A3); lia.
  - destruct (split_outside a h A1 A3); lia.
  - by apply (oi_disjoint s Hinv a b h h').
Qed.

Lemma split_inv : obj_inv s'.
Proof.
  pose proof split_len as [H1 H2]. destruct split_old as (h0 & Hh & Ht & Hs).
  destruct (oi_range s Hinv o h0 Hh) as [R1 R2]. rewrite Hs in R2. constructor.
  - apply split_caps_ok.
  - intros a h Ha. unfold sizeof_untyped in *.
    destruct (split_head a h Ha) as [(-> & _ & ->)|[(-> & _ & ->)|(A1 & A2 & A3 & ->)]]; [lia|lia|].
    by apply (oi_range s Hinv).
  - intros a h Ha Hty. unfold s', split_state; cbn. rewrite lookup_insert. case_decide; [by eexists|].
    rewrite lookup_insert. case_decide; [by eexists|].
    destruct (split_head a h Ha) as [(-> & _)|[(-> & _)|(A1 & A2 & A3 & _)]]; [done..|].
    by apply (oi_untyped s Hinv a h).
  - apply split_disjoint.
  - intros a. cbn. rewrite lookup_alter_is_Some. intros Hl. destruct (oi_list s Hinv a Hl) as (h & Ha & Hty).
    exists h. split; [|done]. assert (a <> o) by (intros ->; assert (h = h0) as -> by congruence; rewrite Ht in Hty; discriminate Hty).
    pose proof split_fresh. by rewrite !lookup_insert_ne by congruence.
  - intros r r' c c' h Hc Hc' Hp Hp' Hobj Hho Hty.
    destruct (split_caps r c Hc) as [[-> ->]|[Hn Hc1]], (split_caps r' c' Hc') as [[-> ->]|[Hn' Hc1']].
    + done.
    + destruct (cap_object s r' c' Hinv Hc1' Hp') as [h' Hh']. cbn in Hobj. rewrite <-Hobj, split_fresh in Hh'. done.
    + destruct (cap_object s r c Hinv Hc1 Hp) as [h' Hh']. cbn in Hobj. rewrite Hobj, split_fresh in Hh'. done.
    + destruct (cap_object s r c Hinv Hc1 Hp) as [h' Hh'].
      apply (oi_linear s Hinv r r' c c' h'); try done.
      destruct (split_head _ h Hho) as [(E & _)|[(E & _)|(_ & _ & E & _)]]; [..|congruence].
      * rewrite E, Hh in Hh'. congruence.
      * rewrite E, split_fresh in Hh'. done.
Qed.
End split.

Lemma sys_obj_split_spec (s : kstate) (root cid nid : Z)
    (Hinv : obj_inv s) (Hup : runs_with s root) (Hcid : cid_ok cid) (Hnid : cid_ok nid) :
  wp (sys_obj_split cid nid) s (fun r s' => obj_inv s' /\
    ((r = ERR /\ s' = s /\ forall nc o n, ~ can_split s root cid nid nc o n) \/
     (r = OK /\ exists nc o n, can_split s root cid nid nc o n /\ s' = split_state s nc o (n / 2)))).
Proof.
  assert (HE : (forall nc o n, ~ can_split s root cid nid nc o n) -> obj_inv s /\
    ((ERR = ERR /\ s = s /\ forall nc o n, ~ can_split s root cid nid nc o n) \/
     (ERR = OK /\ exists nc o n, can_split s root cid nid nc o n /\ s = split_state s nc o (n / 2)))) by auto.
  pose proof (oi_caps s Hinv) as Hok. unfold sys_obj_split. kstep. kstep. kstep.
  eapply wpe_find; [done..| |].
  2: { intros Hno. apply HE. intros nc o n [(r & c & h & Hr & _) _ _]. by eapply Hno. }
  intros rc c Hrc Hc. ksteps.
  { apply HE. apply negb_true_iff in Hb. intros nc o n [(r & c' & h & Hr & Hc' & Hp & _) _ _].
    assert (r = rc) as -> by by eapply resolves_det. simplify_eq. apply has_write in Hp. congruence. }
  apply negb_false_iff, has_write in Hb.
  destruct (cap_object s rc c) as [h Hh]; [done..|by apply (has_perm_nonzero c CAP_write)|].
  ksteps; bdestruct_all.
  { apply HE. intros nc o n [(r & c' & h' & Hr & Hc' & Hp & <- & Hh' & Ht) _ _].
    assert (r = rc) as -> by by eapply resolves_det. by simplify_eq. }
  eapply wpe_find; [done..| |].
  2: { intros Hno. apply HE. intros nc o n [_ _ (v & Hv & _)]. by eapply Hno. }
  intros nc nv Hnc Hnv. destruct (oi_untyped s Hinv _ h Hh) as (n & Hn & Hn12); [done|].
  ksteps; bdestruct_all.
  { apply HE. intros nc' o n' [_ _ (v & Hv & Hv' & Hv0)].
    assert (nc' = nc) as -> by by eapply resolves_det. by simplify_eq. }
  { apply HE. intros nc' o n' [(r & c' & h' & Hr & Hc' & Hp & <- & Hh' & Ht) [Hn' Hl] _].
    assert (r = rc) as -> by by eapply resolves_det. simplify_eq.
    rewrite Z.shiftr_div_pow2 in * by lia. unfold sizeof_untyped in *. Z.div_mod_to_equations. lia. }
  assert (Hcan : can_split s root cid nid nc (c_obj c) n).
  { constructor; [by exists rc, c, h| |by exists nv]. split; [done|].
    rewrite Z.shiftr_div_pow2 in * by lia. unfold sizeof_untyped in *. Z.div_mod_to_equations. lia. }
  destruct (split_old s root cid nid nc (c_obj c) n Hcan) as (h' & Hh' & Ht & Hs).
  destruct (oi_range s Hinv _ _ Hh') as [R1 R2]. rewrite Hs in R2.
  destruct (split_len s root cid nid nc (c_obj c) n Hcan) as [L1 L2].
  change (Z.shiftr n 1) with (Z.div2 n). rewrite Z.div2_div in *. rewrite u32_small by (unfold sizeof_untyped in *; lia).
  unfold write_untyped, put_head. ksteps.
  lazymatch goal with |- obj_inv ?t /\ _ => change t with (split_state s nc (c_obj c) (n / 2)) end.
  split; [by eapply split_inv|]. right. split; [done|]. by exists nc, (c_obj c), n.
Qed.

(** C11: Splitting succeeds exactly when the first identifier names a block of
    untyped memory the caller may write, of at least two headers' length, and the
    second an empty slot; then the block is cut in two halves and the slot holds
    the right to the upper one.  In every other case nothing changes; and in
    each case objects still do not overlap and the rights to untyped memory are
    still linear. *)
Theorem sys_obj_split_correct (s : kstate) (root cid nid : Z)
    (Hinv : obj_inv s) (Hup : runs_with s root) (Hcid : cid_ok cid) (Hnid : cid_ok nid) :
  wp (sys_obj_split cid nid) s (fun r s' => obj_inv s' /\
    ((r = ERR /\ s' = s /\ forall nc o n, ~ can_split s root cid nid nc o n) \/
     (r = OK /\ exists nc o n, can_split s root cid nid nc o n /\ s' = split_state s nc o (n / 2)))).
Proof. by apply sys_obj_split_spec. Qed.

Lemma demo_runs : runs_with demo 0x3000.
Proof. exists (demo_proc 1 0x3000 PROC_ready). split; [reflexivity|]. split; [done|]. by eexists. Qed.

(** The checks of [obj_inv] on a concrete state. *)
Definition all_caps (s : kstate) : list (capref * cap) :=
  '(a, l) ← map_to_list (k_caplist s); imap (fun i c => ((a, Z.of_nat i), c)) l.
Definition untyped_cap (s : kstate) (c : cap) : bool :=
  negb (c_perm c =? 0) && match k_head s !! c_obj c with Some h => h_type h =? OBJ_untyped | None => false end.
Definition obj_invb (s : kstate) : bool :=
  caps_okb s &&
  bool_decide (map_Forall (fun a h => 0 < a /\ a + obj_size s a h <= 2 ^ 32) (k_head s)) &&
  bool_decide (map_Forall (fun a h => h_type h = OBJ_untyped ->
    sizeof_untyped <= default 0 (k_untyped s !! a)) (k_head s)) &&
  bool_decide (map_Forall (fun a h => map_Forall (fun b _ => a < b -> a + obj_size s a h <= b) (k_head s)) (k_head s)) &&
  bool_decide (map_Forall (fun a _ => OBJ_caplist = default 0 (h_type <$> k_head s !! a)) (k_caplist s)) &&
  bool_decide (NoDup (c_obj ∘ snd <$> filter (fun x => untyped_cap s x.2 = true) (all_caps s))).

Lemma all_caps_lookup s r c : cap_lookup r s = Some c -> (r, c) ∈ all_caps s.
Proof.
  destruct r as [a i]. unfold cap_lookup, all_caps. cbn. destruct (k_caplist s !! a) as [l|] eqn:Hl; [|done].
  cbn. intros [Hi Hc]%znth_lookup. apply list_elem_of_bind. exists (a, l). split; [|by apply elem_of_map_to_list].
  apply list_elem_of_lookup. exists (Z.to_nat i). rewrite list_lookup_imap, Hc. cbn. by rewrite Z2Nat.id.
Qed.

Lemma NoDup_fmap_elem {A B} (f : A -> B) (l : list A) x y :
  NoDup (f <$> l) -> x ∈ l -> y ∈ l -> f x = f y -> x = y.
Proof.
  intros Hn [i Hx]%list_elem_of_lookup [j Hy]%list_elem_of_lookup Hf.
  assert (i = j) as ->; [|congruence]. eapply NoDup_lookup; [exact Hn|..]; rewrite list_lookup_fmap.
  - by rewrite Hx.
  - by rewrite Hy, Hf.
Qed.

Lemma obj_invb_sound s : obj_invb s = true -> obj_inv s.
Proof.
  unfold obj_invb. intros [[[[[H1 H2]%andb_prop H3]%andb_prop H4]%andb_prop H6]%andb_prop H5]%andb_prop.
  apply bool_decide_eq_true in H2, H3, H4, H5, H6. pose proof (caps_okb_sound s H1) as Hok. constructor.
  - done.
  - exact H2.
  - intros a h Ha Ht. specialize (H3 a h Ha Ht). destruct (k_untyped s !! a) as [n|]; [by exists n|].
    unfold sizeof_untyped in H3. cbn in H3. lia.
  - intros a b h h' Ha Hb. exact (H4 a h Ha b h' Hb).
  - intros a [l Hl]. specialize (H6 a l Hl). cbn beta in H6. destruct (k_head s !! a) as [h|]; [|discriminate H6].
    exists h. split; [done|]. symmetry. exact H6.
  - intros r r' c c' h Hc Hc' Hp Hp' Hobj Hh Ht.
    assert (Hin : forall r c, cap_lookup r s = Some c -> c_perm c <> 0 -> k_head s !! c_obj c = Some h ->
      (r, c) ∈ filter (fun x => untyped_cap s x.2 = true) (all_caps s)).
    { intros r0 c0 ? ? E. apply list_elem_of_filter. split; [|by apply all_caps_lookup].
      unfold untyped_cap. cbn. rewrite (proj2 (Z.eqb_neq _ _)), E by done. cbn. by apply Z.eqb_eq. }
    assert ((r, c) = (r', c')) as E; [|by simplify_eq].
    eapply NoDup_fmap_elem; [exact H5|by apply Hin|apply Hin; [done..|congruence]|done].
Qed.

Lemma demo_obj_inv : obj_inv demo.
Proof. apply obj_invb_sound. by vm_compute. Qed.

Lemma sys_obj_split_correct_witness :
  wp (sys_obj_split 0x3000 0x1000) demo (fun r s' => obj_inv s' /\
    ((r = ERR /\ s' = demo /\ forall nc o n, ~ can_split demo 0x3000 0x3000 0x1000 nc o n) \/
     (r = OK /\ exists nc o n, can_split demo 0x3000 0x3000 0x1000 nc o n /\ s' = split_state demo nc o (n / 2)))).
Proof. apply sys_obj_split_correct; [exact demo_obj_inv|exact demo_runs|done|done]. Defined.

(** ** Merging *)

(** The state after the blocks [ol] and [oh], of [n] bytes each, have become
    one, the right to the upper one being dropped from slot [ch]. *)
Definition merge_state (s : kstate) (ch : capref) (ol oh n : Z) : kstate :=
  mk_kstate (delete oh (k_head s)) (<[ol := n + n]> (delete oh (k_untyped s)))
    (k_endpoint s) (alter (zupd ch.2 cap_empty) ch.1 (k_caplist s)) (k_proc s) (k_intr s) (k_frame s)
    (<[ol + 8 := n + n]> (k_scratch s)) (k_ready s) (k_up s) (k_nextpid s) (k_procs s) (k_mach s).

(** A right to unshared untyped memory of [n] bytes at [o]. *)
Definition owns_block (s : kstate) (root cid : Z) (r : capref) (o n : Z) : Prop :=
  exists c h, resolves s root cid r /\ cap_lookup r s = Some c /\ c_perm c <> 0 /\ c_obj c = o /\
    k_head s !! o = Some h /\ h_type h = OBJ_untyped /\ h_refs h <= 1 /\ k_untyped s !! o = Some n.
Record can_merge (s : kstate) (root cid_l cid_h : Z) (ch : capref) (ol n : Z) : Prop := {
  cm_low : exists cl, owns_block s root cid_l cl ol n;
  cm_high : owns_block s root cid_h ch (ol + n) n
}.

(** The slots the call names are not empty. *)
Definition full_slot (s : kstate) (root cid : Z) : Prop :=
  forall r c, resolves s root cid r -> cap_lookup r s = Some c -> c_perm c <> 0.

Lemma owns_block_det s root cid r o n r' o' n' :
  owns_block s root cid r o n -> owns_block s root cid r' o' n' -> r = r' /\ o = o' /\ n = n'.
Proof.
  intros (c & h & Hr & Hc & _ & <- & _ & _ & _ & Hn) (c' & h' & Hr' & Hc' & _ & <- & _ & _ & _ & Hn').
  assert (r = r') as -> by by eapply resolves_det. by simplify_eq.
Qed.

Section merge.
Variables (s : kstate) (root cid_l cid_h : Z) (ch : capref) (ol n : Z).
Hypothesis Hinv : obj_inv s.
Hypothesis Hcan : can_merge s root cid_l cid_h ch ol n.
Let oh := ol + n.
Let s' := merge_state s ch ol oh n.

Lemma merge_low : exists h, k_head s !! ol = Some h /\ h_type h = OBJ_untyped /\ obj_size s ol h = n.
Proof.
  destruct Hcan as [(cl & c & h & _ & _ & _ & <- & Hh & Ht & _ & Hn) _]. exists h.
  split_and!; [done|done|by apply obj_size_untyped].
Qed.

Lemma merge_high : exists h, k_head s !! oh = Some h /\ h_type h = OBJ_untyped /\ obj_size s oh h = n.
Proof.
  destruct Hcan as [_ (c & h & _ & _ & _ & E & Hh & Ht & _ & Hn)]. exists h. fold oh in E, Hh, Hn.
  split_and!; [done|done|by apply obj_size_untyped].
Qed.

Lemma merge_pos : sizeof_untyped <= n /\ 0 < ol /\ oh + n <= 2 ^ 32.
Proof.
  destruct merge_low as (h & Hh & Ht & Hs). destruct (oi_untyped s Hinv _ _ Hh Ht) as (n' & Hn' & Hl).
  rewrite (obj_size_untyped s ol h n') in Hs by done. subst n'. split; [done|].
  destruct (oi_range s Hinv _ _ Hh). split; [done|].
  destruct merge_high as (h' & Hh' & Ht' & Hs'). destruct (oi_range s Hinv _ _ Hh') as [_ R]. lia.
Qed.

Lemma merge_head a h : k_head s' !! a = Some h -> a <> oh /\ k_head s !! a = Some h /\
  obj_size s' a h = if decide (a = ol) then n + n else obj_size s a h.
Proof.
  pose proof merge_pos as [H1 H2]. unfold sizeof_untyped in *.
  unfold s', merge_state. cbn. intros [Hne Ha]%lookup_delete_Some. split; [done|]. split; [done|].
  unfold obj_size; cbn. rewrite lookup_insert, lookup_delete_ne by done. case_decide as E.
  - subst a. rewrite decide_True by done. destruct merge_low as (h' & Hh & Ht & _). simplify_eq. by rewrite Ht.
  - by rewrite decide_False by done.
Qed.

Lemma merge_caps r c : cap_lookup r s' = Some c ->
  (r = ch /\ c = cap_empty) \/ (r <> ch /\ cap_lookup r s = Some c).
Proof.
  intros Hc. assert (E : cap_lookup r s' = if decide (ch = r) then (fun _ => cap_empty) <$> cap_lookup ch s
    else cap_lookup r s) by exact (cap_lookup_put ch _ r s). rewrite E in Hc.
  case_decide; [left|right; by auto]. destruct (cap_lookup ch s); naive_solver.
Qed.

(** No capability is left that refers to the upper block. *)
Lemma merge_unreferenced r c : r <> ch -> cap_lookup r s = Some c -> c_perm c <> 0 -> c_obj c <> oh.
Proof.
  intros Hne Hc Hp E. destruct Hcan as [_ (c' & h & _ & Hc' & Hp' & E' & Hh & Ht & _)]. apply Hne.
  fold oh in E', Hh. apply (oi_linear s Hinv r ch c c' h); congruence.
Qed.

Lemma merge_inv : obj_inv s'.
Proof.
  pose proof merge_pos as (P1 & P2 & P3). destruct merge_low as (hl & Hl & Htl & Hsl).
  destruct merge_high as (hh & Hh & Hth & Hsh). constructor.
  - destruct (oi_caps s Hinv) as [Clen Ctype Cobj]. constructor.
    + by apply alter_lengths.
    + intros a h (_ & Ha & _)%merge_head Ht. cbn. rewrite lookup_alter.
      destruct (Ctype a h Ha Ht) as [l E]. case_decide; subst; rewrite ?E; by eexists.
    + intros r c Hc Hp. destruct (merge_caps r c Hc) as [[-> ->]|[Hne Hc']]; [done|]. cbn.
      rewrite lookup_delete_ne; [by eapply Cobj|]. apply not_eq_sym. by eapply merge_unreferenced.
  - intros a h (Hne & Ha & ->)%merge_head. destruct (oi_range s Hinv a h Ha). case_decide; [subst; unfold oh in *; lia|done].
  - intros a h (Hne & Ha & _)%merge_head Ht. cbn. rewrite lookup_insert. case_decide.
    + eexists. split; [done|]. unfold sizeof_untyped in *. lia.
    + rewrite lookup_delete_ne by done. by apply (oi_untyped s Hinv a h).
  - intros a b h h' (Hna & Ha & ->)%merge_head (Hnb & Hb & _)%merge_head Hlt. case_decide as E.
    + subst a. pose proof (oi_disjoint s Hinv _ _ _ _ Hl Hb Hlt) as D1. rewrite Hsl in D1.
      pose proof (oi_disjoint s Hinv oh b hh h' Hh Hb) as D2. unfold oh in *. lia.
    + by apply (oi_disjoint s Hinv a b h h').
  - intros a. cbn. rewrite lookup_alter_is_Some. intros Ha. destruct (oi_list s Hinv a Ha) as (h & Hha & Hty).
    exists h. split; [|done]. rewrite lookup_delete_ne; [done|]. intros <-.
    assert (h = hh) as -> by congruence. rewrite Hth in Hty. discriminate Hty.
  - intros r r' c c' h Hc Hc' Hp Hp' Hobj (_ & Hho & _)%merge_head Hty.
    destruct (merge_caps r c Hc) as [[-> ->]|[_ Hc1]]; [done|].
    destruct (merge_caps r' c' Hc') as [[-> ->]|[_ Hc1']]; [done|]. by eapply (oi_linear s Hinv).
Qed.
End merge.

Lemma sys_obj_merge_spec (s : kstate) (root cid_l cid_h : Z)
    (Hinv : obj_inv s) (Hup : runs_with s root) (Hl : cid_ok cid_l) (Hh : cid_ok cid_h)
    (Hfl : full_slot s root cid_l) (Hfh : full_slot s root cid_h) :
  wp (sys_obj_merge cid_l cid_h) s (fun r s' => obj_inv s' /\
    ((r = ERR /\ s' = s /\ forall ch ol n, ~ can_merge s root cid_l cid_h ch ol n) \/
     (r = OK /\ exists ch ol n, can_merge s root cid_l cid_h ch ol n /\ s' = merge_state s ch ol (ol + n) n))).
Proof.
  assert (HE : (forall ch ol n, ~ can_merge s root cid_l cid_h ch ol n) -> obj_inv s /\
    ((ERR = ERR /\ s = s /\ forall ch ol n, ~ can_merge s root cid_l cid_h ch ol n) \/
     (ERR = OK /\ exists ch ol n, can_merge s root cid_l cid_h ch ol n /\ s = merge_state s ch ol (ol + n) n))) by auto.
  pose proof (oi_caps s Hinv) as Hok. unfold sys_obj_merge. do 3 kstep.
  assert (Hno : forall cid, (forall r, ~ resolves s root cid r) -> forall r o n, ~ owns_block s root cid r o n).
  { intros cid Hc r o n (c & h & Hr & _). by eapply Hc. }
  eapply wpe_find; [done..| |]; [intros rl cl Hrl Hcl|intros Hnl]; kstep;
    (eapply wpe_find; [done..| |]; [intros rh ch Hrh Hch|intros Hnh]).
  2: { apply wpe_ret, HE. intros ch ol n [_ H]. exact (Hno cid_h Hnh _ _ _ H). }
  2, 3: apply wpe_ret, HE; intros ? ol n [(? & H) _]; exact (Hno cid_l Hnl _ _ _ H).
  destruct (cap_object s rl cl Hinv Hcl) as [hl Hhl]; [by eapply Hfl|].
  destruct (cap_object s rh ch Hinv Hch) as [hh Hhh]; [by eapply Hfh|].
  assert (HL : forall r o n, owns_block s root cid_l r o n ->
    o = c_obj cl /\ h_type hl = OBJ_untyped /\ h_refs hl <= 1 /\ k_untyped s !! c_obj cl = Some n).
  { intros r o n (c & h & Hr & Hc & _ & <- & Hhd & Ht & Hrf & Hn). assert (r = rl) as -> by by eapply resolves_det.
    by simplify_eq. }
  assert (HH : forall r o n, owns_block s root cid_h r o n ->
    o = c_obj ch /\ h_type hh = OBJ_untyped /\ h_refs hh <= 1 /\ k_untyped s !! c_obj ch = Some n).
  { intros r o n (c & h & Hr & Hc & _ & <- & Hhd & Ht & Hrf & Hn). assert (r = rh) as -> by by eapply resolves_det.
    by simplify_eq. }
  do 4 (kstep; cbn beta). ksteps; bdestruct_all.
  1: { apply HE. intros r o n [[? H] _]. apply HL in H. naive_solver. }
  1: { apply HE. intros r o n [_ H]. apply HH in H. naive_solver. }
  1: { apply HE. intros r o n [[? H] _]. apply HL in H. lia. }
  1: { apply HE. intros r o n [_ H]. apply HH in H. lia. }
  destruct (oi_untyped s Hinv _ hl Hhl) as (nl & Hnl & Hnl12); [done|].
  destruct (oi_untyped s Hinv _ hh Hhh) as (nh & Hnh & Hnh12); [done|].
  destruct (oi_range s Hinv _ _ Hhl) as [R1 R2]. rewrite (obj_size_untyped s _ hl nl) in R2 by done.
  destruct (oi_range s Hinv _ _ Hhh) as [R3 R4]. rewrite (obj_size_untyped s _ hh nh) in R4 by done.
  ksteps; bdestruct_all.
  1: { apply HE. intros r o n [[? H] H']. apply HL in H. apply HH in H'. naive_solver. }
  1: { apply HE. intros r o n [[? (-> & _ & _ & Hn)%HL] (E & _ & _ & _)%HH]. simplify_eq.
       match goal with H : u32 _ <> _ |- _ => apply H end. rewrite E. apply u32_small.
       unfold sizeof_untyped in *. lia. }
  subst nh. match goal with H : u32 _ = _ |- _ => rename H into Hadj end.
  assert (Hend : c_obj cl + nl = c_obj ch).
  { destruct (Z.eq_dec (c_obj cl + nl) (2 ^ 32)) as [E|]; [|rewrite u32_small in Hadj by (unfold sizeof_untyped in *; lia); done].
    rewrite E in Hadj. change (u32 (2 ^ 32)) with 0 in Hadj. lia. }
  assert (Hcan : can_merge s root cid_l cid_h rh (c_obj cl) nl).
  { constructor; [exists rl; exists cl, hl|rewrite Hend; exists ch, hh]; split_and!; eauto. }
  rewrite (u32_small (nl + nl)) by (unfold sizeof_untyped in *; lia). ksteps.
  lazymatch goal with |- obj_inv ?t /\ _ => change t with (merge_state s rh (c_obj cl) (c_obj ch) nl) end.
  rewrite <-Hend. split; [by eapply merge_inv|]. right. split; [done|]. by exists rh, (c_obj cl), nl.
Qed.

(** C12: Merging succeeds exactly when both identifiers name unshared blocks of
    untyped memory of the same length, the second starting where the first ends;
    then the first has both halves' memory and the right to the second is gone.
    In every other case nothing changes; in each case objects still do not overlap
    and the rights to untyped memory are still linear.  The slots that the identifiers
    name are not empty: for those see [sys_obj_merge_empty]. *)
Theorem sys_obj_merge_correct (s : kstate) (root cid_l cid_h : Z)
    (Hinv : obj_inv s) (Hup : runs_with s root) (Hl : cid_ok cid_l) (Hh : cid_ok cid_h)
    (Hfl : full_slot s root cid_l) (Hfh : full_slot s root cid_h) :
  wp (sys_obj_merge cid_l cid_h) s (fun r s' => obj_inv s' /\
    ((r = ERR /\ s' = s /\ forall ch ol n, ~ can_merge s root cid_l cid_h ch ol n) \/
     (r = OK /\ exists ch ol n, can_merge s root cid_l cid_h ch ol n /\ s' = merge_state s ch ol (ol + n) n))).
Proof. by apply sys_obj_merge_spec. Qed.

Lemma full_slot_intro s root cid r c :
  resolves s root cid r -> cap_lookup r s = Some c -> c_perm c <> 0 -> full_slot s root cid.
Proof. intros Hr Hc Hp r' c' Hr' Hc'. assert (r' = r) as -> by by eapply resolves_det. by simplify_eq. Qed.

Lemma sys_obj_merge_correct_witness :
  wp (sys_obj_merge 0x7000 0x8000) demo (fun r s' => obj_inv s' /\
    ((r = ERR /\ s' = demo /\ forall ch ol n, ~ can_merge demo 0x3000 0x7000 0x8000 ch ol n) \/
     (r = OK /\ exists ch ol n, can_merge demo 0x3000 0x7000 0x8000 ch ol n /\ s' = merge_state demo ch ol (ol + n) n))).
Proof.
  apply sys_obj_merge_correct; [exact demo_obj_inv|exact demo_runs|done|done|..].
  - eapply (full_slot_intro _ _ _ (0x3000, 7)); [by apply (resolves_root _ _ 7)|reflexivity|done].
  - eapply (full_slot_intro _ _ _ (0x3000, 8)); [by apply (resolves_root _ _ 8)|reflexivity|done].
Defined.

(** Merging checks neither identifier for an empty slot before it follows
    the object pointer: a call that names one dereferences nil in the kernel. *)
Theorem sys_obj_merge_empty (s : kstate) (root cid_l cid_h : Z) (rl rh : capref)
    (Hok : caps_ok s) (Hup : runs_with s root) (Hl : cid_ok cid_l) (Hh : cid_ok cid_h)
    (Hnil : k_head s !! NIL = None)
    (Hrl : resolves s root cid_l rl) (Hrh : resolves s root cid_h rh)
    (Hempty : cap_lookup rl s = Some cap_empty) :
  sys_obj_merge cid_l cid_h s = Fault FNil.
Proof.
  destruct (resolves_slot s root cid_h rh Hok) as [ch Hch]; [by destruct Hup as (x & _ & _ & ?)|done|].
  unfold sys_obj_merge, get_up. erewrite bind_ok by reflexivity.
  erewrite bind_ok by by apply (find_runs s root). erewrite bind_ok by by apply (find_runs s root).
  unfold get_cap. erewrite bind_ok by by apply read_ok. erewrite bind_ok by by apply read_ok.
  apply bind_fault. unfold get_head. by apply read_fault.
Qed.

Lemma sys_obj_merge_empty_witness : sys_obj_merge 0x1000 0x3000 demo = Fault FNil.
Proof.
  apply (sys_obj_merge_empty demo 0x3000 0x1000 0x3000 (0x3000, 1) (0x3000, 3));
    [exact (oi_caps _ demo_obj_inv)|exact demo_runs|done|done|reflexivity|..].
  - by apply (resolves_root _ _ 1).
  - by apply (resolves_root _ _ 3).
  - reflexivity.
Defined.

(** *** Splitting and merging again *)
Section split_merge.
Variables (s : kstate) (root cid nid : Z) (nc : capref) (o n : Z).
Hypothesis Hinv : obj_inv s.
Hypothesis Hcan : can_split s root cid nid nc o n.
Let len := n / 2.
Let s1 := split_state s nc o len.

Lemma split_cap_other r : r <> nc -> cap_lookup r s1 = cap_lookup r s.
Proof.
  intros Hne. transitivity (if decide (nc = r) then (fun _ => mk_cap (Z.lor CAP_read CAP_write) (o + len)) <$> cap_lookup nc s
    else cap_lookup r s); [exact (cap_lookup_put nc _ r s)|]. by rewrite decide_False.
Qed.

(** Identifiers stand for the same slots as before. *)
Lemma split_resolves i r : resolves s root i r -> resolves s1 root i r.
Proof.
  destruct Hcan as [_ _ (v & _ & Hv & Hv0)]. intros [base Hb|base sub c h Hb Hs Hc Hp Hh Ht]; [by constructor|].
  eapply (resolves_sub _ _ base sub c h); [done..| |done| |done].
  - rewrite split_cap_other; [done|]. intros <-. assert (c = v) as -> by congruence.
    apply (has_perm_nonzero v CAP_read) in Hp; done.
  - unfold s1, split_state. cbn. pose proof (split_fresh s root cid nid nc o n Hinv Hcan) as Hf. fold len in Hf.
    destruct (split_old s root cid nid nc o n Hcan) as (h0 & Hh0 & Ht0 & _).
    assert (o <> c_obj c) by (intros E; assert (h = h0) as -> by congruence; rewrite Ht0 in Ht; discriminate Ht).
    rewrite !lookup_insert_ne; [done|congruence..].
Qed.

Lemma split_can_merge : can_merge s1 root cid nid nc o len.
Proof.
  pose proof (split_len s root cid nid nc o n Hcan) as [L1 L2]. fold len in L1, L2. unfold sizeof_untyped in L1.
  destruct Hcan as [(r & c & h & Hr & Hc & Hp & Ho & Hh & Ht) _ (v & Hv & Hv' & Hv0)]. constructor.
  - exists r, c, (mk_head 1 OBJ_untyped). split_and!; [by apply split_resolves| | |done| |done|done|].
    + rewrite split_cap_other; [done|]. intros ->. assert (c = v) as -> by congruence.
      apply (has_perm_nonzero v CAP_write) in Hp; done.
    + by apply (has_perm_nonzero c CAP_write).
    + unfold s1, split_state. cbn. by rewrite lookup_insert_eq.
    + unfold s1, split_state. cbn. by rewrite lookup_insert_eq.
  - exists (mk_cap (Z.lor CAP_read CAP_write) (o + len)), (mk_head 1 OBJ_untyped).
    split_and!; [by apply split_resolves| |done|done| |done|done|].
    + transitivity (if decide (nc = nc) then (fun _ => mk_cap (Z.lor CAP_read CAP_write) (o + len)) <$> cap_lookup nc s
        else cap_lookup nc s); [exact (cap_lookup_put nc _ nc s)|]. by rewrite decide_True, Hv'.
    + unfold s1, split_state. cbn. rewrite lookup_insert_ne by lia. by rewrite lookup_insert_eq.
    + unfold s1, split_state. cbn. rewrite lookup_insert_ne by lia. by rewrite lookup_insert_eq.
Qed.

Lemma split_merge_heads : delete (o + len) (k_head s1) = <[o := mk_head 1 OBJ_untyped]> (k_head s).
Proof.
  pose proof (split_len s root cid nid nc o n Hcan) as [L1 L2]. fold len in L1, L2. unfold sizeof_untyped in L1.
  pose proof (split_fresh s root cid nid nc o n Hinv Hcan) as Hf. fold len in Hf.
  unfold s1, split_state. cbn. rewrite delete_insert_ne by lia. by rewrite delete_insert_id.
Qed.

Lemma split_merge_caps : alter (zupd nc.2 cap_empty) nc.1 (k_caplist s1) = alter (zupd nc.2 cap_empty) nc.1 (k_caplist s).
Proof.
  unfold s1, split_state. cbn. apply map_eq. intros a.
  destruct (decide (a = nc.1)) as [->|Hne]; [|by rewrite !lookup_alter_ne by done].
  rewrite !lookup_alter_eq. destruct (k_caplist s !! nc.1) as [l|]; [|done]. cbn. f_equal. apply zupd_zupd.
Qed.
(** Emptying a slot that is empty. *)
Lemma alter_empty : cap_lookup nc s = Some cap_empty -> alter (zupd nc.2 cap_empty) nc.1 (k_caplist s) = k_caplist s.
Proof.
  intros Hc. apply map_eq. intros a. destruct (decide (a = nc.1)) as [->|Hne]; [|by rewrite lookup_alter_ne by done].
  rewrite lookup_alter_eq. unfold cap_lookup in Hc. destruct (k_caplist s !! nc.1) as [l|] eqn:Hl; [|done].
  cbn in Hc |- *. f_equal. unfold zupd. apply znth_lookup in Hc as [Hi Hc].
  rewrite (proj2 (Z.leb_le _ _) Hi). by apply list_insert_id.
Qed.
End split_merge.



(** ** Retyping *)
Definition type_size (type n : Z) : Z :=
  if type =? OBJ_untyped then obj_untyped_size n
  else if type =? OBJ_endpoint then obj_endpoint_size n
  else if type =? OBJ_caplist then obj_caplist_size n
  else if type =? OBJ_proc then obj_proc_size n
  else if type =? OBJ_intr then obj_intr_size n
  else obj_frame_size n.

(** When a block can become an object. *)
Record can_retype (s : kstate) (root cid type n : Z) (o : Z) : Prop := {
  cr_type : 0 <= type < OBJ_type_n;
  cr_from : exists r c h, resolves s root cid r /\ cap_lookup r s = Some c /\ c_perm c <> 0 /\
    c_obj c = o /\ k_head s !! o = Some h /\ h_type h = OBJ_untyped;
  cr_len : exists m, k_untyped s !! o = Some m /\ type_size type n <> 0 /\ type_size type n <= m
}.

(** The words of the second half of a capability list are clear. *)
Definition clean_caplist (s : kstate) (o : Z) : Prop :=
  Forall (fun i => stale_cap s o i = cap_empty) (seq 255 255).

(** What a new object is. *)
Definition new_object (s s' : kstate) (o type n : Z) : Prop :=
  k_head s' !! o = Some (mk_head 1 type) /\
  (type = OBJ_untyped -> k_untyped s' !! o = Some n) /\
  (type = OBJ_endpoint -> k_endpoint s' !! o = Some (mk_endpoint 0 NIL NIL NIL NIL)) /\
  (type = OBJ_caplist -> k_caplist s' !! o = Some (replicate 510 cap_empty)) /\
  (type = OBJ_proc -> znth (k_procs s') (k_nextpid s) = Some o /\
     exists p, k_proc s' !! o = Some p /\ p_state p = PROC_fault /\ p_pid p = k_nextpid s /\ p_slist p = None) /\
  (type = OBJ_intr -> k_intr s' !! o = Some (mk_intr 0 NIL 0)) /\
  (type = OBJ_frame -> exists va next, k_frame s' !! o = Some (mk_frame 0 0 FRAME_NONE va next)).

(** What the change of type touches of the object memory. *)
Record retyped (s s' : kstate) (o type n : Z) : Prop := {
  rt_head : k_head s' = <[o := mk_head 1 type]> (k_head s);
  rt_untyped : k_untyped s' = if type =? OBJ_untyped then <[o := n]> (k_untyped s) else delete o (k_untyped s);
  rt_caplist : k_caplist s' = if type =? OBJ_caplist then <[o := replicate 510 cap_empty]> (k_caplist s)
    else k_caplist s
}.

Section retype.
Context `{Board}.
Variables (s s' : kstate) (root cid type n o : Z).
Hypothesis Hinv : obj_inv s.
Hypothesis Hcan : can_retype s root cid type n o.
Hypothesis Hre : retyped s s' o type n.

Lemma retype_old : exists h m, k_head s !! o = Some h /\ h_type h = OBJ_untyped /\ obj_size s o h = m /\
  type_size type n <= m.
Proof.
  destruct Hcan as [_ (r & c & h & _ & _ & _ & _ & Hh & Ht) (m & Hm & _ & Hl)]. exists h, m.
  split_and!; [done|done|by apply obj_size_untyped|done].
Qed.

Lemma retype_size a h : k_head s' !! a = Some h ->
  (a = o /\ h = mk_head 1 type /\ obj_size s' a h = type_size type n) \/
  (a <> o /\ k_head s !! a = Some h /\ obj_size s' a h = obj_size s a h).
Proof.
  destruct Hre as [Hh Hu _], Hcan as [_ _ (m & _ & Hnz & _)]. rewrite Hh. intros Ha. destruct (decide (a = o)) as [->|Hne].
  - left. rewrite lookup_insert_eq in Ha. simplify_eq. split_and!; [done..|].
    unfold obj_size, type_size in *. rewrite Hu. cbn.
    destruct (type =? OBJ_untyped) eqn:E1.
    { rewrite lookup_insert_eq. cbn. unfold obj_untyped_size in *. destruct (n <? sizeof_untyped); done. }
    destruct (type =? OBJ_endpoint); [unfold obj_endpoint_size in *; by case_match|].
    destruct (type =? OBJ_caplist); [unfold obj_caplist_size in *; by case_match|].
    destruct (type =? OBJ_proc); [unfold obj_proc_size in *; by case_match|]. by case_match.
  - right. rewrite lookup_insert_ne in Ha by done. split_and!; [done..|].
    unfold obj_size. rewrite Hu. destruct (type =? OBJ_untyped);
      [by rewrite lookup_insert_ne by done|by rewrite lookup_delete_ne by done].
Qed.

(** Slots with rights are those there were. *)
Lemma retype_caps r c : cap_lookup r s' = Some c -> c_perm c <> 0 -> r.1 <> o -> cap_lookup r s = Some c.
Proof.
  destruct Hre as [_ _ Hc]. unfold cap_lookup. rewrite Hc. intros Hr _ Hne.
  destruct (type =? OBJ_caplist); [by rewrite lookup_insert_ne in Hr by done|done].
Qed.

(** An untyped block holds no capability list. *)
Lemma retype_nolist : k_caplist s !! o = None.
Proof.
  destruct retype_old as (h & m & Hh & Ht & _). destruct (k_caplist s !! o) eqn:E; [|done].
  destruct (oi_list s Hinv o) as (h' & Hh' & Ht'); [by eexists|]. assert (h' = h) as -> by congruence.
  rewrite Ht in Ht'. discriminate Ht'.
Qed.

Lemma retype_caps_in r c : cap_lookup r s' = Some c -> c_perm c <> 0 -> r.1 <> o.
Proof.
  destruct Hre as [_ _ Hc]. unfold cap_lookup. rewrite Hc. intros Hr Hp E. rewrite E in Hr.
  destruct (type =? OBJ_caplist); [|by rewrite retype_nolist in Hr].
  rewrite lookup_insert_eq in Hr. cbn [mbind option_bind] in Hr. apply znth_lookup in Hr as [_ Hr].
  apply lookup_replicate_1 in Hr as [-> _]. done.
Qed.

Lemma retype_caps_ok : caps_ok s'.
Proof.
  destruct (oi_caps s Hinv) as [Clen Ctype Cobj]. destruct Hre as [Hh Hu Hc]. constructor.
  - rewrite Hc. intros a l. destruct (type =? OBJ_caplist); [|apply Clen].
    rewrite lookup_insert. case_decide; [intros E%(inj Some); by rewrite <-E, length_replicate|apply Clen].
  - intros a h Ha Ht. rewrite Hc. destruct (retype_size a h Ha) as [(-> & -> & _)|(Hne & Ha' & _)].
    + cbn in Ht. rewrite Ht. cbn. rewrite lookup_insert_eq. by eexists.
    + destruct (type =? OBJ_caplist); [rewrite lookup_insert_ne by done|]; by eapply Ctype.
  - intros r c Hr Hp. rewrite Hh, lookup_insert_is_Some'. right.
    apply (Cobj r c); [apply retype_caps; [done..|by eapply retype_caps_in]|done].
Qed.

Lemma retype_inv : obj_inv s'.
Proof.
  destruct retype_old as (h0 & m & Hh0 & Ht0 & Hm & Hl). destruct (oi_range s Hinv o h0 Hh0) as [R1 R2].
  rewrite Hm in R2. constructor.
  - apply retype_caps_ok.
  - intros a h Ha. destruct (retype_size a h Ha) as [(-> & -> & ->)|(Hne & Ha' & ->)]; [lia|by apply (oi_range s Hinv)].
  - intros a h Ha Ht. destruct Hre as [_ Hu _]. rewrite Hu.
    destruct (retype_size a h Ha) as [(-> & -> & _)|(Hne & Ha' & _)].
    + cbn in Ht. rewrite Ht. cbn. rewrite lookup_insert_eq. eexists. split; [done|].
      destruct Hcan as [_ _ (m' & _ & Hnz & _)]. rewrite Ht in Hnz. unfold type_size, obj_untyped_size in Hnz. cbn in Hnz.
      destruct (Z.ltb_spec n sizeof_untyped); [done|lia].
    + destruct (oi_untyped s Hinv a h Ha' Ht) as (k & Hk & ?).
      destruct (type =? OBJ_untyped); [rewrite lookup_insert_ne by done|rewrite lookup_delete_ne by done]; by exists k.
  - intros a b h h' Ha Hb Hlt.
    destruct (retype_size a h Ha) as [(-> & -> & ->)|(Hne & Ha' & ->)],
      (retype_size b h' Hb) as [(-> & -> & _)|(Hne' & Hb' & _)]; [lia|..].
    + pose proof (oi_disjoint s Hinv _ _ _ _ Hh0 Hb' Hlt). lia.
    + exact (oi_disjoint s Hinv _ _ _ _ Ha' Hh0 Hlt).
    + exact (oi_disjoint s Hinv _ _ _ _ Ha' Hb' Hlt).
  - intros a. destruct Hre as [Hh _ Hc]. rewrite Hh, Hc. destruct (decide (a = o)) as [->|Hne].
    + rewrite lookup_insert_eq. intros Hs. eexists. split; [done|]. cbn.
      destruct (Z.eqb_spec type OBJ_caplist) as [->|]; [done|]. rewrite retype_nolist in Hs. by destruct Hs.
    + rewrite lookup_insert_ne by done. intros Hs. apply (oi_list s Hinv).
      destruct (type =? OBJ_caplist); [by rewrite lookup_insert_ne in Hs by done|done].
  - intros r r' c c' h Hc Hc' Hp Hp' Hobj Hho Hty.
    assert (cap_lookup r s = Some c) as H1 by (apply retype_caps; [done..|by eapply retype_caps_in]).
    assert (cap_lookup r' s = Some c') as H2 by (apply retype_caps; [done..|by eapply retype_caps_in]).
    destruct (retype_size _ h Hho) as [(E & -> & _)|(Hne & Ha' & _)].
    + apply (oi_linear s Hinv r r' c c' h0); congruence.
    + by apply (oi_linear s Hinv r r' c c' h).
Qed.
End retype.

Section retype_run.
Context `{Board}.
Implicit Types (s : kstate) (o n type : Z).

Lemma caplist_clean s o : clean_caplist s o ->
  replicate 255 cap_empty ++ (stale_cap s o <$> seq 255 255) = replicate 510 cap_empty.
Proof.
  intros Hc. change 510%nat with (255 + 255)%nat. rewrite replicate_add. f_equal.
  symmetry. apply replicate_as_Forall_2; [by rewrite length_fmap, length_seq|].
  apply Forall_fmap. eapply Forall_impl; [exact Hc|]. by intros i E.
Qed.

(** The header's two words are not in the second half. *)
Lemma stale_cap_head s o type i : (255 <= i)%nat ->
  stale_cap (set_k_scratch (<[o := 1]> (<[o + 4 := type]> (k_scratch s))) s) o i = stale_cap s o i.
Proof.
  intros Hi. unfold stale_cap, scratch, word. cbn. by rewrite !lookup_insert_ne by lia.
Qed.

Lemma stale_caps_head s s' o type :
  k_scratch s' = <[o := 1]> (<[o + 4 := type]> (k_scratch s)) ->
  stale_cap s' o <$> seq 255 255 = stale_cap s o <$> seq 255 255.
Proof.
  intros E. apply list_fmap_ext. intros j i [-> _]%lookup_seq.
  rewrite <-(stale_cap_head s o type) by lia. unfold stale_cap, scratch. by rewrite E.
Qed.

Lemma proc_init_run s o p : k_proc s !! o = Some p -> 0 <= k_nextpid s < MAX_PROCS ->
  length (k_procs s) = Z.to_nat MAX_PROCS ->
  wp (proc_init o) s (fun r s' => r = OK /\ k_head s' = k_head s /\ k_untyped s' = k_untyped s /\
    k_caplist s' = k_caplist s /\ znth (k_procs s') (k_nextpid s) = Some o /\
    exists p', k_proc s' !! o = Some p' /\ p_state p' = PROC_fault /\ p_pid p' = k_nextpid s /\ p_slist p' = None).
Proof.
  intros Hp Hn Hl. unfold proc_init. destruct (znth_is_Some (k_procs s) (k_nextpid s)) as [q Hq].
  { rewrite Hl. unfold MAX_PROCS in *. lia. }
  ksteps. split; [done|]. cbn. split_and!; [done..| |].
  - apply znth_zupd_eq. rewrite Hl. unfold MAX_PROCS in *. lia.
  - rewrite lookup_insert_eq. by eexists.
Qed.

(** What the process table must be ready for. *)
Definition pids_left s : Prop := 0 <= k_nextpid s < MAX_PROCS /\ length (k_procs s) = Z.to_nat MAX_PROCS.

Lemma init_run s o type n :
  0 <= type < OBJ_type_n -> (type = OBJ_caplist -> clean_caplist s o) -> (type = OBJ_proc -> pids_left s) ->
  wp (retype_head o type ;;; obj_init_funcs type o n) s
    (fun r s' => r = OK /\ retyped s s' o type n /\ new_object s s' o type n).
Proof.
  intros Ht Hclean Hpids. unfold OBJ_type_n in Ht. unfold retype_head, put_head. do 4 kstep. cbn beta. kstep. kstep. cbn beta.
  assert (type = 0 \/ type = 1 \/ type = 2 \/ type = 3 \/ type = 4 \/ type = 5) as Hty by lia.
  destruct Hty as [-> |[-> |[-> |[-> |[-> | ->]]]]]; unfold obj_init_funcs; cbn [Z.eqb Pos.eqb OBJ_untyped OBJ_endpoint OBJ_caplist OBJ_proc OBJ_intr OBJ_frame].
  1, 2, 5, 6: unfold obj_untyped_init, obj_endpoint_init, obj_intr_init, obj_frame_init; ksteps;
    (split; [done|]; split; [constructor; cbn; rewrite ?insert_delete_eq; done|]);
    split_and!; try discriminate; cbn; rewrite ?lookup_insert_eq; eauto.
  - unfold obj_caplist_init. ksteps. split; [done|].
    erewrite (stale_caps_head s _ o 2) by reflexivity. rewrite caplist_clean by by apply Hclean.
    split; [by constructor|]. split_and!; try discriminate; cbn -[replicate]; intros; by rewrite lookup_insert_eq.
  - destruct (Hpids eq_refl) as [Hp1 Hp2]. unfold obj_proc_init, put_proc. kstep. kstep. apply wpe_bind.
    eapply wpe_mono; [eapply proc_init_run; [apply lookup_insert_eq|exact Hp1|exact Hp2]| |done]; cbn.
    intros r s' (-> & E1 & E2 & E3 & E4 & p' & E5 & E6 & E7 & E8). cbn.
    split; [done|]. split; [by constructor|]. split_and!; try discriminate.
    + by rewrite E1, lookup_insert_eq.
    + intros _. split; [done|]. by exists p'.
Qed.
End retype_run.

(** C14: For the six types there are, retyping succeeds exactly when the
    identifier names untyped memory large enough for the type; the block is then
    an object of that type in its initial state -- provided, for a list, that the
    second half of the memory is clear, and for a process, that identifiers are
    left -- and objects still do not overlap. *)
Theorem sys_obj_retype_correct `{Board} (s : kstate) (root cid type n : Z)
    (Hinv : obj_inv s) (Hup : runs_with s root) (Hcid : cid_ok cid)
    (Htype : type <> OBJ_type_n)
    (Hclean : type = OBJ_caplist -> forall o, can_retype s root cid type n o -> clean_caplist s o)
    (Hpids : type = OBJ_proc -> pids_left s) :
  wp (sys_obj_retype cid type n) s (fun r s' =>
    obj_inv s' /\
    ((r = ERR /\ s' = s /\ forall o, ~ can_retype s root cid type n o) \/
     (r = OK /\ exists o, can_retype s root cid type n o /\ retyped s s' o type n /\ new_object s s' o type n))).
Proof.
  assert (HE : (forall o, ~ can_retype s root cid type n o) -> obj_inv s /\
    ((ERR = ERR /\ s = s /\ forall o, ~ can_retype s root cid type n o) \/
     (ERR = OK /\ exists o, can_retype s root cid type n o /\ retyped s s o type n /\ new_object s s o type n))) by auto.
  pose proof (oi_caps s Hinv) as Hok. unfold sys_obj_retype.
  destruct ((type <? 0) || (OBJ_type_n <? type)) eqn:Hr.
  { apply wpe_ret, HE. intros o [Ht _ _]. unfold OBJ_type_n in *. bdestruct_all. lia. }
  assert (Ht : 0 <= type < OBJ_type_n) by (unfold OBJ_type_n in *; bdestruct_all; lia).
  do 3 kstep. eapply wpe_find; [done..| |].
  2: { intros Hno. apply HE. intros o [_ (r & c & h & Hrs & _) _]. by eapply Hno. }
  intros rc c Hrc Hc. ksteps; bdestruct_all.
  { apply HE. intros o [_ (r & c' & h & Hrs & Hc' & Hp & _) _].
    assert (r = rc) as -> by by eapply resolves_det. by simplify_eq. }
  destruct (cap_object s rc c) as [h Hh]; [done..|]. ksteps; bdestruct_all.
  { apply HE. intros o [_ (r & c' & h' & Hrs & Hc' & Hp & <- & Hh' & Hty) _].
    assert (r = rc) as -> by by eapply resolves_det. by simplify_eq. }
  destruct (oi_untyped s Hinv _ h Hh) as (m & Hm & Hm12); [done|].
  eapply (wpe_ok _ _ (type_size type n) s).
  { unfold OBJ_type_n in Ht.
    assert (type = 0 \/ type = 1 \/ type = 2 \/ type = 3 \/ type = 4 \/ type = 5) as Hty by lia.
    by destruct Hty as [-> |[-> |[-> |[-> |[-> | ->]]]]]. }
  assert (HL : forall o, can_retype s root cid type n o -> o = c_obj c /\ type_size type n <> 0 /\ type_size type n <= m).
  { intros o [_ (r & c' & h' & Hrs & Hc' & Hp & <- & Hh' & Hty) (m' & Hm' & ? & ?)].
    assert (r = rc) as -> by by eapply resolves_det. by simplify_eq. }
  ksteps; bdestruct_all. { apply HE. intros o Ho%HL. naive_solver. } { apply HE. intros o Ho%HL. lia. }
  assert (Hcan : can_retype s root cid type n (c_obj c)).
  { constructor; [done|by exists rc, c, h|by exists m]. }
  apply wpe_bind_inv. eapply wpe_mono; [apply init_run; [done| |done]| |done].
  - intros E. by apply Hclean.
  - intros r s' (-> & Hre & Hnew). split; [|right; split; [done|]; by exists (c_obj c)].
    by eapply (retype_inv s s' root).
Qed.

Lemma can_retype_det s root cid type n o o' :
  can_retype s root cid type n o -> can_retype s root cid type n o' -> o = o'.
Proof.
  intros [_ (r & c & h & Hr & Hc & _ & <- & _) _] [_ (r' & c' & h' & Hr' & Hc' & _ & <- & _) _].
  assert (r = r') as -> by by eapply resolves_det. by simplify_eq.
Qed.

Lemma demo_can_retype type n : 0 <= type < OBJ_type_n -> type_size type n <> 0 -> type_size type n <= 0x1000 ->
  can_retype demo 0x3000 0x3000 type n 0x6000.
Proof.
  intros. constructor; [done| |by exists 0x1000].
  exists (0x3000, 3), (mk_cap 3 0x6000), (mk_head 1 OBJ_untyped).
  split; [by apply (resolves_root _ _ 3)|]. by split_and!.
Qed.

Lemma sys_obj_retype_correct_witness :
  let _ := vexpress_a9 in
  wp (sys_obj_retype 0x3000 OBJ_caplist 1) demo (fun r s' => obj_inv s' /\
    ((r = ERR /\ s' = demo /\ forall o, ~ can_retype demo 0x3000 0x3000 OBJ_caplist 1 o) \/
     (r = OK /\ exists o, can_retype demo 0x3000 0x3000 OBJ_caplist 1 o /\
        retyped demo s' o OBJ_caplist 1 /\ new_object demo s' o OBJ_caplist 1))).
Proof.
  intros B. apply (@sys_obj_retype_correct B); [exact demo_obj_inv|exact demo_runs|done|done| |done].
  intros _ o Ho. assert (o = 0x6000) as -> by (eapply can_retype_det; [exact Ho|by apply demo_can_retype]).
  unfold clean_caplist. apply Forall_forall. intros i _. reflexivity.
Defined.

(** The range check of retyping lets the number of types itself through: a
    caller with a right to untyped memory makes the kernel call through the word
    behind the table of size functions. *)
Theorem sys_obj_retype_bad_type `{Board} (s : kstate) (root cid n : Z) (r : capref) (c : cap) (h : obj_head)
    (Hok : caps_ok s) (Hup : runs_with s root) (Hcid : cid_ok cid)
    (Hr : resolves s root cid r) (Hc : cap_lookup r s = Some c) (Hp : c_perm c <> 0)
    (Hh : k_head s !! c_obj c = Some h) (Ht : h_type h = OBJ_untyped) :
  sys_obj_retype cid OBJ_type_n n s = Fault FCall.
Proof.
  unfold sys_obj_retype, get_up. change ((OBJ_type_n <? 0) || (OBJ_type_n <? OBJ_type_n)) with false. cbn iota.
  erewrite bind_ok by reflexivity. erewrite bind_ok by by apply (find_runs s root).
  unfold get_cap. erewrite bind_ok by by apply read_ok. rewrite (proj2 (Z.eqb_neq _ _) Hp).
  unfold get_head. erewrite bind_ok by by apply read_ok. rewrite Ht. cbn [Z.eqb OBJ_untyped negb].
  by apply bind_fault.
Qed.

Lemma sys_obj_retype_bad_type_witness : @sys_obj_retype vexpress_a9 0x3000 OBJ_type_n 1 demo = Fault FCall.
Proof.
  apply (@sys_obj_retype_bad_type vexpress_a9 demo 0x3000 0x3000 1 (0x3000, 3) (mk_cap 3 0x6000) (mk_head 1 OBJ_untyped));
    [exact (oi_caps _ demo_obj_inv)|exact demo_runs|done|by apply (resolves_root _ _ 3)|reflexivity|done|reflexivity|done].
Defined.

(** Initialising a capability list clears the first 255 of its 510 slots:
    what splitting has left in the memory becomes capabilities of the new list. *)
Theorem sys_obj_retype_stale `{Board} (s : kstate) (root cid o : Z) (i : nat)
    (Hok : caps_ok s) (Hup : runs_with s root) (Hcid : cid_ok cid)
    (Hcan : can_retype s root cid OBJ_caplist 1 o) (Hi : (255 <= i < 510)%nat) :
  wp (sys_obj_retype cid OBJ_caplist 1) s (fun r s' =>
    r = OK /\ cap_lookup (o, Z.of_nat i) s' = Some (stale_cap s o i)).
Proof.
  destruct Hcan as [_ (r & c & h & Hr & Hc & Hp & <- & Hh & Ht) (m & Hm & _ & Hl)].
  unfold sys_obj_retype. cbn [Z.ltb Z.compare orb OBJ_type_n OBJ_caplist Pos.compare Pos.compare_cont]. do 3 kstep.
  apply (wpe_find s root); [done..| |].
  2: { intros Hno. by destruct (Hno r). }
  intros r' c' Hr' Hc'. assert (r' = r) as -> by by eapply resolves_det. simplify_eq. ksteps; bdestruct_all; [done..|].
  eapply (wpe_ok _ _ sizeof_caplist s); [done|]. change (sizeof_caplist =? 0) with false. cbn iota. ksteps; bdestruct_all.
  { change (type_size OBJ_caplist 1) with sizeof_caplist in Hl. lia. }
  change (obj_init_funcs OBJ_caplist (c_obj c) 1) with (obj_caplist_init (c_obj c) 1).
  unfold retype_head, put_head, obj_caplist_init.
  ksteps. split; [done|]. erewrite (stale_caps_head s _ (c_obj c) OBJ_caplist) by reflexivity.
  unfold cap_lookup. cbn [fst snd]. cbn -[replicate seq]. rewrite lookup_insert_eq. cbn [mbind option_bind]. apply znth_lookup. split; [lia|]. rewrite Nat2Z.id.
  rewrite lookup_app_r by (rewrite length_replicate; lia). rewrite length_replicate, list_lookup_fmap, lookup_seq_lt by lia.
  cbn [fmap option_fmap option_map]. do 2 f_equal. lia.
Qed.

(** The block at 0x6000, split and merged again. *)
Definition demo_merged : kstate :=
  match (sys_obj_split 0x3000 0x1000 ;;; sys_obj_merge 0x3000 0x1000)%c demo with Ok _ s => s | _ => demo end.

Lemma sys_obj_retype_stale_witness :
  stale_cap demo_merged 0x6000 255 = mk_cap 1 NIL /\
  wp (@sys_obj_retype vexpress_a9 0x3000 OBJ_caplist 1) demo_merged (fun r s' =>
    r = OK /\ cap_lookup (0x6000, Z.of_nat 255) s' = Some (stale_cap demo_merged 0x6000 255)).
Proof.
  split; [by vm_compute|]. apply (@sys_obj_retype_stale vexpress_a9 demo_merged 0x3000 0x3000 0x6000 255).
  - apply caps_okb_sound. by vm_compute.
  - exists (demo_proc 1 0x3000 PROC_ready). split; [by vm_compute|]. split; [done|].
    exists (default [] (k_caplist demo_merged !! 0x3000)). by vm_compute.
  - done.
  - constructor; [done| |by exists 0x1000].
    exists (0x3000, 3), (mk_cap 3 0x6000), (mk_head 1 OBJ_untyped).
    split; [by apply (resolves_root _ _ 3)|]. split_and!; try done; by vm_compute.
  - lia.
Defined.

(** ** Creating untyped memory out of a frame *)
Lemma create_len_loop fuel j len : 0 <= len <= 2 ^ 31 -> 12 <= j <= 31 -> (Z.to_nat (32 - j) < fuel)%nat ->
  (forall k, 12 <= k < j -> len <> 2 ^ k) ->
  exists b, create_len fuel (2 ^ j) len = Some b /\ (b = true <-> exists k, 12 <= k /\ len = 2 ^ k).
Proof.
  revert j. induction fuel as [|fuel IH]; intros j Hlen Hj Hf Hno; [lia|]. cbn [create_len].
  destruct (Z.ltb_spec len (2 ^ j)) as [Hlt|Hge].
  { exists false. split; [done|]. split; [done|]. intros (k & Hk & ->). exfalso.
    apply (Hno k); [|done]. split; [done|]. apply (Z.pow_lt_mono_r_iff 2); lia. }
  destruct (Z.eqb_spec (2 ^ j) len) as [<-|Hne].
  { exists true. split; [done|]. split; [|done]. intros _. exists j. lia. }
  assert (j <> 31) by (intros ->; lia).
  replace (u32 (Z.shiftl (2 ^ j) 1)) with (2 ^ (j + 1)).
  2:{ rewrite Z.shiftl_mul_pow2, <-Z.pow_add_r by lia. symmetry. apply u32_small. split; [lia|].
      apply Z.pow_lt_mono_r; lia. }
  apply IH; [done|lia|lia|]. intros k Hk E. destruct (decide (k = j)) as [->|]; [done|]. apply (Hno k); [lia|done].
Qed.

(** The length check of [sys_obj_create] accepts exactly the lengths that are powers of two of at
    least a page -- as long as the length is at most half the address space. *)
Theorem create_len_correct (len : Z) (Hlen : 0 <= len <= 2 ^ 31) :
  exists b, create_len 33 0x1000 len = Some b /\ (b = true <-> exists k, 12 <= k /\ len = 2 ^ k).
Proof. apply (create_len_loop 33 12); [done|lia|lia|lia]. Qed.

Lemma create_len_correct_witness :
  exists b, create_len 33 0x1000 0x10000 = Some b /\ (b = true <-> exists k, 12 <= k /\ 0x10000 = 2 ^ k).
Proof. apply create_len_correct. lia. Defined.

(** For a longer frame the doubling overflows to zero and the loop of
    sys_obj_create never ends: no number of iterations is enough. *)
Theorem create_len_spins (len : Z) (Hlen : 2 ^ 31 < len < 2 ^ 32) (fuel : nat) :
  create_len fuel 0x1000 len = None.
Proof.
  assert (Hg : forall mlen, (mlen = 0 \/ exists j, 0 <= j <= 31 /\ mlen = 2 ^ j) -> create_len fuel mlen len = None).
  2: { apply Hg. right. by exists 12. }
  induction fuel as [|fuel IH]; intros mlen Hm; [done|]. cbn [create_len].
  assert (Hs : 0 <= mlen <= 2 ^ 31).
  { destruct Hm as [->|(j & Hj & ->)]; [lia|]. split; [lia|]. apply Z.pow_le_mono_r; lia. }
  rewrite (proj2 (Z.ltb_ge _ _)), (proj2 (Z.eqb_neq _ _)) by lia. apply IH.
  destruct Hm as [->|(j & Hj & ->)]; [by left|]. rewrite Z.shiftl_mul_pow2, <-Z.pow_add_r by lia.
  destruct (decide (j = 31)) as [->|Hne]; [by left|]. right. exists (j + 1). split; [lia|].
  apply u32_small. split; [lia|]. apply Z.pow_lt_mono_r; lia.
Qed.

Lemma create_len_spins_witness : create_len 1000 0x1000 0x90000000 = None.
Proof. apply create_len_spins. lia. Defined.

(** The frames there are have their structure, and no object lies at or above
    the next kernel mapping. *)
Definition frames_ok (s : kstate) : Prop :=
  forall a h, k_head s !! a = Some h -> h_type h = OBJ_frame -> is_Some (k_frame s !! a).
Definition below_window (s : kstate) : Prop :=
  forall a h, k_head s !! a = Some h -> a + obj_size s a h <= m_va_next (k_mach s).

(** The object memory after [len] fresh bytes at [o] became untyped memory, its
    right put in [nc] and the frame's right taken from [fc]. *)
Record created (s s' : kstate) (fc nc : capref) (o len : Z) : Prop := {
  ct_head : k_head s' = <[o := mk_head 0 OBJ_untyped]> (k_head s);
  ct_untyped : k_untyped s' = <[o := len]> (k_untyped s);
  ct_caplist : k_caplist s' = alter (zupd fc.2 cap_empty) fc.1
    (alter (zupd nc.2 (mk_cap (Z.lor CAP_write CAP_read) o)) nc.1 (k_caplist s))
}.

Section create.
Variables (s s' : kstate) (fc nc : capref) (o len : Z).
Hypothesis Hinv : obj_inv s.
Hypothesis Hbelow : forall a h, k_head s !! a = Some h -> a + obj_size s a h <= o.
Hypothesis Ho : 0 < o.
Hypothesis Hlen : sizeof_untyped <= len.
Hypothesis Hend : o + len <= 2 ^ 32.
Hypothesis Hre : created s s' fc nc o len.

Lemma create_fresh : k_head s !! o = None.
Proof.
  destruct (k_head s !! o) as [h|] eqn:E; [|done]. pose proof (Hbelow _ _ E).
  pose proof (obj_size_pos s o h Hinv E). lia.
Qed.

Lemma create_head a h : k_head s' !! a = Some h ->
  (a = o /\ h = mk_head 0 OBJ_untyped /\ obj_size s' a h = len) \/
  (a < o /\ k_head s !! a = Some h /\ obj_size s' a h = obj_size s a h).
Proof.
  destruct Hre as [Hh Hu _]. rewrite Hh. intros Ha. destruct (decide (a = o)) as [->|Hne].
  - left. rewrite lookup_insert_eq in Ha. simplify_eq. split_and!; [done..|]. unfold obj_size. cbn.
    by rewrite Hu, lookup_insert_eq.
  - right. rewrite lookup_insert_ne in Ha by done. split_and!; [|done|].
    + pose proof (Hbelow _ _ Ha). pose proof (obj_size_pos s a h Hinv Ha). lia.
    + unfold obj_size. by rewrite Hu, lookup_insert_ne by done.
Qed.

Lemma create_caps r c : cap_lookup r s' = Some c ->
  (c = cap_empty) \/ (r = nc /\ c = mk_cap (Z.lor CAP_write CAP_read) o) \/ cap_lookup r s = Some c.
Proof.
  destruct Hre as [_ _ Hc]. intros Hr.
  set (s1 := set_k_caplist (alter (zupd nc.2 (mk_cap (Z.lor CAP_write CAP_read) o)) nc.1 (k_caplist s)) s).
  assert (E : cap_lookup r s' = cap_lookup r (set_k_caplist (alter (zupd fc.2 cap_empty) fc.1 (k_caplist s1)) s1))
    by (unfold cap_lookup; cbn; by rewrite Hc).
  rewrite E, cap_lookup_put in Hr. case_decide.
  - left. destruct (cap_lookup fc s1); naive_solver.
  - right. unfold s1 in Hr. rewrite cap_lookup_put in Hr. case_decide; [left|by right].
    destruct (cap_lookup nc s); naive_solver.
Qed.

Lemma create_list a : is_Some (k_caplist s' !! a) <-> is_Some (k_caplist s !! a).
Proof. destruct Hre as [_ _ ->]. by rewrite !lookup_alter_is_Some. Qed.

Lemma create_inv : obj_inv s'.
Proof.
  destruct (oi_caps s Hinv) as [Clen Ctype Cobj]. pose proof Hre as [Hh Hu Hc]. constructor.
  - constructor.
    + rewrite Hc. by apply alter_lengths, alter_lengths.
    + intros a h Ha Ht. apply create_list. destruct (create_head a h Ha) as [(_ & -> & _)|(_ & Ha' & _)]; [done|by eapply Ctype].
    + intros r c Hr Hp. rewrite Hh, lookup_insert_is_Some'.
      destruct (create_caps r c Hr) as [->|[[_ ->]|Hr']]; [done|by left|right; by eapply Cobj].
  - intros a h Ha. destruct (create_head a h Ha) as [(-> & -> & ->)|(_ & Ha' & ->)]; [lia|by apply (oi_range s Hinv)].
  - intros a h Ha Ht. rewrite Hu. destruct (create_head a h Ha) as [(-> & -> & _)|(Hlt & Ha' & _)].
    + rewrite lookup_insert_eq. by exists len.
    + rewrite lookup_insert_ne by lia. by apply (oi_untyped s Hinv a h).
  - intros a b h h' Ha Hb Hlt.
    destruct (create_head a h Ha) as [(-> & -> & ->)|(Hlta & Ha' & ->)],
      (create_head b h' Hb) as [(-> & -> & _)|(Hltb & Hb' & _)]; [lia|lia|by apply Hbelow|].
    exact (oi_disjoint s Hinv _ _ _ _ Ha' Hb' Hlt).
  - intros a [h [Ha Ht]]%create_list%(oi_list s Hinv). exists h. split; [|done].
    rewrite Hh, lookup_insert_ne; [done|]. intros <-. by rewrite create_fresh in Ha.
  - intros r r' c c' h Hc1 Hc2 Hp Hp' Hobj Hho Hty.
    destruct (create_caps r c Hc1) as [->|[[-> ->]|Hr]]; [done|..];
      destruct (create_caps r' c' Hc2) as [->|[[-> ->]|Hr']]; try done.
    + destruct (cap_object s r' c' Hinv Hr' Hp') as [h' Hh']. cbn in Hobj. by rewrite <-Hobj, create_fresh in Hh'.
    + destruct (cap_object s r c Hinv Hr Hp) as [h' Hh']. cbn in Hobj. by rewrite Hobj, create_fresh in Hh'.
    + destruct (create_head _ h Hho) as [(E & _)|(_ & Ha' & _)]; [|by apply (oi_linear s Hinv r r' c c' h)].
      destruct (cap_object s r c Hinv Hr Hp) as [h' Hh']. by rewrite E, create_fresh in Hh'.
Qed.
End create.

(** When sys_obj_create goes ahead. *)
Record can_create (s : kstate) (root fid nid : Z) (fc nc : capref) (f : obj_frame) : Prop := {
  cc_from : exists c h, resolves s root fid fc /\ cap_lookup fc s = Some c /\ has_perm c CAP_write /\
    has_perm c CAP_read /\ k_head s !! c_obj c = Some h /\ h_type h = OBJ_frame /\ k_frame s !! c_obj c = Some f;
  cc_to : exists v, resolves s root nid nc /\ cap_lookup nc s = Some v /\ c_perm v = 0;
  cc_mem : f_type f = FRAME_MEM;
  cc_len : exists k, 12 <= k /\ f_len f = 2 ^ k
}.

(** The writes of sys_obj_create. *)
Lemma create_tail s fc nc c v f o pa len : kernel_pa (k_mach s) (o + len - 1) = Some pa ->
  cap_lookup nc s = Some v -> cap_lookup fc s = Some c -> fc <> nc -> k_frame s !! c_obj c = Some f ->
  wp (clear_frame o (f_pa f) len ;;; write_untyped o 0 len ;;; obj_untyped_init o len ;;;
      put_cap nc (mk_cap (Z.lor CAP_write CAP_read) o) ;;; upd_frame (c_obj c) (set_f_type FRAME_KOBJ) ;;;
      put_cap fc cap_empty ;;; ret OK) s
    (fun r s' => r = OK /\ created s s' fc nc o len /\ m_va_next (k_mach s') = m_va_next (k_mach s) /\
      forall x, kernel_pa (k_mach s') x = kernel_pa (k_mach s) x).
Proof.
  intros Hlast Hv Hc Hne Hf. unfold clear_frame, upd_mach, write_untyped, put_head, obj_untyped_init.
  set (cn := mk_cap (Z.lor CAP_write CAP_read) o).
  assert (Hc2 : forall s', k_caplist s' = alter (zupd nc.2 cn) nc.1 (k_caplist s) -> cap_lookup fc s' = Some c).
  { intros s' E. transitivity (cap_lookup fc (set_k_caplist (alter (zupd nc.2 cn) nc.1 (k_caplist s)) s)).
    - unfold cap_lookup. cbn. by rewrite E.
    - rewrite cap_lookup_put, decide_False by congruence. done. }
  ksteps. eapply wpe_put_cap; [by apply Hc2|].
  kstep. split; [done|]. split; [|by split]. constructor; [done| |done]. cbn. by rewrite insert_insert_eq.
Qed.

(** What creating an object in the frame [f] leaves behind: the object is at a kernel
    address that was not mapped before and now translates to the frame. *)
Record placed (s s' : kstate) (o : Z) (f : obj_frame) : Prop := {
  pl_room : has_room (k_mach s) (f_len f);
  pl_fresh : m_va_next (k_mach s) <= o /\ o + f_len f = m_va_next (k_mach s');
  pl_frame : forall k, 0 <= k < f_len f -> kernel_pa (k_mach s') (o + k) = Some (f_pa f + k);
  pl_other : forall x, 0 <= x < m_va_next (k_mach s) -> kernel_pa (k_mach s') x = kernel_pa (k_mach s) x
}.


Definition demo_framed : kstate :=
  set_k_frame {[ 0x8000 := mk_frame 0x60100000 0x2000 FRAME_MEM NIL NIL ]} demo.

