(* ===== verification/Ipc.v ===== *)
(** * Endpoints: messages, replies and signals of sys/sys.c

    A process that sends sits on the endpoint's list of waiting processes from
    the moment it sends until it is replied to.  A call that blocks ends in
    [schedule]; what it does after it is chosen again is [resume]. *)
From S2P Require Import Prelude KState DList Sched SchedProps Cap.

Local Open Scope Z_scope.
Local Open Scope c_scope.

(** ** Operations *)

(** The body of the loop of [endpoint_get_pending] for a sender [p]: its message
    is delivered and its capability, if it gave one, moves to [o]. *)
Definition pending_take (p : Z) (x : obj_proc) (o : option capref) : KM uout :=
  upd_proc p (set_p_state PROC_block_reply) ;;;
  (match p_give x with
   | None => ret tt
   | Some g =>
     let* v := get_cap g in
     if negb (c_perm v =? 0) then
       match o with
       | None => halt Panicked
       | Some o =>
         put_cap o v ;;;
         put_cap g cap_empty
       end
     else ret tt
   end) ;;;
  ret (UMesg (p_pid x) (p_m x)).

Fixpoint pending_scan (fuel : nat) (p : Z) (o : option capref) : KM uout :=
  match fuel with
  | O => nofuel
  | S fuel =>
    if p =? NIL then ret UNone else
    let* x := get_proc p in
    if decide (p_state x = PROC_block_send) then pending_take p x o
    else pending_scan fuel (p_wnext x) o
  end.

(** The signals if there are any, otherwise the first waiting sender.  Nothing
    pending is [UNone]. *)
Definition endpoint_get_pending (e : Z) (o : option capref) : KM uout :=
  let* x := get_endpoint e in
  if negb (e_signal x =? 0) then
    upd_endpoint e (set_e_signal 0) ;;;
    ret (USignal (e_signal x))
  else
    let* n := proc_fuel in
    pending_scan n (e_whead x) o.

(** One round of the [while (true)] of [recv]. *)
Definition recv_round `{Board} (e : Z) (o : option capref) : KM sysres :=
  let* up := get_up in
  let* u := get_proc up in
  if negb (p_bound_signal u =? 0) then
    upd_proc up (set_p_bound_signal 0) ;;;
    ret (Returned OK (USignal (p_bound_signal u)))
  else
    let* r := endpoint_get_pending e o in
    match r with
    | UNone =>
      let* x := get_endpoint e in
      if ctrue (e_rwait x) then halt Panicked else
      upd_endpoint e (set_e_rwait up) ;;;
      upd_proc up (set_p_state PROC_block_recv) ;;;
      schedule NIL (K_recv e o)
    | r =>
      upd_endpoint e (set_e_rwait NIL) ;;;
      ret (Returned OK r)
    end.

Definition recv `{Board} (e : Z) (o : option capref) : KM sysres :=
  let* up := get_up in
  let* x := get_endpoint e in
  if ctrue (e_bound x) && negb (e_bound x =? up) then ret (Returned ERR UNone)
  else recv_round e o.

(** The search of [reply]. *)
Fixpoint reply_scan (fuel : nat) (p pid : Z) : KM Z :=
  match fuel with
  | O => nofuel
  | S fuel =>
    if p =? NIL then ret NIL else
    let* x := get_proc p in
    if decide (p_state x = PROC_block_reply) then
      if p_pid x =? pid then ret p else reply_scan fuel (p_wnext x) pid
    else reply_scan fuel (p_wnext x) pid
  end.

(** Taking [p] off the list of waiting processes. *)
Definition waiting_unlink (e p : Z) : KM unit :=
  (let* x := get_proc p in
   if ctrue (p_wprev x) then upd_proc (p_wprev x) (set_p_wnext (p_wnext x))
   else upd_endpoint e (set_e_whead (p_wnext x))) ;;;
  (let* x := get_proc p in
   if ctrue (p_wnext x) then upd_proc (p_wnext x) (set_p_wprev (p_wprev x))
   else upd_endpoint e (set_e_wtail (p_wprev x))).

Definition reply_give (p : Z) (o : option capref) : KM unit :=
  match o with
  | None => ret tt
  | Some o =>
    let* x := get_proc p in
    match p_give x with
    | None => ret tt
    | Some g =>
      let* v := get_cap o in
      put_cap g v ;;;
      put_cap o cap_empty
    end
  end.

Definition reply `{Board} (e pid : Z) (m : list Z) (o : option capref) : KM sysres :=
  let* x := get_endpoint e in
  let* n := proc_fuel in
  let* p := reply_scan n (e_whead x) pid in
  if p =? NIL then ret (Returned ERR UNone) else
  waiting_unlink e p ;;;
  upd_proc p (set_p_m m) ;;;
  reply_give p o ;;;
  proc_ready p ;;;
  schedule p K_reply.

(** Putting [up] at the end of the list of waiting processes. *)
Definition waiting_append (e up : Z) : KM unit :=
  let* x := get_endpoint e in
  upd_proc up (set_p_wprev (e_wtail x)) ;;;
  (let* u := get_proc up in
   if ctrue (p_wprev u) then upd_proc (p_wprev u) (set_p_wnext up)
   else upd_endpoint e (set_e_whead up)) ;;;
  upd_proc up (set_p_wnext NIL) ;;;
  upd_endpoint e (set_e_wtail up).

Definition mesg `{Board} (e : Z) (rq : list Z) (o : option capref) : KM sysres :=
  let* up := get_up in
  upd_proc up (set_p_m rq) ;;;
  upd_proc up (set_p_give o) ;;;
  upd_proc up (set_p_state PROC_block_send) ;;;
  waiting_append e up ;;;
  let* x := get_endpoint e in
  let p := e_rwait x in
  if ctrue p then proc_ready p ;;; schedule p (K_mesg o)
  else schedule NIL (K_mesg o).

(** [k] is what the caller of [signal] goes on with: the system call, or the
    return from the interrupt handler. *)
Definition signal `{Board} (e s : Z) (k : cont) : KM sysres :=
  let* x := get_endpoint e in
  let p := e_bound x in
  if ctrue p then
    upd_proc p (fun y => set_p_bound_signal (Z.lor (p_bound_signal y) s) y) ;;;
    let* y := get_proc p in
    if decide (p_state y = PROC_block_recv) then
      proc_ready p ;;;
      schedule p k
    else ret (Returned OK UNone)
  else
    upd_endpoint e (fun x => set_e_signal (Z.lor (e_signal x) s) x) ;;;
    let* x := get_endpoint e in
    let p := e_rwait x in
    if ctrue p then proc_ready p ;;; schedule p k
    else ret (Returned OK UNone).

(** ** System calls *)

(** The checks the calls share: a right of the mask to an endpoint. *)
Definition find_endpoint (cid mask : Z) : KM (option Z) :=
  let* up := get_up in
  let* c := proc_find_cap up cid in
  match c with
  | None => ret None
  | Some c =>
    let* v := get_cap c in
    if negb (ctrue (Z.land (c_perm v) mask)) then ret None else
    let* h := get_head (c_obj v) in
    if negb (h_type h =? OBJ_endpoint) then ret None else ret (Some (c_obj v))
  end.

Definition sys_recv `{Board} (from cid : Z) : KM sysres :=
  let* e := find_endpoint from CAP_read in
  match e with
  | None => ret (Returned ERR UNone)
  | Some e =>
    if cid =? 0 then recv e None else
    let* up := get_up in
    let* o := proc_find_cap up cid in
    match o with
    | None => ret (Returned ERR UNone)
    | Some o =>
      let* v := get_cap o in
      if negb (c_perm v =? 0) then ret (Returned ERR UNone) else recv e (Some o)
    end
  end.

Definition sys_mesg `{Board} (to : Z) (rq : list Z) (cid : Z) : KM sysres :=
  let* e := find_endpoint to CAP_write in
  match e with
  | None => ret (Returned ERR UNone)
  | Some e =>
    if cid =? 0 then mesg e rq None else
    let* up := get_up in
    let* o := proc_find_cap up cid in
    match o with
    | None => ret (Returned ERR UNone)
    | Some o => mesg e rq (Some o)
    end
  end.

Definition sys_reply `{Board} (to pid : Z) (m : list Z) (cid : Z) : KM sysres :=
  let* e := find_endpoint to CAP_read in
  match e with
  | None => ret (Returned ERR UNone)
  | Some e =>
    if cid =? 0 then reply e pid m None else
    let* up := get_up in
    let* o := proc_find_cap up cid in
    match o with
    | None => ret (Returned ERR UNone)
    | Some o =>
      let* v := get_cap o in
      if c_perm v =? 0 then reply e pid m None else reply e pid m (Some o)
    end
  end.

Definition sys_signal `{Board} (to s : Z) : KM sysres :=
  let* e := find_endpoint to CAP_write in
  match e with
  | None => ret (Returned ERR UNone)
  | Some e => signal e s K_signal
  end.

Definition sys_endpoint_connect (cid nid : Z) : KM Z :=
  let* e := find_endpoint cid (Z.lor CAP_read CAP_write) in
  match e with
  | None => ret ERR
  | Some l =>
    let* up := get_up in
    let* n := proc_find_cap up nid in
    match n with
    | None => ret ERR
    | Some n =>
      let* v := get_cap n in
      if negb (c_perm v =? 0) then ret ERR else
      put_cap n (mk_cap CAP_write l) ;;;
      ret OK
    end
  end.

Definition sys_endpoint_bind (cid : Z) : KM Z :=
  let* e := find_endpoint cid (Z.lor CAP_read CAP_write) in
  match e with
  | None => ret ERR
  | Some l =>
    let* x := get_endpoint l in
    if ctrue (e_bound x) then ret ERR else
    let* up := get_up in
    upd_endpoint l (set_e_bound up) ;;;
    ret OK
  end.

Definition sys_endpoint_unbind (cid : Z) : KM Z :=
  let* e := find_endpoint cid (Z.lor CAP_read CAP_write) in
  match e with
  | None => ret ERR
  | Some l =>
    let* x := get_endpoint l in
    let* up := get_up in
    if negb (e_bound x =? up) then ret ERR else
    upd_endpoint l (set_e_bound NIL) ;;;
    ret OK
  end.

Definition sys_yield `{Board} : KM sysres := schedule NIL K_yield.
Definition sys_pid : KM Z :=
  let* up := get_up in
  let* u := get_proc up in
  ret (p_pid u).
Definition sys_exit `{Board} (code : Z) : KM sysres :=
  let* up := get_up in
  proc_fault up ;;;
  schedule NIL K_exit.

(** ** What a saved label resumes

    The code after the call of [schedule] that saved the label of the process
    that runs again.  [Started] is the first entry into user mode, [Trapped] the
    return into what an interrupt or a fault left. *)
Inductive resumed := Call (r : sysres) | Started (pc sp : Z) | Trapped.

Definition resume `{Board} : KM resumed :=
  let* up := get_up in
  let* u := get_proc up in
  match p_label u with
  | K_zero => fail FCall
  | K_start pc sp => ret (Started pc sp)
  | K_recv e o =>
    upd_endpoint e (set_e_rwait NIL) ;;;
    let* r := recv_round e o in ret (Call r)
  | K_reply => ret (Call (Returned OK UNone))
  | K_mesg None => ret (Call (Returned OK (UReply (p_m u))))
  | K_mesg (Some o) =>
    let* _ := get_cap o in ret (Call (Returned OK (UReply (p_m u))))
  | K_signal => ret (Call (Returned OK UNone))
  | K_yield => ret (Call (Returned OK UNone))
  | K_exit => halt Panicked
  | K_trap => ret Trapped
  end.
