(* ===== verification/IpcProps.v ===== *)
(** * What endpoints promise

    [wait_inv s W]: [W e] is the list of processes waiting on the endpoint [e],
    in the order they sent. *)
From S2P Require Import Prelude KState DList Sched SchedProps Cap Ipc.

Local Open Scope Z_scope.
Local Open Scope c_scope.

(** ** The invariant of the waiting lists *)
Definition wlinks (s : kstate) : gmap Z (Z * Z) := (fun p => (p_wprev p, p_wnext p)) <$> k_proc s.
Definition wview (p : obj_proc) : Z * Z * procstate := (p_wprev p, p_wnext p, p_state p).
Definition state_of (s : kstate) (a : Z) : option procstate := p_state <$> k_proc s !! a.
Definition wlist (x : obj_endpoint) : proc_list := mk_plist (e_whead x) (e_wtail x).

Record wait_inv (s : kstate) (W : Z -> list Z) : Prop := {
  wi_list : forall e x, k_endpoint s !! e = Some x -> dlist (wlinks s) (wlist x) (W e);
  wi_state : forall e a, is_Some (k_endpoint s !! e) -> a ∈ W e ->
    state_of s a = Some PROC_block_send \/ state_of s a = Some PROC_block_reply;
  wi_once : forall e e' a, is_Some (k_endpoint s !! e) -> is_Some (k_endpoint s !! e') ->
    a ∈ W e -> a ∈ W e' -> e = e';
  wi_rwait : forall e x, k_endpoint s !! e = Some x -> e_rwait x <> NIL ->
    state_of s (e_rwait x) = Some PROC_block_recv \/ state_of s (e_rwait x) = Some PROC_ready;
  wi_nil : k_proc s !! NIL = None
}.

Definition wupd (W : Z -> list Z) (e : Z) (l : list Z) : Z -> list Z :=
  fun e' => if decide (e' = e) then l else W e'.

(** What IPC on the lists leaves alone. *)
Definition wcore (p : obj_proc) : obj_proc := set_p_wprev NIL (set_p_wnext NIL p).
Definition ecore (x : obj_endpoint) : obj_endpoint := set_e_whead NIL (set_e_wtail NIL x).
Record wframe (s s' : kstate) : Prop := {
  wf_proc : wcore <$> k_proc s' = wcore <$> k_proc s;
  wf_endpoint : ecore <$> k_endpoint s' = ecore <$> k_endpoint s;
  wf_rest : s' = set_k_endpoint (k_endpoint s') (set_k_proc (k_proc s') s)
}.

Section waiting.
Implicit Types (s : kstate) (W : Z -> list Z) (e a b : Z) (x : obj_endpoint) (p : obj_proc).

Lemma wupd_eq W e l : wupd W e l e = l.
Proof. unfold wupd. by rewrite decide_True. Qed.
Lemma wupd_ne W e e' l : e' <> e -> wupd W e l e' = W e'.
Proof. intros. unfold wupd. by rewrite decide_False. Qed.

Lemma wlinks_wview s : wlinks s = fst <$> (wview <$> k_proc s).
Proof. unfold wlinks. rewrite <-map_fmap_compose. reflexivity. Qed.
Lemma state_wview s a : state_of s a = snd <$> (wview <$> k_proc s) !! a.
Proof. unfold state_of. rewrite lookup_fmap. by destruct (k_proc s !! a). Qed.

(** The invariant depends on the endpoints, the waiting links and the states. *)
Lemma wait_inv_ext s s' W : wview <$> k_proc s' = wview <$> k_proc s -> k_endpoint s' = k_endpoint s ->
  wait_inv s W -> wait_inv s' W.
Proof.
  intros Hv He [H1 H2 H3 H4 H5].
  assert (Hl : wlinks s' = wlinks s) by (rewrite !wlinks_wview; congruence).
  assert (Hs : forall a, state_of s' a = state_of s a) by (intros; rewrite !state_wview; congruence).
  constructor; rewrite ?He, ?Hl; [done| |done| |].
  - intros e a. rewrite Hs. apply H2.
  - intros e x. rewrite Hs. apply H4.
  - assert (E : (wview <$> k_proc s') !! NIL = None) by by rewrite Hv, lookup_fmap, H5.
    rewrite lookup_fmap in E. by destruct (k_proc s' !! NIL).
Qed.

Lemma wview_tcore (m : gmap Z obj_proc) : wview <$> m = wview <$> (tcore <$> m).
Proof. rewrite <-map_fmap_compose. reflexivity. Qed.

Lemma wait_inv_tframe s s' W : tframe s s' -> wait_inv s W -> wait_inv s' W.
Proof.
  intros [Hp (ps & rd & up & ttb & ->)]. apply wait_inv_ext; [|done].
  rewrite (wview_tcore (k_proc _)), Hp. by rewrite <-wview_tcore.
Qed.

(** A process that waits nowhere changes its state. *)
Lemma with_state_wait s W a st : wait_inv s W ->
  (forall e, is_Some (k_endpoint s !! e) -> a ∉ W e) ->
  (st = PROC_ready \/ st = PROC_block_recv \/ forall e x, k_endpoint s !! e = Some x -> e_rwait x <> a) ->
  wait_inv (with_state a st s) W.
Proof.
  intros [H1 H2 H3 H4 H5] Ha Hst.
  assert (Hl : wlinks (with_state a st s) = wlinks s).
  { unfold wlinks, with_state. cbn. by apply fmap_alter_same. }
  assert (Hs : forall b, b <> a -> state_of (with_state a st s) b = state_of s b).
  { intros b Hb. unfold state_of. by rewrite with_state_lookup_ne. }
  constructor; cbn [k_endpoint with_state set_k_proc]; rewrite ?Hl; [done| |done| |].
  - intros e b He Hb. rewrite Hs by (intros ->; by eapply Ha). by apply (H2 e).
  - intros e x He Hr. destruct (decide (e_rwait x = a)) as [E|Hne]; [|rewrite Hs by done; by apply (H4 e)].
    specialize (H4 e x He Hr). rewrite E in *. unfold state_of in *. cbn. rewrite lookup_alter_eq.
    destruct (k_proc s !! a) as [p|]; [|by destruct H4]. cbn.
    destruct Hst as [->|[->|Hst]]; [by right|by left|]. by destruct (Hst e x He).
  - cbn. rewrite lookup_alter. case_decide; [|done]. subst. by rewrite H5.
Qed.

Lemma wait_length s W e x : wait_inv s W -> k_endpoint s !! e = Some x -> (length (W e) < S (size (k_proc s)))%nat.
Proof.
  intros Hi He. destruct (wi_list s W Hi e x He) as [_ _ Hs Hn].
  apply Nat.lt_succ_r. rewrite <-(size_list_to_set (C:=gset Z) (W e)) by done.
  rewrite <-(size_dom (k_proc s) : size (dom (D:=gset Z) (k_proc s)) = _). apply subseteq_size.
  intros a Ha%elem_of_list_to_set. apply elem_of_dom.
  destruct (wi_state s W Hi e a) as [E|E]; [by eexists|done|..]; unfold state_of in E;
    (destruct (k_proc s !! a) as [p|]; [by exists p|discriminate E]).
Qed.
End waiting.

(** ** Appending to and removing from a waiting list *)
Definition wappend_procs (t a : Z) (ps : gmap Z obj_proc) : gmap Z obj_proc :=
  let ps1 := alter (set_p_wprev t) a ps in
  let ps2 := if t =? NIL then ps1 else alter (set_p_wnext a) t ps1 in
  alter (set_p_wnext NIL) a ps2.
Definition wunlink_procs (p n : Z) (ps : gmap Z obj_proc) : gmap Z obj_proc :=
  let ps1 := if p =? NIL then ps else alter (set_p_wnext n) p ps in
  if n =? NIL then ps1 else alter (set_p_wprev p) n ps1.
Definition wappended (s : kstate) (e a : Z) (x : obj_endpoint) : kstate :=
  set_k_endpoint (<[e := set_e_wtail a (if e_wtail x =? NIL then set_e_whead a x else x)]> (k_endpoint s))
    (set_k_proc (wappend_procs (e_wtail x) a (k_proc s)) s).
Definition wunlinked (s : kstate) (e p n : Z) (x : obj_endpoint) : kstate :=
  let x1 := if p =? NIL then set_e_whead n x else x in
  set_k_endpoint (<[e := if n =? NIL then set_e_wtail p x1 else x1]> (k_endpoint s))
    (set_k_proc (wunlink_procs p n (k_proc s)) s).

Section waiting_change.
Implicit Types (s : kstate) (W : Z -> list Z) (e a b : Z) (x : obj_endpoint) (p : obj_proc) (ps : gmap Z obj_proc).
Let lk p : Z * Z := (p_wprev p, p_wnext p).

Lemma wappend_links t a ps q : is_Some (ps !! a) -> a <> t -> l_tail q = t ->
  lk <$> wappend_procs t a ps = links_append (lk <$> ps) q a.
Proof.
  intros [p Hp] Hne <-. unfold wappend_procs, links_append. set (t := l_tail q) in *.
  assert (E1 : lk <$> alter (set_p_wprev t) a ps = <[a := (t, p_wnext p)]> (lk <$> ps)).
  { rewrite (alter_insert_lookup _ _ _ p) by done. by rewrite fmap_insert. }
  destruct (Z.eqb_spec t NIL) as [E|E].
  - rewrite (fmap_alter_proj lk (fun y => (y.1, NIL))) by done. rewrite E1.
    rewrite (alter_insert_lookup _ _ _ (t, p_wnext p)) by apply lookup_insert_eq. by rewrite insert_insert_eq.
  - rewrite (fmap_alter_proj lk (fun y => (y.1, NIL))) by done.
    rewrite (fmap_alter_proj lk (fun y => (y.1, a))) by done. rewrite E1.
    apply map_eq. intros i. destruct (decide (i = a)) as [->|Hia].
    + rewrite lookup_alter_eq, !lookup_alter_ne, !lookup_insert_eq by done. done.
    + rewrite lookup_alter_ne by done. destruct (decide (i = t)) as [->|Hit].
      * rewrite !lookup_alter_eq, !lookup_insert_ne by done. done.
      * by rewrite !lookup_alter_ne, !lookup_insert_ne by done.
Qed.

Lemma wunlink_links (p n : Z) ps : lk <$> wunlink_procs p n ps = links_unlink (lk <$> ps) p n.
Proof.
  unfold wunlink_procs, links_unlink. repeat case_match;
    rewrite ?(fmap_alter_proj lk (fun y => (p, y.2))) by done;
    rewrite ?(fmap_alter_proj lk (fun y => (y.1, n))) by done; done.
Qed.

Lemma wappend_core t a ps : wcore <$> wappend_procs t a ps = wcore <$> ps.
Proof. unfold wappend_procs. case_match; by rewrite !fmap_alter_same by done. Qed.
Lemma wunlink_core (p n : Z) ps : wcore <$> wunlink_procs p n ps = wcore <$> ps.
Proof. unfold wunlink_procs. repeat case_match; by rewrite ?fmap_alter_same by done. Qed.

Lemma ecore_insert (m : gmap Z obj_endpoint) e x x' :
  m !! e = Some x -> ecore x' = ecore x -> ecore <$> <[e := x']> m = ecore <$> m.
Proof. intros Hx Hc. rewrite fmap_insert, Hc. apply insert_id. by rewrite lookup_fmap, Hx. Qed.

Lemma wframe_state s s' b : wframe s s' -> state_of s' b = state_of s b.
Proof.
  intros [Hp _ _]. unfold state_of. assert (E : (wcore <$> k_proc s') !! b = (wcore <$> k_proc s) !! b) by congruence.
  rewrite !lookup_fmap in E. destruct (k_proc s' !! b) as [p'|], (k_proc s !! b) as [p|]; try done.
  cbn in *. f_equal. change (p_state (wcore p') = p_state (wcore p)). congruence.
Qed.

Lemma wframe_rwait s s' e x : wframe s s' -> k_endpoint s' !! e = Some x ->
  exists x0, k_endpoint s !! e = Some x0 /\ ecore x = ecore x0.
Proof.
  intros [_ He _] Hx. assert (E : (ecore <$> k_endpoint s') !! e = (ecore <$> k_endpoint s) !! e) by congruence.
  rewrite !lookup_fmap, Hx in E. destruct (k_endpoint s !! e) as [x0|]; [|done]. exists x0. split; [done|].
  cbn in E. congruence.
Qed.

Lemma wframe_nil s s' : wframe s s' -> k_proc s !! NIL = None -> k_proc s' !! NIL = None.
Proof.
  intros [Hp _ _] Hn. assert (E : (wcore <$> k_proc s') !! NIL = (wcore <$> k_proc s) !! NIL) by congruence.
  rewrite !lookup_fmap, Hn in E. by destruct (k_proc s' !! NIL).
Qed.

(** One endpoint's list changes, the links of all others' members do not. *)
Lemma wait_inv_change s s' W e L : wait_inv s W -> wframe s s' ->
  (forall e' b, e' <> e -> is_Some (k_endpoint s !! e') -> b ∈ W e' -> wlinks s' !! b = wlinks s !! b) ->
  (forall e' x, e' <> e -> k_endpoint s' !! e' = Some x -> k_endpoint s !! e' = Some x) ->
  (forall x, k_endpoint s' !! e = Some x -> dlist (wlinks s') (wlist x) L) ->
  (forall b, b ∈ L -> (state_of s b = Some PROC_block_send \/ state_of s b = Some PROC_block_reply) /\
     forall e', e' <> e -> is_Some (k_endpoint s !! e') -> b ∉ W e') ->
  wait_inv s' (wupd W e L).
Proof.
  intros [H1 H2 H3 H4 H5] Hf Hl He Hd HL.
  assert (Hs : forall e', is_Some (k_endpoint s' !! e') -> is_Some (k_endpoint s !! e')).
  { intros e' [x Hx]. destruct (wframe_rwait s s' e' x Hf Hx) as (x0 & ? & _). by exists x0. }
  constructor.
  - intros e' x Hx. destruct (decide (e' = e)) as [->|Hne]; [rewrite wupd_eq; by apply Hd|].
    rewrite wupd_ne by done. eapply dlist_frame; [|apply H1; by apply He].
    intros b Hb. eapply Hl; [done| |done]. apply Hs. by exists x.
  - intros e' a Hx Ha. rewrite (wframe_state s s') by done. unfold wupd in Ha. case_decide; [by apply HL|].
    apply (H2 e'); auto.
  - intros e1 e2 a He1 He2 Ha1 Ha2. unfold wupd in Ha1, Ha2.
    destruct (decide (e1 = e)) as [E1|E1], (decide (e2 = e)) as [E2|E2]; [congruence|..].
    + destruct (HL a) as [_ Hno]; [done|]. destruct (Hno e2); auto.
    + destruct (HL a) as [_ Hno]; [done|]. destruct (Hno e1); auto.
    + apply (H3 e1 e2 a); auto.
  - intros e' x Hx Hr. rewrite (wframe_state s s') by done.
    destruct (wframe_rwait s s' e' x Hf Hx) as (x0 & Hx0 & Hc).
    assert (E : e_rwait x = e_rwait x0) by (change (e_rwait (ecore x) = e_rwait (ecore x0)); congruence).
    rewrite E in *. by apply (H4 e').
  - by apply (wframe_nil s).
Qed.
End waiting_change.

Section waiting_ops.
Implicit Types (s : kstate) (W : Z -> list Z) (e a b : Z) (x : obj_endpoint) (p : obj_proc).

Lemma upd_endpoint_run s e f x : k_endpoint s !! e = Some x ->
  upd_endpoint e f s = Ok tt (set_k_endpoint (<[e := f x]> (k_endpoint s)) s).
Proof. intros Hx. unfold upd_endpoint, bind, get_endpoint, read. by rewrite Hx. Qed.

Lemma lookup_alter_other {A} (f : A -> A) (m : gmap Z A) i j : j <> i -> alter f j m !! i = m !! i.
Proof. intros. by rewrite lookup_alter_ne. Qed.

Lemma waiting_append_run s e a x p : k_endpoint s !! e = Some x -> k_proc s !! a = Some p ->
  (e_wtail x <> NIL -> is_Some (k_proc s !! e_wtail x)) ->
  waiting_append e a s = Ok tt (wappended s e a x).
Proof.
  intros Hx Hp Ht. unfold waiting_append. set (t := e_wtail x) in *.
  erewrite bind_ok by (unfold get_endpoint; by apply read_ok).
  fold t. erewrite bind_ok by (apply upd_proc_alter; by exists p).
  set (s1 := set_k_proc (alter (set_p_wprev t) a (k_proc s)) s).
  assert (Hp1 : k_proc s1 !! a = Some (set_p_wprev t p)) by (cbn; by rewrite lookup_alter_eq, Hp).
  unfold wappended, wappend_procs. fold t. unfold ctrue.
  destruct (Z.eqb_spec t NIL) as [E|E].
  - erewrite bind_ok.
    2: { erewrite bind_ok by (unfold get_proc; by apply read_ok). cbn [p_wprev set_p_wprev].
         rewrite (proj2 (Z.eqb_eq _ _) E). cbn [negb]. by apply (upd_endpoint_run _ _ _ x). }
    erewrite bind_ok by (apply upd_proc_alter; by eexists).
    rewrite (upd_endpoint_run _ _ _ (set_e_whead a x)) by (cbn; apply lookup_insert_eq).
    cbn. unfold set_k_endpoint, set_k_proc; cbn. by rewrite insert_insert_eq.
  - erewrite bind_ok.
    2: { erewrite bind_ok by (unfold get_proc; by apply read_ok). cbn [p_wprev set_p_wprev].
         rewrite (proj2 (Z.eqb_neq _ _) E). cbn [negb]. apply upd_proc_alter. cbn. by apply alter_is_Some, Ht. }
    erewrite bind_ok by (apply upd_proc_alter; cbn; apply alter_is_Some; by eexists).
    by rewrite (upd_endpoint_run _ _ _ x).
Qed.

(** A process that has just begun to send joins the list at its end. *)
Lemma waiting_append_spec s W e a x p : wait_inv s W -> k_endpoint s !! e = Some x -> k_proc s !! a = Some p ->
  p_state p = PROC_block_send -> (forall e', is_Some (k_endpoint s !! e') -> a ∉ W e') ->
  waiting_append e a s = Ok tt (wappended s e a x) /\ wframe s (wappended s e a x) /\
  wait_inv (wappended s e a x) (wupd W e (W e ++ [a])).
Proof.
  intros Hi Hx Hp Hst Hno. pose proof (wi_list s W Hi e x Hx) as Hd.
  assert (Ha : a <> NIL) by (intros ->; by rewrite (wi_nil s W Hi) in Hp).
  assert (Hex : is_Some (k_endpoint s !! e)) by by exists x.
  assert (Htail : e_wtail x = NIL \/ e_wtail x ∈ W e) by apply (dlist_tail_elem _ _ _ Hd).
  assert (Hat : a <> e_wtail x) by (intros E; destruct Htail as [?|Ht]; [congruence|rewrite <-E in Ht; by eapply Hno]).
  assert (Hf : wframe s (wappended s e a x)).
  { constructor; cbn; [apply wappend_core| |done].
    apply (ecore_insert _ _ x); [done|]. by destruct (e_wtail x =? NIL). }
  split; [|split; [done|]].
  - eapply waiting_append_run; [done|done|]. intros Ht. destruct Htail as [?|Hin]; [done|].
    destruct (dlist_elem _ _ _ _ Hd Hin) as [_ [y Hy]]. unfold wlinks in Hy. rewrite lookup_fmap in Hy.
    destruct (k_proc s !! e_wtail x) as [q|]; [by exists q|discriminate Hy].
  - apply (wait_inv_change s _ W e); [done|done|..].
    + intros e' b Hne He' Hb. unfold wlinks at 1. cbn [k_proc wappended set_k_endpoint set_k_proc].
      rewrite (wappend_links _ _ _ (wlist x)) by (done || by exists p).
      apply links_append_other; [intros ->; by eapply Hno|]. cbn. intros ->.
      destruct Htail as [E|Hin]; [|by apply Hne, (wi_once s W Hi e' e (e_wtail x))].
      destruct He' as [x' Hx']. destruct (dlist_elem _ _ _ _ (wi_list s W Hi e' x' Hx') Hb). done.
    + intros e' x' Hne. cbn. by rewrite lookup_insert_ne.
    + intros x'. cbn. rewrite lookup_insert_eq. intros [= <-].
      unfold wlinks. cbn [k_proc wappended set_k_endpoint set_k_proc].
      rewrite (wappend_links _ _ _ (wlist x)) by (done || by exists p).
      pose proof (dlist_append _ _ _ a Hd Ha (Hno e Hex)) as Hd'. unfold plist_append, wlist in *. cbn in *.
      by destruct (e_wtail x =? NIL).
    + intros b [Hb|Hb%list_elem_of_singleton]%elem_of_app.
      * split; [by apply (wi_state s W Hi e)|]. intros e' Hne He' Hb'. by apply Hne, (wi_once s W Hi e' e b).
      * subst b. split; [left; unfold state_of; rewrite Hp; cbn; by rewrite Hst|]. intros; by apply Hno.
Qed.
End waiting_ops.

Section unlinking.
Implicit Types (s : kstate) (W : Z -> list Z) (e a b : Z) (x : obj_endpoint) (p : obj_proc).

Lemma waiting_unlink_run s e a x p : k_endpoint s !! e = Some x -> k_proc s !! a = Some p ->
  p_wprev p <> a -> p_wnext p <> a ->
  (p_wprev p <> NIL -> is_Some (k_proc s !! p_wprev p)) ->
  (p_wnext p <> NIL -> is_Some (k_proc s !! p_wnext p)) ->
  waiting_unlink e a s = Ok tt (wunlinked s e (p_wprev p) (p_wnext p) x).
Proof.
  intros Hx Hp Hpa Hna Hpe Hne. unfold waiting_unlink, wunlinked, wunlink_procs, ctrue.
  set (pr := p_wprev p) in *. set (n := p_wnext p) in *.
  destruct (Z.eqb_spec pr NIL) as [E1|E1].
  - erewrite bind_ok.
    2: { erewrite bind_ok by (unfold get_proc; by apply read_ok). fold pr n. rewrite (proj2 (Z.eqb_eq _ _) E1).
         cbn [negb]. by apply (upd_endpoint_run _ _ _ x). }
    erewrite bind_ok by (unfold get_proc; apply read_ok; cbn; exact Hp). fold n pr.
    destruct (Z.eqb_spec n NIL) as [E2|E2]; cbn [negb].
    + rewrite (upd_endpoint_run _ _ _ (set_e_whead n x)) by (cbn; apply lookup_insert_eq).
      cbn. unfold set_k_endpoint, set_k_proc; cbn. rewrite insert_insert_eq. by destruct s.
    + by rewrite upd_proc_alter by (cbn; by apply Hne).
  - erewrite bind_ok.
    2: { erewrite bind_ok by (unfold get_proc; by apply read_ok). fold pr n. rewrite (proj2 (Z.eqb_neq _ _) E1).
         cbn [negb]. apply upd_proc_alter. by apply Hpe. }
    assert (Hp' : k_proc (set_k_proc (alter (set_p_wnext n) pr (k_proc s)) s) !! a = Some p)
      by (cbn; by rewrite lookup_alter_ne).
    erewrite bind_ok by (unfold get_proc; by apply read_ok). fold n pr.
    destruct (Z.eqb_spec n NIL) as [E2|E2]; cbn [negb].
    + by rewrite (upd_endpoint_run _ _ _ x).
    + rewrite upd_proc_alter by (cbn; by apply alter_is_Some, Hne). unfold set_k_endpoint, set_k_proc; cbn.
      rewrite insert_id by done. by destruct s.
Qed.

(** Taking a member off the list leaves the others in their order. *)
Lemma waiting_unlink_spec s W e a x l1 l2 : wait_inv s W -> k_endpoint s !! e = Some x -> W e = l1 ++ a :: l2 ->
  exists s', waiting_unlink e a s = Ok tt s' /\ wframe s s' /\ wait_inv s' (wupd W e (l1 ++ l2)).
Proof.
  intros Hi Hx HW. pose proof (wi_list s W Hi e x Hx) as Hd. rewrite HW in Hd.
  assert (Hex : is_Some (k_endpoint s !! e)) by by exists x.
  pose proof (dlist_links _ _ _ _ _ Hd) as Hl. unfold wlinks in Hl. rewrite lookup_fmap in Hl.
  destruct (k_proc s !! a) as [p|] eqn:Hp; [|discriminate Hl]. cbn in Hl. injection Hl as Hpr Hnx.
  assert (Hin : forall b, b ∈ l1 ++ a :: l2 -> b <> NIL /\ is_Some (k_proc s !! b)).
  { intros b Hb. destruct (dlist_elem _ _ _ b Hd Hb) as [? [y Hy]]. split; [done|]. unfold wlinks in Hy.
    rewrite lookup_fmap in Hy. destruct (k_proc s !! b) as [q|]; [by exists q|discriminate Hy]. }
  assert (Hn : a ∉ l1 /\ a ∉ l2).
  { destruct Hd as [_ _ _ Hn]. apply NoDup_app in Hn as (_ & Hxx & [? _]%NoDup_cons). split; [|done].
    intros ?. by eapply Hxx, list_elem_of_here. }
  assert (Hp1 : p_wprev p = NIL \/ p_wprev p ∈ l1) by (rewrite Hpr; apply lastz_elem).
  assert (Hn1 : p_wnext p = NIL \/ p_wnext p ∈ l2) by (rewrite Hnx; apply firstz_elem).
  assert (Ha0 : a <> NIL) by (apply Hin; set_solver).
  assert (Hb : forall e' b, e' <> e -> is_Some (k_endpoint s !! e') -> b ∈ W e' -> b ∉ l1 ++ a :: l2).
  { intros e' b Hne He' Hb Hb'. rewrite <-HW in Hb'. by apply Hne, (wi_once s W Hi e' e b). }
  set (s' := wunlinked s e (p_wprev p) (p_wnext p) x). exists s'. split; [|split].
  - apply waiting_unlink_run; [done|done|..].
    + intros E. rewrite E in Hp1. naive_solver.
    + intros E. rewrite E in Hn1. naive_solver.
    + intros ?. destruct Hp1; [done|]. apply Hin. set_solver.
    + intros ?. destruct Hn1; [done|]. apply Hin. set_solver.
  - constructor; cbn; [apply wunlink_core| |done]. apply (ecore_insert _ _ x); [done|]. by repeat case_match.
  - apply (wait_inv_change s _ W e); [done|..].
    + constructor; cbn; [apply wunlink_core| |done]. apply (ecore_insert _ _ x); [done|]. by repeat case_match.
    + intros e' b Hne He' Hbw. unfold wlinks at 1. cbn [k_proc s' wunlinked set_k_endpoint set_k_proc].
      rewrite wunlink_links. specialize (Hb e' b Hne He' Hbw).
      assert (b <> NIL) by (destruct He' as [x' Hx']; by destruct (dlist_elem _ _ _ b (wi_list s W Hi e' x' Hx') Hbw)).
      apply links_unlink_other; intros ->; [destruct Hp1|destruct Hn1]; set_solver.
    + intros e' x' Hne. cbn. by rewrite lookup_insert_ne.
    + intros x'. cbn. rewrite lookup_insert_eq. intros [= <-]. unfold wlinks. cbn [k_proc s' wunlinked set_k_endpoint set_k_proc].
      rewrite wunlink_links. pose proof (dlist_unlink _ _ _ _ _ Hd) as Hd'. rewrite <-Hpr, <-Hnx in Hd'.
      unfold plist_unlink, wlist in *. cbn in *. by destruct (p_wprev p =? NIL), (p_wnext p =? NIL).
    + intros b Hb'. assert (Hbw : b ∈ W e) by (rewrite HW; set_solver). split; [by apply (wi_state s W Hi e)|].
      intros e' Hne He' Hb2. by apply Hne, (wi_once s W Hi e' e b).
Qed.
End unlinking.

(** ** Scanning a waiting list *)
Section scans.
Implicit Types (s : kstate) (W : Z -> list Z) (e a b : Z) (x : obj_endpoint) (p : obj_proc).

Definition senders s (l : list Z) : list Z := filter (fun a => state_of s a = Some PROC_block_send) l.
(** Waiting for the reply of process [pid]'s message. *)
Definition awaits s (pid a : Z) : Prop :=
  state_of s a = Some PROC_block_reply /\ p_pid <$> k_proc s !! a = Some pid.
#[export] Instance awaits_dec s pid a : Decision (awaits s pid a).
Proof. unfold awaits. apply _. Defined.

Lemma wlinks_proc s a pr n : wlinks s !! a = Some (pr, n) ->
  exists p, k_proc s !! a = Some p /\ p_wprev p = pr /\ p_wnext p = n.
Proof.
  unfold wlinks. rewrite lookup_fmap. destruct (k_proc s !! a) as [p|]; [|done]. cbn. intros [= <- <-]. by exists p.
Qed.

Lemma pending_scan_spec s l pr o fuel : dseg (wlinks s) pr l NIL -> (length l < fuel)%nat ->
  pending_scan fuel (firstz NIL l) o s =
  match senders s l with
  | [] => Ok UNone s
  | b :: _ => (let* p := get_proc b in pending_take b p o)%c s
  end.
Proof.
  revert pr fuel. induction l as [|a l IH]; intros pr [|fuel] Hd Hf; cbn in Hf; try lia; [done|].
  destruct Hd as (Ha & Hl & Hd). apply wlinks_proc in Hl as (p & Hp & _ & Hn). cbn [pending_scan].
  change (firstz NIL (a :: l)) with a. rewrite (proj2 (Z.eqb_neq _ _) Ha).
  erewrite bind_ok by (unfold get_proc; by apply read_ok). unfold senders. rewrite filter_cons.
  assert (Hs : state_of s a = Some (p_state p)) by (unfold state_of; by rewrite Hp).
  rewrite Hs. destruct (decide (p_state p = PROC_block_send)) as [E|E].
  - rewrite decide_True by congruence. cbn beta iota. by erewrite bind_ok by (unfold get_proc; by apply read_ok).
  - rewrite decide_False by congruence. rewrite Hn. by apply (IH a); [|lia].
Qed.

Lemma reply_scan_spec s l pr pid fuel : dseg (wlinks s) pr l NIL -> (length l < fuel)%nat ->
  reply_scan fuel (firstz NIL l) pid s = Ok (firstz NIL (filter (awaits s pid) l)) s.
Proof.
  revert pr fuel. induction l as [|a l IH]; intros pr [|fuel] Hd Hf; cbn in Hf; try lia; [done|].
  destruct Hd as (Ha & Hl & Hd). apply wlinks_proc in Hl as (p & Hp & _ & Hn). cbn [reply_scan].
  change (firstz NIL (a :: l)) with a. rewrite (proj2 (Z.eqb_neq _ _) Ha).
  erewrite bind_ok by (unfold get_proc; by apply read_ok). rewrite filter_cons.
  assert (Hs : state_of s a = Some (p_state p)) by (unfold state_of; by rewrite Hp).
  assert (IH' := IH a fuel Hd ltac:(lia)). rewrite Hn.
  destruct (decide (p_state p = PROC_block_reply)) as [E|E].
  - destruct (Z.eqb_spec (p_pid p) pid) as [Ep|Ep].
    + rewrite decide_True; [done|]. split; [congruence|]. rewrite Hp. cbn. congruence.
    + rewrite decide_False; [done|]. intros [_ Hpp]. rewrite Hp in Hpp. cbn in Hpp. congruence.
  - rewrite decide_False; [done|]. intros [Hx _]. congruence.
Qed.
End scans.

(** ** Switching away from a call *)

(** [s] has been left by a context switch: the queues and the waiting lists are
    in order, the caller will continue with [k], a ready process runs. *)
Record switched (s : kstate) (W : Z -> list Z) (k : cont) (s' : kstate) : Prop := {
  sw_sched : exists Q', sched_inv s' Q';
  sw_queued : all_queued s';
  sw_wait : wait_inv s' W;
  sw_frame : tframe s s';
  sw_label : p_label <$> k_proc s' !! k_up s = Some k;
  sw_runs : is_ready s' (k_up s') = true
}.

Section switching.
Context `{Board}.
Implicit Types (s : kstate) (Q : Z * Z -> list Z) (W : Z -> list Z) (a p n : Z) (k : cont).

Lemma saved_label s k : k_up s <> NIL -> is_Some (k_proc s !! k_up s) ->
  p_label <$> k_proc (saved k s) !! k_up s = Some k.
Proof.
  intros Hn [u Hu]. unfold saved. rewrite (proj2 (Z.eqb_neq _ _) Hn). cbn. rewrite lookup_alter_eq, Hu. done.
Qed.

Lemma schedule_switched s Q W n k : sched_inv s Q -> no_lost s -> wait_inv s W ->
  is_Some (k_proc s !! k_up s) -> (n <> NIL -> is_Some (k_proc s !! n)) ->
  wpe (schedule n k) s (fun r s' => r = Switched /\ switched s W k s')
    (fun w s' => w = Panicked /\ forall b, is_ready s b = false).
Proof.
  intros Hi Hnl Hw Hup Hn. eapply wpe_mono; [eapply schedule_spec; eauto| |done]. cbn beta.
  intros r s' (-> & Q' & Hi' & Hq & Hf & Hl & Hr & _). split; [done|]. constructor; [by exists Q'|done| |done| |].
  - by eapply wait_inv_tframe.
  - assert (E : (p_label <$> k_proc s') !! k_up s = (p_label <$> k_proc (saved k s)) !! k_up s) by by rewrite Hl.
    rewrite !lookup_fmap in E. rewrite E. apply saved_label; [|done]. intros E0. rewrite E0, (si_nil _ _ Hi) in Hup.
    by destruct Hup.
  - by rewrite (tframe_is_ready s s').
Qed.

(** Waking a process does not lose any. *)
Lemma proc_ready_kept s Q p : sched_inv s Q -> no_lost s -> is_Some (k_proc s !! p) ->
  wp (proc_ready p) s (fun _ s' => exists Q', sched_inv s' Q' /\ no_lost s' /\
    sframe (with_state p PROC_ready s) s' /\ is_ready s' p = true).
Proof.
  intros Hi Hnl Hp. eapply wpe_mono; [by eapply proc_ready_spec| |done]. cbn beta.
  intros r s' (-> & Q' & Hi' & Hf & (q & Hq & Hst & Hsl) & Hqs). exists Q'. split; [done|].
  split; [|split; [done|apply is_ready_proc; by exists q]].
  intros a y Hy Hya Hne. destruct (decide (a = p)) as [->|Hap]; [congruence|].
  destruct (sframe_lookup_back _ s' a y Hf Hy) as (y0 & Hy0 & Hc). rewrite with_state_lookup_ne in Hy0 by done.
  apply (slist_queued s' Q' a y Hi' Hy). apply Hqs; [done|].
  assert (Hpr : p_priority y = p_priority y0) by (change (p_priority (pcore y) = p_priority (pcore y0)); by rewrite Hc).
  rewrite Hpr. apply (slist_queued s Q a y0 Hi Hy0). apply (Hnl a y0); [done| |].
  - change (p_state (pcore y0) = PROC_ready). by rewrite <-Hc.
  - pose proof (sf_rest _ _ Hf) as E. rewrite E in Hne. exact Hne.
Qed.

Lemma wake_spec s Q W p k : sched_inv s Q -> no_lost s -> wait_inv s W ->
  is_Some (k_proc s !! k_up s) -> is_Some (k_proc s !! p) ->
  (forall e, is_Some (k_endpoint s !! e) -> p ∉ W e) ->
  wp (proc_ready p ;;; schedule p k) s (fun r s' => r = Switched /\
    switched (with_state p PROC_ready s) W k s' /\ is_ready s' p = true).
Proof.
  intros Hi Hnl Hw Hup Hp Hno. apply wpe_bind. eapply wpe_mono; [by eapply proc_ready_kept| |done].
  cbn beta. intros _ s1 (Q1 & Hi1 & Hnl1 & Hf1 & Hr1).
  assert (Hf : tframe (with_state p PROC_ready s) s1) by by apply sframe_tframe.
  assert (Hw1 : wait_inv s1 W).
  { eapply wait_inv_tframe; [done|]. apply with_state_wait; [done|done|by left]. }
  assert (Hu1 : k_up s1 = k_up s) by (by rewrite (sf_rest _ _ Hf1)).
  assert (Hpr : forall b, is_Some (k_proc s !! b) -> is_Some (k_proc s1 !! b)).
  { intros b Hb. eapply tframe_is_Some; [done|]. cbn. by apply alter_is_Some. }
  eapply wpe_mono; [eapply (schedule_switched s1 Q1 W p k)| |]; [done..| | | |].
  - rewrite Hu1. by apply Hpr.
  - intros _. by apply Hpr.
  - cbn beta. intros r s' (-> & [S1 S2 S3 S4 S5 S6]). split; [done|]. split; [constructor; try done|].
    + by etransitivity.
    + cbn. by rewrite <-Hu1.
    + by rewrite (tframe_is_ready s1 s').
  - cbn beta. intros w s' (_ & Hb). rewrite Hb in Hr1. discriminate Hr1.
Qed.
End switching.

(** ** Sending *)

(** The state of the running process when it enters IPC: it is not waiting, and
    no endpoint takes it for its receiver. *)
Record caller_ok (s : kstate) (W : Z -> list Z) : Prop := {
  cl_proc : is_Some (k_proc s !! k_up s);
  cl_waits : forall e, is_Some (k_endpoint s !! e) -> k_up s ∉ W e;
  cl_rwait : forall e x, k_endpoint s !! e = Some x -> e_rwait x <> k_up s
}.

(** The process fields that IPC carries. *)
Definition message_of (s : kstate) (a : Z) : option (list Z * option capref) :=
  (fun p => (p_m p, p_give p)) <$> k_proc s !! a.

Definition begin_send (rq : list Z) (o : option capref) (p : obj_proc) : obj_proc :=
  set_p_state PROC_block_send (set_p_give o (set_p_m rq p)).

Section sending.
Context `{Board}.
Implicit Types (s : kstate) (Q : Z * Z -> list Z) (W : Z -> list Z) (e a : Z) (x : obj_endpoint).

Lemma tframe_field {B} (f : obj_proc -> B) s s' a : tframe s s' ->
  (forall p, f p = f (tcore p)) -> f <$> k_proc s' !! a = f <$> k_proc s !! a.
Proof.
  intros [Hp _] Hf. assert (E : (tcore <$> k_proc s') !! a = (tcore <$> k_proc s) !! a) by congruence.
  rewrite !lookup_fmap in E. destruct (k_proc s' !! a), (k_proc s !! a); try done. cbn in *. f_equal.
  rewrite Hf, (Hf o0). congruence.
Qed.

Lemma wframe_field {B} (f : obj_proc -> B) s s' a : wframe s s' ->
  (forall p, f p = f (wcore p)) -> f <$> k_proc s' !! a = f <$> k_proc s !! a.
Proof.
  intros [Hp _ _] Hf. assert (E : (wcore <$> k_proc s') !! a = (wcore <$> k_proc s) !! a) by congruence.
  rewrite !lookup_fmap in E. destruct (k_proc s' !! a), (k_proc s !! a); try done. cbn in *. f_equal.
  rewrite Hf, (Hf o0). congruence.
Qed.

Lemma sview_wcore s s' : wframe s s' -> sview <$> k_proc s' = sview <$> k_proc s.
Proof.
  intros [Hp _ _]. assert (E : forall m : gmap Z obj_proc, sview <$> m = sview <$> (wcore <$> m))
    by (intros m; by rewrite <-map_fmap_compose). by rewrite E, Hp, <-E.
Qed.

Lemma wframe_ready_lists s s' : wframe s s' -> k_ready s' = k_ready s /\ k_up s' = k_up s.
Proof. intros [_ _ E]. by rewrite E. Qed.

Lemma wframe_sched s s' Q : wframe s s' -> sched_inv s Q -> sched_inv s' Q.
Proof. intros Hf. apply sched_inv_ext; [by apply sview_wcore|]. by apply wframe_ready_lists. Qed.

(** Being lost concerns states, queues and the running process. *)
Definition lview (p : obj_proc) : procstate * option (Z * Z) := (p_state p, p_slist p).
Lemma no_lost_ext s s' : k_up s' = k_up s ->
  (forall a, a <> k_up s -> lview <$> k_proc s' !! a = lview <$> k_proc s !! a) -> no_lost s -> no_lost s'.
Proof.
  intros Hu Hv Hnl a p Hp Hst Hne. rewrite Hu in Hne. specialize (Hv a Hne). rewrite Hp in Hv.
  destruct (k_proc s !! a) as [p0|] eqn:E; [|done]. unfold lview in Hv. cbn in Hv.
  injection Hv as H1 H2. rewrite H2. apply (Hnl a p0); [done|congruence|done].
Qed.

(** The caller becomes a sender and joins the endpoint's list. *)
Lemma mesg_enter s Q W e x rq o : sched_inv s Q -> no_lost s -> wait_inv s W -> caller_ok s W ->
  k_endpoint s !! e = Some x ->
  exists s2 x2, (forall (K : KM sysres) Qp E, wpe K s2 Qp E ->
    wpe (upd_proc (k_up s) (set_p_m rq) ;;; upd_proc (k_up s) (set_p_give o) ;;;
      upd_proc (k_up s) (set_p_state PROC_block_send) ;;; waiting_append e (k_up s) ;;; K) s Qp E) /\
    sched_inv s2 Q /\ no_lost s2 /\ wait_inv s2 (wupd W e (W e ++ [k_up s])) /\ k_up s2 = k_up s /\
    k_endpoint s2 !! e = Some x2 /\ e_rwait x2 = e_rwait x /\
    (forall a, is_Some (k_endpoint s2 !! a) -> is_Some (k_endpoint s !! a)) /\
    (forall a, a <> k_up s -> state_of s2 a = state_of s a) /\
    message_of s2 (k_up s) = Some (rq, o) /\ state_of s2 (k_up s) = Some PROC_block_send /\
    k_caplist s2 = k_caplist s /\ (forall a, a <> k_up s -> message_of s2 a = message_of s a).
Proof.
  intros Hi Hnl Hw [[u Hu] Hno Hrw] Hx. set (up := k_up s) in *.
  set (s1 := set_k_proc (<[up := begin_send rq o u]> (k_proc s)) s).
  assert (Hrun : (upd_proc up (set_p_m rq) ;;; upd_proc up (set_p_give o) ;;; upd_proc up (set_p_state PROC_block_send))%c s
    = Ok tt s1).
  { erewrite bind_ok by (apply upd_proc_alter; by exists u).
    erewrite bind_ok by (apply upd_proc_alter; cbn; apply alter_is_Some; by exists u).
    rewrite upd_proc_alter by (cbn; do 2 apply alter_is_Some; by exists u). f_equal. unfold s1, set_k_proc; cbn. f_equal.
    apply map_eq. intros i. rewrite !lookup_alter, lookup_insert. case_decide; [|done]. subst i. by rewrite !decide_True, Hu. }
  assert (Hs1 : s1 = with_state up PROC_block_send (set_k_proc (<[up := set_p_give o (set_p_m rq u)]> (k_proc s)) s)).
  { unfold s1, with_state, set_k_proc; cbn. f_equal. symmetry.
    rewrite (alter_insert_lookup _ _ _ (set_p_give o (set_p_m rq u))) by apply lookup_insert_eq. apply insert_insert_eq. }
  assert (Hi1 : sched_inv s1 Q) by (eapply sched_inv_ext, Hi; [by apply (sview_insert _ _ u)|done]).
  assert (Hw1 : wait_inv s1 W).
  { rewrite Hs1. apply with_state_wait; [|done|by right; right].
    eapply wait_inv_ext, Hw; [|done]. cbn. rewrite fmap_insert. apply insert_id. by rewrite lookup_fmap, Hu. }
  assert (Hnl1 : no_lost s1).
  { eapply no_lost_ext, Hnl; [done|]. intros a Hne. cbn. by rewrite lookup_insert_ne. }
  destruct (waiting_append_spec s1 W e up x (begin_send rq o u)) as (Hrun2 & Hf & Hw2); [done|done|apply lookup_insert_eq|done|done|].
  set (s2 := wappended s1 e up x) in *. exists s2, (set_e_wtail up (if e_wtail x =? NIL then set_e_whead up x else x)).
  destruct (wframe_ready_lists s1 s2 Hf) as [_ Hu2]. split_and!.
  - intros K Qp E HK. unfold wpe, bind in Hrun |- *.
    destruct (upd_proc up (set_p_m rq) s) as [? sa|? sa| |]; try discriminate Hrun.
    destruct (upd_proc up (set_p_give o) sa) as [? sb|? sb| |]; try discriminate Hrun. by rewrite Hrun, Hrun2.
  - by eapply wframe_sched.
  - eapply no_lost_ext, Hnl1; [done|]. intros a _. by apply wframe_field.
  - done.
  - done.
  - cbn. apply lookup_insert_eq.
  - by case_match.
  - intros a Ha. cbn in Ha. rewrite lookup_insert in Ha. case_decide as E; [subst a; by exists x|done].
  - intros a Hne. rewrite (wframe_state s1 s2) by done. unfold state_of. cbn. by rewrite lookup_insert_ne.
  - unfold message_of. rewrite (wframe_field (fun p => (p_m p, p_give p)) s1 s2) by done.
    cbn. by rewrite lookup_insert_eq.
  - rewrite (wframe_state s1 s2) by done. unfold state_of. cbn. by rewrite lookup_insert_eq.
  - done.
  - intros a Hne. unfold message_of. rewrite (wframe_field (fun p => (p_m p, p_give p)) s1 s2) by done.
    cbn. by rewrite lookup_insert_ne.
Qed.

Lemma tframe_message s s' a : tframe s s' -> message_of s' a = message_of s a.
Proof. intros Hf. unfold message_of. by apply tframe_field. Qed.
Lemma tframe_state s s' a : tframe s s' -> state_of s' a = state_of s a.
Proof. intros Hf. unfold state_of. by apply tframe_field. Qed.
Lemma tframe_caplist s s' : tframe s s' -> k_caplist s' = k_caplist s.
Proof. intros [_ (? & ? & ? & ? & ->)]. done. Qed.
Lemma with_state_message s a st b : message_of (with_state a st s) b = message_of s b.
Proof.
  unfold message_of. cbn. rewrite lookup_alter. case_decide; [|done]. subst. by destruct (k_proc s !! b).
Qed.
End sending.

Section mesg.
Context `{Board}.
Implicit Types (s : kstate) (Q : Z * Z -> list Z) (W : Z -> list Z) (e : Z) (x : obj_endpoint).

(** C3: A process that sends joins the end of the endpoint's list with its
    message and its offer, is not runnable until it is replied to and will
    then continue after the call; the receiver waiting on the endpoint, if there
    is one, becomes ready.  The kernel panics only when there is no receiver and
    no other process can run. *)
Theorem mesg_correct s Q W e x rq o
    (Hs : sched_inv s Q) (Hl : no_lost s) (Hw : wait_inv s W) (Hc : caller_ok s W)
    (He : k_endpoint s !! e = Some x) :
  wpe (mesg e rq o) s
    (fun r s' => r = Switched /\ exists s2, switched s2 (wupd W e (W e ++ [k_up s])) (K_mesg o) s' /\
       k_up s2 = k_up s /\ message_of s' (k_up s) = Some (rq, o) /\ state_of s' (k_up s) = Some PROC_block_send /\
       (e_rwait x <> NIL -> is_ready s' (e_rwait x) = true) /\ k_up s' <> k_up s /\
       k_caplist s' = k_caplist s /\ forall a, a <> k_up s -> message_of s' a = message_of s a)
    (fun w s' => w = Panicked /\ e_rwait x = NIL /\ forall b, b <> k_up s -> is_ready s b = false).
Proof.
  destruct (mesg_enter s Q W e x rq o Hs Hl Hw Hc He)
    as (s2 & x2 & Hrun & Hi2 & Hl2 & Hw2 & Hu2 & Hx2 & Hr2 & He2 & Hst2 & Hm2 & Hup2 & Hc2 & Ho2).
  assert (Hsome : forall a st, state_of s2 a = Some st -> is_Some (k_proc s2 !! a)).
  { intros a st E. unfold state_of in E. destruct (k_proc s2 !! a); [by eexists|done]. }
  assert (Hblock : forall s', state_of s' (k_up s) = Some PROC_block_send -> is_ready s' (k_up s) = false).
  { intros s' E. unfold state_of, is_ready in *. destruct (k_proc s' !! k_up s); [|done]. cbn in E.
    apply bool_decide_eq_false. congruence. }
  unfold mesg. apply wpe_bind, wpe_gets. apply Hrun. apply wpe_bind. eapply wpe_get_endpoint; [exact Hx2|].
  rewrite Hr2. unfold ctrue. destruct (Z.eqb_spec (e_rwait x) NIL) as [E|E]; cbn [negb].
  - eapply wpe_mono; [eapply (schedule_switched s2 Q _ NIL (K_mesg o) Hi2 Hl2 Hw2); [rewrite Hu2; by eapply Hsome|done]| |]; cbn beta.
    + intros r s' (-> & Hsw). split; [done|]. exists s2. split; [done|]. split; [done|].
      pose proof (sw_frame _ _ _ _ Hsw) as Hf.
      assert (Hst : state_of s' (k_up s) = Some PROC_block_send) by (unfold state_of in *; by rewrite (tframe_field p_state s2 s')).
      split_and!; [by rewrite (tframe_message s2)|done|done| |by rewrite (tframe_caplist s2)|intros a ?; rewrite (tframe_message s2) by done; by apply Ho2].
      intros Eu. pose proof (sw_runs _ _ _ _ Hsw) as Hr. rewrite Eu, (Hblock s') in Hr; done.
    + intros w s' (-> & Hb). split; [done|]. split; [done|]. intros b Hne. rewrite <-(Hb b).
      pose proof (Hst2 b Hne) as Ex. unfold state_of, is_ready in *.
      destruct (k_proc s2 !! b), (k_proc s !! b); try done. cbn in Ex. apply bool_decide_ext. split; congruence.
  - assert (Hne : e_rwait x <> k_up s) by by eapply (cl_rwait s W Hc).
    assert (Hst : state_of s2 (e_rwait x) = Some PROC_block_recv \/ state_of s2 (e_rwait x) = Some PROC_ready).
    { rewrite !Hst2 by done. by apply (wi_rwait s W Hw e). }
    eapply wpe_mono; [eapply (wake_spec s2 Q _ (e_rwait x) (K_mesg o) Hi2 Hl2 Hw2)| |done]; cbn beta.
    + rewrite Hu2. by eapply Hsome.
    + destruct Hst; by eapply Hsome.
    + intros e' He' Hin. destruct (wi_state _ _ Hw2 e' _ He' Hin), Hst; congruence.
    + intros r s' (-> & Hsw & Hr). split; [done|]. exists (with_state (e_rwait x) PROC_ready s2). split; [done|].
      split; [done|]. pose proof (sw_frame _ _ _ _ Hsw) as Hf.
      assert (Hst' : state_of s' (k_up s) = Some PROC_block_send).
      { unfold state_of in *. rewrite (tframe_field p_state _ s') by done. by rewrite with_state_lookup_ne. }
      split_and!; [|done|done| |rewrite (tframe_caplist _ _ Hf); exact Hc2|].
      * by rewrite (tframe_message _ _ _ Hf), with_state_message.
      * intros Eu. pose proof (sw_runs _ _ _ _ Hsw) as Hr'. rewrite Eu, (Hblock s') in Hr'; done.
      * intros a ?. rewrite (tframe_message _ _ _ Hf), with_state_message. by apply Ho2.
Qed.
End mesg.

(** ** Moving a capability *)
Definition moved (src dst : capref) (v : cap) (s : kstate) : kstate :=
  set_k_caplist (alter (zupd src.2 cap_empty) src.1 (alter (zupd dst.2 v) dst.1 (k_caplist s))) s.

Section moving.
Implicit Types (s : kstate) (src dst r : capref) (v : cap).

Lemma put_cap_run s r v : is_Some (cap_lookup r s) ->
  put_cap r v s = Ok tt (set_k_caplist (alter (zupd r.2 v) r.1 (k_caplist s)) s).
Proof. intros [c Hc]. unfold put_cap, get_cap. by erewrite bind_ok by by apply read_ok. Qed.

Lemma moved_run s src dst v : cap_lookup src s = Some v -> is_Some (cap_lookup dst s) -> src <> dst ->
  (put_cap dst v ;;; put_cap src cap_empty)%c s = Ok tt (moved src dst v s).
Proof.
  intros Hs Hd Hne. erewrite bind_ok by by apply put_cap_run. rewrite put_cap_run; [done|].
  rewrite cap_lookup_put, decide_False by congruence. by exists v.
Qed.

(** The right has left its slot and is in the other one; no other slot changes. *)
Lemma moved_lookup s src dst v r : cap_lookup src s = Some v -> is_Some (cap_lookup dst s) -> src <> dst ->
  cap_lookup r (moved src dst v s) =
  if decide (r = src) then Some cap_empty else if decide (r = dst) then Some v else cap_lookup r s.
Proof.
  intros Hs [c Hd] Hne. set (s1 := set_k_caplist (alter (zupd dst.2 v) dst.1 (k_caplist s)) s).
  change (moved src dst v s) with (set_k_caplist (alter (zupd src.2 cap_empty) src.1 (k_caplist s1)) s1).
  rewrite cap_lookup_put. unfold s1. rewrite !cap_lookup_put, Hd, Hs.
  destruct (decide (src = r)) as [<-|Hr].
  { rewrite (decide_False (P := dst = src)) by congruence. by rewrite !(decide_True (P := src = src)). }
  rewrite (decide_False (P := r = src)), (decide_False (P := src = r)) by congruence.
  destruct (decide (dst = r)) as [<-|Hr']; [by rewrite !(decide_True (P := dst = dst)) by done|].
  by rewrite (decide_False (P := r = dst)), (decide_False (P := dst = r)) by congruence.
Qed.
End moving.

(** ** Replying *)
Section replying.
Context `{Board}.
Implicit Types (s : kstate) (Q : Z * Z -> list Z) (W : Z -> list Z) (e a : Z) (x : obj_endpoint) (o : option capref).

(** The capability a reply passes on: from the replier's slot to the slot the
    sender offered, when both are there. *)
Definition reply_move s a o : option (capref * capref * cap) :=
  match o, message_of s a with
  | Some src, Some (_, Some dst) => (fun v => (src, dst, v)) <$> cap_lookup src s
  | _, _ => None
  end.
Definition reply_moved s a o : kstate :=
  match reply_move s a o with Some (src, dst, v) => moved src dst v s | None => s end.

(** The slots a reply to [a] uses exist and are different. *)
Definition reply_slots s a o : Prop :=
  forall src dst m, o = Some src -> message_of s a = Some (m, Some dst) ->
    is_Some (cap_lookup src s) /\ is_Some (cap_lookup dst s) /\ src <> dst.

Lemma reply_give_run s a o : is_Some (k_proc s !! a) -> reply_slots s a o ->
  reply_give a o s = Ok tt (reply_moved s a o).
Proof.
  intros [p Hp] Hs. unfold reply_give, reply_moved, reply_move, reply_slots, message_of in *. rewrite Hp in *.
  destruct o as [src|]; [|done]. erewrite bind_ok by (unfold get_proc; by apply read_ok).
  cbn in *. destruct (p_give p) as [dst|]; [|done].
  destruct (Hs src dst (p_m p) eq_refl eq_refl) as ([v Hv] & Hd & Hne). rewrite Hv. cbn.
  unfold get_cap. erewrite bind_ok by by apply read_ok. by apply moved_run.
Qed.

Lemma filter_split_first (P : Z -> Prop) `{forall y, Decision (P y)} (l : list Z) a l' :
  filter P l = a :: l' -> exists l1 l2, l = l1 ++ a :: l2 /\ P a /\ Forall (fun y => ~ P y) l1.
Proof.
  induction l as [|y l IH]; [done|]. rewrite filter_cons. case_decide.
  - intros [= <- _]. exists [], l. by split_and!.
  - intros E. destruct (IH E) as (l1 & l2 & -> & ? & ?). exists (y :: l1), l2. by split_and!; [| |constructor].
Qed.

Definition with_message (a : Z) (m : list Z) (s : kstate) : kstate :=
  set_k_proc (alter (set_p_m m) a (k_proc s)) s.

Lemma message_with_message s a m b : message_of (with_message a m s) b =
  if decide (b = a) then (fun y => (m, y.2)) <$> message_of s b else message_of s b.
Proof.
  unfold message_of, with_message. cbn. rewrite lookup_alter. destruct (decide (a = b)) as [<-|].
  - rewrite decide_True by done. by destruct (k_proc s !! a).
  - by rewrite decide_False by congruence.
Qed.

(** The sender that gets the reply leaves the list with the answer. *)
Lemma reply_enter s Q W e x a l1 l2 m o : sched_inv s Q -> no_lost s -> wait_inv s W ->
  k_endpoint s !! e = Some x -> W e = l1 ++ a :: l2 -> reply_slots s a o ->
  exists s3, (forall (K : KM sysres) Qp E, wpe K s3 Qp E ->
    wpe (waiting_unlink e a ;;; upd_proc a (set_p_m m) ;;; reply_give a o ;;; K) s Qp E) /\
    sched_inv s3 Q /\ no_lost s3 /\ wait_inv s3 (wupd W e (l1 ++ l2)) /\ k_up s3 = k_up s /\
    (forall b, is_Some (k_proc s !! b) -> is_Some (k_proc s3 !! b)) /\
    (forall e', is_Some (k_endpoint s3 !! e') -> a ∉ wupd W e (l1 ++ l2) e') /\
    (forall b, message_of s3 b = if decide (b = a) then (fun y => (m, y.2)) <$> message_of s b else message_of s b) /\
    k_caplist s3 = k_caplist (reply_moved s a o).
Proof.
  intros Hi Hnl Hw Hx HW Hsl. destruct (waiting_unlink_spec s W e a x l1 l2 Hw Hx HW) as (s1 & Hrun & Hf & Hw1).
  destruct (wframe_ready_lists s s1 Hf) as [Hr1 Hu1].
  assert (Hex : is_Some (k_endpoint s !! e)) by by exists x.
  assert (Ha : is_Some (k_proc s !! a)).
  { destruct (wi_state s W Hw e a Hex) as [E|E]; [rewrite HW; set_solver|..]; unfold state_of in E;
      (destruct (k_proc s !! a); [by eexists|discriminate E]). }
  assert (Hpres : forall b, is_Some (k_proc s !! b) -> is_Some (k_proc s1 !! b)).
  { intros b [p Hp]. assert (E : (wcore <$> k_proc s1) !! b = (wcore <$> k_proc s) !! b) by by rewrite (wf_proc _ _ Hf).
    rewrite !lookup_fmap, Hp in E. destruct (k_proc s1 !! b); [by eexists|discriminate E]. }
  assert (Hc1 : k_caplist s1 = k_caplist s) by (by rewrite (wf_rest _ _ Hf)).
  assert (Hm1 : forall b, message_of s1 b = message_of s b).
  { intros b. unfold message_of. by apply (wframe_field (fun p => (p_m p, p_give p))). }
  set (s2 := with_message a m s1).
  assert (Ha2 : is_Some (k_proc s2 !! a)) by (cbn; by apply alter_is_Some, Hpres).
  assert (Hcl : forall r, cap_lookup r s2 = cap_lookup r s) by (intros r; unfold cap_lookup; cbn; by rewrite Hc1).
  assert (Hm2 : forall b, message_of s2 b = if decide (b = a) then (fun y => (m, y.2)) <$> message_of s b else message_of s b).
  { intros b. unfold s2. by rewrite message_with_message, Hm1. }
  assert (Hmv : reply_move s2 a o = reply_move s a o).
  { unfold reply_move. rewrite Hm2, decide_True by done. destruct o as [src|]; [|done].
    destruct (message_of s a) as [[? [dst|]]|]; try done. cbn. by rewrite Hcl. }
  assert (Hs2 : reply_slots s2 a o).
  { intros src dst m' -> Hm'. rewrite Hm2, decide_True in Hm' by done. rewrite !Hcl.
    destruct (message_of s a) as [[m0 g]|] eqn:E; [|done]. cbn in Hm'. injection Hm' as _ ->. by eapply Hsl. }
  set (s3 := reply_moved s2 a o).
  assert (H3 : exists c, s3 = set_k_caplist c s2).
  { unfold s3, reply_moved. destruct (reply_move s2 a o) as [[[src dst] v]|]; [by eexists|].
    exists (k_caplist s2). by destruct s2. }
  destruct H3 as [cl H3].
  exists s3. split_and!.
  - intros K Qp E HK. unfold wpe, bind. rewrite Hrun. rewrite upd_proc_alter by by apply Hpres.
    fold (with_message a m s1). fold s2. by rewrite (reply_give_run s2 a o).
  - rewrite H3. eapply sched_inv_ext; [| |by apply (wframe_sched s s1 Q Hf)]; [|done]. cbn.
    by apply fmap_alter_same.
  - eapply no_lost_ext, Hnl; [by rewrite H3|]. intros b _. rewrite H3. cbn. rewrite lookup_alter.
    rewrite <-(wframe_field lview s s1 b) by done. case_decide; [|done]. subst. by destruct (k_proc s1 !! b).
  - eapply wait_inv_ext, Hw1; [|by rewrite H3]. rewrite H3. cbn. by apply fmap_alter_same.
  - rewrite H3. done.
  - intros b Hb. rewrite H3. cbn. by apply alter_is_Some, Hpres.
  - intros e' He' Hin. assert (He0 : is_Some (k_endpoint s !! e')).
    { rewrite H3 in He'. destruct He' as [y Hy]. destruct (wframe_rwait s s1 e' y Hf Hy) as (y0 & ? & _). by exists y0. }
    unfold wupd in Hin. case_decide as Ee.
    + destruct (wi_list s W Hw e x Hx) as [_ _ _ Hn]. rewrite HW in Hn.
      apply NoDup_app in Hn as (_ & Hd & [? _]%NoDup_cons). apply elem_of_app in Hin as [Hin|Hin]; [|done].
      by eapply Hd, list_elem_of_here.
    + apply Ee, (wi_once s W Hw e' e a); [done|done|done|]. rewrite HW. set_solver.
  - intros b. rewrite <-Hm2. rewrite H3. done.
  - unfold s3, reply_moved. rewrite Hmv. destruct (reply_move s a o) as [[[src dst] v]|]; cbn; by rewrite Hc1.
Qed.

(** C6: A reply goes to the first process on the endpoint's list that was
    delivered to the receiver under that identifier; it leaves the list, has the
    answer as its message and is ready, and the capability passed on moves from
    the replier's slot to the one the sender offered.  When there is no such
    process the call fails and changes nothing. *)
Theorem reply_correct s Q W e x pid m o
    (Hs : sched_inv s Q) (Hl : no_lost s) (Hw : wait_inv s W) (Hup : is_Some (k_proc s !! k_up s))
    (He : k_endpoint s !! e = Some x)
    (Hslots : forall a l, filter (awaits s pid) (W e) = a :: l -> reply_slots s a o) :
  wp (reply e pid m o) s (fun r s' =>
    (filter (awaits s pid) (W e) = [] /\ r = Returned ERR UNone /\ s' = s) \/
    (exists a l1 l2 s3, W e = l1 ++ a :: l2 /\ awaits s pid a /\ Forall (fun b => ~ awaits s pid b) l1 /\
       r = Switched /\ switched s3 (wupd W e (l1 ++ l2)) K_reply s' /\ k_up s3 = k_up s /\
       is_ready s' a = true /\
       message_of s' a = (fun y => (m, y.2)) <$> message_of s a /\
       (forall b, b <> a -> message_of s' b = message_of s b) /\
       k_caplist s' = k_caplist (reply_moved s a o))).
Proof.
  unfold reply. apply wpe_bind. eapply wpe_get_endpoint; [exact He|]. apply wpe_bind, wpe_gets.
  pose proof (wi_list s W Hw e x He) as Hd. pose proof (wait_length s W e x Hw He) as Hlen.
  apply wpe_bind. eapply wpe_ok.
  { replace (e_whead x) with (firstz NIL (W e)) by (by destruct Hd). eapply reply_scan_spec; [by destruct Hd|done]. }
  destruct (filter (awaits s pid) (W e)) as [|a l] eqn:Hflt; [by left|].
  destruct (filter_split_first _ _ _ _ Hflt) as (l1 & l2 & HW & Haw & Hl1).
  change (firstz NIL (a :: l)) with a. destruct (dlist_elem _ _ _ a Hd) as [Ha0 _]; [rewrite HW; set_solver|].
  rewrite (proj2 (Z.eqb_neq _ _) Ha0).
  destruct (reply_enter s Q W e x a l1 l2 m o Hs Hl Hw He HW (Hslots a l eq_refl))
    as (s3 & Hrun & Hi3 & Hl3 & Hw3 & Hu3 & Hp3 & Hno & Hm3 & Hc3).
  apply Hrun. eapply wpe_mono; [eapply (wake_spec s3 Q _ a K_reply Hi3 Hl3 Hw3)| |done]; cbn beta.
  - rewrite Hu3. by apply Hp3.
  - destruct Haw as [Hst _]. unfold state_of in Hst. apply Hp3. destruct (k_proc s !! a); [by eexists|discriminate Hst].
  - done.
  - intros r s' (-> & Hsw & Hr). right. exists a, l1, l2, (with_state a PROC_ready s3).
    pose proof (sw_frame _ _ _ _ Hsw) as Hf. split_and!; try done.
    + by rewrite (tframe_message _ _ _ Hf), with_state_message, Hm3, decide_True.
    + intros b Hb. by rewrite (tframe_message _ _ _ Hf), with_state_message, Hm3, decide_False.
    + rewrite (tframe_caplist _ _ Hf). exact Hc3.
Qed.
End replying.

(** ** Receiving *)
Section receiving.
Context `{Board}.
Implicit Types (s : kstate) (Q : Z * Z -> list Z) (W : Z -> list Z) (e a b : Z) (x : obj_endpoint) (o : option capref).

(** The right a sender hands over: what its offered slot holds, if anything. *)
Definition offer s b : option (capref * cap) :=
  match message_of s b with
  | Some (_, Some g) => v ← cap_lookup g s; if c_perm v =? 0 then None else Some (g, v)
  | _ => None
  end.
Definition offer_moved s b o : kstate :=
  match offer s b, o with Some (g, v), Some dst => moved g dst v s | _, _ => s end.
(** The slots the delivery touches exist, and the receiver's is empty. *)
Definition offer_slots s b o : Prop :=
  (forall m g, message_of s b = Some (m, Some g) -> is_Some (cap_lookup g s)) /\
  (forall dst, o = Some dst -> exists v, cap_lookup dst s = Some v /\ c_perm v = 0).

Lemma pending_take_spec s b p o : k_proc s !! b = Some p -> offer_slots s b o ->
  wpe (pending_take b p o) s
    (fun r s' => r = UMesg (p_pid p) (p_m p) /\
       s' = with_state b PROC_block_reply (offer_moved s b o) /\ (o = None -> offer s b = None))
    (fun w s' => w = Panicked /\ o = None /\ offer s b <> None).
Proof.
  intros Hp [Hg Hd]. unfold pending_take. apply wpe_bind, wpe_with_state; [by exists p|].
  assert (Hcl : forall r, cap_lookup r (with_state b PROC_block_reply s) = cap_lookup r s) by done.
  unfold offer_moved, offer. assert (Hm : message_of s b = Some (p_m p, p_give p)) by (unfold message_of; by rewrite Hp).
  rewrite Hm. destruct (p_give p) as [g|] eqn:Hgive; [|apply wpe_bind, wpe_ret, wpe_ret; by split_and!].
  destruct (Hg (p_m p) g Hm) as [v Hv]. rewrite Hv. cbn [mbind option_bind].
  apply wpe_bind, wpe_bind. eapply wpe_get_cap; [by rewrite Hcl|].
  destruct (Z.eqb_spec (c_perm v) 0) as [E|E]; cbn [negb]; [apply wpe_ret, wpe_ret; by split_and!|].
  destruct o as [dst|]; [|by apply wpe_halt].
  destruct (Hd dst eq_refl) as (v' & Hv' & Hv0).
  eapply wpe_ok; [apply moved_run; [by rewrite Hcl|by rewrite Hcl; exists v'|congruence]|]. apply wpe_ret.
  split_and!; [done| |done]. done.
Qed.

(** What an endpoint has for its receiver. *)
Lemma endpoint_pending_spec s W e x o : wait_inv s W -> k_endpoint s !! e = Some x -> e_signal x = 0 ->
  endpoint_get_pending e o s =
  match senders s (W e) with
  | [] => Ok UNone s
  | b :: _ => (let* p := get_proc b in pending_take b p o)%c s
  end.
Proof.
  intros Hw He Hs. pose proof (wi_list s W Hw e x He) as Hd. pose proof (wait_length s W e x Hw He) as Hlen.
  unfold endpoint_get_pending. erewrite bind_ok by (unfold get_endpoint; by apply read_ok). rewrite Hs. cbn [negb Z.eqb].
  erewrite bind_ok by reflexivity. replace (e_whead x) with (firstz NIL (W e)) by (by destruct Hd).
  eapply pending_scan_spec; [by destruct Hd|done].
Qed.

Lemma first_sender s l b l' : senders s l = b :: l' -> b ∈ l /\ state_of s b = Some PROC_block_send.
Proof.
  intros Hs. assert (Hin : b ∈ senders s l) by (rewrite Hs; set_solver).
  by apply list_elem_of_filter in Hin as [? ?].
Qed.

(** A delivered sender waits for its reply where it is. *)
Lemma delivered_wait s W e b : wait_inv s W -> is_Some (k_endpoint s !! e) -> b ∈ W e ->
  state_of s b = Some PROC_block_send -> wait_inv (with_state b PROC_block_reply s) W.
Proof.
  intros [H1 H2 H3 H4 H5] He Hb Hst.
  assert (Hs : forall a, state_of (with_state b PROC_block_reply s) a =
    if decide (a = b) then Some PROC_block_reply else state_of s a).
  { intros a. unfold state_of in *. cbn. rewrite lookup_alter. destruct (decide (b = a)) as [<-|].
    - rewrite decide_True by done. by destruct (k_proc s !! b).
    - by rewrite decide_False by congruence. }
  constructor; cbn [k_endpoint with_state set_k_proc].
  - intros e' x Hx. unfold wlinks. cbn. rewrite fmap_alter_same by done. by apply H1.
  - intros e' a He' Ha. rewrite Hs. case_decide; [by right|by apply (H2 e')].
  - done.
  - intros e' x Hx Hr. rewrite Hs. case_decide as E; [|by apply (H4 e')].
    destruct (H4 e' x Hx Hr) as [Er|Er]; rewrite E in Er; congruence.
  - cbn. rewrite lookup_alter. case_decide; [|done]. subst. by rewrite H5.
Qed.

(** Fields of an endpoint other than its list, and forgetting its receiver. *)
Lemma endpoint_field_wait s W e x x' : wait_inv s W -> k_endpoint s !! e = Some x ->
  wlist x' = wlist x -> (e_rwait x' = e_rwait x \/ e_rwait x' = NIL) ->
  wait_inv (set_k_endpoint (<[e := x']> (k_endpoint s)) s) W.
Proof.
  intros [H1 H2 H3 H4 H5] He Hwl Hrw.
  assert (Hsome : forall e', is_Some (<[e := x']> (k_endpoint s) !! e') -> is_Some (k_endpoint s !! e')).
  { intros e'. rewrite lookup_insert. case_decide as E; [subst; by exists x|done]. }
  constructor; cbn; [| | | |done].
  - intros e' y. rewrite lookup_insert. case_decide as E; [|by apply H1]. subst. intros [= <-].
    rewrite Hwl. by apply H1.
  - intros e' a He'. apply H2. by apply Hsome.
  - intros e1 e2 a He1 He2. apply H3; by apply Hsome.
  - intros e' y. rewrite lookup_insert. case_decide as E; [|by apply H4]. subst. intros [= <-] Hr.
    destruct Hrw as [E|E]; [|done]. rewrite E in *. by apply (H4 e').
Qed.

(** C4: A receiver gets what is pending in this order -- signals bound to the
    process, signals of the endpoint, the message of the first process on the
    endpoint's list that is still to be delivered -- and the sender delivered
    then waits for its reply in its place on the list, its capability having
    moved to the receiver's slot.  The kernel panics exactly when it comes to a
    message with a capability and the receiver offered no slot.  The slots that the
    delivery touches are there, and the one the receiver offers is empty. *)
Theorem recv_delivers s W e x u o
    (Hw : wait_inv s W) (Hup : k_proc s !! k_up s = Some u) (He : k_endpoint s !! e = Some x)
    (Hpend : p_bound_signal u <> 0 \/ e_signal x <> 0 \/ senders s (W e) <> [])
    (Hslots : forall b, b ∈ W e -> offer_slots s b o) :
  wpe (recv_round e o) s
    (fun r s' => wait_inv s' W /\
      if negb (p_bound_signal u =? 0) then
        r = Returned OK (USignal (p_bound_signal u)) /\
        p_bound_signal <$> k_proc s' !! k_up s = Some 0 /\ k_endpoint s' = k_endpoint s
      else if negb (e_signal x =? 0) then
        r = Returned OK (USignal (e_signal x)) /\ k_proc s' = k_proc s /\
        k_endpoint s' !! e = Some (set_e_rwait NIL (set_e_signal 0 x))
      else exists b l p, senders s (W e) = b :: l /\ k_proc s !! b = Some p /\
        r = Returned OK (UMesg (p_pid p) (p_m p)) /\
        k_proc s' = alter (set_p_state PROC_block_reply) b (k_proc s) /\
        k_caplist s' = k_caplist (offer_moved s b o) /\ (o = None -> offer s b = None) /\
        k_endpoint s' !! e = Some (set_e_rwait NIL x))
    (fun w s' => w = Panicked /\ o = None /\ p_bound_signal u = 0 /\ e_signal x = 0 /\
      exists b l, senders s (W e) = b :: l /\ offer s b <> None).
Proof.
  unfold recv_round. apply wpe_bind, wpe_gets, wpe_bind. eapply wpe_get_proc; [exact Hup|].
  destruct (Z.eqb_spec (p_bound_signal u) 0) as [Eb|Eb]; cbn [negb].
  2: { apply wpe_bind. eapply wpe_ok; [apply upd_proc_alter; by exists u|]. apply wpe_ret. split.
       - eapply wait_inv_ext, Hw; [|done]. cbn. by apply fmap_alter_same.
       - split_and!; [done| |done]. cbn. by rewrite lookup_alter_eq, Hup. }
  destruct (Z.eqb_spec (e_signal x) 0) as [Es|Es]; cbn [negb].
  2: { unfold endpoint_get_pending. apply wpe_bind, wpe_bind. eapply wpe_get_endpoint; [exact He|].
       rewrite (proj2 (Z.eqb_neq _ _) Es). cbn [negb]. apply wpe_bind.
       eapply wpe_ok; [by apply upd_endpoint_run|]. apply wpe_ret, wpe_bind.
       eapply wpe_ok; [apply upd_endpoint_run; cbn; apply lookup_insert_eq|]. apply wpe_ret.
       split.
       { eapply endpoint_field_wait; [|cbn; apply lookup_insert_eq|done|by right].
         by apply (endpoint_field_wait s W e x); [| | |left]. }
       split_and!; [done|done|]. cbn. by rewrite lookup_insert_eq. }
  destruct (senders s (W e)) as [|b l] eqn:Hsd; [naive_solver|].
  destruct (first_sender s (W e) b l Hsd) as [Hb Hst].
  assert (Hp : exists p, k_proc s !! b = Some p) by (unfold state_of in Hst; destruct (k_proc s !! b) as [p|]; [by exists p|done]).
  destruct Hp as [p Hp]. apply wpe_bind.
  assert (Hrun : endpoint_get_pending e o s = pending_take b p o s).
  { rewrite (endpoint_pending_spec s W e x o), Hsd by done. by erewrite bind_ok by (unfold get_proc; by apply read_ok). }
  pose proof (pending_take_spec s b p o Hp (Hslots b Hb)) as Htake. unfold wpe in Htake |- *. rewrite Hrun.
  destruct (pending_take b p o s) as [r s'|w s'| |]; [|by destruct Htake as (-> & ? & ?); eauto 8|done..].
  destruct Htake as (-> & -> & Hno).
  assert (Hmv : exists c, offer_moved s b o = set_k_caplist c s).
  { unfold offer_moved. destruct (offer s b) as [[g v]|], o as [dst|]; [by eexists|..]; exists (k_caplist s); by destruct s. }
  destruct Hmv as [c Hmv]. rewrite Hmv. cbn beta iota.
  set (s1 := with_state b PROC_block_reply (set_k_caplist c s)).
  assert (He1 : k_endpoint s1 !! e = Some x) by done.
  assert (Hw1 : wait_inv s1 W).
  { assert (H0 : wait_inv (with_state b PROC_block_reply s) W) by (eapply delivered_wait; [done|by exists x|done|done]).
    eapply wait_inv_ext, H0; done. }
  unfold bind. rewrite (upd_endpoint_run s1 e _ x He1). cbn [ret].
  split; [by apply (endpoint_field_wait s1 W e x); [| | |right]|].
  exists b, l, p. split_and!; try done; [by rewrite Hmv|cbn; by rewrite lookup_insert_eq].
Qed.

(** The receiver leaves the processor, known to the endpoint. *)
Lemma block_wait s W e x : wait_inv s W -> caller_ok s W -> k_endpoint s !! e = Some x ->
  wait_inv (with_state (k_up s) PROC_block_recv
    (set_k_endpoint (<[e := set_e_rwait (k_up s) x]> (k_endpoint s)) s)) W.
Proof.
  intros Hw [Hp Hno Hrw] He.
  assert (Hw1 : wait_inv (with_state (k_up s) PROC_block_recv s) W) by (apply with_state_wait; [done|done|by right; left]).
  destruct Hw1 as [H1 H2 H3 H4 H5]. cbn [k_endpoint with_state set_k_proc] in *.
  assert (Hsome : forall e', is_Some (<[e := set_e_rwait (k_up s) x]> (k_endpoint s) !! e') -> is_Some (k_endpoint s !! e')).
  { intros e'. rewrite lookup_insert. case_decide as E; [subst; by exists x|done]. }
  constructor; cbn [k_endpoint with_state set_k_proc set_k_endpoint].
  - intros e' y. rewrite lookup_insert. case_decide as E; [|by apply H1]. subst. intros [= <-].
    change (wlist (set_e_rwait (k_up s) x)) with (wlist x). by apply H1.
  - intros e' a He'. apply H2. by apply Hsome.
  - intros e1 e2 a He1 He2. apply H3; by apply Hsome.
  - intros e' y. rewrite lookup_insert. case_decide as E; [|by apply H4]. subst. intros [= <-] _. left.
    unfold state_of. cbn. rewrite lookup_alter_eq. destruct Hp as [p ->]. done.
  - exact H5.
Qed.

(** C5: When nothing is pending the receiver blocks as the endpoint's one
    waiting receiver and will look again when it is woken; a second receiver on
    the endpoint, or the lack of another process to run, is a panic. *)
Theorem recv_blocks s Q W e x u o
    (Hs : sched_inv s Q) (Hl : no_lost s) (Hw : wait_inv s W) (Hc : caller_ok s W)
    (Hup : k_proc s !! k_up s = Some u) (He : k_endpoint s !! e = Some x)
    (Hb : p_bound_signal u = 0) (Hsig : e_signal x = 0) (Hnone : senders s (W e) = []) :
  wpe (recv_round e o) s
    (fun r s' => r = Switched /\ e_rwait x = NIL /\ state_of s' (k_up s) = Some PROC_block_recv /\
       k_endpoint s' !! e = Some (set_e_rwait (k_up s) x) /\ k_caplist s' = k_caplist s /\
       exists s1, k_up s1 = k_up s /\ switched s1 W (K_recv e o) s')
    (fun w s' => w = Panicked /\ (e_rwait x <> NIL \/ forall b, b <> k_up s -> is_ready s b = false)).
Proof.
  unfold recv_round. apply wpe_bind, wpe_gets, wpe_bind. eapply wpe_get_proc; [exact Hup|].
  rewrite Hb. cbn [Z.eqb negb]. apply wpe_bind. eapply wpe_ok.
  { rewrite (endpoint_pending_spec s W e x o), Hnone by done. reflexivity. }
  cbn iota. apply wpe_bind. eapply wpe_get_endpoint; [exact He|]. unfold ctrue.
  destruct (Z.eqb_spec (e_rwait x) NIL) as [Er|Er]; cbn [negb]; [|apply wpe_halt; by auto].
  apply wpe_bind. eapply wpe_ok; [by apply upd_endpoint_run|]. apply wpe_bind, wpe_with_state; [cbn; by exists u|].
  set (s1 := with_state (k_up s) PROC_block_recv (set_k_endpoint (<[e := set_e_rwait (k_up s) x]> (k_endpoint s)) s)).
  assert (Hst : state_of s1 (k_up s) = Some PROC_block_recv) by (unfold state_of; cbn; by rewrite lookup_alter_eq, Hup).
  eapply wpe_mono; [eapply (schedule_switched s1 Q W NIL (K_recv e o))| |]; cbn beta.
  - apply with_state_inv. by eapply sched_inv_ext, Hs.
  - eapply no_lost_ext, Hl; [done|]. intros a Hne. cbn. by rewrite lookup_alter_ne.
  - by apply block_wait.
  - cbn. apply alter_is_Some. by exists u.
  - done.
  - intros r s' (-> & Hsw). pose proof (sw_frame _ _ _ _ Hsw) as Hf. split_and!; [done|done| | | |by exists s1].
    + by rewrite (tframe_state _ _ _ Hf).
    + destruct Hf as [_ (? & ? & ? & ? & ->)]. cbn. by rewrite lookup_insert_eq.
    + by rewrite (tframe_caplist _ _ Hf).
  - intros w s' (-> & Hno). split; [done|]. right. intros b Hne. rewrite <-(Hno b). unfold is_ready. cbn.
    by rewrite lookup_alter_ne.
Qed.

Lemma signal_spec s Q W e x sg k
    (Hs : sched_inv s Q) (Hl : no_lost s) (Hw : wait_inv s W) (Hup : is_Some (k_proc s !! k_up s))
    (He : k_endpoint s !! e = Some x) (Hbound : e_bound x <> NIL -> is_Some (k_proc s !! e_bound x)) :
  wp (signal e sg k) s (fun r s' => set_m_ttb 0 (k_mach s') = set_m_ttb 0 (k_mach s) /\ wait_inv s' W /\
    if ctrue (e_bound x) then
      p_bound_signal <$> k_proc s' !! e_bound x =
        (fun p => Z.lor (p_bound_signal p) sg) <$> k_proc s !! e_bound x /\ k_endpoint s' = k_endpoint s /\
      if decide (state_of s (e_bound x) = Some PROC_block_recv)
      then r = Switched /\ is_ready s' (e_bound x) = true else r = Returned OK UNone /\ k_up s' = k_up s
    else
      k_endpoint s' !! e = Some (set_e_signal (Z.lor (e_signal x) sg) x) /\
      if ctrue (e_rwait x) then r = Switched /\ is_ready s' (e_rwait x) = true
      else r = Returned OK UNone /\ k_proc s' = k_proc s /\ k_up s' = k_up s).
Proof.
  unfold signal. apply wpe_bind. eapply wpe_get_endpoint; [exact He|]. unfold ctrue.
  destruct (Z.eqb_spec (e_bound x) NIL) as [Eb|Eb]; cbn [negb].
  - apply wpe_bind. eapply wpe_ok; [by apply upd_endpoint_run|].
    set (x1 := set_e_signal (Z.lor (e_signal x) sg) x).
    set (s1 := set_k_endpoint (<[e := x1]> (k_endpoint s)) s).
    assert (Hw1 : wait_inv s1 W) by (apply (endpoint_field_wait s W e x); [done|done|done|by left]).
    assert (He1 : k_endpoint s1 !! e = Some x1) by apply lookup_insert_eq.
    apply wpe_bind. eapply wpe_get_endpoint; [exact He1|]. cbn [x1 set_e_signal e_rwait].
    destruct (Z.eqb_spec (e_rwait x) NIL) as [Er|Er]; cbn [negb].
    { apply wpe_ret. split_and!; [done|done|exact He1|done..]. }
    assert (Hst : state_of s (e_rwait x) = Some PROC_block_recv \/ state_of s (e_rwait x) = Some PROC_ready)
      by by apply (wi_rwait s W Hw e).
    assert (Hi1 : sched_inv s1 Q) by by eapply sched_inv_ext, Hs.
    eapply wpe_mono; [eapply (wake_spec s1 Q W (e_rwait x) k)| |done]; cbn beta; try done.
    + unfold state_of in Hst. cbn. destruct (k_proc s !! e_rwait x); [by eexists|naive_solver].
    + intros e' He' Hin. destruct (wi_state _ _ Hw1 e' _ He' Hin) as [E|E], Hst as [E'|E'];
        unfold state_of in E, E'; cbn in E; congruence.
    + intros r s' (-> & Hsw & Hr). pose proof (sw_frame _ _ _ _ Hsw) as Hf.
      split; [by destruct Hf as [_ (? & ? & ? & ? & ->)]|]. split; [by destruct Hsw|].
      split; [|done]. destruct Hf as [_ (? & ? & ? & ? & ->)]. exact He1.
  - destruct (Hbound Eb) as [b Hbd]. apply wpe_bind.
    eapply wpe_ok; [apply upd_proc_alter; by exists b|].
    set (f := fun y => set_p_bound_signal (Z.lor (p_bound_signal y) sg) y).
    set (s1 := set_k_proc (alter f (e_bound x) (k_proc s)) s).
    assert (Hi1 : sched_inv s1 Q) by by apply alter_inv.
    assert (Hw1 : wait_inv s1 W) by (eapply wait_inv_ext, Hw; [cbn; by apply fmap_alter_same|done]).
    assert (Hl1 : no_lost s1).
    { eapply no_lost_ext, Hl; [done|]. intros a _. cbn. rewrite lookup_alter. case_decide; [|done]. subst. by rewrite Hbd. }
    assert (Hb1 : k_proc s1 !! e_bound x = Some (f b)) by (cbn; by rewrite lookup_alter_eq, Hbd).
    assert (Hsb : state_of s (e_bound x) = Some (p_state b)) by (unfold state_of; by rewrite Hbd).
    apply wpe_bind. eapply wpe_get_proc; [exact Hb1|]. change (p_state (f b)) with (p_state b). rewrite Hsb, Hbd.
    destruct (decide (p_state b = PROC_block_recv)) as [E|E].
    + eapply wpe_mono; [eapply (wake_spec s1 Q W (e_bound x) k)| |done]; cbn beta; try done.
      * cbn. by apply alter_is_Some.
      * intros e' He' Hin. destruct (wi_state _ _ Hw1 e' _ He' Hin) as [Ex|Ex];
          unfold state_of in Ex; rewrite Hb1 in Ex; cbn in Ex; congruence.
      * intros r s' (-> & Hsw & Hr). pose proof (sw_frame _ _ _ _ Hsw) as Hf.
        split; [by destruct Hf as [_ (? & ? & ? & ? & ->)]|]. split; [by destruct Hsw|].
        rewrite decide_True by congruence. split; [|split; [by destruct Hf as [_ (? & ? & ? & ? & ->)]|done]].
        rewrite (tframe_field p_bound_signal _ _ _ Hf) by done. cbn. by rewrite !lookup_alter_eq, Hbd.
    + apply wpe_ret. split; [done|]. split; [done|]. rewrite decide_False by congruence. split; [by rewrite Hb1|]. done.
Qed.

(** C7: A signal is added to those already pending -- for the process bound to
    the endpoint, or for the endpoint itself -- and none is lost; the process it
    is for becomes ready when it is blocked receiving. *)
Theorem signal_correct s Q W e x sg k
    (Hs : sched_inv s Q) (Hl : no_lost s) (Hw : wait_inv s W) (Hup : is_Some (k_proc s !! k_up s))
    (He : k_endpoint s !! e = Some x) (Hbound : e_bound x <> NIL -> is_Some (k_proc s !! e_bound x)) :
  wp (signal e sg k) s (fun r s' => wait_inv s' W /\
    if ctrue (e_bound x) then
      p_bound_signal <$> k_proc s' !! e_bound x =
        (fun p => Z.lor (p_bound_signal p) sg) <$> k_proc s !! e_bound x /\ k_endpoint s' = k_endpoint s /\
      if decide (state_of s (e_bound x) = Some PROC_block_recv)
      then r = Switched /\ is_ready s' (e_bound x) = true else r = Returned OK UNone /\ k_up s' = k_up s
    else
      k_endpoint s' !! e = Some (set_e_signal (Z.lor (e_signal x) sg) x) /\
      if ctrue (e_rwait x) then r = Switched /\ is_ready s' (e_rwait x) = true
      else r = Returned OK UNone /\ k_proc s' = k_proc s /\ k_up s' = k_up s).
Proof.
  eapply wpe_mono; [exact (signal_spec s Q W e x sg k Hs Hl Hw Hup He Hbound)| |done].
  intros r s' [_ Hx]. exact Hx.
Qed.
End receiving.

(** ** The invariant on concrete states *)
Definition wait_okb (s : kstate) (W : Z -> list Z) (e : Z) (x : obj_endpoint) : bool :=
  bool_decide (dlist (wlinks s) (wlist x) (W e)) &&
  bool_decide (Forall (fun a => state_of s a = Some PROC_block_send \/ state_of s a = Some PROC_block_reply) (W e)) &&
  bool_decide (e_rwait x <> NIL ->
    state_of s (e_rwait x) = Some PROC_block_recv \/ state_of s (e_rwait x) = Some PROC_ready).
Definition wait_invb (s : kstate) (W : Z -> list Z) : bool :=
  bool_decide (map_Forall (fun e x => wait_okb s W e x = true) (k_endpoint s)) &&
  bool_decide (map_Forall (fun e _ => map_Forall (fun e' _ =>
    e = e' \/ Forall (fun a => a ∉ W e') (W e)) (k_endpoint s)) (k_endpoint s)) &&
  bool_decide (k_proc s !! NIL = None).

Lemma wait_invb_sound s W : wait_invb s W = true -> wait_inv s W.
Proof.
  unfold wait_invb. intros [[H1 H2]%andb_prop H3]%andb_prop. apply bool_decide_eq_true in H1, H2, H3.
  assert (H : forall e x, k_endpoint s !! e = Some x -> wait_okb s W e x = true) by exact H1. clear H1.
  unfold wait_okb in H. constructor; [| | | |done].
  - intros e x He. specialize (H e x He). apply andb_prop in H as [[H _]%andb_prop _]. by apply bool_decide_eq_true in H.
  - intros e a [x He] Ha. specialize (H e x He). apply andb_prop in H as [[_ H]%andb_prop _].
    apply bool_decide_eq_true in H. exact (proj1 (Forall_forall _ _) H a Ha).
  - intros e e' a [x He] [x' He'] Ha Ha'. destruct (H2 e x He e' x' He') as [|Hn]; [done|].
    exfalso. exact (proj1 (Forall_forall _ _) Hn a Ha Ha').
  - intros e x He. specialize (H e x He). apply andb_prop in H as [_ H]. by apply bool_decide_eq_true in H.
Qed.

Definition caller_okb (s : kstate) (W : Z -> list Z) : bool :=
  bool_decide (is_Some (k_proc s !! k_up s)) &&
  bool_decide (map_Forall (fun e x => k_up s ∉ W e /\ e_rwait x <> k_up s) (k_endpoint s)).
Lemma caller_okb_sound s W : caller_okb s W = true -> caller_ok s W.
Proof.
  unfold caller_okb. intros [H1 H2]%andb_prop. apply bool_decide_eq_true in H1, H2.
  constructor; [done|intros e [x He]; by apply (H2 e x)|intros e x He; by apply (H2 e x)].
Qed.

(** [demo] with the second process waiting on the endpoint, in state [st], offering
    the first slot after its list's own, and the endpoint's receiver [rw]. *)
Definition demo_waiting (st : procstate) (rw : Z) : kstate :=
  set_k_endpoint {[ 0x5000 := mk_endpoint 0 NIL rw 0x2000 0x2000 ]}
    (set_k_proc (alter (fun p => set_p_give (Some (0x4000, 1)) (set_p_state st p)) 0x2000 (k_proc demo)) demo).
Definition demo_W (e : Z) : list Z := if decide (e = 0x5000) then [0x2000] else [].
(** [demo] with the second process blocked receiving on the endpoint. *)
Definition demo_receiving : kstate :=
  set_k_endpoint {[ 0x5000 := mk_endpoint 0 NIL 0x2000 NIL NIL ]}
    (set_k_proc (alter (set_p_state PROC_block_recv) 0x2000 (k_proc demo)) demo).

Lemma mesg_correct_witness :
  let _ := vexpress_a9 in let s := demo_receiving in let W := fun _ : Z => @nil Z in let rq := replicate 16 7 in
  wpe (mesg 0x5000 rq None) s
    (fun r s' => r = Switched /\ exists s2, switched s2 (wupd W 0x5000 (W 0x5000 ++ [k_up s])) (K_mesg None) s' /\
       k_up s2 = k_up s /\ message_of s' (k_up s) = Some (rq, None) /\ state_of s' (k_up s) = Some PROC_block_send /\
       (0x2000 <> NIL -> is_ready s' 0x2000 = true) /\ k_up s' <> k_up s /\
       k_caplist s' = k_caplist s /\ forall a, a <> k_up s -> message_of s' a = message_of s a)
    (fun w s' => w = Panicked /\ 0x2000 = NIL /\ forall b, b <> k_up s -> is_ready s b = false).
Proof.
  intros B s W rq. apply (@mesg_correct B s (fun _ => []) W 0x5000 (mk_endpoint 0 NIL 0x2000 NIL NIL));
    [apply sched_invb_sound; by vm_compute|apply no_lostb_sound; by vm_compute|apply wait_invb_sound; by vm_compute|
     apply caller_okb_sound; by vm_compute|reflexivity].
Defined.

Lemma reply_correct_witness :
  let _ := vexpress_a9 in let s := demo_waiting PROC_block_reply NIL in let o := Some (0x3000, 7) in let m := replicate 16 9 in
  wp (reply 0x5000 2 m o) s (fun r s' =>
    (filter (awaits s 2) (demo_W 0x5000) = [] /\ r = Returned ERR UNone /\ s' = s) \/
    (exists a l1 l2 s3, demo_W 0x5000 = l1 ++ a :: l2 /\ awaits s 2 a /\ Forall (fun b => ~ awaits s 2 b) l1 /\
       r = Switched /\ switched s3 (wupd demo_W 0x5000 (l1 ++ l2)) K_reply s' /\ k_up s3 = k_up s /\
       is_ready s' a = true /\
       message_of s' a = (fun y => (m, y.2)) <$> message_of s a /\
       (forall b, b <> a -> message_of s' b = message_of s b) /\
       k_caplist s' = k_caplist (reply_moved s a o))).
Proof.
  intros B s o m. apply (@reply_correct B s (fun _ => []) demo_W 0x5000 (mk_endpoint 0 NIL NIL 0x2000 0x2000));
    [apply sched_invb_sound; by vm_compute|apply no_lostb_sound; by vm_compute|apply wait_invb_sound; by vm_compute|
     eexists; vm_compute; reflexivity|reflexivity|].
  intros a l Hl. assert (a ∈ filter (awaits s 2) (demo_W 0x5000)) as Ha by (rewrite Hl; set_solver).
  apply list_elem_of_filter in Ha as [_ Ha]. assert (a = 0x2000) as -> by by apply list_elem_of_singleton in Ha.
  intros src dst m' [= <-] Hm. vm_compute in Hm. injection Hm as _ <-.
  split_and!; [eexists; vm_compute; reflexivity|eexists; vm_compute; reflexivity|done].
Defined.

Lemma recv_delivers_witness :
  let _ := vexpress_a9 in let s := demo_waiting PROC_block_send NIL in let x := mk_endpoint 0 NIL NIL 0x2000 0x2000 in
  wpe (recv_round 0x5000 (Some (0x3000, 1))) s
    (fun r s' => wait_inv s' demo_W /\
      if negb (0 =? 0) then
        r = Returned OK (USignal 0) /\ p_bound_signal <$> k_proc s' !! k_up s = Some 0 /\ k_endpoint s' = k_endpoint s
      else if negb (e_signal x =? 0) then
        r = Returned OK (USignal (e_signal x)) /\ k_proc s' = k_proc s /\
        k_endpoint s' !! 0x5000 = Some (set_e_rwait NIL (set_e_signal 0 x))
      else exists b l p, senders s (demo_W 0x5000) = b :: l /\ k_proc s !! b = Some p /\
        r = Returned OK (UMesg (p_pid p) (p_m p)) /\
        k_proc s' = alter (set_p_state PROC_block_reply) b (k_proc s) /\
        k_caplist s' = k_caplist (offer_moved s b (Some (0x3000, 1))) /\ (Some (0x3000, 1) = None -> offer s b = None) /\
        k_endpoint s' !! 0x5000 = Some (set_e_rwait NIL x))
    (fun w s' => w = Panicked /\ Some (0x3000, 1) = None /\ 0 = 0 /\ e_signal x = 0 /\
      exists b l, senders s (demo_W 0x5000) = b :: l /\ offer s b <> None).
Proof.
  intros B s x. apply (@recv_delivers B s demo_W 0x5000 x (demo_proc 1 0x3000 PROC_ready));
    [apply wait_invb_sound; by vm_compute|reflexivity|reflexivity|right; right; by vm_compute|].
  intros b Hb. assert (b = 0x2000) as -> by by apply list_elem_of_singleton in Hb. split.
  - intros m g Hm. vm_compute in Hm. injection Hm as _ <-. eexists; vm_compute; reflexivity.
  - intros dst [= <-]. exists cap_empty. split; [by vm_compute|done].
Defined.

Lemma recv_blocks_witness :
  let _ := vexpress_a9 in let s := demo_queued in let x := mk_endpoint 0 NIL NIL NIL NIL in
  wpe (recv_round 0x5000 None) s
    (fun r s' => r = Switched /\ e_rwait x = NIL /\ state_of s' (k_up s) = Some PROC_block_recv /\
       k_endpoint s' !! 0x5000 = Some (set_e_rwait (k_up s) x) /\ k_caplist s' = k_caplist s /\
       exists s1, k_up s1 = k_up s /\ switched s1 (fun _ => []) (K_recv 0x5000 None) s')
    (fun w s' => w = Panicked /\ (e_rwait x <> NIL \/ forall b, b <> k_up s -> is_ready s b = false)).
Proof.
  intros B s x. assert (Hp : exists p, k_proc s !! k_up s = Some p /\ p_bound_signal p = 0)
    by (eexists; vm_compute; split; reflexivity).
  destruct Hp as (p & Hp & Hb).
  apply (@recv_blocks B s demo_Q (fun _ => []) 0x5000 x p);
    [exact demo_queued_sched|apply no_lostb_sound; by vm_compute|apply wait_invb_sound; by vm_compute|
     apply caller_okb_sound; by vm_compute|done|by vm_compute|done|done|done].
Defined.

Lemma signal_correct_witness :
  let _ := vexpress_a9 in let s := demo_receiving in let x := mk_endpoint 0 NIL 0x2000 NIL NIL in
  wp (signal 0x5000 4 K_signal) s (fun r s' => wait_inv s' (fun _ => []) /\
    k_endpoint s' !! 0x5000 = Some (set_e_signal (Z.lor (e_signal x) 4) x) /\
    r = Switched /\ is_ready s' 0x2000 = true).
Proof.
  intros B s x. eapply wpe_mono;
    [apply (@signal_correct B s (fun _ => []) (fun _ => []) 0x5000 x 4 K_signal);
     [apply sched_invb_sound; by vm_compute|apply no_lostb_sound; by vm_compute|apply wait_invb_sound; by vm_compute|
      eexists; vm_compute; reflexivity|reflexivity|done]|intros r s' (H1 & H2 & H3); done|done].
Defined.
