(* ===== verification/Frame.v ===== *)
(** * Frames: physical memory as objects, and the user's page tables (the
    sys_frame calls of arm/kern/sys.c)

    The kernel edits a process' tables by mapping them in its own window; the
    words live in the physical memory [m_pmem]. *)
From S2P Require Import Prelude KState Mmu Cap.

Local Open Scope Z_scope.
Local Open Scope c_scope.

(** A C loop over a 32-bit counter whose body has effects. *)
Fixpoint loop (fuel : nat) (cond : Z -> bool) (step : Z -> Z) (body : Z -> KM unit) (o : Z) : KM unit :=
  match fuel with
  | O => if cond o then nofuel else ret tt
  | S fuel => if cond o then body o ;;; loop fuel cond step body (step o) else ret tt
  end.

(** [memcpy(dst, src, n * 4)] of a table into mapped memory, and [memset] to zero. *)
Definition copy_words (dst : Z) (src : gmap Z Z) (n : nat) : KM unit :=
  loop n (fun i => i <? Z.of_nat n) (fun i => i + 1) (fun i => store_word (dst + 4 * i) (word src i)) 0.
Definition zero_words (dst len : Z) : KM unit :=
  loop (Z.to_nat (len / 4)) (fun i => i <? len / 4) (fun i => i + 1) (fun i => store_word (dst + 4 * i) 0) 0.
(** [map_l2] on a table in mapped memory. *)
Definition map_l2_at (l1 pa va len : Z) : KM unit :=
  loop (pages len) (fun o => u32 (Z.shiftl o 12) <? len) (fun o => u32 (o + 1))
    (fun o => store_word (l1 + 4 * (L1X va + o)) (Z.lor (u32 (pa + Z.shiftl o 12)) L1_COARSE)) 0.

Definition sys_frame_setup (cid type pa len : Z) : KM Z :=
  let* up := get_up in
  let* u := get_proc up in
  if negb (p_pid u =? ROOT_PID) then ret ERR else
  let* c := proc_find_cap up cid in
  match c with
  | None => ret ERR
  | Some c =>
    let* v := get_cap c in
    let* h := get_head (c_obj v) in
    if negb (h_type h =? OBJ_frame) then ret ERR else
    let* f := get_frame (c_obj v) in
    if negb (f_type f =? FRAME_NONE) then ret ERR else
    upd_frame (c_obj v) (set_f_type type) ;;;
    upd_frame (c_obj v) (set_f_pa pa) ;;;
    upd_frame (c_obj v) (set_f_len len) ;;;
    upd_frame (c_obj v) (set_f_next NIL) ;;;
    ret OK
  end.

(** Read and write rights. *)
Definition CAP_rw : Z := Z.lor CAP_write CAP_read.

Definition sys_frame_info (cid : Z) : KM sysres :=
  let* up := get_up in
  let* c := proc_find_cap_type up cid CAP_rw OBJ_frame in
  match c with
  | None => ret (Returned ERR UNone)
  | Some c =>
    let* v := get_cap c in
    let* f := get_frame (c_obj v) in
    ret (Returned OK (UFrame (f_type f) (f_pa f) (f_len f)))
  end.

Definition sys_frame_l1_setup (cid : Z) : KM Z :=
  let* up := get_up in
  let* c := proc_find_cap_type up cid CAP_rw OBJ_frame in
  match c with
  | None => ret ERR
  | Some c =>
    let* v := get_cap c in
    let* f := get_frame (c_obj v) in
    if negb (f_type f =? FRAME_MEM) then ret ERR else
    if negb (align_down (f_pa f) 0x4000 =? f_pa f) then ret ERR else
    if negb (f_len f =? 0x4000) then ret ERR else
    let* l1 := kernel_map (f_pa f) 0x4000 true in
    if l1 =? NIL then ret ERR else
    let* m := gets k_mach in
    copy_words l1 (m_kernel_l1 m) 4096 ;;;
    kernel_unmap l1 0x4000 ;;;
    upd_frame (c_obj v) (set_f_type FRAME_L1) ;;;
    upd_frame (c_obj v) (set_f_va NIL) ;;;
    upd_frame (c_obj v) (set_f_next NIL) ;;;
    ret OK
  end.

(** [ff->va = va; ff->next = tf->next; tf->next = ff] *)
Definition frame_push (tf ff va : Z) : KM unit :=
  upd_frame ff (set_f_va va) ;;;
  let* t := get_frame tf in
  upd_frame ff (set_f_next (f_next t)) ;;;
  upd_frame tf (set_f_next ff).

Definition sys_frame_l2_map (tid cid va : Z) : KM Z :=
  let* up := get_up in
  let* tc := proc_find_cap_type up tid CAP_rw OBJ_frame in
  let* fc := proc_find_cap_type up cid CAP_rw OBJ_frame in
  match tc, fc with
  | Some tc, Some fc =>
    let* tv := get_cap tc in
    let* fv := get_cap fc in
    let* tf := get_frame (c_obj tv) in
    let* ff := get_frame (c_obj fv) in
    if negb (f_type tf =? FRAME_L1) then ret ERR else
    if negb (f_type ff =? FRAME_MEM) then ret ERR else
    let* l1 := kernel_map (f_pa tf) 0x4000 true in
    if l1 =? NIL then ret ERR else
    let* l2 := kernel_map (f_pa ff) (f_len ff) true in
    if l2 =? NIL then kernel_unmap l1 0x4000 ;;; ret ERR else
    zero_words l2 (f_len ff) ;;;
    map_l2_at l1 (f_pa ff) va (f_len ff) ;;;
    kernel_unmap l2 (f_len ff) ;;;
    kernel_unmap l1 0x4000 ;;;
    upd_frame (c_obj fv) (set_f_type FRAME_L2) ;;;
    frame_push (c_obj tv) (c_obj fv) va ;;;
    put_cap fc cap_empty ;;;
    ret OK
  | _, _ => ret ERR
  end.

Definition sys_frame_l2_unmap (tid nid va : Z) : KM Z := ret ERR.

(** The second level table that translates [va + o]: the one mapped already when
    it is still the same section, otherwise the one the first level names. *)
Definition l2_for (l1 va o l2 l2_l1x : Z) : KM (Z * Z) :=
  if (l2 =? NIL) || negb (L1X (va + o) =? l2_l1x) then
    (if negb (l2 =? NIL) then kernel_unmap l2 PAGE_SIZE else ret tt) ;;;
    let x := L1X (va + o) in
    let* e := load_word (l1 + 4 * x) in
    if e =? 0 then halt Panicked else
    let* l2 := kernel_map (L1PA e) PAGE_SIZE true in
    if l2 =? NIL then halt Panicked else ret (l2, x)
  else ret (l2, l2_l1x).

(** The [for] loop of sys_frame_map; it delivers the last [l2]. *)
Fixpoint frame_map_loop (fuel : nat) (l1 va pa len perm o l2 l2_l1x : Z) : KM Z :=
  if negb (o <? len) then ret l2 else
  match fuel with
  | O => nofuel
  | S fuel =>
    let* r := l2_for l1 va o l2 l2_l1x in
    let '(l2, l2_l1x) := r in
    let* w := load_word (l2 + 4 * L2X (va + o)) in
    if negb (w =? L2_FAULT) then halt Panicked else
    store_word (l2 + 4 * L2X (va + o)) (Z.lor (u32 (pa + o)) perm) ;;;
    frame_map_loop fuel l1 va pa len perm (u32 (o + PAGE_SIZE)) l2 l2_l1x
  end.

Definition user_perm (cache : bool) : Z :=
  let '(tex, c, b) := cache_bits cache in
  Z.lor (Z.lor (Z.lor (Z.lor L2_SMALL (Z.shiftl tex 6)) (Z.shiftl AP_RW_RW 4)) (Z.shiftl c 3)) (Z.shiftl b 2).

Definition sys_frame_map (tid cid va : Z) (cache : bool) : KM Z :=
  let* up := get_up in
  let* tc := proc_find_cap_type up tid CAP_rw OBJ_frame in
  let* fc := proc_find_cap_type up cid CAP_rw OBJ_frame in
  match tc, fc with
  | Some tc, Some fc =>
    let* tv := get_cap tc in
    let* fv := get_cap fc in
    let* tf := get_frame (c_obj tv) in
    let* ff := get_frame (c_obj fv) in
    if negb (f_type tf =? FRAME_L1) then ret ERR else
    let cache := if (f_type ff =? FRAME_DEV) && cache then false else cache in
    if negb (f_type ff =? FRAME_MEM) && negb (f_type ff =? FRAME_DEV) then ret ERR else
    let* l1 := kernel_map (f_pa tf) 0x4000 true in
    if l1 =? NIL then ret ERR else
    let* l2 := frame_map_loop (pages (f_len ff)) l1 va (f_pa ff) (f_len ff) (user_perm cache) 0 NIL 0 in
    (if negb (l2 =? NIL) then kernel_unmap l2 PAGE_SIZE else ret tt) ;;;
    kernel_unmap l1 0x4000 ;;;
    frame_push (c_obj tv) (c_obj fv) va ;;;
    put_cap fc cap_empty ;;;
    ret OK
  | _, _ => ret ERR
  end.

(** The search of sys_frame_unmap: the first frame on the list after [prev] that
    is mapped at [va] and is not a table; it is taken off the list. *)
Fixpoint frame_take (fuel : nat) (prev va : Z) : KM Z :=
  match fuel with
  | O => nofuel
  | S fuel =>
    let* p := get_frame prev in
    let c := f_next p in
    if c =? NIL then ret NIL else
    let* x := get_frame c in
    if f_type x =? FRAME_L2 then frame_take fuel c va
    else if f_va x =? va then
      upd_frame prev (set_f_next (f_next x)) ;;; ret c
    else frame_take fuel c va
  end.
Definition frame_fuel : KM nat := gets (fun s => S (size (k_frame s))).

(** The [for] loop of sys_frame_unmap. *)
Fixpoint frame_unmap_loop (fuel : nat) (l1 va len o l2 l2_l1x pa : Z) : KM Z :=
  if negb (o <? len) then ret l2 else
  match fuel with
  | O => nofuel
  | S fuel =>
    let* r := l2_for l1 va o l2 l2_l1x in
    let '(l2, l2_l1x) := r in
    let* w := load_word (l2 + 4 * L2X (va + o)) in
    if w =? 0 then halt Panicked else
    if negb (pa =? NIL) && negb (L2PA w =? u32 (pa + o)) then ret l2 else
    let pa := if pa =? NIL then L2PA w else pa in
    store_word (l2 + 4 * L2X (va + o)) 0 ;;;
    frame_unmap_loop fuel l1 va len (u32 (o + PAGE_SIZE)) l2 l2_l1x pa
  end.

Definition sys_frame_unmap (tid nid va : Z) : KM Z :=
  let* up := get_up in
  let* tc := proc_find_cap_type up tid CAP_rw OBJ_frame in
  let* fc := proc_find_cap_type up nid 0 0 in
  match tc, fc with
  | Some tc, Some fc =>
    let* tv := get_cap tc in
    let* tf := get_frame (c_obj tv) in
    if negb (f_type tf =? FRAME_L1) then ret ERR else
    let* n := frame_fuel in
    let* ff := frame_take n (c_obj tv) va in
    if ff =? NIL then ret ERR else
    upd_frame ff (set_f_next NIL) ;;;
    upd_frame ff (set_f_va NIL) ;;;
    let* f := get_frame ff in
    let* tf := get_frame (c_obj tv) in
    let* l1 := kernel_map (f_pa tf) 0x4000 true in
    if l1 =? NIL then ret ERR else
    let* l2 := frame_unmap_loop (pages (f_len f)) l1 va (f_len f) 0 NIL 0 NIL in
    (if negb (l2 =? NIL) then kernel_unmap l2 PAGE_SIZE else ret tt) ;;;
    kernel_unmap l1 0x4000 ;;;
    put_cap fc (mk_cap (Z.lor CAP_read CAP_write) ff) ;;;
    ret OK
  | _, _ => ret ERR
  end.
