(* ===== verification/FrameProps.v ===== *)
(** * What the frame calls promise: the user's address space *)
From S2P Require Import Prelude KState Mmu Cap Frame.

Local Open Scope Z_scope.
Local Open Scope c_scope.

(** ** Windows

    [win m v pa n]: the [n] bytes from [v] on are mapped, in the kernel, to the [n]
    bytes from [pa] on. *)
Definition win (m : mach) (v pa n : Z) : Prop := forall k, 0 <= k < n -> kernel_pa m (v + k) = Some (pa + k).

(** What page table work changes of the machine. *)
Definition mframe (m m' : mach) : Prop :=
  exists pm t n, m' = set_m_pmem pm (set_m_kernel_l2 t (set_m_va_next n m)).

#[export] Instance mframe_refl : Reflexive mframe.
Proof. intros m. exists (m_pmem m), (m_kernel_l2 m), (m_va_next m). by destruct m. Qed.
#[export] Instance mframe_trans : Transitive mframe.
Proof. intros m1 m2 m3 (p1 & t1 & n1 & ->) (p2 & t2 & n2 & ->). by exists p2, t2, n2. Qed.

(** A range of pages inside one section of the kernel's window. *)
Record placed (v len : Z) : Prop := {
  pl_pos : 0 <= v /\ 0 <= len /\ v + len < 2 ^ 32;
  pl_page : v mod PAGE_SIZE = 0;
  pl_section : L1X v = L1X (v + len)
}.

Section windows.
Implicit Types (s : kstate) (m : mach).

Lemma kernel_pa_l2 m m' x : m_kernel_l2 m' = m_kernel_l2 m -> m_va_min m' = m_va_min m ->
  kernel_pa m' x = kernel_pa m x.
Proof. intros H1 H2. unfold kernel_pa, kernel_entry. by rewrite H1, H2. Qed.

Lemma load_word_run s m v pa n k : win m v pa n -> 0 <= k < n ->
  load_word (v + k) (set_k_mach m s) = Ok (word (m_pmem m) (pa + k)) (set_k_mach m s).
Proof. intros Hw Hk. unfold load_word, bind, read. cbn. by rewrite (Hw k Hk). Qed.

Lemma store_word_run s m v pa n k w : win m v pa n -> 0 <= k < n ->
  store_word (v + k) w (set_k_mach m s) = Ok tt (set_k_mach (set_m_pmem (<[pa + k := w]> (m_pmem m)) m) s).
Proof. intros Hw Hk. unfold store_word, bind, read. cbn. by rewrite (Hw k Hk). Qed.

Lemma word_insert (t : gmap Z Z) i j w : word (<[i := w]> t) j = if decide (i = j) then w else word t j.
Proof. unfold word. rewrite lookup_insert. by repeat case_decide. Qed.

Lemma kernel_map_win s m pa len cache :
  window_ok m -> 0 < m_va_next m -> 0 <= pa -> pa mod PAGE_SIZE = 0 -> 0 < len < TABLE_AREA ->
  len mod PAGE_SIZE = 0 -> pa + len < 2 ^ 32 -> m_va_next m + 2 * len < m_va_max m ->
  exists v m', kernel_map pa len cache (set_k_mach m s) = Ok v (set_k_mach m' s) /\
    mframe m m' /\ m_pmem m' = m_pmem m /\ window_ok m' /\ m_va_next m <= v /\ m_va_next m' = v + len /\
    m_va_next m' <= m_va_next m + 2 * len /\ placed v len /\ win m' v pa len /\
    (forall x, 0 <= x < m_va_next m -> kernel_pa m' x = kernel_pa m x).
Proof.
  intros Hw Hnx Hpa Hal Hlen Hlal Hend Hroom. change TABLE_AREA with (2 ^ 20) in *.
  assert (HL : PAGE_ALIGN len = len) by (apply PAGE_ALIGN_id; [lia|lia|exact Hlal]).
  destruct (kernel_map_placed (set_k_mach m s) pa len cache) as (t & Hrun & Hva & Hb & Hpg & Hse & Hk & Hx);
    cbn [k_mach set_k_mach] in *; rewrite ?HL in *; [exact Hw|rewrite PAGE_SIZE_eq; lia|lia|lia|lia|change TABLE_AREA with (2^20); lia|].
  set (va := place (m_va_next m) len) in *. rewrite Hal, Z.add_0_r in Hrun.
  eexists va, _. split; [exact Hrun|]. split; [|split; [done|]].
  { exists (m_pmem m), t, (va + len). by destruct m. }
  split; [|cbn; split_and!; [lia|done|lia| | |exact Hx]].
  - destruct Hw as [W1 W2 W3 W4]. constructor; cbn; [lia|lia| |exact W4].
    rewrite PAGE_SIZE_eq in *. divmod.
  - constructor; [lia|exact Hpg|exact Hse].
  - intros k Hk'. specialize (Hk k). rewrite Hal, Z.add_0_r in Hk. apply Hk; lia.
Qed.

Lemma kernel_unmap_win s m v len : placed v len -> len mod PAGE_SIZE = 0 ->
  exists m', kernel_unmap v len (set_k_mach m s) = Ok tt (set_k_mach m' s) /\
    mframe m m' /\ m_pmem m' = m_pmem m /\ m_va_next m' = m_va_next m /\
    (forall x, 0 <= x < 2 ^ 32 -> x < v \/ v + len <= x -> kernel_pa m' x = kernel_pa m x).
Proof.
  intros [Hp Hpg Hse] Hlal.
  destruct (unmap_pages_window (L1X (m_va_min m)) v len (m_kernel_l2 m)) as (t & Hrun & _ & Hout);
    [lia|exact Hpg|lia|lia|exact Hlal|exact Hse|].
  exists (set_m_kernel_l2 t m). split; [|split; [|split; [done|split; [done|]]]].
  - unfold kernel_unmap. erewrite bind_ok by reflexivity. cbn [k_mach set_k_mach]. rewrite Hrun. by destruct m.
  - exists (m_pmem m), t, (m_va_next m). by destruct m.
  - intros x Hx Hx'. unfold kernel_pa, kernel_entry. cbn. fold (entry_index (L1X (m_va_min m)) x). by rewrite Hout.
Qed.

Lemma mframe_window m m' : mframe m m' -> m_va_next m' = m_va_next m -> window_ok m -> window_ok m'.
Proof. intros (pm & t & n & ->) E [W1 W2 W3 W4]. cbn in E. subst n. by constructor. Qed.

Lemma win_frame m m' v pa n lo : win m v pa n -> 0 <= v -> v + n <= lo ->
  (forall x, 0 <= x < lo -> kernel_pa m' x = kernel_pa m x) -> win m' v pa n.
Proof. intros Hw Hv Hn Hx k Hk. rewrite Hx by lia. by apply Hw. Qed.
End windows.

(** ** A process' translation

    The walk of the processor through the tables at [ttb]: a coarse first level
    entry, then a small page. *)
Definition l1_entry (pm : gmap Z Z) (ttb va : Z) : Z := word pm (ttb + 4 * L1X va).
Definition l2_slot (pm : gmap Z Z) (ttb va : Z) : Z := L1PA (l1_entry pm ttb va) + 4 * L2X va.
Definition user_walk (pm : gmap Z Z) (ttb va : Z) : option Z :=
  if l1_entry pm ttb va =? 0 then None else
  let w := word pm (l2_slot pm ttb va) in
  if w =? L2_FAULT then None else Some (Z.land w (u32 (Z.lnot 4095)) + va mod PAGE_SIZE).

(** The tables of an address space: a page each, none of them twice, and none
    where the first level is. *)
Record tables_ok (pm : gmap Z Z) (ttb : Z) : Prop := {
  to_base : 0 < ttb /\ ttb mod PAGE_SIZE = 0 /\ ttb + 0x4000 < 2 ^ 32;
  to_page : forall x, 0 <= x < 4096 -> word pm (ttb + 4 * x) <> 0 ->
    let t := L1PA (word pm (ttb + 4 * x)) in 0 <= t /\ t mod PAGE_SIZE = 0 /\ t + PAGE_SIZE < 2 ^ 32;
  to_apart : forall x y, 0 <= x < 4096 -> 0 <= y < 4096 -> x <> y ->
    word pm (ttb + 4 * x) <> 0 -> word pm (ttb + 4 * y) <> 0 ->
    L1PA (word pm (ttb + 4 * x)) <> L1PA (word pm (ttb + 4 * y));
  to_l1 : forall x, 0 <= x < 4096 -> word pm (ttb + 4 * x) <> 0 ->
    let t := L1PA (word pm (ttb + 4 * x)) in t + PAGE_SIZE <= ttb \/ ttb + 0x4000 <= t
}.

Section walk.
Implicit Types (pm : gmap Z Z) (ttb va x y : Z).

Lemma L1X_bound va : 0 <= va < 2 ^ 32 -> 0 <= L1X va < 4096.
Proof. intros. rewrite L1X_div by done. divmod. Qed.

(** Different pages have different slots. *)
Lemma l2_slot_inj pm ttb x y : tables_ok pm ttb -> 0 <= x < 2 ^ 32 -> 0 <= y < 2 ^ 32 ->
  l1_entry pm ttb x <> 0 -> l1_entry pm ttb y <> 0 ->
  l2_slot pm ttb x = l2_slot pm ttb y -> x / PAGE_SIZE = y / PAGE_SIZE.
Proof.
  intros Ht Hx Hy Ex Ey Heq. unfold l2_slot, l1_entry in *.
  pose proof (L1X_bound x Hx) as Bx. pose proof (L1X_bound y Hy) as By.
  pose proof (L2X_bound x) as Lx. pose proof (L2X_bound y) as Ly.
  destruct (to_page pm ttb Ht (L1X x) Bx Ex) as (X1 & X2 & X3).
  destruct (to_page pm ttb Ht (L1X y) By Ey) as (Y1 & Y2 & Y3).
  assert (E1 : L1X x = L1X y).
  { destruct (Z.eq_dec (L1X x) (L1X y)) as [|Hne]; [done|]. exfalso.
    apply (to_apart pm ttb Ht _ _ Bx By Hne Ex Ey).
    set (a := L1PA (word pm (ttb + 4 * L1X x))) in *. set (b := L1PA (word pm (ttb + 4 * L1X y))) in *.
    clear - X2 Y2 Lx Ly Heq. rewrite PAGE_SIZE_eq in *. apply Z.mod_divide in X2 as [a' ->], Y2 as [b' ->]; lia. }
  rewrite E1 in Heq. assert (E2 : L2X x = L2X y) by lia.
  rewrite !L1X_div, !page_div in E1 by done. rewrite !L2X_div in E2 by done.
  change (2 ^ 12) with PAGE_SIZE in E2. change (2 ^ 8) with 256 in E2.
  pose proof (Z.div_mod (x / PAGE_SIZE) 256). pose proof (Z.div_mod (y / PAGE_SIZE) 256). lia.
Qed.

Lemma l2_slot_apart pm ttb va x : tables_ok pm ttb -> 0 <= va < 2 ^ 32 -> 0 <= x < 4096 ->
  l1_entry pm ttb va <> 0 -> l2_slot pm ttb va <> ttb + 4 * x.
Proof.
  intros Ht Hva Hx E. pose proof (L1X_bound va Hva) as B. pose proof (L2X_bound va) as L.
  unfold l2_slot, l1_entry in *. destruct (to_l1 pm ttb Ht (L1X va) B E) as [?|?]; rewrite ?PAGE_SIZE_eq in *; lia.
Qed.

(** The walk depends on the first level and the page's slot. *)
Lemma user_walk_ext pm pm' ttb va :
  l1_entry pm' ttb va = l1_entry pm ttb va ->
  word pm' (l2_slot pm ttb va) = word pm (l2_slot pm ttb va) ->
  user_walk pm' ttb va = user_walk pm ttb va.
Proof. intros E1 E2. unfold user_walk, l2_slot in *. rewrite E1. by rewrite E2. Qed.
End walk.

(** ** Editing an address space page by page

    The loops of sys_frame_map and sys_frame_unmap: [entry j] is what they write for
    the page number [j]. *)
Section table_loop.
Variables (s : kstate) (pm0 : gmap Z Z) (ttb l1 va len lim : Z) (entry : Z -> Z).
Let n := n_pages len.
Let page (j : Z) := va + j * PAGE_SIZE.
Let sec (j : Z) := L1X (page j).
Let slot (j : Z) := l2_slot pm0 ttb (page j).
Hypothesis Htab : tables_ok pm0 ttb.
Hypothesis Hva : 0 <= va /\ va mod PAGE_SIZE = 0 /\ va + n * PAGE_SIZE <= 2 ^ 32.
Hypothesis Hlen : 0 <= len <= 2 ^ 32 - PAGE_SIZE.
Hypothesis Hl1 : 0 < l1.
Hypothesis Hpresent : forall j, 0 <= j < n -> l1_entry pm0 ttb (page j) <> 0.

(** The first [i] pages are mapped in [pm], and nothing else is changed. *)
Definition written (i : Z) (pm : gmap Z Z) : Prop :=
  (forall j, 0 <= j < i -> word pm (slot j) = entry j) /\
  (forall a, (forall j, 0 <= j < i -> a <> slot j) -> word pm a = word pm0 a).

(** The kernel's view: the first level is mapped at [l1], the window has room
    below [lim] for the tables of the sections after [c]. *)
Record linv (i : Z) (m : mach) (c : Z) : Prop := {
  li_window : window_ok m;
  li_l1 : win m l1 ttb 0x4000;
  li_below : l1 + 0x4000 <= m_va_next m;
  li_written : written i (m_pmem m);
  li_room : m_va_next m + 2 * PAGE_SIZE * (sec (n - 1) - c) < lim <= m_va_max m /\ c <= sec (n - 1)
}.

(** The second level table of the section [c] is mapped at [l2]. *)
Record lcur (m : mach) (l2 c : Z) : Prop := {
  lc_win : win m l2 (L1PA (word pm0 (ttb + 4 * c))) PAGE_SIZE;
  lc_above : l1 + 0x4000 <= l2;
  lc_below : l2 + PAGE_SIZE <= m_va_next m;
  lc_placed : placed l2 PAGE_SIZE
}.

Lemma page_range j : 0 <= j < n -> 0 <= page j < 2 ^ 32.
Proof. unfold page. rewrite PAGE_SIZE_eq in *. lia. Qed.

Lemma slot_inj j k : 0 <= j < n -> 0 <= k < n -> slot j = slot k -> j = k.
Proof.
  intros Hj Hk E. apply (l2_slot_inj pm0 ttb) in E; [|done|by apply page_range|by apply page_range|by apply Hpresent..].
  unfold page in E. rewrite !Z.div_add in E by done. lia.
Qed.

Lemma written_l1 i pm x : 0 <= i <= n -> written i pm -> 0 <= x < 4096 -> word pm (ttb + 4 * x) = word pm0 (ttb + 4 * x).
Proof.
  intros Hi [_ Hw] Hx. apply Hw. intros j Hj E. symmetry in E. revert E.
  apply l2_slot_apart; [done|apply page_range; lia|done|apply Hpresent; lia].
Qed.

Lemma sec_mono i j : 0 <= i <= j -> j < n -> sec i <= sec j.
Proof.
  intros Hi Hj. unfold sec. rewrite !L1X_div by (apply page_range; lia). unfold page.
  apply Z.div_le_mono; [lia|]. rewrite PAGE_SIZE_eq. lia.
Qed.

Lemma written_next i pm : 0 <= i < n -> written i pm -> written (i + 1) (<[slot i := entry i]> pm).
Proof.
  intros Hi [H1 H2]. split.
  - intros j Hj. rewrite word_insert. case_decide as E.
    + apply slot_inj in E; [by subst|lia|lia].
    + apply H1. assert (j <> i) by congruence. lia.
  - intros a Ha. rewrite word_insert, decide_False by (intros E; by apply (Ha i ltac:(lia))).
    apply H2. intros j Hj. apply Ha. lia.
Qed.
Definition known (m : mach) (l2 x c i : Z) : Prop :=
  (l2 = NIL /\ c < sec i) \/ (l2 <> NIL /\ x = c /\ c <= sec i /\ lcur m l2 c).

(** Giving up the table of the last section. *)
Lemma drop_l2 i m l2 c : linv i m c -> (l2 <> NIL -> lcur m l2 c) ->
  exists m', (if negb (l2 =? NIL) then kernel_unmap l2 PAGE_SIZE else ret tt) (set_k_mach m s) = Ok tt (set_k_mach m' s) /\
    mframe m m' /\ linv i m' c.
Proof.
  intros [L1 L2 L3 L4 L5] Hc. destruct (Z.eqb_spec l2 NIL) as [->|Hn]; cbn [negb].
  - exists m. split; [done|]. split; [done|]. by constructor.
  - destruct (Hc Hn) as [C1 C2 C3 C4].
    destruct (kernel_unmap_win s m l2 PAGE_SIZE C4) as (m' & Hrun & Hf & Hp & Hx & Hout); [done|].
    exists m'. split; [exact Hrun|]. split; [done|]. constructor.
    + by eapply mframe_window.
    + intros k Hk. rewrite Hout; [by apply L2| |left; lia].
      destruct C4 as [(? & ? & ?) _ _]. lia.
    + lia.
    + by rewrite Hp.
    + rewrite Hx. destruct Hf as (? & ? & ? & ->). exact L5.
Qed.

Lemma l2_for_spec i m l2 x c : 0 <= i < n -> linv i m c -> known m l2 x c i ->
  exists l2' m', l2_for l1 va (i * PAGE_SIZE) l2 x (set_k_mach m s) = Ok (l2', sec i) (set_k_mach m' s) /\
    mframe m m' /\ linv i m' (sec i) /\ lcur m' l2' (sec i) /\ l2' <> NIL.
Proof.
  intros Hi Hinv Hk. unfold l2_for. change (L1X (va + i * PAGE_SIZE)) with (sec i).
  destruct ((l2 =? NIL) || negb (sec i =? x)) eqn:E.
  2: { apply orb_false_elim in E as [E1 E2]. apply Z.eqb_neq in E1. apply negb_false_iff, Z.eqb_eq in E2.
       destruct Hk as [[? _]|(_ & -> & _ & Hc)]; [done|]. subst c. by exists l2, m. }
  assert (Hlt : c < sec i).
  { destruct Hk as [[_ ?]|(Hn & -> & Hle & _)]; [done|]. apply orb_true_iff in E as [E|E].
    - apply Z.eqb_eq in E. done.
    - apply negb_true_iff, Z.eqb_neq in E. lia. }
  destruct (drop_l2 i m l2 c Hinv) as (m1 & Hrun1 & Hf1 & [W1 W2 W3 W4 W5]);
    [by destruct Hk as [[? _]|(_ & _ & _ & ?)]|].
  erewrite bind_ok by exact Hrun1.
  assert (Hb : 0 <= sec i < 4096) by by apply L1X_bound, page_range.
  erewrite bind_ok by (apply (load_word_run s m1 l1 ttb 0x4000 (4 * sec i)); [done|lia]).
  rewrite (written_l1 i) by (try done; lia).
  pose proof (Hpresent i Hi) as He. unfold l1_entry in He. fold (sec i) in He.
  rewrite (proj2 (Z.eqb_neq _ _) He).
  destruct (to_page pm0 ttb Htab (sec i) Hb He) as (T1 & T2 & T3).
  pose proof (sec_mono i (n - 1) ltac:(lia) ltac:(lia)) as Hm.
  destruct (kernel_map_win s m1 (L1PA (word pm0 (ttb + 4 * sec i))) PAGE_SIZE true)
    as (v & m2 & Hrun2 & Hf2 & Hp2 & Hw2 & Hv & Hn2 & Hle & Hpl & Hwin & Hold); [done|lia|done|done|done|done|done| |].
  { rewrite PAGE_SIZE_eq in *. lia. }
  erewrite bind_ok by exact Hrun2. rewrite (proj2 (Z.eqb_neq v NIL)) by (unfold NIL; lia).
  exists v, m2. split; [done|]. split; [by etransitivity|]. split; [|split; [|unfold NIL; lia]].
  - constructor; [done| |lia| |].
    + eapply (win_frame m1 m2 l1 ttb 0x4000 (m_va_next m1)); [done|lia|lia|done].
    + by rewrite Hp2.
    + assert (m_va_max m2 = m_va_max m1) as -> by by destruct Hf2 as (? & ? & ? & ->).
      rewrite PAGE_SIZE_eq in *. lia.
  - constructor; [done|lia|lia|done].
Qed.

(** What one round does after it has the table. *)
Lemma round_spec i m l2 c w : 0 <= i < n -> linv i m c -> lcur m l2 c -> c = sec i -> w = entry i ->
  let a := l2 + 4 * L2X (va + i * PAGE_SIZE) in
  load_word a (set_k_mach m s) = Ok (word pm0 (slot i)) (set_k_mach m s) /\
  exists m', store_word a w (set_k_mach m s) = Ok tt (set_k_mach m' s) /\ mframe m m' /\ linv (i + 1) m' c /\ lcur m' l2 c.
Proof.
  intros Hi Hinv Hcur -> -> a. pose proof Hcur as [C1 C2 C3 C4]. pose proof Hinv as [W1 W2 W3 W4 W5].
  assert (HL : 0 <= 4 * L2X (va + i * PAGE_SIZE) < PAGE_SIZE)
    by (pose proof (L2X_bound (va + i * PAGE_SIZE)) as HL; rewrite PAGE_SIZE_eq in *; lia).
  assert (Hslot : L1PA (word pm0 (ttb + 4 * sec i)) + 4 * L2X (va + i * PAGE_SIZE) = slot i) by done.
  split.
  { unfold a. erewrite load_word_run by done. rewrite Hslot. f_equal. apply W4.
    intros j Hj E. apply slot_inj in E; lia. }
  eexists. split; [apply (store_word_run s m l2 _ PAGE_SIZE _ _ C1 HL)|]. rewrite Hslot.
  set (m2 := set_m_pmem _ m). assert (Hpa : forall y, kernel_pa m2 y = kernel_pa m y) by (intros; by apply kernel_pa_l2).
  split; [exists (m_pmem m2), (m_kernel_l2 m), (m_va_next m); by destruct m|]. split.
  - constructor; [by destruct W1; constructor| |exact W3| |exact W5].
    + intros k Hk'. rewrite Hpa. by apply W2.
    + apply written_next; [lia|done].
  - constructor; [|done..]. intros k Hk'. rewrite Hpa. by apply C1.
Qed.

(** The loop condition and the counter. *)
Lemma round_cond i : 0 <= i <= n -> (i * PAGE_SIZE <? len) = (i <? n).
Proof.
  intros Hi. destruct (Z.ltb_spec i n) as [Hx|Hx].
  - apply Z.ltb_lt, (n_pages_lt len i). exact Hx.
  - apply Z.ltb_ge. destruct (Z.lt_ge_cases (i * PAGE_SIZE) len) as [Hc|]; [|done].
    apply n_pages_lt in Hc. fold n in Hc. lia.
Qed.

Lemma round_step i : 0 <= i < n -> u32 (i * PAGE_SIZE + PAGE_SIZE) = (i + 1) * PAGE_SIZE.
Proof.
  intros Hi. assert (Hc : i * PAGE_SIZE < len) by (apply (n_pages_lt len i); exact (proj2 Hi)).
  rewrite u32_small by (rewrite PAGE_SIZE_eq in *; lia). lia.
Qed.

(** The result of a loop that has reached the end. *)
Definition finished (l2 : Z) (m m' : mach) (l2' : Z) : Prop :=
  exists c', mframe m m' /\ linv n m' c' /\ (l2' <> NIL -> lcur m' l2' c').

(** The loop of sys_frame_map, from the page [i] on. *)
Lemma frame_map_loop_spec pa perm fuel i m l2 x c :
  (forall j, entry j = Z.lor (u32 (pa + j * PAGE_SIZE)) perm) -> (forall j, 0 <= j < n -> word pm0 (slot j) = 0) ->
  0 <= i <= n -> (Z.to_nat (n - i) <= fuel)%nat ->
  linv i m c -> (i < n -> known m l2 x c i) -> (l2 <> NIL -> lcur m l2 c) ->
  exists l2' m', frame_map_loop fuel l1 va pa len perm (i * PAGE_SIZE) l2 x (set_k_mach m s) = Ok l2' (set_k_mach m' s) /\
    finished l2 m m' l2'.
Proof.
  intros Hentry Hempty. revert i m l2 x c. induction fuel as [|fuel IH]; intros i m l2 x c Hi Hfu Hinv Hk Hl;
    unfold frame_map_loop; fold frame_map_loop; rewrite round_cond by done.
  all: destruct (Z.ltb_spec i n) as [Hc|Hc]; cbn [negb].
  1: lia.
  1,3: assert (i = n) as -> by lia; exists l2, m; split; [done|]; by exists c.
  destruct (l2_for_spec i m l2 x c) as (l2' & m1 & Hrun & Hf1 & Hinv1 & Hcur & Hnz); [lia|done|by apply Hk|].
  erewrite bind_ok by exact Hrun.
  destruct (round_spec i m1 l2' (sec i) _ ltac:(lia) Hinv1 Hcur eq_refl eq_refl) as (Hld & m2 & Hst & Hf2 & Hinv2 & Hcur2).
  rewrite Hempty in Hld by lia. erewrite bind_ok by exact Hld. change (0 =? L2_FAULT) with true. cbn [negb].
  rewrite <-Hentry. erewrite bind_ok by exact Hst. rewrite round_step by lia.
  destruct (IH (i + 1) m2 l2' (sec i) (sec i)) as (l3 & m3 & Hrun3 & c3 & Hf3 & Hlast); [lia|lia|done| |done|].
  { intros Hlt. right. split_and!; [done|done|apply sec_mono; lia|done]. }
  exists l3, m3. split; [exact Hrun3|]. exists c3. split; [|done]. do 2 (etransitivity; [eassumption|]). done.
Qed.

(** The loop of sys_frame_unmap: the pages are mapped to the bytes from [pa0] on. *)
Lemma frame_unmap_loop_spec pa0 fuel i m l2 x c :
  (forall j, entry j = 0) -> 0 < pa0 -> pa0 + n * PAGE_SIZE <= 2 ^ 32 ->
  (forall j, 0 <= j < n -> word pm0 (slot j) <> 0 /\ L2PA (word pm0 (slot j)) = pa0 + j * PAGE_SIZE) ->
  0 <= i <= n -> (Z.to_nat (n - i) <= fuel)%nat ->
  linv i m c -> (i < n -> known m l2 x c i) -> (l2 <> NIL -> lcur m l2 c) ->
  exists l2' m', frame_unmap_loop fuel l1 va len (i * PAGE_SIZE) l2 x (if i =? 0 then NIL else pa0) (set_k_mach m s) =
      Ok l2' (set_k_mach m' s) /\ finished l2 m m' l2'.
Proof.
  intros Hentry Hpa Hpe Hmap. revert i m l2 x c. induction fuel as [|fuel IH]; intros i m l2 x c Hi Hfu Hinv Hk Hl;
    unfold frame_unmap_loop; fold frame_unmap_loop; rewrite round_cond by done.
  all: destruct (Z.ltb_spec i n) as [Hc|Hc]; cbn [negb].
  1: lia.
  1,3: assert (i = n) as -> by lia; exists l2, m; split; [done|]; by exists c.
  destruct (l2_for_spec i m l2 x c) as (l2' & m1 & Hrun & Hf1 & Hinv1 & Hcur & Hnz); [lia|done|by apply Hk|].
  erewrite bind_ok by exact Hrun.
  destruct (round_spec i m1 l2' (sec i) _ ltac:(lia) Hinv1 Hcur eq_refl eq_refl) as (Hld & m2 & Hst & Hf2 & Hinv2 & Hcur2).
  destruct (Hmap i) as [Hw Hp]; [lia|]. erewrite bind_ok by exact Hld. rewrite (proj2 (Z.eqb_neq _ _) Hw), Hp.
  rewrite Hentry in Hst. rewrite round_step by lia.
  assert (Hsmall : u32 (pa0 + i * PAGE_SIZE) = pa0 + i * PAGE_SIZE) by (apply u32_small; rewrite PAGE_SIZE_eq in *; lia).
  destruct (IH (i + 1) m2 l2' (sec i) (sec i)) as (l3 & m3 & Hrun3 & c3 & Hf3 & Hlast); [lia|lia|done| |done|].
  { intros Hlt. right. split_and!; [done|done|apply sec_mono; lia|done]. }
  rewrite (proj2 (Z.eqb_neq (i + 1) 0)) in Hrun3 by lia.
  exists l3, m3. split; [|exists c3; split; [do 2 (etransitivity; [eassumption|]); done|done]].
  destruct (Z.eqb_spec i 0) as [->|Hi0].
  - change (NIL =? NIL) with true. cbn [negb andb]. erewrite bind_ok by exact Hst.
    rewrite Z.mul_0_l, Z.add_0_r. exact Hrun3.
  - rewrite (proj2 (Z.eqb_neq pa0 NIL)) by (unfold NIL; lia). rewrite Hsmall, Z.eqb_refl. cbn [negb andb].
    erewrite bind_ok by exact Hst. exact Hrun3.
Qed.
End table_loop.

(** ** sys_frame_map *)
Section frame_map.
Implicit Types (s : kstate) (tc fc : capref) (tv fv : cap) (tf ff : obj_frame).

(** The kernel addresses a call uses end here: a first level table, and a second
    level table for every section of the [n] pages from [va] on. *)
Definition room_end (m : mach) (va n : Z) : Z :=
  m_va_next m + 2 * 0x4000 + 2 * PAGE_SIZE * (L1X (va + (n - 1) * PAGE_SIZE) - L1X va + 1) + 1.

(** A request to map the frame [ff] into the address space of [tf] at [va]. *)
Record can_map s (root tid cid va : Z) tc fc tv fv tf ff : Prop := {
  cm_space : holds s root tid CAP_rw OBJ_frame tc tv /\ k_frame s !! c_obj tv = Some tf /\ f_type tf = FRAME_L1;
  cm_frame : holds s root cid CAP_rw OBJ_frame fc fv /\ k_frame s !! c_obj fv = Some ff /\
    (f_type ff = FRAME_MEM \/ f_type ff = FRAME_DEV);
  cm_len : 0 < f_len ff <= 2 ^ 32 - PAGE_SIZE;
  cm_pa : 0 <= f_pa ff /\ f_pa ff mod PAGE_SIZE = 0 /\ f_pa ff + n_pages (f_len ff) * PAGE_SIZE <= 2 ^ 32;
  cm_va : 0 <= va /\ va mod PAGE_SIZE = 0 /\ va + n_pages (f_len ff) * PAGE_SIZE <= 2 ^ 32;
  cm_tables : tables_ok (m_pmem (k_mach s)) (f_pa tf);
  cm_present : forall j, 0 <= j < n_pages (f_len ff) ->
    l1_entry (m_pmem (k_mach s)) (f_pa tf) (va + j * PAGE_SIZE) <> 0;
  cm_empty : forall j, 0 <= j < n_pages (f_len ff) ->
    word (m_pmem (k_mach s)) (l2_slot (m_pmem (k_mach s)) (f_pa tf) (va + j * PAGE_SIZE)) = 0;
  cm_window : window_ok (k_mach s) /\ 0 < m_va_next (k_mach s) /\
    room_end (k_mach s) va (n_pages (f_len ff)) <= m_va_max (k_mach s)
}.

Definition map_entry (pa : Z) (cache : bool) (j : Z) : Z := Z.lor (u32 (pa + j * PAGE_SIZE)) (user_perm cache).

Lemma user_entry_add p cache : 0 <= p < 2 ^ 32 -> p mod PAGE_SIZE = 0 ->
  Z.lor (u32 p) (user_perm cache) = small_page p AP_RW_RW cache.
Proof.
  intros Hp Hal. unfold small_page, user_perm. destruct (cache_bits cache) as [[tex c] b]. by rewrite !Z.lor_assoc.
Qed.

(** The walk after the pages have been written. *)
Lemma written_walk pm0 pm ttb va entry n :
  tables_ok pm0 ttb -> 0 <= va /\ va mod PAGE_SIZE = 0 /\ va + n * PAGE_SIZE <= 2 ^ 32 ->
  (forall j, 0 <= j < n -> l1_entry pm0 ttb (va + j * PAGE_SIZE) <> 0) ->
  written pm0 ttb va entry n pm ->
  (forall x, va <= x < va + n * PAGE_SIZE -> let j := (x - va) / PAGE_SIZE in
     user_walk pm ttb x = if entry j =? L2_FAULT then None
                          else Some (Z.land (entry j) (u32 (Z.lnot 4095)) + (x - (va + j * PAGE_SIZE)))) /\
  (forall x, 0 <= x < 2 ^ 32 -> x < va \/ va + n * PAGE_SIZE <= x -> user_walk pm ttb x = user_walk pm0 ttb x).
Proof.
  intros Ht Hva Hpr [Hw1 Hw2].
  assert (Hl1 : forall x, 0 <= x < 2 ^ 32 -> l1_entry pm ttb x = l1_entry pm0 ttb x).
  { intros x Hx. unfold l1_entry. apply Hw2. intros j Hj E. symmetry in E. revert E.
    apply l2_slot_apart; [done| |by apply L1X_bound|by apply Hpr]. rewrite PAGE_SIZE_eq in *. lia. }
  split.
  - intros x Hx j.
    assert (Hj : 0 <= j < n /\ va + j * PAGE_SIZE = x - x mod PAGE_SIZE).
    { unfold j. clear - Hx Hva. destruct Hva as (_ & Hal & _). rewrite PAGE_SIZE_eq in *. divmod. }
    destruct Hj as [Hj Hpg].
    assert (Hx0 : 0 <= x - x mod PAGE_SIZE) by (rewrite <-Hpg; clear - Hva Hj; rewrite PAGE_SIZE_eq in *; lia).
    assert (Hx32 : 0 <= x < 2 ^ 32) by lia. pose proof (Z.mod_pos_bound x PAGE_SIZE ltac:(done)) as Hm.
    assert (Hsame : l2_slot pm0 ttb x = l2_slot pm0 ttb (va + j * PAGE_SIZE) /\
      l1_entry pm0 ttb x = l1_entry pm0 ttb (va + j * PAGE_SIZE)).
    { assert (Hdiv : x / PAGE_SIZE = (x - x mod PAGE_SIZE) / PAGE_SIZE) by (clear; rewrite PAGE_SIZE_eq; divmod).
      assert (E1 : L1X x = L1X (x - x mod PAGE_SIZE)) by (rewrite !L1X_div, !page_div by lia; f_equal; exact Hdiv).
      assert (E2 : L2X x = L2X (x - x mod PAGE_SIZE)).
      { rewrite !L2X_div by lia. change (2 ^ 12) with PAGE_SIZE. f_equal; exact Hdiv. }
      rewrite Hpg. unfold l2_slot, l1_entry. by rewrite <-E1, <-E2. }
    destruct Hsame as [Hs1 Hs2]. unfold user_walk, l2_slot. rewrite Hl1 by done. fold (l2_slot pm0 ttb x).
    rewrite Hs1, Hs2, (proj2 (Z.eqb_neq _ _)), Hw1 by auto. case_match; [done|]. do 2 f_equal. lia.
  - intros x Hx Hout. destruct (Z.eq_dec (l1_entry pm0 ttb x) 0) as [E|E].
    { unfold user_walk. by rewrite Hl1, E. }
    apply user_walk_ext; [by apply Hl1|]. apply Hw2. intros j Hj Heq.
    apply l2_slot_inj in Heq; [|done|done|rewrite PAGE_SIZE_eq in *; lia|done|by apply Hpr].
    rewrite Z.div_add in Heq by done. clear - Heq Hva Hj Hout Hx. destruct Hva as (_ & Hal & _).
    rewrite PAGE_SIZE_eq in *. divmod.
Qed.

Lemma map_entry_walk pa cache n j x va : 0 <= pa /\ pa mod PAGE_SIZE = 0 /\ pa + n * PAGE_SIZE <= 2 ^ 32 -> 0 <= j < n ->
  (if map_entry pa cache j =? L2_FAULT then None
   else Some (Z.land (map_entry pa cache j) (u32 (Z.lnot 4095)) + (x - (va + j * PAGE_SIZE)))) = Some (pa + (x - va)).
Proof.
  intros Hpa Hj. assert (Hp : 0 <= pa + j * PAGE_SIZE < 2 ^ 32 /\ (pa + j * PAGE_SIZE) mod PAGE_SIZE = 0).
  { split; [clear - Hpa Hj; rewrite PAGE_SIZE_eq in *; lia|]. rewrite Z.mod_add by done. by destruct Hpa as (_ & ? & _). }
  destruct Hp as [Hp1 Hp2]. unfold map_entry. rewrite user_entry_add by done.
  rewrite (proj2 (Z.eqb_neq _ _)) by by apply small_page_nonzero.
  rewrite small_page_frame by done. f_equal. lia.
Qed.

(** The frame lists after [ff] has been put in front of the frames of [tf]. *)
Definition pushed (frames : gmap Z obj_frame) (t f va : Z) tf ff : gmap Z obj_frame :=
  <[t := set_f_next f tf]> (<[f := set_f_next (f_next tf) (set_f_va va ff)]> frames).

Lemma frame_push_run s t f va tf ff : k_frame s !! t = Some tf -> k_frame s !! f = Some ff -> t <> f ->
  frame_push t f va s = Ok tt (set_k_frame (pushed (k_frame s) t f va tf ff) s).
Proof.
  intros Ht Hf Hne. unfold frame_push, upd_frame, get_frame, pushed. unfold bind, read, modify. cbn.
  rewrite Hf. cbn. rewrite lookup_insert_ne, Ht by done. cbn. rewrite lookup_insert_eq. cbn.
  rewrite insert_insert_eq, lookup_insert_ne, Ht by done. done.
Qed.

(** The table work of both calls: the first level is mapped, the loop [lp] runs,
    everything is unmapped again. *)
Lemma table_pages {A} s ttb va len entry (lp : Z -> KM Z) (no K : KM A) (Qp : A -> kstate -> Prop) E :
  let n := n_pages len in let m := k_mach s in
  0 < len -> 0 <= va /\ va mod PAGE_SIZE = 0 /\ va + n * PAGE_SIZE <= 2 ^ 32 ->
  tables_ok (m_pmem m) ttb ->
  window_ok m /\ 0 < m_va_next m /\
    room_end m va n <= m_va_max m ->
  (forall l1 m1, 0 < l1 -> linv (m_pmem m) ttb l1 va len (room_end m va n) entry 0 m1 (L1X va - 1) ->
     exists l2 m2, lp l1 (set_k_mach m1 s) = Ok l2 (set_k_mach m2 s) /\
       finished (m_pmem m) ttb l1 va len (room_end m va n) entry NIL m1 m2 l2) ->
  (forall m', mframe m m' -> written (m_pmem m) ttb va entry n (m_pmem m') -> window_ok m' ->
     0 < m_va_next m' < room_end m va n -> wpe K (set_k_mach m' s) Qp E) ->
  wpe (let* l1 := kernel_map ttb 0x4000 true in
       if l1 =? NIL then no else
       let* l2 := lp l1 in
       (if negb (l2 =? NIL) then kernel_unmap l2 PAGE_SIZE else ret tt) ;;;
       kernel_unmap l1 0x4000 ;;; K) s Qp E.
Proof.
  intros n m Hlen Hva Htab (Hw & Hnx & Hroom) Hlp HK.
  assert (Hn : 1 <= n) by (assert (0 < n) by (apply n_pages_lt; lia); lia).
  destruct (to_base _ _ Htab) as (B1 & B2 & B3).
  assert (Hsec : L1X va <= L1X (va + (n - 1) * PAGE_SIZE)).
  { rewrite !L1X_div by (rewrite PAGE_SIZE_eq in *; lia). apply Z.div_le_mono; rewrite ?PAGE_SIZE_eq; lia. }
  destruct (kernel_map_win s m ttb 0x4000 true) as (l1 & m1 & Hr1 & F1 & P1 & W1 & V1 & N1 & L1 & Pl1 & Win1 & _);
    [done|done|lia|exact B2|by vm_compute|by vm_compute|exact B3|unfold room_end in *; rewrite PAGE_SIZE_eq in *; lia|].
  assert (Hs : set_k_mach m s = s) by (unfold m; by destruct s). rewrite Hs in Hr1.
  apply wpe_bind. eapply wpe_ok; [exact Hr1|]. rewrite (proj2 (Z.eqb_neq l1 NIL)) by (unfold NIL; lia).
  destruct (Hlp l1 m1) as (l2 & m2 & Hr2 & c2 & F2 & Inv2 & Hcur); [lia| |].
  { constructor; [done|done|lia| |].
    - split; [intros; lia|]. intros a _. by rewrite P1.
    - fold n. assert (m_va_max m1 = m_va_max m) as -> by by destruct F1 as (? & ? & ? & ->).
      unfold room_end in *. clear - Hroom L1 Hsec. rewrite PAGE_SIZE_eq in *. lia. }
  apply wpe_bind. eapply wpe_ok; [exact Hr2|].
  destruct (drop_l2 s (m_pmem m) ttb l1 va len (room_end m va n) entry ltac:(lia) n m2 l2 c2 Inv2 Hcur)
    as (m3 & Hr3 & F3 & [Hw3 _ Hb3 Hwr [Hl3 Hc3]]).
  apply wpe_bind. eapply wpe_ok; [exact Hr3|].
  destruct (kernel_unmap_win s m3 l1 0x4000 Pl1) as (m4 & Hr4 & F4 & P4 & V4 & _); [by vm_compute|].
  apply wpe_bind. eapply wpe_ok; [exact Hr4|]. apply HK; [|by rewrite P4|by eapply mframe_window|].
  2: { rewrite V4. fold n in Hl3, Hc3. split; [lia|]. clear - Hl3 Hc3. rewrite PAGE_SIZE_eq in *. lia. }
  etransitivity; [exact F1|]. etransitivity; [exact F2|]. by etransitivity.
Qed.

(** The state after a call that has changed the frames, a slot and the tables. *)
Definition frame_done s (q : capref) (c : cap) (fr : gmap Z obj_frame) (m' : mach) : kstate :=
  set_k_caplist (alter (zupd q.2 c) q.1 (k_caplist s)) (set_k_frame fr (set_k_mach m' s)).

Lemma frame_done_slot s q c fr m' r : is_Some (cap_lookup q s) ->
  cap_lookup r (frame_done s q c fr m') = if decide (r = q) then Some c else cap_lookup r s.
Proof.
  intros [c0 Hc].
  change (cap_lookup r (frame_done s q c fr m')) with (cap_lookup r (set_k_caplist (alter (zupd q.2 c) q.1 (k_caplist s)) s)).
  rewrite cap_lookup_put.
  destruct (decide (q = r)) as [<-|Hq]; [rewrite !decide_True by done; by rewrite Hc|by rewrite !decide_False].
Qed.

(** The part of the machine a call on the pages [0 .. n) leaves for the next. *)
Definition tables_left (m m' : mach) (ttb va : Z) (entry : Z -> Z) (n : Z) : Prop :=
  mframe m m' /\ written (m_pmem m) ttb va entry n (m_pmem m') /\ window_ok m' /\
  0 < m_va_next m' < room_end m va n.

Lemma sys_frame_map_spec s root tid cid va cache tc fc tv fv tf ff
    (Hok : caps_ok s) (Hrun : runs_with s root) (Htid : cid_ok tid) (Hcid : cid_ok cid)
    (Hcan : can_map s root tid cid va tc fc tv fv tf ff) :
  wp (sys_frame_map tid cid va cache) s (fun r s' => r = OK /\ exists m' cache',
    s' = frame_done s fc cap_empty (pushed (k_frame s) (c_obj tv) (c_obj fv) va tf ff) m' /\
    tables_left (k_mach s) m' (f_pa tf) va (map_entry (f_pa ff) cache') (n_pages (f_len ff))).
Proof.
  destruct Hcan as [(Ht & Htf & Htt) (Hf & Hff & Hft) Hlen Hpa Hva Htab Hpr Hem (Hw & Hnx & Hroom)].
  assert (Hne : c_obj tv <> c_obj fv).
  { intros E. rewrite E in Htf. assert (tf = ff) as -> by congruence. by destruct Hft as [Hft|Hft]; rewrite Htt in Hft. }
  pose proof Ht as (_ & Htv & _). pose proof Hf as (_ & Hfv & _).
  unfold sys_frame_map. apply wpe_bind, wpe_gets.
  apply wpe_bind. eapply wpe_ok; [by eapply find_type_run|]. apply wpe_bind. eapply wpe_ok; [by eapply find_type_run|].
  apply wpe_bind. eapply wpe_get_cap; [exact Htv|]. apply wpe_bind. eapply wpe_get_cap; [exact Hfv|].
  apply wpe_bind. eapply wpe_get_frame; [exact Htf|]. apply wpe_bind. eapply wpe_get_frame; [exact Hff|].
  rewrite Htt. change (negb (FRAME_L1 =? FRAME_L1)) with false. cbv beta iota zeta.
  replace (negb (f_type ff =? FRAME_MEM) && negb (f_type ff =? FRAME_DEV)) with false by (by destruct Hft as [-> | ->]).
  set (cache' := if (f_type ff =? FRAME_DEV) && cache then false else cache).
  apply (table_pages s (f_pa tf) va (f_len ff) (map_entry (f_pa ff) cache')); [lia|done|done|done| |].
  { intros l1 m1 Hl1 Hinv. cbn beta. assert (0 < n_pages (f_len ff)) by (apply n_pages_lt; lia).
    change (frame_map_loop ?f ?a ?b ?c ?d ?e 0 NIL 0) with (frame_map_loop f a b c d e (0 * PAGE_SIZE) NIL 0).
    eapply frame_map_loop_spec with (c := L1X va - 1); try done; try lia.
    - apply pages_fuel. lia.
    - intros _. left. split; [done|]. rewrite Z.mul_0_l, Z.add_0_r. lia. }
  intros m' Hmf Hwr Hw' Hnx'.
  apply wpe_bind. eapply wpe_ok; [by apply (frame_push_run _ _ _ _ tf ff)|].
  apply wpe_bind. eapply wpe_put_cap; [exact Hfv|]. apply wpe_ret. split; [done|]. exists m', cache'. done.
Qed.

(** C8: Mapping a frame into an address space whose tables are there, at
    addresses where nothing is mapped, succeeds, and afterwards the processor's
    walk takes the addresses from [va] on to the frame's bytes in order, and every
    other address to where it went before; the frame is on the space's list, the
    capability is gone and no other slot changes. *)
Theorem sys_frame_map_correct s root tid cid va cache tc fc tv fv tf ff
    (Hok : caps_ok s) (Hrun : runs_with s root) (Htid : cid_ok tid) (Hcid : cid_ok cid)
    (Hcan : can_map s root tid cid va tc fc tv fv tf ff) :
  wp (sys_frame_map tid cid va cache) s (fun r s' => r = OK /\
    (forall x, va <= x < va + n_pages (f_len ff) * PAGE_SIZE ->
       user_walk (m_pmem (k_mach s')) (f_pa tf) x = Some (f_pa ff + (x - va))) /\
    (forall x, 0 <= x < 2 ^ 32 -> x < va \/ va + n_pages (f_len ff) * PAGE_SIZE <= x ->
       user_walk (m_pmem (k_mach s')) (f_pa tf) x = user_walk (m_pmem (k_mach s)) (f_pa tf) x) /\
    k_frame s' = pushed (k_frame s) (c_obj tv) (c_obj fv) va tf ff /\
    (forall q, cap_lookup q s' = if decide (q = fc) then Some cap_empty else cap_lookup q s)).
Proof.
  eapply wpe_mono; [by eapply sys_frame_map_spec| |done]. cbn beta.
  intros r s' (-> & m' & cache' & -> & _ & Hwr & _). split; [done|].
  destruct Hcan as [_ ((_ & Hfv & _) & _) _ Hpa Hva Htab Hpr _ _].
  destruct (written_walk _ _ _ _ _ _ Htab Hva Hpr Hwr) as [H1 H2].
  split; [|split; [exact H2|split; [done|]]].
  - intros x Hx. cbn. rewrite H1 by done. eapply map_entry_walk; [exact Hpa|].
    clear - Hx. rewrite PAGE_SIZE_eq in *. divmod.
  - intros q. apply frame_done_slot. by exists fv.
Qed.
End frame_map.

(** ** The list of frames of an address space *)

(** [chain fr a l]: the frames after [a] are [l], in this order. *)
Fixpoint chain (fr : gmap Z obj_frame) (a : Z) (l : list Z) : Prop :=
  match l with
  | [] => f_next <$> fr !! a = Some NIL
  | b :: l' => f_next <$> fr !! a = Some b /\ b <> NIL /\ chain fr b l'
  end.

(** What the search of sys_frame_unmap passes over and what it stops at. *)
Definition maps_at (va : Z) (x : obj_frame) : Prop := f_type x <> FRAME_L2 /\ f_va x = va.
#[export] Instance maps_at_dec va x : Decision (maps_at va x) := and_dec _ _.

Section frame_list.
Implicit Types (s : kstate) (fr : gmap Z obj_frame) (a f va : Z) (l : list Z).

Lemma chain_elem fr a l b : chain fr a l -> b = a \/ b ∈ l -> is_Some (fr !! b).
Proof.
  assert (Hs : forall c v, f_next <$> fr !! c = Some v -> is_Some (fr !! c)).
  { intros c v. destruct (fr !! c); [by eexists|done]. }
  revert a. induction l as [|x l IH]; intros a; cbn.
  - intros H [->|Hb]; [by eapply Hs|]. by apply elem_of_nil in Hb.
  - intros (H1 & _ & H2) [->|Hb]; [by eapply Hs|]. apply (IH x H2). apply elem_of_cons in Hb as [?|?]; auto.
Qed.

Lemma last_shift (a b : Z) l : List.last (b :: l) a = List.last l b.
Proof. revert a b. induction l as [|c l IH]; intros; [done|]. transitivity (List.last l c); [exact (IH a c)|symmetry; exact (IH b c)]. Qed.

Lemma frame_take_spec s va l1 f l2 x a fuel : chain (k_frame s) a (l1 ++ f :: l2) ->
  (forall b y, b ∈ l1 -> k_frame s !! b = Some y -> ~ maps_at va y) ->
  k_frame s !! f = Some x -> maps_at va x -> (length l1 < fuel)%nat ->
  frame_take fuel a va s =
    Ok f (set_k_frame (alter (set_f_next (f_next x)) (List.last l1 a) (k_frame s)) s).
Proof.
  revert a l1. induction fuel as [|fuel IH]; intros a l1 Hc Hskip Hf Hat Hfu; [lia|].
  assert (Ha : is_Some (k_frame s !! a)) by (eapply chain_elem; [exact Hc|by left]).
  destruct Ha as [y Hy]. cbn [frame_take]. unfold get_frame. erewrite bind_ok by by apply read_ok.
  destruct l1 as [|b l1]; cbn [app chain] in Hc; rewrite Hy in Hc; cbn in Hc.
  - destruct Hc as ([= E] & Hnz & _). rewrite E, (proj2 (Z.eqb_neq _ _) Hnz).
    erewrite bind_ok by by apply read_ok. destruct Hat as [H1 H2].
    rewrite (proj2 (Z.eqb_neq _ _) H1), (proj2 (Z.eqb_eq _ _) H2).
    unfold upd_frame, get_frame, bind, read, modify. rewrite Hy. cbn. unfold ret. do 2 f_equal.
    apply map_eq. intros i. rewrite lookup_insert, lookup_alter. case_decide; [|done]. subst. by rewrite Hy.
  - destruct Hc as ([= E] & Hnz & Hc). rewrite E, (proj2 (Z.eqb_neq _ _) Hnz).
    assert (Hb : is_Some (k_frame s !! b)) by (eapply chain_elem; [exact Hc|by left]).
    destruct Hb as [z Hz]. erewrite bind_ok by by apply read_ok.
    assert (Hrec : frame_take fuel b va s =
      Ok f (set_k_frame (alter (set_f_next (f_next x)) (List.last (b :: l1) a) (k_frame s)) s)).
    { rewrite last_shift. apply IH; [done| |done|done|cbn in Hfu; lia]. intros c ? Hin. apply Hskip. by apply elem_of_cons; right. }
    destruct (Z.eqb_spec (f_type z) FRAME_L2) as [?|H1]; [exact Hrec|].
    destruct (Z.eqb_spec (f_va z) va) as [H2|]; [|exact Hrec].
    exfalso. apply (Hskip b z); [by apply elem_of_cons; left|done|done].
Qed.
End frame_list.

(** ** sys_frame_unmap *)
Section frame_unmap.
Implicit Types (s : kstate) (fr : gmap Z obj_frame) (a f va : Z) (l : list Z) (tc fc : capref) (tv fv : cap) (tf ff : obj_frame).

Lemma chain_ext fr fr' a l : (forall b, b = a \/ b ∈ l -> f_next <$> fr' !! b = f_next <$> fr !! b) ->
  chain fr a l -> chain fr' a l.
Proof.
  revert a. induction l as [|b l IH]; intros a Hx; cbn; [by rewrite Hx by by left|].
  intros (H1 & H2 & H3). rewrite Hx by by left. split_and!; [done|done|]. apply IH; [|done].
  intros c Hc. apply Hx. right. apply elem_of_cons. naive_solver.
Qed.

(** The frames once [f], found after [l1], has been taken out. *)
Definition unmapped fr a l1 f ff : gmap Z obj_frame :=
  <[f := set_f_va NIL (set_f_next NIL ff)]> (alter (set_f_next (f_next ff)) (List.last l1 a) fr).

Lemma last_in (a : Z) l : List.last l a = a \/ List.last l a ∈ l.
Proof.
  revert a. induction l as [|x l IH]; intros a; [by left|]. right. rewrite last_shift.
  destruct (IH x) as [->|E]; apply elem_of_cons; [by left|by right].
Qed.

Lemma chain_unmapped fr a l1 f l2 ff : chain fr a (l1 ++ f :: l2) -> NoDup (a :: l1 ++ f :: l2) ->
  fr !! f = Some ff -> chain (unmapped fr a l1 f ff) a (l1 ++ l2).
Proof.
  intros Hc Hnd Hf. unfold unmapped. revert a Hc Hnd. induction l1 as [|b l1 IH]; intros a; cbn [app chain].
  - cbn [List.last]. intros (H1 & H2 & H3) Hnd. rewrite NoDup_cons in Hnd; destruct Hnd as [Ha Hnd]. rewrite NoDup_cons in Hnd; destruct Hnd as [Hfl _].
    assert (Haf : a <> f) by (intros ->; apply Ha; by apply elem_of_cons; left).
    assert (Hal : a ∉ l2) by (intros ?; apply Ha; by apply elem_of_cons; right).
    destruct (fr !! a) as [y|] eqn:Hy; [|done].
    assert (Ea : f_next <$> <[f:=set_f_va NIL (set_f_next NIL ff)]> (alter (set_f_next (f_next ff)) a fr) !! a = Some (f_next ff)).
    { by rewrite lookup_insert_ne, lookup_alter_eq, Hy by done. }
    destruct l2 as [|c l2]; cbn [chain] in *; rewrite Hf in H3; cbn in H3.
    + rewrite Ea. exact H3.
    + destruct H3 as (H3 & H4 & H5). rewrite Ea. split_and!; [exact H3|exact H4|]. eapply chain_ext, H5.
      intros b Hb. assert (b ∈ c :: l2) by (apply elem_of_cons; naive_solver).
      by rewrite lookup_insert_ne, lookup_alter_ne by (intros ->; done).
  - intros (H1 & H2 & H3) Hnd. rewrite NoDup_cons in Hnd; destruct Hnd as [Ha Hnd].
    rewrite (last_shift a b l1). split_and!; [|done|by apply IH].
    rewrite lookup_insert_ne, lookup_alter_ne; [done| |].
    + intros E. apply Ha. destruct (last_in b l1) as [E'|E']; rewrite E in *; [rewrite E'; by apply elem_of_cons; left|].
      apply elem_of_cons. right. apply elem_of_app. by left.
    + intros ->. apply Ha. apply elem_of_cons. right. apply elem_of_app. right. by apply elem_of_cons; left.
Qed.

(** A slot sys_frame_unmap takes for free: one without rights -- or one that holds
    the right to untyped memory. *)
Definition free_slot s (c : cap) : Prop :=
  c_perm c = 0 \/ exists h, k_head s !! c_obj c = Some h /\ h_type h = OBJ_untyped.

Lemma find_free_run s root cid r c : caps_ok s -> runs_with s root -> cid_ok cid ->
  resolves s root cid r -> cap_lookup r s = Some c -> free_slot s c ->
  proc_find_cap_type (k_up s) cid 0 0 s = Ok (Some r) s.
Proof.
  intros Hok Hrun Hcid Hr Hc Hfree. unfold proc_find_cap_type.
  erewrite bind_ok by by eapply find_runs. unfold get_cap. erewrite bind_ok by by apply read_ok.
  rewrite Z.land_0_r. cbn [Z.eqb negb]. destruct (Z.eqb_spec (c_perm c) 0) as [|Hn]; [done|].
  destruct Hfree as [?|(h & Hh & Ht)]; [done|]. unfold get_head. erewrite bind_ok by by apply read_ok. by rewrite Ht.
Qed.

(** A request to unmap the frame [ff], number [length l1] on the list of [tf], from [va]. *)
Record can_unmap s (root tid nid va : Z) tc nc tv (nv : cap) tf f ff (l1 l2 : list Z) : Prop := {
  cu_space : holds s root tid CAP_rw OBJ_frame tc tv /\ k_frame s !! c_obj tv = Some tf /\ f_type tf = FRAME_L1;
  cu_slot : resolves s root nid nc /\ cap_lookup nc s = Some nv /\ free_slot s nv;
  cu_list : chain (k_frame s) (c_obj tv) (l1 ++ f :: l2) /\ NoDup (c_obj tv :: l1 ++ f :: l2);
  cu_first : k_frame s !! f = Some ff /\ maps_at va ff /\
    forall b y, b ∈ l1 -> k_frame s !! b = Some y -> ~ maps_at va y;
  cu_len : 0 < f_len ff <= 2 ^ 32 - PAGE_SIZE;
  cu_pa : 0 < f_pa ff /\ f_pa ff + n_pages (f_len ff) * PAGE_SIZE <= 2 ^ 32;
  cu_va : 0 <= va /\ va mod PAGE_SIZE = 0 /\ va + n_pages (f_len ff) * PAGE_SIZE <= 2 ^ 32;
  cu_tables : tables_ok (m_pmem (k_mach s)) (f_pa tf);
  cu_mapped : forall j, 0 <= j < n_pages (f_len ff) ->
    l1_entry (m_pmem (k_mach s)) (f_pa tf) (va + j * PAGE_SIZE) <> 0 /\
    let w := word (m_pmem (k_mach s)) (l2_slot (m_pmem (k_mach s)) (f_pa tf) (va + j * PAGE_SIZE)) in
    w <> 0 /\ L2PA w = f_pa ff + j * PAGE_SIZE;
  cu_window : window_ok (k_mach s) /\ 0 < m_va_next (k_mach s) /\
    room_end (k_mach s) va (n_pages (f_len ff)) <= m_va_max (k_mach s)
}.

Lemma chain_size fr a l : chain fr a l -> NoDup (a :: l) -> (length l < S (size fr))%nat.
Proof.
  intros Hc Hnd. rewrite NoDup_cons in Hnd. destruct Hnd as [_ Hnd]. apply Nat.lt_succ_r.
  rewrite <-(size_list_to_set (C:=gset Z) l) by done. rewrite <-(size_dom fr : size (dom (D:=gset Z) fr) = _).
  apply subseteq_size. intros b Hb%elem_of_list_to_set. apply elem_of_dom. eapply chain_elem; [exact Hc|by right].
Qed.

Lemma chain_not_nil fr a l b : chain fr a l -> b ∈ l -> b <> NIL.
Proof.
  revert a. induction l as [|c l IH]; intros a; [by intros _ ?%elem_of_nil|]. cbn.
  intros (_ & ? & ?) [->|?]%elem_of_cons; [done|by eapply IH].
Qed.

Lemma sys_frame_unmap_spec s root tid nid va tc nc tv nv tf f ff l1 l2
    (Hok : caps_ok s) (Hrun : runs_with s root) (Htid : cid_ok tid) (Hnid : cid_ok nid)
    (Hcan : can_unmap s root tid nid va tc nc tv nv tf f ff l1 l2) :
  wp (sys_frame_unmap tid nid va) s (fun r s' => r = OK /\ exists m',
    s' = frame_done s nc (mk_cap (Z.lor CAP_read CAP_write) f) (unmapped (k_frame s) (c_obj tv) l1 f ff) m' /\
    tables_left (k_mach s) m' (f_pa tf) va (fun _ => 0) (n_pages (f_len ff))).
Proof.
  destruct Hcan as [(Ht & Htf & Htt) (Hn & Hnv & Hfree) (Hch & Hnd) (Hff & Hat & Hskip) Hlen Hpa Hva Htab Hmap (Hw & Hnx & Hroom)].
  pose proof Ht as (_ & Htv & _).
  assert (Hfin : f ∈ l1 ++ f :: l2) by (apply elem_of_app; right; by apply elem_of_cons; left).
  pose proof (chain_not_nil _ _ _ _ Hch Hfin) as Hf0.
  rewrite NoDup_cons in Hnd. destruct Hnd as [Htl Hnd].
  assert (Htf' : c_obj tv <> f) by (intros E; apply Htl; by rewrite E).
  assert (Hpf : List.last l1 (c_obj tv) <> f).
  { intros E. destruct (last_in (c_obj tv) l1) as [E'|E']; [by rewrite E' in E|]. rewrite E in E'.
    apply NoDup_app in Hnd as (_ & Hd & _). apply (Hd f E'). by apply elem_of_cons; left. }
  assert (Hsz : (length l1 < S (size (k_frame s)))%nat).
  { pose proof (chain_size _ _ _ Hch) as Hx. rewrite length_app in Hx. rewrite NoDup_cons in Hx. specialize (Hx (conj Htl Hnd)). lia. }
  unfold sys_frame_unmap. apply wpe_bind, wpe_gets.
  apply wpe_bind. eapply wpe_ok; [by eapply find_type_run|]. apply wpe_bind. eapply wpe_ok; [by eapply find_free_run|].
  apply wpe_bind. eapply wpe_get_cap; [exact Htv|]. apply wpe_bind. eapply wpe_get_frame; [exact Htf|].
  rewrite Htt. change (negb (FRAME_L1 =? FRAME_L1)) with false. cbv beta iota zeta.
  apply wpe_bind, wpe_gets, wpe_bind. eapply wpe_ok; [by eapply frame_take_spec|].
  rewrite (proj2 (Z.eqb_neq _ _) Hf0). set (fr1 := alter _ _ (k_frame s)). set (s1 := set_k_frame fr1 s).
  assert (Hf1 : k_frame s1 !! f = Some ff) by (cbn; unfold fr1; by rewrite lookup_alter_ne).
  assert (Ht1 : exists tf1, k_frame s1 !! c_obj tv = Some tf1 /\ f_pa tf1 = f_pa tf).
  { cbn. unfold fr1. rewrite lookup_alter. case_decide as E; [subst; rewrite E, Htf; by eexists|by exists tf]. }
  destruct Ht1 as (tf1 & Ht1 & Hpt).
  apply wpe_bind. eapply wpe_upd_frame; [exact Hf1|]. apply wpe_bind. eapply wpe_upd_frame; [apply lookup_insert_eq|].
  apply wpe_bind. eapply wpe_get_frame; [apply lookup_insert_eq|].
  apply wpe_bind. eapply wpe_get_frame; [cbn; rewrite !lookup_insert_ne by done; exact Ht1|].
  cbn [set_f_va set_f_next f_len]. rewrite Hpt. set (s2 := set_k_frame _ _).
  apply (table_pages s2 (f_pa tf) va (f_len ff) (fun _ => 0)); [lia|done|done|done| |].
  { intros l0 m1 Hl0 Hinv. cbn beta. assert (0 < n_pages (f_len ff)) by (apply n_pages_lt; lia).
    change (frame_unmap_loop ?f ?a ?b ?c 0 NIL 0 NIL) with
      (frame_unmap_loop f a b c (0 * PAGE_SIZE) NIL 0 (if 0 =? 0 then NIL else f_pa ff)).
    eapply frame_unmap_loop_spec with (c := L1X va - 1); try done; try lia.
    - intros j Hj. by apply Hmap.
    - intros j Hj. by apply Hmap.
    - apply pages_fuel. lia.
    - intros _. left. split; [done|]. rewrite Z.mul_0_l, Z.add_0_r. lia. }
  intros m' Hmf Hwr Hw' Hnx'.
  apply wpe_bind. eapply wpe_put_cap; [exact Hnv|]. apply wpe_ret. split; [done|]. exists m'. split; [|done].
  unfold frame_done, unmapped, s2, set_k_caplist, set_k_mach, set_k_frame. cbn. f_equal. apply insert_insert_eq.
Qed.

(** C9: Unmapping a frame from where it is mapped succeeds whatever its place on
    the space's list: no address of its range is translated any more, every other
    address is as before, the frame is off the list, whose order stays, and the slot
    named holds the right to it.  The slot may have held untyped memory. *)
Theorem sys_frame_unmap_correct s root tid nid va tc nc tv nv tf f ff l1 l2
    (Hok : caps_ok s) (Hrun : runs_with s root) (Htid : cid_ok tid) (Hnid : cid_ok nid)
    (Hcan : can_unmap s root tid nid va tc nc tv nv tf f ff l1 l2) :
  wp (sys_frame_unmap tid nid va) s (fun r s' => r = OK /\
    (forall x, va <= x < va + n_pages (f_len ff) * PAGE_SIZE -> user_walk (m_pmem (k_mach s')) (f_pa tf) x = None) /\
    (forall x, 0 <= x < 2 ^ 32 -> x < va \/ va + n_pages (f_len ff) * PAGE_SIZE <= x ->
       user_walk (m_pmem (k_mach s')) (f_pa tf) x = user_walk (m_pmem (k_mach s)) (f_pa tf) x) /\
    chain (k_frame s') (c_obj tv) (l1 ++ l2) /\
    (forall q, cap_lookup q s' = if decide (q = nc) then Some (mk_cap (Z.lor CAP_read CAP_write) f) else cap_lookup q s)).
Proof.
  eapply wpe_mono; [by eapply sys_frame_unmap_spec| |done]. cbn beta.
  intros r s' (-> & m' & -> & _ & Hwr & _). split; [done|].
  destruct Hcan as [_ (_ & Hnv & _) (Hch & Hnd) (Hff & _) _ _ Hva Htab Hmap _].
  destruct (written_walk _ _ _ _ _ _ Htab Hva (fun j Hj => proj1 (Hmap j Hj)) Hwr) as [H1 H2].
  split; [|split; [exact H2|split]].
  - intros x Hx. cbn. by rewrite H1.
  - by eapply chain_unmapped.
  - intros q. apply frame_done_slot. by exists nv.
Qed.

(** Emptying a slot that holds no list leaves the other names as they are. *)
Lemma frame_done_resolves s q c fr m' root cid r : is_Some (cap_lookup q s) ->
  (forall c0 h, cap_lookup q s = Some c0 -> k_head s !! c_obj c0 = Some h -> h_type h <> OBJ_caplist) ->
  resolves s root cid r -> resolves (frame_done s q c fr m') root cid r.
Proof.
  intros Hq Hl [base Hb|base sub c0 h Hb Hs Hc Hp Hh Ht]; [by constructor|]. econstructor; [done|done| |done|exact Hh|done].
  rewrite frame_done_slot, decide_False by (try done; intros E; rewrite E in Hc; by apply (Hl c0 h)). done.
Qed.

Lemma tables_ok_written pm0 pm ttb va entry n : tables_ok pm0 ttb ->
  0 <= va /\ va mod PAGE_SIZE = 0 /\ va + n * PAGE_SIZE <= 2 ^ 32 ->
  (forall j, 0 <= j < n -> l1_entry pm0 ttb (va + j * PAGE_SIZE) <> 0) ->
  written pm0 ttb va entry n pm ->
  tables_ok pm ttb /\ forall x, 0 <= x < 4096 -> word pm (ttb + 4 * x) = word pm0 (ttb + 4 * x).
Proof.
  intros Ht Hva Hpr [_ Hw].
  assert (Hl1 : forall x, 0 <= x < 4096 -> word pm (ttb + 4 * x) = word pm0 (ttb + 4 * x)).
  { intros x Hx. apply Hw. intros j Hj E. symmetry in E. revert E.
    apply l2_slot_apart; [done| |done|by apply Hpr]. rewrite PAGE_SIZE_eq in *. lia. }
  split; [|done]. destruct Ht as [T1 T2 T3 T4]. constructor; [done| | |].
  - intros x Hx. rewrite Hl1 by done. by apply T2.
  - intros x y Hx Hy. rewrite !Hl1 by done. by apply T3.
  - intros x Hx. rewrite Hl1 by done. by apply T4.
Qed.
End frame_unmap.

(** ** Mapping and unmapping *)
Section round_trip.
Implicit Types (s : kstate) (tc fc : capref) (tv fv : cap) (tf ff : obj_frame) (rest : list Z).

Lemma alter_some {A} (g : A -> A) (m : gmap Z A) i j : is_Some (m !! j) -> is_Some (alter g i m !! j).
Proof. intros [x Hx]. rewrite lookup_alter. case_decide; subst; rewrite Hx; by eexists. Qed.

(** After a frame has been mapped it can be unmapped. *)
Lemma mapped_can_unmap s root tid cid va tc fc tv fv tf ff rest m' cache :
  cid_ok cid -> can_map s root tid cid va tc fc tv fv tf ff -> 0 < f_pa ff ->
  chain (k_frame s) (c_obj tv) rest -> NoDup (c_obj tv :: rest) -> c_obj fv <> NIL -> c_obj fv ∉ rest ->
  2 * room_end (k_mach s) va (n_pages (f_len ff)) - m_va_next (k_mach s) <= m_va_max (k_mach s) ->
  tables_left (k_mach s) m' (f_pa tf) va (map_entry (f_pa ff) cache) (n_pages (f_len ff)) ->
  let s1 := frame_done s fc cap_empty (pushed (k_frame s) (c_obj tv) (c_obj fv) va tf ff) m' in
  can_unmap s1 root tid cid va tc fc tv cap_empty (set_f_next (c_obj fv) tf) (c_obj fv)
    (set_f_next (f_next tf) (set_f_va va ff)) [] rest.
Proof.
  intros Hcid [(Ht & Htf & Htt) (Hf & Hff & Hft) Hlen Hpa Hva Htab Hpr Hem _] Hpa0 Hch Hnd Hnz Hnin Hroom (Hmf & Hwr & Hw' & Hnx') s1.
  assert (Hne : c_obj tv <> c_obj fv).
  { intros E. rewrite E in Htf. assert (tf = ff) as -> by congruence. by destruct Hft as [Hft|Hft]; rewrite Htt in Hft. }
  destruct Ht as (Ht1 & Ht2 & Ht3 & Ht4 & Ht5), Hf as (Hf1 & Hf2 & Hf3 & Hf4 & hf & Hf5 & Hf6).
  assert (Hslot : forall r, cap_lookup r s1 = if decide (r = fc) then Some cap_empty else cap_lookup r s)
    by (intros r; apply frame_done_slot; by exists fv).
  assert (Hres : forall cid r, resolves s root cid r -> resolves s1 root cid r).
  { intros cid' r. apply frame_done_resolves; [by exists fv|]. intros c0 h Hc Hh. assert (c0 = fv) as -> by congruence.
    rewrite Hf5 in Hh. injection Hh as <-. by rewrite Hf6. }
  destruct (tables_ok_written _ _ _ _ _ _ Htab Hva Hpr Hwr) as [Htab' Hl1].
  assert (Hmax : m_va_max m' = m_va_max (k_mach s)) by by destruct Hmf as (? & ? & ? & ->).
  set (n := n_pages (f_len ff)) in *.
  constructor; cbn [f_len f_pa f_type set_f_next set_f_va].
  - split; [|split; [cbn; unfold pushed; by rewrite lookup_insert_eq|done]].
    unfold holds. split_and!; [by apply Hres| |done|done|done].
    rewrite Hslot, decide_False; [done|]. intros ->. congruence.
  - split; [by apply Hres|]. split; [by rewrite Hslot, decide_True|by left].
  - cbn [app]. rewrite NoDup_cons in Hnd |- *. destruct Hnd as [Hn1 Hn2]. split.
    + cbn [chain]. cbn. unfold pushed. rewrite lookup_insert_eq. split_and!; [done|done|].
      assert (Hfv : <[c_obj tv:=set_f_next (c_obj fv) tf]> (<[c_obj fv:=set_f_next (f_next tf) (set_f_va va ff)]> (k_frame s)) !! c_obj fv
        = Some (set_f_next (f_next tf) (set_f_va va ff))) by by rewrite lookup_insert_ne, lookup_insert_eq by done.
      destruct rest as [|b rest]; cbn [chain] in Hch |- *; rewrite Hfv, Htf in *; [exact Hch|].
      destruct Hch as (Hc1 & Hc2 & Hc3). split_and!; [exact Hc1|exact Hc2|]. eapply chain_ext, Hc3.
      intros d Hd. assert (d ∈ b :: rest) by (apply elem_of_cons; naive_solver).
      by rewrite !lookup_insert_ne by (intros E; rewrite E in *; done).
    + split; [|by apply NoDup_cons_2]. intros [?|?]%elem_of_cons; done.
  - split_and!; [cbn; unfold pushed; by rewrite lookup_insert_ne, lookup_insert_eq by done| |].
    + split; [|done]. cbn. destruct Hft as [E|E]; by rewrite E.
    + intros b y Hb. by apply elem_of_nil in Hb.
  - done.
  - split; [done|]. by destruct Hpa as (_ & _ & ?).
  - done.
  - done.
  - cbn [k_mach s1 frame_done set_k_caplist set_k_frame set_k_mach]. fold n. intros j Hj.
    assert (Hj32 : 0 <= va + j * PAGE_SIZE < 2 ^ 32) by (clear - Hva Hj; rewrite PAGE_SIZE_eq in *; lia).
    assert (E : l1_entry (m_pmem m') (f_pa tf) (va + j * PAGE_SIZE) = l1_entry (m_pmem (k_mach s)) (f_pa tf) (va + j * PAGE_SIZE))
      by (apply Hl1; by apply L1X_bound).
    unfold l2_slot. rewrite E. split; [by apply Hpr|]. fold (l2_slot (m_pmem (k_mach s)) (f_pa tf) (va + j * PAGE_SIZE)).
    rewrite (proj1 Hwr) by done. unfold map_entry.
    assert (Hp : 0 <= f_pa ff + j * PAGE_SIZE < 2 ^ 32) by (clear - Hpa Hj; rewrite PAGE_SIZE_eq in *; lia).
    assert (Hal : (f_pa ff + j * PAGE_SIZE) mod PAGE_SIZE = 0) by (rewrite Z.mod_add by done; by destruct Hpa as (_ & ? & _)).
    rewrite user_entry_add by done. split; [by apply small_page_nonzero|by apply L2PA_small_page].
  - cbn [k_mach s1 frame_done set_k_caplist set_k_frame set_k_mach]. fold n. split; [done|]. split; [lia|].
    rewrite Hmax. clear - Hroom Hnx'. unfold room_end in *. lia.
Qed.

(** C10: Unmapping undoes mapping: after both calls the processor's walk is the one
    before for every address, the frame is on no list and its right is back in the
    slot it came from. *)
Theorem frame_map_unmap_round_trip s root tid cid va cache tc fc tv fv tf ff rest
    (Hok : caps_ok s) (Hrun : runs_with s root) (Htid : cid_ok tid) (Hcid : cid_ok cid)
    (Hcan : can_map s root tid cid va tc fc tv fv tf ff) (Hpa : 0 < f_pa ff)
    (Hch : chain (k_frame s) (c_obj tv) rest) (Hnd : NoDup (c_obj tv :: rest))
    (Hfv : c_obj fv <> NIL /\ c_obj fv ∉ rest)
    (Hroom : 2 * room_end (k_mach s) va (n_pages (f_len ff)) - m_va_next (k_mach s) <= m_va_max (k_mach s)) :
  wp (sys_frame_map tid cid va cache ;;; sys_frame_unmap tid cid va) s (fun r s' => r = OK /\
    (forall x, 0 <= x < 2 ^ 32 ->
       user_walk (m_pmem (k_mach s')) (f_pa tf) x = user_walk (m_pmem (k_mach s)) (f_pa tf) x) /\
    chain (k_frame s') (c_obj tv) rest /\
    (forall q, cap_lookup q s' =
       if decide (q = fc) then Some (mk_cap (Z.lor CAP_read CAP_write) (c_obj fv)) else cap_lookup q s)).
Proof.
  apply wpe_bind. eapply wpe_mono; [by eapply sys_frame_map_spec| |done]. cbn beta.
  intros r1 s1 (-> & m1 & cache1 & -> & Hleft).
  pose proof (mapped_can_unmap _ _ _ _ _ _ _ _ _ _ _ _ _ _ Hcid Hcan Hpa Hch Hnd (proj1 Hfv) (proj2 Hfv) Hroom Hleft) as Hun.
  set (s1 := frame_done _ _ _ _ _) in *. cbn zeta in Hun.
  destruct Hcan as [(Ht & Htf & Htt) ((_ & Hfc & _) & Hff & Hft) Hlen Hpa' Hva Htab Hpr Hem _].
  destruct Hleft as (Hmf & Hwr & Hw' & Hnx').
  assert (Hok1 : caps_ok s1).
  { destruct Hok as [K1 K2 K3]. constructor.
    - intros a l. by apply (alter_lengths (k_caplist s)).
    - intros a h Hh Hty. cbn. by apply alter_some, (K2 a h).
    - intros r c Hc Hp. unfold s1 in Hc. rewrite frame_done_slot in Hc by by exists fv.
      case_decide; [by injection Hc as <-|]. by eapply K3. }
  assert (Hrun1 : runs_with s1 root).
  { destruct Hrun as (u & Hu & <- & Hl). exists u. split_and!; [done|done|]. by apply alter_some. }
  eapply wpe_mono; [by eapply sys_frame_unmap_spec| |done]. cbn beta.
  intros r s' (-> & m2 & -> & _ & Hwr2 & _). split; [done|].
  destruct (tables_ok_written _ _ _ _ _ _ Htab Hva Hpr Hwr) as [Htab1 Hl1].
  destruct Hun as [_ (_ & Hfc1 & _) (Hch1 & Hnd1) (Hff1 & _) _ _ _ _ Hmap1 _].
  destruct (written_walk _ _ _ _ _ _ Htab Hva Hpr Hwr) as [_ Hout1].
  destruct (written_walk _ _ _ _ _ _ Htab1 Hva (fun j Hj => proj1 (Hmap1 j Hj)) Hwr2) as [Hin2 Hout2].
  destruct (written_walk (m_pmem (k_mach s)) (m_pmem (k_mach s)) (f_pa tf) va (fun _ => 0) (n_pages (f_len ff)))
    as [Hin0 _]; [done|done|done|by split|].
  split; [|split].
  - intros x Hx. destruct (decide (va <= x < va + n_pages (f_len ff) * PAGE_SIZE)) as [Hin|Hout].
    + rewrite Hin0 by done. cbn [k_mach frame_done set_k_caplist set_k_frame set_k_mach].
      etransitivity; [by apply Hin2|done].
    + etransitivity; [apply Hout2; [done|cbn; lia]|]. apply Hout1; [done|lia].
  - by apply (chain_unmapped _ _ [] _ rest).
  - intros q. rewrite frame_done_slot by by exists cap_empty. unfold s1. case_decide; [done|].
    rewrite frame_done_slot by by exists fv. by rewrite decide_False.
Qed.
End round_trip.

(** ** An address space of one table

    [demo] with the frame 0x8000 made a first level table at 0x60000000 whose second
    section has a table at 0x60008000, and a second frame of two pages at 0x60010000. *)
Definition demo_tf : obj_frame := mk_frame 0x60000000 0x4000 FRAME_L1 NIL NIL.
Definition demo_ff : obj_frame := mk_frame 0x60010000 0x2000 FRAME_MEM NIL NIL.
Definition demo_space (pages : gmap Z Z) (tf ff : obj_frame) : kstate :=
  set_k_caplist (alter (zupd 11 (mk_cap 3 0x8200)) 0x3000 (k_caplist demo))
    (set_k_head (<[0x8200 := mk_head 1 OBJ_frame]> (k_head demo))
      (set_k_frame {[ 0x8000 := tf; 0x8200 := ff ]}
        (set_k_mach (set_m_pmem (<[0x60000004 := 0x60008001]> pages) (k_mach demo)) demo))).

Lemma demo_l1 pages x : (forall a v, pages !! a = Some v -> 0x60008000 <= a) -> 0 <= x < 4096 ->
  word (<[0x60000004 := 0x60008001]> pages) (0x60000000 + 4 * x) = if decide (x = 1) then 0x60008001 else 0.
Proof.
  intros Hp Hx. rewrite word_insert. repeat case_decide; try lia. unfold word.
  destruct (pages !! _) eqn:E; [|done]. apply Hp in E. lia.
Qed.

Lemma demo_tables pages : (forall a v, pages !! a = Some v -> 0x60008000 <= a) ->
  tables_ok (<[0x60000004 := 0x60008001]> pages) 0x60000000.
Proof.
  intros Hp. constructor; [by vm_compute| | |].
  - intros x Hx. rewrite demo_l1 by done. case_decide; [|done]. intros _. by vm_compute.
  - intros x y Hx Hy Hne. rewrite !demo_l1 by done. repeat case_decide; try done. lia.
  - intros x Hx. rewrite demo_l1 by done. case_decide; [|done]. intros _. by right.
Qed.

Lemma demo_holds_frame pages tf ff i a : 0 <= i < CLIST_CAPS ->
  cap_lookup (0x3000, i) (demo_space pages tf ff) = Some (mk_cap 3 a) ->
  h_type <$> k_head (demo_space pages tf ff) !! a = Some OBJ_frame ->
  holds (demo_space pages tf ff) 0x3000 (i * 4096) CAP_rw OBJ_frame (0x3000, i) (mk_cap 3 a).
Proof.
  intros Hi Hc Hh. unfold holds. split_and!; [by constructor|done|done|by vm_compute|]. cbn [c_obj].
  destruct (k_head _ !! a) as [h|]; [|done]. exists h. split; [done|]. cbn in Hh. congruence.
Qed.

Lemma demo_space_ok pages tf ff : caps_ok (demo_space pages tf ff) /\ runs_with (demo_space pages tf ff) 0x3000.
Proof.
  split; [apply caps_okb_sound; by vm_compute|].
  exists (demo_proc 1 0x3000 PROC_ready). split_and!; [by vm_compute|done|by eexists].
Qed.

Lemma demo_space_window pages tf ff : window_ok (k_mach (demo_space pages tf ff)).
Proof. destruct (demo_window 0xff010000) as [W1 W2 W3 W4]; [lia|done|]. by constructor. Qed.

Lemma demo_can_map : can_map (demo_space ∅ demo_tf demo_ff) 0x3000 0x9000 0xb000 0x100000
  (0x3000, 9) (0x3000, 11) (mk_cap 3 0x8000) (mk_cap 3 0x8200) demo_tf demo_ff.
Proof.
  assert (Hj : forall j, 0 <= j < n_pages 0x2000 -> j = 0 \/ j = 1) by (change (n_pages 0x2000) with 2; lia).
  constructor.
  - split; [apply (demo_holds_frame _ _ _ 9); by vm_compute|done].
  - split; [apply (demo_holds_frame _ _ _ 11); by vm_compute|]. split; [done|by left].
  - by vm_compute.
  - by vm_compute.
  - by vm_compute.
  - apply demo_tables. intros a v Ha. by rewrite lookup_empty in Ha.
  - intros j Hj'. apply Hj in Hj' as [-> | ->]; by vm_compute.
  - intros j Hj'. apply Hj in Hj' as [-> | ->]; by vm_compute.
  - split; [apply demo_space_window|by vm_compute].
Qed.

Lemma sys_frame_map_correct_witness :
  let s := demo_space ∅ demo_tf demo_ff in
  wp (sys_frame_map 0x9000 0xb000 0x100000 true) s (fun r s' => r = OK /\
    (forall x, 0x100000 <= x < 0x102000 -> user_walk (m_pmem (k_mach s')) 0x60000000 x = Some (0x60010000 + (x - 0x100000))) /\
    (forall x, 0 <= x < 2 ^ 32 -> x < 0x100000 \/ 0x102000 <= x ->
       user_walk (m_pmem (k_mach s')) 0x60000000 x = user_walk (m_pmem (k_mach s)) 0x60000000 x) /\
    k_frame s' = pushed (k_frame s) 0x8000 0x8200 0x100000 demo_tf demo_ff /\
    (forall q, cap_lookup q s' = if decide (q = (0x3000, 11)) then Some cap_empty else cap_lookup q s)).
Proof.
  intros s. destruct (demo_space_ok ∅ demo_tf demo_ff) as [Hok Hrun].
  exact (sys_frame_map_correct s 0x3000 0x9000 0xb000 0x100000 true _ _ _ _ _ _ Hok Hrun ltac:(done) ltac:(done) demo_can_map).
Defined.

Lemma frame_map_unmap_round_trip_witness :
  let s := demo_space ∅ demo_tf demo_ff in
  wp (sys_frame_map 0x9000 0xb000 0x100000 true ;;; sys_frame_unmap 0x9000 0xb000 0x100000) s (fun r s' => r = OK /\
    (forall x, 0 <= x < 2 ^ 32 ->
       user_walk (m_pmem (k_mach s')) 0x60000000 x = user_walk (m_pmem (k_mach s)) 0x60000000 x) /\
    chain (k_frame s') 0x8000 [] /\
    (forall q, cap_lookup q s' = if decide (q = (0x3000, 11)) then Some (mk_cap 3 0x8200) else cap_lookup q s)).
Proof.
  intros s. destruct (demo_space_ok ∅ demo_tf demo_ff) as [Hok Hrun].
  apply (frame_map_unmap_round_trip s 0x3000 0x9000 0xb000 0x100000 true _ _ _ _ _ _ [] Hok Hrun ltac:(done) ltac:(done) demo_can_map);
    [done|done|by apply NoDup_singleton|split; [done|by apply not_elem_of_nil]|by vm_compute].
Defined.

(** The frame of two pages mapped at 0x100000, and the slot of an untyped block named
    for it. *)
Lemma sys_frame_unmap_correct_witness :
  let tf := set_f_next 0x8200 demo_tf in let ff := set_f_va 0x100000 demo_ff in
  let s := demo_space {[ 0x60008000 := map_entry 0x60010000 true 0; 0x60008004 := map_entry 0x60010000 true 1 ]} tf ff in
  wp (sys_frame_unmap 0x9000 0x7000 0x100000) s (fun r s' => r = OK /\
    (forall x, 0x100000 <= x < 0x102000 -> user_walk (m_pmem (k_mach s')) 0x60000000 x = None) /\
    (forall x, 0 <= x < 2 ^ 32 -> x < 0x100000 \/ 0x102000 <= x ->
       user_walk (m_pmem (k_mach s')) 0x60000000 x = user_walk (m_pmem (k_mach s)) 0x60000000 x) /\
    chain (k_frame s') 0x8000 [] /\
    (forall q, cap_lookup q s' = if decide (q = (0x3000, 7)) then Some (mk_cap 3 0x8200) else cap_lookup q s)).
Proof.
  intros tf ff s. match goal with s := demo_space ?p _ _ |- _ => destruct (demo_space_ok p tf ff) as [Hok Hrun] end.
  apply (sys_frame_unmap_correct s 0x3000 0x9000 0x7000 0x100000 (0x3000, 9) (0x3000, 7) (mk_cap 3 0x8000) (mk_cap 3 0x7000) tf 0x8200 ff [] [] Hok Hrun ltac:(done) ltac:(done)).
  constructor.
  - split; [apply (demo_holds_frame _ _ _ 9); by vm_compute|done].
  - split; [by apply (resolves_root _ _ 7)|]. split; [by vm_compute|]. right. eexists. by vm_compute.
  - split; [by vm_compute|]. apply NoDup_cons_2; [|by apply NoDup_singleton]. by intros ?%list_elem_of_singleton.
  - split; [done|]. split; [done|]. intros b y Hb. by apply elem_of_nil in Hb.
  - by vm_compute.
  - by vm_compute.
  - by vm_compute.
  - apply demo_tables. intros a v. rewrite lookup_insert. case_decide; [intros _; lia|].
    rewrite lookup_singleton. case_decide; [intros _; lia|done].
  - intros j Hj. assert (j = 0 \/ j = 1) as [-> | ->] by (change (n_pages (f_len ff)) with 2 in Hj; lia); by vm_compute.
  - split; [apply demo_space_window|by vm_compute].
Defined.
