(* ===== verification/ProcSys.v ===== *)
(** * Process control, interrupts and the system call table: the sys_proc calls
    of sys/sys.c, the sys_intr calls of arm/kern/sys.c, arm/kern/intr.c and the
    interrupt controller of arm/vexpress-a9/cortex_a9_gic_systick.c *)
From S2P Require Import Prelude KState Sched Mmu Cap Obj Ipc Frame.

Local Open Scope Z_scope.
Local Open Scope c_scope.

(** ** Processes *)

(** [o->cap_root->caps[i].obj = obj; .perm = perm] *)
Definition install_cap (o i : Z) (c : cap) : KM unit :=
  let* p := get_proc o in put_cap (p_cap_root p, i) c.

Definition sys_proc_setup (cid vspace clist p_eid : Z) : KM Z :=
  let* up := get_up in
  let* c := proc_find_cap up cid in
  match c with
  | None => ret ERR
  | Some c =>
    let* cv := get_cap c in
    if c_perm cv =? 0 then ret ERR else
    let* h := get_head (c_obj cv) in
    if negb (h_type h =? OBJ_proc) then ret ERR else
    let o := c_obj cv in
    let* v := proc_find_cap up vspace in
    match v with
    | None => ret ERR
    | Some v =>
      let* vv := get_cap v in
      if negb (ctrue (Z.land (c_perm vv) CAP_write)) || negb (ctrue (Z.land (c_perm vv) CAP_read)) then ret ERR else
      let* h := get_head (c_obj vv) in
      if negb (h_type h =? OBJ_frame) then ret ERR else
      let* l1 := get_frame (c_obj vv) in
      upd_proc o (set_p_vspace (f_pa l1)) ;;;
      let* r := proc_find_cap up clist in
      match r with
      | None => ret ERR
      | Some r =>
        let* rv := get_cap r in
        if negb (ctrue (Z.land (c_perm rv) CAP_write)) || negb (ctrue (Z.land (c_perm rv) CAP_read)) then ret ERR else
        let* h := get_head (c_obj rv) in
        if negb (h_type h =? OBJ_caplist) then ret ERR else
        let* e := proc_find_cap up p_eid in
        match e with
        | None => ret ERR
        | Some e =>
          let* ev := get_cap e in
          if negb (ctrue (Z.land (c_perm ev) CAP_write)) then ret ERR else
          let* h := get_head (c_obj ev) in
          if negb (h_type h =? OBJ_endpoint) then ret ERR else
          upd_proc o (set_p_cap_root (c_obj rv)) ;;;
          install_cap o (Z.shiftr CID_CLIST 12) (mk_cap (Z.lor CAP_read CAP_write) (c_obj rv)) ;;;
          (let* x := get_cap v in
           install_cap o (Z.shiftr CID_L1 12) (mk_cap (Z.lor CAP_read CAP_write) (c_obj x))) ;;;
          (let* x := get_cap e in
           install_cap o (Z.shiftr CID_PARENT 12) (mk_cap CAP_write (c_obj x))) ;;;
          put_cap v cap_empty ;;;
          put_cap r cap_empty ;;;
          put_cap e cap_empty ;;;
          let* p := get_proc o in
          ret (p_pid p)
        end
      end
    end
  end.

Definition sys_proc_set_priority (cid priority : Z) : KM Z :=
  let* up := get_up in
  let* c := proc_find_cap up cid in
  match c with
  | None => ret ERR
  | Some c =>
    let* v := get_cap c in
    if c_perm v =? 0 then ret ERR else
    let* h := get_head (c_obj v) in
    if negb (h_type h =? OBJ_proc) then ret ERR else
    proc_set_priority (c_obj v) priority
  end.

Definition sys_proc_start (cid pc sp : Z) : KM Z :=
  let* up := get_up in
  let* c := proc_find_cap up cid in
  match c with
  | None => ret ERR
  | Some c =>
    let* v := get_cap c in
    let* h := get_head (c_obj v) in
    if negb (h_type h =? OBJ_proc) then ret ERR else
    upd_proc (c_obj v) (set_p_label (K_start pc sp)) ;;;
    proc_ready (c_obj v) ;;;
    ret OK
  end.

(** ** Interrupts *)
Definition nirq : Z := 128.

Definition irq_enable (irqn : Z) : KM unit := upd_mach (fun m => set_m_enabled ({[irqn]} ∪ m_enabled m) m).
Definition irq_disable (irqn : Z) : KM unit := upd_mach (fun m => set_m_enabled (m_enabled m ∖ {[irqn]}) m).

Definition intr_cap_claim (i : Z) : KM bool :=
  let* g := read FBounds (fun s => znth (m_given (k_mach s)) i) in
  if (g : bool) then ret false else
  upd_mach (fun m => set_m_given (zupd i true (m_given m)) m) ;;;
  ret true.

Definition intr_cap_connect (i e s : Z) : KM unit :=
  let* _ := read FBounds (fun st => znth (m_handler (k_mach st)) i) in
  upd_mach (fun m => set_m_handler (zupd i (e, s) (m_handler m)) m) ;;;
  irq_enable i.

Definition irq_cap_disconnect (i : Z) : KM unit :=
  let* _ := read FBounds (fun st => znth (m_handler (k_mach st)) i) in
  upd_mach (fun m => set_m_handler (zupd i (NIL, 0) (m_handler m)) m) ;;;
  irq_disable i.

Definition sys_intr_init (cid irqn : Z) : KM Z :=
  let* up := get_up in
  let* u := get_proc up in
  if negb (p_pid u =? ROOT_PID) then ret ERR else
  let* i := proc_find_cap up cid in
  match i with
  | None => ret ERR
  | Some i =>
    let* v := get_cap i in
    let* h := get_head (c_obj v) in
    if negb (h_type h =? OBJ_intr) then ret ERR else
    let* ok := intr_cap_claim irqn in
    if negb ok then ret ERR else
    upd_intr (c_obj v) (set_i_irqn irqn) ;;;
    ret OK
  end.

Definition sys_intr_connect (iid eid sg : Z) : KM Z :=
  let* up := get_up in
  let* i := proc_find_cap up iid in
  let* e := proc_find_cap up eid in
  match i, e with
  | Some i, Some e =>
    let* iv := get_cap i in
    let* hi := get_head (c_obj iv) in
    if negb (h_type hi =? OBJ_intr) then ret ERR else
    let* ev := get_cap e in
    let* he := get_head (c_obj ev) in
    if negb (h_type he =? OBJ_endpoint) || negb (ctrue (Z.land (c_perm ev) CAP_read)) then ret ERR else
    let* oi := get_intr (c_obj iv) in
    if i_irqn oi =? 0 then ret ERR else
    upd_intr (c_obj iv) (set_i_end (c_obj ev)) ;;;
    upd_intr (c_obj iv) (set_i_sig sg) ;;;
    intr_cap_connect (i_irqn oi) (c_obj ev) sg ;;;
    ret OK
  | _, _ => ret ERR
  end.

(** [irq_ack] writes the number to the controller's end-of-interrupt register. *)
Definition sys_intr_ack (iid : Z) : KM Z :=
  let* up := get_up in
  let* c := proc_find_cap up iid in
  match c with
  | None => ret ERR
  | Some c =>
    let* v := get_cap c in
    let* h := get_head (c_obj v) in
    if negb (h_type h =? OBJ_intr) then ret ERR else
    let* i := get_intr (c_obj v) in
    irq_enable (i_irqn i) ;;;
    ret OK
  end.

(** *** The interrupt handler

    [irqn] is what the controller's acknowledge register delivers.  The only
    kernel handler is the timer's. *)
Definition SYSTICK_IRQ : Z := 29.
Inductive handled := Continue | Left (r : sysres).

Definition irq_handler `{Board} (irqn : Z) : KM handled :=
  if irqn =? 1023 then ret Continue else
  if irqn =? SYSTICK_IRQ then
    let* r := schedule NIL K_trap in ret (Left r)
  else
    let* h := read FBounds (fun s => znth (m_handler (k_mach s)) irqn) in
    if ctrue h.1 then
      irq_disable irqn ;;;
      let* r := signal h.1 h.2 K_trap in
      match r with Switched => ret (Left r) | _ => ret Continue end
    else irq_disable irqn ;;; ret Continue.

(** [trap]: an interrupt returns to the code it interrupted, every other cause
    stops the process. *)
Inductive abort := ABORT_INTERRUPT (irqn : Z) | ABORT_INSTRUCTION | ABORT_PREFETCH | ABORT_DATA.
Definition trap `{Board} (a : abort) : KM handled :=
  match a with
  | ABORT_INTERRUPT irqn => irq_handler irqn
  | _ =>
    let* up := get_up in
    if up =? NIL then halt Panicked else
    proc_fault up ;;;
    let* r := schedule NIL K_trap in ret (Left r)
  end.

(** ** The system call table

    The arguments of a call are the caller's registers r0 to r3; [msg] is the
    message its pointer argument refers to. *)
Definition returned (m : KM Z) : KM sysres := let* r := m in ret (Returned (u32 r) UNone).
Definition NSYSCALLS : Z := 28.

Definition syscall `{Board} (n a0 a1 a2 a3 : Z) (msg : list Z) : KM sysres :=
  match n with
  | 0 => sys_yield
  | 1 => returned sys_pid
  | 2 => sys_exit a0
  | 3 => returned (sys_obj_create (s32 a0) (s32 a1))
  | 4 => returned (sys_obj_retype (s32 a0) (s32 a1) a2)
  | 5 => returned (sys_obj_split (s32 a0) (s32 a1))
  | 6 => returned (sys_obj_merge (s32 a0) (s32 a1))
  | 7 => returned (sys_endpoint_connect (s32 a0) (s32 a1))
  | 8 => sys_mesg (s32 a0) msg (s32 a3)
  | 9 => sys_recv (s32 a0) (s32 a3)
  | 10 => sys_reply (s32 a0) (s32 a1) msg (s32 a3)
  | 11 => sys_signal (s32 a0) a1
  | 12 => returned (sys_proc_setup (s32 a0) (s32 a1) (s32 a2) (s32 a3))
  | 13 => returned (sys_proc_set_priority (s32 a0) a1)
  | 14 => returned (sys_proc_start (s32 a0) a1 a2)
  | 15 => returned (sys_intr_init (s32 a0) (s32 a1))
  | 16 => returned (sys_intr_connect (s32 a0) (s32 a1) a2)
  | 17 => returned (sys_intr_ack (s32 a0))
  | 18 => returned (sys_frame_setup (s32 a0) (s32 a1) a2 a3)
  | 19 => sys_frame_info (s32 a0)
  | 20 => returned (sys_frame_l1_setup (s32 a0))
  | 21 => returned (sys_frame_l2_map (s32 a0) (s32 a1) a2)
  | 22 => returned (sys_frame_l2_unmap (s32 a0) (s32 a1) a2)
  | 23 => returned (sys_frame_map (s32 a0) (s32 a1) a2 (negb (a3 =? 0)))
  | 24 => returned (sys_frame_unmap (s32 a0) (s32 a1) a2)
  | 25 => ret (Returned OK UNone)
  | 26 => returned (sys_endpoint_bind (s32 a0))
  | 27 => returned (sys_endpoint_unbind (s32 a0))
  | _ => fail FCall
  end.

(** [swi_ex] of arm/kern/vectors.S: the number in r12 is compared as a signed
    difference, and the caller goes on with its registers unchanged when the
    difference is not negative. *)
Definition swi `{Board} (r12 a0 a1 a2 a3 : Z) (msg : list Z) : KM sysres :=
  if u32 (r12 - NSYSCALLS) <? 2 ^ 31 then ret (Returned a0 UNone)
  else syscall r12 a0 a1 a2 a3 msg.
