(* ===== verification/ProcProps.v ===== *)
(** * What the process and interrupt calls promise *)
From S2P Require Import Prelude KState DList Sched SchedProps Mmu Cap Obj Ipc IpcProps Frame ProcSys.

Local Open Scope Z_scope.
Local Open Scope c_scope.

(** ** The system call table *)
Section swi.
Context `{Board}.

(** The check of the system call number covers the lower half of the
    numbers: those in the table are dispatched, those above it return to the
    caller unchanged; from 2^31 + 28 on the kernel calls through a word outside
    the table. *)
Theorem swi_range (s : kstate) (r12 a0 a1 a2 a3 : Z) (msg : list Z) (Hr : 0 <= r12 < 2 ^ 32) :
  swi r12 a0 a1 a2 a3 msg s =
    if r12 <? NSYSCALLS then syscall r12 a0 a1 a2 a3 msg s
    else if r12 <? 2 ^ 31 + NSYSCALLS then Ok (Returned a0 UNone) s
    else Fault FCall.
Proof.
  unfold swi, NSYSCALLS. destruct (Z.ltb_spec r12 28) as [H1|H1].
  - assert (u32 (r12 - 28) = r12 - 28 + 2 ^ 32) as ->.
    { unfold u32. symmetry. apply (Z.mod_unique _ _ (-1)); lia. }
    by rewrite (proj2 (Z.ltb_ge _ _)) by lia.
  - rewrite u32_small by lia. destruct (Z.ltb_spec r12 (2 ^ 31 + 28)) as [H2|H2].
    + by rewrite (proj2 (Z.ltb_lt _ _)) by lia.
    + rewrite (proj2 (Z.ltb_ge _ _)) by lia. unfold syscall.
      destruct r12 as [|p|p]; try lia. do 5 (destruct p as [p|p|]; try lia; try reflexivity).
Qed.

End swi.

Lemma swi_range_witness : @swi vexpress_a9 0x80000100 0 0 0 0 [] demo = Fault FCall.
Proof. etransitivity; [apply (@swi_range vexpress_a9 demo 0x80000100 0 0 0 0 []); lia|reflexivity]. Defined.

(** ** Starting a process *)
Section start.
Context `{Board}.
Implicit Types (s : kstate) (Q : Z * Z -> list Z) (W : Z -> list Z) (a e : Z) (r : capref) (c : cap) (p : obj_proc).

(** The caller names a process by a capability. *)
Definition names_proc s root cid r c p : Prop :=
  resolves s root cid r /\ cap_lookup r s = Some c /\ (exists h, k_head s !! c_obj c = Some h /\ h_type h = OBJ_proc) /\
  k_proc s !! c_obj c = Some p.

Lemma proc_start_spec s Q root cid pc sp r c p :
  sched_inv s Q -> caps_ok s -> runs_with s root -> cid_ok cid -> names_proc s root cid r c p ->
  wp (sys_proc_start cid pc sp) s (fun x s' => x = OK /\ exists Q', sched_inv s' Q' /\
    sframe (with_state (c_obj c) PROC_ready (set_k_proc (<[c_obj c := set_p_label (K_start pc sp) p]> (k_proc s)) s)) s' /\
    (exists q, k_proc s' !! c_obj c = Some q /\ p_state q = PROC_ready /\ p_slist q <> None) /\
    forall pr b, b <> c_obj c -> queued Q' pr b <-> queued Q pr b).
Proof.
  intros Hi Hok Hrun Hcid (Hr & Hc & (h & Hh & Ht) & Hp). unfold sys_proc_start. apply wpe_bind, wpe_gets, wpe_bind.
  apply (wpe_find s root); [done..| |by intros Hno; destruct (Hno r)].
  intros r' c' Hr' Hc'. rewrite (resolves_det s root cid r' r) in * by done. simplify_eq.
  ksteps; bdestruct_all; [done|].
  eapply wpe_mono; [apply (proc_ready_spec _ Q)| |done].
  { eapply sched_inv_ext, Hi; [|done]. by apply (sview_insert _ _ p). }
  { cbn. rewrite lookup_insert_eq. by eexists. }
  cbn beta. intros _ s' (-> & HQ). by apply wpe_ret.
Qed.

(** Starting a process points it at the entry given, makes it ready and
    queues it at its priority; the queues stay well formed and every other
    process keeps its place, the caller keeps running. *)
Theorem sys_proc_start_correct s Q root cid pc sp r c p
    (Hi : sched_inv s Q) (Hok : caps_ok s) (Hrun : runs_with s root) (Hcid : cid_ok cid)
    (Hp : names_proc s root cid r c p) :
  wp (sys_proc_start cid pc sp) s (fun x s' => x = OK /\ exists Q', sched_inv s' Q' /\ k_up s' = k_up s /\
    (exists q, k_proc s' !! c_obj c = Some q /\ p_state q = PROC_ready /\ p_label q = K_start pc sp /\
       p_priority q = p_priority p /\ queued Q' (p_priority p) (c_obj c)) /\
    (forall pr b, b <> c_obj c -> queued Q' pr b <-> queued Q pr b) /\
    (forall b, b <> c_obj c -> pcore <$> k_proc s' !! b = pcore <$> k_proc s !! b)).
Proof.
  eapply wpe_mono; [by eapply proc_start_spec| |done]. cbn beta.
  intros x s' (-> & Q' & Hi' & Hf & (q & Hq & Hst & Hsl) & Hqs). split; [done|]. exists Q'. split; [done|].
  split; [by rewrite (sf_rest _ _ Hf)|]. destruct Hp as (_ & _ & _ & Hp).
  destruct (sframe_lookup_back _ s' (c_obj c) q Hf Hq) as (q0 & Hq0 & Hc).
  cbn in Hq0. rewrite lookup_alter_eq, lookup_insert_eq in Hq0. cbn in Hq0. injection Hq0 as <-.
  assert (Hpr : p_priority q = p_priority p) by (change (p_priority (pcore q) = p_priority p); by rewrite Hc).
  split; [exists q; split_and!; [done|done| |done|]|split; [done|]].
  - change (p_label (pcore q) = K_start pc sp). by rewrite Hc.
  - rewrite <-Hpr. by apply (slist_queued s' Q' (c_obj c) q).
  - intros b Hb. pose proof (f_equal (.!! b) (sf_proc _ _ Hf)) as E. rewrite !lookup_fmap in E. rewrite E.
    cbn. by rewrite lookup_alter_ne, lookup_insert_ne.
Qed.

(** The links determine the list. *)
Lemma dseg_det (m : links) (p : Z) l l' : dseg m p l NIL -> dseg m p l' NIL -> firstz NIL l = firstz NIL l' -> l = l'.
Proof.
  revert p l'. induction l as [|a l IH]; intros p [|a' l']; cbn; [done| |intros (? & _) _; congruence|].
  - intros _ (? & _). congruence.
  - intros (_ & Ha & Hl) (_ & Ha' & Hl') ->. f_equal. eapply IH; [done|done|]. congruence.
Qed.

(** Nothing keeps a process that waits on an endpoint from being started:
    it becomes ready while it stays on the endpoint's list, so that the list is no
    longer one of processes that wait, whatever list is taken for it. *)
Theorem sys_proc_start_waiting s Q W root cid pc sp r c p e x
    (Hi : sched_inv s Q) (Hw : wait_inv s W) (Hok : caps_ok s) (Hrun : runs_with s root) (Hcid : cid_ok cid)
    (Hp : names_proc s root cid r c p) (He : k_endpoint s !! e = Some x) (Ha : c_obj c ∈ W e) :
  exists s', sys_proc_start cid pc sp s = Ok OK s' /\ k_endpoint s' = k_endpoint s /\
    is_ready s' (c_obj c) = true /\ forall W', ~ wait_inv s' W'.
Proof.
  destruct (wp_inv _ _ _ (proc_start_spec s Q root cid pc sp r c p Hi Hok Hrun Hcid Hp))
    as (? & s' & Hs & -> & Q' & _ & Hf & (q & Hq & Hst & _) & _).
  assert (Hends : k_endpoint s' = k_endpoint s) by by rewrite (sf_rest _ _ Hf).
  exists s'. split; [done|]. split; [done|]. split; [apply is_ready_proc; by exists q|].
  intros W' Hw'. assert (Hl : wlinks s' = wlinks s).
  { unfold wlinks. assert (Hx : forall m : gmap Z obj_proc, (fun p => (p_wprev p, p_wnext p)) <$> m =
        (fun p => (p_wprev p, p_wnext p)) <$> (pcore <$> m)) by (intros m; by rewrite <-map_fmap_compose).
    rewrite Hx, (sf_proc _ _ Hf), <-Hx. cbn. rewrite fmap_alter_same, fmap_insert by done.
    apply insert_id. destruct Hp as (_ & _ & _ & Hp). by rewrite lookup_fmap, Hp. }
  destruct (wi_list s W Hw e x He) as [H1 _ H2 _].
  destruct (wi_list s' W' Hw' e x) as [H1' _ H2' _]; [by rewrite Hends|]. rewrite Hl in H2'.
  assert (W e = W' e) as E by (eapply dseg_det; [done|done|congruence]).
  destruct (wi_state s' W' Hw' e (c_obj c)) as [Hx|Hx]; [rewrite Hends; by exists x|by rewrite <-E|..];
    unfold state_of in Hx; rewrite Hq in Hx; cbn in Hx; congruence.
Qed.
End start.

Lemma demo_proc_runs s : k_up s = 0x1000 -> k_proc s !! 0x1000 = Some (demo_proc 1 0x3000 PROC_ready) ->
  is_Some (k_caplist s !! 0x3000) -> runs_with s 0x3000.
Proof. intros E ? ?. exists (demo_proc 1 0x3000 PROC_ready). by rewrite E. Qed.

Lemma sys_proc_start_correct_witness :
  wp (@sys_proc_start 0x6000 0x10000 0x20000) demo (fun x s' => x = OK /\ exists Q', sched_inv s' Q' /\ k_up s' = 0x1000 /\
    (exists q, k_proc s' !! 0x2000 = Some q /\ p_state q = PROC_ready /\ p_label q = K_start 0x10000 0x20000 /\
       p_priority q = 1 /\ queued Q' 1 0x2000) /\
    (forall pr b, b <> 0x2000 -> queued Q' pr b <-> queued (fun _ => []) pr b) /\
    (forall b, b <> 0x2000 -> pcore <$> k_proc s' !! b = pcore <$> k_proc demo !! b)).
Proof.
  apply (sys_proc_start_correct demo (fun _ => []) 0x3000 0x6000 0x10000 0x20000 (0x3000, 6) (mk_cap 3 0x2000)
    (demo_proc 2 0x4000 PROC_fault));
    [apply sched_invb_sound; by vm_compute|exact demo_caps_ok|apply demo_proc_runs; [done|done|by eexists]|done|].
  split_and!; [apply (resolves_root _ _ 6); done|by vm_compute|eexists; split; vm_compute; reflexivity|by vm_compute].
Defined.

Lemma sys_proc_start_waiting_witness :
  let s := demo_waiting PROC_block_reply NIL in
  exists s', sys_proc_start 0x6000 0x10000 0x20000 s = Ok OK s' /\ k_endpoint s' = k_endpoint s /\
    is_ready s' 0x2000 = true /\ forall W', ~ wait_inv s' W'.
Proof.
  intros s. apply (sys_proc_start_waiting s (fun _ => []) demo_W 0x3000 0x6000 0x10000 0x20000 (0x3000, 6) (mk_cap 3 0x2000)
    (set_p_give (Some (0x4000, 1)) (demo_proc 2 0x4000 PROC_block_reply)) 0x5000 (mk_endpoint 0 NIL NIL 0x2000 0x2000));
    [apply sched_invb_sound; by vm_compute|apply wait_invb_sound; by vm_compute|apply caps_okb_sound; by vm_compute|
     apply demo_proc_runs; [done|by vm_compute|by eexists]|done| |reflexivity|by vm_compute; left].
  split_and!; [apply (resolves_root _ _ 6); done|by vm_compute|eexists; split; vm_compute; reflexivity|by vm_compute].
Defined.

(** ** Setting a process up *)

(** Headers tell the truth about processes and frames. *)
Record typed (s : kstate) : Prop := {
  ty_proc : forall a h, k_head s !! a = Some h -> h_type h = OBJ_proc -> is_Some (k_proc s !! a);
  ty_frame : forall a h, k_head s !! a = Some h -> h_type h = OBJ_frame -> is_Some (k_frame s !! a)
}.

(** [*r = c] *)
Definition putc (r : capref) (c : cap) (s : kstate) : kstate :=
  set_k_caplist (alter (zupd r.2 c) r.1 (k_caplist s)) s.

(** The slots after a set-up that moved [v], [r] and [e] into the list [L]. *)
Definition setup_slot (s : kstate) (L : Z) (v r e : capref) (vo eo : Z) (q : capref) : option cap :=
  if decide (q = v \/ q = r \/ q = e) then Some cap_empty
  else if decide (q = (L, 0)) then Some (mk_cap (Z.lor CAP_read CAP_write) L)
  else if decide (q = (L, 2)) then Some (mk_cap (Z.lor CAP_read CAP_write) vo)
  else if decide (q = (L, 1)) then Some (mk_cap CAP_write eo)
  else cap_lookup q s.

Section setup.
Implicit Types (s : kstate) (r v e q : capref) (c : cap) (root cid : Z).

Lemma putc_lookup r c s q : is_Some (cap_lookup r s) ->
  cap_lookup q (putc r c s) = if decide (r = q) then Some c else cap_lookup q s.
Proof. intros [c0 Hc]. unfold putc. rewrite cap_lookup_put.
  repeat case_decide; [by rewrite Hc|done..]. Qed.

Lemma putc_some r c s q : is_Some (cap_lookup q s) -> is_Some (cap_lookup q (putc r c s)).
Proof.
  intros Hc. unfold putc. rewrite cap_lookup_put. case_decide; [|done]. subst. by apply fmap_is_Some.
Qed.

Lemma wpe_putc r c s (Qp : unit -> kstate -> Prop) E : is_Some (cap_lookup r s) ->
  Qp tt (putc r c s) -> wpe (put_cap r c) s Qp E.
Proof. intros [c0 Hc] HQ. eapply wpe_put_cap; [done|exact HQ]. Qed.

Lemma wpe_install o i c p s (Qp : unit -> kstate -> Prop) E : k_proc s !! o = Some p ->
  is_Some (cap_lookup (p_cap_root p, i) s) -> Qp tt (putc (p_cap_root p, i) c s) ->
  wpe (install_cap o i c) s Qp E.
Proof. intros Hp Hc HQ. apply wpe_bind. eapply wpe_get_proc; [done|]. by apply wpe_putc. Qed.

(** A demand on a capability: the lookup, the rights, the type. *)
Lemma wpe_demand {A} s root cid m t (bad : cap -> bool) (no : KM A) (yes : capref -> cap -> KM A)
    (Qp : A -> kstate -> Prop) E :
  caps_ok s -> runs_with s root -> cid_ok cid ->
  (forall c, bad c = false <-> c_perm c <> 0 /\ has_perm c m) ->
  ((forall r c, ~ holds s root cid m t r c) -> wpe no s Qp E) ->
  (forall r c, holds s root cid m t r c -> wpe (yes r c) s Qp E) ->
  wpe (let* o := proc_find_cap (k_up s) cid in
       match o with
       | None => no
       | Some r => let* c := get_cap r in
                   if bad c then no else
                   let* h := get_head (c_obj c) in
                   if negb (h_type h =? t) then no else yes r c
       end) s Qp E.
Proof.
  intros Hok Hrun Hcid Hbad Hno Hyes. apply wpe_bind. apply (wpe_find s root); [done..| |].
  2: { intros Hx. apply Hno. intros r c (Hr & _). by apply (Hx r). }
  intros r c Hr Hc. assert (Hdet : forall r' c', holds s root cid m t r' c' -> c' = c).
  { intros r' c' (Hr' & Hc' & _). rewrite (resolves_det s root cid r' r) in Hc' by done. congruence. }
  apply wpe_bind. eapply wpe_get_cap; [done|]. destruct (bad c) eqn:Eb.
  { apply Hno. intros r' c' Hh. rewrite (Hdet r' c' Hh) in Hh. destruct Hh as (_ & _ & Hp & Hm & _).
    rewrite (proj2 (Hbad c)) in Eb by done. discriminate Eb. }
  apply Hbad in Eb as [Hp Hm]. destruct (co_obj s Hok r c Hc Hp) as [h Hh].
  apply wpe_bind. eapply wpe_get_head; [done|]. destruct (Z.eqb_spec (h_type h) t) as [Ht|Ht]; cbn [negb].
  - apply Hyes. split_and!; [done..|]. by exists h.
  - apply Hno. intros r' c' Hx. rewrite (Hdet r' c' Hx) in Hx. destruct Hx as (_ & _ & _ & _ & h' & ? & ?). congruence.
Qed.

Lemma some_perms c : (c_perm c =? 0) = false <-> c_perm c <> 0 /\ has_perm c 0.
Proof. rewrite Z.eqb_neq. unfold has_perm. rewrite Z.land_0_r. naive_solver. Qed.

Lemma rw_perms c : negb (ctrue (Z.land (c_perm c) CAP_write)) || negb (ctrue (Z.land (c_perm c) CAP_read)) = false <->
  c_perm c <> 0 /\ has_perm c CAP_rw.
Proof.
  rewrite orb_false_iff, !negb_false_iff, has_write, has_read. unfold has_perm, CAP_rw. split.
  - intros [Hw Hr]. split; [by apply (has_perm_nonzero c CAP_read)|]. by rewrite Z.land_lor_distr_r, Hw, Hr.
  - intros [_ Hm]. split; [apply (f_equal (Z.land CAP_write)) in Hm|apply (f_equal (Z.land CAP_read)) in Hm];
      rewrite (Z.land_comm (c_perm c)), Z.land_assoc in Hm; rewrite Z.land_comm; exact Hm.
Qed.

Lemma write_perm c : negb (ctrue (Z.land (c_perm c) CAP_write)) = false <-> c_perm c <> 0 /\ has_perm c CAP_write.
Proof.
  rewrite negb_false_iff, has_write. split; [|by intros [_ ?]]. intros Hw. split; [|done].
  by apply (has_perm_nonzero c CAP_write).
Qed.

(** Processes do not matter to capabilities. *)
Lemma holds_procs s ps root cid m t r c : holds (set_k_proc ps s) root cid m t r c <-> holds s root cid m t r c.
Proof.
  assert (Hx : forall root cid r, resolves (set_k_proc ps s) root cid r <-> resolves s root cid r).
  { intros root' cid' r'. split; intros []; by econstructor. }
  unfold holds. by rewrite Hx.
Qed.

Lemma caps_ok_procs s ps : caps_ok s -> caps_ok (set_k_proc ps s).
Proof. intros []. by constructor. Qed.

(** The moves into the new list. *)
Lemma setup_moves {A} s o p v r e cv L eo (K : KM A) (Qp : A -> kstate -> Prop) E :
  k_proc s !! o = Some p -> p_cap_root p = L ->
  cap_lookup v s = Some cv -> is_Some (cap_lookup r s) -> (exists ce, cap_lookup e s = Some ce /\ c_obj ce = eo) ->
  (forall i, 0 <= i < 3 -> is_Some (cap_lookup (L, i) s)) ->
  (forall i, 0 <= i < 3 -> v <> (L, i) /\ r <> (L, i) /\ e <> (L, i)) ->
  (forall s', k_proc s' = k_proc s -> s' = set_k_caplist (k_caplist s') s ->
     (forall q, cap_lookup q s' = setup_slot s L v r e (c_obj cv) eo q) -> wpe K s' Qp E) ->
  wpe (install_cap o (Z.shiftr CID_CLIST 12) (mk_cap (Z.lor CAP_read CAP_write) L) ;;;
       (let* x := get_cap v in install_cap o (Z.shiftr CID_L1 12) (mk_cap (Z.lor CAP_read CAP_write) (c_obj x))) ;;;
       (let* x := get_cap e in install_cap o (Z.shiftr CID_PARENT 12) (mk_cap CAP_write (c_obj x))) ;;;
       put_cap v cap_empty ;;; put_cap r cap_empty ;;; put_cap e cap_empty ;;; K) s Qp E.
Proof.
  intros Hp <- Hv Hr (ce & He & <-) HL Hne HQ.
  destruct (Hne 0) as (v0 & r0 & e0); [lia|]. destruct (Hne 1) as (v1 & r1 & e1); [lia|].
  destruct (Hne 2) as (v2 & r2 & e2); [lia|]. 
  pose proof (HL 0 ltac:(lia)) as L0. pose proof (HL 1 ltac:(lia)) as L1. pose proof (HL 2 ltac:(lia)) as L2.
  change (Z.shiftr CID_CLIST 12) with 0. change (Z.shiftr CID_L1 12) with 2. change (Z.shiftr CID_PARENT 12) with 1.
  apply wpe_bind, (wpe_install _ _ _ p); [done|by apply L0|].
  apply wpe_bind, wpe_bind. eapply wpe_get_cap.
  { rewrite putc_lookup, decide_False by first [by apply L0|congruence]. exact Hv. }
  apply (wpe_install _ _ _ p); [done|by apply putc_some, L2|].
  apply wpe_bind, wpe_bind. eapply wpe_get_cap.
  { rewrite putc_lookup, decide_False by first [by apply putc_some, L2|congruence].
    rewrite putc_lookup, decide_False by first [by apply L0|congruence]. exact He. }
  apply (wpe_install _ _ _ p); [done|by apply putc_some, putc_some, L1|].
  apply wpe_bind, wpe_putc; [do 3 apply putc_some; by exists cv|].
  apply wpe_bind, wpe_putc; [by do 4 apply putc_some|].
  apply wpe_bind, wpe_putc; [do 5 apply putc_some; by exists ce|].
  apply HQ; [done|by destruct s|]. intros q.
  rewrite !putc_lookup by first [by apply L0|by apply putc_some, L2|by apply putc_some, putc_some, L1|
    by do 4 apply putc_some|do 3 apply putc_some; by exists cv|do 5 apply putc_some; by exists ce].
  unfold setup_slot. repeat case_decide; naive_solver.
Qed.
(** The demands of a set-up, and where its capabilities are. *)
Definition setup_ok s root cid vspace clist p_eid (c : cap) v (cv : cap) r (cr : cap) e (ce : cap) : Prop :=
  (exists k, holds s root cid 0 OBJ_proc k c) /\ holds s root vspace CAP_rw OBJ_frame v cv /\
  holds s root clist CAP_rw OBJ_caplist r cr /\ holds s root p_eid CAP_write OBJ_endpoint e ce.

(** C18: A process is set up exactly when the caller has the process, a frame and
    a capability list to read and write, and an endpoint to write: it then gets
    the frame as its address space and the list as its root, the list's first
    three slots hold the list itself, the endpoint (to send to) and the frame, the
    caller's three capabilities are gone and no other slot changes.  Otherwise the
    call fails and no capability changes; but the process' address space may be
    written already.  None of the three capabilities is in one of the three slots of
    the list that are written ([Hne]). *)
Theorem sys_proc_setup_correct s root cid vspace clist p_eid
    (Hok : caps_ok s) (Hty : typed s) (Hrun : runs_with s root)
    (Hcid : cid_ok cid) (Hvs : cid_ok vspace) (Hcl : cid_ok clist) (Hep : cid_ok p_eid)
    (Hne : forall v cv r cr e ce i, holds s root vspace CAP_rw OBJ_frame v cv ->
       holds s root clist CAP_rw OBJ_caplist r cr -> holds s root p_eid CAP_write OBJ_endpoint e ce ->
       0 <= i < 3 -> v <> (c_obj cr, i) /\ r <> (c_obj cr, i) /\ e <> (c_obj cr, i)) :
  wp (sys_proc_setup cid vspace clist p_eid) s (fun x s' =>
    (x = ERR /\ (forall c v cv r cr e ce, ~ setup_ok s root cid vspace clist p_eid c v cv r cr e ce) /\
     (s' = s \/ exists o vs, s' = set_k_proc (alter (set_p_vspace vs) o (k_proc s)) s)) \/
    (exists c v cv r cr e ce p f, setup_ok s root cid vspace clist p_eid c v cv r cr e ce /\
       k_proc s !! c_obj c = Some p /\ k_frame s !! c_obj cv = Some f /\ x = p_pid p /\
       k_proc s' = <[c_obj c := set_p_cap_root (c_obj cr) (set_p_vspace (f_pa f) p)]> (k_proc s) /\
       s' = set_k_caplist (k_caplist s') (set_k_proc (k_proc s') s) /\
       forall q, cap_lookup q s' = setup_slot s (c_obj cr) v r e (c_obj cv) (c_obj ce) q)).
Proof.
  unfold sys_proc_setup, setup_ok. apply wpe_bind, wpe_gets.
  apply (wpe_demand s root cid 0); [done..|exact some_perms| |].
  { intros Hno. apply wpe_ret. left. split; [done|]. split; [|by left]. intros ??????? [[k Hk] _]. by eapply Hno. }
  intros k c Hk. apply (wpe_demand s root vspace CAP_rw); [done..|exact rw_perms| |].
  { intros Hno. apply wpe_ret. left. split; [done|]. split; [|by left]. intros ??????? (_ & Hx & _). by eapply Hno. }
  intros v cv Hv. pose proof Hk as (_ & _ & _ & _ & h & Hh & Ht).
  destruct (ty_proc s Hty _ _ Hh Ht) as [p Hp].
  pose proof Hv as (_ & Hv2 & _ & _ & hv & Hhv & Htv).
  destruct (ty_frame s Hty _ _ Hhv Htv) as [f Hf].
  apply wpe_bind. eapply wpe_get_frame; [done|]. apply wpe_bind. eapply wpe_upd_proc; [done|].
  set (s1 := set_k_proc _ s). assert (Hok1 : caps_ok s1) by by apply caps_ok_procs.
  assert (Hrun1 : runs_with s1 root).
  { destruct Hrun as (u & Hu & <- & Hl). unfold runs_with. cbn. destruct (decide (c_obj c = k_up s)) as [E|E].
    - exists (set_p_vspace (f_pa f) p). rewrite E, lookup_insert_eq in *. split_and!; [done| |done]. cbn. congruence.
    - exists u. by rewrite lookup_insert_ne. }
  assert (Hfail : forall (P : Prop), ~ P -> (forall c v cv r cr e ce, setup_ok s root cid vspace clist p_eid c v cv r cr e ce -> P) ->
    wp (ret ERR) s1 (fun x s' => x = ERR /\
      (forall c v cv r cr e ce, ~ setup_ok s root cid vspace clist p_eid c v cv r cr e ce) /\
      (s' = s \/ exists o vs, s' = set_k_proc (alter (set_p_vspace vs) o (k_proc s)) s))).
  { intros P HP Himp. apply wpe_ret. split; [done|]. split; [intros; intros Hx; by eapply HP, Himp|].
    right. exists (c_obj c), (f_pa f). unfold s1. f_equal. symmetry. by apply alter_insert_lookup. }
  change (k_up s) with (k_up s1). apply (wpe_demand s1 root clist CAP_rw); [done..|exact rw_perms| |].
  { intros Hno. eapply wpe_mono; [apply (Hfail (exists r c, holds s1 root clist CAP_rw OBJ_caplist r c))| |done].
    - intros (? & ? & ?). by eapply Hno.
    - intros ???? cr ?? (_ & _ & Hx & _). eexists _, _. apply holds_procs. exact Hx.
    - intros x s' Hx. by left. }
  intros r cr Hr. apply (wpe_demand s1 root p_eid CAP_write); [done..|exact write_perm| |].
  { intros Hno. eapply wpe_mono; [apply (Hfail (exists r c, holds s1 root p_eid CAP_write OBJ_endpoint r c))| |done].
    - intros (? & ? & ?). by eapply Hno.
    - intros ???? ?? ce (_ & _ & _ & Hx). eexists _, _. apply holds_procs. exact Hx.
    - intros x s' Hx. by left. }
  intros e ce He. apply (proj1 (holds_procs _ _ _ _ _ _ _ _)) in Hr, He.
  apply wpe_bind. eapply wpe_upd_proc; [apply lookup_insert_eq|].
  pose proof Hr as (_ & Hr2 & _ & _ & hr & Hhr & Htr). pose proof He as (_ & He2 & _).
  destruct (co_type s Hok _ _ Hhr Htr) as [l Hl].
  eapply (setup_moves _ (c_obj c) _ v r e cv (c_obj cr) (c_obj ce)); [apply lookup_insert_eq|done|exact Hv2|
    by exists cr|by exists ce| |by intros; eapply Hne|].
  { intros i Hi. unfold cap_lookup. cbn. rewrite Hl. cbn. apply znth_is_Some. rewrite (co_len s Hok _ _ Hl).
    unfold CLIST_CAPS. lia. }
  intros s' Hps Hs' Hq. apply wpe_bind. eapply wpe_get_proc; [rewrite Hps; apply lookup_insert_eq|].
  apply wpe_ret. right. exists c, v, cv, r, cr, e, ce, p, f. split_and!; try done; [by exists k| |].
  - rewrite Hps. cbn. by rewrite insert_insert_eq.
  - rewrite Hs'. by destruct s.
Qed.
End setup.

Lemma sys_proc_setup_correct_witness :
  let L := 0x4000 in
  wp (sys_proc_setup 0x6000 0x9000 0x5000 0x4000) demo (fun x s' => x = 2 /\
    p_cap_root <$> k_proc s' !! 0x2000 = Some L /\ cap_lookup (L, 1) s' = Some (mk_cap CAP_write 0x5000) /\
    cap_lookup (0x3000, 9) s' = Some cap_empty).
Proof.
  intros L. assert (Hslot : forall cid m t r c, Z.land cid 0xfff = 0 -> holds demo 0x3000 cid m t r c -> r = (0x3000, Z.shiftr cid 12)).
  { intros cid m t r c Hz (Hr & _). inversion Hr as [b Hb E1 E2|b sub c' h Hb Hs]; subst.
    - rewrite <-(Z.add_0_r (b * 4096)). destruct (cid_join b 0) as [-> _]; [lia|lia|done].
    - unfold CLIST_CAPS in *. destruct (cid_join b sub) as [_ J]; lia. }
  eapply wpe_mono.
  - apply (sys_proc_setup_correct demo 0x3000 0x6000 0x9000 0x5000 0x4000);
      [exact demo_caps_ok|constructor|apply demo_proc_runs; [done|done|by eexists]|done|done|done|done|].
    + assert (H : map_Forall (fun a h => h_type h = OBJ_proc -> is_Some (k_proc demo !! a)) (k_head demo))
        by (apply (bool_decide_unpack _); by vm_compute). exact H.
    + assert (H : map_Forall (fun a h => h_type h = OBJ_frame -> is_Some (k_frame demo !! a)) (k_head demo))
        by (apply (bool_decide_unpack _); by vm_compute). exact H.
    + intros v cv r cr e ce i Hv Hr He Hi. apply Hslot in Hv as ->, He as ->; [|done..].
      pose proof Hr as (_ & Hr' & _). apply Hslot in Hr as ->; [|done]. vm_compute in Hr'. injection Hr' as <-. done.
  - cbn beta. intros x s' [(_ & Hno & _)|(c & v & cv & r & cr & e & ce & p & f & Hok & Hp & Hf & -> & Hps & _ & Hq)].
    + exfalso. apply (Hno (mk_cap 3 0x2000) (0x3000, 9) (mk_cap 3 0x8000) (0x3000, 5) (mk_cap 3 0x4000) (0x3000, 4) (mk_cap 3 0x5000)).
      unfold setup_ok. split_and!; [exists (0x3000, 6)|..];
        (split_and!; [apply (resolves_root _ _ 6) || apply (resolves_root _ _ 9) || apply (resolves_root _ _ 5) ||
           apply (resolves_root _ _ 4); done|by vm_compute|done|by vm_compute|eexists; split; vm_compute; reflexivity]).
    + destruct Hok as ((k & Hk) & Hv & Hr & He).
      pose proof Hk as (_ & Hk' & _). apply Hslot in Hk as ->; [|done]. vm_compute in Hk'. injection Hk' as <-.
      pose proof Hr as (_ & Hr' & _). apply Hslot in Hr as ->; [|done]. vm_compute in Hr'. injection Hr' as <-.
      pose proof He as (_ & He' & _). apply Hslot in He as ->; [|done]. vm_compute in He'. injection He' as <-.
      apply Hslot in Hv as ->; [|done]. cbn in Hp. rewrite Hps, !Hq. vm_compute in Hp. injection Hp as <-.
      split_and!; [done|by rewrite lookup_insert_eq|done..].
  - done.
Defined.

(** ** Interrupts *)
Section interrupts.
Context `{Board}.
Implicit Types (s : kstate) (Q : Z * Z -> list Z) (W : Z -> list Z) (e : Z) (x : obj_endpoint).

(** C19: An interrupt a process has connected is masked until it is acknowledged
    and its signal reaches the endpoint: it is added to the signals pending for
    the bound process or the endpoint, the process waiting there becomes ready, and
    the waiting lists stay well formed. *)
Theorem irq_handler_correct s Q W irqn e sg x
    (Hs : sched_inv s Q) (Hl : no_lost s) (Hw : wait_inv s W) (Hup : is_Some (k_proc s !! k_up s))
    (Hirq : irqn <> SYSTICK_IRQ /\ irqn <> 1023) (Hh : znth (m_handler (k_mach s)) irqn = Some (e, sg))
    (He : e <> NIL /\ k_endpoint s !! e = Some x)
    (Hbound : e_bound x <> NIL -> is_Some (k_proc s !! e_bound x)) :
  wp (irq_handler irqn) s (fun r s' => wait_inv s' W /\
    m_enabled (k_mach s') = m_enabled (k_mach s) ∖ {[irqn]} /\ m_handler (k_mach s') = m_handler (k_mach s) /\
    if ctrue (e_bound x) then
      p_bound_signal <$> k_proc s' !! e_bound x =
        (fun p => Z.lor (p_bound_signal p) sg) <$> k_proc s !! e_bound x /\
      if decide (state_of s (e_bound x) = Some PROC_block_recv)
      then r = Left Switched /\ is_ready s' (e_bound x) = true else r = Continue /\ k_up s' = k_up s
    else
      k_endpoint s' !! e = Some (set_e_signal (Z.lor (e_signal x) sg) x) /\
      if ctrue (e_rwait x) then r = Left Switched /\ is_ready s' (e_rwait x) = true
      else r = Continue /\ k_up s' = k_up s).
Proof.
  destruct Hirq as [H1 H2], He as [He0 He]. unfold irq_handler.
  rewrite (proj2 (Z.eqb_neq _ _) H1), (proj2 (Z.eqb_neq _ _) H2).
  apply wpe_bind. eapply wpe_read; [exact Hh|]. cbn [fst snd]. unfold ctrue at 1. rewrite (proj2 (Z.eqb_neq _ _) He0).
  cbn [negb]. apply wpe_bind, wpe_modify, wpe_bind. set (s1 := set_k_mach _ s).
  eapply wpe_mono; [apply (signal_spec s1 Q W e x sg K_trap)| |done]; try done.
  { eapply sched_inv_ext, Hs; done. }
  { by eapply wait_inv_ext, Hw. }
  cbn beta. intros r s' (Hm & Hw' & Hsig).
  assert (Hen : m_enabled (k_mach s') = m_enabled (k_mach s1)) by exact (f_equal m_enabled Hm).
  assert (Hha : m_handler (k_mach s') = m_handler (k_mach s1)) by exact (f_equal m_handler Hm).
  change (state_of s1) with (state_of s) in Hsig. unfold ctrue in *.
  destruct (Z.eqb_spec (e_bound x) NIL), (Z.eqb_spec (e_rwait x) NIL); cbn [negb] in *;
    repeat case_decide; destruct_and!; subst r; apply wpe_ret; split_and!; done.
Qed.
End interrupts.

(** [demo_receiving] with the interrupt 40 connected to the endpoint. *)
Definition demo_irq : kstate :=
  set_k_mach (set_m_enabled {[40]} (set_m_handler (zupd 40 (0x5000, 4) (m_handler (k_mach demo))) (k_mach demo))) demo_receiving.

Lemma irq_handler_correct_witness :
  let _ := vexpress_a9 in let s := demo_irq in let x := mk_endpoint 0 NIL 0x2000 NIL NIL in
  wp (irq_handler 40) s (fun r s' => wait_inv s' (fun _ => []) /\ m_enabled (k_mach s') = {[40]} ∖ {[40]} /\
    k_endpoint s' !! 0x5000 = Some (set_e_signal 4 x) /\ r = Left Switched /\ is_ready s' 0x2000 = true).
Proof.
  intros B s x. eapply wpe_mono;
    [apply (@irq_handler_correct B s (fun _ => []) (fun _ => []) 40 0x5000 4 x);
     [apply sched_invb_sound; by vm_compute|apply no_lostb_sound; by vm_compute|apply wait_invb_sound; by vm_compute|
      eexists; vm_compute; reflexivity|done|by vm_compute|done|done]|intros r s' (H1 & H2 & _ & H3 & H4 & H5); done|done].
Defined.
