(* ===== verification/SList.v ===== *)
(** * Intrusive singly linked lists

    The free blocks of a pool, the free ranges of memory and the other lists
    that user programs thread through a [next] field are instances of this
    theory, which looks only at where each node's link leads: a partial
    function from addresses to addresses. *)
From S2P Require Import Prelude.

Local Open Scope Z_scope.

(** [sseg nx h l e]: from [h] the links pass the nodes [l], in this order,
    and lead to [e]. *)
Fixpoint sseg (nx : Z -> option Z) (h : Z) (l : list Z) (e : Z) : Prop :=
  match l with
  | [] => h = e
  | a :: l' => h = a /\ a <> NIL /\ exists n, nx a = Some n /\ sseg nx n l' e
  end.
Abbreviation slist nx h l := (sseg nx h l NIL).

Section slists.
Implicit Types (nx : Z -> option Z) (h a b e n : Z) (l : list Z).

Lemma sseg_ext nx nx' h l e : (forall a, a ∈ l -> nx' a = nx a) -> sseg nx h l e -> sseg nx' h l e.
Proof.
  revert h. induction l as [|a l IH]; intros h Hx; cbn; [done|]. intros (-> & Ha & n & Hn & Hl).
  split_and!; [done..|]. exists n. rewrite Hx by set_solver. split; [done|]. apply IH; [|done].
  intros; apply Hx; set_solver.
Qed.

Lemma sseg_app nx h l1 l2 e : sseg nx h (l1 ++ l2) e <-> exists m, sseg nx h l1 m /\ sseg nx m l2 e.
Proof.
  revert h. induction l1 as [|a l1 IH]; intros h; cbn [app sseg].
  - split; [eauto|]. by intros (? & -> & ?).
  - split.
    + intros (-> & ? & n & Hn & (m & ? & ?)%IH). exists m. eauto 10.
    + intros (m & (-> & ? & n & ? & ?) & ?). split_and!; [done..|]. exists n. rewrite IH. eauto.
Qed.

Lemma sseg_elem nx h l e a : sseg nx h l e -> a ∈ l -> a <> NIL /\ is_Some (nx a).
Proof.
  revert h. induction l as [|b l IH]; intros h; cbn; [set_solver|].
  intros (-> & ? & n & ? & ?) [->|?]%elem_of_cons; [eauto|]. by eapply IH.
Qed.

Lemma slist_nil nx h l : slist nx h l -> h = NIL <-> l = [].
Proof. destruct l; cbn; [tauto|]. intros (-> & ? & _). naive_solver. Qed.

(** Pushing a node at the head. *)
Lemma sseg_push nx nx' h l e a : sseg nx h l e -> a <> NIL -> nx' a = Some h ->
  (forall b, b ∈ l -> nx' b = nx b) -> sseg nx' a (a :: l) e.
Proof. intros. cbn. split_and!; [done..|]. exists h. split; [done|]. by eapply sseg_ext. Qed.

Lemma slist_det nx h l l' : slist nx h l -> slist nx h l' -> l = l'.
Proof.
  revert h l'. induction l as [|a l IH]; intros h [|b l']; cbn; naive_solver.
Qed.

(** The links end in nil, so no node is met twice. *)
Lemma slist_NoDup nx h l : slist nx h l -> NoDup l.
Proof.
  revert h. induction l as [|a l IH]; intros h Hl; [constructor|].
  pose proof Hl as (-> & _ & n & Hn & Hl'). constructor; [|by eapply IH]. intros Hin.
  apply list_elem_of_split in Hin as (l2 & l3 & ->).
  apply (sseg_app nx a (a :: l2)) in Hl as (m & _ & Hm).
  assert (m = a) as -> by apply Hm.
  assert (E : a :: l3 = a :: l2 ++ a :: l3).
  { apply (slist_det nx a); [done|]. cbn. destruct Hm as (_ & ? & _). split_and!; [done|done|by exists n]. }
  apply (f_equal length) in E. cbn in E. rewrite length_app in E. cbn in E. lia.
Qed.

(** There are no more nodes than objects that the links are read from. *)
Lemma slist_count {A} (m : gmap Z A) nx h l : (forall a, is_Some (nx a) -> is_Some (m !! a)) -> slist nx h l -> (length l <= size m)%nat.
Proof.
  intros Hm Hl. pose proof (slist_NoDup _ _ _ Hl) as Hnd.
  rewrite <-size_dom, <-(size_list_to_set (C:=gset Z)) by done. apply subseteq_size.
  intros a Ha%elem_of_list_to_set. apply elem_of_dom, Hm. by eapply sseg_elem.
Qed.
End slists.
