(* ===== verification/Pool.v ===== *)
(** * Pools of equally sized blocks, lib/pool/pool.c

    A pool keeps its free blocks on a list threaded through the blocks' own
    headers.  The state is the pool's record together with the headers, by
    address, of the blocks ([pool_obj]) and of the pieces of memory it was given
    ([pool_frame]).  [pool_spec] says what a pool promises: a set of blocks that
    are free and one of those in use.  [pool_rep] relates the two, and
    [pool_simulates] shows that each operation implements its abstract step. *)
From S2P Require Import Prelude SList.

Local Open Scope Z_scope.
Local Open Scope c_scope.

Record pool_obj := mk_pool_obj { po_next : Z; po_in_use : bool }.
Record pool_frame := mk_pool_frame { pf_next : Z; pf_len : Z; pf_nobj : Z }.
Record pool := mk_pool {
  pl_frames : Z; pl_objs : Z; pl_n_free : Z; pl_obj_size : Z;
  pl_obj : gmap Z pool_obj;
  pl_frame : gmap Z pool_frame
}.

Definition sizeof_pool_obj : Z := 8.
Definition sizeof_pool_frame : Z := 12.

Definition set_pl_frames x p := mk_pool x (pl_objs p) (pl_n_free p) (pl_obj_size p) (pl_obj p) (pl_frame p).
Definition set_pl_objs x p := mk_pool (pl_frames p) x (pl_n_free p) (pl_obj_size p) (pl_obj p) (pl_frame p).
Definition set_pl_n_free x p := mk_pool (pl_frames p) (pl_objs p) x (pl_obj_size p) (pl_obj p) (pl_frame p).
Definition set_pl_obj_size x p := mk_pool (pl_frames p) (pl_objs p) (pl_n_free p) x (pl_obj p) (pl_frame p).
Definition set_pl_obj x p := mk_pool (pl_frames p) (pl_objs p) (pl_n_free p) (pl_obj_size p) x (pl_frame p).
Definition set_pl_frame x p := mk_pool (pl_frames p) (pl_objs p) (pl_n_free p) (pl_obj_size p) (pl_obj p) x.

(** A block's header is read and written through a pointer to it. *)
Definition get_pobj (o : Z) : M pool pool_obj := read FNil (fun p => pl_obj p !! o).
Definition put_pobj (o : Z) (x : pool_obj) : M pool unit :=
  modify (fun p => set_pl_obj (<[o := x]> (pl_obj p)) p).

(** ** Operations *)
Definition pool_init (obj_size : Z) : M pool Z :=
  modify (set_pl_obj_size (u32 (sizeof_pool_obj + Z.land (u32 (obj_size + 3)) (u32 (Z.lnot 3))))) ;;;
  modify (set_pl_frames NIL) ;;;
  modify (set_pl_objs NIL) ;;;
  modify (set_pl_n_free 0) ;;;
  ret OK.

Definition pool_destroy : M pool Z := ret ERR.

(** The loop of pool_load, [n] rounds from [i] on: each block of the memory at
    [a] is pushed on the free list. *)
Fixpoint load_blocks (n : nat) (i a : Z) : M pool unit :=
  match n with
  | O => ret tt
  | S n =>
    let* p := get in
    let o := u32 (a + sizeof_pool_frame + pl_obj_size p * i) in
    put_pobj o (mk_pool_obj (pl_objs p) false) ;;;
    modify (set_pl_objs o) ;;;
    load_blocks n (i + 1) a
  end.

Definition pool_load (a len : Z) : M pool Z :=
  let* p := get in
  if len <? u32 (pl_obj_size p + sizeof_pool_frame) then ret ERR
  else if a =? NIL then fail FNil
  else if pl_obj_size p =? 0 then fail FBounds
  else
    let nobj := u32 (len - sizeof_pool_frame) / pl_obj_size p in
    load_blocks (Z.to_nat nobj) 0 a ;;;
    modify (fun p => set_pl_n_free (u32 (pl_n_free p + nobj)) p) ;;;
    modify (fun p => set_pl_frame (<[a := mk_pool_frame (pl_frames p) len nobj]> (pl_frame p)) p) ;;;
    modify (set_pl_frames a) ;;;
    ret OK.

Definition pool_n_free : M pool Z := gets pl_n_free.
Definition pool_obj_size : M pool Z := gets pl_obj_size.

Definition pool_alloc : M pool Z :=
  let* o := gets pl_objs in
  if o =? NIL then ret NIL
  else
    let* x := get_pobj o in
    modify (set_pl_objs (po_next x)) ;;;
    put_pobj o (mk_pool_obj (po_next x) true) ;;;
    modify (fun p => set_pl_n_free (u32 (pl_n_free p - 1)) p) ;;;
    ret (u32 (o + sizeof_pool_obj)).

Definition pool_free (v : Z) : M pool unit :=
  let o := u32 (v - sizeof_pool_obj) in
  let* x := get_pobj o in
  let* p := get in
  put_pobj o (mk_pool_obj (pl_objs p) false) ;;;
  modify (set_pl_objs o) ;;;
  modify (fun p => set_pl_n_free (u32 (pl_n_free p + 1)) p).

(** ** What a pool promises *)
Record pool_spec := mk_pool_spec { sp_free : gset Z; sp_used : gset Z }.
Inductive pool_op := Op_load (a len : Z) | Op_alloc | Op_free (v : Z).
Definition pool_run (op : pool_op) : M pool Z :=
  match op with
  | Op_load a len => pool_load a len
  | Op_alloc => pool_alloc
  | Op_free v => pool_free v ;;; ret NIL
  end.

(** The bodies of the [n] blocks of size [sz] in the memory at [a]. *)
Definition block_body (sz a i : Z) : Z := a + sizeof_pool_frame + sz * i + sizeof_pool_obj.
Definition bodies (sz a n : Z) : gset Z := list_to_set (block_body sz a <$> seqZ 0 n).

Inductive pool_step (sz : Z) (S : pool_spec) : pool_op -> Z -> pool_spec -> Prop :=
  | Step_load a len n : n = (len - sizeof_pool_frame) / sz -> 0 < n ->
      pool_step sz S (Op_load a len) OK (mk_pool_spec (bodies sz a n ∪ sp_free S) (sp_used S))
  | Step_load_small a len : len < sz + sizeof_pool_frame -> pool_step sz S (Op_load a len) ERR S
  | Step_alloc v : v ∈ sp_free S ->
      pool_step sz S Op_alloc v (mk_pool_spec (sp_free S ∖ {[v]}) ({[v]} ∪ sp_used S))
  | Step_alloc_none : sp_free S = ∅ -> pool_step sz S Op_alloc NIL S
  | Step_free v : v ∈ sp_used S ->
      pool_step sz S (Op_free v) NIL (mk_pool_spec ({[v]} ∪ sp_free S) (sp_used S ∖ {[v]})).

(** Blocks lie apart from each other, in the address space. *)
Definition blocks_apart (sz : Z) (B : gset Z) : Prop :=
  forall v w, v ∈ B -> w ∈ B -> v <> w -> v + sz <= w \/ w + sz <= v.
Definition blocks_range (sz : Z) (B : gset Z) : Prop :=
  forall v, v ∈ B -> sizeof_pool_obj < v /\ v - sizeof_pool_obj + sz <= 2 ^ 32.

Definition next_of (p : pool) (o : Z) : option Z := po_next <$> pl_obj p !! o.
Definition in_use (p : pool) (o : Z) : option bool := po_in_use <$> pl_obj p !! o.

(** The blocks and the list are those of [S]; the count may lag behind, as it
    does while memory is loaded. *)
Record pool_shape (sz : Z) (p : pool) (S : pool_spec) : Prop := {
  ps_size : pl_obj_size p = sz /\ sizeof_pool_obj < sz < 2 ^ 32 - sizeof_pool_frame;
  ps_list : exists l, slist (next_of p) (pl_objs p) l /\
              sp_free S = list_to_set ((fun o => o + sizeof_pool_obj) <$> l);
  ps_free : forall v, v ∈ sp_free S <-> in_use p (v - sizeof_pool_obj) = Some false;
  ps_used : forall v, v ∈ sp_used S <-> in_use p (v - sizeof_pool_obj) = Some true;
  ps_apart : blocks_apart sz (sp_free S ∪ sp_used S);
  ps_range : blocks_range sz (sp_free S ∪ sp_used S)
}.
Definition pool_rep (sz : Z) (p : pool) (S : pool_spec) : Prop :=
  pool_shape sz p S /\ pl_n_free p = Z.of_nat (base.size (sp_free S)).

(** What the code relies on: the memory it is given is the caller's, and only
    blocks in use are given back. *)
Definition op_ok (sz : Z) (S : pool_spec) (op : pool_op) : Prop :=
  match op with
  | Op_load a len => 0 < a /\ 0 <= len /\ a + len <= 2 ^ 32 /\
      forall v, v ∈ sp_free S ∪ sp_used S -> v - sizeof_pool_obj + sz <= a \/ a + len <= v - sizeof_pool_obj
  | Op_alloc => True
  | Op_free v => v ∈ sp_used S
  end.

(** ** Proofs *)
Lemma size_range (B : gset Z) (lo n : Z) : 0 <= n ->
  (forall v, v ∈ B -> lo <= v < lo + n) -> Z.of_nat (base.size B) <= n.
Proof.
  intros Hn HB. transitivity (Z.of_nat (base.size (list_to_set (seqZ lo n) : gset Z))).
  - apply inj_le, subseteq_size. intros v Hv. apply elem_of_list_to_set, elem_of_seqZ. specialize (HB v Hv). lia.
  - rewrite size_list_to_set by apply NoDup_seqZ. rewrite length_seqZ. lia.
Qed.

(** A block that is new or in use, pushed on the free list. *)
Definition pushed (v : Z) (S : pool_spec) : pool_spec :=
  mk_pool_spec ({[v]} ∪ sp_free S) (sp_used S ∖ {[v]}).
Definition push_block (o : Z) (p : pool) : pool :=
  set_pl_objs o (set_pl_obj (<[o := mk_pool_obj (pl_objs p) false]> (pl_obj p)) p).

Section shapes.
Context (sz : Z).
Implicit Types (p : pool) (S : pool_spec) (o v w : Z).

Lemma shape_disjoint p S v : pool_shape sz p S -> v ∈ sp_free S -> v ∈ sp_used S -> False.
Proof. intros Hp H1 H2. apply (ps_free _ _ _ Hp) in H1. apply (ps_used _ _ _ Hp) in H2. congruence. Qed.

Lemma list_free p S l : pool_shape sz p S -> sp_free S = list_to_set ((fun o => o + sizeof_pool_obj) <$> l) ->
  forall o, o ∈ l <-> o + sizeof_pool_obj ∈ sp_free S.
Proof.
  intros _ -> o. rewrite elem_of_list_to_set, list_elem_of_fmap. split; [eauto|].
  intros (o' & E & ?). by assert (o = o') as -> by lia.
Qed.

Lemma push_shape p S v : pool_shape sz p S -> v ∉ sp_free S ->
  blocks_apart sz ({[v]} ∪ (sp_free S ∪ sp_used S)) -> blocks_range sz {[v]} ->
  pool_shape sz (push_block (v - sizeof_pool_obj) p) (pushed v S).
Proof.
  intros Hp Hv Hap Hr. pose proof Hp as [Hsz (l & Hl & HF) Hf Hu _ Hra].
  assert (HvR : v - sizeof_pool_obj <> NIL) by (specialize (Hr v); unfold sizeof_pool_obj, NIL in *; set_solver by lia).
  constructor; cbn [sp_free sp_used pushed push_block set_pl_objs set_pl_obj pl_obj_size pl_objs].
  - done.
  - exists (v - sizeof_pool_obj :: l). split.
    + apply (sseg_push (next_of p) _ (pl_objs p)); [done|done| |].
      * unfold next_of. cbn. by rewrite lookup_insert_eq.
      * intros o Ho. unfold next_of. cbn. rewrite lookup_insert_ne; [done|]. intros <-.
        apply (list_free p S l Hp HF) in Ho. by replace (v - sizeof_pool_obj + sizeof_pool_obj) with v in Ho by lia.
    + cbn. rewrite <-HF. by replace (v - sizeof_pool_obj + sizeof_pool_obj) with v by lia.
  - intros w. rewrite elem_of_union, elem_of_singleton, Hf. unfold in_use. cbn. rewrite lookup_insert.
    case_decide; [naive_solver lia|]. split; [intros [->|]; done|by right].
  - intros w. rewrite elem_of_difference, elem_of_singleton, Hu. unfold in_use. cbn. rewrite lookup_insert.
    case_decide; [naive_solver lia|]. split; [by intros [??]|]. intros ?. split; [done|]. by intros ->.
  - intros a b Ha Hb. apply Hap; set_solver.
  - intros a Ha. destruct (decide (a = v)) as [->|]; [apply Hr; set_solver|]. apply Hra; set_solver.
Qed.

Lemma shape_count p S : pool_shape sz p S -> Z.of_nat (base.size (sp_free S)) < 2 ^ 32.
Proof.
  intros Hp. pose proof (ps_size _ _ _ Hp) as [_ ?]. unfold sizeof_pool_obj, sizeof_pool_frame in *.
  enough (Z.of_nat (base.size (sp_free S)) <= 2 ^ 32 - 8) by lia.
  apply (size_range _ 9); [lia|]. intros v Hv. destruct (ps_range _ _ _ Hp v); [set_solver|].
  unfold sizeof_pool_obj in *. lia.
Qed.

Lemma load_blocks_spec n i a p S : pool_shape sz p S -> 0 < a -> 0 <= i ->
  a + sizeof_pool_frame + sz * (i + Z.of_nat n) <= 2 ^ 32 ->
  (forall v, v ∈ sp_free S ∪ sp_used S -> v - sizeof_pool_obj + sz <= a + sizeof_pool_frame + sz * i \/
     a + sizeof_pool_frame + sz * (i + Z.of_nat n) <= v - sizeof_pool_obj) ->
  exists p', load_blocks n i a p = Ok tt p' /\
    pool_shape sz p' (mk_pool_spec (list_to_set (block_body sz a <$> seqZ i (Z.of_nat n)) ∪ sp_free S) (sp_used S)) /\
    pl_n_free p' = pl_n_free p /\ pl_frames p' = pl_frames p /\ pl_frame p' = pl_frame p.
Proof.
  revert i p S. induction n as [|n IH]; intros i p S Hp Ha Hi Hend Hap.
  - exists p. split; [done|]. split; [|done]. rewrite seqZ_nil by lia. destruct S. cbn. by rewrite union_empty_l_L.
  - pose proof (ps_size _ _ _ Hp) as [Hsz ?]. set (v := block_body sz a i).
    assert (Hv : v - sizeof_pool_obj = a + sizeof_pool_frame + sz * i) by (unfold v, block_body; lia).
    unfold sizeof_pool_obj, sizeof_pool_frame in *.
    assert (Hnew : v ∉ sp_free S ∪ sp_used S) by (intros Hin; specialize (Hap v Hin); nia).
    assert (Hpush : pool_shape sz (push_block (v - 8) p) (pushed v S)).
    { apply push_shape; [done|set_solver| |].
      - intros x y Hx Hy Hxy. apply elem_of_union in Hx as [->%elem_of_singleton|Hx];
          apply elem_of_union in Hy as [->%elem_of_singleton|Hy]; [done| | |by apply (ps_apart _ _ _ Hp)].
        + specialize (Hap y Hy). nia.
        + specialize (Hap x Hx). nia.
      - intros x ->%elem_of_singleton. unfold sizeof_pool_obj. nia. }
    assert (Hused : sp_used S ∖ {[v]} = sp_used S) by set_solver.
    destruct (IH (i + 1) _ _ Hpush) as (p' & Hrun & Hp' & Hk); [done|lia|lia| |].
    { cbn [sp_free sp_used pushed]. rewrite Hused. intros x Hx.
      destruct (decide (x = v)) as [->|]; [left; lia|]. destruct (Hap x); [set_solver|lia|right; lia]. }
    exists p'. split; [|split; [|done]].
    + cbn [load_blocks]. unfold get, put_pobj, modify, bind at 1. rewrite Hsz.
      unfold sizeof_pool_frame. rewrite u32_small by nia. rewrite <-Hv. exact Hrun.
    + revert Hp'. cbn [sp_free sp_used pushed]. rewrite Hused. rewrite Nat2Z.inj_succ.
      rewrite (seqZ_cons i) by lia. rewrite Z.pred_succ, <-Z.add_1_r. cbn. fold v.
      replace ({[v]} ∪ list_to_set (block_body sz a <$> seqZ (i + 1) (Z.of_nat n)) ∪ sp_free S)
        with (list_to_set (block_body sz a <$> seqZ (i + 1) (Z.of_nat n)) ∪ ({[v]} ∪ sp_free S)); [done|set_solver].
Qed.

Lemma take_shape p S o x l : pool_shape sz p S ->
  slist (next_of p) o (o :: l) -> pl_objs p = o -> pl_obj p !! o = Some x ->
  sp_free S = list_to_set ((fun o => o + sizeof_pool_obj) <$> o :: l) ->
  pool_shape sz (set_pl_obj (<[o := mk_pool_obj (po_next x) true]> (pl_obj p)) (set_pl_objs (po_next x) p))
    (mk_pool_spec (sp_free S ∖ {[o + sizeof_pool_obj]}) ({[o + sizeof_pool_obj]} ∪ sp_used S)).
Proof.
  intros Hp Hl Ho Hx HF. pose proof Hp as [Hsz _ Hf Hu Hap Hra]. pose proof (slist_NoDup _ _ _ Hl) as Hnd.
  rewrite NoDup_cons in Hnd. destruct Hnd as [Hol _]. destruct Hl as (_ & Hnz & n & Hn & Hl).
  unfold next_of in Hn. rewrite Hx in Hn. cbn in Hn. simplify_eq. set (v := _ + sizeof_pool_obj).
  assert (Hv : v ∈ sp_free S) by (rewrite HF; cbn; set_solver).
  assert (HU : sp_free S ∖ {[v]} ∪ ({[v]} ∪ sp_used S) = sp_free S ∪ sp_used S).
  { apply set_eq. intros w. destruct (decide (w = v)); set_solver. }
  constructor; cbn [sp_free sp_used set_pl_objs set_pl_obj pl_obj_size pl_objs].
  - done.
  - exists l. split.
    + eapply sseg_ext; [|exact Hl]. intros b Hb. unfold next_of. cbn. by rewrite lookup_insert_ne by set_solver.
    + rewrite HF. cbn. fold v. apply set_eq. intros w.
      rewrite elem_of_difference, elem_of_union, elem_of_singleton, elem_of_list_to_set, list_elem_of_fmap.
      split; [naive_solver|]. intros (b & -> & Hb). split; [naive_solver|]. intros E. unfold v in E.
      by assert (b = pl_objs p) as -> by lia.
  - intros w. rewrite elem_of_difference, elem_of_singleton, Hf. unfold in_use. cbn. rewrite lookup_insert.
    unfold v. case_decide; [naive_solver lia|]. split; [by intros [??]|]. intros ?. split; [done|]. intros ->. lia.
  - intros w. rewrite elem_of_union, elem_of_singleton, Hu. unfold in_use. cbn. rewrite lookup_insert.
    unfold v. case_decide; [naive_solver lia|]. split; [intros [->|]; [lia|done]|by right].
  - by rewrite HU.
  - by rewrite HU.
Qed.

Lemma pool_alloc_spec p S : pool_rep sz p S ->
  exists v S' p', pool_alloc p = Ok v p' /\ pool_step sz S Op_alloc v S' /\ pool_rep sz p' S'.
Proof.
  intros [Hp Hn]. pose proof Hp as [Hsz (l & Hl & HF) _ _ _ Hra]. unfold pool_alloc, gets, bind.
  destruct l as [|o l].
  - cbn in Hl. rewrite Hl. cbn. exists NIL, S, p. split; [done|]. split; [by apply Step_alloc_none|done].
  - assert (Ho : pl_objs p = o) by apply Hl. assert (o <> NIL) by apply Hl. rewrite Ho in *.
    destruct (sseg_elem _ _ _ _ o Hl) as [_ [n Hnx]]; [set_solver|]. unfold next_of in Hnx.
    destruct (pl_obj p !! o) as [x|] eqn:Hx; [|done]. rewrite (proj2 (Z.eqb_neq _ _)) by done.
    unfold get_pobj, read. rewrite Hx. cbn.
    assert (Hv : o + sizeof_pool_obj ∈ sp_free S) by (rewrite HF; cbn; set_solver).
    destruct (Hra (o + sizeof_pool_obj)) as [Hr1 Hr2]; [set_solver|]. unfold sizeof_pool_obj in Hr1, Hr2, Hsz.
    exists (o + sizeof_pool_obj). eexists. eexists. split; [|split; [by apply Step_alloc|split]].
    + rewrite u32_small by (unfold sizeof_pool_obj; lia). done.
    + by destruct (take_shape p S o x l Hp Hl Ho Hx HF).
    + cbn. rewrite size_difference by set_solver. rewrite size_singleton.
      assert (base.size (sp_free S) <> 0%nat) by (intros ?%size_empty_inv; set_solver).
      pose proof (shape_count p S Hp). rewrite Hn, u32_small by lia. lia.
Qed.

Lemma pool_free_spec p S v : pool_rep sz p S -> v ∈ sp_used S ->
  exists p', pool_free v p = Ok tt p' /\ pool_rep sz p' (pushed v S).
Proof.
  intros [Hp Hn] Hv. pose proof Hp as [Hsz _ _ Hu Hap Hra].
  destruct (Hra v) as [Hr1 Hr2]; [set_solver|]. unfold sizeof_pool_obj in Hr1, Hr2, Hsz.
  assert (Hvf : v ∉ sp_free S) by (intros ?; by eapply shape_disjoint).
  pose proof (proj1 (Hu v) Hv) as Hx. unfold in_use in Hx.
  unfold pool_free. rewrite u32_small by (unfold sizeof_pool_obj; lia).
  destruct (pl_obj p !! (v - sizeof_pool_obj)) as [x|] eqn:E; [|done].
  unfold get_pobj. erewrite bind_ok by by apply read_ok.
  assert (Hs : pool_shape sz (push_block (v - sizeof_pool_obj) p) (pushed v S)).
  { apply push_shape; [done|done| |].
    - replace ({[v]} ∪ (sp_free S ∪ sp_used S)) with (sp_free S ∪ sp_used S) by set_solver. done.
    - intros w ->%elem_of_singleton. unfold sizeof_pool_obj. lia. }
  eexists. split; [reflexivity|]. split; [by destruct Hs|].
  pose proof (shape_count _ _ Hs) as Hc. cbn in *.
  rewrite size_union by set_solver. rewrite size_union, size_singleton in Hc by set_solver. rewrite size_singleton.
  rewrite Hn, u32_small by lia. lia.
Qed.

Lemma pool_load_spec p S a len : pool_rep sz p S -> op_ok sz S (Op_load a len) ->
  exists r S' p', pool_load a len p = Ok r p' /\ pool_step sz S (Op_load a len) r S' /\ pool_rep sz p' S'.
Proof.
  intros [Hp Hn] (Ha & Hlen & Hend & Hout). pose proof (ps_size _ _ _ Hp) as [Hsz ?].
  unfold sizeof_pool_obj, sizeof_pool_frame in *. unfold pool_load, get, bind at 1. rewrite Hsz.
  unfold sizeof_pool_frame. rewrite u32_small by lia. destruct (Z.ltb_spec len (sz + 12)).
  { exists ERR, S, p. split; [done|]. split; [|done]. by apply Step_load_small. }
  rewrite (proj2 (Z.eqb_neq a NIL)), (proj2 (Z.eqb_neq sz 0)) by (unfold NIL; lia).
  rewrite u32_small by lia. set (n := (len - 12) / sz).
  assert (Hn1 : 0 < n) by (apply Z.div_str_pos; lia). assert (Hn2 : sz * n <= len - 12) by (apply Z.mul_div_le; lia).
  assert (Hnat : Z.of_nat (Z.to_nat n) = n) by lia.
  destruct (load_blocks_spec (Z.to_nat n) 0 a p S Hp) as (p1 & Hrun & Hp1 & Hc & Hf & Hg);
    [lia|lia|unfold sizeof_pool_frame; nia| |].
  { intros v Hv. unfold sizeof_pool_obj, sizeof_pool_frame. destruct (Hout v Hv); [left|right]; nia. }
  rewrite Hnat in Hp1. change (list_to_set (block_body sz a <$> seqZ 0 n)) with (bodies sz a n) in Hp1.
  assert (Hdis : bodies sz a n ## sp_free S).
  { intros v Hv1 Hv2. apply elem_of_list_to_set, list_elem_of_fmap in Hv1 as (i & -> & Hi%elem_of_seqZ).
    destruct (Hout (block_body sz a i)) as [Hx|Hx]; [set_solver|..]; unfold block_body, sizeof_pool_obj, sizeof_pool_frame in Hx; nia. }
  assert (Hsize : Z.of_nat (base.size (bodies sz a n)) = n).
  { unfold bodies. rewrite size_list_to_set, length_fmap, length_seqZ; [lia|].
    apply NoDup_fmap_2_strong; [|apply NoDup_seqZ]. intros i j _ _. unfold block_body. nia. }
  erewrite bind_ok by exact Hrun. eexists OK, _, _. split; [reflexivity|].
  split; [by apply (Step_load _ _ _ _ n)|]. split; [by destruct Hp1|].
  pose proof (shape_count _ _ Hp1) as Hcount. cbn in *. rewrite size_union in * by done.
  rewrite Hc, Hn, u32_small by lia. lia.
Qed.
End shapes.

(** C20: At each load, allocation or free that a client makes within its
    contract, a pool behaves like the set of free and the set of used blocks it
    stands for, and stands for such sets again: an allocation returns a block that was free and lies apart from every
    block in use, or nil exactly when none is free; a block given back can be
    allocated again; loading adds as many blocks as fit, or fails when none does. *)
Theorem pool_simulates sz p S op :
  pool_rep sz p S -> op_ok sz S op ->
  wp (pool_run op) p (fun r p' => exists S', pool_step sz S op r S' /\ pool_rep sz p' S').
Proof.
  intros Hp Hok. destruct op as [a len| |v]; cbn [pool_run].
  - destruct (pool_load_spec sz p S a len Hp Hok) as (r & S' & p' & Hrun & ? & ?). eapply wpe_ok; eauto.
  - destruct (pool_alloc_spec sz p S Hp) as (r & S' & p' & Hrun & ? & ?). eapply wpe_ok; eauto.
  - destruct (pool_free_spec sz p S v Hp Hok) as (p' & Hrun & ?). apply wpe_bind. eapply wpe_ok; [done|].
    apply wpe_ret. exists (pushed v S). split; [by apply Step_free|done].
Qed.

(** A new pool has no blocks. *)
Lemma pool_init_rep obj_size p : 0 < obj_size < 2 ^ 31 -> pl_obj p = ∅ ->
  wp (pool_init obj_size) p (fun r p' => r = OK /\
    pool_rep (sizeof_pool_obj + (obj_size + 3) / 4 * 4) p' (mk_pool_spec ∅ ∅)).
Proof.
  intros Hsz Hp. unfold pool_init. wsteps. split; [done|].
  pose proof (round_up_bounds obj_size 4). rewrite <-Z.add_sub_assoc in H. change (4 - 1) with 3 in H.
  rewrite (u32_small (obj_size + 3)) by lia.
  pose proof (land_lnot_ones (obj_size + 3) 2) as Hl. change (2 ^ 2) with 4 in Hl. change (4 - 1) with 3 in Hl.
  rewrite Hl by lia. rewrite u32_small by (unfold sizeof_pool_obj; lia). split; [|done].
  constructor; cbn [sp_free sp_used pl_obj_size set_pl_n_free set_pl_objs set_pl_frames set_pl_obj_size].
  - unfold sizeof_pool_obj, sizeof_pool_frame. lia.
  - by exists [].
  - intros v. unfold in_use. cbn. rewrite Hp, lookup_empty. set_solver.
  - intros v. unfold in_use. cbn. rewrite Hp, lookup_empty. set_solver.
  - intros v w. set_solver.
  - intros v. set_solver.
Qed.

(** *** Witnesses *)
Definition demo_pool : pool := mk_pool NIL NIL 0 20 ∅ ∅.
Lemma pool_simulates_witness :
  pool_rep 20 demo_pool (mk_pool_spec ∅ ∅) /\ op_ok 20 (mk_pool_spec ∅ ∅) (Op_load 0x1000 64) /\
  wp (pool_run (Op_load 0x1000 64)) demo_pool
    (fun r p' => exists S', pool_step 20 (mk_pool_spec ∅ ∅) (Op_load 0x1000 64) r S' /\ pool_rep 20 p' S').
Proof.
  assert (Hrep : pool_rep 20 demo_pool (mk_pool_spec ∅ ∅)).
  { destruct (pool_init_rep 12 demo_pool) as [_ H]; [lia|done|]. exact H. }
  assert (Hok : op_ok 20 (mk_pool_spec ∅ ∅) (Op_load 0x1000 64)).
  { cbn. split_and!; [lia..|]. intros v. set_solver. }
  split; [exact Hrep|]. split; [exact Hok|]. exact (pool_simulates 20 demo_pool _ _ Hrep Hok).
Defined.
