(* ===== verification/Ranges.v ===== *)
(** * Ranges of free memory, arm/root/mem.c

    The root task keeps the memory that is free as a list of address ranges
    taken from a pool.  A pointer to a pointer ([struct addr_range **f]) is the
    place it points to: the head of the list or the [next] field of a range.
    [ranges_rep] relates the state to the list of (start, length) pairs it
    stands for. *)
From S2P Require Import Prelude SList Pool.

Local Open Scope Z_scope.
Local Open Scope c_scope.

Record addr_range := mk_range { ar_start : Z; ar_len : Z; ar_next : Z }.
Definition set_ar_len x r := mk_range (ar_start r) x (ar_next r).
Definition set_ar_next x r := mk_range (ar_start r) (ar_len r) x.
Definition sizeof_addr_range : Z := 12.

Record ranges := mk_ranges { rg_pool : pool; rg_range : gmap Z addr_range; rg_free : Z }.
Definition set_rg_pool x s := mk_ranges x (rg_range s) (rg_free s).
Definition set_rg_range x s := mk_ranges (rg_pool s) x (rg_free s).
Definition set_rg_free x s := mk_ranges (rg_pool s) (rg_range s) x.
Abbreviation RM := (M ranges).

(** A call to the pool works on the pool of the ranges. *)
Definition on_pool {A} (m : M pool A) : RM A := zoom rg_pool set_rg_pool m.

Definition get_range (a : Z) : RM addr_range := read FNil (fun s => rg_range s !! a).
Definition upd_range (a : Z) (f : addr_range -> addr_range) : RM unit :=
  let* _ := get_range a in modify (fun s => set_rg_range (alter f a (rg_range s)) s).

Inductive place := Head | Next (a : Z).
Definition get_place (f : place) : RM Z :=
  match f with Head => gets rg_free | Next a => let* r := get_range a in ret (ar_next r) end.
Definition put_place (f : place) (v : Z) : RM unit :=
  match f with Head => modify (set_rg_free v) | Next a => upd_range a (set_ar_next v) end.

(** ** Operations *)
Definition addr_range_insert (head : place) (n : Z) : RM unit :=
  let* h := get_place head in
  upd_range n (set_ar_next h) ;;;
  put_place head n.

Definition addr_range_split (f off : Z) : RM Z :=
  let* n := on_pool pool_alloc in
  if n =? NIL then ret NIL
  else
    let* r := get_range f in
    modify (fun s => set_rg_range
      (<[n := mk_range (u32 (ar_start r + off)) (u32 (ar_len r - off)) NIL]> (rg_range s)) s) ;;;
    upd_range f (set_ar_len off) ;;;
    ret n.

(** The common end of the two searches: take [len] bytes from the front of
    the range at [f]. *)
Definition range_carve (f : place) (len : Z) : RM Z :=
  let* m := get_place f in
  let* r := get_range m in
  (if len <? ar_len r then
     let* n := addr_range_split m len in
     let* r := get_range m in
     upd_range n (set_ar_next (ar_next r)) ;;;
     put_place f n
   else put_place f (ar_next r)) ;;;
  ret m.

(** Both searches first cut off the [off] bytes in front, when there are any. *)
Definition range_cut (f : place) (a off : Z) : RM (option place) :=
  let* m := addr_range_split a off in
  if m =? NIL then ret None
  else
    let* r := get_range a in
    upd_range m (set_ar_next (ar_next r)) ;;;
    upd_range a (set_ar_next m) ;;;
    ret (Some (Next a)).

Fixpoint addr_range_get_loop (fuel : nat) (f : place) (start len : Z) : RM Z :=
  match fuel with
  | O => nofuel
  | S fuel =>
    let* a := get_place f in
    if a =? NIL then ret NIL
    else
      let* r := get_range a in
      if (ar_start r <=? start) && (start <? u32 (ar_start r + ar_len r)) then
        if u32 (ar_start r + ar_len r) <? u32 (start + len) then ret NIL
        else if ar_start r <? start then
          let* f := range_cut f a (start - ar_start r) in
          match f with None => ret NIL | Some f => range_carve f len end
        else range_carve f len
      else addr_range_get_loop fuel (Next a) start len
  end.
Definition addr_range_get (head : place) (start len : Z) : RM Z :=
  let* s := get in addr_range_get_loop (S (S (base.size (rg_range s)))) head start len.

Fixpoint addr_range_get_any_loop (fuel : nat) (f : place) (len align : Z) : RM Z :=
  match fuel with
  | O => nofuel
  | S fuel =>
    let* x := get_place f in
    if x =? NIL then ret NIL
    else
      let* r := get_range x in
      let a := align_up (ar_start r) align in
      if len <? u32 (a - ar_start r + ar_len r) then
        if ar_start r <? a then
          let* f := range_cut f x (u32 (a - ar_start r)) in
          match f with None => ret NIL | Some f => range_carve f len end
        else range_carve f len
      else addr_range_get_any_loop fuel (Next x) len align
  end.
Definition addr_range_get_any (head : place) (len align : Z) : RM Z :=
  let* s := get in addr_range_get_any_loop (S (S (base.size (rg_range s)))) head len align.

(** The board's code gives the memory there is. *)
Definition add_ram (start len : Z) : RM unit :=
  let* m := on_pool pool_alloc in
  if m =? NIL then halt (Exited 1)
  else
    modify (fun s => set_rg_range (<[m := mk_range start len (default NIL (ar_next <$> rg_range s !! m))]> (rg_range s)) s) ;;;
    addr_range_insert Head m.

(** ** What the list stands for *)

(** [rseg R h l L e]: from [h] the links pass the ranges at [l], whose starts
    and lengths are [L], and lead to [e]. *)
Fixpoint rseg (R : gmap Z addr_range) (h : Z) (l : list Z) (L : list (Z * Z)) (e : Z) : Prop :=
  match l, L with
  | [], [] => h = e
  | a :: l, x :: L => h = a /\ a <> NIL /\ exists n, R !! a = Some (mk_range x.1 x.2 n) /\ rseg R n l L e
  | _, _ => False
  end.

Record ranges_rep (s : ranges) (P : pool_spec) (l : list Z) (L : list (Z * Z)) : Prop := {
  rr_pool : exists sz, pool_rep sz (rg_pool s) P;
  rr_list : rseg (rg_range s) (rg_free s) l L NIL;
  rr_used : forall a, a ∈ l -> a ∈ sp_used P
}.

(** The bytes of a list of ranges. *)
Definition in_range (x : Z * Z) (b : Z) : Prop := x.1 <= b < x.1 + x.2.
Definition covers (L : list (Z * Z)) (b : Z) : Prop := exists x, x ∈ L /\ in_range x b.
Definition ranges_ok (L : list (Z * Z)) : Prop :=
  Forall (fun x => 0 <= x.1 /\ 0 < x.2 /\ x.1 + x.2 < 2 ^ 32) L.
(** No byte is in two ranges. *)
Fixpoint apart (L : list (Z * Z)) : Prop :=
  match L with
  | [] => True
  | x :: L => (forall b, in_range x b -> ~ covers L b) /\ apart L
  end.

Definition place_of (l : list Z) : place := match last l with None => Head | Some a => Next a end.
Definition taken (m : Z) (P : pool_spec) : pool_spec := mk_pool_spec (sp_free P ∖ {[m]}) ({[m]} ∪ sp_used P).

Section segments.
Implicit Types (R : gmap Z addr_range) (h a e n : Z) (l : list Z) (L : list (Z * Z)) (s : ranges) (P : pool_spec).

Lemma rseg_ext R R' h l L e : (forall a, a ∈ l -> R' !! a = R !! a) -> rseg R h l L e -> rseg R' h l L e.
Proof.
  revert h L. induction l as [|a l IH]; intros h [|x L] Hx; cbn; try done. intros (-> & Ha & n & Hn & Hl).
  split_and!; [done..|]. exists n. rewrite Hx by set_solver. split; [done|]. apply IH; [|done].
  intros; apply Hx; set_solver.
Qed.

Lemma rseg_app R h l1 l2 L1 L2 e : length l1 = length L1 ->
  rseg R h (l1 ++ l2) (L1 ++ L2) e <-> exists m, rseg R h l1 L1 m /\ rseg R m l2 L2 e.
Proof.
  revert h L1. induction l1 as [|a l1 IH]; intros h [|x L1] Hlen; cbn [app rseg]; [|done..|].
  - split; [eauto|]. by intros (? & -> & ?).
  - injection Hlen as Hlen. split.
    + intros (-> & ? & n & Hn & (m & ? & ?)%IH); [|done]. exists m. eauto 10.
    + intros (m & (-> & ? & n & ? & ?) & ?). split_and!; [done..|]. exists n. rewrite IH by done. eauto.
Qed.

Lemma rseg_sseg R h l L e : rseg R h l L e -> sseg (fun a => ar_next <$> R !! a) h l e.
Proof.
  revert h L. induction l as [|a l IH]; intros h [|x L]; cbn; try done.
  intros (-> & ? & n & Hn & ?). split_and!; [done..|]. exists n. rewrite Hn. split; [done|]. by eapply IH.
Qed.

Lemma rseg_length R h l L e : rseg R h l L e -> length l = length L.
Proof.
  revert h L. induction l as [|a l IH]; intros h [|x L]; cbn; try done. intros (_ & _ & n & _ & H).
  f_equal. by eapply IH.
Qed.

Lemma rseg_NoDup R h l L : rseg R h l L NIL -> NoDup l.
Proof. intros ?%rseg_sseg. by eapply slist_NoDup. Qed.

Lemma rseg_elem R h l L e a : rseg R h l L e -> a ∈ l -> is_Some (R !! a).
Proof.
  intros H%rseg_sseg Ha. apply (sseg_elem _ _ _ _ _ H) in Ha as [_ [n Hn]].
  destruct (R !! a); [by eexists|done].
Qed.

Lemma rseg_size R h l L : rseg R h l L NIL -> (length l <= base.size R)%nat.
Proof.
  intros H. pose proof (rseg_NoDup _ _ _ _ H) as Hnd.
  rewrite <-size_dom, <-(size_list_to_set (C:=gset Z)) by done. apply subseteq_size.
  intros a Ha%elem_of_list_to_set. apply elem_of_dom. by eapply rseg_elem.
Qed.

(** Reading and writing through a place. *)
Lemma rseg_last R h l L e a : rseg R h l L e -> last l = Some a -> ar_next <$> R !! a = Some e.
Proof.
  revert h L. induction l as [|b l IH]; intros h [|x L]; cbn [rseg]; try done.
  intros (-> & ? & n & Hn & H). destruct l as [|c l].
  - intros [= ->]. destruct L; [|done]. cbn in H. by rewrite Hn, <-H.
  - rewrite last_cons_cons. by eapply IH.
Qed.

Lemma get_place_spec s l L e : rseg (rg_range s) (rg_free s) l L e ->
  get_place (place_of l) s = Ok e s.
Proof.
  intros H. unfold place_of. destruct (last l) as [a|] eqn:E.
  - pose proof (rseg_last _ _ _ _ _ _ H E) as Ha. destruct (rg_range s !! a) as [r|] eqn:Hr; [|done].
    cbn. unfold get_range. erewrite bind_ok by by apply read_ok. cbn in Ha. by simplify_eq.
  - apply last_None in E as ->. destruct L; [|done]. cbn in *. unfold gets. by rewrite H.
Qed.

Lemma put_place_spec s l L e v : rseg (rg_range s) (rg_free s) l L e -> NoDup l ->
  exists R f, put_place (place_of l) v s = Ok tt (mk_ranges (rg_pool s) R f) /\ rseg R f l L v /\
    (forall b, b ∉ l -> R !! b = rg_range s !! b).
Proof.
  intros H Hnd. unfold place_of. destruct l as [|a l _] using rev_ind.
  - destruct L; [|done]. exists (rg_range s), v. done.
  - rewrite last_snoc. destruct L as [|x L _] using rev_ind;
      [apply rseg_length in H; rewrite length_app in H; cbn in H; lia|].
    pose proof (rseg_length _ _ _ _ _ H) as Hlen. rewrite !length_app in Hlen. cbn in Hlen.
    apply rseg_app in H as (m & H1 & (-> & Ha & n & Hn & H2)); [|lia]. apply NoDup_snoc in Hnd as [_ Hal].
    exists (alter (set_ar_next v) a (rg_range s)), (rg_free s). split; [|split].
    + cbn. unfold upd_range, get_range. erewrite bind_ok by by apply read_ok. done.
    + apply rseg_app; [lia|]. exists a. split.
      * eapply rseg_ext; [|exact H1]. intros b Hb. apply lookup_alter_ne. by intros ->.
      * cbn. split_and!; [done..|]. exists v. by rewrite lookup_alter_eq, Hn.
    + intros b Hb. apply lookup_alter_ne. set_solver.
Qed.

(** A new range for the upper part of one of the ranges. *)
Lemma split_spec s P st n nx f off : (exists sz, pool_rep sz (rg_pool s) P) ->
  rg_range s !! f = Some (mk_range st n nx) -> f ∈ sp_used P ->
  wp (addr_range_split f off) s (fun m s' =>
    (m = NIL /\ rg_range s' = rg_range s /\ rg_free s' = rg_free s /\ sp_free P = ∅ /\
       exists sz, pool_rep sz (rg_pool s') P) \/
    (m <> NIL /\ m ∈ sp_free P /\ (exists sz, pool_rep sz (rg_pool s') (taken m P)) /\ rg_free s' = rg_free s /\
       rg_range s' = <[f := mk_range st off nx]> (<[m := mk_range (u32 (st + off)) (u32 (n - off)) NIL]> (rg_range s)))).
Proof.
  intros [sz Hp] Hf Hu. destruct (pool_alloc_spec sz _ _ Hp) as (m & P' & p' & Hrun & Hstep & Hp').
  unfold addr_range_split. apply wpe_bind, wpe_zoom. eapply wpe_ok; [exact Hrun|].
  inversion Hstep as [| |v Hv E|E|]; subst.
  - destruct Hp as [Hp _]. destruct (ps_range _ _ _ Hp m) as [Hr1 _]; [set_solver|]. unfold sizeof_pool_obj in Hr1.
    assert (Hne : m <> f) by (intros ->; by eapply shape_disjoint).
    rewrite (proj2 (Z.eqb_neq m NIL)) by (unfold NIL; lia). apply wpe_bind.
    eapply wpe_read; [exact Hf|]. apply wpe_bind, wpe_modify. apply wpe_bind.
    unfold upd_range. apply wpe_bind. eapply wpe_read.
    { cbn. by rewrite lookup_insert_ne. }
    apply wpe_modify. apply wpe_ret. right. cbn. split; [unfold NIL; lia|]. split_and!; [done|by exists sz|done|].
    rewrite (alter_insert_lookup _ f _ (mk_range st n nx)); [done|]. by rewrite lookup_insert_ne.
  - apply wpe_ret. left. cbn. eauto 10.
Qed.

Lemma rep_at s P l1 a l2 L1 x L2 : ranges_rep s P (l1 ++ a :: l2) (L1 ++ x :: L2) -> length l1 = length L1 ->
  rseg (rg_range s) (rg_free s) l1 L1 a /\ a <> NIL /\ NoDup (l1 ++ a :: l2) /\ a ∈ sp_used P /\
  exists n, rg_range s !! a = Some (mk_range x.1 x.2 n) /\ rseg (rg_range s) n l2 L2 NIL.
Proof.
  intros [_ Hl Hu] Hlen. pose proof (rseg_NoDup _ _ _ _ Hl). apply rseg_app in Hl as (m & H1 & (-> & ? & H2)); [|done].
  split_and!; try done. apply Hu. set_solver.
Qed.

Lemma fresh_block s P l L m : ranges_rep s P l L -> m ∈ sp_free P -> m ∉ l.
Proof. intros [[sz [Hp _]] _ Hu] Hm Hl. apply Hu in Hl. by eapply shape_disjoint. Qed.

Lemma add_ram_spec s P l L start len : ranges_rep s P l L -> sp_free P <> ∅ ->
  wp (add_ram start len) s (fun _ s' => exists m, m ∈ sp_free P /\
    ranges_rep s' (taken m P) (m :: l) ((start, len) :: L)).
Proof.
  intros Hr Hne. destruct (rr_pool _ _ _ _ Hr) as [sz Hp].
  destruct (pool_alloc_spec sz _ _ Hp) as (m & P' & p' & Hrun & Hstep & Hp').
  unfold add_ram. apply wpe_bind, wpe_zoom. eapply wpe_ok; [exact Hrun|].
  inversion Hstep as [| |v Hv E|E|]; subst; [|done]. pose proof (fresh_block _ _ _ _ _ Hr Hv) as Hml.
  destruct Hp as [Hp _]. destruct (ps_range _ _ _ Hp m) as [Hr1 _]; [set_solver|]. unfold sizeof_pool_obj in Hr1.
  rewrite (proj2 (Z.eqb_neq m NIL)) by (unfold NIL; lia). apply wpe_bind, wpe_modify.
  unfold addr_range_insert, upd_range. cbn [get_place put_place]. apply wpe_bind, wpe_gets. cbn beta.
  apply wpe_bind, wpe_bind. eapply wpe_read; [apply lookup_insert_eq|]. apply wpe_modify, wpe_modify.
  exists m. split; [done|]. constructor; cbn; [by exists sz| |].
  - split_and!; [done|unfold NIL; lia|]. eexists. rewrite lookup_alter_eq, lookup_insert_eq. split; [done|].
    eapply rseg_ext; [|apply Hr]. intros b Hb. rewrite lookup_alter_ne, lookup_insert_ne by set_solver. done.
  - intros b [->|Hb]%elem_of_cons; [set_solver|]. apply elem_of_union. right. by apply (rr_used _ _ _ _ Hr).
Qed.

(** Cutting a range in two, at the place where it is. *)
Lemma range_cut_spec s P l1 a l2 L1 st n L2 off :
  ranges_rep s P (l1 ++ a :: l2) (L1 ++ (st, n) :: L2) -> length l1 = length L1 ->
  wp (range_cut (place_of l1) a off) s (fun r s' =>
    (r = None /\ sp_free P = ∅ /\ ranges_rep s' P (l1 ++ a :: l2) (L1 ++ (st, n) :: L2)) \/
    exists m, r = Some (place_of (l1 ++ [a])) /\ m ∈ sp_free P /\
      ranges_rep s' (taken m P) (l1 ++ a :: m :: l2) (L1 ++ (st, off) :: (u32 (st + off), u32 (n - off)) :: L2)).
Proof.
  intros Hr Hlen. pose proof (rep_at _ _ _ _ _ _ _ _ Hr Hlen) as (H1 & Ha & Hnd & Hau & nx & Hax & H2).
  cbn in Hax. unfold range_cut. apply wpe_bind.
  eapply wpe_mono; [apply (split_spec _ P st n nx); [apply Hr|done..]|cbn beta|done].
  intros m s1 [(-> & HR & HF & He & Hp)|(Hm & HmF & Hp & HF & HR)].
  - apply wpe_ret. left. split; [done|]. split; [done|]. constructor; [done| |apply Hr].
    rewrite HR, HF. apply Hr.
  - pose proof (fresh_block _ _ _ _ _ Hr HmF) as Hml. rewrite (proj2 (Z.eqb_neq _ _)) by done.
    assert (Hma : m <> a) by set_solver.
    apply wpe_bind. eapply wpe_read; [rewrite HR; apply lookup_insert_eq|].
    assert (Hm1 : rg_range s1 !! m = Some (mk_range (u32 (st + off)) (u32 (n - off)) NIL))
      by (rewrite HR, lookup_insert_ne, lookup_insert_eq; done).
    unfold upd_range. apply wpe_bind, wpe_bind. eapply wpe_read; [exact Hm1|]. apply wpe_modify.
    apply wpe_bind, wpe_bind. eapply wpe_read.
    { cbn. rewrite lookup_alter_ne by done. rewrite HR. apply lookup_insert_eq. }
    apply wpe_modify, wpe_ret. right. exists m. split; [unfold place_of; by rewrite last_snoc|]. split; [done|].
    constructor; cbn; [done| |].
    + rewrite HF. apply rseg_app; [done|]. exists a. apply NoDup_app in Hnd as (_ & Hd & Hnd2).
      rewrite NoDup_cons in Hnd2. destruct Hnd2 as [Hal2 _]. split; [|cbn; split_and!; [done..|]].
      * eapply rseg_ext; [|exact H1]. intros b Hb. assert (b <> a) by (intros ->; set_solver).
        assert (b <> m) by set_solver. rewrite !lookup_alter_ne, HR, !lookup_insert_ne by done. done.
      * exists m. rewrite lookup_alter_eq, lookup_alter_ne, HR, lookup_insert_eq by done. split; [done|].
        split_and!; [done..|]. exists nx. rewrite lookup_alter_ne, lookup_alter_eq by done. rewrite <-HR, Hm1. split; [done|].
        eapply rseg_ext; [|exact H2]. intros b Hb. assert (b <> a) by set_solver. assert (b <> m) by set_solver.
        rewrite !lookup_alter_ne, HR, !lookup_insert_ne by done. done.
    + intros b Hb. destruct (decide (b = m)) as [->|]; [set_solver|]. apply elem_of_union. right.
      apply (rr_used _ _ _ _ Hr). set_solver.
Qed.

(** What is left of a range of [n] bytes at [st] when [len] bytes are taken
    from its front. *)
Definition rest (st n len : Z) : list (Z * Z) := if len <? n then [(u32 (st + len), u32 (n - len))] else [].

Lemma range_carve_spec s P l1 a l2 L1 st n L2 len :
  ranges_rep s P (l1 ++ a :: l2) (L1 ++ (st, n) :: L2) -> length l1 = length L1 ->
  (len < n -> sp_free P <> ∅) ->
  wp (range_carve (place_of l1) len) s (fun m s' => m = a /\
    (exists nx, rg_range s' !! a = Some (mk_range st (Z.min len n) nx)) /\
    exists P' l', (P' = P \/ exists b, b ∈ sp_free P /\ P' = taken b P) /\ a ∈ sp_used P' /\ a ∉ l' /\
      ranges_rep s' P' l' (L1 ++ rest st n len ++ L2)).
Proof.
  intros Hr Hlen Hfree. pose proof (rep_at _ _ _ _ _ _ _ _ Hr Hlen) as (H1 & Ha & Hnd & Hau & nx & Hax & H2).
  cbn in Hax. pose proof Hnd as Hnd0. apply NoDup_app in Hnd as (Hnd1 & Hd & Hnd2).
  rewrite NoDup_cons in Hnd2. destruct Hnd2 as [Hal2 _]. assert (Hal1 : a ∉ l1) by (intros ?; eapply Hd; [done|set_solver]).
  unfold range_carve, rest. apply wpe_bind. eapply wpe_ok; [by eapply get_place_spec|].
  apply wpe_bind. eapply wpe_read; [done|]. cbn [ar_len ar_next].
  destruct (Z.ltb_spec len n).
  - apply wpe_bind, wpe_bind.
    eapply wpe_mono; [apply (split_spec _ P st n nx); [apply Hr|done..]|cbn beta|done].
    intros m s1 [(_ & _ & _ & He & _)|(Hm & HmF & Hp & HF & HR)]; [by destruct Hfree|].
    pose proof (fresh_block _ _ _ _ _ Hr HmF) as Hml. assert (Hma : m <> a) by set_solver.
    apply wpe_bind. eapply wpe_read; [rewrite HR; apply lookup_insert_eq|].
    unfold upd_range. apply wpe_bind, wpe_bind. eapply wpe_read.
    { rewrite HR, lookup_insert_ne by done. apply lookup_insert_eq. }
    apply wpe_modify. cbn [ar_next].
    destruct (put_place_spec (set_rg_range (alter (set_ar_next nx) m (rg_range s1)) s1) l1 L1 a m) as (R & f & Hrun & HRf & Hout);
      [|done|].
    { cbn. rewrite HF. eapply rseg_ext; [|exact H1]. intros b Hb. assert (b <> m) by set_solver.
      assert (b <> a) by (by intros ->). rewrite lookup_alter_ne, HR, !lookup_insert_ne by done. done. }
    eapply wpe_ok; [exact Hrun|]. apply wpe_ret. split; [done|]. cbn in Hout. split.
    { exists nx. cbn. rewrite Hout, lookup_alter_ne, HR, lookup_insert_eq by done. by rewrite Z.min_l by lia. }
    exists (taken m P), (l1 ++ m :: l2). split; [by right; exists m|]. split; [set_solver|]. split; [set_solver|].
    constructor; cbn.
    + done.
    + apply rseg_app; [done|]. exists m. split; [done|]. split_and!; [done..|]. exists nx.
      rewrite Hout by set_solver. rewrite lookup_alter_eq, HR, lookup_insert_ne, lookup_insert_eq by done. split; [done|].
      eapply rseg_ext; [|exact H2]. intros b Hb. assert (b <> m) by set_solver. assert (b <> a) by set_solver.
      rewrite Hout, lookup_alter_ne, HR, !lookup_insert_ne; [done..|]. intros ?. apply (Hd b); [done|set_solver].
    + intros b Hb. destruct (decide (b = m)) as [->|]; [set_solver|]. apply elem_of_union. right.
      apply (rr_used _ _ _ _ Hr). set_solver.
  - destruct (put_place_spec s l1 L1 a nx H1 Hnd1) as (R & f & Hrun & HRf & Hout).
    apply wpe_bind. eapply wpe_ok; [exact Hrun|]. apply wpe_ret. split; [done|].
    split; [exists nx; cbn; rewrite Hout, Z.min_r by (done || lia); done|].
    exists P, (l1 ++ l2). split; [by left|]. split; [done|]. split; [set_solver|]. constructor; cbn [rg_pool rg_range rg_free].
    + apply Hr.
    + apply rseg_app; [done|]. exists nx. split; [done|]. eapply rseg_ext; [|exact H2]. intros b Hb. apply Hout.
      intros ?. apply (Hd b); [done|set_solver].
    + intros b Hb. apply (rr_used _ _ _ _ Hr). set_solver.
Qed.
End segments.

(** ** Bytes *)
Section bytes.
Implicit Types (L : list (Z * Z)) (x : Z * Z) (b st n : Z).

Lemma covers_nil b : covers [] b <-> False.
Proof. unfold covers. set_solver. Qed.
Lemma covers_cons x L b : covers (x :: L) b <-> in_range x b \/ covers L b.
Proof. unfold covers. set_solver. Qed.
Lemma covers_app L1 L2 b : covers (L1 ++ L2) b <-> covers L1 b \/ covers L2 b.
Proof. unfold covers. set_solver. Qed.
Lemma apart_app L1 L2 : apart (L1 ++ L2) <-> apart L1 /\ apart L2 /\ forall b, covers L1 b -> ~ covers L2 b.
Proof.
  induction L1 as [|x L1 IH]; cbn; [split; [intros; split_and!; try done; by intros ? ?%covers_nil|tauto]|].
  rewrite IH. setoid_rewrite covers_app. setoid_rewrite covers_cons. naive_solver.
Qed.
End bytes.
#[export] Hint Rewrite covers_nil covers_cons covers_app apart_app : ranges.

(** Replacing a range by ranges of some of its bytes. *)
Lemma replace_apart L1 x L2 K : apart (L1 ++ x :: L2) -> apart K -> (forall b, covers K b -> in_range x b) ->
  apart (L1 ++ K ++ L2).
Proof.
  intros H HK Hin. change (x :: L2) with ([x] ++ L2) in H. rewrite !apart_app in *.
  destruct H as (H1 & (H2 & H3 & H4) & H5). split_and!; try done.
  - intros b Hb. apply H4. apply covers_cons. left. by apply Hin.
  - intros b Hb [HbK|Hb2]%covers_app; apply (H5 b Hb), covers_app; [left|by right].
    apply covers_cons. left. by apply Hin.
Qed.

(** What remains of a range of [n] bytes at [st] when the bytes from [start]
    to [start + len] are taken out of it. *)
Definition before (st start : Z) : list (Z * Z) := if st <? start then [(st, start - st)] else [].
Definition remains (st n start len : Z) : list (Z * Z) :=
  before st start ++ rest start (u32 (n - (start - st))) len.

Lemma remains_spec st n start len : 0 <= st <= start -> 0 < len -> start + len <= st + n -> st + n < 2 ^ 32 ->
  ranges_ok (remains st n start len) /\ apart (remains st n start len) /\
  (forall b, covers (remains st n start len) b <-> in_range (st, n) b /\ ~ in_range (start, len) b).
Proof.
  intros. unfold remains, before, rest, ranges_ok. rewrite (u32_small (n - _)) by lia.
  destruct (Z.ltb_spec st start), (Z.ltb_spec len (n - (start - st)));
    rewrite ?(u32_small (start + len)), ?(u32_small (n - (start - st) - len)) by lia;
    (split; [repeat constructor; cbn; lia|]; split;
      [cbn; unfold in_range; repeat setoid_rewrite covers_cons; repeat setoid_rewrite covers_nil; unfold in_range; cbn; naive_solver lia|];
      intros b; autorewrite with ranges; unfold in_range; cbn; rewrite ?covers_nil, ?covers_cons; unfold in_range; cbn; lia).
Qed.

(** ** The two searches *)
Section searches.
Implicit Types (l : list Z) (L K : list (Z * Z)) (s : ranges) (P : pool_spec) (start len : Z).

Definition rval s m : option (Z * Z) := (fun r => (ar_start r, ar_len r)) <$> rg_range s !! m.

(** The range at [m] was taken out of the list. *)
Definition got (s : ranges) (P : pool_spec) (m : Z) (x : Z * Z) (L : list (Z * Z)) : Prop :=
  m <> NIL /\ rval s m = Some x /\ exists P' l, m ∈ sp_used P' /\ m ∉ l /\
    (base.size (sp_free P) <= base.size (sp_free P') + 2)%nat /\ ranges_rep s P' l L.

Lemma size_taken P m : m ∈ sp_free P -> base.size (sp_free P) = S (base.size (sp_free (taken m P))).
Proof.
  intros Hm. cbn. rewrite size_difference, size_singleton by set_solver.
  assert (base.size (sp_free P) <> 0%nat) by (intros ?%size_empty_inv; set_solver). lia.
Qed.

Lemma free_some P : (1 <= base.size (sp_free P))%nat -> sp_free P <> ∅.
Proof. intros H E. rewrite E, size_empty in H. lia. Qed.

(** From the range that was chosen, both searches go on in the same way. *)
Lemma carve_got s P l1 a l2 L1 st n L2 len :
  ranges_rep s P (l1 ++ a :: l2) (L1 ++ (st, n) :: L2) -> length l1 = length L1 ->
  (1 <= base.size (sp_free P))%nat ->
  wp (range_carve (place_of l1) len) s (fun m s' =>
    m <> NIL /\ rval s' m = Some (st, Z.min len n) /\ exists P' l, m ∈ sp_used P' /\ m ∉ l /\
      (base.size (sp_free P) <= base.size (sp_free P') + 1)%nat /\
      ranges_rep s' P' l (L1 ++ rest st n len ++ L2)).
Proof.
  intros Hr Hlen Hsz. pose proof (rep_at _ _ _ _ _ _ _ _ Hr Hlen) as (_ & Ha & _).
  eapply wpe_mono; [apply (range_carve_spec _ _ _ _ _ _ _ _ _ _ Hr Hlen); intros; by apply free_some|cbn beta|done].
  intros m s' (-> & (nx & Hx) & P' & l & HP & Hu & Hl & Hr'). split; [done|]. split; [unfold rval; by rewrite Hx|].
  exists P', l. split_and!; try done. destruct HP as [->|(b & Hb & ->)]; [lia|]. rewrite (size_taken P b Hb). lia.
Qed.

Lemma choose_spec s P l1 a l2 L1 st n L2 x off len :
  ranges_rep s P (l1 ++ a :: l2) (L1 ++ (st, n) :: L2) -> length l1 = length L1 ->
  (2 <= base.size (sp_free P))%nat -> 0 <= st -> off = u32 (x - st) -> u32 x = x ->
  wp (if st <? x then
        let* f := range_cut (place_of l1) a off in
        match f with None => ret NIL | Some f => range_carve f len end
      else range_carve (place_of l1) len)%c s
    (fun m s' => if st <? x
       then got s' P m (x, Z.min len (u32 (n - off))) (L1 ++ (st, off) :: rest x (u32 (n - off)) len ++ L2)
       else got s' P m (st, Z.min len n) (L1 ++ rest st n len ++ L2)).
Proof.
  intros Hr Hlen Hsz Hst -> Hx. destruct (Z.ltb_spec st x).
  - apply wpe_bind. eapply wpe_mono; [by apply (range_cut_spec s P l1 a l2 L1 st n L2)|cbn beta|done].
    intros f s1 [(_ & He & _)|(m & -> & Hm & Hr1)]; [rewrite He, size_empty in Hsz; lia|].
    rewrite (size_taken P m Hm) in Hsz.
    pose proof (u32_bound x). rewrite (u32_small (x - st)) in * by lia. replace (st + (x - st)) with x in Hr1 by lia.
    rewrite Hx in Hr1. change (a :: m :: l2) with ([a] ++ m :: l2) in Hr1. rewrite app_assoc in Hr1.
    change ((st, x - st) :: ?k) with ([(st, x - st)] ++ k) in Hr1. rewrite app_assoc in Hr1.
    eapply wpe_mono; [apply (carve_got _ _ _ _ _ _ _ _ _ _ Hr1); [rewrite !length_app; cbn; lia|lia]|cbn beta|done].
    intros r s' (Hnz & Hv & P' & l & Hu & Hl & Hs & Hr'). rewrite <-app_assoc in Hr'.
    split; [done|]. split; [done|]. exists P', l. split_and!; try done. rewrite (size_taken P m Hm). lia.
  - eapply wpe_mono; [apply (carve_got _ _ _ _ _ _ _ _ _ _ Hr Hlen); lia|cbn beta|done].
    intros r s' (Hnz & Hv & P' & l & Hu & Hl & Hs & Hr').
    split; [done|]. split; [done|]. exists P', l. split_and!; try done. lia.
Qed.

Lemma next_place l1 a : Next a = place_of (l1 ++ [a]).
Proof. unfold place_of. by rewrite last_snoc. Qed.

Lemma rep_cons s P l1 l2 L1 L2 : ranges_rep s P (l1 ++ l2) (L1 ++ L2) -> length l1 = length L1 ->
  exists h, get_place (place_of l1) s = Ok h s /\
    match l2, L2 with
    | [], [] => h = NIL
    | a :: _, x :: _ => h = a /\ a <> NIL /\ exists nx, rg_range s !! a = Some (mk_range x.1 x.2 nx)
    | _, _ => False
    end.
Proof.
  intros [_ Hl _] Hlen. apply rseg_app in Hl as (h & H1 & H2); [|done]. exists h.
  split; [by eapply get_place_spec|]. destruct l2, L2; try done. cbn in H2. naive_solver.
Qed.

(** addr_range_get from the ranges [L2] on. *)
Lemma addr_range_get_loop_spec s P l1 l2 L1 L2 fuel start len :
  ranges_rep s P (l1 ++ l2) (L1 ++ L2) -> length l1 = length L1 -> (length l2 < fuel)%nat ->
  ranges_ok L2 -> 0 <= start -> 0 < len -> start + len < 2 ^ 32 -> (2 <= base.size (sp_free P))%nat ->
  wp (addr_range_get_loop fuel (place_of l1) start len) s (fun m s' =>
    (m = NIL /\ s' = s /\ (~ covers L2 start \/
       exists st n K1 K2, L2 = K1 ++ (st, n) :: K2 /\ in_range (st, n) start /\ st + n < start + len)) \/
    (exists st n K1 K2, L1 ++ L2 = K1 ++ (st, n) :: K2 /\ st <= start /\ start + len <= st + n /\
       got s' P m (start, len) (K1 ++ remains st n start len ++ K2))).
Proof.
  intros Hr Hlen Hfuel Hok Hst Hpos Hend Hsz. revert l1 l2 L1 L2 Hr Hlen Hfuel Hok.
  induction fuel as [|fuel IH]; intros; [lia|]. cbn [addr_range_get_loop].
  destruct (rep_cons _ _ _ _ _ _ Hr Hlen) as (h & Hget & Hh). apply wpe_bind. eapply wpe_ok; [exact Hget|].
  destruct l2 as [|a l2], L2 as [|[st n] L2]; try done.
  { rewrite Hh. apply wpe_ret. left. split; [done|]. split; [done|]. left. by intros ?%covers_nil. }
  destruct Hh as (-> & Ha & nx & Hax). cbn in Hax. apply Forall_cons in Hok as [Hx Hok]. cbn in Hx.
  rewrite (proj2 (Z.eqb_neq _ _)) by done. apply wpe_bind. eapply wpe_read; [exact Hax|]. cbn [ar_start ar_len].
  rewrite (u32_small (st + n)), (u32_small (start + len)) by lia.
  destruct ((st <=? start) && (start <? st + n)) eqn:Hin; cbn beta iota.
  - bdestruct_all. destruct (Z.ltb_spec (st + n) (start + len)).
    { apply wpe_ret. left. split; [done|]. split; [done|]. right. exists st, n, [], L2. split_and!; [done|unfold in_range; cbn; lia|lia]. }
    eapply wpe_mono; [apply (choose_spec s P l1 a l2 L1 st n L2 start (start - st) len Hr Hlen Hsz);
      rewrite ?u32_small; lia|cbn beta|done].
    intros m s' Hgot. right. exists st, n, L1, L2. split_and!; [done|lia|lia|]. unfold remains, before.
    destruct (Z.ltb_spec st start).
    + rewrite (u32_small (n - _)) in Hgot |- * by lia. rewrite Z.min_l in Hgot by lia. exact Hgot.
    + replace start with st in * by lia. rewrite Z.sub_diag, Z.sub_0_r, u32_small by lia. rewrite Z.min_l in Hgot by lia. exact Hgot.
  - rewrite (next_place l1). change (a :: l2) with ([a] ++ l2) in Hr. change ((st, n) :: L2) with ([(st, n)] ++ L2) in Hr |- *.
    rewrite !app_assoc in Hr.
    eapply wpe_mono; [apply (IH (l1 ++ [a]) l2 (L1 ++ [(st, n)]) L2 Hr); [rewrite !length_app; cbn; lia|cbn in Hfuel; lia|done]|cbn beta|done].
    assert (Hout : ~ in_range (st, n) start)
      by (unfold in_range; cbn; apply andb_false_iff in Hin as [Hin|Hin]; bdestruct_all; lia).
    intros m s' [(-> & -> & Hnone)|(st' & n' & K1 & K2 & HK & Hrest)].
    + left. split_and!; [done..|]. destruct Hnone as [Hc|(st' & n' & K1 & K2 & -> & Hk)].
      * left. cbn. rewrite covers_cons. tauto.
      * right. exists st', n', ((st, n) :: K1), K2. done.
    + right. exists st', n', K1, K2. rewrite app_assoc. done.
Qed.

(** addr_range_get_any from the ranges [L2] on: the test it makes of a range
    and what it takes out of the first range that passes. *)
Definition any_fits (len align : Z) (x : Z * Z) : Prop := len < u32 (align_up x.1 align - x.1 + x.2).
Definition any_got (s : ranges) (P : pool_spec) (m st n : Z) (K1 K2 : list (Z * Z)) (len align : Z) : Prop :=
  let a := align_up st align in
  if st <? a then
    got s P m (a, Z.min len (u32 (n - (a - st)))) (K1 ++ (st, a - st) :: rest a (u32 (n - (a - st))) len ++ K2)
  else got s P m (st, Z.min len n) (K1 ++ rest st n len ++ K2).

Lemma addr_range_get_any_loop_spec s P l1 l2 L1 L2 fuel len align :
  ranges_rep s P (l1 ++ l2) (L1 ++ L2) -> length l1 = length L1 -> (length l2 < fuel)%nat ->
  ranges_ok L2 -> (2 <= base.size (sp_free P))%nat ->
  wp (addr_range_get_any_loop fuel (place_of l1) len align) s (fun m s' =>
    (m = NIL /\ s' = s /\ Forall (fun x => ~ any_fits len align x) L2) \/
    (exists st n K1 K2, L2 = K1 ++ (st, n) :: K2 /\ Forall (fun x => ~ any_fits len align x) K1 /\
       any_fits len align (st, n) /\ any_got s' P m st n (L1 ++ K1) K2 len align)).
Proof.
  intros Hr Hlen Hfuel Hok Hsz. revert l1 l2 L1 L2 Hr Hlen Hfuel Hok.
  induction fuel as [|fuel IH]; intros; [lia|]. cbn [addr_range_get_any_loop].
  destruct (rep_cons _ _ _ _ _ _ Hr Hlen) as (h & Hget & Hh). apply wpe_bind. eapply wpe_ok; [exact Hget|].
  destruct l2 as [|x l2], L2 as [|[st n] L2]; try done.
  { rewrite Hh. apply wpe_ret. left. done. }
  destruct Hh as (-> & Hx & nx & Hax). cbn in Hax. apply Forall_cons in Hok as [Hb Hok]. cbn in Hb.
  rewrite (proj2 (Z.eqb_neq _ _)) by done. apply wpe_bind. eapply wpe_read; [exact Hax|]. cbn [ar_start ar_len].
  pose proof (align_up_bound st align). destruct (Z.ltb_spec len (u32 (align_up st align - st + n))).
  - eapply wpe_mono; [apply (choose_spec s P l1 x l2 L1 st n L2 (align_up st align) (u32 (align_up st align - st)) len Hr Hlen Hsz);
      rewrite ?(u32_small (align_up st align)); (done || lia)|cbn beta|done].
    intros m s' Hgot. right. exists st, n, [], L2. split_and!; [done..|]. rewrite app_nil_r. unfold any_got.
    cbv zeta. destruct (Z.ltb_spec st (align_up st align)); [|done].
    by rewrite (u32_small (align_up st align - st)) in Hgot by lia.
  - rewrite (next_place l1). change (x :: l2) with ([x] ++ l2) in Hr. change ((st, n) :: L2) with ([(st, n)] ++ L2) in Hr.
    rewrite !app_assoc in Hr.
    eapply wpe_mono; [apply (IH (l1 ++ [x]) l2 (L1 ++ [(st, n)]) L2 Hr); [rewrite !length_app; cbn; lia|cbn in Hfuel; lia|done]|cbn beta|done].
    assert (Hno : ~ any_fits len align (st, n)) by (unfold any_fits; cbn; lia).
    intros m s' [(-> & -> & Hnone)|(st' & n' & K1 & K2 & -> & HK1 & Hf & Hgot)].
    + left. split_and!; [done..|]. by constructor.
    + right. exists st', n', ((st, n) :: K1), K2. split_and!; [done|by constructor|done|].
      by rewrite <-app_assoc in Hgot.
Qed.
End searches.

(** ** Correctness *)

(** The free bytes after a range of [L] at [K1]/[K2] is replaced by [R]. *)
Lemma partition K1 x K2 R y : ranges_ok (K1 ++ x :: K2) -> apart (K1 ++ x :: K2) ->
  ranges_ok R -> apart R -> (forall b, covers R b <-> in_range x b /\ ~ in_range y b) ->
  (forall b, in_range y b -> in_range x b) ->
  ranges_ok (K1 ++ R ++ K2) /\ apart (K1 ++ R ++ K2) /\
  (forall b, covers (K1 ++ x :: K2) b <-> covers (K1 ++ R ++ K2) b \/ in_range y b) /\
  (forall b, in_range y b -> ~ covers (K1 ++ R ++ K2) b).
Proof.
  unfold ranges_ok. rewrite !Forall_app, Forall_cons. intros (? & ? & ?) Hap ? HR HRb Hy.
  split; [done|]. split; [eapply replace_apart; [done..|intros b Hb; by apply HRb]|]. split; intros b.
  - autorewrite with ranges. rewrite HRb. specialize (Hy b).
    assert (in_range y b \/ ~ in_range y b) by (unfold in_range; lia). tauto.
  - intros Hb. change (x :: K2) with ([x] ++ K2) in Hap. rewrite !apart_app in Hap.
    destruct Hap as (_ & (_ & _ & Hd2) & Hd1). specialize (Hy b Hb). autorewrite with ranges. rewrite HRb.
    intros [Hc|[Hc|Hc]]; [|tauto|].
    + apply (Hd1 b Hc). autorewrite with ranges. tauto.
    + apply (Hd2 b); [|done]. autorewrite with ranges. tauto.
Qed.

Lemma in_two L K1 x K2 y b : apart L -> L = K1 ++ x :: K2 -> in_range x b -> y ∈ L -> in_range y b -> y = x.
Proof.
  intros Hap -> Hx Hy Hyb. change (x :: K2) with ([x] ++ K2) in Hap. rewrite !apart_app in Hap.
  destruct Hap as (_ & (_ & _ & H2) & H1). apply elem_of_app in Hy as [Hy|[->|Hy]%elem_of_cons]; [|done|].
  - exfalso. apply (H1 b); [by exists y|]. autorewrite with ranges. tauto.
  - exfalso. apply (H2 b); [autorewrite with ranges; tauto|by exists y].
Qed.

(** C21: [addr_range_get] takes exactly the bytes asked for out of the free
    memory: when one free range holds them all it returns a range of just these
    bytes, and the bytes still free are the others, each in one range; when no free
    range holds them all it returns nil and changes nothing. *)
Theorem addr_range_get_correct s P l L start len :
  ranges_rep s P l L -> ranges_ok L -> apart L -> (2 <= base.size (sp_free P))%nat ->
  0 <= start -> 0 < len -> start + len < 2 ^ 32 ->
  wp (addr_range_get Head start len) s (fun m s' =>
    (m = NIL /\ s' = s /\ forall x, x ∈ L -> ~ (x.1 <= start /\ start + len <= x.1 + x.2)) \/
    (exists L', got s' P m (start, len) L' /\ ranges_ok L' /\ apart L' /\
       (forall b, covers L b <-> covers L' b \/ in_range (start, len) b) /\
       (forall b, in_range (start, len) b -> ~ covers L' b))).
Proof.
  intros Hr Hok Hap Hsz Hst Hlen Hend. unfold addr_range_get. apply wpe_bind, wpe_get.
  pose proof (rseg_size _ _ _ _ (rr_list _ _ _ _ Hr)).
  eapply wpe_mono; [apply (addr_range_get_loop_spec s P [] l [] L); (done || lia)|cbn beta|done].
  intros m s' [(-> & -> & Hnone)|(st & n & K1 & K2 & HL & H1 & H2 & Hgot)].
  - left. split_and!; [done..|]. intros [st n] Hx [H1 H2]. cbn in *.
    assert (Hin : in_range (st, n) start) by (unfold in_range; cbn; lia).
    destruct Hnone as [Hc|(st' & n' & K1 & K2 & HL & Hin' & Hshort)]; [apply Hc; by exists (st, n)|].
    pose proof (in_two L K1 _ K2 (st, n) start Hap HL Hin' Hx Hin) as [= -> ->]. lia.
  - right. cbn in HL. subst L. eexists. split; [exact Hgot|].
    assert (Hx : 0 <= st /\ 0 < n /\ st + n < 2 ^ 32).
    { unfold ranges_ok in Hok. rewrite Forall_app, Forall_cons in Hok. apply Hok. }
    destruct (remains_spec st n start len) as (? & ? & ?); [lia..|].
    apply partition; try done. intros b. unfold in_range. cbn. lia.
Qed.

Lemma align_up_id x k : 0 <= k < 32 -> 0 <= x < 2 ^ 32 -> x mod 2 ^ k = 0 -> x + 2 ^ k - 1 < 2 ^ 32 -> align_up x (2 ^ k) = x.
Proof.
  intros. assert (0 < 2 ^ k) by (apply Z.pow_pos_nonneg; lia). rewrite align_up_pow2 by lia.
  assert (E : x = 2 ^ k * (x / 2 ^ k)) by (apply Z_div_exact_full_2; lia).
  rewrite E at 1. replace (2 ^ k * (x / 2 ^ k) + 2 ^ k - 1) with (x / 2 ^ k * 2 ^ k + (2 ^ k - 1)) by lia.
  rewrite Z.div_add_l, (Z.div_small (2 ^ k - 1)) by lia. lia.
Qed.

(** When every free range starts at a multiple of the alignment,
    [addr_range_get_any] returns a range of the length asked for at such a multiple,
    taken out of the free memory: it was free, it no longer is, and all other bytes
    are as free as before.  It returns nil, changing nothing, exactly when no free
    range is longer than what is asked for -- one of just that length is not used. *)
Theorem addr_range_get_any_correct s P l L len k :
  ranges_rep s P l L -> ranges_ok L -> apart L -> (2 <= base.size (sp_free P))%nat -> 0 < len ->
  0 <= k < 32 -> (forall x, x ∈ L -> x.1 mod 2 ^ k = 0 /\ x.1 + 2 ^ k <= 2 ^ 32) ->
  wp (addr_range_get_any Head len (2 ^ k)) s (fun m s' =>
    (m = NIL /\ s' = s /\ forall x, x ∈ L -> x.2 <= len) \/
    (exists st L', st mod 2 ^ k = 0 /\ got s' P m (st, len) L' /\ ranges_ok L' /\ apart L' /\
       (forall b, covers L b <-> covers L' b \/ in_range (st, len) b) /\
       (forall b, in_range (st, len) b -> ~ covers L' b))).
Proof.
  intros Hr Hok Hap Hsz Hlen Hk Hal. unfold addr_range_get_any. apply wpe_bind, wpe_get.
  pose proof (rseg_size _ _ _ _ (rr_list _ _ _ _ Hr)).
  assert (Hx : forall x, x ∈ L -> 0 <= x.1 /\ 0 < x.2 /\ x.1 + x.2 < 2 ^ 32 /\ align_up x.1 (2 ^ k) = x.1).
  { intros x Hx. unfold ranges_ok in Hok. rewrite Forall_forall in Hok. specialize (Hok x Hx). destruct (Hal x Hx).
    split_and!; try lia. apply align_up_id; lia. }
  eapply wpe_mono; [apply (addr_range_get_any_loop_spec s P [] l [] L); (done || lia)|cbn beta|done].
  intros m s' [(-> & -> & Hnone)|(st & n & K1 & K2 & -> & _ & Hfit & Hgot)].
  - left. split_and!; [done..|]. intros x Hin. rewrite Forall_forall in Hnone. specialize (Hnone x Hin).
    destruct (Hx x Hin) as (? & ? & ? & E). unfold any_fits in Hnone. rewrite E, Z.sub_diag, u32_small in Hnone by lia. lia.
  - right. assert (Hin : (st, n) ∈ K1 ++ (st, n) :: K2) by set_solver.
    destruct (Hx _ Hin) as (H1 & H2 & H3 & E). cbn in H1, H2, H3, E. unfold any_fits, any_got in *. cbn [fst snd] in *.
    rewrite E, ?Z.sub_diag, Z.ltb_irrefl, ?u32_small in * by lia. rewrite Z.min_l in Hgot by lia.
    exists st. eexists. split; [by apply (Hal _ Hin)|]. split; [exact Hgot|].
    pose proof (remains_spec st n st len) as Hrem. unfold remains, before in Hrem.
    rewrite Z.ltb_irrefl, Z.sub_diag, Z.sub_0_r, (u32_small n) in Hrem by lia.
    destruct Hrem as (? & ? & ?); [lia..|]. apply partition; try done. intros b. unfold in_range. cbn. lia.
Qed.

(** The test [addr_range_get_any] makes of a range adds the padding in front
    to the length instead of subtracting it: asked for an alignment that a short
    range does not reach, it returns as free memory bytes that lie behind the range
    and were never free. *)
Theorem addr_range_get_any_escapes s P l L st n len k :
  ranges_rep s P l ((st, n) :: L) -> ranges_ok ((st, n) :: L) -> (2 <= base.size (sp_free P))%nat -> 0 < len ->
  0 <= k < 32 -> st + n < align_up st (2 ^ k) -> len < align_up st (2 ^ k) - st + n < 2 ^ 32 ->
  align_up st (2 ^ k) + len < 2 ^ 32 ->
  wp (addr_range_get_any Head len (2 ^ k)) s (fun m s' =>
    rval s' m = Some (align_up st (2 ^ k), len) /\
    forall b, in_range (align_up st (2 ^ k), len) b -> ~ in_range (st, n) b).
Proof.
  intros Hr Hok Hsz Hlen Hk Hshort Hfit Hend. unfold addr_range_get_any. apply wpe_bind, wpe_get.
  pose proof (rseg_size _ _ _ _ (rr_list _ _ _ _ Hr)). pose proof Hok as (Hx & _)%Forall_cons. cbn in Hx.
  assert (Hpass : any_fits len (2 ^ k) (st, n)) by (unfold any_fits; cbn; rewrite u32_small by lia; lia).
  eapply wpe_mono; [apply (addr_range_get_any_loop_spec s P [] l [] ((st, n) :: L)); (done || lia)|cbn beta|done].
  intros m s' [(_ & _ & [Hn _]%Forall_cons)|(st' & n' & K1 & K2 & HL & HK1 & _ & Hgot)]; [done|].
  destruct K1 as [|x K1]; injection HL as <- HL; [|subst; by apply Forall_cons in HK1 as [? _]].
  subst. unfold any_got in Hgot. cbv zeta in Hgot. rewrite (proj2 (Z.ltb_lt _ _)) in Hgot by lia.
  destruct Hgot as (_ & Hv & _). rewrite Hv. split.
  - do 2 f_equal. apply Z.min_l. unfold u32. rewrite <-(Z_mod_plus_full _ 1), Z.mod_small; lia.
  - intros b. unfold in_range. cbn. lia.
Qed.

(** *** Witnesses *)
Definition demo_mem : RM unit :=
  let* _ := on_pool (pool_load 0x8000 0x100) in add_ram 0x60001000 0x1000.
Definition demo_ranges0 : ranges := mk_ranges (mk_pool NIL NIL 0 20 ∅ ∅) ∅ NIL.
Definition demo_ranges : ranges := match demo_mem demo_ranges0 with Ok _ s => s | _ => demo_ranges0 end.

Lemma demo_rep : exists P l, ranges_rep demo_ranges P l [(0x60001000, 0x1000)] /\ (2 <= base.size (sp_free P))%nat.
Proof.
  assert (H : wp demo_mem demo_ranges0 (fun _ s => exists P l, ranges_rep s P l [(0x60001000, 0x1000)] /\
    (2 <= base.size (sp_free P))%nat)).
  { assert (Hrep : pool_rep 20 (rg_pool demo_ranges0) (mk_pool_spec ∅ ∅)).
    { destruct (pool_init_rep 12 (rg_pool demo_ranges0)) as [_ H]; [lia|done|]. exact H. }
    destruct (pool_load_spec 20 _ _ 0x8000 0x100 Hrep) as (r & P & p & Hrun & Hstep & Hp).
    { cbn. split_and!; [lia..|]. intros v. set_solver. }
    unfold demo_mem. apply wpe_bind, wpe_zoom. eapply wpe_ok; [exact Hrun|].
    inversion Hstep as [a len n Hn Hpos|a len Hsmall| | |]; subst; [|unfold sizeof_pool_frame in Hsmall; lia].
    match type of Hp with pool_rep _ _ ?X => set (P0 := X) in * end.
    assert (Hsize : base.size (sp_free P0) = 12%nat) by (vm_compute; reflexivity).
    eapply wpe_mono; [apply (add_ram_spec _ P0 [] [])|cbn beta|done].
    - constructor; [by exists 20|done|]. intros a Ha%elem_of_nil. destruct Ha.
    - apply free_some. rewrite Hsize. lia.
    - intros _ s (m & Hm & Hr). eexists _, _. split; [exact Hr|]. rewrite (size_taken _ _ Hm) in Hsize. lia. }
  unfold demo_ranges. apply wp_inv in H as ([] & s & -> & H). exact H.
Qed.

Lemma addr_range_get_correct_witness : exists P l,
  ranges_rep demo_ranges P l [(0x60001000, 0x1000)] /\
  wp (addr_range_get Head 0x60001400 0x200) demo_ranges (fun m s' =>
    (m = NIL /\ s' = demo_ranges /\ forall x, x ∈ [(0x60001000, 0x1000)] -> ~ (x.1 <= 0x60001400 /\ 0x60001400 + 0x200 <= x.1 + x.2)) \/
    (exists L', got s' P m (0x60001400, 0x200) L' /\ ranges_ok L' /\ apart L' /\
       (forall b, covers [(0x60001000, 0x1000)] b <-> covers L' b \/ in_range (0x60001400, 0x200) b) /\
       (forall b, in_range (0x60001400, 0x200) b -> ~ covers L' b))).
Proof.
  destruct demo_rep as (P & l & Hr & Hs). exists P, l. split; [exact Hr|].
  apply (addr_range_get_correct demo_ranges P l); [exact Hr| | |exact Hs|lia..].
  - repeat constructor; cbn; lia.
  - split; [|exact I]. intros b _ Hc. by apply covers_nil in Hc.
Defined.

Lemma addr_range_get_any_correct_witness : exists P l,
  ranges_rep demo_ranges P l [(0x60001000, 0x1000)] /\
  wp (addr_range_get_any Head 0x200 (2 ^ 12)) demo_ranges (fun m s' =>
    (m = NIL /\ s' = demo_ranges /\ forall x, x ∈ [(0x60001000, 0x1000)] -> x.2 <= 0x200) \/
    (exists st L', st mod 2 ^ 12 = 0 /\ got s' P m (st, 0x200) L' /\ ranges_ok L' /\ apart L' /\
       (forall b, covers [(0x60001000, 0x1000)] b <-> covers L' b \/ in_range (st, 0x200) b) /\
       (forall b, in_range (st, 0x200) b -> ~ covers L' b))).
Proof.
  destruct demo_rep as (P & l & Hr & Hs). exists P, l. split; [exact Hr|].
  apply (addr_range_get_any_correct demo_ranges P l); [exact Hr| | |exact Hs|lia|lia|].
  - repeat constructor; cbn; lia.
  - split; [|exact I]. intros b _ Hc. by apply covers_nil in Hc.
  - intros x Hx. apply list_elem_of_singleton in Hx as ->. split; [reflexivity|cbn; lia].
Defined.

(** A page at an odd address, and two pages asked for at a multiple of four. *)
Lemma addr_range_get_any_escapes_witness : exists P l,
  ranges_rep demo_ranges P l [(0x60001000, 0x1000)] /\
  wp (addr_range_get_any Head 0x2000 (2 ^ 14)) demo_ranges (fun m s' =>
    rval s' m = Some (align_up 0x60001000 (2 ^ 14), 0x2000) /\
    forall b, in_range (align_up 0x60001000 (2 ^ 14), 0x2000) b -> ~ in_range (0x60001000, 0x1000) b).
Proof.
  destruct demo_rep as (P & l & Hr & Hs). exists P, l. split; [exact Hr|].
  apply (addr_range_get_any_escapes demo_ranges P l [] 0x60001000 0x1000 0x2000 14); [exact Hr| |exact Hs|..].
  - repeat constructor; cbn; lia.
  - lia.
  - lia.
  - vm_compute. reflexivity.
  - vm_compute. split; reflexivity.
  - vm_compute. reflexivity.
Defined.
