(* ===== verification/HList.v ===== *)
(** * Lists whose nodes know the place that leads to them

    The spans of arm/lib/c/addr.c, and the first level ranges they lie in, are on
    lists where each node has a [holder]: the pointer, of type [struct span **],
    that leads to the node.  The code for the two is the same but for the type, so
    it is modelled once, over the keys [K] of the list heads. *)
From S2P Require Import Prelude.

Local Open Scope Z_scope.
Local Open Scope c_scope.

(** A place that leads to a node: a head of a list, or the [next] field of a node. *)
Inductive hplace (K : Type) := HHead (k : K) | HNext (a : Z).
Arguments HHead {K}.
Arguments HNext {K}.

Record hnode (K : Type) := mk_hnode { hn_va : Z; hn_len : Z; hn_holder : hplace K; hn_next : Z }.
Arguments mk_hnode {K}.
Arguments hn_va {K}.
Arguments hn_len {K}.
Arguments hn_holder {K}.
Arguments hn_next {K}.
Record hstore (K : Type) `{Countable K} := mk_hstore { hs_node : gmap Z (hnode K); hs_head : gmap K Z }.
Arguments mk_hstore {K _ _}.
Arguments hs_node {K _ _}.
Arguments hs_head {K _ _}.

Section operations.
Context {K : Type} `{Countable K}.
Implicit Types (x : hnode K) (s : hstore K).
Abbreviation HS := (M (hstore K)).

Definition set_hn_len v x : hnode K := mk_hnode (hn_va x) v (hn_holder x) (hn_next x).
Definition set_hn_holder v x : hnode K := mk_hnode (hn_va x) (hn_len x) v (hn_next x).
Definition set_hn_next v x : hnode K := mk_hnode (hn_va x) (hn_len x) (hn_holder x) v.
Definition set_hs_node (v : gmap Z (hnode K)) s := mk_hstore v (hs_head s).
Definition set_hs_head (v : gmap K Z) s := mk_hstore (hs_node s) v.

Definition get_hnode (a : Z) : HS (hnode K) := read FNil (fun s => hs_node s !! a).
Definition put_hnode (a : Z) (x : hnode K) : HS unit := modify (fun s => set_hs_node (<[a := x]> (hs_node s)) s).
Definition upd_hnode (a : Z) (f : hnode K -> hnode K) : HS unit :=
  let* x := get_hnode a in put_hnode a (f x).
Definition get_hplace (p : hplace K) : HS Z :=
  match p with
  | HHead k => read FNil (fun s => hs_head s !! k)
  | HNext a => let* x := get_hnode a in ret (hn_next x)
  end.
Definition put_hplace (p : hplace K) (v : Z) : HS unit :=
  match p with
  | HHead k => modify (fun s => set_hs_head (<[k := v]> (hs_head s)) s)
  | HNext a => upd_hnode a (set_hn_next v)
  end.
(** [if (q) q->holder = p] *)
Definition rehold (q : Z) (p : hplace K) : HS unit :=
  if q =? NIL then ret tt else upd_hnode q (set_hn_holder p).

(** take_add_span and take_add_l1_span: a node goes from its list to another,
    behind the nodes at lower addresses. *)
Fixpoint add_loop (fuel : nat) (a : Z) (p : hplace K) : HS unit :=
  match fuel with
  | O => nofuel
  | S fuel =>
    let* q := get_hplace p in
    let put :=
      upd_hnode a (set_hn_next q) ;;;
      rehold q (HNext a) ;;;
      put_hplace p a ;;;
      upd_hnode a (set_hn_holder p) in
    if q =? NIL then put
    else
      let* x := get_hnode a in
      let* y := get_hnode q in
      if hn_va x <? hn_va y then put else add_loop fuel a (HNext q)
  end.
Definition hfuel : HS nat := gets (fun s => S (base.size (hs_node s))).
Definition take_add (a : Z) (nl : hplace K) : HS unit :=
  let* x := get_hnode a in
  put_hplace (hn_holder x) (hn_next x) ;;;
  rehold (hn_next x) (hn_holder x) ;;;
  let* f := hfuel in
  add_loop f a nl.

(** split_span and split_l1_span, with the new node [n]. *)
Definition split_at (a n len : Z) : HS unit :=
  let* x := get_hnode a in
  put_hnode n (mk_hnode (u32 (hn_va x + len)) (u32 (hn_len x - len)) (HNext a) (hn_next x)) ;;;
  rehold (hn_next x) (HNext n) ;;;
  upd_hnode a (set_hn_next n) ;;;
  upd_hnode a (set_hn_len len).
End operations.

(** ** What the links stand for *)
Section segments.
Context {K : Type} `{Countable K}.
Implicit Types (x y : hnode K) (s : hstore K) (p : hplace K) (k : K) (a h e : Z) (l : list Z) (N : gmap Z (hnode K)).

(** [hseg N p h l e]: from [h], which is what [p] holds, the links pass the nodes
    [l] and lead to [e]; each node's holder is the place before it. *)
Fixpoint hseg N p h l e : Prop :=
  match l with
  | [] => h = e
  | a :: l => h = a /\ a <> NIL /\ exists x, N !! a = Some x /\ hn_holder x = p /\ hseg N (HNext a) (hn_next x) l e
  end.
Definition hlist s k l : Prop := exists h, hs_head s !! k = Some h /\ hseg (hs_node s) (HHead k) h l NIL.
Definition hplace_of p l : hplace K := match last l with None => p | Some a => HNext a end.
Definition range_of N a : option (Z * Z) := (fun x => (hn_va x, hn_len x)) <$> N !! a.

Lemma hplace_of_snoc p l a : hplace_of p (l ++ [a]) = HNext a.
Proof. unfold hplace_of. by rewrite last_snoc. Qed.

Lemma hplace_of_cons p l a : hplace_of (HNext a) l = hplace_of p (a :: l).
Proof. unfold hplace_of. destruct l as [|b l]; [done|]. rewrite last_cons_cons. destruct (last (b :: l)) eqn:E; [done|].
  by apply last_None in E. Qed.

Lemma hseg_ext N N' p h l e : (forall a, a ∈ l -> N' !! a = N !! a) -> hseg N p h l e -> hseg N' p h l e.
Proof.
  revert p h. induction l as [|a l IH]; intros p h Hx; cbn; [done|]. intros (-> & Ha & x & Hn & Hp & Hl).
  split_and!; [done..|]. exists x. rewrite Hx by set_solver. split_and!; [done..|]. apply IH; [|done]. set_solver.
Qed.

Lemma hseg_app N p h l1 l2 e : hseg N p h (l1 ++ l2) e <-> exists m, hseg N p h l1 m /\ hseg N (hplace_of p l1) m l2 e.
Proof.
  revert p h. induction l1 as [|a l1 IH]; intros p h; cbn [app hseg].
  - split; [eauto|]. by intros (? & -> & ?).
  - setoid_rewrite IH. setoid_rewrite (hplace_of_cons p). split.
    + intros (-> & ? & x & ? & ? & m & ? & ?). exists m. eauto 10.
    + intros (m & (-> & ? & x & ? & ? & ?) & ?). split_and!; [done..|]. eauto 10.
Qed.

Lemma hseg_elem N p h l e a : hseg N p h l e -> a ∈ l -> a <> NIL /\ is_Some (N !! a).
Proof.
  revert p h. induction l as [|b l IH]; intros p h; cbn; [set_solver|].
  intros (-> & ? & x & ? & ? & ?) [->|?]%elem_of_cons; [eauto|]. by eapply IH.
Qed.

Lemma hseg_det N p h l p' l' : hseg N p h l NIL -> hseg N p' h l' NIL -> l = l'.
Proof.
  revert p p' h l'. induction l as [|a l IH]; intros p p' h [|b l']; cbn; [done|naive_solver|naive_solver|].
  intros (-> & _ & x & Hx & _ & Hl) (<- & _ & x' & Hx' & _ & Hl'). assert (x' = x) as -> by congruence.
  f_equal. by eapply IH.
Qed.

Lemma hseg_NoDup N p h l : hseg N p h l NIL -> NoDup l.
Proof.
  revert p h. induction l as [|a l IH]; intros p h Hl; [constructor|].
  pose proof Hl as (-> & Ha & x & Hx & Hp & Hl'). constructor; [|by eapply IH]. intros Hin.
  apply list_elem_of_split in Hin as (l2 & l3 & ->).
  apply (hseg_app _ _ _ (a :: l2)) in Hl as (m & _ & Hm). assert (m = a) as -> by apply Hm.
  assert (E : a :: l3 = a :: l2 ++ a :: l3).
  { eapply (hseg_det N _ a); [exact Hm|]. cbn. split_and!; [done..|]. by exists x. }
  apply (f_equal length) in E. cbn in E. rewrite length_app in E. cbn in E. lia.
Qed.

Lemma hseg_size N p h l : hseg N p h l NIL -> (length l <= base.size N)%nat.
Proof.
  intros Hl. pose proof (hseg_NoDup _ _ _ _ Hl) as Hnd.
  rewrite <-size_dom, <-(size_list_to_set (C:=gset Z)) by done. apply subseteq_size.
  intros a Ha%elem_of_list_to_set. apply elem_of_dom. by eapply hseg_elem.
Qed.

(** Writing the last link. *)
Lemma get_hplace_spec s k h l e : hs_head s !! k = Some h -> hseg (hs_node s) (HHead k) h l e ->
  get_hplace (hplace_of (HHead k) l) s = Ok e s.
Proof.
  intros Hk Hs. destruct l as [|a l _] using rev_ind.
  - cbn in *. subst. by apply read_ok.
  - rewrite hplace_of_snoc. apply hseg_app in Hs as (m & _ & (-> & _ & x & Hx & _ & <-)). cbn.
    unfold get_hnode. by erewrite bind_ok by by apply read_ok.
Qed.

(** What an operation leaves alone: the heads that are not in [ks], the nodes that
    are not in [T], and the addresses and lengths of all. *)
Record hframe (ks : list K) (T : list Z) s s' : Prop := {
  hf_head : forall k, k ∉ ks -> hs_head s' !! k = hs_head s !! k;
  hf_node : forall a, a ∉ T -> hs_node s' !! a = hs_node s !! a;
  hf_range : forall a, range_of (hs_node s') a = range_of (hs_node s) a
}.

Lemma hframe_refl ks T s : hframe ks T s s.
Proof. by constructor. Qed.

Lemma hframe_trans ks T s1 s2 s3 : hframe ks T s1 s2 -> hframe ks T s2 s3 -> hframe ks T s1 s3.
Proof.
  intros [H1 H2 H3] [H4 H5 H6]. constructor; intros.
  - by rewrite H4, H1.
  - by rewrite H5, H2.
  - by rewrite H6, H3.
Qed.

Lemma hframe_weaken ks ks' T T' s s' : hframe ks T s s' -> (forall k, k ∈ ks -> k ∈ ks') -> (forall a, a ∈ T -> a ∈ T') ->
  hframe ks' T' s s'.
Proof. intros [H1 H2 H3] Hk Ht. constructor; [|intros a Ha; apply H2; auto|done]. intros k Hk'. apply H1. auto. Qed.

Lemma hlist_frame ks T s s' k l : hframe ks T s s' -> hlist s k l -> k ∉ ks -> (forall a, a ∈ l -> a ∉ T) -> hlist s' k l.
Proof.
  intros [H1 H2 _] (h & Hk & Hs) Hks Hl. exists h. rewrite H1 by done. split; [done|].
  eapply hseg_ext; [|exact Hs]. intros a Ha. apply H2, Hl, Ha.
Qed.

Lemma hlist_det s k l l' : hlist s k l -> hlist s k l' -> l = l'.
Proof. intros (h & Hk & Hs) (h' & Hk' & Hs'). assert (h' = h) as -> by congruence. by eapply hseg_det. Qed.

Lemma hlist_NoDup s k l : hlist s k l -> NoDup l.
Proof. intros (h & _ & Hs). by eapply hseg_NoDup. Qed.

Lemma hlist_elem s k l a : hlist s k l -> a ∈ l -> a <> NIL /\ exists x, hs_node s !! a = Some x.
Proof. intros (h & _ & Hs) Ha. by eapply hseg_elem in Ha as [? [x ?]]; [split; [|exists x]|]. Qed.

(** Changing a node but for its address and length. *)
Lemma upd_hnode_spec s a x f : hs_node s !! a = Some x -> hn_va (f x) = hn_va x -> hn_len (f x) = hn_len x ->
  exists s', upd_hnode a f s = Ok tt s' /\ hframe [] [a] s s' /\ hs_node s' !! a = Some (f x) /\ hs_head s' = hs_head s.
Proof.
  intros Ha Hv Hl. eexists. split; [|split; [|split]].
  - unfold upd_hnode, get_hnode. by erewrite bind_ok by by apply read_ok.
  - constructor; cbn; [done|intros; apply lookup_insert_ne; set_solver|]. intros b. unfold range_of.
    destruct (decide (b = a)) as [->|]; [|by rewrite lookup_insert_ne].
    rewrite lookup_insert_eq, Ha. cbn. by rewrite Hv, Hl.
  - cbn. apply lookup_insert_eq.
  - done.
Qed.

Lemma rehold_spec s p p' q l : hseg (hs_node s) p q l NIL ->
  exists s', rehold q p' s = Ok tt s' /\ hseg (hs_node s') p' q l NIL /\ hframe [] l s s' /\ hs_head s' = hs_head s.
Proof.
  intros Hs. pose proof (hseg_NoDup _ _ _ _ Hs) as Hnd. unfold rehold. destruct l as [|a l].
  - cbn in Hs. subst. exists s. split; [done|]. split; [done|]. split; [apply hframe_refl|done].
  - destruct Hs as (-> & Ha & x & Hx & _ & Hl). rewrite (proj2 (Z.eqb_neq _ _)) by done.
    destruct (upd_hnode_spec s a x (set_hn_holder p')) as (s' & Hrun & Hf & Hx' & Hh); [done..|].
    exists s'. split; [done|]. split; [|split; [|done]].
    + cbn. split; [done|]. split; [done|]. eexists. split; [exact Hx'|]. split; [done|]. cbn.
      eapply hseg_ext; [|exact Hl]. intros b Hb. apply (hf_node _ _ _ _ Hf). apply NoDup_cons in Hnd as [Hnd _].
      set_solver.
    + eapply hframe_weaken; [exact Hf|done|]. set_solver.
Qed.

Lemma put_hplace_spec s k h l e v : hs_head s !! k = Some h -> hseg (hs_node s) (HHead k) h l e -> NoDup l ->
  exists s', put_hplace (hplace_of (HHead k) l) v s = Ok tt s' /\ hframe [k] l s s' /\
    (exists h', hs_head s' !! k = Some h' /\ hseg (hs_node s') (HHead k) h' l v).
Proof.
  intros Hk Hs Hnd. destruct l as [|a l _] using rev_ind.
  - eexists. split; [done|]. split; [|exists v; split; [apply lookup_insert_eq|done]].
    constructor; cbn; [|done|done]. intros k' Hk'. apply lookup_insert_ne. set_solver.
  - rewrite hplace_of_snoc. apply hseg_app in Hs as (m & H1 & (-> & Ha & x & Hx & Hp & <-)).
    apply NoDup_snoc in Hnd as [_ Hal].
    destruct (upd_hnode_spec s a x (set_hn_next v)) as (s' & Hrun & Hf & Hx' & Hh); [done..|].
    exists s'. split; [done|]. split; [eapply hframe_weaken; [exact Hf|set_solver..]|].
    exists h. rewrite Hh. split; [done|]. apply hseg_app. exists a. split.
    + eapply hseg_ext; [|exact H1]. intros b Hb. apply (hf_node _ _ _ _ Hf). set_solver.
    + cbn. split; [done|]. split; [done|]. eexists. split; [exact Hx'|]. done.
Qed.

(** A node is taken off its list. *)
Lemma detach_spec s k pre a post : hlist s k (pre ++ a :: post) ->
  exists x s', hs_node s !! a = Some x /\
    (put_hplace (hn_holder x) (hn_next x) ;;; rehold (hn_next x) (hn_holder x)) s = Ok tt s' /\
    hlist s' k (pre ++ post) /\ hframe [k] (pre ++ post) s s'.
Proof.
  intros (h & Hk & Hs). pose proof (hseg_NoDup _ _ _ _ Hs) as Hnd. apply NoDup_app in Hnd as (Hnd & Hd & Hnd2).
  apply hseg_app in Hs as (m & H1 & (-> & Ha & x & Hx & Hp & H2)). apply NoDup_cons in Hnd2 as [Hap _].
  destruct (put_hplace_spec s k h pre a (hn_next x)) as (s1 & Hrun1 & Hf1 & h1 & Hk1 & Hs1); [done..|].
  assert (Hpost : hseg (hs_node s1) (HNext a) (hn_next x) post NIL).
  { eapply hseg_ext; [|exact H2]. intros b Hb. apply (hf_node _ _ _ _ Hf1). intros Hin. by apply (Hd b Hin), elem_of_cons; right. }
  destruct (rehold_spec s1 _ (hplace_of (HHead k) pre) _ _ Hpost) as (s2 & Hrun2 & Hs2 & Hf2 & Hh2).
  exists x, s2. split; [done|]. rewrite Hp. split; [by erewrite bind_ok by exact Hrun1|]. split.
  - exists h1. rewrite Hh2. split; [done|]. apply hseg_app. exists (hn_next x). split; [|done].
    eapply hseg_ext; [|exact Hs1]. intros b Hb. apply (hf_node _ _ _ _ Hf2). intros Hin.
    by apply (Hd b Hb), elem_of_cons; right.
  - eapply hframe_trans; (eapply hframe_weaken; [eassumption|set_solver|set_solver]).
Qed.

(** A node is put between two others. *)
Lemma attach_spec s k h pre q post a x : hs_head s !! k = Some h -> hseg (hs_node s) (HHead k) h pre q ->
  hseg (hs_node s) (hplace_of (HHead k) pre) q post NIL -> NoDup (pre ++ post) -> a ∉ pre ++ post ->
  hs_node s !! a = Some x -> a <> NIL ->
  exists s', (upd_hnode a (set_hn_next q) ;;; rehold q (HNext a) ;;;
      put_hplace (hplace_of (HHead k) pre) a ;;; upd_hnode a (set_hn_holder (hplace_of (HHead k) pre))) s = Ok tt s' /\
    hlist s' k (pre ++ a :: post) /\ hframe [k] (a :: pre ++ post) s s'.
Proof.
  intros Hk Hpre Hpost (Hnd & Hd & _)%NoDup_app [Ha1 Ha2]%not_elem_of_app Hx Ha.
  destruct (upd_hnode_spec s a x (set_hn_next q)) as (s1 & Hrun1 & Hf1 & Hx1 & Hh1); [done..|].
  assert (Hpost1 : hseg (hs_node s1) (hplace_of (HHead k) pre) q post NIL).
  { eapply hseg_ext; [|exact Hpost]. intros b Hb. apply (hf_node _ _ _ _ Hf1). set_solver. }
  destruct (rehold_spec s1 _ (HNext a) _ _ Hpost1) as (s2 & Hrun2 & Hpost2 & Hf2 & Hh2).
  destruct (put_hplace_spec s2 k h pre q a) as (s3 & Hrun3 & Hf3 & h3 & Hk3 & Hpre3); [by rewrite Hh2, Hh1| |done|].
  { eapply hseg_ext; [|exact Hpre]. intros b Hb. rewrite (hf_node _ _ _ _ Hf2), (hf_node _ _ _ _ Hf1); [done|set_solver|].
    intros Hin. by apply (Hd b). }
  assert (Hx3 : hs_node s3 !! a = Some (set_hn_next q x)).
  { by rewrite (hf_node _ _ _ _ Hf3), (hf_node _ _ _ _ Hf2). }
  destruct (upd_hnode_spec s3 a _ (set_hn_holder (hplace_of (HHead k) pre)) Hx3) as (s4 & Hrun4 & Hf4 & Hx4 & Hh4); [done..|].
  exists s4. split; [|split].
  - erewrite bind_ok by exact Hrun1. erewrite bind_ok by exact Hrun2. by erewrite bind_ok by exact Hrun3.
  - exists h3. rewrite Hh4. split; [done|]. apply hseg_app. exists a. split.
    + eapply hseg_ext; [|exact Hpre3]. intros b Hb. apply (hf_node _ _ _ _ Hf4). set_solver.
    + cbn. split; [done|]. split; [done|]. eexists. split; [exact Hx4|]. split; [done|]. cbn.
      eapply hseg_ext; [|exact Hpost2]. intros b Hb. rewrite (hf_node _ _ _ _ Hf4), (hf_node _ _ _ _ Hf3); [done| |].
      * intros Hin. by apply (Hd b).
      * set_solver.
  - eapply hframe_trans; [eapply hframe_trans; [eapply hframe_trans|]|];
      (eapply hframe_weaken; [eassumption|set_solver|set_solver]).
Qed.

(** The place the loop finds: behind the nodes at lower addresses. *)
Definition va_of s a : Z := default 0 (hn_va <$> hs_node s !! a).
Definition in_order s (pre : list Z) a (post : list Z) : Prop :=
  Forall (fun b => va_of s b <= va_of s a) pre /\
  match post with [] => True | b :: _ => va_of s a < va_of s b end.

Lemma add_loop_spec s k h a x : hs_head s !! k = Some h -> hs_node s !! a = Some x -> a <> NIL ->
  forall fuel pre q post, (length post < fuel)%nat -> hseg (hs_node s) (HHead k) h pre q ->
  hseg (hs_node s) (hplace_of (HHead k) pre) q post NIL -> NoDup (pre ++ post) -> a ∉ pre ++ post ->
  Forall (fun b => va_of s b <= va_of s a) pre ->
  wp (add_loop fuel a (hplace_of (HHead k) pre)) s (fun _ s' => exists l1 l2, pre ++ post = l1 ++ l2 /\
    hlist s' k (l1 ++ a :: l2) /\ in_order s l1 a l2 /\ hframe [k] (a :: pre ++ post) s s').
Proof.
  intros Hk Hx Ha. induction fuel as [|fuel IH]; intros pre q post Hf Hpre Hpost Hnd Hna Hle; [lia|].
  cbn [add_loop]. apply wpe_bind. eapply wpe_ok; [by eapply get_hplace_spec|]. cbn beta zeta.
  destruct (attach_spec s k h pre q post a x) as (s' & Hrun & Hl & Hfr); [done..|].
  assert (Hput : in_order s pre a post -> wp (upd_hnode a (set_hn_next q) ;;; rehold q (HNext a) ;;;
      put_hplace (hplace_of (HHead k) pre) a ;;; upd_hnode a (set_hn_holder (hplace_of (HHead k) pre))) s
    (fun _ s' => exists l1 l2, pre ++ post = l1 ++ l2 /\
      hlist s' k (l1 ++ a :: l2) /\ in_order s l1 a l2 /\ hframe [k] (a :: pre ++ post) s s')).
  { intros Ho. eapply wpe_ok; [exact Hrun|]. by exists pre, post. }
  destruct post as [|b post].
  { cbn in Hpost. rewrite (proj2 (Z.eqb_eq q NIL) Hpost). apply Hput. by split. }
  pose proof Hpost as (-> & Hb & y & Hy & Hp & Hpost'). rewrite (proj2 (Z.eqb_neq _ _)) by done.
  unfold get_hnode. apply wpe_bind. eapply wpe_read; [exact Hx|]. apply wpe_bind. eapply wpe_read; [exact Hy|].
  assert (Ev : va_of s a = hn_va x /\ va_of s b = hn_va y) by (unfold va_of; by rewrite Hx, Hy). destruct Ev as [Eva Evb].
  wstep.
  - apply Z.ltb_lt in Hb0. apply Hput. split; [done|]. by rewrite Eva, Evb.
  - apply Z.ltb_ge in Hb0. replace (pre ++ b :: post) with ((pre ++ [b]) ++ post) in * by (by rewrite <-app_assoc).
    replace (HNext b) with (hplace_of (HHead k) (pre ++ [b])) by apply hplace_of_snoc.
    apply (IH _ (hn_next y) post); [cbn in Hf; lia| | |done|done|].
    + apply hseg_app. exists b. split; [done|]. cbn. eauto 10.
    + by rewrite hplace_of_snoc.
    + apply Forall_app. split; [done|]. constructor; [|done]. rewrite Eva, Evb. lia.
Qed.

(** A node moves from one list to another. *)
Lemma take_add_spec s k1 k2 pre a post l : k1 <> k2 -> hlist s k1 (pre ++ a :: post) -> hlist s k2 l ->
  (forall b, b ∈ pre ++ a :: post -> b ∉ l) ->
  wp (take_add a (HHead k2)) s (fun _ s' => exists l1 l2, l = l1 ++ l2 /\ in_order s l1 a l2 /\
    hlist s' k1 (pre ++ post) /\ hlist s' k2 (l1 ++ a :: l2) /\ hframe [k1; k2] (pre ++ a :: post ++ l) s s').
Proof.
  intros Hne H1 H2 Hd. destruct (hlist_elem _ _ _ a H1) as [Ha _]; [set_solver|].
  pose proof (hlist_NoDup _ _ _ H1) as (_ & Hnd1 & Hnd2)%NoDup_app. apply NoDup_cons in Hnd2 as [Hap _].
  destruct (detach_spec s k1 pre a post H1) as (x & s1 & Hx & Hrun & Hl1 & Hf1).
  assert (Hapre : a ∉ pre) by (intros Hin; apply (Hnd1 a Hin); set_solver).
  assert (Hx1 : hs_node s1 !! a = Some x) by (rewrite (hf_node _ _ _ _ Hf1) by set_solver; done).
  assert (Hl2 : hlist s1 k2 l).
  { eapply hlist_frame; [exact Hf1|exact H2|set_solver|]. intros b Hb Hin. apply (Hd b); [set_solver|done]. }
  pose proof (hlist_NoDup _ _ _ Hl2) as Hndl.
  destruct Hl2 as (h & Hk & Hs). unfold take_add. apply wpe_bind. eapply wpe_read; [exact Hx|].
  apply wpe_bind. unfold bind in Hrun. destruct (put_hplace _ _ _) as [[] s0|w s0| |] eqn:E0; [|done..].
  eapply wpe_ok; [exact E0|]. cbn beta. apply wpe_bind. eapply wpe_ok; [exact Hrun|]. cbn beta.
  apply wpe_bind, wpe_gets. pose proof (hseg_size _ _ _ _ Hs).
  eapply wpe_mono; [apply (add_loop_spec s1 k2 h a x Hk Hx1 Ha _ [] h l); [lia|done|done|done|set_solver|done]|cbn beta|done].
  intros _ s2 (l1 & l2 & El & Hl' & Ho & Hf2). exists l1, l2. split; [exact El|].
  assert (Hva : forall b, va_of s1 b = va_of s b).
  { intros b. pose proof (hf_range _ _ _ _ Hf1 b) as Hr. unfold range_of, va_of in *.
    destruct (hs_node s1 !! b), (hs_node s !! b); naive_solver. }
  split; [|split; [|split; [done|]]].
  - destruct Ho as [Ho1 Ho2]. split; [eapply Forall_impl; [exact Ho1|]; intros b; by rewrite !Hva|].
    destruct l2; [done|]. by rewrite <-!Hva.
  - eapply hlist_frame; [exact Hf2|exact Hl1|set_solver|]. intros b Hb Hin. cbn in Hin.
    apply elem_of_cons in Hin as [->|Hin]; [set_solver|]. apply (Hd b); [set_solver|done].
  - eapply hframe_trans; (eapply hframe_weaken; [eassumption|set_solver|set_solver]).
Qed.

(** A new node takes the upper part of one. *)
Lemma split_at_spec s k pre a post x n len : hlist s k (pre ++ a :: post) -> hs_node s !! a = Some x ->
  n <> NIL -> n ∉ pre ++ a :: post ->
  wp (split_at a n len) s (fun _ s' => hlist s' k (pre ++ a :: n :: post) /\ hs_head s' = hs_head s /\
    range_of (hs_node s') a = Some (hn_va x, len) /\
    range_of (hs_node s') n = Some (u32 (hn_va x + len), u32 (hn_len x - len)) /\
    (forall b, b <> a -> b <> n -> range_of (hs_node s') b = range_of (hs_node s) b) /\
    forall b, b <> n -> b ∉ a :: post -> hs_node s' !! b = hs_node s !! b).
Proof.
  intros Hl Hx Hn Hnin. pose proof (hlist_NoDup _ _ _ Hl) as (_ & Hd & Hnd2)%NoDup_app.
  apply NoDup_cons in Hnd2 as [Hap _]. destruct Hl as (h & Hk & Hs).
  apply hseg_app in Hs as (m & Hpre & (-> & Ha & x' & Hx' & Hp & Hpost)). assert (x' = x) as -> by congruence.
  unfold split_at, get_hnode. apply wpe_bind. eapply wpe_read; [exact Hx|]. unfold put_hnode. apply wpe_bind, wpe_modify.
  set (nn := mk_hnode (u32 (hn_va x + len)) (u32 (hn_len x - len)) (HNext a) (hn_next x)).
  set (s1 := set_hs_node (<[n := nn]> (hs_node s)) s).
  assert (E1 : forall b, b <> n -> hs_node s1 !! b = hs_node s !! b) by (intros; by apply lookup_insert_ne).
  assert (Hpost1 : hseg (hs_node s1) (HNext a) (hn_next x) post NIL).
  { eapply hseg_ext; [|exact Hpost]. intros b Hb. apply E1. set_solver. }
  destruct (rehold_spec s1 _ (HNext n) _ _ Hpost1) as (s2 & Hrun & Hpost2 & Hf2 & Hh2).
  apply wpe_bind. eapply wpe_ok; [exact Hrun|]. cbn beta.
  assert (Ea : hs_node s2 !! a = Some x) by (rewrite (hf_node _ _ _ _ Hf2), E1; [done|set_solver..]).
  assert (En : hs_node s2 !! n = Some nn) by (rewrite (hf_node _ _ _ _ Hf2); [apply lookup_insert_eq|set_solver]).
  assert (Han : a <> n) by set_solver.
  apply wpe_bind. unfold upd_hnode, get_hnode, put_hnode. apply wpe_bind. eapply wpe_read; [exact Ea|].
  apply wpe_modify, wpe_bind. eapply wpe_read; [cbn; apply lookup_insert_eq|]. apply wpe_modify.
  cbn [hs_node hs_head set_hs_node]. rewrite insert_insert_eq. set (aa := set_hn_len len (set_hn_next n x)).
  split; [|split; [by rewrite Hh2|split; [|split; [|split]]]].
  - exists h. cbn. rewrite Hh2. split; [done|]. apply hseg_app. exists a. split.
    + eapply hseg_ext; [|exact Hpre]. intros b Hb. assert (b <> a) by (intros ->; apply (Hd a Hb); set_solver).
      rewrite lookup_insert_ne, (hf_node _ _ _ _ Hf2), E1; [done|set_solver| |done].
      intros Hin. apply (Hd b Hb). set_solver.
    + cbn. split; [done|]. split; [done|]. exists aa. rewrite lookup_insert_eq. split; [done|]. split; [done|].
      split; [done|]. split; [done|]. exists nn. rewrite lookup_insert_ne by done. split; [done|]. split; [done|].
      eapply hseg_ext; [|exact Hpost2]. intros b Hb. apply lookup_insert_ne. intros ->. done.
  - unfold range_of. by rewrite lookup_insert_eq.
  - unfold range_of. by rewrite lookup_insert_ne, En.
  - intros b Hba Hbn. pose proof (hf_range _ _ _ _ Hf2 b) as Hr. unfold range_of in *. rewrite lookup_insert_ne by done.
    by rewrite Hr, E1.
  - intros b Hbn Hba. rewrite lookup_insert_ne by set_solver. rewrite (hf_node _ _ _ _ Hf2) by set_solver. by apply E1.
Qed.
End segments.
