(* ===== verification/Addr.v ===== *)
(** * The address space of a process, arm/lib/c/addr.c

    A process keeps the addresses it may map at as first level ranges, the parts
    of the address space that have a second level table and those that have none,
    and, in each range with a table, spans that are mapped and spans that are
    free.  The fields [free] and [mapped] of a range are the heads of the lists
    of its spans; they are kept with the spans.  The kernel and the parent are an
    interface, [Space]. *)
From S2P Require Import Prelude KState Mmu Pool HList.

Local Open Scope Z_scope.
Local Open Scope c_scope.

Inductive l1_list := l1_free | l1_mapped.
Inductive span_list := sp_list_free | sp_list_mapped.
#[export] Instance l1_list_eq_dec : EqDecision l1_list.
Proof. solve_decision. Defined.
#[export] Instance span_list_eq_dec : EqDecision span_list.
Proof. solve_decision. Defined.
#[export] Program Instance l1_list_countable : Countable l1_list :=
  inj_countable' (fun x => match x with l1_free => true | l1_mapped => false end)
    (fun b : bool => if b then l1_free else l1_mapped) _.
Next Obligation. by intros []. Qed.
#[export] Program Instance span_list_countable : Countable span_list :=
  inj_countable' (fun x => match x with sp_list_free => true | sp_list_mapped => false end)
    (fun b : bool => if b then sp_list_free else sp_list_mapped) _.
Next Obligation. by intros []. Qed.

(** [struct l1_span] and [struct span]. *)
Abbreviation l1_span := (hnode l1_list).
Abbreviation span := (hnode (Z * span_list)).
Definition sizeof_l1_span : Z := 24.
Definition sizeof_span : Z := 16.
Definition l1_span_initial_size : Z := sizeof_pool_frame + (sizeof_l1_span + sizeof_pool_obj) * 4.
Definition span_initial_size : Z := sizeof_pool_frame + (sizeof_span + sizeof_pool_obj) * 8.

(** What the process calls, and where its parts were linked. *)
Class Space (E : Type) := {
  request_memory : Z -> Z -> M E Z;
  release_memory : Z -> M E unit;
  frame_info : Z -> M E (Z * Z * Z * Z);
  frame_map : Z -> Z -> Z -> M E Z;
  frame_unmap : Z -> Z -> Z -> M E Z;
  frame_l2_map : Z -> Z -> Z -> M E Z;
  frame_l2_unmap : Z -> Z -> Z -> M E Z;
  l1_span_pool_initial : Z;
  span_pool_initial : Z;
  text_start : Z;
  data_end : Z
}.

Record addrs (E : Type) := mk_addrs {
  l1_span_pool : pool;
  span_pool : pool;
  ad_l1 : hstore l1_list;
  ad_span : hstore (Z * span_list);
  initialized : bool;
  checking : bool;
  ad_env : E
}.
Arguments mk_addrs {E}.
Arguments l1_span_pool {E}.
Arguments span_pool {E}.
Arguments ad_l1 {E}.
Arguments ad_span {E}.
Arguments initialized {E}.
Arguments checking {E}.
Arguments ad_env {E}.

Section operations.
Context {E : Type} `{Space E}.
Implicit Types (t : addrs E).
Abbreviation AM := (M (addrs E)).

Definition set_l1_span_pool (v : pool) t := mk_addrs v (span_pool t) (ad_l1 t) (ad_span t) (initialized t) (checking t) (ad_env t).
Definition set_span_pool (v : pool) t := mk_addrs (l1_span_pool t) v (ad_l1 t) (ad_span t) (initialized t) (checking t) (ad_env t).
Definition set_ad_l1 (v : hstore l1_list) t := mk_addrs (l1_span_pool t) (span_pool t) v (ad_span t) (initialized t) (checking t) (ad_env t).
Definition set_ad_span (v : hstore (Z * span_list)) t := mk_addrs (l1_span_pool t) (span_pool t) (ad_l1 t) v (initialized t) (checking t) (ad_env t).
Definition set_initialized (v : bool) t := mk_addrs (l1_span_pool t) (span_pool t) (ad_l1 t) (ad_span t) v (checking t) (ad_env t).
Definition set_checking (v : bool) t := mk_addrs (l1_span_pool t) (span_pool t) (ad_l1 t) (ad_span t) (initialized t) v (ad_env t).
Definition set_ad_env (v : E) t := mk_addrs (l1_span_pool t) (span_pool t) (ad_l1 t) (ad_span t) (initialized t) (checking t) v.

Definition on_l1_pool {A} (m : M pool A) : AM A := zoom l1_span_pool set_l1_span_pool m.
Definition on_span_pool {A} (m : M pool A) : AM A := zoom span_pool set_span_pool m.
Definition on_l1 {A} (m : M (hstore l1_list) A) : AM A := zoom ad_l1 set_ad_l1 m.
Definition on_span {A} (m : M (hstore (Z * span_list)) A) : AM A := zoom ad_span set_ad_span m.
Definition on_env {A} (m : M E A) : AM A := zoom ad_env set_ad_env m.

(** All fields of a node at [a] are written. *)
Definition write_node {K} `{Countable K} (a : Z) (x : hnode K) : M (hstore K) unit :=
  if a =? NIL then fail FNil else put_hnode a x.

(** ** Operations *)
Definition addr_init : AM unit :=
  on_l1_pool (pool_init sizeof_l1_span) ;;;
  on_span_pool (pool_init sizeof_span) ;;;
  on_l1_pool (pool_load l1_span_pool_initial l1_span_initial_size) ;;;
  on_span_pool (pool_load span_pool_initial span_initial_size) ;;;
  let* lm := on_l1_pool pool_alloc in
  on_l1 (put_hplace (HHead l1_mapped) lm) ;;;
  let* lf := on_l1_pool pool_alloc in
  on_l1 (put_hplace (HHead l1_free) lf) ;;;
  let va := TABLE_ALIGN_DN text_start in
  let len := u32 (TABLE_ALIGN data_end - va) in
  on_l1 (write_node lm (mk_hnode va len (HHead l1_mapped) NIL)) ;;;
  let* m := on_span_pool pool_alloc in
  on_span (put_hplace (HHead (lm, sp_list_mapped)) m) ;;;
  let mva := PAGE_ALIGN_DN text_start in
  let mlen := u32 (PAGE_ALIGN data_end - mva) in
  on_span (write_node m (mk_hnode mva mlen (HHead (lm, sp_list_mapped)) NIL)) ;;;
  let* f := on_span_pool pool_alloc in
  on_span (put_hplace (HHead (lm, sp_list_free)) f) ;;;
  let fva := u32 (mva + mlen) in
  on_span (write_node f (mk_hnode fva (u32 (va + len - fva)) (HHead (lm, sp_list_free)) NIL)) ;;;
  let lva := u32 (va + len) in
  on_l1 (write_node lf (mk_hnode lva (u32 (0xff000000 - lva)) (HHead l1_free) NIL)) ;;;
  on_span (put_hplace (HHead (lf, sp_list_free)) NIL) ;;;
  on_span (put_hplace (HHead (lf, sp_list_mapped)) NIL) ;;;
  modify (set_initialized true).

Definition take_add_span (s : Z) (nl : Z * span_list) : AM unit := on_span (take_add s (HHead nl)).
Definition take_add_l1_span (s : Z) (nl : l1_list) : AM unit := on_l1 (take_add s (HHead nl)).

Definition split_span (s len : Z) : AM Z :=
  let* n := on_span_pool pool_alloc in
  if n =? NIL then ret ERR
  else on_span (split_at s n len) ;;; ret OK.

Definition split_l1_span (s len : Z) : AM Z :=
  let* n := on_l1_pool pool_alloc in
  if n =? NIL then ret ERR
  else
    on_l1 (split_at s n len) ;;;
    on_span (put_hplace (HHead (n, sp_list_mapped)) NIL) ;;;
    on_span (put_hplace (HHead (n, sp_list_free)) NIL) ;;;
    ret OK.

(** The loops over the free spans, for the shortest that is long enough: [fs],
    in the range [fl]. *)
Definition better {K} `{Countable K} (len0 : hnode K -> bool) (a best : Z) : M (hstore K) bool :=
  let* x := get_hnode a in
  if len0 x then
    if best =? NIL then ret true
    else let* y := get_hnode best in ret (hn_len x <? hn_len y)
  else ret false.
Fixpoint span_search (fuel : nat) (len l s fl fs : Z) : AM (Z * Z) :=
  if s =? NIL then ret (fl, fs)
  else
    match fuel with
    | O => nofuel
    | S fuel =>
      let* b := on_span (better (fun x => len <=? hn_len x) s fs) in
      let* x := on_span (get_hnode s) in
      if b then span_search fuel len l (hn_next x) l s
      else span_search fuel len l (hn_next x) fl fs
    end.
Definition span_fuel : AM nat := on_span hfuel.
Definition l1_fuel : AM nat := on_l1 hfuel.
(** The last component is the loop variable [s] when the loops are over; it has
    no value before the inner one was entered. *)
Fixpoint l1_search (fuel : nat) (len l fl fs : Z) (s : option Z) : AM (Z * Z * option Z) :=
  if l =? NIL then ret (fl, fs, s)
  else
    match fuel with
    | O => nofuel
    | S fuel =>
      let* h := on_span (get_hplace (HHead (l, sp_list_free))) in
      let* f := span_fuel in
      let* (fl, fs) := span_search f len l h fl fs in
      let* x := on_l1 (get_hnode l) in
      l1_search fuel len (hn_next x) fl fs (Some NIL)
    end.

(** The loop over the ranges without tables. *)
Fixpoint reserve_search (fuel : nat) (len l fl : Z) : AM Z :=
  if l =? NIL then ret fl
  else
    match fuel with
    | O => nofuel
    | S fuel =>
      let* b := on_l1 (better (fun x => len <? hn_len x) l fl) in
      let* x := on_l1 (get_hnode l) in
      reserve_search fuel len (hn_next x) (if b then l else fl)
    end.

(** The end of both ways: [len] bytes of the free span [fs] are taken. *)
Definition use_span (len fl fs : Z) : AM Z :=
  let* x := on_span (get_hnode fs) in
  let* r := if len <? hn_len x then split_span fs len else ret OK in
  if negb (r =? OK) then ret NIL
  else take_add_span fs (fl, sp_list_mapped) ;;; ret fs.

(** A range that just got its table has one span, as long as the range. *)
Definition new_span (len fl : Z) (s : option Z) : AM Z :=
  let* fs := on_span_pool pool_alloc in
  if fs =? NIL then ret NIL
  else
    let* x := on_l1 (get_hnode fl) in
    on_span (write_node fs (mk_hnode (hn_va x) (hn_len x) (HHead (fl, sp_list_free)) NIL)) ;;;
    match s with
    | None => fail FNil
    | Some s => on_span (put_hplace (HHead (fl, sp_list_free)) s) ;;; use_span len fl fs
    end.

(** A range gets a table: the part of get_free_span_slot behind "need a new l1
    span". *)
Definition new_l1 (len : Z) (s : option Z) : AM Z :=
  let* h := on_l1 (get_hplace (HHead l1_free)) in
  let* f := l1_fuel in
  let* fl := reserve_search f len h NIL in
  if fl =? NIL then ret NIL
  else
    let tlen := u32 (Z.shiftr (TABLE_ALIGN len) TABLE_SHIFT * TABLE_SIZE) in
    let* fid := on_env (request_memory tlen 0x1000) in
    if fid <? 0 then ret NIL
    else
      let* x := on_l1 (get_hnode fl) in
      let* r := on_env (frame_l2_map CID_L1 fid (hn_va x)) in
      if negb (r =? OK) then on_env (release_memory fid) ;;; ret NIL
      else
        let* r := if TABLE_ALIGN len <? hn_len x then split_l1_span fl (TABLE_ALIGN len) else ret OK in
        if negb (r =? OK) then
          let* _ := on_env (frame_l2_unmap CID_L1 fid (hn_va x)) in
          on_env (release_memory fid) ;;;
          ret NIL
        else
          take_add_l1_span fl l1_mapped ;;;
          new_span len fl s.

Definition get_free_span_slot (len : Z) : AM Z :=
  let* h := on_l1 (get_hplace (HHead l1_mapped)) in
  let* f := l1_fuel in
  let* (fl, fs, s) := l1_search f len h NIL NIL None in
  if negb (fs =? NIL) then use_span len fl fs else new_l1 len s.

(** The calls that grow a pool need an address themselves: [map] is
    frame_map_anywhere. *)
Definition grow_pool (map : Z -> AM Z) (load : Z -> Z -> AM Z) (size : AM Z) : AM bool :=
  let* sz := size in
  let len := PAGE_ALIGN (u32 (sizeof_pool_frame + sz * 64)) in
  let* fid := on_env (request_memory len 0x1000) in
  if fid <? 0 then ret false
  else
    let* va := map fid in
    if va =? NIL then on_env (release_memory fid) ;;; ret false
    else let* r := load va len in ret (r =? OK).
Definition check_pools (map : Z -> AM Z) : AM bool :=
  let* s := get in
  if checking s then ret true
  else
    modify (set_checking true) ;;;
    let* n := on_l1_pool pool_n_free in
    let* r :=
      if n <? 3 then grow_pool map (fun a n => on_l1_pool (pool_load a n)) (on_l1_pool pool_obj_size)
      else ret true in
    let* n := on_span_pool pool_n_free in
    let* r :=
      if r && (n <? 4) then grow_pool map (fun a n => on_span_pool (pool_load a n)) (on_span_pool pool_obj_size)
      else ret r in
    modify (set_checking false) ;;;
    ret r.

(** [depth] bounds the recursion through check_pools. *)
Fixpoint map_anywhere (depth : nat) (fid : Z) : AM Z :=
  match depth with
  | O => nofuel
  | S depth =>
    let* s := get in
    (if initialized s then ret tt else addr_init) ;;;
    let* ok := check_pools (map_anywhere depth) in
    if negb ok then ret NIL
    else
      let* (r, type, pa, len) := on_env (frame_info fid) in
      if negb (r =? OK) then ret NIL
      else
        let* s := get_free_span_slot len in
        if s =? NIL then ret NIL
        else
          let* x := on_span (get_hnode s) in
          let* r := on_env (frame_map CID_L1 fid (hn_va x)) in
          if negb (r =? OK) then ret NIL else ret (hn_va x)
  end.
Definition frame_map_anywhere (fid : Z) : AM Z := map_anywhere 2 fid.

Fixpoint find_l1 (fuel : nat) (va l : Z) : AM Z :=
  if l =? NIL then ret NIL
  else
    match fuel with
    | O => nofuel
    | S fuel =>
      let* x := on_l1 (get_hnode l) in
      if (hn_va x <=? va) && (va <? u32 (hn_va x + hn_len x)) then ret l
      else find_l1 fuel va (hn_next x)
    end.
Fixpoint find_span (fuel : nat) (va s : Z) : AM Z :=
  if s =? NIL then ret NIL
  else
    match fuel with
    | O => nofuel
    | S fuel =>
      let* x := on_span (get_hnode s) in
      if hn_va x =? va then ret s else find_span fuel va (hn_next x)
    end.
Definition unmap_addr (fid va : Z) : AM Z :=
  let* s := get in
  if negb (initialized s) then ret ERR
  else
    let* h := on_l1 (get_hplace (HHead l1_mapped)) in
    let* f := l1_fuel in
    let* l := find_l1 f va h in
    if l =? NIL then ret ERR
    else
      let* h := on_span (get_hplace (HHead (l, sp_list_mapped))) in
      let* f := span_fuel in
      let* s := find_span f va h in
      if s =? NIL then ret ERR
      else
        take_add_span s (l, sp_list_free) ;;;
        on_env (frame_unmap CID_L1 fid va).
End operations.
