(* ===== verification/AddrProps.v ===== *)
(** * What the address space keeps true

    [addr_rep t g]: the lists are those of the ghost state [g], the ranges on them
    lie apart and inside what they belong to, and the nodes are blocks in use of
    their pools.  [busy] are the bytes of the spans that are mapped, [idle] those
    of the free spans and [reserve] those of the ranges without a table. *)
From stdpp Require Import functions.
From S2P Require Import Prelude KState Mmu Pool HList Addr.
From S2P Require Ranges.

Local Open Scope Z_scope.
Local Open Scope c_scope.
Import Ranges (in_range, taken).

Record ghost := mk_ghost {
  g_l1 : l1_list -> list Z;
  g_sp : Z * span_list -> list Z;
  g_p1 : pool_spec;
  g_p2 : pool_spec
}.
Definition l1_block : Z := sizeof_pool_obj + sizeof_l1_span.
Definition span_block : Z := sizeof_pool_obj + sizeof_span.
Definition SPACE_END : Z := 0xff000000.

Section reps.
Context {E : Type}.
Implicit Types (t : addrs E) (g : ghost) (a b l n x : Z) (r : Z * Z).

Definition l1r t a : Z * Z := default (0, 0) (range_of (hs_node (ad_l1 t)) a).
Definition spr t a : Z * Z := default (0, 0) (range_of (hs_node (ad_span t)) a).
Definition is_l1 g a : Prop := exists k, a ∈ g_l1 g k.
Definition is_span g l a : Prop := exists side, a ∈ g_sp g (l, side).

Definition l1_range_ok r : Prop :=
  (TABLE_AREA | r.1) /\ (TABLE_AREA | r.2) /\ 0 <= r.1 /\ 0 < r.2 /\ r.1 + r.2 <= SPACE_END.
Definition span_range_ok (outer r : Z * Z) : Prop :=
  (PAGE_SIZE | r.1) /\ (PAGE_SIZE | r.2) /\ 0 < r.1 /\ 0 <= r.2 /\ outer.1 <= r.1 /\ r.1 + r.2 <= outer.1 + outer.2.

Record addr_rep t g : Prop := {
  ar_p1 : pool_rep l1_block (l1_span_pool t) (g_p1 g);
  ar_p2 : pool_rep span_block (span_pool t) (g_p2 g);
  ar_l1 : forall k, hlist (ad_l1 t) k (g_l1 g k);
  ar_l1_disj : forall a, a ∈ g_l1 g l1_mapped -> a ∈ g_l1 g l1_free -> False;
  ar_l1_used : forall a, is_l1 g a -> a ∈ sp_used (g_p1 g);
  ar_sp : forall l side, is_l1 g l -> hlist (ad_span t) (l, side) (g_sp g (l, side));
  ar_sp_in : forall l a, is_span g l a -> l ∈ g_l1 g l1_mapped;
  ar_sp_disj : forall k k' a, a ∈ g_sp g k -> a ∈ g_sp g k' -> k = k';
  ar_sp_used : forall l a, is_span g l a -> a ∈ sp_used (g_p2 g);
  ar_l1_ok : forall a, is_l1 g a -> l1_range_ok (l1r t a);
  ar_l1_pos : forall a, a ∈ g_l1 g l1_free -> 0 < (l1r t a).1;
  ar_l1_apart : forall a a' x, is_l1 g a -> is_l1 g a' -> in_range (l1r t a) x -> in_range (l1r t a') x -> a = a';
  ar_sp_ok : forall l a, is_span g l a -> span_range_ok (l1r t l) (spr t a);
  ar_sp_apart : forall l l' a a' x, is_span g l a -> is_span g l' a' ->
    in_range (spr t a) x -> in_range (spr t a') x -> a = a'
}.

Definition bytes side t g x : Prop := exists l a, a ∈ g_sp g (l, side) /\ in_range (spr t a) x.
Abbreviation busy := (bytes sp_list_mapped).
Abbreviation idle := (bytes sp_list_free).
Definition reserve t g x : Prop := exists l, l ∈ g_l1 g l1_free /\ in_range (l1r t l) x.

(** The spans change and nothing else does. *)
Record spans_only t t' g g' : Prop := {
  so_init : initialized t' = initialized t;
  so_checking : checking t' = checking t;
  so_env : ad_env t' = ad_env t;
  so_l1 : ad_l1 t' = ad_l1 t;
  so_p1 : l1_span_pool t' = l1_span_pool t;
  so_gl1 : g_l1 g' = g_l1 g;
  so_gp1 : g_p1 g' = g_p1 g
}.

Lemma not_busy_idle t g x : addr_rep t g -> busy t g x -> idle t g x -> False.
Proof.
  intros Hr (l & a & Ha & Hx) (l' & a' & Ha' & Hx').
  assert (a = a') as <- by (eapply (ar_sp_apart _ _ Hr l l'); [by eexists|by eexists|done|done]).
  by pose proof (ar_sp_disj _ _ Hr _ _ _ Ha Ha').
Qed.

Lemma span_in_l1 t g l a x : addr_rep t g -> is_span g l a -> in_range (spr t a) x -> in_range (l1r t l) x.
Proof. intros Hr Ha Hx. destruct (ar_sp_ok _ _ Hr _ _ Ha) as (_ & _ & _ & _ & ? & ?). unfold in_range in *. lia. Qed.

Lemma not_span_reserve t g l a x : addr_rep t g -> is_span g l a -> in_range (spr t a) x -> reserve t g x -> False.
Proof.
  intros Hr Ha Hx (l' & Hl' & Hx'). pose proof (ar_sp_in _ _ Hr _ _ Ha) as Hl.
  assert (l = l') as <-; [|by eapply (ar_l1_disj _ _ Hr)].
  eapply (ar_l1_apart _ _ Hr); [by eexists|by eexists|by eapply span_in_l1|done].
Qed.

Lemma span_unique t g k k' a : addr_rep t g -> a ∈ g_sp g k -> a ∈ g_sp g k' -> k = k'.
Proof. intros Hr. apply (ar_sp_disj _ _ Hr). Qed.

Lemma span_node t g l side a : addr_rep t g -> a ∈ g_sp g (l, side) -> exists y, hs_node (ad_span t) !! a = Some y /\
  spr t a = (hn_va y, hn_len y) /\ a <> NIL.
Proof.
  intros Hr Ha. assert (Hl : is_l1 g l) by (exists l1_mapped; eapply (ar_sp_in _ _ Hr); by eexists).
  destruct (hlist_elem _ _ _ _ (ar_sp _ _ Hr l side Hl) Ha) as (Hn & y & Hy). exists y.
  split; [done|]. split; [|done]. unfold spr, range_of. by rewrite Hy.
Qed.

(** The lists of the spans change but for their members' ranges. *)
Lemma rep_respan t t' g g' : addr_rep t g -> spans_only t t' g g' -> span_pool t' = span_pool t -> g_p2 g' = g_p2 g ->
  (forall b, spr t' b = spr t b) ->
  (forall l side, is_l1 g l -> hlist (ad_span t') (l, side) (g_sp g' (l, side))) ->
  (forall l a, is_span g' l a -> is_span g l a) ->
  (forall k k' a, a ∈ g_sp g' k -> a ∈ g_sp g' k' -> k = k') -> addr_rep t' g'.
Proof.
  intros Hr [_ _ _ Hl1 Hp1 Hgl Hgp] Hp2 Hgp2 Hspr Hl Hin Hdisj.
  assert (Hl1r : forall b, l1r t' b = l1r t b) by (intros; unfold l1r; by rewrite Hl1).
  assert (His : forall a, is_l1 g' a -> is_l1 g a) by (intros a [k Hk]; exists k; by rewrite <-Hgl).
  constructor; intros; repeat (rewrite ?Hl1, ?Hp1, ?Hgl, ?Hgp, ?Hp2, ?Hgp2, ?Hspr, ?Hl1r in *); try (by eapply Hdisj).
  - apply Hr.
  - apply Hr.
  - apply Hr.
  - by eapply (ar_l1_disj _ _ Hr).
  - by apply (ar_l1_used _ _ Hr), His.
  - by apply Hl, His.
  - by eapply (ar_sp_in _ _ Hr), Hin.
  - by eapply (ar_sp_used _ _ Hr), Hin.
  - by apply (ar_l1_ok _ _ Hr), His.
  - by apply (ar_l1_pos _ _ Hr).
  - by eapply (ar_l1_apart _ _ Hr); [apply His|apply His|..].
  - by apply (ar_sp_ok _ _ Hr), Hin.
  - by eapply (ar_sp_apart _ _ Hr); [apply Hin|apply Hin|..].
Qed.

Lemma spr_frame ks T t t' : hframe ks T (ad_span t) (ad_span t') -> forall b, spr t' b = spr t b.
Proof. intros Hf b. unfold spr. by rewrite (hf_range _ _ _ _ Hf). Qed.

Lemma move_span t g l s1 s2 a : addr_rep t g -> a ∈ g_sp g (l, s1) -> s1 <> s2 ->
  wp (take_add_span a (l, s2)) t (fun _ t' => exists g', addr_rep t' g' /\ spans_only t t' g g' /\
    g_p2 g' = g_p2 g /\ span_pool t' = span_pool t /\ (forall b, spr t' b = spr t b) /\
    forall k b, b ∈ g_sp g' k <-> (k = (l, s2) /\ b = a) \/ (b <> a /\ b ∈ g_sp g k)).
Proof.
  intros Hr Ha Hne. assert (Hl : is_l1 g l) by (exists l1_mapped; eapply (ar_sp_in _ _ Hr); by exists s1).
  apply list_elem_of_split in Ha as Hsplit. destruct Hsplit as (pre & post & Hsp).
  pose proof (ar_sp _ _ Hr l s1 Hl) as H1. pose proof (ar_sp _ _ Hr l s2 Hl) as H2.
  pose proof (hlist_NoDup _ _ _ H1) as Hnd. rewrite Hsp in H1, Hnd.
  assert (Hd : forall b k, b ∈ pre ++ a :: post -> k <> (l, s1) -> b ∉ g_sp g k).
  { intros b k Hb Hk Hb'. apply Hk. eapply (span_unique t g); [done|exact Hb'|by rewrite Hsp]. }
  assert (Hkk : (l, s2) <> (l, s1)) by congruence. apply wpe_zoom.
  eapply wpe_mono; [apply (take_add_spec _ (l, s1) (l, s2) pre a post (g_sp g (l, s2))); [done|done|done|]|cbn beta|done].
  { intros b Hb. by apply Hd. }
  intros _ h' (l1 & l2 & El & _ & Hl1' & Hl2' & Hf).
  set (g' := mk_ghost (g_l1 g) (<[(l, s2) := l1 ++ a :: l2]> (<[(l, s1) := pre ++ post]> (g_sp g))) (g_p1 g) (g_p2 g)).
  assert (Hmem : forall k b, b ∈ g_sp g' k <-> (k = (l, s2) /\ b = a) \/ (b <> a /\ b ∈ g_sp g k)).
  { intros k b. cbn. destruct (decide ((l, s2) = k)) as [<-|Hk2].
    - rewrite fn_lookup_insert, El. assert (Ha2 : a ∉ l1 ++ l2) by (rewrite <-El; apply Hd; [set_solver|done]).
      set_solver.
    - rewrite fn_lookup_insert_ne by done. destruct (decide ((l, s1) = k)) as [<-|Hk1].
      + rewrite fn_lookup_insert, Hsp. apply NoDup_app in Hnd as (_ & Hnd & Hn2). apply NoDup_cons in Hn2 as [Hn2 _].
        assert (a ∉ pre) by (intros Hin; apply (Hnd a Hin); set_solver). set_solver.
      + rewrite fn_lookup_insert_ne by done. split; [|naive_solver]. intros Hb. right. split; [|done]. intros ->.
        apply Hk1. by eapply (span_unique t g). }
  exists g'. split; [|split; [by constructor|split; [done|split; [done|split; [by eapply (spr_frame _ _ t (set_ad_span h' t))|done]]]]].
  apply (rep_respan t _ g); [done|by constructor|done|done|by eapply (spr_frame _ _ t (set_ad_span h' t))| | |].
  - intros l' side Hl'. cbn. destruct (decide ((l, s2) = (l', side))) as [Ek|Hk2].
    { injection Ek as <- <-. by rewrite fn_lookup_insert. }
    rewrite fn_lookup_insert_ne by done. destruct (decide ((l, s1) = (l', side))) as [Ek|Hk1].
    { injection Ek as <- <-. by rewrite fn_lookup_insert. }
    rewrite fn_lookup_insert_ne by done. eapply hlist_frame; [exact Hf|by apply (ar_sp _ _ Hr)|set_solver|].
    intros b Hb Hin. replace (pre ++ a :: post ++ g_sp g (l, s2)) with ((pre ++ a :: post) ++ g_sp g (l, s2)) in Hin
      by (by rewrite <-app_assoc). apply elem_of_app in Hin as [Hin|Hin].
    + by apply (Hd b (l', side) Hin).
    + apply Hk2. by eapply (span_unique t g).
  - intros l' b [side [[Ek ->]|[_ Hb]]%Hmem]; [|by exists side]. injection Ek as -> ->. by exists s1.
  - intros k k' b [[-> ->]|[Hb Hk]]%Hmem [[-> Eb]|[Hb' Hk']]%Hmem; [done|done|done|]. by eapply (span_unique t g).
Qed.

Lemma span_bounds t g l a : addr_rep t g -> is_span g l a ->
  0 < (spr t a).1 /\ 0 <= (spr t a).2 /\ (spr t a).1 + (spr t a).2 <= SPACE_END.
Proof.
  intros Hr Ha. destruct (ar_sp_ok _ _ Hr _ _ Ha) as (_ & _ & ? & ? & ? & ?).
  destruct (ar_l1_ok _ _ Hr l) as (_ & _ & ? & ? & ?); [|lia].
  exists l1_mapped. by eapply (ar_sp_in _ _ Hr).
Qed.

(** A node from a pool. *)
Lemma alloc_block sz p P (Q : Z -> pool -> Prop) : pool_rep sz p P ->
  (forall p', pool_rep sz p' P -> sp_free P = ∅ -> Q NIL p') ->
  (forall n p', n <> NIL -> n ∈ sp_free P -> n ∉ sp_used P -> pool_rep sz p' (taken n P) -> Q n p') ->
  wp pool_alloc p Q.
Proof.
  intros Hp Hnone Hsome. destruct (pool_alloc_spec sz _ _ Hp) as (m & P' & p' & Hrun & Hstep & Hp').
  eapply wpe_ok; [exact Hrun|]. inversion Hstep as [| |v Hv E1|E1|]; subst; [|by apply Hnone].
  destruct Hp as [Hp _]. destruct (ps_range _ _ _ Hp m) as [Hr1 _]; [set_solver|]. unfold sizeof_pool_obj in Hr1.
  apply Hsome; [unfold NIL; lia|done| |done]. intros ?. by eapply shape_disjoint.
Qed.

(** The ghost state after a split. *)
Definition split_mem g g' (k : Z * span_list) n : Prop :=
  forall k' b, b ∈ g_sp g' k' <-> b ∈ g_sp g k' \/ (k' = k /\ b = n).
Record split_done t t' g g' (k : Z * span_list) a n len : Prop := {
  sd_new : forall k', n ∉ g_sp g k';
  sd_mem : split_mem g g' k n;
  sd_p2 : g_p2 g' = taken n (g_p2 g);
  sd_low : spr t' a = ((spr t a).1, len);
  sd_high : spr t' n = ((spr t a).1 + len, (spr t a).2 - len);
  sd_other : forall b, b <> a -> b <> n -> spr t' b = spr t b
}.

Lemma split_ranges t t' g g' l s a n len : addr_rep t g -> a ∈ g_sp g (l, s) -> split_done t t' g g' (l, s) a n len ->
  0 <= len <= (spr t a).2 -> n <> a -> (forall l' b, is_span g' l' b -> exists c, is_span g l' c /\
    (forall x, in_range (spr t' b) x -> in_range (spr t c) x) /\ (b <> c -> b = n /\ c = a)).
Proof.
  intros Hr Ha Hd Hlen Hna l' b [side [Hb|[[= -> ->] ->]]%(sd_mem _ _ _ _ _ _ _ _ Hd)].
  - exists b. split; [by exists side|]. split; [|done]. intros x.
    destruct (decide (b = a)) as [->|Hba].
    + rewrite (sd_low _ _ _ _ _ _ _ _ Hd). unfold in_range. cbn. lia.
    + rewrite (sd_other _ _ _ _ _ _ _ _ Hd); [done|done|]. intros ->. by eapply (sd_new _ _ _ _ _ _ _ _ Hd).
  - exists a. split; [by exists s|]. split; [|done]. intros x. rewrite (sd_high _ _ _ _ _ _ _ _ Hd).
    unfold in_range. cbn. lia.
Qed.

Lemma rep_split t t' g g' l s a n len : addr_rep t g -> spans_only t t' g g' -> a ∈ g_sp g (l, s) ->
  split_done t t' g g' (l, s) a n len -> 0 < len < (spr t a).2 -> (PAGE_SIZE | len) -> n ∈ sp_free (g_p2 g) ->
  pool_rep span_block (span_pool t') (taken n (g_p2 g)) ->
  (forall l' side, is_l1 g l' -> hlist (ad_span t') (l', side) (g_sp g' (l', side))) -> addr_rep t' g'.
Proof.
  intros Hr Hso Ha Hd Hlen Hal Hfree Hp2 Hl. pose proof Hso as [_ _ _ Hl1 Hp1 Hgl Hgp].
  assert (Hna : n <> a). { intros ->. by eapply (sd_new _ _ _ _ _ _ _ _ Hd). }
  pose proof (split_ranges _ _ _ _ _ _ _ _ _ Hr Ha Hd ltac:(lia) Hna) as Hin.
  assert (Hl1r : forall b, l1r t' b = l1r t b) by (intros; unfold l1r; by rewrite Hl1).
  assert (His : forall b, is_l1 g' b <-> is_l1 g b) by (intros b; unfold is_l1; by rewrite Hgl).
  assert (Hsok : is_span g l a) by (by exists s).
  constructor; intros; repeat (rewrite ?Hl1, ?Hp1, ?Hgl, ?Hgp, ?His, ?Hl1r in * ); try (by apply Hr);
    try (by eapply (ar_l1_disj _ _ Hr)); try (by eapply (ar_l1_apart _ _ Hr)).
  - by rewrite (sd_p2 _ _ _ _ _ _ _ _ Hd).
  - by apply (ar_l1_used _ _ Hr).
  - by apply Hl.
  - apply Hin in H as (c & Hc & _). by eapply (ar_sp_in _ _ Hr).
  - apply (sd_mem _ _ _ _ _ _ _ _ Hd) in H as [H|[-> ->]], H0 as [H0|[-> E0]]; [by eapply (span_unique t g)| | |done].
    + subst. by destruct (sd_new _ _ _ _ _ _ _ _ Hd k).
    + by destruct (sd_new _ _ _ _ _ _ _ _ Hd k').
  - rewrite (sd_p2 _ _ _ _ _ _ _ _ Hd). cbn. destruct H as [side [H|[_ ->]]%(sd_mem _ _ _ _ _ _ _ _ Hd)]; [|set_solver].
    apply elem_of_union. right. eapply (ar_sp_used _ _ Hr). by exists side.
  - pose proof (ar_sp_ok _ _ Hr _ _ Hsok) as (A1 & A2 & A3 & A4 & A5 & A6).
    destruct H as [side [H|[[= -> ->] ->]]%(sd_mem _ _ _ _ _ _ _ _ Hd)].
    + destruct (decide (a0 = a)) as [->|Hne].
      * pose proof (span_unique t g _ _ _ Hr Ha H) as [= <- <-]. rewrite (sd_low _ _ _ _ _ _ _ _ Hd).
        split_and!; cbn; [done|done|lia..].
      * rewrite (sd_other _ _ _ _ _ _ _ _ Hd); [apply (ar_sp_ok _ _ Hr); by exists side|done|].
        intros ->. by eapply (sd_new _ _ _ _ _ _ _ _ Hd).
    + rewrite (sd_high _ _ _ _ _ _ _ _ Hd). split_and!; cbn; [by apply Z.divide_add_r|by apply Z.divide_sub_r|lia..].
  - pose proof (Hin _ _ H) as (c & Hc & Hcx & Hcn). pose proof (Hin _ _ H0) as (c' & Hc' & Hcx' & Hcn').
    assert (c = c') as <- by (eapply (ar_sp_apart _ _ Hr); [exact Hc|exact Hc'|by apply Hcx|by apply Hcx']).
    destruct (decide (a0 = c)) as [->|Hn1], (decide (a' = c)) as [->|Hn2]; [done|..].
    + destruct (Hcn' Hn2) as [-> ->]. exfalso. revert H1 H2. rewrite (sd_low _ _ _ _ _ _ _ _ Hd), (sd_high _ _ _ _ _ _ _ _ Hd).
      unfold in_range. cbn. lia.
    + destruct (Hcn Hn1) as [-> ->]. exfalso. revert H1 H2. rewrite (sd_low _ _ _ _ _ _ _ _ Hd), (sd_high _ _ _ _ _ _ _ _ Hd).
      unfold in_range. cbn. lia.
    + destruct (Hcn Hn1) as [-> _], (Hcn' Hn2) as [-> _]. done.
Qed.

Lemma split_bytes t t' g g' l s a n len : addr_rep t g -> a ∈ g_sp g (l, s) -> split_done t t' g g' (l, s) a n len ->
  0 <= len <= (spr t a).2 -> n <> a -> forall side x, bytes side t' g' x <-> bytes side t g x.
Proof.
  intros Hr Ha Hd Hlen Hna side x. split.
  - intros (l' & b & Hb & Hx). apply (sd_mem _ _ _ _ _ _ _ _ Hd) in Hb as [Hb|[[= -> ->] ->]].
    + exists l', b. split; [done|]. destruct (decide (b = a)) as [->|Hba].
      * rewrite (sd_low _ _ _ _ _ _ _ _ Hd) in Hx. unfold in_range in *. cbn in *. lia.
      * rewrite (sd_other _ _ _ _ _ _ _ _ Hd) in Hx; [done|done|]. intros ->. by eapply (sd_new _ _ _ _ _ _ _ _ Hd).
    + exists l, a. split; [done|]. rewrite (sd_high _ _ _ _ _ _ _ _ Hd) in Hx. unfold in_range in *. cbn in *. lia.
  - intros (l' & b & Hb & Hx). assert (Hbn : b <> n) by (intros ->; by eapply (sd_new _ _ _ _ _ _ _ _ Hd)).
    destruct (decide (b = a)) as [->|Hba].
    + pose proof (span_unique t g _ _ _ Hr Ha Hb) as [= <- <-]. destruct (decide (x < (spr t a).1 + len)).
      * exists l, a. split; [apply (sd_mem _ _ _ _ _ _ _ _ Hd); by left|]. rewrite (sd_low _ _ _ _ _ _ _ _ Hd).
        unfold in_range in *. cbn. lia.
      * exists l, n. split; [apply (sd_mem _ _ _ _ _ _ _ _ Hd); by right|]. rewrite (sd_high _ _ _ _ _ _ _ _ Hd).
        unfold in_range in *. cbn. lia.
    + exists l', b. split; [apply (sd_mem _ _ _ _ _ _ _ _ Hd); by left|]. by rewrite (sd_other _ _ _ _ _ _ _ _ Hd).
Qed.

Lemma split_span_spec t g l s a len : addr_rep t g -> a ∈ g_sp g (l, s) -> (PAGE_SIZE | len) -> 0 < len < (spr t a).2 ->
  wp (split_span a len) t (fun (res : Z) t' => exists g', addr_rep t' g' /\ spans_only t t' g g' /\
    (forall side x, bytes side t' g' x <-> bytes side t g x) /\
    sp_free (g_p2 g') ∪ sp_used (g_p2 g') = sp_free (g_p2 g) ∪ sp_used (g_p2 g) /\
    (res <> OK \/ res = OK /\ a ∈ g_sp g' (l, s) /\ spr t' a = ((spr t a).1, len))).
Proof.
  intros Hr Ha Hal Hlen. pose proof (span_bounds t g l a Hr ltac:(by exists s)) as Hb.
  unfold split_span. apply wpe_bind, wpe_zoom.
  apply (alloc_block span_block _ (g_p2 g)); [apply Hr| |].
  - intros p' Hp' _. rewrite Z.eqb_refl. apply wpe_ret. exists g.
    split; [|split; [by constructor|split; [done|split; [done|by left]]]].
    destruct Hr; by constructor.
  - intros n p' Hn Hfree Hused Hp'. rewrite (proj2 (Z.eqb_neq _ _)) by done.
    assert (Hnew : forall k, n ∉ g_sp g k).
    { intros [l' side] Hin. apply Hused, (ar_sp_used _ _ Hr l'). by exists side. }
    assert (Hl : is_l1 g l) by (exists l1_mapped; eapply (ar_sp_in _ _ Hr); by exists s).
    apply list_elem_of_split in Ha as Hsplit. destruct Hsplit as (pre & post & Hsp).
    destruct (span_node _ _ _ _ _ Hr Ha) as (y & Hy & Es & _). pose proof (ar_sp _ _ Hr l s Hl) as Hh. rewrite Hsp in Hh.
    apply wpe_bind, wpe_zoom. eapply wpe_mono; [apply (split_at_spec _ (l, s) pre a post y n len); [done|done|done|]|cbn beta|done].
    { rewrite <-Hsp. apply Hnew. }
    intros _ h' (Hl' & Hheads & Elow & Ehigh & Eother & Enodes). apply wpe_ret.
    set (g' := mk_ghost (g_l1 g) (<[(l, s) := pre ++ a :: n :: post]> (g_sp g)) (g_p1 g) (taken n (g_p2 g))).
    set (t' := set_ad_span h' _).
    assert (Hd : split_done t t' g g' (l, s) a n len).
    { rewrite Es in Hlen. rewrite Es in Hb. cbn in Hlen, Hb. unfold SPACE_END in Hb. constructor; [done| |done| | |].
      - intros k b. cbn. destruct (decide ((l, s) = k)) as [<-|Hk].
        + rewrite fn_lookup_insert, Hsp. set_solver.
        + rewrite fn_lookup_insert_ne by done. naive_solver.
      - rewrite Es. unfold spr, t'. cbn. by rewrite Elow.
      - rewrite Es. unfold spr, t'. cbn. rewrite Ehigh. cbn. by rewrite !u32_small by lia.
      - intros b Hba Hbn. unfold spr, t'. cbn. by rewrite Eother. }
    assert (Hso : spans_only t t' g g') by by constructor.
    assert (Hna : n <> a) by (intros ->; by apply (Hnew (l, s))).
    exists g'. split; [|split; [done|split; [apply (split_bytes _ _ _ _ l s a n len); [done|done|done|lia|done]|split]]].
    + apply (rep_split t t' g g' l s a n len); try done. intros l' side Hl''. cbn.
      destruct (decide ((l, s) = (l', side))) as [[= <- <-]|Hk]; [by rewrite fn_lookup_insert|].
      rewrite fn_lookup_insert_ne by done. destruct (ar_sp _ _ Hr l' side Hl'') as (h & Hhk & Hs).
      exists h. unfold t'. cbn. rewrite Hheads. split; [done|]. eapply hseg_ext; [|exact Hs]. intros b Hin.
      apply Enodes; [intros ->; by eapply Hnew|]. intros Hin'. apply Hk. eapply (span_unique t g); [done| |exact Hin].
      rewrite Hsp. set_solver.
    + cbn. apply set_eq. intros z. destruct (decide (z = n)); set_solver.
    + right. split; [done|]. split; [|apply (sd_low _ _ _ _ _ _ _ _ Hd)]. apply (sd_mem _ _ _ _ _ _ _ _ Hd). by left.
Qed.

Lemma spans_only_refl t g : spans_only t t g g.
Proof. by constructor. Qed.

Lemma spans_only_trans t1 t2 t3 g1 g2 g3 : spans_only t1 t2 g1 g2 -> spans_only t2 t3 g2 g3 -> spans_only t1 t3 g1 g3.
Proof. intros [] []. constructor; congruence. Qed.

Definition same_blocks g g' : Prop := sp_free (g_p2 g') ∪ sp_used (g_p2 g') = sp_free (g_p2 g) ∪ sp_used (g_p2 g).
(** The bytes of [r] become busy; they were idle. *)
Definition bytes_taken t t' g g' r : Prop :=
  (forall x, busy t' g' x <-> busy t g x \/ in_range r x) /\
  (forall x, idle t g x <-> idle t' g' x \/ in_range r x).
Definition span_at t a r : Prop := a <> NIL /\ exists y, hs_node (ad_span t) !! a = Some y /\ r = (hn_va y, hn_len y).
Definition range_good r : Prop := (PAGE_SIZE | r.1) /\ 0 < r.1 /\ r.1 + r.2 <= SPACE_END.
Definition gave t g len (res : Z) t' g' : Prop :=
  (res = NIL /\ forall side x, bytes side t' g' x <-> bytes side t g x) \/
  exists va, span_at t' res (va, len) /\ range_good (va, len) /\ bytes_taken t t' g g' (va, len).

(** Reading changes nothing. *)
Lemma get_span_ok t a y : hs_node (ad_span t) !! a = Some y -> on_span (get_hnode a) t = Ok y t.
Proof. intros Hy. unfold on_span, zoom, get_hnode, read. rewrite Hy. by destruct t. Qed.
Lemma get_l1_ok t a y : hs_node (ad_l1 t) !! a = Some y -> on_l1 (get_hnode a) t = Ok y t.
Proof. intros Hy. unfold on_l1, zoom, get_hnode, read. rewrite Hy. by destruct t. Qed.
Lemma get_span_head_ok t k h : hs_head (ad_span t) !! k = Some h -> on_span (get_hplace (HHead k)) t = Ok h t.
Proof. intros Hy. unfold on_span, zoom, get_hplace, read. rewrite Hy. by destruct t. Qed.
Lemma get_l1_head_ok t k h : hs_head (ad_l1 t) !! k = Some h -> on_l1 (get_hplace (HHead k)) t = Ok h t.
Proof. intros Hy. unfold on_l1, zoom, get_hplace, read. rewrite Hy. by destruct t. Qed.
Lemma span_fuel_ok t : span_fuel t = Ok (S (base.size (hs_node (ad_span t)))) t.
Proof. by destruct t. Qed.
Lemma l1_fuel_ok t : l1_fuel t = Ok (S (base.size (hs_node (ad_l1 t)))) t.
Proof. by destruct t. Qed.

Lemma use_span_spec t g l a len : addr_rep t g -> a ∈ g_sp g (l, sp_list_free) -> (PAGE_SIZE | len) ->
  0 < len <= (spr t a).2 ->
  wp (use_span len l a) t (fun (res : Z) t' => exists g', addr_rep t' g' /\ spans_only t t' g g' /\
    same_blocks g g' /\ gave t g len res t' g').
Proof.
  intros Hr Ha Hal Hlen. destruct (span_node _ _ _ _ _ Hr Ha) as (y & Hy & Es & Hn). unfold use_span.
  apply wpe_bind. eapply wpe_ok; [by apply get_span_ok|]. apply wpe_bind.
  eapply (wpe_mono _ _ (fun (res : Z) t1 => exists g1, addr_rep t1 g1 /\ spans_only t t1 g g1 /\
    (forall side x, bytes side t1 g1 x <-> bytes side t g x) /\ same_blocks g g1 /\
    (res <> OK \/ res = OK /\ a ∈ g_sp g1 (l, sp_list_free) /\ spr t1 a = ((spr t a).1, len)))); [| |done].
  { destruct (Z.ltb_spec len (hn_len y)).
    - apply split_span_spec; [done|done|done|]. rewrite Es in *. cbn in *. lia.
    - apply wpe_ret. exists g. split; [done|]. split; [apply spans_only_refl|]. split; [done|]. split; [done|].
      right. split; [done|]. split; [done|]. rewrite Es in *. cbn in *. f_equal. lia. }
  intros res t1 (g1 & Hr1 & Hso1 & Hb1 & Hp1 & Hres). destruct Hres as [Hne|(-> & Ha1 & Es1)].
  { rewrite (proj2 (Z.eqb_neq _ _)) by done. apply wpe_ret. exists g1. split; [done|]. split; [done|].
    split; [done|]. by left. }
  cbn [negb]. rewrite Z.eqb_refl. apply wpe_bind. eapply wpe_mono; [apply (move_span _ g1 l sp_list_free sp_list_mapped a); done|cbn beta|done].
  intros _ t2 (g2 & Hr2 & Hso2 & Hgp2 & Hp2 & Hspr & Hmem). apply wpe_ret. exists g2. split; [done|].
  split; [by eapply spans_only_trans|]. split; [unfold same_blocks in *; by rewrite Hgp2|]. right.
  exists (spr t a).1. destruct (span_bounds t1 g1 l a Hr1) as (B1 & B2 & B3); [by eexists|]. rewrite Es1 in B1, B2, B3.
  assert (Ha2 : a ∈ g_sp g2 (l, sp_list_mapped)) by (apply Hmem; by left).
  split; [|split; [|split]].
  - split; [done|]. destruct (span_node _ _ _ _ _ Hr2 Ha2) as (y2 & Hy2 & Es2 & _). exists y2. split; [done|].
    by rewrite <-Es2, Hspr, Es1.
  - split; [|done]. apply (ar_sp_ok _ _ Hr l). by eexists.
  - intros x. rewrite <-Hb1. split.
    + intros (l' & b & [[_ ->]|[Hba Hb]]%Hmem & Hx); rewrite Hspr in Hx.
      * right. by rewrite Es1 in Hx.
      * left. by exists l', b.
    + intros [(l' & b & Hb & Hx)|Hx].
      * exists l', b. rewrite Hspr. split; [|done]. apply Hmem. right. split; [|done]. intros ->.
        by pose proof (span_unique _ _ _ _ _ Hr1 Ha1 Hb).
      * exists l, a. rewrite Hspr, Es1. by split.
  - intros x. rewrite <-Hb1. split.
    + intros (l' & b & Hb & Hx). destruct (decide (b = a)) as [->|Hba]; [right; by rewrite Es1 in Hx|]. left.
      exists l', b. rewrite Hspr. split; [|done]. apply Hmem. by right.
    + intros [(l' & b & [[? ->]|[Hba Hb]]%Hmem & Hx)|Hx]; [done| |].
      * exists l', b. rewrite Hspr in Hx. by split.
      * exists l, a. by rewrite Es1.
Qed.

(** ** The searches *)
Definition len_at {K} (N : gmap Z (hnode K)) a : Z := default 0 (hn_len <$> N !! a).
Lemma better_ok {K} `{Countable K} (s : hstore K) (f : hnode K -> bool) a best y : hs_node s !! a = Some y ->
  (best <> NIL -> is_Some (hs_node s !! best)) ->
  better f a best s = Ok (f y && ((best =? NIL) ||
    (hn_len y <? len_at (hs_node s) best))) s.
Proof.
  intros Hy Hb. unfold better, get_hnode. erewrite bind_ok by by apply read_ok. destruct (f y); [|done].
  destruct (Z.eqb_spec best NIL); [done|]. destruct (Hb n) as [z Hz]. unfold len_at. rewrite Hz. by erewrite bind_ok by by apply read_ok.
Qed.

(** The best fit among the spans that were [seen]. *)
Definition best_fit t g len (seen : Z -> Prop) (fl fs : Z) : Prop :=
  (fs = NIL /\ forall b, seen b -> (spr t b).2 < len) \/
  (fs <> NIL /\ fs ∈ g_sp g (fl, sp_list_free) /\ len <= (spr t fs).2 /\
   forall b, seen b -> len <= (spr t b).2 -> (spr t fs).2 <= (spr t b).2).

Lemma best_fit_ext t g len (P Q : Z -> Prop) fl fs : (forall b, Q b -> P b) -> best_fit t g len P fl fs -> best_fit t g len Q fl fs.
Proof. intros HPQ [[-> Hb]|(Hn & Hin & Hlen & Hb)]; [left|right]; naive_solver. Qed.

Lemma best_fit_step t g len seen l a fl fs (y : span) : addr_rep t g -> a ∈ g_sp g (l, sp_list_free) -> a <> NIL ->
  spr t a = (hn_va y, hn_len y) -> best_fit t g len seen fl fs ->
  let b := (len <=? hn_len y) && ((fs =? NIL) || (hn_len y <? len_at (hs_node (ad_span t)) fs)) in
  best_fit t g len (fun c => c = a \/ seen c) (if b then l else fl) (if b then a else fs).
Proof.
  intros Hr Ha Hn Es Hb b. unfold b. destruct (Z.leb_spec len (hn_len y)) as [Hle|Hgt]; cbn [andb].
  - destruct Hb as [[-> Hb]|(Hn' & Hin & Hlen & Hb)].
    + rewrite Z.eqb_refl. cbn [orb]. right. split; [done|]. split; [done|]. rewrite Es. split; [done|]. intros c [->|Hc]; [by rewrite Es|].
      intros ?. specialize (Hb c Hc). lia.
    + rewrite (proj2 (Z.eqb_neq _ _)) by done. cbn [orb].
      destruct (span_node _ _ _ _ _ Hr Hin) as (z & Hz & Ez & _). unfold len_at. rewrite Hz. cbn. rewrite Ez in Hlen, Hb. cbn in Hlen, Hb.
      destruct (Z.ltb_spec (hn_len y) (hn_len z)); right.
      * split; [done|]. split; [done|]. rewrite Es. split; [done|]. intros c [->|Hc] Hc'; [by rewrite Es|].
        specialize (Hb c Hc Hc'). cbn in *. lia.
      * split; [done|]. split; [done|]. rewrite Ez. split; [done|]. intros c [->|Hc] Hc'; [by rewrite Es|]. by apply Hb.
  - destruct Hb as [[-> Hb]|(Hn' & Hin & Hlen & Hb)]; [left|right]; split; [done|..|done|].
    + intros c [->|Hc]; [rewrite Es; cbn; lia|by apply Hb].
    + split; [done|]. split; [done|]. intros c [->|Hc]; [rewrite Es; cbn; lia|by apply Hb].
Qed.

Lemma span_search_spec t g len l : addr_rep t g -> forall fuel post s p seen fl fs, (length post <= fuel)%nat ->
  hseg (hs_node (ad_span t)) p s post NIL -> (forall a, a ∈ post -> a ∈ g_sp g (l, sp_list_free)) ->
  best_fit t g len seen fl fs ->
  exists fl' fs', span_search fuel len l s fl fs t = Ok (fl', fs') t /\
    best_fit t g len (fun c => c ∈ post \/ seen c) fl' fs'.
Proof.
  intros Hr. induction fuel as [|fuel IH]; intros [|a post] s p seen fl fs Hf Hs Hin Hb; try (cbn in Hf; lia).
  1,2: cbn in Hs; subst; exists fl, fs; split; [done|]; eapply best_fit_ext; [|exact Hb]; set_solver.
  destruct Hs as (-> & Hn & y & Hy & _ & Hs). cbn [span_search]. rewrite (proj2 (Z.eqb_neq _ _)) by done.
  assert (Ha : a ∈ g_sp g (l, sp_list_free)) by (apply Hin; set_solver).
  destruct (span_node _ _ _ _ _ Hr Ha) as (y' & Hy' & Es & _). assert (y' = y) as -> by congruence.
  unfold on_span at 1. unfold bind at 1, zoom at 1. erewrite better_ok; [|exact Hy|].
  - cbn beta iota. replace (set_ad_span (ad_span t) t) with t by by destruct t.
    erewrite bind_ok by by apply get_span_ok.
    pose proof (best_fit_step t g len seen l a fl fs y Hr Ha Hn Es Hb) as Hstep. cbv zeta in Hstep.
    set (b := (_ && _)%bool) in *.
    destruct (IH post (hn_next y) (HNext a) (fun c => c = a \/ seen c) (if b then l else fl) (if b then a else fs))
      as (fl' & fs' & Hrun & Hb'); [cbn in Hf; lia|done|set_solver|done|].
    exists fl', fs'. split; [rewrite <-Hrun; by destruct b|]. eapply best_fit_ext; [|exact Hb']. set_solver.
  - intros Hfs. destruct Hb as [[-> _]|(_ & Hin' & _)]; [done|].
    destruct (span_node _ _ _ _ _ Hr Hin') as (z & Hz & _). by rewrite Hz.
Qed.

Lemma l1_search_spec t g len : addr_rep t g -> forall fuel post l p seen fl fs s, (length post <= fuel)%nat ->
  hseg (hs_node (ad_l1 t)) p l post NIL -> (forall a, a ∈ post -> a ∈ g_l1 g l1_mapped) ->
  best_fit t g len seen fl fs ->
  exists fl' fs', l1_search fuel len l fl fs s t = Ok (fl', fs', if post then s else Some NIL) t /\
    best_fit t g len (fun c => (exists a, a ∈ post /\ c ∈ g_sp g (a, sp_list_free)) \/ seen c) fl' fs'.
Proof.
  intros Hr. induction fuel as [|fuel IH]; intros [|a post] l p seen fl fs s Hf Hs Hin Hb; try (cbn in Hf; lia).
  1,2: cbn in Hs; subst; exists fl, fs; split; [done|]; eapply best_fit_ext; [|exact Hb]; set_solver.
  destruct Hs as (-> & Hn & y & Hy & _ & Hs). cbn [l1_search]. rewrite (proj2 (Z.eqb_neq _ _)) by done.
  destruct (ar_sp _ _ Hr a sp_list_free) as (h & Hh & Hsl); [exists l1_mapped; apply Hin; set_solver|].
  erewrite bind_ok by by apply get_span_head_ok. erewrite bind_ok by apply span_fuel_ok.
  destruct (span_search_spec t g len a Hr (S (base.size (hs_node (ad_span t)))) _ h _ seen fl fs
    (Nat.le_trans _ _ _ (hseg_size _ _ _ _ Hsl) (Nat.le_succ_diag_r _)) Hsl) as (fl1 & fs1 & Hrun1 & Hb1); [done|done|].
  erewrite bind_ok by exact Hrun1. cbn beta iota. erewrite bind_ok by by apply get_l1_ok.
  destruct (IH post (hn_next y) (HNext a) _ fl1 fs1 (Some NIL) ltac:(cbn in Hf; lia) Hs ltac:(set_solver) Hb1)
    as (fl' & fs' & Hrun & Hb'). exists fl', fs'. split; [rewrite Hrun; by destruct post|].
  eapply best_fit_ext; [|exact Hb']. intros c [(b & [->|Hbp]%elem_of_cons & Hc)|Hc]; [right; by left|left; eauto|right; by right].
Qed.

(** The longer free ranges without a table. *)
Lemma reserve_search_spec t g len : addr_rep t g -> forall fuel post l p fl, (length post <= fuel)%nat ->
  hseg (hs_node (ad_l1 t)) p l post NIL -> (forall a, a ∈ post -> a ∈ g_l1 g l1_free) ->
  (fl <> NIL -> fl ∈ g_l1 g l1_free /\ len < (l1r t fl).2) ->
  exists fl', reserve_search fuel len l fl t = Ok fl' t /\
    (fl' <> NIL -> fl' ∈ g_l1 g l1_free /\ len < (l1r t fl').2) /\
    (fl' = NIL -> fl = NIL /\ forall a, a ∈ post -> (l1r t a).2 <= len).
Proof.
  intros Hr. induction fuel as [|fuel IH]; intros [|a post] l p fl Hf Hs Hin Hfl; try (cbn in Hf; lia).
  1,2: cbn in Hs; subst; exists fl; split; [done|]; split; [done|]; set_solver.
  destruct Hs as (-> & Hn & y & Hy & _ & Hs). cbn [reserve_search]. rewrite (proj2 (Z.eqb_neq _ _)) by done.
  assert (Es : l1r t a = (hn_va y, hn_len y)) by (unfold l1r, range_of; by rewrite Hy).
  unfold on_l1 at 1. unfold bind at 1, zoom at 1. erewrite better_ok; [|exact Hy|].
  - cbn beta iota. replace (set_ad_l1 (ad_l1 t) t) with t by by destruct t.
    erewrite bind_ok by by apply get_l1_ok. set (b := (_ && _)%bool).
    destruct (IH post (hn_next y) (HNext a) (if b then a else fl)) as (fl' & Hrun & H1 & H2); [cbn in Hf; lia|done|set_solver| |].
    { destruct b eqn:Eb; [|done]. intros _. apply andb_prop in Eb as [Eb _]. apply Z.ltb_lt in Eb.
      split; [apply Hin; set_solver|by rewrite Es]. }
    exists fl'. split; [exact Hrun|]. split; [done|]. intros Hz. destruct (H2 Hz) as [Hnone Hall].
    destruct b eqn:Eb; [done|]. split; [done|]. intros c [->|Hc]%elem_of_cons; [|by apply Hall].
    unfold b in Eb. rewrite Hnone, Z.eqb_refl, orb_true_l, andb_true_r in Eb. apply Z.ltb_ge in Eb. by rewrite Es.
  - intros Hfs. destruct (Hfl Hfs) as [Hin' _]. destruct (hlist_elem _ _ _ _ (ar_l1 _ _ Hr l1_free) Hin') as (_ & z & Hz).
    by rewrite Hz.
Qed.

(** ** Operations on the ranges *)
Record l1_only t t' g g' : Prop := {
  lo_init : initialized t' = initialized t;
  lo_checking : checking t' = checking t;
  lo_env : ad_env t' = ad_env t;
  lo_spr : forall b, spr t' b = spr t b;
  lo_pool : span_pool t' = span_pool t;
  lo_gsp : g_sp g' = g_sp g;
  lo_gp2 : g_p2 g' = g_p2 g
}.

Lemma l1_only_bytes t t' g g' : l1_only t t' g g' -> forall side x, bytes side t' g' x <-> bytes side t g x.
Proof.
  intros [_ _ _ Hs _ Hg _] side x. unfold bytes. rewrite Hg.
  split; intros (l & a & Ha & Hx); exists l, a; (split; [done|]); by rewrite Hs in *.
Qed.

Lemma no_spans t g l : addr_rep t g -> l ∉ g_l1 g l1_mapped -> forall side, g_sp g (l, side) = [].
Proof.
  intros Hr Hl side. destruct (g_sp g (l, side)) as [|b L] eqn:Eb; [done|]. exfalso. apply Hl.
  apply (ar_sp_in _ _ Hr l b). exists side. rewrite Eb. set_solver.
Qed.

Lemma move_l1 t g a : addr_rep t g -> a ∈ g_l1 g l1_free ->
  wp (take_add_l1_span a l1_mapped) t (fun _ t' => exists g', addr_rep t' g' /\ l1_only t t' g g' /\
    (forall b, l1r t' b = l1r t b) /\ g_p1 g' = g_p1 g /\
    (forall b, b ∈ g_l1 g' l1_mapped <-> b = a \/ b ∈ g_l1 g l1_mapped) /\
    (forall b, b ∈ g_l1 g' l1_free <-> b <> a /\ b ∈ g_l1 g l1_free)).
Proof.
  intros Hr Ha. apply list_elem_of_split in Ha as Hsplit. destruct Hsplit as (pre & post & Hsp).
  pose proof (ar_l1 _ _ Hr l1_free) as H1. pose proof (ar_l1 _ _ Hr l1_mapped) as H2.
  pose proof (hlist_NoDup _ _ _ H1) as Hnd. rewrite Hsp in H1, Hnd. apply wpe_zoom.
  eapply wpe_mono; [apply (take_add_spec _ l1_free l1_mapped pre a post (g_l1 g l1_mapped)); [done|done|done|]|cbn beta|done].
  { intros b Hb Hb'. eapply (ar_l1_disj _ _ Hr b); [done|]. by rewrite Hsp. }
  intros _ h' (l1 & l2 & El & _ & Hl1' & Hl2' & Hf).
  set (g' := mk_ghost (<[l1_mapped := l1 ++ a :: l2]> (<[l1_free := pre ++ post]> (g_l1 g))) (g_sp g) (g_p1 g) (g_p2 g)).
  assert (Hm : forall b, b ∈ g_l1 g' l1_mapped <-> b = a \/ b ∈ g_l1 g l1_mapped).
  { intros b. cbn. rewrite fn_lookup_insert, El. set_solver. }
  assert (Hfr : forall b, b ∈ g_l1 g' l1_free <-> b <> a /\ b ∈ g_l1 g l1_free).
  { intros b. cbn. rewrite fn_lookup_insert_ne, fn_lookup_insert, Hsp by done.
    apply NoDup_app in Hnd as (_ & Hnd & Hn2). apply NoDup_cons in Hn2 as [Hn2 _].
    assert (a ∉ pre) by (intros Hin; apply (Hnd a Hin); set_solver). set_solver. }
  assert (His : forall b, is_l1 g' b <-> is_l1 g b).
  { intros b. split.
    - intros [[] Hb]; [exists l1_free; by apply Hfr|apply Hm in Hb as [->|Hb]; [by exists l1_free|by exists l1_mapped]].
    - intros [[] Hb]; [|exists l1_mapped; apply Hm; by right]. destruct (decide (b = a)) as [->|].
      + exists l1_mapped. apply Hm. by left.
      + exists l1_free. by apply Hfr. }
  assert (Hl1r : forall b, l1r (set_ad_l1 h' t) b = l1r t b).
  { intros b. unfold l1r. cbn. by rewrite (hf_range _ _ _ _ Hf). }
  exists g'. split; [|split; [by constructor|by split]].
  constructor; intros; repeat (rewrite ?His, ?Hl1r in * ); try (by apply Hr).
  - destruct k; cbn.
    + by rewrite fn_lookup_insert_ne, fn_lookup_insert.
    + by rewrite fn_lookup_insert.
  - apply Hfr in H0 as [Hne H0]. apply Hm in H as [->|H]; [done|]. by eapply (ar_l1_disj _ _ Hr).
  - by apply (ar_l1_used _ _ Hr).
  - apply Hm. right. by apply (ar_sp_in _ _ Hr) in H.
  - by eapply (ar_sp_disj _ _ Hr).
  - by eapply (ar_sp_used _ _ Hr).
  - apply Hfr in H as [_ H]. by apply (ar_l1_pos _ _ Hr).
  - by eapply (ar_l1_apart _ _ Hr).
  - by eapply (ar_sp_apart _ _ Hr).
Qed.

(** The ghost state after a range was split. *)
Record l1_split t t' g g' a n len : Prop := {
  ls_new : ~ is_l1 g n;
  ls_mapped : g_l1 g' l1_mapped = g_l1 g l1_mapped;
  ls_free : forall b, b ∈ g_l1 g' l1_free <-> b ∈ g_l1 g l1_free \/ b = n;
  ls_p1 : g_p1 g' = taken n (g_p1 g);
  ls_low : l1r t' a = ((l1r t a).1, len);
  ls_high : l1r t' n = ((l1r t a).1 + len, (l1r t a).2 - len);
  ls_other : forall b, b <> a -> b <> n -> l1r t' b = l1r t b
}.

Lemma l1_split_is t t' g g' a n len : l1_split t t' g g' a n len -> forall b, is_l1 g' b <-> is_l1 g b \/ b = n.
Proof.
  intros Hs b. split.
  - intros [[] Hb].
    + apply (ls_free _ _ _ _ _ _ _ Hs) in Hb as [Hb| ->]; [left; by exists l1_free|by right].
    + rewrite (ls_mapped _ _ _ _ _ _ _ Hs) in Hb. left. by exists l1_mapped.
  - intros [[[] Hb]| ->].
    + exists l1_free. apply (ls_free _ _ _ _ _ _ _ Hs). by left.
    + exists l1_mapped. by rewrite (ls_mapped _ _ _ _ _ _ _ Hs).
    + exists l1_free. apply (ls_free _ _ _ _ _ _ _ Hs). by right.
Qed.

Lemma l1_split_in t t' g g' a n len : l1_split t t' g g' a n len -> is_l1 g a -> 0 < len < (l1r t a).2 ->
  forall b, is_l1 g' b -> exists c, is_l1 g c /\ (forall x, in_range (l1r t' b) x -> in_range (l1r t c) x) /\
    (b <> c -> b = n /\ c = a).
Proof.
  intros Hs Ha Hlen b [Hb| ->]%(l1_split_is _ _ _ _ _ _ _ Hs).
  - exists b. split; [done|]. split; [|done]. intros x. destruct (decide (b = a)) as [->|Hba].
    + rewrite (ls_low _ _ _ _ _ _ _ Hs). unfold in_range. cbn. lia.
    + rewrite (ls_other _ _ _ _ _ _ _ Hs); [done|done|]. intros ->. by apply (ls_new _ _ _ _ _ _ _ Hs).
  - exists a. split; [done|]. split; [|done]. intros x. rewrite (ls_high _ _ _ _ _ _ _ Hs). unfold in_range. cbn. lia.
Qed.

Lemma l1_split_apart t t' g g' a n len : addr_rep t g -> l1_split t t' g g' a n len -> is_l1 g a -> 0 < len < (l1r t a).2 ->
  forall b b' x, is_l1 g' b -> is_l1 g' b' -> in_range (l1r t' b) x -> in_range (l1r t' b') x -> b = b'.
Proof.
  intros Hr Hs Ha Hlen b b' x H1 H2 Hx Hx'. pose proof (l1_split_in _ _ _ _ _ _ _ Hs Ha Hlen) as Hin.
  destruct (Hin _ H1) as (c & Hc & Hcx & Hcn), (Hin _ H2) as (c' & Hc' & Hcx' & Hcn').
  assert (c = c') as <- by (eapply (ar_l1_apart _ _ Hr); [exact Hc|exact Hc'|by apply Hcx|by apply Hcx']).
  destruct (decide (b = c)) as [->|Hn1], (decide (b' = c)) as [->|Hn2]; [done|..].
  - destruct (Hcn' Hn2) as [-> ->]. exfalso. revert Hx Hx'. rewrite (ls_low _ _ _ _ _ _ _ Hs), (ls_high _ _ _ _ _ _ _ Hs).
    unfold in_range. cbn. lia.
  - destruct (Hcn Hn1) as [-> ->]. exfalso. revert Hx Hx'. rewrite (ls_low _ _ _ _ _ _ _ Hs), (ls_high _ _ _ _ _ _ _ Hs).
    unfold in_range. cbn. lia.
  - destruct (Hcn Hn1) as [-> _], (Hcn' Hn2) as [-> _]. done.
Qed.

Lemma l1_split_ok t t' g g' a n len : addr_rep t g -> l1_split t t' g g' a n len -> a ∈ g_l1 g l1_free ->
  0 < len < (l1r t a).2 -> (TABLE_AREA | len) ->
  (forall b, is_l1 g' b -> l1_range_ok (l1r t' b)) /\ (forall b, b ∈ g_l1 g' l1_free -> 0 < (l1r t' b).1).
Proof.
  intros Hr Hs Ha Hlen Hal. assert (Hia : is_l1 g a) by (by exists l1_free).
  pose proof (ar_l1_ok _ _ Hr _ Hia) as (A1 & A2 & A3 & A4 & A5). pose proof (ar_l1_pos _ _ Hr _ Ha).
  assert (Hcase : forall b, is_l1 g' b -> b = a \/ b = n \/ (is_l1 g b /\ l1r t' b = l1r t b)).
  { intros b [Hb| ->]%(l1_split_is _ _ _ _ _ _ _ Hs); [|auto]. destruct (decide (b = a)); [auto|]. right. right. split; [done|].
    apply (ls_other _ _ _ _ _ _ _ Hs); [done|]. intros ->. by apply (ls_new _ _ _ _ _ _ _ Hs). }
  split; intros b Hb.
  - destruct (Hcase b Hb) as [->|[->|[Hb' ->]]]; [| |by apply (ar_l1_ok _ _ Hr)].
    + rewrite (ls_low _ _ _ _ _ _ _ Hs). split_and!; cbn; [done|done|lia..].
    + rewrite (ls_high _ _ _ _ _ _ _ Hs). split_and!; cbn; [by apply Z.divide_add_r|by apply Z.divide_sub_r|lia..].
  - destruct (Hcase b) as [->|[->|[Hb' ->]]]; [by exists l1_free| | |].
    + by rewrite (ls_low _ _ _ _ _ _ _ Hs).
    + rewrite (ls_high _ _ _ _ _ _ _ Hs). cbn. lia.
    + apply (ls_free _ _ _ _ _ _ _ Hs) in Hb as [Hb| ->]; [by apply (ar_l1_pos _ _ Hr)|]. by destruct (ls_new _ _ _ _ _ _ _ Hs).
Qed.

Lemma split_l1_spec t g a len : addr_rep t g -> a ∈ g_l1 g l1_free -> (TABLE_AREA | len) -> 0 < len < (l1r t a).2 ->
  wp (split_l1_span a len) t (fun (res : Z) t' => exists g', addr_rep t' g' /\ l1_only t t' g g' /\
    sp_free (g_p1 g') ∪ sp_used (g_p1 g') = sp_free (g_p1 g) ∪ sp_used (g_p1 g) /\
    ((res <> OK /\ g' = g /\ forall b, l1r t' b = l1r t b) \/ (res = OK /\ exists n, l1_split t t' g g' a n len))).
Proof.
  intros Hr Ha Hal Hlen. assert (Hia : is_l1 g a) by (by exists l1_free).
  pose proof (ar_l1_ok _ _ Hr _ Hia) as (_ & _ & B1 & B2 & B3). unfold SPACE_END in B3.
  unfold split_l1_span. apply wpe_bind, wpe_zoom. apply (alloc_block l1_block _ (g_p1 g)); [apply Hr| |].
  - intros p' Hp' _. rewrite Z.eqb_refl. apply wpe_ret. exists g.
    split; [|split; [by constructor|split; [done|by left]]]. destruct Hr; by constructor.
  - intros n p' Hn Hfree Hused Hp'. rewrite (proj2 (Z.eqb_neq _ _)) by done.
    assert (Hnew : ~ is_l1 g n) by (intros Hin; by apply Hused, (ar_l1_used _ _ Hr)).
    apply list_elem_of_split in Ha as Hsplit. destruct Hsplit as (pre & post & Hsp).
    pose proof (ar_l1 _ _ Hr l1_free) as Hh. destruct (hlist_elem _ _ _ _ Hh Ha) as (_ & y & Hy). rewrite Hsp in Hh.
    assert (Es : l1r t a = (hn_va y, hn_len y)) by (unfold l1r, range_of; by rewrite Hy).
    pose proof Hlen as Hlen'. rewrite Es in Hlen', B1, B2, B3. cbn in Hlen', B1, B2, B3.
    apply wpe_bind, wpe_zoom. eapply wpe_mono; [apply (split_at_spec _ l1_free pre a post y n len); [done|done|done|]|cbn beta|done].
    { rewrite <-Hsp. intros Hin. apply Hnew. by exists l1_free. }
    intros _ h' (Hl' & Hheads & Elow & Ehigh & Eother & Enodes).
    do 2 (apply wpe_bind, wpe_zoom, wpe_modify). apply wpe_ret. cbn.
    set (g' := mk_ghost (<[l1_free := pre ++ a :: n :: post]> (g_l1 g)) (g_sp g) (taken n (g_p1 g)) (g_p2 g)).
    match goal with |- exists g', addr_rep ?t0 g' /\ _ => set (t' := t0) end.
    assert (Hs : l1_split t t' g g' a n len).
    { constructor; [done| | |done| | |].
      - cbn. by rewrite fn_lookup_insert_ne.
      - intros b. cbn. rewrite fn_lookup_insert, Hsp. set_solver.
      - rewrite Es. unfold l1r, t'. cbn. by rewrite Elow.
      - rewrite Es. unfold l1r, t'. cbn. rewrite Ehigh. cbn. by rewrite !u32_small by lia.
      - intros b Hba Hbn. unfold l1r, t'. cbn. by rewrite Eother. }
    assert (Hlo : l1_only t t' g g') by by constructor.
    pose proof (l1_split_is _ _ _ _ _ _ _ Hs) as His.
    exists g'. split; [|split; [done|split; [cbn; apply set_eq; intros z; destruct (decide (z = n)); set_solver|right; eauto]]].
    destruct (l1_split_ok _ _ _ _ _ _ _ Hr Hs Ha Hlen Hal) as [Hok Hpos].
    constructor; intros; try (by apply Hr).
    + exact Hp'.
    + destruct k; cbn; [by rewrite fn_lookup_insert|]. rewrite fn_lookup_insert_ne by done.
      destruct (ar_l1 _ _ Hr l1_mapped) as (h & Hhk & Hseg). exists h. rewrite Hheads. split; [done|].
      eapply hseg_ext; [|exact Hseg]. intros b Hb. apply Enodes; [intros ->; apply Hnew; by exists l1_mapped|].
      intros Hin. eapply (ar_l1_disj _ _ Hr b); [done|]. rewrite Hsp. set_solver.
    + apply (ls_free _ _ _ _ _ _ _ Hs) in H0 as [H0| ->]; rewrite (ls_mapped _ _ _ _ _ _ _ Hs) in H.
      * by eapply (ar_l1_disj _ _ Hr).
      * apply Hnew. by exists l1_mapped.
    + cbn. apply His in H as [H| ->]; [|set_solver]. apply elem_of_union. right. by apply (ar_l1_used _ _ Hr).
    + apply His in H as [H| ->].
      * assert (Hln : l <> n) by (intros ->; done). destruct (ar_sp _ _ Hr l side H) as (h & Hhk & Hseg).
        exists h. cbn. rewrite !lookup_insert_ne by congruence. by split.
      * cbn. rewrite (no_spans t g n Hr) by (intros Hin; apply Hnew; by exists l1_mapped). exists NIL. split; [|done].
        cbn. destruct side; [apply lookup_insert_eq|]. rewrite lookup_insert_ne by done. apply lookup_insert_eq.
    + rewrite (ls_mapped _ _ _ _ _ _ _ Hs). by apply (ar_sp_in _ _ Hr) in H.
    + by eapply (ar_sp_disj _ _ Hr).
    + by eapply (ar_sp_used _ _ Hr).
    + by apply Hok.
    + by apply Hpos.
    + by eapply (l1_split_apart _ _ _ _ _ _ _ Hr Hs Hia Hlen).
    + assert (Hl : l ∈ g_l1 g l1_mapped) by (by apply (ar_sp_in _ _ Hr) in H).
      rewrite (ls_other _ _ _ _ _ _ _ Hs); [by apply (ar_sp_ok _ _ Hr)| |].
      * intros ->. by eapply (ar_l1_disj _ _ Hr).
      * intros ->. apply Hnew. by exists l1_mapped.
    + by eapply (ar_sp_apart _ _ Hr).
Qed.

(** ** A new range's span

    get_free_span_slot does not put the span of a new range on the range's list of
    free spans: the head is written with the loop variable, which is nil then.  The
    head is read again only after use_span has overwritten it. *)
Definition with_head t (k : Z * span_list) (v : Z) : addrs E :=
  set_ad_span (set_hs_head (<[k := v]> (hs_head (ad_span t))) (ad_span t)) t.

Lemma take_add_head (s : hstore (Z * span_list)) k v a nl y : hs_node s !! a = Some y -> hn_holder y = HHead k ->
  take_add a nl (set_hs_head (<[k := v]> (hs_head s)) s) = take_add a nl s.
Proof.
  intros Hy Hk. unfold take_add, get_hnode, bind, read. cbn [hs_node set_hs_head]. rewrite Hy, Hk.
  cbn [put_hplace modify]. unfold modify. cbn [hs_head set_hs_head hs_node]. unfold set_hs_head. cbn.
  by rewrite insert_insert_eq.
Qed.

Lemma split_at_alone (s : hstore (Z * span_list)) a n len (y : span) : hs_node s !! a = Some y -> hn_next y = NIL -> a <> n ->
  split_at a n len s = Ok tt (set_hs_node (<[a := mk_hnode (hn_va y) len (hn_holder y) n]>
    (<[n := mk_hnode (u32 (hn_va y + len)) (u32 (hn_len y - len)) (HNext a) NIL]> (hs_node s))) s).
Proof.
  intros Hy Hn Han. unfold split_at, get_hnode, put_hnode, rehold, upd_hnode, bind, read. rewrite Hy, Hn, Z.eqb_refl.
  unfold modify, ret. cbn. unfold get_hnode, put_hnode, bind, read, modify. cbn. rewrite lookup_insert_ne by done.
  rewrite Hy. cbn. rewrite lookup_insert_eq. cbn. unfold set_hs_node. cbn. by rewrite insert_insert_eq.
Qed.

Lemma use_span_head t k v len fl fs (y : span) res t' : hs_node (ad_span t) !! fs = Some y -> hn_holder y = HHead k ->
  hn_next y = NIL -> fs <> NIL -> (forall n p', pool_alloc (span_pool t) = Ok n p' -> n <> fs) ->
  use_span len fl fs t = Ok res t' ->
  use_span len fl fs (with_head t k v) = Ok res (if res =? NIL then with_head t' k v else t').
Proof.
  intros Hy Hk Hn Hfs Hnew. unfold use_span.
  rewrite (bind_ok (on_span (get_hnode fs)) _ t y t) by by apply get_span_ok.
  rewrite (bind_ok (on_span (get_hnode fs)) _ (with_head t k v) y (with_head t k v)) by by apply get_span_ok.
  destruct (len <? hn_len y).
  - unfold split_span, on_span_pool, bind, zoom. cbn [span_pool with_head set_ad_span].
    destruct (pool_alloc (span_pool t)) as [n p'|w p'| |] eqn:Ep; try done.
    destruct (Z.eqb_spec n NIL).
    + cbn. intros [= <- <-]. done.
    + assert (Hnfs : fs <> n) by (intros ->; by eapply Hnew).
      unfold on_span, zoom. cbn [ad_span set_span_pool with_head set_ad_span].
      rewrite (split_at_alone _ fs n len y Hy Hn Hnfs). erewrite (split_at_alone _ fs n len y); [|exact Hy|done|done].
      cbn. unfold take_add_span, on_span, zoom. cbn [ad_span set_ad_span].
      match goal with |- context [take_add fs (HHead (fl, sp_list_mapped)) (set_hs_node ?N (ad_span t))] => set (s1 := set_hs_node N (ad_span t)) end.
      match goal with |- context [take_add fs (HHead (fl, sp_list_mapped)) (set_hs_node ?N (set_hs_head ?hd (ad_span t)))] =>
        change (set_hs_node N (set_hs_head hd (ad_span t))) with (set_hs_head (<[k := v]> (hs_head s1)) s1) end.
      erewrite take_add_head; [|unfold s1; cbn; apply lookup_insert_eq|done].
      destruct (take_add fs (HHead (fl, sp_list_mapped)) s1) as [[] s2|w s2| |]; try done. intros [= <- <-].
      rewrite (proj2 (Z.eqb_neq _ _)) by done. done.
  - cbn. unfold take_add_span, on_span, zoom, bind. cbn [ad_span with_head set_ad_span].
    erewrite take_add_head; [|exact Hy|done].
    destruct (take_add fs (HHead (fl, sp_list_mapped)) (ad_span t)) as [[] s2|w s2| |]; try done. intros [= <- <-].
    rewrite (proj2 (Z.eqb_neq _ _)) by done. done.
Qed.

(** The state in which the new span is on its list, from the one in which it is a
    node on no list. *)
Lemma rep_new_span t g fl fs : addr_rep t g -> fl ∈ g_l1 g l1_mapped -> (forall side, g_sp g (fl, side) = []) ->
  fs <> NIL -> fs ∈ sp_used (g_p2 g) -> (forall k, fs ∉ g_sp g k) -> 0 < (l1r t fl).1 ->
  hs_node (ad_span t) !! fs = Some (mk_hnode (l1r t fl).1 (l1r t fl).2 (HHead (fl, sp_list_free)) NIL) ->
  let L := <[(fl, sp_list_free) := [fs]]> (g_sp g) in
  let t2 := with_head t (fl, sp_list_free) fs in
  let g2 := mk_ghost (g_l1 g) L (g_p1 g) (g_p2 g) in
  addr_rep t2 g2 /\ (forall x, busy t2 g2 x <-> busy t g x) /\
  (forall x, idle t2 g2 x <-> idle t g x \/ in_range (l1r t fl) x).
Proof.
  intros Hr Hfl Hnone Hfs Hused Hnew Hpos Hnode L t2 g2. subst L.
  assert (Hia : is_l1 g fl) by (by exists l1_mapped). pose proof (ar_l1_ok _ _ Hr _ Hia) as (A1 & A2 & A3 & A4 & A5).
  assert (Efs : spr t fs = l1r t fl) by (unfold spr at 1, range_of; rewrite Hnode; cbn; by destruct (l1r t fl)).
  assert (Hmem : forall k b, b ∈ g_sp g2 k <-> b ∈ g_sp g k \/ (k = (fl, sp_list_free) /\ b = fs)).
  { intros k b. cbn. destruct (decide ((fl, sp_list_free) = k)) as [<-|Hk].
    - rewrite fn_lookup_insert, Hnone. set_solver.
    - rewrite fn_lookup_insert_ne by done. naive_solver. }
  assert (Hsp : forall l a, is_span g2 l a <-> is_span g l a \/ (l = fl /\ a = fs)).
  { intros l a. unfold is_span. setoid_rewrite Hmem. naive_solver. }
  assert (Hout : forall l a x, is_span g l a -> in_range (spr t a) x -> ~ in_range (l1r t fl) x).
  { intros l a x Ha Hx Hx'. assert (l = fl) as ->.
    - eapply (ar_l1_apart _ _ Hr); [exists l1_mapped; by eapply (ar_sp_in _ _ Hr)|done|by eapply span_in_l1|done].
    - destruct Ha as [side Ha]. rewrite Hnone in Ha. set_solver. }
  split; [|split].
  - constructor; intros; repeat (rewrite ?Hsp in * ); try (by apply Hr).
    + by eapply (ar_l1_disj _ _ Hr).
    + by apply (ar_l1_used _ _ Hr).
    + destruct (decide ((fl, sp_list_free) = (l, side))) as [[= <- <-]|Hk].
      * cbn. rewrite fn_lookup_insert. exists fs. cbn. rewrite lookup_insert_eq. split; [done|].
        split; [done|]. split; [done|]. by eexists.
      * cbn. rewrite fn_lookup_insert_ne by done. destruct (ar_sp _ _ Hr l side H) as (h & Hh & Hs). exists h.
        cbn. rewrite lookup_insert_ne by done. by split.
    + destruct H as [H|[-> ->]]; [by eapply (ar_sp_in _ _ Hr)|done].
    + apply Hmem in H as [H|[-> ->]], H0 as [H0|[-> E0]]; [by eapply (span_unique t g)| | |done].
      * subst. by destruct (Hnew k).
      * by destruct (Hnew k').
    + destruct H as [H|[-> ->]]; [by eapply (ar_sp_used _ _ Hr)|done].
    + by eapply (ar_l1_apart _ _ Hr).
    + destruct H as [H|[-> ->]]; [by apply (ar_sp_ok _ _ Hr)|]. change (spr t2 fs) with (spr t fs).
      change (l1r t2 fl) with (l1r t fl). rewrite Efs.
      assert (HD : (PAGE_SIZE | TABLE_AREA)) by (by exists 256).
      split_and!; [by etransitivity|by etransitivity|lia..].
    + change (spr t2 a) with (spr t a) in *. change (spr t2 a') with (spr t a') in *.
      destruct H as [H|[-> ->]], H0 as [H0|[-> ->]]; [by eapply (ar_sp_apart _ _ Hr)| | |done]; exfalso.
      * rewrite Efs in H2. by eapply Hout.
      * rewrite Efs in H1. by eapply Hout.
  - intros x. split.
    + intros (l & a & [Ha|[[=] _]]%Hmem & Hx). by exists l, a.
    + intros (l & a & Ha & Hx). exists l, a. split; [|done]. apply Hmem. by left.
  - intros x. split.
    + intros (l & a & [Ha|[[= ->] ->]]%Hmem & Hx); [left; by exists l, a|right; by rewrite <-Efs].
    + intros [(l & a & Ha & Hx)|Hx].
      * exists l, a. split; [|done]. apply Hmem. by left.
      * exists fl, fs. split; [|by rewrite <-Efs in Hx]. apply Hmem. by right.
Qed.

(** A node on no list changes nothing. *)
Lemma rep_new_node t g p' fs y : addr_rep t g -> fs ∈ sp_free (g_p2 g) -> pool_rep span_block p' (taken fs (g_p2 g)) ->
  (forall k, fs ∉ g_sp g k) ->
  let t' := set_ad_span (set_hs_node (<[fs := y]> (hs_node (ad_span t))) (ad_span t)) (set_span_pool p' t) in
  addr_rep t' (mk_ghost (g_l1 g) (g_sp g) (g_p1 g) (taken fs (g_p2 g))) /\ forall b, b <> fs -> spr t' b = spr t b.
Proof.
  intros Hr Hfree Hp Hnew t'.
  assert (Hspr : forall b, b <> fs -> spr t' b = spr t b).
  { intros b Hb. unfold spr, range_of, t'. cbn. by rewrite lookup_insert_ne. }
  assert (Hne : forall l a, is_span g l a -> a <> fs) by (intros l a [side Ha] ->; by eapply Hnew).
  split; [|done]. constructor; intros; try (by apply Hr).
  - exact Hp.
  - by eapply (ar_l1_disj _ _ Hr).
  - by apply (ar_l1_used _ _ Hr).
  - destruct (ar_sp _ _ Hr l side H) as (h & Hh & Hs). exists h. split; [done|]. cbn.
    eapply hseg_ext; [|exact Hs]. intros b Hb. apply lookup_insert_ne. intros <-. by eapply Hnew.
  - by eapply (ar_sp_in _ _ Hr).
  - by eapply (ar_sp_disj _ _ Hr).
  - cbn. apply elem_of_union. right. by eapply (ar_sp_used _ _ Hr).
  - by eapply (ar_l1_apart _ _ Hr).
  - rewrite Hspr by (by eapply Hne). by apply (ar_sp_ok _ _ Hr).
  - rewrite Hspr in H1, H2 by (by eapply Hne). by eapply (ar_sp_apart _ _ Hr).
Qed.

Lemma head_nil t g l side : addr_rep t g -> is_l1 g l -> g_sp g (l, side) = [] -> hs_head (ad_span t) !! (l, side) = Some NIL.
Proof. intros Hr Hl Hn. destruct (ar_sp _ _ Hr l side Hl) as (h & Hh & Hs). rewrite Hn in Hs. cbn in Hs. by rewrite Hh, Hs. Qed.

Lemma with_head_id t k v : hs_head (ad_span t) !! k = Some v -> with_head t k v = t.
Proof.
  intros Hv. unfold with_head. rewrite insert_id by done. unfold set_hs_head, set_ad_span. destruct t as [? ? ? []]. done.
Qed.

(** A range's free spans are forgotten. *)
Lemma rep_drop t g l : addr_rep t g -> is_l1 g l ->
  let g' := mk_ghost (g_l1 g) (<[(l, sp_list_free) := []]> (g_sp g)) (g_p1 g) (g_p2 g) in
  addr_rep (with_head t (l, sp_list_free) NIL) g' /\
  (forall k a, a ∈ g_sp g' k <-> a ∈ g_sp g k /\ k <> (l, sp_list_free)).
Proof.
  intros Hr Hl g'.
  assert (Hmem : forall k a, a ∈ g_sp g' k <-> a ∈ g_sp g k /\ k <> (l, sp_list_free)).
  { intros k a. cbn. destruct (decide ((l, sp_list_free) = k)) as [<-|Hk].
    - rewrite fn_lookup_insert. set_solver.
    - rewrite fn_lookup_insert_ne by done. naive_solver. }
  split; [|done]. apply (rep_respan t _ g); [done|by constructor|done|done|done| | |].
  - intros l' side Hl'. destruct (decide ((l, sp_list_free) = (l', side))) as [[= <- <-]|Hk].
    + cbn. rewrite fn_lookup_insert. exists NIL. cbn. by rewrite lookup_insert_eq.
    + cbn. rewrite fn_lookup_insert_ne by done. destruct (ar_sp _ _ Hr l' side Hl') as (h & Hh & Hs). exists h.
      cbn. rewrite lookup_insert_ne by done. by split.
  - intros l' a [side [Ha _]%Hmem]. by exists side.
  - intros k k' a [Ha _]%Hmem [Ha' _]%Hmem. by eapply (span_unique t g).
Qed.

Lemma forget_spans t g l t' g' x : addr_rep t g -> l ∈ g_l1 g l1_mapped -> (forall side, g_sp g (l, side) = []) ->
  addr_rep t' g' -> g_l1 g' = g_l1 g -> (forall b, l1r t' b = l1r t b) ->
  (forall x, busy t' g' x <-> busy t g x) ->
  (forall x, idle t' g' x <-> idle t g x \/ in_range (l1r t l) x) ->
  let g'' := mk_ghost (g_l1 g') (<[(l, sp_list_free) := []]> (g_sp g')) (g_p1 g') (g_p2 g') in
  forall side, bytes side (with_head t' (l, sp_list_free) NIL) g'' x <-> bytes side t g x.
Proof.
  intros Hr Hl Hnone Hr' Hgl Hl1r Hbusy Hidle g''. assert (Hl' : is_l1 g' l) by (exists l1_mapped; by rewrite Hgl).
  destruct (rep_drop t' g' l Hr' Hl') as [_ Hmem]. fold g'' in Hmem. intros [].
  - split.
    + intros (l0 & a & [Ha Hk]%Hmem & Hx). change (spr (with_head t' (l, sp_list_free) NIL) a) with (spr t' a) in Hx.
      assert (Hi : idle t' g' x) by (by exists l0, a). apply Hidle in Hi as [Hi|Hi]; [done|]. exfalso. apply Hk.
      assert (l0 = l) as ->; [|done]. eapply (ar_l1_apart _ _ Hr'); [|exact Hl'| |by rewrite Hl1r].
      * exists l1_mapped. eapply (ar_sp_in _ _ Hr'). by eexists.
      * eapply span_in_l1; [done|by eexists|done].
    + intros Hi. assert (Hi' : idle t' g' x) by (apply Hidle; by left). destruct Hi' as (l0 & a & Ha & Hx).
      exists l0, a. split; [|done]. apply Hmem. split; [done|]. intros [= ->]. destruct Hi as (l1 & b & Hb & Hxb).
      assert (l1 = l) as ->; [|rewrite Hnone in Hb; set_solver].
      eapply (ar_l1_apart _ _ Hr); [|by exists l1_mapped| |].
      * exists l1_mapped. eapply (ar_sp_in _ _ Hr). by eexists.
      * eapply span_in_l1; [done|by eexists|done].
      * rewrite <-Hl1r. eapply span_in_l1; [done|by eexists|done].
  - rewrite <-Hbusy. split.
    + intros (l0 & a & [Ha Hk]%Hmem & Hx). by exists l0, a.
    + intros (l0 & a & Ha & Hx). exists l0, a. split; [|done]. apply Hmem. split; [done|congruence].
Qed.

Lemma new_span_spec t g fl len : addr_rep t g -> fl ∈ g_l1 g l1_mapped -> (forall side, g_sp g (fl, side) = []) ->
  0 < (l1r t fl).1 -> (PAGE_SIZE | len) -> 0 < len <= (l1r t fl).2 ->
  wp (new_span len fl (Some NIL)) t (fun (res : Z) t' => exists g', addr_rep t' g' /\ spans_only t t' g g' /\
    same_blocks g g' /\
    ((res = NIL /\ forall side x, bytes side t' g' x <-> bytes side t g x) \/
     exists va, span_at t' res (va, len) /\ range_good (va, len) /\
       (forall x, busy t' g' x <-> busy t g x \/ in_range (va, len) x) /\
       (forall x, idle t g x \/ in_range (l1r t fl) x <-> idle t' g' x \/ in_range (va, len) x))).
Proof.
  intros Hr Hfl Hnone Hpos Hal Hlen. assert (Hia : is_l1 g fl) by (by exists l1_mapped).
  destruct (hlist_elem _ _ _ _ (ar_l1 _ _ Hr l1_mapped) Hfl) as (_ & z & Hz).
  assert (El : l1r t fl = (hn_va z, hn_len z)) by (unfold l1r, range_of; by rewrite Hz).
  unfold new_span. apply wpe_bind, wpe_zoom. apply (alloc_block span_block _ (g_p2 g)); [apply Hr| |].
  { intros p' Hp' _. rewrite Z.eqb_refl. apply wpe_ret. exists g.
    split; [|split; [by constructor|split; [done|by left]]]. destruct Hr; by constructor. }
  intros fs p' Hfs Hfree Hused Hp'. rewrite (proj2 (Z.eqb_neq _ _)) by done.
  assert (Hnew : forall k, fs ∉ g_sp g k) by (intros [l side] Hin; apply Hused, (ar_sp_used _ _ Hr l); by exists side).
  apply wpe_bind. eapply wpe_ok; [by apply get_l1_ok|]. cbn beta. apply wpe_bind, wpe_zoom. unfold write_node.
  rewrite (proj2 (Z.eqb_neq _ _)) by done. apply wpe_modify. cbn [ad_span set_span_pool].
  set (y := mk_hnode (hn_va z) (hn_len z) (HHead (fl, sp_list_free)) NIL).
  destruct (rep_new_node t g p' fs y Hr Hfree Hp' Hnew) as [Hr1 Hspr]. cbv zeta in Hr1, Hspr.
  match type of Hr1 with addr_rep ?x ?y => set (t1 := x) in *; set (g1 := y) in * end.
  assert (Hb1 : forall side x, bytes side t1 g1 x <-> bytes side t g x).
  { intros side x. split; intros (l & a & Ha & Hx); exists l, a; (split; [done|]); cbn in Ha;
      (rewrite Hspr in * by (intros ->; by eapply Hnew)); done. }
  assert (Hblocks : same_blocks g g1) by (unfold same_blocks; cbn; apply set_eq; intros w; destruct (decide (w = fs)); set_solver).
  assert (Hy1 : hs_node (ad_span t1) !! fs = Some y) by apply lookup_insert_eq.
  destruct (rep_new_span t1 g1 fl fs Hr1 Hfl Hnone Hfs) as (Hr2 & Hbusy & Hidle);
    [cbn; set_solver|done|done|change (l1r t1 fl) with (l1r t fl); rewrite Hy1; by rewrite El|].
  match type of Hr2 with addr_rep ?x ?y => set (t2 := x) in *; set (g2 := y) in * end.
  assert (E0 : with_head t1 (fl, sp_list_free) NIL = t1).
  { apply with_head_id, (head_nil t1 g1 fl sp_list_free Hr1); [by exists l1_mapped|apply Hnone]. }
  assert (E1 : with_head t2 (fl, sp_list_free) NIL = t1).
  { transitivity (with_head t1 (fl, sp_list_free) NIL); [|exact E0]. unfold t2, with_head. cbn. by rewrite insert_insert_eq. }
  apply wpe_bind. eapply (wpe_ok _ _ tt t1).
  { change (Ok tt (with_head t1 (fl, sp_list_free) NIL) = Ok tt t1). by rewrite E0. }
  cbn beta.
  assert (Efs : spr t2 fs = l1r t fl) by (unfold spr, range_of; cbn; rewrite lookup_insert_eq, El; done).
  pose proof (use_span_spec t2 g2 fl fs len Hr2) as Hu.
  destruct (wp_inv _ _ _ (Hu ltac:(cbn; rewrite fn_lookup_insert; set_solver) Hal ltac:(by rewrite Efs)))
    as (res & t' & Hrun & g' & Hr' & Hso & Hsb & Hg).
  eapply use_span_head with (v := NIL) in Hrun; [|exact Hy1|done|done|done|].
  - rewrite E1 in Hrun. eapply wpe_ok; [exact Hrun|]. cbn beta.
    destruct Hso as [So1 So2 So3 So4 So5 So6 So7].
    destruct Hg as [[-> Hsame]|(va & Hat & Hgood & Hbt & Hit)].
    + rewrite Z.eqb_refl. assert (Hl' : is_l1 g' fl) by (exists l1_mapped; by rewrite So6).
      destruct (rep_drop t' g' fl Hr' Hl') as [Hr'' _].
      eexists. split; [exact Hr''|]. split; [by constructor|]. split; [unfold same_blocks in *; cbn in *; congruence|].
      left. split; [done|]. intros side x. rewrite <-Hb1.
      apply (forget_spans t1 g1 fl t' g' x Hr1 Hfl Hnone Hr' So6).
      * intros b. unfold l1r. by rewrite So4.
      * intros w. by rewrite Hsame, Hbusy.
      * intros w. by rewrite Hsame, Hidle.
    + rewrite (proj2 (Z.eqb_neq _ _)) by apply Hat. exists g'. split; [done|]. split; [by constructor|].
      split; [unfold same_blocks in *; cbn in *; congruence|]. right. exists va. split; [done|]. split; [done|].
      split; intros x; [by rewrite Hbt, Hbusy, Hb1|by rewrite <-Hit, Hidle, Hb1].
  - intros n p2 Hal' ->. change (pool_alloc p' = Ok fs p2) in Hal'.
    assert (Hw : wp pool_alloc p' (fun n _ => n <> fs)).
    { apply (alloc_block span_block _ (taken fs (g_p2 g))); [done|by intros; intros <-|].
      intros n q _ Hn _ _ ->. cbn in Hn. set_solver. }
    destruct (wp_inv _ _ _ Hw) as (n & q & Hrun' & Hne). rewrite Hal' in Hrun'. by injection Hrun'.
Qed.
End reps.
Abbreviation busy := (bytes sp_list_mapped).
Abbreviation idle := (bytes sp_list_free).
