(* ===== verification/AddrSpec.v ===== *)
(** * What the address space promises

    [SpaceOk] is what the kernel and the parent promise in turn: which bytes have
    a table, which are mapped, and how long the frames are.  A frame is mapped only
    where nothing is and where there are tables, which the kernel asks for.
    [space_inv] relates the lists of the process to what the kernel has mapped. *)
From stdpp Require Import functions.
From S2P Require Import Prelude KState Mmu Pool HList Addr AddrProps.
From S2P Require Ranges.

Local Open Scope Z_scope.
Local Open Scope c_scope.
Import Ranges (in_range, taken).

Class SpaceOk (E : Type) `{Space E} := {
  env_len : E -> Z -> option Z;
  env_table : E -> Z -> Prop;
  env_mapped : E -> Z -> Prop;
  env_len_ok : forall e fid n, env_len e fid = Some n -> 0 < n <= 2 ^ 31 /\ (PAGE_SIZE | n);
  request_memory_ok : forall len e, 0 < len <= 2 ^ 31 -> (PAGE_SIZE | len) ->
    wp (request_memory len 0x1000) e (fun r e' =>
      (forall f n, env_len e f = Some n -> env_len e' f = Some n) /\
      (forall x, env_table e' x <-> env_table e x) /\ (forall x, env_mapped e' x <-> env_mapped e x) /\
      (0 <= r -> env_len e r = None /\ env_len e' r = Some len));
  release_memory_ok : forall fid e, wp (release_memory fid) e (fun _ e' =>
      (forall f n, f <> fid -> env_len e f = Some n -> env_len e' f = Some n) /\
      (forall x, env_table e' x <-> env_table e x) /\ (forall x, env_mapped e' x <-> env_mapped e x));
  frame_info_ok : forall fid n e, env_len e fid = Some n -> wp (frame_info fid) e (fun r e' =>
      e' = e /\ let '(r, type, pa, len) := r in r = OK -> len = n);
  frame_map_ok : forall fid va n e, env_len e fid = Some n -> range_good (va, n) ->
    (forall x, in_range (va, n) x -> env_table e x /\ ~ env_mapped e x) ->
    wp (frame_map CID_L1 fid va) e (fun r e' =>
      (forall f n, env_len e f = Some n -> env_len e' f = Some n) /\
      (forall x, env_table e' x <-> env_table e x) /\
      (forall x, env_mapped e' x -> env_mapped e x \/ in_range (va, n) x) /\
      (r = OK -> forall x, env_mapped e x \/ in_range (va, n) x -> env_mapped e' x));
  frame_unmap_ok : forall fid va n e, range_good (va, n) -> wp (frame_unmap CID_L1 fid va) e (fun r e' =>
      (forall f n, env_len e f = Some n -> env_len e' f = Some n) /\
      (forall x, env_table e' x <-> env_table e x) /\ (forall x, env_mapped e' x -> env_mapped e x) /\
      (r = OK -> env_len e fid = Some n -> forall x, env_mapped e' x <-> env_mapped e x /\ ~ in_range (va, n) x));
  frame_l2_map_ok : forall fid va n e, env_len e fid = Some n -> (TABLE_AREA | va) ->
    (forall x, in_range (va, n * 256) x -> ~ env_table e x) ->
    wp (frame_l2_map CID_L1 fid va) e (fun r e' =>
      (forall f n, env_len e f = Some n -> env_len e' f = Some n) /\
      (forall x, env_table e' x <-> env_table e x \/ (r = OK /\ in_range (va, n * 256) x)) /\
      (forall x, env_mapped e' x <-> env_mapped e x));
  frame_l2_unmap_ok : forall fid va n e, env_len e fid = Some n ->
    (forall x, in_range (va, n * 256) x -> env_table e x /\ ~ env_mapped e x) ->
    wp (frame_l2_unmap CID_L1 fid va) e (fun _ e' =>
      (forall f n, env_len e f = Some n -> env_len e' f = Some n) /\
      (forall x, env_table e' x <-> env_table e x /\ ~ in_range (va, n * 256) x) /\
      (forall x, env_mapped e' x <-> env_mapped e x))
}.

Section space.
Context {E : Type} `{SpaceOk E}.
Implicit Types (t : addrs E) (g : ghost) (a b l n x len : Z) (e : E).

Definition lens_kept e e' : Prop := forall f n, env_len e f = Some n -> env_len e' f = Some n.
Definition tables_same e e' : Prop := forall x, env_table e' x <-> env_table e x.
Definition maps_same e e' : Prop := forall x, env_mapped e' x <-> env_mapped e x.

(** The bytes of the blocks of a pool, headers included. *)
Definition block_bytes (sz : Z) (P : pool_spec) x : Prop :=
  exists v, v ∈ sp_free P ∪ sp_used P /\ in_range (v - sizeof_pool_obj, sz) x.

Record env_inv t g : Prop := {
  ei_table : forall l x, l ∈ g_l1 g l1_mapped -> in_range (l1r t l) x -> env_table (ad_env t) x;
  ei_notable : forall x, reserve t g x -> ~ env_table (ad_env t) x;
  ei_unmapped : forall x, idle t g x \/ reserve t g x -> ~ env_mapped (ad_env t) x;
  ei_blocks1 : forall x, block_bytes l1_block (g_p1 g) x -> busy t g x;
  ei_blocks2 : forall x, block_bytes span_block (g_p2 g) x -> busy t g x;
  ei_some : g_l1 g l1_mapped <> []
}.
Record space_inv t g : Prop := {
  si_rep : addr_rep t g;
  si_env : env_inv t g;
  si_init : initialized t = true
}.

Lemma idle_table t g x : space_inv t g -> idle t g x -> env_table (ad_env t) x.
Proof.
  intros [Hr He _] (l & a & Ha & Hx). apply (ei_table _ _ He l); [eapply (ar_sp_in _ _ Hr); by eexists|].
  eapply span_in_l1; [done|by eexists|done].
Qed.

Lemma rep_env t g e : addr_rep t g -> addr_rep (set_ad_env e t) g.
Proof. intros []. by constructor. Qed.

Lemma space_env t g e : space_inv t g -> tables_same (ad_env t) e -> maps_same (ad_env t) e -> space_inv (set_ad_env e t) g.
Proof.
  intros [Hr [H1 H2 H3 H4 H5 H6] Hi] Ht Hm. split; [by apply rep_env| |done]. constructor; try done; cbn.
  - intros l x Hl Hx. apply Ht. by eapply H1.
  - intros x Hx Hx'. by apply (H2 x Hx), Ht.
  - intros x Hx Hx'. by apply (H3 x Hx), Hm.
Qed.

(** Spans are moved within what is busy and idle. *)
Lemma env_inv_spans t t' g g' : env_inv t g -> spans_only t t' g g' -> same_blocks g g' ->
  (forall x, busy t g x -> busy t' g' x) -> (forall x, idle t' g' x -> idle t g x) -> env_inv t' g'.
Proof.
  intros [H1 H2 H3 H4 H5 H6] [_ _ So3 So4 So5 So6 So7] Hb Hbusy Hidle.
  assert (Hl1r : forall b, l1r t' b = l1r t b) by (intros; unfold l1r; by rewrite So4).
  assert (Hres : forall x, reserve t' g' x <-> reserve t g x).
  { intros x. unfold reserve. rewrite So6. by setoid_rewrite Hl1r. }
  constructor; rewrite ?So3, ?So6, ?So7; try done.
  - intros l x. rewrite Hl1r. apply H1.
  - intros x. rewrite Hres. apply H2.
  - intros x. rewrite Hres. intros [Hx|Hx]; apply H3; [left; by apply Hidle|by right].
  - intros x Hx. by apply Hbusy, H4.
  - intros x (v & Hv & Hx). apply Hbusy, H5. exists v. by rewrite <-Hb.
Qed.

Definition blocks_kept g g' : Prop :=
  sp_free (g_p1 g') ∪ sp_used (g_p1 g') = sp_free (g_p1 g) ∪ sp_used (g_p1 g) /\ same_blocks g g'.

(** The answer of get_free_span_slot. *)
Definition slot t g len (res : Z) t' g' : Prop :=
  (res = NIL /\ forall x, busy t' g' x <-> busy t g x) \/
  exists va, span_at t' res (va, len) /\ range_good (va, len) /\
    (forall x, busy t' g' x <-> busy t g x \/ in_range (va, len) x) /\
    (forall x, in_range (va, len) x -> ~ busy t g x /\ env_table (ad_env t') x /\ ~ env_mapped (ad_env t') x).
Definition slot_post t g len (res : Z) t' : Prop := exists g', space_inv t' g' /\ checking t' = checking t /\
  lens_kept (ad_env t) (ad_env t') /\ maps_same (ad_env t) (ad_env t') /\ blocks_kept g g' /\ slot t g len res t' g'.

Lemma use_span_slot t g l a len : space_inv t g -> a ∈ g_sp g (l, sp_list_free) -> (PAGE_SIZE | len) ->
  0 < len <= (spr t a).2 -> wp (use_span len l a) t (slot_post t g len).
Proof.
  intros Hs Ha Hal Hlen. pose proof Hs as [Hr He Hi].
  eapply wpe_mono; [by apply (use_span_spec t g l a len)|cbn beta|done].
  intros res t' (g' & Hr' & Hso & Hb & Hg). exists g'.
  assert (Hok : (forall x, busy t g x -> busy t' g' x) /\ (forall x, idle t' g' x -> idle t g x)).
  { destruct Hg as [[_ Hg]|(va & _ & _ & H1 & H2)]; split; intros x Hx; [by apply Hg|by apply Hg|apply H1; by left|apply H2; by left]. }
  split; [split; [done|by apply (env_inv_spans t t' g g'); [..|apply Hok|apply Hok]|by rewrite (so_init _ _ _ _ Hso)]|].
  split; [apply Hso|]. rewrite (so_env _ _ _ _ Hso). split; [by intros ? ?|]. split; [by intros ?|].
  split; [split; [by rewrite (so_gp1 _ _ _ _ Hso)|done]|].
  destruct Hg as [[-> Hg]|(va & Hat & Hgood & H1 & H2)]; [left; split; [done|by intros x; apply Hg]|right].
  exists va. split; [done|]. split; [done|]. split; [done|]. intros x Hx. assert (Hidle : idle t g x) by (apply H2; by right).
  rewrite (so_env _ _ _ _ Hso).
  split; [intros Hbx; exact (not_busy_idle t g x Hr Hbx Hidle)|]. split; [by apply (idle_table t g)|]. apply (ei_unmapped _ _ He). by left.
Qed.

(** ** A new table *)
Lemma table_align_ok len : 0 < len <= 2 ^ 31 ->
  (TABLE_AREA | TABLE_ALIGN len) /\ len <= TABLE_ALIGN len < len + TABLE_AREA /\
  Z.shiftr (TABLE_ALIGN len) TABLE_SHIFT * TABLE_SIZE * 256 = TABLE_ALIGN len.
Proof.
  intros Hl. unfold TABLE_ALIGN. change TABLE_AREA with (2 ^ 20). rewrite align_up_pow2 by lia.
  set (k := (len + 2 ^ 20 - 1) / 2 ^ 20). split; [by exists k|]. split; [apply round_up_bounds; lia|].
  rewrite Z.shiftr_div_pow2 by (unfold TABLE_SHIFT; lia). change (2 ^ TABLE_SHIFT) with (2 ^ 20).
  rewrite Z.div_mul by lia. change TABLE_SIZE with 4096. lia.
Qed.

Lemma table_align_le len L : 0 < len <= 2 ^ 31 -> (TABLE_AREA | L) -> len <= L -> TABLE_ALIGN len <= L.
Proof.
  intros Hl [k ->] Hle. destruct (table_align_ok len Hl) as ([j Hj] & [_ Hlt] & _). rewrite Hj in *.
  assert (0 < TABLE_AREA) by done. apply Z.mul_le_mono_nonneg_r; [lia|].
  enough (j - 1 < k) by lia. apply (Z.mul_lt_mono_pos_r TABLE_AREA); lia.
Qed.

(** The range [a] is cut to [T] bytes and moved to the ranges that have tables. *)
Record carved t t' g g' a (T : Z) : Prop := {
  cv_rep : addr_rep t' g';
  cv_only : l1_only t t' g g';
  cv_in : forall b, b ∈ g_l1 g' l1_mapped <-> b = a \/ b ∈ g_l1 g l1_mapped;
  cv_range : l1r t' a = ((l1r t a).1, T);
  cv_other : forall b, b ∈ g_l1 g l1_mapped -> l1r t' b = l1r t b;
  cv_reserve : forall x, reserve t g x <-> reserve t' g' x \/ in_range ((l1r t a).1, T) x;
  cv_blocks : sp_free (g_p1 g') ∪ sp_used (g_p1 g') = sp_free (g_p1 g) ∪ sp_used (g_p1 g)
}.

Lemma l1_only_trans t1 t2 t3 g1 g2 g3 : l1_only t1 t2 g1 g2 -> l1_only t2 t3 g2 g3 -> l1_only t1 t3 g1 g3.
Proof.
  intros [A1 A2 A3 A4 A5 A6 A7] [B1 B2 B3 B4 B5 B6 B7]. constructor; congruence.
Qed.

(** Cutting a free range leaves the bytes of the free ranges as they are. *)
Lemma l1_split_reserve t t' g g' a n len : addr_rep t g -> l1_split t t' g g' a n len -> a ∈ g_l1 g l1_free ->
  0 < len < (l1r t a).2 -> forall x, reserve t' g' x <-> reserve t g x.
Proof.
  intros Hr Hs Ha Hlen x. assert (Hna : n <> a) by (intros ->; apply (ls_new _ _ _ _ _ _ _ Hs); by exists l1_free).
  split.
  - intros (b & Hb & Hx). destruct (l1_split_in _ _ _ _ _ _ _ Hs ltac:(by exists l1_free) Hlen b) as (c & Hc & Hcx & Hcn);
      [by exists l1_free|]. exists c. split; [|by apply Hcx]. destruct (decide (b = c)) as [->|Hbc].
    + apply (ls_free _ _ _ _ _ _ _ Hs) in Hb as [Hb| ->]; [done|]. by destruct (ls_new _ _ _ _ _ _ _ Hs).
    + by destruct (Hcn Hbc) as [_ ->].
  - intros (b & Hb & Hx). destruct (decide (b = a)) as [->|Hba].
    + destruct (decide (x < (l1r t a).1 + len)).
      * exists a. split; [apply (ls_free _ _ _ _ _ _ _ Hs); by left|]. rewrite (ls_low _ _ _ _ _ _ _ Hs).
        unfold in_range in *. cbn. lia.
      * exists n. split; [apply (ls_free _ _ _ _ _ _ _ Hs); by right|]. rewrite (ls_high _ _ _ _ _ _ _ Hs).
        unfold in_range in *. cbn. lia.
    + exists b. split; [apply (ls_free _ _ _ _ _ _ _ Hs); by left|]. rewrite (ls_other _ _ _ _ _ _ _ Hs); [done|done|].
      intros ->. apply (ls_new _ _ _ _ _ _ _ Hs). by exists l1_free.
Qed.

Lemma move_carved t t1 g g1 a T : addr_rep t1 g1 -> l1_only t t1 g g1 -> a ∈ g_l1 g1 l1_free ->
  g_l1 g1 l1_mapped = g_l1 g l1_mapped -> (forall b, b ∈ g_l1 g l1_mapped -> l1r t1 b = l1r t b) ->
  l1r t1 a = ((l1r t a).1, T) -> (forall x, reserve t1 g1 x <-> reserve t g x) ->
  sp_free (g_p1 g1) ∪ sp_used (g_p1 g1) = sp_free (g_p1 g) ∪ sp_used (g_p1 g) ->
  wp (take_add_l1_span a l1_mapped) t1 (fun _ t' => exists g', carved t t' g g' a T).
Proof.
  intros Hr Hlo Ha Hm Hl Hra Hres Hb. eapply wpe_mono; [by apply (move_l1 t1 g1)|cbn beta|done].
  intros _ t' (g' & Hr' & Hlo' & Hl1r & Hp1 & Hmem & Hfree). exists g'. constructor.
  - done.
  - by eapply l1_only_trans.
  - intros b. by rewrite Hmem, Hm.
  - by rewrite Hl1r.
  - intros b Hbm. by rewrite Hl1r, Hl.
  - intros x. rewrite <-Hres. split.
    + intros (b & Hbf & Hx). destruct (decide (b = a)) as [->|Hne]; [right; by rewrite <-Hra|left].
      exists b. rewrite Hl1r. split; [by apply Hfree|done].
    + intros [(b & [_ Hbf]%Hfree & Hx)|Hx]; [exists b; by rewrite Hl1r in Hx|]. exists a. by rewrite Hra.
  - by rewrite Hp1.
Qed.

Lemma carve_spec t g a T (QE : Z -> addrs E -> Prop) : addr_rep t g -> a ∈ g_l1 g l1_free ->
  (TABLE_AREA | T) -> 0 < T <= (l1r t a).2 ->
  (forall res t' , res <> OK -> addr_rep t' g -> l1_only t t' g g -> (forall b, l1r t' b = l1r t b) -> QE res t') ->
  (forall t1, wp (take_add_l1_span a l1_mapped) t1 (fun _ t' => exists g', carved t t' g g' a T) -> QE OK t1) ->
  wp (if T <? (l1r t a).2 then split_l1_span a T else ret OK) t QE.
Proof.
  intros Hr Ha Hal HT Herr Hok. destruct (Z.ltb_spec T (l1r t a).2).
  - eapply wpe_mono; [apply (split_l1_spec t g a T); [done|done|done|lia]|cbn beta|done].
    intros res t1 (g1 & Hr1 & Hlo & Hb & [(Hne & -> & Hl)|(-> & n & Hs)]); [by apply Herr|]. apply Hok.
    apply (move_carved t t1 g g1); [done|done| | | | |by apply (l1_split_reserve t t1 g g1 a n T); [..|lia]|done].
    + apply (ls_free _ _ _ _ _ _ _ Hs). by left.
    + apply Hs.
    + intros b Hbm. apply (ls_other _ _ _ _ _ _ _ Hs).
      * intros ->. by eapply (ar_l1_disj _ _ Hr).
      * intros ->. apply (ls_new _ _ _ _ _ _ _ Hs). by exists l1_mapped.
    + apply Hs.
  - apply wpe_ret, Hok. apply (move_carved t t g g); [done| |done|done|done| |done|done].
    + by constructor.
    + destruct (l1r t a). cbn in *. f_equal. lia.
Qed.

Lemma l1_only_env t t' g g' : l1_only t t' g g' -> ad_env t' = ad_env t /\ initialized t' = initialized t /\ checking t' = checking t.
Proof. by intros []. Qed.

(** A table that was mapped for nothing is unmapped and its memory given back. *)
Lemma undo_table t fid e0 : tables_same e0 (ad_env t) ->
  maps_same e0 (ad_env t) -> env_len e0 fid = None -> lens_kept e0 (ad_env t) ->
  wp (on_env (release_memory fid) ;;; ret NIL) t (fun res t' => res = NIL /\ exists e, t' = set_ad_env e t /\
    tables_same e0 e /\ maps_same e0 e /\ lens_kept e0 e).
Proof.
  intros Ht Hm Hnone Hk. apply wpe_bind, wpe_zoom.
  eapply wpe_mono; [apply release_memory_ok|cbn beta|done]. intros _ e (Hk' & Ht' & Hm'). apply wpe_ret.
  split; [done|]. exists e. split; [done|]. split; [intros x; by rewrite Ht'|]. split; [intros x; by rewrite Hm'|].
  intros f m Hf. apply Hk'; [|by apply Hk]. intros ->. by rewrite Hnone in Hf.
Qed.

Lemma carved_env t t' g g' a T e : space_inv t g -> carved (set_ad_env e t) t' g g' a T ->
  maps_same (ad_env t) e -> (forall x, env_table e x <-> env_table (ad_env t) x \/ in_range ((l1r t a).1, T) x) ->
  a ∈ g_l1 g l1_free -> T <= (l1r t a).2 -> env_inv t' g'.
Proof.
  intros [Hr [H1 H2 H3 H4 H5 H6] Hi] [Cr Co Ci Crange Cother Cres Cb] Hm Ht Ha HT.
  pose proof (l1_only_env _ _ _ _ Co) as (He & _ & _). cbn in He.
  pose proof (l1_only_bytes _ _ _ _ Co) as Hby. change (l1r (set_ad_env e t)) with (l1r t) in *.
  assert (Hapart : forall x, reserve t' g' x -> ~ in_range ((l1r t a).1, T) x).
  { intros x (b & Hb & Hx) Hx'. rewrite <-Crange in Hx'. assert (b = a) as ->.
    - eapply (ar_l1_apart _ _ Cr); [by exists l1_free|exists l1_mapped; apply Ci; by left|done|done].
    - eapply (ar_l1_disj _ _ Cr); [|exact Hb]. apply Ci. by left. }
  constructor; rewrite ?He.
  - intros l x [->|Hl]%Ci Hx; apply Ht; [right; by rewrite Crange in Hx|left]. rewrite Cother in Hx by done. by eapply H1.
  - intros x Hx [Hx'|Hx']%Ht; [|by eapply Hapart]. apply (H2 x); [|done]. apply Cres. by left.
  - intros x Hx Hx'. apply (H3 x); [|by apply Hm]. destruct Hx as [Hx|Hx]; [left; by apply Hby in Hx|right; apply Cres; by left].
  - intros x (v & Hv & Hx). apply Hby, H4. exists v. by rewrite <-Cb.
  - intros x Hx. apply Hby, H5. unfold block_bytes in *. by rewrite (lo_gp2 _ _ _ _ Co) in Hx.
  - intros Hnil. assert (Hin : a ∈ g_l1 g' l1_mapped) by (apply Ci; by left). rewrite Hnil in Hin. set_solver.
Qed.

Lemma slot_nil t g len t' g' : (forall side x, bytes side t' g' x <-> bytes side t g x) -> slot t g len NIL t' g'.
Proof. intros Hb. left. split; [done|]. intros x. apply Hb. Qed.

(** The kernel's part is undone: the answer is nil. *)
Lemma undone_post t g len t1 e0 e : space_inv t g -> addr_rep t1 g -> l1_only (set_ad_env e0 t) t1 g g -> (forall b, l1r t1 b = l1r t b) ->
  tables_same (ad_env t) e -> maps_same (ad_env t) e -> lens_kept (ad_env t) e ->
  slot_post t g len NIL (set_ad_env e t1).
Proof.
  intros [Hr [H1 H2 H3 H4 H5 H6] Hi] Hr1 Hlo Hl Ht Hm Hk. pose proof (l1_only_env _ _ _ _ Hlo) as (He & Hin & Hch).
  pose proof (l1_only_bytes _ _ _ _ Hlo) as Hby.
  assert (Hres : forall x, reserve (set_ad_env e t1) g x <-> reserve t g x).
  { intros x. unfold reserve. change (l1r (set_ad_env e t1)) with (l1r t1). by setoid_rewrite Hl. }
  exists g. split; [split; [by apply rep_env| |by rewrite <-Hi]|].
  - constructor; try done; cbn.
    + intros l x Hin' Hx. apply Ht. change (l1r (set_ad_env e t1) l) with (l1r t1 l) in Hx. rewrite Hl in Hx. by eapply H1.
    + intros x Hx%Hres Hx'. by apply (H2 x Hx), Ht.
    + intros x [Hx|Hx] Hx'; (apply (H3 x); [|by apply Hm]); [left; by apply Hby|right; by apply Hres].
    + intros x Hx. by apply Hby, H4.
    + intros x Hx. by apply Hby, H5.
  - split; [done|]. split; [done|]. split; [done|]. split; [done|]. by apply slot_nil.
Qed.

Lemma new_span_slot t g fl len t1 g1 T e : space_inv t g -> carved (set_ad_env e t) t1 g g1 fl T ->
  maps_same (ad_env t) e -> lens_kept (ad_env t) e ->
  (forall x, env_table e x <-> env_table (ad_env t) x \/ in_range ((l1r t fl).1, T) x) ->
  fl ∈ g_l1 g l1_free -> T <= (l1r t fl).2 -> (PAGE_SIZE | len) -> 0 < len <= T ->
  wp (new_span len fl (Some NIL)) t1 (slot_post t g len).
Proof.
  intros Hs Hc Hm Hk Ht Ha HT Hal Hlen. pose proof Hs as [Hr He Hi].
  pose proof (carved_env _ _ _ _ _ _ _ Hs Hc Hm Ht Ha HT) as He1. pose proof Hc as [Cr Co Ci Crange Cother Cres Cb].
  change (l1r (set_ad_env e t)) with (l1r t) in *. pose proof (l1_only_env _ _ _ _ Co) as (Ee & Ei & Ech).
  pose proof (l1_only_bytes _ _ _ _ Co) as Hby.
  assert (Hout : fl ∉ g_l1 g l1_mapped) by (intros Hin; by eapply (ar_l1_disj _ _ Hr)).
  eapply wpe_mono; [apply (new_span_spec t1 g1 fl len); [done|apply Ci; by left| | |done|by rewrite Crange]|cbn beta|done].
  { intros side. rewrite (lo_gsp _ _ _ _ Co). by apply (no_spans t g fl). }
  { rewrite Crange. by apply (ar_l1_pos _ _ Hr). }
  intros res t2 (g2 & Hr2 & Hso & Hsb & Hres). exists g2. pose proof Hso as [So1 So2 So3 So4 So5 So6 So7].
  assert (Hin : forall x, in_range (l1r t1 fl) x -> reserve t g x).
  { intros x Hx. exists fl. split; [done|]. rewrite Crange in Hx. unfold in_range in *. cbn in *. lia. }
  assert (Henv : env_inv t2 g2).
  { destruct Hres as [[-> Hres]|(va & _ & _ & Hb2 & Hi2)].
    - by apply (env_inv_spans t1 t2 g1 g2); [..|intros x; apply Hres|intros x; apply Hres].
    - destruct He1 as [A1 A2 A3 A4 A5 A6].
      assert (Hl1r : forall b, l1r t2 b = l1r t1 b) by (intros; unfold l1r; by rewrite So4).
      assert (Hrsv : forall x, reserve t2 g2 x <-> reserve t1 g1 x) by (intros x; unfold reserve; rewrite So6; by setoid_rewrite Hl1r).
      constructor; rewrite ?So3, ?So6, ?So7; try done.
      + intros l x. rewrite Hl1r. apply A1.
      + intros x. rewrite Hrsv. apply A2.
      + intros x [Hx|Hx] Hx'; [|by apply (A3 x); [right; by apply Hrsv|]].
        rewrite Ee in Hx'. apply Hm in Hx'. apply (ei_unmapped _ _ He x); [|done].
        assert (Hx2 : idle t1 g1 x \/ in_range (l1r t1 fl) x) by (apply Hi2; by left).
        destruct Hx2 as [Hx2|Hx2]; [left; by apply Hby in Hx2|right; by apply Hin].
      + intros x Hx. apply Hb2. left. by apply A4.
      + intros x (v & Hv & Hx). apply Hb2. left. apply A5. exists v. by rewrite <-Hsb. }
  split; [split; [done|done|by rewrite So1, Ei]|]. split; [by rewrite So2, Ech|]. rewrite So3, Ee.
  split; [done|]. split; [done|].
  split; [split; [by rewrite So7|unfold same_blocks in *; by rewrite Hsb, (lo_gp2 _ _ _ _ Co)]|].
  destruct Hres as [[-> Hres]|(va & Hat & Hgood & Hb2 & Hi2)].
  { apply slot_nil. intros side x. by rewrite Hres, Hby. }
  right. exists va. split; [done|]. split; [done|]. split; [intros x; rewrite Hb2; by rewrite Hby|].
  intros x Hx. rewrite So3, Ee. cbn.
  assert (Hx2 : idle t1 g1 x \/ in_range (l1r t1 fl) x) by (apply Hi2; by right).
  destruct Hx2 as [Hx2|Hx2].
  - apply Hby in Hx2. split; [intros Hbx; exact (not_busy_idle t g x Hr Hbx Hx2)|]. split.
    + apply Ht. left. by apply (idle_table t g).
    + intros Hmx. apply Hm in Hmx. apply (ei_unmapped _ _ He x); [by left|done].
  - split; [intros (l & b & Hb & Hxb); exact (not_span_reserve t g l b x Hr ltac:(by eexists) Hxb (Hin x Hx2))|]. split.
    + apply Ht. right. by rewrite <-Crange.
    + intros Hmx. apply Hm in Hmx. apply (ei_unmapped _ _ He x); [right; by apply Hin|done].
Qed.

Lemma slot_post_refl t g len : space_inv t g -> slot_post t g len NIL t.
Proof. intros Hs. exists g. split; [done|]. split; [done|]. split; [by intros ? ?|]. split; [by intros ?|]. split; [done|]. by apply slot_nil. Qed.

Lemma slot_post_env t g len e : space_inv t g -> tables_same (ad_env t) e -> maps_same (ad_env t) e ->
  lens_kept (ad_env t) e -> slot_post t g len NIL (set_ad_env e t).
Proof.
  intros Hs Ht Hm Hk. apply (undone_post t g len t (ad_env t) e Hs); [apply Hs|by constructor|done|done|done|done].
Qed.

(** From the table that was mapped on: the range is cut, moved and given its span. *)
Lemma new_l1_rest t g fl len fid e : space_inv t g -> fl ∈ g_l1 g l1_free ->
  (PAGE_SIZE | len) -> 0 < len <= 2 ^ 31 -> TABLE_ALIGN len <= (l1r t fl).2 ->
  maps_same (ad_env t) e -> lens_kept (ad_env t) e -> env_len (ad_env t) fid = None ->
  env_len e fid = Some (TABLE_ALIGN len / 256) ->
  (forall x, env_table e x <-> env_table (ad_env t) x \/ in_range ((l1r t fl).1, TABLE_ALIGN len) x) ->
  wp (let* r := if TABLE_ALIGN len <? (l1r t fl).2 then split_l1_span fl (TABLE_ALIGN len) else ret OK in
      if negb (r =? OK) then
        let* _ := on_env (frame_l2_unmap CID_L1 fid (l1r t fl).1) in
        on_env (release_memory fid) ;;;
        ret NIL
      else take_add_l1_span fl l1_mapped ;;; new_span len fl (Some NIL)) (set_ad_env e t) (slot_post t g len).
Proof.
  intros Hs Ha Hal Hlen HT Hm Hk Hfid Hfl Ht. pose proof Hs as [Hr He Hi].
  destruct (table_align_ok len Hlen) as (Hdiv & [Hle _] & _).
  assert (HT256 : TABLE_ALIGN len / 256 * 256 = TABLE_ALIGN len).
  { destruct Hdiv as [k ->]. change TABLE_AREA with (4096 * 256). rewrite Z.mul_assoc, Z.div_mul by lia. done. }
  apply wpe_bind. apply (carve_spec (set_ad_env e t) g fl (TABLE_ALIGN len)); [by apply rep_env|done|done|change (l1r (set_ad_env e t)) with (l1r t); lia| |].
  - intros res t1 Hne Hr1 Hlo Hl. rewrite (proj2 (Z.eqb_neq _ _)) by done. cbn [negb].
    pose proof (l1_only_env _ _ _ _ Hlo) as (Ee & Ei & Ech). cbn in Ee.
    apply wpe_bind, wpe_zoom. rewrite Ee. eapply wpe_mono; [apply (frame_l2_unmap_ok _ _ _ _ Hfl)|cbn beta|done].
    { rewrite HT256. intros x Hx. split; [apply Ht; by right|]. intros Hx'. apply Hm in Hx'.
      apply (ei_unmapped _ _ He x); [|done]. right. exists fl. split; [done|]. unfold in_range in *. cbn in *. lia. }
    intros _ e2 (Hk2 & Ht2 & Hm2). rewrite HT256 in Ht2.
    eapply wpe_mono; [apply (undo_table (set_ad_env e2 t1) fid (ad_env t)); cbn| |done].
    + intros x. rewrite Ht2, Ht. split; [tauto|]. intros Hx. split; [by left|]. intros Hx'.
      apply (ei_notable _ _ He x); [|done]. exists fl. split; [done|]. unfold in_range in *. cbn in *. lia.
    + intros x. rewrite Hm2. apply Hm.
    + done.
    + intros f n Hf. by apply Hk2, Hk.
    + intros res' t2 (-> & e3 & -> & Ht3 & Hm3 & Hk3). cbn.
      exact (undone_post t g len t1 e e3 Hs Hr1 Hlo Hl Ht3 Hm3 Hk3).
  - intros t1 Hmove. rewrite Z.eqb_refl. cbn [negb]. apply wpe_bind. eapply wpe_mono; [exact Hmove|cbn beta|done].
    intros _ t2 (g2 & Hc). apply (new_span_slot t g fl len t2 g2 (TABLE_ALIGN len) e); try done. lia.
Qed.

Lemma new_l1_spec t g len : space_inv t g -> (PAGE_SIZE | len) -> 0 < len <= 2 ^ 31 ->
  wp (new_l1 len (Some NIL)) t (slot_post t g len).
Proof.
  intros Hs Hal Hlen. pose proof Hs as [Hr He Hi]. destruct (ar_l1 _ _ Hr l1_free) as (h & Hh & Hseg).
  unfold new_l1. apply wpe_bind. eapply wpe_ok; [by apply get_l1_head_ok|]. cbn beta. apply wpe_bind.
  eapply wpe_ok; [apply l1_fuel_ok|]. cbn beta.
  destruct (reserve_search_spec t g len Hr (S (base.size (hs_node (ad_l1 t)))) (g_l1 g l1_free) h (HHead l1_free) NIL) as (fl & Hrun & Hfl & _);
    [pose proof (hseg_size _ _ _ _ Hseg); lia|exact Hseg|done|done|].
  apply wpe_bind. eapply wpe_ok; [exact Hrun|]. cbn beta. destruct (Z.eqb_spec fl NIL) as [|Hn].
  { apply wpe_ret. by apply slot_post_refl. }
  destruct (Hfl Hn) as [Ha HL]. assert (Hia : is_l1 g fl) by (by exists l1_free).
  destruct (ar_l1_ok _ _ Hr _ Hia) as (B1 & B2 & B3 & B4 & B5). unfold SPACE_END in B5.
  destruct (table_align_ok len Hlen) as (Hdiv & [Hle Hlt] & E256). set (T := TABLE_ALIGN len) in *.
  assert (HTL : T <= (l1r t fl).2) by (apply table_align_le; [done|done|lia]).
  set (tl := Z.shiftr T TABLE_SHIFT * TABLE_SIZE) in *. assert (Htl : tl = T / 256).
  { rewrite <-E256, Z.div_mul by lia. done. }
  assert (Htl2 : (PAGE_SIZE | tl)) by (by exists (Z.shiftr T TABLE_SHIFT)). unfold TABLE_AREA in Hlt. cbn in Hlt.
  cbv zeta. rewrite (u32_small tl) by lia. apply wpe_bind, wpe_zoom.
  eapply wpe_mono; [apply request_memory_ok; [lia|done]|cbn beta|done]. intros fid e1 (Hk1 & Ht1 & Hm1 & Hnew).
  destruct (Z.ltb_spec fid 0).
  { apply wpe_ret. apply slot_post_env; [done|done|done|exact Hk1]. }
  destruct (Hnew ltac:(lia)) as [Hfresh Hfid].
  destruct (hlist_elem _ _ _ _ (ar_l1 _ _ Hr l1_free) Ha) as (_ & y & Hy).
  assert (Ey : l1r t fl = (hn_va y, hn_len y)) by (unfold l1r, range_of; by rewrite Hy).
  apply wpe_bind. eapply wpe_ok; [by apply get_l1_ok|]. cbn beta. apply wpe_bind, wpe_zoom. cbn [ad_env set_ad_env].
  replace (hn_va y) with (l1r t fl).1 by (by rewrite Ey). replace (hn_len y) with (l1r t fl).2 by (by rewrite Ey).
  eapply wpe_mono; [apply (frame_l2_map_ok fid _ tl e1 Hfid B1)|cbn beta|done].
  { rewrite E256. intros x Hx Hx'. apply Ht1 in Hx'. apply (ei_notable _ _ He x); [|done]. exists fl. split; [done|].
    unfold in_range in *. cbn in *. lia. }
  intros r e2 (Hk2 & Ht2 & Hm2). rewrite E256 in Ht2. destruct (Z.eqb_spec r OK) as [->|Hne]; cbn [negb].
  - change (set_ad_env e2 (set_ad_env e1 t)) with (set_ad_env e2 t).
    apply (new_l1_rest t g fl len fid e2); [done|done|done|done|done| | |done| |].
    + intros x. rewrite Hm2. apply Hm1.
    + intros f n Hf. by apply Hk2, Hk1.
    + fold T. rewrite <-Htl. by apply Hk2.
    + intros x. rewrite Ht2, Ht1. tauto.
  - change (set_ad_env e2 (set_ad_env e1 t)) with (set_ad_env e2 t).
    eapply wpe_mono; [apply (undo_table (set_ad_env e2 t) fid (ad_env t)); cbn| |done].
    + intros x. rewrite Ht2, Ht1. tauto.
    + intros x. rewrite Hm2. apply Hm1.
    + done.
    + intros f n Hf. by apply Hk2, Hk1.
    + intros res t2 (-> & e3 & -> & Ht3 & Hm3 & Hk3). cbn. change (set_ad_env e3 (set_ad_env e2 t)) with (set_ad_env e3 t).
      by apply slot_post_env.
Qed.

Lemma get_free_span_slot_spec t g len : space_inv t g -> (PAGE_SIZE | len) -> 0 < len <= 2 ^ 31 ->
  wp (get_free_span_slot len) t (slot_post t g len).
Proof.
  intros Hs Hal Hlen. pose proof Hs as [Hr He Hi]. destruct (ar_l1 _ _ Hr l1_mapped) as (h & Hh & Hseg).
  unfold get_free_span_slot. apply wpe_bind. eapply wpe_ok; [by apply get_l1_head_ok|]. cbn beta. apply wpe_bind.
  eapply wpe_ok; [apply l1_fuel_ok|]. cbn beta.
  destruct (l1_search_spec t g len Hr (S (base.size (hs_node (ad_l1 t)))) (g_l1 g l1_mapped) h (HHead l1_mapped) (fun _ => False) NIL NIL None)
    as (fl & fs & Hrun & Hb); [pose proof (hseg_size _ _ _ _ Hseg); lia|exact Hseg|done|by left|].
  apply wpe_bind. eapply wpe_ok; [exact Hrun|]. cbn beta iota. pose proof (ei_some _ _ He) as Hsome.
  destruct (g_l1 g l1_mapped) as [|l0 L] eqn:EL; [done|]. destruct Hb as [[-> _]|(Hn & Hin & Hle & _)].
  - rewrite Z.eqb_refl. by apply new_l1_spec.
  - rewrite (proj2 (Z.eqb_neq _ _)) by done. apply use_span_slot; [done|done|done|lia].
Qed.
End space.
