(* ===== verification/AddrMap.v ===== *)
(** * Mapping frames at free addresses

    frame_map_anywhere and unmap_addr, with the pools that grow on the way. *)
From stdpp Require Import functions.
From S2P Require Import Prelude KState Mmu Pool HList Addr AddrProps AddrSpec.
From S2P Require Ranges.

Local Open Scope Z_scope.
Local Open Scope c_scope.
Import Ranges (in_range, taken).

Section map.
Context {E : Type} `{SpaceOk E}.
Implicit Types (t : addrs E) (g : ghost) (a b l n x len fid va : Z) (e : E).

(** A state that has become another one by mapping. *)
Record grown t g t' g' : Prop := {
  gr_inv : space_inv t' g';
  gr_checking : checking t' = checking t;
  gr_lens : lens_kept (ad_env t) (ad_env t');
  gr_busy : forall x, busy t g x -> busy t' g' x
}.

Lemma grown_refl t g : space_inv t g -> grown t g t g.
Proof. intros. constructor; [done|done|by intros ? ?|done]. Qed.

Lemma grown_trans t1 g1 t2 g2 t3 g3 : grown t1 g1 t2 g2 -> grown t2 g2 t3 g3 -> grown t1 g1 t3 g3.
Proof.
  intros [A1 A2 A3 A4] [B1 B2 B3 B4]. constructor; [done|congruence| |auto].
  intros f n Hf. by apply B3, A3.
Qed.

Lemma grown_env t g e : space_inv t g -> tables_same (ad_env t) e -> maps_same (ad_env t) e -> lens_kept (ad_env t) e ->
  grown t g (set_ad_env e t) g.
Proof. intros Hs Ht Hm Hk. constructor; [by apply space_env|done|done|done]. Qed.

Lemma space_checking t g (c : bool) : space_inv t g -> space_inv (set_checking c t) g.
Proof. intros [[] [] Hi]. split; [by constructor|by constructor|done]. Qed.

Definition map_post t g n va t' : Prop := exists g', grown t g t' g' /\ (checking t = true -> blocks_kept g g') /\
  (va = NIL \/ (range_good (va, n) /\ forall x, in_range (va, n) x ->
     ~ busy t g x /\ busy t' g' x /\ env_mapped (ad_env t') x)).
Definition map_ok (map : Z -> M (addrs E) Z) : Prop := forall fid n t g, space_inv t g -> checking t = true ->
  env_len (ad_env t) fid = Some n -> wp (map fid) t (map_post t g n).

(** ** The pools *)
Lemma apart_from sz P a len : 0 < sz -> 0 < len -> (forall x, block_bytes sz P x -> ~ in_range (a, len) x) ->
  forall v, v ∈ sp_free P ∪ sp_used P -> v - sizeof_pool_obj + sz <= a \/ a + len <= v - sizeof_pool_obj.
Proof.
  intros Hsz Hlen Hd v Hv. destruct (decide (v - sizeof_pool_obj + sz <= a)); [by left|].
  destruct (decide (a + len <= v - sizeof_pool_obj)); [by right|]. exfalso.
  apply (Hd (Z.max a (v - sizeof_pool_obj))); [exists v; split; [done|]|]; unfold in_range; cbn; lia.
Qed.

(** Loading memory that no block is in; the blocks lie in it. *)
Lemma load_spec sz p P a len (Q : Z -> pool -> Prop) : pool_rep sz p P -> 0 < a -> 0 < len -> a + len <= 2 ^ 32 ->
  (forall x, block_bytes sz P x -> ~ in_range (a, len) x) ->
  (forall r p' P', pool_rep sz p' P' -> sp_used P' = sp_used P ->
     (forall x, block_bytes sz P' x -> block_bytes sz P x \/ in_range (a, len) x) ->
     (sz + sizeof_pool_frame <= len -> r = OK /\ sp_free P' <> ∅ /\
        Z.of_nat (base.size (sp_free P')) >= (len - sizeof_pool_frame) / sz) -> Q r p') ->
  wp (pool_load a len) p Q.
Proof.
  intros Hp Ha Hlen Hend Hd HQ. pose proof Hp as [Hs _]. destruct (ps_size _ _ _ Hs) as [_ Hsz]. unfold sizeof_pool_obj in Hsz.
  destruct (pool_load_spec sz p P a len Hp) as (r & P' & p' & Hrun & Hstep & Hp').
  { split; [done|]. split; [lia|]. split; [done|]. apply apart_from; [lia|done|done]. }
  eapply wpe_ok; [exact Hrun|]. inversion Hstep as [a' len' n En Hn|a' len' Hsmall| | |]; subst.
  - apply (HQ OK _ _ Hp'); [done| |].
    + intros x (v & Hv & Hx). cbn in Hv. rewrite <-(assoc_L (∪)) in Hv. apply elem_of_union in Hv as [Hv|Hv]; [right|left; by exists v].
      apply elem_of_list_to_set, list_elem_of_fmap in Hv as (i & -> & Hi%elem_of_seqZ).
      unfold in_range, block_body in *. cbn in *. unfold sizeof_pool_frame in *.
      assert (sz * ((len - 12) / sz) <= len - 12) by (apply Z.mul_div_le; lia). nia.
    + intros _. split; [done|]. cbn.
      assert (Hle : Z.of_nat (base.size (bodies sz a ((len - sizeof_pool_frame) / sz))) = (len - sizeof_pool_frame) / sz).
      { unfold bodies. rewrite size_list_to_set, length_fmap, length_seqZ; [lia|].
        apply NoDup_fmap_2_strong; [|apply NoDup_seqZ]. intros i j _ _. unfold block_body. nia. }
      assert (Hsub : (base.size (bodies sz a ((len - sizeof_pool_frame) / sz)) <=
        base.size (bodies sz a ((len - sizeof_pool_frame) / sz) ∪ sp_free P))%nat) by (apply subseteq_size; set_solver).
      split; [|lia]. intros E1. rewrite E1, size_empty in Hsub. lia.
  - apply (HQ ERR _ _ Hp'); [done|by left|]. lia.
Qed.

Lemma space_load1 t g p' P' r : space_inv t g -> pool_rep l1_block p' P' -> sp_used P' = sp_used (g_p1 g) ->
  (forall x, block_bytes l1_block P' x -> block_bytes l1_block (g_p1 g) x \/ in_range r x) ->
  (forall x, in_range r x -> busy t g x) ->
  grown t g (set_l1_span_pool p' t) (mk_ghost (g_l1 g) (g_sp g) P' (g_p2 g)).
Proof.
  intros [Hr [H1 H2 H3 H4 H5 H6] Hi] Hp Hu Hb Hrb. constructor; [|done|by intros ? ?|done].
  split; [| |done].
  - destruct Hr. constructor; try done. cbn. by rewrite Hu.
  - constructor; try done. cbn. intros x [Hx|Hx]%Hb; [by apply H4|by apply Hrb].
Qed.

Lemma space_load2 t g p' P' r : space_inv t g -> pool_rep span_block p' P' -> sp_used P' = sp_used (g_p2 g) ->
  (forall x, block_bytes span_block P' x -> block_bytes span_block (g_p2 g) x \/ in_range r x) ->
  (forall x, in_range r x -> busy t g x) ->
  grown t g (set_span_pool p' t) (mk_ghost (g_l1 g) (g_sp g) (g_p1 g) P').
Proof.
  intros [Hr [H1 H2 H3 H4 H5 H6] Hi] Hp Hu Hb Hrb. constructor; [|done|by intros ? ?|done].
  split; [| |done].
  - destruct Hr. constructor; try done. cbn. by rewrite Hu.
  - constructor; try done. cbn. intros x [Hx|Hx]%Hb; [by apply H5|by apply Hrb].
Qed.

(** One pool is grown: [load] and [size] are those of the pool. *)
Lemma grow_pool_spec map load (size : M (addrs E) Z) sz t g : space_inv t g -> checking t = true -> map_ok map ->
  8 < sz < 60 -> (forall t1 g1, space_inv t1 g1 -> size t1 = Ok sz t1) ->
  (forall t1 g1 a, grown t g t1 g1 -> blocks_kept g g1 -> 0 < a -> a + 4096 <= 2 ^ 32 ->
     (forall x, in_range (a, 4096) x -> ~ busy t g x /\ busy t1 g1 x) ->
     wp (load a 4096) t1 (fun _ t2 => exists g2, grown t1 g1 t2 g2)) ->
  wp (grow_pool map load size) t (fun _ t' => exists g', grown t g t' g').
Proof.
  intros Hs Hc Hmap Hsz Hsize Hload. unfold grow_pool. apply wpe_bind. eapply wpe_ok; [by eapply Hsize|]. cbn beta zeta.
  assert (El : PAGE_ALIGN (u32 (sizeof_pool_frame + sz * 64)) = 4096).
  { unfold sizeof_pool_frame. rewrite u32_small by lia. unfold PAGE_ALIGN. change PAGE_SIZE with (2 ^ 12).
    rewrite align_up_pow2 by lia. replace ((12 + sz * 64 + 2 ^ 12 - 1) / 2 ^ 12) with 1; [done|].
    apply Z.div_unique with (12 + sz * 64 - 1); lia. }
  rewrite El. apply wpe_bind, wpe_zoom.
  eapply wpe_mono; [apply request_memory_ok; [done|by exists 1]|cbn beta|done]. intros fid e1 (Hk1 & Ht1 & Hm1 & Hnew).
  assert (Hg1 : grown t g (set_ad_env e1 t) g) by (by apply grown_env).
  destruct (Z.ltb_spec fid 0); [apply wpe_ret; by exists g|]. destruct (Hnew ltac:(lia)) as [_ Hfid].
  apply wpe_bind. eapply wpe_mono; [apply (Hmap fid 4096 _ g); [apply Hg1|done|done]|cbn beta|done].
  intros va t2 (g2 & Hg2 & Hbk & Hva). pose proof (grown_trans _ _ _ _ _ _ Hg1 Hg2) as Hg12.
  destruct (Z.eqb_spec va NIL) as [->|Hn].
  - apply wpe_bind, wpe_zoom. eapply wpe_mono; [apply release_memory_ok|cbn beta|done]. intros _ e3 (Hk3 & Ht3 & Hm3).
    apply wpe_ret. exists g2. destruct Hg12 as [A1 A2 A3 A4].
    constructor; [by apply space_env|done| |exact A4]. intros f n Hf. cbn. apply Hk3; [|by apply A3].
    intros ->. destruct (Hnew ltac:(lia)) as [Hnone _]. by rewrite Hnone in Hf.
  - destruct Hva as [|[(_ & Hpos & Hlim) HR]]; [done|]. cbn in Hpos, Hlim. unfold SPACE_END in Hlim. apply wpe_bind.
    eapply wpe_mono; [apply (Hload t2 g2 va Hg12 (Hbk Hc)); [lia|lia|]|cbn beta|done].
    + intros x Hx. by destruct (HR x Hx) as (? & ? & _).
    + intros r t3 (g3 & Hg3). apply wpe_ret. exists g3. by eapply grown_trans.
Qed.

Lemma grow1 map t g : space_inv t g -> checking t = true -> map_ok map ->
  wp (grow_pool map (fun a n => on_l1_pool (pool_load a n)) (on_l1_pool pool_obj_size)) t (fun _ t' => exists g', grown t g t' g').
Proof.
  intros Hs Hc Hmap. apply (grow_pool_spec _ _ _ l1_block); [done|done|done|done| |].
  - intros t1 g1 [Hr1 _ _]. destruct (ar_p1 _ _ Hr1) as [Hsh _]. destruct (ps_size _ _ _ Hsh) as [Hsz _].
    unfold on_l1_pool, pool_obj_size, zoom, gets. rewrite Hsz. by destruct t1.
  - intros t1 g1 a Hg Hbk Ha Hend HR. apply wpe_zoom. pose proof (gr_inv _ _ _ _ Hg) as Hs1.
    apply (load_spec l1_block _ (g_p1 g1)); [apply Hs1|done|done|done| |].
    + intros x (v & Hv & Hx) Hx'. destruct (HR x Hx') as [Hnb _]. apply Hnb. destruct Hs as [_ He _].
      apply (ei_blocks1 _ _ He). exists v. destruct Hbk as [<- _]. done.
    + intros r p' P' Hp' Hu Hb _. eexists. eapply space_load1; [done|done|done|done|]. intros x Hx. by apply HR.
Qed.

Lemma grow2 map t g : space_inv t g -> checking t = true -> map_ok map ->
  wp (grow_pool map (fun a n => on_span_pool (pool_load a n)) (on_span_pool pool_obj_size)) t (fun _ t' => exists g', grown t g t' g').
Proof.
  intros Hs Hc Hmap. apply (grow_pool_spec _ _ _ span_block); [done|done|done|done| |].
  - intros t1 g1 [Hr1 _ _]. destruct (ar_p2 _ _ Hr1) as [Hsh _]. destruct (ps_size _ _ _ Hsh) as [Hsz _].
    unfold on_span_pool, pool_obj_size, zoom, gets. rewrite Hsz. by destruct t1.
  - intros t1 g1 a Hg Hbk Ha Hend HR. apply wpe_zoom. pose proof (gr_inv _ _ _ _ Hg) as Hs1.
    apply (load_spec span_block _ (g_p2 g1)); [apply Hs1|done|done|done| |].
    + intros x (v & Hv & Hx) Hx'. destruct (HR x Hx') as [Hnb _]. apply Hnb. destruct Hs as [_ He _].
      apply (ei_blocks2 _ _ He). exists v. destruct Hbk as [_ <-]. done.
    + intros r p' P' Hp' Hu Hb _. eexists. eapply space_load2; [done|done|done|done|]. intros x Hx. by apply HR.
Qed.

Lemma check_pools_spec map t g : space_inv t g -> (checking t = true \/ map_ok map) ->
  wp (check_pools map) t (fun _ t' => exists g', grown t g t' g' /\ (checking t = true -> g' = g)).
Proof.
  intros Hs Hmap. unfold check_pools. apply wpe_bind, wpe_get. destruct (checking t) eqn:Ec.
  { apply wpe_ret. exists g. split; [by apply grown_refl|done]. }
  destruct Hmap as [|Hmap]; [done|]. apply wpe_bind, wpe_modify. pose proof (space_checking t g true Hs) as Hs0.
  set (t0 := set_checking true t) in *. apply wpe_bind, wpe_zoom. unfold pool_n_free. apply wpe_gets.
  replace (set_l1_span_pool (l1_span_pool t0) t0) with t0 by by destruct t0. apply wpe_bind.
  eapply (wpe_mono _ _ (fun _ t1 => exists g1, grown t0 g t1 g1)); [| |done].
  { destruct (_ <? 3); [by apply grow1|]. apply wpe_ret. exists g. by apply grown_refl. }
  intros r t1 (g1 & Hg1). pose proof (gr_inv _ _ _ _ Hg1) as Hs1. pose proof (gr_checking _ _ _ _ Hg1) as Ec1.
  apply wpe_bind, wpe_zoom, wpe_gets.
  replace (set_span_pool (span_pool t1) t1) with t1 by by destruct t1. apply wpe_bind.
  eapply (wpe_mono _ _ (fun _ t2 => exists g2, grown t1 g1 t2 g2)); [| |done].
  { destruct (_ && _)%bool; [by apply grow2|]. apply wpe_ret. exists g1. by apply grown_refl. }
  intros r2 t2 (g2 & Hg2). apply wpe_bind, wpe_modify, wpe_ret. exists g2. split; [|done].
  destruct (grown_trans _ _ _ _ _ _ Hg1 Hg2) as [A1 A2 A3 A4].
  constructor; [by apply space_checking|by rewrite Ec|exact A3|exact A4].
Qed.

(** ** Mapping *)
Lemma slot_grown t g len res t' g' : space_inv t' g' -> checking t' = checking t -> lens_kept (ad_env t) (ad_env t') ->
  slot t g len res t' g' -> grown t g t' g'.
Proof.
  intros Hs Hc Hk Hsl. constructor; [done|done|done|]. intros x Hx.
  destruct Hsl as [[_ Hb]|(va & _ & _ & Hb & _)]; apply Hb; [done|by left].
Qed.

(** The kernel maps the frame in the span that was found. *)
Lemma space_mapped t g e va n : space_inv t g -> tables_same (ad_env t) e ->
  (forall x, env_mapped e x -> env_mapped (ad_env t) x \/ in_range (va, n) x) ->
  (forall x, in_range (va, n) x -> busy t g x) -> space_inv (set_ad_env e t) g.
Proof.
  intros [Hr [H1 H2 H3 H4 H5 H6] Hi] Ht Hm Hb. split; [by apply rep_env| |done]. constructor; try done; cbn.
  - intros l x Hl Hx. apply Ht. by eapply H1.
  - intros x Hx Hx'. by apply (H2 x Hx), Ht.
  - intros x Hx [Hx'|Hx']%Hm; [by apply (H3 x Hx)|]. apply Hb in Hx'. destruct Hx as [Hx|Hx].
    + exact (not_busy_idle t g x Hr Hx' Hx).
    + destruct Hx' as (l & a & Ha & Hxa). exact (not_span_reserve t g l a x Hr ltac:(by eexists) Hxa Hx).
Qed.

Lemma map_anywhere_spec depth fid n t g : space_inv t g -> env_len (ad_env t) fid = Some n ->
  (checking t = true \/ map_ok (map_anywhere depth)) ->
  wp (map_anywhere (S depth) fid) t (map_post t g n).
Proof.
  intros Hs Hn Hmap. cbn [map_anywhere]. apply wpe_bind, wpe_get. rewrite (si_init _ _ Hs). apply wpe_bind, wpe_ret.
  apply wpe_bind. eapply wpe_mono; [by apply (check_pools_spec (map_anywhere depth) t g)|cbn beta|done].
  intros ok t1 (g1 & Hg1 & Hsame). assert (Hbk1 : checking t = true -> blocks_kept g g1) by (intros Hc; by rewrite (Hsame Hc)).
  destruct ok; cbn [negb]; [|apply wpe_ret; exists g1; split; [done|split; [done|by left]]].
  pose proof (gr_lens _ _ _ _ Hg1 _ _ Hn) as Hn1. apply wpe_bind, wpe_zoom.
  eapply wpe_mono; [by apply (frame_info_ok fid n)|cbn beta|done]. intros [[[r type] pa] len] e (-> & Hlen).
  replace (set_ad_env (ad_env t1) t1) with t1 by by destruct t1.
  destruct (Z.eqb_spec r OK) as [->|]; cbn [negb]; [|apply wpe_ret; exists g1; split; [done|split; [done|by left]]].
  rewrite (Hlen eq_refl). destruct (env_len_ok _ _ _ Hn1) as [Hpos Hal]. apply wpe_bind.
  eapply wpe_mono; [apply (get_free_span_slot_spec t1 g1 n); [apply Hg1|done|done]|cbn beta|done].
  intros s t2 (g2 & Hs2 & Hc2 & Hk2 & Hm2 & Hbk2 & Hsl).
  pose proof (grown_trans _ _ _ _ _ _ Hg1 (slot_grown _ _ _ _ _ _ Hs2 Hc2 Hk2 Hsl)) as Hg2.
  assert (Hbk : checking t = true -> blocks_kept g g2).
  { intros Hc. destruct (Hbk1 Hc) as [A1 A2], Hbk2 as [B1 B2]. unfold blocks_kept, same_blocks in *. split; congruence. }
  destruct Hsl as [[-> _]|(va & Hat & Hgood & Hb2 & HR)].
  { rewrite Z.eqb_refl. apply wpe_ret. exists g2. split; [done|]. split; [done|by left]. }
  destruct Hat as (Hsn & y & Hy & Ey). rewrite (proj2 (Z.eqb_neq _ _)) by done. injection Ey as -> ->.
  apply wpe_bind. eapply wpe_ok; [by apply get_span_ok|]. cbn beta. apply wpe_bind, wpe_zoom.
  eapply wpe_mono; [apply (frame_map_ok fid (hn_va y) (hn_len y))|cbn beta|done]; [by apply (gr_lens _ _ _ _ Hg2)|done|by apply HR|].
  intros r e3 (Hk3 & Ht3 & Hm3 & Hok).
  assert (Hs3 : space_inv (set_ad_env e3 t2) g2).
  { apply (space_mapped t2 g2 e3 (hn_va y) (hn_len y)); [done|exact Ht3|exact Hm3|]. intros x Hx. apply Hb2. by right. }
  assert (Hg3 : grown t g (set_ad_env e3 t2) g2).
  { destruct Hg2 as [A1 A2 A3 A4]. constructor; [exact Hs3|done| |exact A4]. intros f m Hf. by apply Hk3, A3. }
  destruct (Z.eqb_spec r OK) as [->|]; cbn [negb]; apply wpe_ret; exists g2; (split; [exact Hg3|split; [exact Hbk|]]); [|by left].
  right. split; [done|]. intros x Hx. split; [|split].
  - intros Hbx. destruct (HR x Hx) as [Hnb _]. apply Hnb. by apply (gr_busy _ _ _ _ Hg1).
  - apply Hb2. by right.
  - apply (Hok eq_refl). by right.
Qed.

Lemma frame_map_anywhere_spec fid n t g : space_inv t g -> env_len (ad_env t) fid = Some n ->
  wp (frame_map_anywhere fid) t (map_post t g n).
Proof.
  intros Hs Hn. apply map_anywhere_spec; [done|done|right]. intros fid' n' t' g' Hs' Hc' Hn'.
  apply map_anywhere_spec; [done|done|by left].
Qed.

(** C28: Mapping a frame anywhere maps it where nothing is mapped and no other frame can
    be from then on, or answers nil; what was mapped stays so.  The lists stay
    right, with both pools growing on the way when they run low. *)
Theorem frame_map_anywhere_correct fid n t g : space_inv t g -> env_len (ad_env t) fid = Some n ->
  wp (frame_map_anywhere fid) t (fun va t' => exists g', space_inv t' g' /\ (forall x, busy t g x -> busy t' g' x) /\
    (va = NIL \/ ((PAGE_SIZE | va) /\ 0 < va /\ va + n <= SPACE_END /\
      forall x, va <= x < va + n -> ~ busy t g x /\ busy t' g' x /\ env_mapped (ad_env t') x))).
Proof.
  intros Hs Hn. eapply wpe_mono; [by apply (frame_map_anywhere_spec fid n t g)|cbn beta|done].
  intros va t' (g' & Hg & _ & Hva). exists g'. split; [apply Hg|]. split; [apply Hg|].
  destruct Hva as [Hva|[(A1 & A2 & A3) HR]]; [by left|right]. done.
Qed.

(** ** Unmapping *)
Lemma seg_fuel {K} `{Countable K} (N : gmap Z (hnode K)) p h (L : list Z) : hseg N p h L NIL -> (length L <= S (base.size N))%nat.
Proof. intros Hs. pose proof (hseg_size _ _ _ _ Hs). lia. Qed.

Lemma find_l1_spec t g va : addr_rep t g -> forall fuel post l p, (length post <= fuel)%nat ->
  hseg (hs_node (ad_l1 t)) p l post NIL -> (forall a, a ∈ post -> is_l1 g a) ->
  exists r, find_l1 fuel va l t = Ok r t /\ ((r <> NIL /\ r ∈ post /\ in_range (l1r t r) va) \/
    (r = NIL /\ forall a, a ∈ post -> ~ in_range (l1r t a) va)).
Proof.
  intros Hr. induction fuel as [|fuel IH]; intros [|a post] l p Hf Hs Hin; try (cbn in Hf; lia).
  1,2: cbn in Hs; subst; exists NIL; split; [done|right; split; [done|set_solver]].
  destruct Hs as (-> & Hn & y & Hy & _ & Hs). cbn [find_l1]. rewrite (proj2 (Z.eqb_neq _ _)) by done.
  erewrite bind_ok by by apply get_l1_ok.
  assert (Ey : l1r t a = (hn_va y, hn_len y)) by (unfold l1r, range_of; by rewrite Hy).
  destruct (ar_l1_ok _ _ Hr a) as (_ & _ & B1 & B2 & B3); [set_solver|]. rewrite Ey in B1, B2, B3. cbn in B1, B2, B3.
  unfold SPACE_END in B3. rewrite u32_small by lia.
  destruct (_ && _)%bool eqn:Eb.
  - exists a. split; [done|]. left. split; [done|]. split; [set_solver|]. rewrite Ey. unfold in_range. cbn. bdestruct_all. lia.
  - assert (Hout : ~ in_range (l1r t a) va).
    { rewrite Ey. unfold in_range. cbn. intros Hx. apply andb_false_iff in Eb as [Eb|Eb]; bdestruct_all; lia. }
    destruct (IH post (hn_next y) (HNext a)) as (r & Hrun & Hr'); [cbn in Hf; lia|done|set_solver|]. exists r.
    split; [done|]. destruct Hr' as [(?&?&?)|[? Hall]]; [left; set_solver|right]. split; [done|].
    intros b [->|Hb]%elem_of_cons; [done|by apply Hall].
Qed.

Lemma find_span_spec t g l side va : addr_rep t g -> forall fuel post s p, (length post <= fuel)%nat ->
  hseg (hs_node (ad_span t)) p s post NIL -> (forall a, a ∈ post -> a ∈ g_sp g (l, side)) ->
  exists r, find_span fuel va s t = Ok r t /\ ((r <> NIL /\ r ∈ post /\ (spr t r).1 = va) \/
    (r = NIL /\ forall a, a ∈ post -> (spr t a).1 <> va)).
Proof.
  intros Hr. induction fuel as [|fuel IH]; intros [|a post] s p Hf Hs Hin; try (cbn in Hf; lia).
  1,2: cbn in Hs; subst; exists NIL; split; [done|right; split; [done|set_solver]].
  destruct Hs as (-> & Hn & y & Hy & _ & Hs). cbn [find_span]. rewrite (proj2 (Z.eqb_neq _ _)) by done.
  erewrite bind_ok by by apply get_span_ok.
  assert (Ey : spr t a = (hn_va y, hn_len y)) by (unfold spr, range_of; by rewrite Hy).
  destruct (Z.eqb_spec (hn_va y) va).
  - exists a. split; [done|]. left. split; [done|]. split; [set_solver|]. by rewrite Ey.
  - destruct (IH post (hn_next y) (HNext a)) as (r & Hrun & Hr'); [cbn in Hf; lia|done|set_solver|]. exists r.
    split; [done|]. destruct Hr' as [(?&?&?)|[? Hall]]; [left; set_solver|right]. split; [done|].
    intros b [->|Hb]%elem_of_cons; [by rewrite Ey|by apply Hall].
Qed.

Lemma unmap_moves t g l a r : addr_rep t g -> a ∈ g_sp g (l, sp_list_mapped) -> spr t a = r ->
  wp (take_add_span a (l, sp_list_free)) t (fun _ t' => exists g', addr_rep t' g' /\ spans_only t t' g g' /\
    g_p2 g' = g_p2 g /\ (forall x, busy t' g' x <-> busy t g x /\ ~ in_range r x) /\
    (forall x, idle t' g' x <-> idle t g x \/ in_range r x)).
Proof.
  intros Hr Ha <-. eapply wpe_mono; [by apply (move_span t g l sp_list_mapped sp_list_free a)|cbn beta|done].
  intros _ t' (g' & Hr' & Hso & Hp2 & _ & Hspr & Hmem). exists g'. split; [done|]. split; [done|]. split; [done|]. split; intros x.
  - split.
    + intros (l' & b & [[? _]|[Hba Hb]]%Hmem & Hx); [done|]. rewrite Hspr in Hx. split; [by exists l', b|]. intros Hx'.
      apply Hba. eapply (ar_sp_apart _ _ Hr); [by eexists|by eexists|done|done].
    + intros [(l' & b & Hb & Hx) Hnx]. exists l', b. rewrite Hspr. split; [|done]. apply Hmem. right. split; [|done]. by intros ->.
  - split.
    + intros (l' & b & [[_ ->]|[Hba Hb]]%Hmem & Hx); rewrite Hspr in Hx; [by right|left; by exists l', b].
    + intros [(l' & b & Hb & Hx)|Hx].
      * exists l', b. rewrite Hspr. split; [|done]. apply Hmem. right. split; [|done]. intros ->.
        by pose proof (span_unique t g _ _ _ Hr Ha Hb).
      * exists l, a. rewrite Hspr. split; [|done]. apply Hmem. by left.
Qed.

(** C29: Unmapping a span gives its bytes back, and takes them out of the kernel's map
    when the kernel agrees; an address where no span starts is refused. *)
Theorem unmap_addr_correct fid va n t g l a : space_inv t g -> a ∈ g_sp g (l, sp_list_mapped) -> spr t a = (va, n) ->
  0 < n -> (forall b, b ∈ g_sp g (l, sp_list_mapped) -> (spr t b).1 = va -> b = a) ->
  (forall x, block_bytes l1_block (g_p1 g) x \/ block_bytes span_block (g_p2 g) x -> ~ in_range (va, n) x) ->
  wp (unmap_addr fid va) t (fun r t' => exists g', addr_rep t' g' /\
    (forall x, busy t' g' x <-> busy t g x /\ ~ in_range (va, n) x) /\
    (forall x, idle t' g' x <-> idle t g x \/ in_range (va, n) x) /\
    (r = OK -> env_len (ad_env t) fid = Some n -> space_inv t' g')).
Proof.
  intros Hs Ha Es Hn Huniq Hblocks. pose proof Hs as [Hr He Hi].
  destruct (ar_l1 _ _ Hr l1_mapped) as (h & Hh & Hseg).
  assert (Hl : l ∈ g_l1 g l1_mapped) by (eapply (ar_sp_in _ _ Hr); by eexists). assert (Hil : is_l1 g l) by (by exists l1_mapped).
  assert (Hva : in_range (spr t a) va) by (rewrite Es; unfold in_range; cbn; lia).
  unfold unmap_addr. apply wpe_bind, wpe_get. rewrite Hi. cbn [negb]. apply wpe_bind.
  eapply wpe_ok; [by apply get_l1_head_ok|]. cbn beta. apply wpe_bind. eapply wpe_ok; [apply l1_fuel_ok|]. cbn beta.
  destruct (find_l1_spec t g va Hr (S (base.size (hs_node (ad_l1 t)))) _ _ _ (seg_fuel _ _ _ _ Hseg) Hseg)
    as (l' & Hrun & Hl'); [intros b Hb; by exists l1_mapped|].
  apply wpe_bind. eapply wpe_ok; [exact Hrun|]. cbn beta.
  destruct Hl' as [(Hn' & Hin' & Hx')|[_ Hall]]; [|by destruct (Hall l Hl); eapply span_in_l1; [|by eexists|]].
  assert (l' = l) as -> by (eapply (ar_l1_apart _ _ Hr); [by exists l1_mapped|done|done|eapply span_in_l1; [done|by eexists|done]]).
  rewrite (proj2 (Z.eqb_neq _ _)) by done. destruct (ar_sp _ _ Hr l sp_list_mapped Hil) as (h2 & Hh2 & Hseg2).
  apply wpe_bind. eapply wpe_ok; [by apply get_span_head_ok|]. cbn beta. apply wpe_bind. eapply wpe_ok; [apply span_fuel_ok|]. cbn beta.
  destruct (find_span_spec t g l sp_list_mapped va Hr (S (base.size (hs_node (ad_span t)))) _ _ _
    (seg_fuel _ _ _ _ Hseg2) Hseg2) as (a' & Hrun2 & Ha'); [done|].
  apply wpe_bind. eapply wpe_ok; [exact Hrun2|]. cbn beta.
  destruct Ha' as [(Hna & Hina & Eva)|[_ Hall]]; [|by destruct (Hall a Ha); rewrite Es].
  assert (a' = a) as -> by (by apply Huniq). rewrite (proj2 (Z.eqb_neq _ _)) by done.
  apply wpe_bind. eapply wpe_mono; [by apply (unmap_moves t g l a (va, n))|cbn beta|done].
  intros _ t1 (g1 & Hr1 & Hso & Hp2 & Hb1 & Hi1). pose proof Hso as [So1 So2 So3 So4 So5 So6 So7].
  destruct (span_bounds t g l a Hr ltac:(by eexists)) as (B1 & B2 & B3). rewrite Es in B1, B2, B3.
  assert (Hgood : range_good (va, n)).
  { split; [|done]. pose proof (ar_sp_ok _ _ Hr l a ltac:(by eexists)) as (A1 & _). by rewrite Es in A1. }
  apply wpe_zoom. eapply wpe_mono; [by apply (frame_unmap_ok fid va n)|cbn beta|done].
  intros r e (Hk & Ht & Hm & Hok). exists g1. split; [by apply rep_env|]. split; [exact Hb1|]. split; [exact Hi1|].
  intros -> Hlen. rewrite So3 in *. specialize (Hok eq_refl Hlen). destruct He as [H1 H2 H3 H4 H5 H6].
  assert (Hl1r : forall b, l1r (set_ad_env e t1) b = l1r t b) by (intros; unfold l1r; cbn; by rewrite So4).
  assert (Hrsv : forall x, reserve (set_ad_env e t1) g1 x <-> reserve t g x) by (intros x; unfold reserve; rewrite So6; by setoid_rewrite Hl1r).
  split; [by apply rep_env| |by cbn; rewrite So1]. constructor; rewrite ?So6, ?So7, ?Hp2; cbn [ad_env set_ad_env]; try done.
  - intros l0 x. rewrite Hl1r. intros Hl0 Hx. apply Ht. by eapply H1.
  - intros x Hx%Hrsv Hy. by apply (H2 x Hx), Ht.
  - intros x Hx [Hy Hnx]%Hok. apply (H3 x); [|done]. destruct Hx as [[Hx|Hx]%Hi1|Hx%Hrsv]; [by left|done|by right].
  - intros x Hx. apply Hb1. split; [by apply H4|]. apply Hblocks. by left.
  - intros x Hx. apply Hb1. split; [by apply H5|]. apply Hblocks. by right.
Qed.

Lemma unmap_addr_refused fid va t g : space_inv t g ->
  (forall l a, a ∈ g_sp g (l, sp_list_mapped) -> (spr t a).1 <> va) -> unmap_addr fid va t = Ok ERR t.
Proof.
  intros Hs Hno. pose proof Hs as [Hr He Hi]. destruct (ar_l1 _ _ Hr l1_mapped) as (h & Hh & Hseg).
  unfold unmap_addr. unfold get at 1, bind at 1. rewrite Hi. cbn [negb].
  erewrite bind_ok by by apply get_l1_head_ok. erewrite bind_ok by apply l1_fuel_ok.
  destruct (find_l1_spec t g va Hr (S (base.size (hs_node (ad_l1 t)))) _ _ _ (seg_fuel _ _ _ _ Hseg) Hseg)
    as (l & Hrun & Hl); [intros b Hb; by exists l1_mapped|]. erewrite bind_ok by exact Hrun.
  destruct Hl as [(Hn & Hl & _)|[-> _]]; [|done]. rewrite (proj2 (Z.eqb_neq _ _)) by done.
  destruct (ar_sp _ _ Hr l sp_list_mapped ltac:(by exists l1_mapped)) as (h2 & Hh2 & Hseg2).
  erewrite bind_ok by by apply get_span_head_ok. erewrite bind_ok by apply span_fuel_ok.
  destruct (find_span_spec t g l sp_list_mapped va Hr (S (base.size (hs_node (ad_span t)))) _ _ _
    (seg_fuel _ _ _ _ Hseg2) Hseg2) as (a & Hrun2 & Ha); [done|].
  erewrite bind_ok by exact Hrun2. destruct Ha as [(_ & Hin & Eva)|[-> _]]; [|done]. by destruct (Hno l a).
Qed.
End map.
