(* ===== verification/AddrFirst.v ===== *)
(** * The first call, and a kernel to run on

    The first frame_map_anywhere of a process sets the lists up with addr_init.
    The kernel at the end keeps its tables as predicates; the results run on it. *)
From stdpp Require Import functions.
From S2P Require Import Prelude KState Mmu Pool HList Addr AddrProps AddrSpec AddrMap.
From S2P Require Ranges.

Local Open Scope Z_scope.
Local Open Scope c_scope.
Import Ranges (in_range, taken).

Section first.
Context {E : Type} `{SpaceOk E}.
Implicit Types (t : addrs E) (g : ghost) (a b l n x len fid va : Z) (e : E).

(** ** The first call *)
Definition tva : Z := TABLE_ALIGN_DN text_start.
Definition tend : Z := TABLE_ALIGN data_end.
Definition pva : Z := PAGE_ALIGN_DN text_start.
Definition pend : Z := PAGE_ALIGN data_end.
(** A process that has just been started. *)
Record fresh t : Prop := {
  fr_init : initialized t = false;
  fr_pool1 : pl_obj (l1_span_pool t) = ∅;
  fr_pool2 : pl_obj (span_pool t) = ∅;
  fr_link : PAGE_SIZE <= text_start < data_end /\ data_end + TABLE_AREA <= SPACE_END;
  fr_array1 : text_start <= l1_span_pool_initial /\ l1_span_pool_initial + l1_span_initial_size <= data_end;
  fr_array2 : text_start <= span_pool_initial /\ span_pool_initial + span_initial_size <= data_end;
  fr_table : forall x, tva <= x < tend -> env_table (ad_env t) x;
  fr_notable : forall x, tend <= x < SPACE_END -> ~ env_table (ad_env t) x;
  fr_unmapped : forall x, pend <= x < SPACE_END -> ~ env_mapped (ad_env t) x
}.

Lemma link_ok t : fresh t -> 0 <= tva <= pva /\ 0 < pva <= text_start /\ data_end <= pend <= tend /\ tend < SPACE_END /\
  (TABLE_AREA | tva) /\ (TABLE_AREA | tend) /\ (PAGE_SIZE | pva) /\ (PAGE_SIZE | pend).
Proof.
  intros Hf. destruct (fr_link _ Hf) as [[H1 H2] H3]. unfold SPACE_END in H3. change TABLE_AREA with (2 ^ 20) in *.
  change PAGE_SIZE with (2 ^ 12) in *. unfold tva, tend, pva, pend, TABLE_ALIGN_DN, TABLE_ALIGN, PAGE_ALIGN_DN, PAGE_ALIGN.
  change TABLE_AREA with (2 ^ 20). change PAGE_SIZE with (2 ^ 12).
  rewrite !align_down_pow2, !align_up_pow2 by lia. unfold SPACE_END.
  assert (Hd : forall a b, (b | a * b)) by (intros a b; by exists a).
  split_and!; try apply Hd; Z.div_mod_to_equations; lia.
Qed.

Lemma alloc_first sz p P (Q : Z -> pool -> Prop) : pool_rep sz p P -> sp_free P <> ∅ ->
  (forall n p', n <> NIL -> n ∈ sp_free P -> n ∉ sp_used P -> pool_rep sz p' (taken n P) -> Q n p') -> wp pool_alloc p Q.
Proof. intros Hp Hne HQ. by apply (alloc_block sz p P). Qed.

Lemma taken_more n P : n ∈ sp_free P -> (2 <= base.size (sp_free P))%nat -> sp_free (taken n P) <> ∅.
Proof.
  intros Hn Hs E1. cbn in E1. assert (Hsz : base.size (sp_free P ∖ {[n]}) = 0%nat) by (by rewrite E1, size_empty).
  rewrite size_difference in Hsz by set_solver. rewrite size_singleton in Hsz. lia.
Qed.

Lemma taken_not_free n P : n ∉ sp_free (taken n P).
Proof. cbn. set_solver. Qed.

Lemma taken_ne n m P : m ∈ sp_free (taken n P) -> n <> m.
Proof. intros Hm ->. by apply taken_not_free in Hm. Qed.

Lemma taken_used n P : n ∈ sp_used (taken n P).
Proof. cbn. set_solver. Qed.

Lemma taken_used_other n m P : m ∈ sp_used P -> m ∈ sp_used (taken n P).
Proof. cbn. set_solver. Qed.

Lemma block_bytes_taken sz n P x : n ∈ sp_free P -> block_bytes sz (taken n P) x -> block_bytes sz P x.
Proof.
  intros Hn (v & Hv & Hvx). exists v. split; [|done]. cbn in Hv. destruct (decide (v = n)); set_solver.
Qed.

(** A new pool with the memory it was linked with. *)
Lemma first_load sz p a len (Q : Z -> pool -> Prop) : pool_rep sz p (mk_pool_spec ∅ ∅) -> 0 < a -> a + len <= 2 ^ 32 ->
  2 * sz + sizeof_pool_frame <= len ->
  (forall r p' P', pool_rep sz p' P' -> sp_used P' = ∅ -> (2 <= base.size (sp_free P'))%nat ->
     (forall x, block_bytes sz P' x -> in_range (a, len) x) -> Q r p') ->
  wp (pool_load a len) p Q.
Proof.
  intros Hp Ha Hend Hlen HQ. pose proof Hp as [Hs _]. destruct (ps_size _ _ _ Hs) as [_ Hsz].
  unfold sizeof_pool_obj, sizeof_pool_frame in *.
  apply (load_spec sz p (mk_pool_spec ∅ ∅)); [exact Hp|done|lia|done| |].
  { intros x (v & Hv & _). cbn in Hv. set_solver. }
  intros r p2 P' Hp2 Hu Hb Hok. destruct Hok as (-> & _ & Hn); [unfold sizeof_pool_frame; lia|].
  apply (HQ OK p2 P' Hp2 Hu).
  - unfold sizeof_pool_frame in Hn. assert (2 <= (len - 12) / sz) by (apply Z.div_le_lower_bound; lia). lia.
  - intros x [(v & Hv & _)|Hx]%Hb; [cbn in Hv; set_solver|done].
Qed.

(** The lists after the first call. *)
Definition first_ghost lm lf m f (P1 P2 : pool_spec) : ghost := mk_ghost
  (fun k => match k with l1_mapped => [lm] | l1_free => [lf] end)
  (fun '(l, side) => if decide (l = lm) then match side with sp_list_mapped => [m] | sp_list_free => [f] end else [])
  P1 P2.
Record first_lists t' lm lf m f : Prop := {
  fl_heads : hs_head (ad_l1 t') !! l1_mapped = Some lm /\ hs_head (ad_l1 t') !! l1_free = Some lf;
  fl_lm : hs_node (ad_l1 t') !! lm = Some (mk_hnode tva (tend - tva) (HHead l1_mapped) NIL);
  fl_lf : hs_node (ad_l1 t') !! lf = Some (mk_hnode tend (SPACE_END - tend) (HHead l1_free) NIL);
  fl_spheads : hs_head (ad_span t') !! (lm, sp_list_mapped) = Some m /\ hs_head (ad_span t') !! (lm, sp_list_free) = Some f;
  fl_nil : forall side, hs_head (ad_span t') !! (lf, side) = Some NIL;
  fl_m : hs_node (ad_span t') !! m = Some (mk_hnode pva (pend - pva) (HHead (lm, sp_list_mapped)) NIL);
  fl_f : hs_node (ad_span t') !! f = Some (mk_hnode pend (tend - pend) (HHead (lm, sp_list_free)) NIL);
  fl_ne : lm <> lf /\ lm <> NIL /\ lf <> NIL /\ m <> f /\ m <> NIL /\ f <> NIL
}.

Lemma first_rep t t' lm lf m f P1 P2 : fresh t -> first_lists t' lm lf m f ->
  pool_rep l1_block (l1_span_pool t') P1 -> pool_rep span_block (span_pool t') P2 ->
  lm ∈ sp_used P1 -> lf ∈ sp_used P1 -> m ∈ sp_used P2 -> f ∈ sp_used P2 -> addr_rep t' (first_ghost lm lf m f P1 P2).
Proof.
  intros Hf [[Hh1 Hh2] Hlm Hlf [Hs1 Hs2] Hnil Hm Hfn (N1 & N2 & N3 & N4 & N5 & N6)] Hp1 Hp2 U1 U2 U3 U4.
  destruct (link_ok _ Hf) as ([A1 A2] & [A3 A4] & [A5 A6] & A7 & D1 & D2 & D3 & D4).
  pose proof (fr_link _ Hf) as [[_ A8] _].
  assert (DE : (TABLE_AREA | SPACE_END)) by (by exists 4080). assert (DP : (PAGE_SIZE | TABLE_AREA)) by (by exists 256).
  assert (Elm : l1r t' lm = (tva, tend - tva)) by (unfold l1r, range_of; by rewrite Hlm).
  assert (Elf : l1r t' lf = (tend, SPACE_END - tend)) by (unfold l1r, range_of; by rewrite Hlf).
  assert (Em : spr t' m = (pva, pend - pva)) by (unfold spr, range_of; by rewrite Hm).
  assert (Ef : spr t' f = (pend, tend - pend)) by (unfold spr, range_of; by rewrite Hfn).
  assert (His : forall a, is_l1 (first_ghost lm lf m f P1 P2) a <-> a = lm \/ a = lf).
  { intros a. split; [intros [[] Ha]; cbn in Ha; set_solver|]. intros [->| ->]; [exists l1_mapped|exists l1_free]; cbn; set_solver. }
  assert (Hmem : forall l side a, a ∈ g_sp (first_ghost lm lf m f P1 P2) (l, side) <->
    l = lm /\ ((side = sp_list_mapped /\ a = m) \/ (side = sp_list_free /\ a = f))).
  { intros l side a. cbn. destruct (decide (l = lm)), side; set_solver. }
  assert (Hsp : forall l a, is_span (first_ghost lm lf m f P1 P2) l a <-> l = lm /\ (a = m \/ a = f)).
  { intros l a. unfold is_span. setoid_rewrite Hmem. naive_solver. }
  constructor; intros; repeat (rewrite ?His, ?Hsp in * ); try done.
  - destruct k; [exists lf|exists lm]; (split; [done|]); cbn; (split; [done|split; [done|by eexists]]).
  - cbn in *. set_solver.
  - cbn. naive_solver.
  - destruct H1 as [->| ->].
    + destruct side; cbn; rewrite decide_True by done; [exists f|exists m]; (split; [done|split; [done|split; [done|by eexists]]]).
    + cbn. rewrite decide_False by done. exists NIL. by split.
  - cbn. set_solver.
  - destruct k as [l1 s1], k' as [l2 s2]. apply Hmem in H1 as [-> H1], H2 as [-> H2]. naive_solver.
  - cbn. naive_solver.
  - destruct H1 as [->| ->]; [rewrite Elm|rewrite Elf]; split_and!; cbn; try done; try lia; by apply Z.divide_sub_r.
  - cbn in H1. apply list_elem_of_singleton in H1 as ->. rewrite Elf. cbn. lia.
  - destruct H1 as [->| ->], H2 as [->| ->]; try done; rewrite Elm, Elf in *; unfold in_range in *; cbn in *; lia.
  - destruct H1 as [-> [->| ->]]; rewrite Elm; [rewrite Em|rewrite Ef]; split_and!; cbn; try done; try lia;
      try (by apply Z.divide_sub_r); apply Z.divide_sub_r; [by etransitivity|done].
  - destruct H1 as [-> [->| ->]], H2 as [-> [->| ->]]; try done; rewrite Em, Ef in *; unfold in_range in *; cbn in *; lia.
Qed.

Lemma first_inv t t' lm lf m f P1 P2 : fresh t -> first_lists t' lm lf m f ->
  pool_rep l1_block (l1_span_pool t') P1 -> pool_rep span_block (span_pool t') P2 ->
  lm ∈ sp_used P1 -> lf ∈ sp_used P1 -> m ∈ sp_used P2 -> f ∈ sp_used P2 ->
  (forall x, block_bytes l1_block P1 x \/ block_bytes span_block P2 x -> text_start <= x < data_end) ->
  ad_env t' = ad_env t -> initialized t' = true ->
  let g := first_ghost lm lf m f P1 P2 in
  space_inv t' g /\ (forall x, busy t' g x <-> pva <= x < pend).
Proof.
  intros Hf Hl Hp1 Hp2 U1 U2 U3 U4 Hb He Hi g. pose proof (first_rep t t' _ _ _ _ _ _ Hf Hl Hp1 Hp2 U1 U2 U3 U4) as Hr.
  destruct Hl as [_ Hlm Hlf _ _ Hm Hfn _].
  destruct (link_ok _ Hf) as ([A1 A2] & [A3 A4] & [A5 A6] & A7 & _). pose proof (fr_link _ Hf) as [[_ A8] _].
  assert (Hbusy : forall x, busy t' g x <-> pva <= x < pend).
  { intros x. split.
    - intros (l & a & Ha & Hx). cbn in Ha. destruct (decide (l = lm)); [|set_solver].
      apply list_elem_of_singleton in Ha as ->. unfold spr, range_of in Hx. rewrite Hm in Hx. unfold in_range in Hx. cbn in Hx. lia.
    - intros Hx. exists lm, m. cbn. rewrite decide_True by done. split; [set_solver|].
      unfold spr, range_of. rewrite Hm. unfold in_range. cbn. lia. }
  split; [split; [done| |done]|done].
  assert (Hrsv : forall x, reserve t' g x -> tend <= x < SPACE_END).
  { intros x (l & Hl & Hx). cbn in Hl. apply list_elem_of_singleton in Hl as ->. unfold l1r, range_of in Hx. rewrite Hlf in Hx.
    unfold in_range in Hx. cbn in Hx. lia. }
  constructor; rewrite ?He.
  - intros l x Hl Hx. cbn in Hl. apply list_elem_of_singleton in Hl as ->. unfold l1r, range_of in Hx. rewrite Hlm in Hx.
    unfold in_range in Hx. cbn in Hx. apply (fr_table _ Hf). lia.
  - intros x Hx%Hrsv. by apply (fr_notable _ Hf).
  - intros x [(l & a & Ha & Hx)|Hx%Hrsv]; apply (fr_unmapped _ Hf); [|lia]. cbn in Ha. destruct (decide (l = lm)); [|set_solver].
    apply list_elem_of_singleton in Ha as ->. unfold spr, range_of in Hx. rewrite Hfn in Hx. unfold in_range in Hx. cbn in Hx. lia.
  - intros x Hx. apply Hbusy. specialize (Hb x (or_introl Hx)). lia.
  - intros x Hx. apply Hbusy. specialize (Hb x (or_intror Hx)). lia.
  - done.
Qed.

(** The state as a record of its fields, so that it does not grow. *)
Ltac flat := cbn [l1_span_pool span_pool ad_l1 ad_span initialized checking ad_env set_l1_span_pool set_span_pool
  set_ad_l1 set_ad_span set_initialized set_ad_env set_hs_node set_hs_head hs_node hs_head].

(** The answer of the first call: only the program itself is mapped. *)
Lemma addr_init_spec t : fresh t -> wp addr_init t (fun _ t' => exists g, space_inv t' g /\ ad_env t' = ad_env t /\
  checking t' = checking t /\ forall x, busy t' g x <-> pva <= x < pend).
Proof.
  intros Hf. destruct (link_ok _ Hf) as ([A1 A2] & [A3 A4] & [A5 A6] & A7 & _).
  pose proof (fr_link _ Hf) as [[A8 A9] A10]. pose proof (fr_array1 _ Hf) as [B1 B2]. pose proof (fr_array2 _ Hf) as [B3 B4].
  unfold SPACE_END in A7. change PAGE_SIZE with 4096 in A8.
  destruct t as [q1 q2 [N1 K1] [N2 K2] i0 c0 e0].
  unfold addr_init. apply wpe_bind, wpe_zoom. flat.
  eapply wpe_mono; [apply pool_init_rep; [done|apply Hf]|cbn beta|done]. intros r1 p1 [_ Hp1].
  apply wpe_bind, wpe_zoom. flat.
  eapply wpe_mono; [apply pool_init_rep; [done|apply Hf]|cbn beta|done]. intros r2 p2 [_ Hp2].
  apply wpe_bind, wpe_zoom. flat.
  apply (first_load l1_block); [exact Hp1|lia|unfold l1_span_initial_size in *; cbn in B2; lia|done|].
  intros r3 p3 P1 Hp3 Hu3 Hsz3 Hb3.
  apply wpe_bind, wpe_zoom. flat.
  apply (first_load span_block); [exact Hp2|lia|unfold span_initial_size in *; cbn in B4; lia|done|].
  intros r4 p4 P2 Hp4 Hu4 Hsz4 Hb4.
  apply wpe_bind, wpe_zoom. flat.
  apply (alloc_first l1_block _ P1); [done|intros E1; rewrite E1, size_empty in Hsz3; lia|]. intros lm p5 Hlm Flm Ulm Hp5.
  apply wpe_bind, wpe_zoom, wpe_modify. flat. apply wpe_bind, wpe_zoom. flat.
  apply (alloc_first l1_block _ (taken lm P1)); [done|by apply taken_more|]. intros lf p6 Hlf Flf Ulf Hp6.
  apply wpe_bind, wpe_zoom, wpe_modify. flat. cbv zeta. fold tva. fold tend. fold pva. fold pend.
  rewrite (u32_small (tend - tva)) by lia.
  apply wpe_bind, wpe_zoom. flat. unfold write_node. rewrite (proj2 (Z.eqb_neq lm NIL)) by done. apply wpe_modify.
  apply wpe_bind, wpe_zoom. flat.
  apply (alloc_first span_block _ P2); [done|intros E1; rewrite E1, size_empty in Hsz4; lia|]. intros m p7 Hm Fm Um Hp7.
  apply wpe_bind, wpe_zoom, wpe_modify. flat. rewrite (u32_small (pend - pva)) by lia.
  apply wpe_bind, wpe_zoom. flat. rewrite (proj2 (Z.eqb_neq m NIL)) by done. apply wpe_modify.
  apply wpe_bind, wpe_zoom. flat.
  apply (alloc_first span_block _ (taken m P2)); [done|by apply taken_more|]. intros f p8 Hfn Ff Uf Hp8.
  apply wpe_bind, wpe_zoom, wpe_modify. flat.
  replace (u32 (pva + (pend - pva))) with pend by (rewrite u32_small by lia; lia).
  replace (u32 (tva + (tend - tva) - pend)) with (tend - pend) by (rewrite u32_small by lia; lia).
  replace (u32 (tva + (tend - tva))) with tend by (rewrite u32_small by lia; lia).
  change 0xff000000 with SPACE_END. rewrite (u32_small (SPACE_END - tend)) by (unfold SPACE_END; lia).
  apply wpe_bind, wpe_zoom. flat. rewrite (proj2 (Z.eqb_neq f NIL)) by done. apply wpe_modify.
  apply wpe_bind, wpe_zoom. flat. rewrite (proj2 (Z.eqb_neq lf NIL)) by done. apply wpe_modify.
  do 2 (apply wpe_bind, wpe_zoom, wpe_modify; flat). apply wpe_modify. flat.
  match goal with |- exists g, space_inv ?t0 g /\ _ => set (t' := t0) end.
  pose proof (taken_ne _ _ _ Flf) as Hne1. pose proof (taken_ne _ _ _ Ff) as Hne2.
  exists (first_ghost lm lf m f (taken lf (taken lm P1)) (taken f (taken m P2))).
  destruct (first_inv _ t' lm lf m f (taken lf (taken lm P1)) (taken f (taken m P2)) Hf) as [Hs Hb];
    [|done|done|apply taken_used_other, taken_used|apply taken_used|apply taken_used_other, taken_used|apply taken_used| |done|done|].
  - constructor; cbn.
    + split; [by rewrite lookup_insert_ne, lookup_insert_eq|by rewrite lookup_insert_eq].
    + by rewrite lookup_insert_ne, lookup_insert_eq.
    + by rewrite lookup_insert_eq.
    + split; rewrite !lookup_insert_ne by congruence; by rewrite lookup_insert_eq.
    + intros []; [by rewrite lookup_insert_ne, lookup_insert_eq|by rewrite lookup_insert_eq].
    + by rewrite lookup_insert_ne, lookup_insert_eq.
    + by rewrite lookup_insert_eq.
    + done.
  - intros x [Hx|Hx].
    + apply block_bytes_taken, block_bytes_taken, Hb3 in Hx; [|done|done]. unfold in_range in Hx. cbn [fst snd] in Hx. lia.
    + apply block_bytes_taken, block_bytes_taken, Hb4 in Hx; [|done|done]. unfold in_range in Hx. cbn [fst snd] in Hx. lia.
  - exact (conj Hs (conj eq_refl (conj eq_refl Hb))).
Qed.

Lemma map_anywhere_init depth fid t : initialized t = false ->
  (forall t', addr_init t = Ok tt t' -> initialized t' = true) ->
  map_anywhere (Datatypes.S depth) fid t = (addr_init ;;; map_anywhere (Datatypes.S depth) fid) t.
Proof.
  intros Hi Hi'. cbn [map_anywhere]. unfold bind, get, ret at 1. rewrite Hi.
  destruct (addr_init t) as [[] t'| | |] eqn:Hrun; [|done..]. by rewrite Hi'.
Qed.

(** The first frame of a process goes where the program itself is not, and the lists
    are set up on the way. *)
Theorem frame_map_anywhere_first fid n t : fresh t -> env_len (ad_env t) fid = Some n ->
  wp (frame_map_anywhere fid) t (fun va t' => exists g', space_inv t' g' /\ (forall x, pva <= x < pend -> busy t' g' x) /\
    (va = NIL \/ ((PAGE_SIZE | va) /\ (va + n <= pva \/ pend <= va) /\ va + n <= SPACE_END /\
      forall x, va <= x < va + n -> busy t' g' x /\ env_mapped (ad_env t') x))).
Proof.
  intros Hf Hn. pose proof (addr_init_spec t Hf) as Hi.
  assert (Heq : frame_map_anywhere fid t = (addr_init ;;; frame_map_anywhere fid) t).
  { apply map_anywhere_init; [apply Hf|]. intros t' Hrun. unfold wpe in Hi. rewrite Hrun in Hi.
    destruct Hi as (g & Hs & _). apply Hs. }
  unfold wpe. rewrite Heq. apply wpe_bind. eapply wpe_mono; [exact Hi|cbn beta|done].
  intros _ t1 (g1 & Hs1 & He1 & _ & Hb1).
  eapply wpe_mono; [apply (frame_map_anywhere_spec fid n t1 g1); [done|by rewrite He1]|cbn beta|done].
  intros va t' (g' & Hg & _ & Hva). exists g'. split; [apply Hg|]. split; [intros x Hx; by apply (gr_busy _ _ _ _ Hg), Hb1|].
  destruct Hva as [Hva|[(D1 & D2 & D3) HR]]; [by left|right]. cbn in D1, D2, D3.
  destruct (env_len_ok _ _ _ Hn) as [Hpos _]. split; [done|]. split; [|split; [done|intros x Hx; by apply HR]].
  destruct (link_ok _ Hf) as (? & ? & ? & ? & ? & ? & Hd1 & Hd2). pose proof (fr_link _ Hf).
  destruct (Z.le_gt_cases pend va); [by right|left]. destruct (Z.le_gt_cases (va + n) pva); [done|].
  exfalso. destruct (HR (Z.max va pva)) as [Hnb _]; [unfold in_range; cbn; lia|]. apply Hnb, Hb1. lia.
Qed.
End first.

(** ** A kernel *)
(** Frames by their identifier, and the bytes that have a table and that are mapped. *)
Record kernel := mk_kernel {
  kn_next : Z;
  kn_frame : gmap Z Z;
  kn_table : Z -> bool;
  kn_map : Z -> bool
}.
Definition in_rangeb (va n x : Z) : bool := (va <=? x) && (x <? va + n).
Definition len_good (n : Z) : bool := (0 <? n) && (n <=? 2 ^ 31) && (n mod PAGE_SIZE =? 0).
Definition kn_len (e : kernel) (fid : Z) : option Z :=
  match kn_frame e !! fid with Some n => if len_good n then Some n else None | None => None end.
Definition on_frame (f : Z -> kernel -> kernel) (fid : Z) : M kernel Z := fun e =>
  match kn_len e fid with Some n => Ok OK (f n e) | None => Ok ERR e end.

#[export] Instance kernel_space : Space kernel := {|
  request_memory len _ e :=
    match kn_frame e !! kn_next e with
    | Some _ => Ok (-1) e
    | None => Ok (kn_next e) (mk_kernel (kn_next e + 1) (<[kn_next e := len]> (kn_frame e)) (kn_table e) (kn_map e))
    end;
  release_memory fid e := Ok tt (mk_kernel (kn_next e) (delete fid (kn_frame e)) (kn_table e) (kn_map e));
  frame_info fid e := match kn_len e fid with Some n => Ok (OK, 0, 0, n) e | None => Ok (ERR, 0, 0, 0) e end;
  frame_map _ fid va :=
    on_frame (fun n e => mk_kernel (kn_next e) (kn_frame e) (kn_table e) (fun x => in_rangeb va n x || kn_map e x)) fid;
  frame_unmap _ fid va :=
    on_frame (fun n e => mk_kernel (kn_next e) (kn_frame e) (kn_table e) (fun x => negb (in_rangeb va n x) && kn_map e x)) fid;
  frame_l2_map _ fid va :=
    on_frame (fun n e => mk_kernel (kn_next e) (kn_frame e) (fun x => in_rangeb va (n * 256) x || kn_table e x) (kn_map e)) fid;
  frame_l2_unmap _ fid va :=
    on_frame (fun n e => mk_kernel (kn_next e) (kn_frame e) (fun x => negb (in_rangeb va (n * 256) x) && kn_table e x) (kn_map e)) fid;
  l1_span_pool_initial := 0x12000;
  span_pool_initial := 0x13000;
  text_start := 0x10000;
  data_end := 0x14000
|}.

Lemma in_rangeb_spec va n x : in_rangeb va n x = true <-> in_range (va, n) x.
Proof. unfold in_rangeb, in_range. cbn. rewrite andb_true_iff, Z.leb_le, Z.ltb_lt. done. Qed.
Lemma kn_len_good e fid n : kn_len e fid = Some n -> 0 < n <= 2 ^ 31 /\ (PAGE_SIZE | n).
Proof.
  unfold kn_len. destruct (kn_frame e !! fid) as [m|]; [|done]. destruct (len_good m) eqn:Hg; [|done]. intros [= ->].
  unfold len_good in Hg. rewrite !andb_true_iff, Z.ltb_lt, Z.leb_le, Z.eqb_eq in Hg. destruct Hg as [Hn Hm].
  split; [done|]. by apply Z.mod_divide.
Qed.
Lemma kn_len_is e fid n : 0 < n <= 2 ^ 31 -> (PAGE_SIZE | n) -> kn_frame e !! fid = Some n -> kn_len e fid = Some n.
Proof.
  intros Hn Hd Hf. unfold kn_len. rewrite Hf. replace (len_good n) with true; [done|]. symmetry. unfold len_good.
  rewrite !andb_true_iff, Z.ltb_lt, Z.leb_le, Z.eqb_eq. split; [done|]. by apply Z.mod_divide.
Qed.

#[export] Program Instance kernel_space_ok : SpaceOk kernel := {|
  env_len := kn_len;
  env_table e x := kn_table e x = true;
  env_mapped e x := kn_map e x = true;
  env_len_ok := kn_len_good
|}.
Next Obligation.
  intros len e Hn Hd. unfold wpe, request_memory, kernel_space. destruct (kn_frame e !! kn_next e) eqn:He; [done|].
  split; [|split; [done|split; [done|intros _; split; [unfold kn_len; by rewrite He|]]]].
  - intros f n. unfold kn_len. cbn. destruct (decide (kn_next e = f)) as [<-|]; [by rewrite He|by rewrite lookup_insert_ne].
  - apply kn_len_is; [done|done|]. cbn. by rewrite lookup_insert_eq.
Qed.
Next Obligation.
  intros fid e. unfold wpe, release_memory, kernel_space. split; [|done]. intros f n Hf. unfold kn_len. cbn.
  by rewrite lookup_delete_ne.
Qed.
Next Obligation. intros fid n e He. unfold wpe, frame_info, kernel_space. by rewrite He. Qed.
Next Obligation.
  intros fid va n e He _ _. unfold wpe, frame_map, kernel_space, on_frame. rewrite He.
  split; [done|]. split; [done|]. cbn. setoid_rewrite orb_true_iff. setoid_rewrite in_rangeb_spec. split; [tauto|]. intros _ x. tauto.
Qed.
Next Obligation.
  intros fid va n e _. unfold wpe, frame_unmap, kernel_space, on_frame. destruct (kn_len e fid) as [m|] eqn:He; [|done].
  split; [done|]. split; [done|]. cbn. setoid_rewrite andb_true_iff. setoid_rewrite negb_true_iff. split; [tauto|].
  intros _ [= ->] x. rewrite <-in_rangeb_spec, not_true_iff_false. tauto.
Qed.
Next Obligation.
  intros fid va n e He _ _. unfold wpe, frame_l2_map, kernel_space, on_frame. rewrite He.
  split; [done|]. cbn. setoid_rewrite orb_true_iff. setoid_rewrite in_rangeb_spec. split; [|done]. intros x. tauto.
Qed.
Next Obligation.
  intros fid va n e He _. unfold wpe, frame_l2_unmap, kernel_space, on_frame. rewrite He.
  split; [done|]. cbn. setoid_rewrite andb_true_iff. setoid_rewrite negb_true_iff. split; [|done]. intros x.
  rewrite <-in_rangeb_spec, not_true_iff_false. tauto.
Qed.

(** A process at 0x10000, with two frames of a page. *)
Definition started : addrs kernel := mk_addrs (mk_pool 0 0 0 0 ∅ ∅) (mk_pool 0 0 0 0 ∅ ∅) (mk_hstore ∅ ∅) (mk_hstore ∅ ∅) false false
  (mk_kernel 7 {[5 := 4096; 6 := 4096]} (in_rangeb 0 0x100000) (in_rangeb 0x10000 0x4000)).

Lemma started_fresh : fresh started.
Proof.
  constructor; try done.
  - intros x Hx. cbn. apply in_rangeb_spec. unfold in_range. change tva with 0 in Hx. change tend with 0x100000 in Hx. cbn. lia.
  - intros x Hx. cbn. rewrite in_rangeb_spec. unfold in_range. change tend with 0x100000 in Hx. cbn. lia.
  - intros x Hx. cbn. rewrite in_rangeb_spec. unfold in_range. change pend with 0x14000 in Hx. cbn. lia.
Qed.

Definition state_of {A} (m : M (addrs kernel) A) (t : addrs kernel) : addrs kernel :=
  match m t with Ok _ t' => t' | _ => t end.
Definition with_one : addrs kernel := state_of (frame_map_anywhere 5) started.

(** By computation: a pool is grown at the first free page, the frame is behind it. *)
Definition answer {A} (m : M (addrs kernel) A) (t : addrs kernel) : option A :=
  match m t with Ok a _ => Some a | _ => None end.
Lemma answer_state {A} (m : M (addrs kernel) A) t a : answer m t = Some a -> m t = Ok a (state_of m t).
Proof. unfold answer, state_of. destruct (m t); [|done..]. by intros [= ->]. Qed.
Ltac by_answer := apply answer_state; vm_compute; reflexivity.
Lemma with_one_runs : frame_map_anywhere 5 started = Ok 0x15000 with_one.
Proof. unfold with_one. by_answer. Qed.

Lemma frame_map_anywhere_first_witness : frame_map_anywhere 5 started = Ok 0x15000 with_one /\ exists g, space_inv with_one g /\
  forall x, 0x15000 <= x < 0x15000 + 4096 -> busy with_one g x /\ env_mapped (ad_env with_one) x.
Proof.
  split; [exact with_one_runs|].
  destruct (wp_run _ _ _ _ _ (frame_map_anywhere_first 5 4096 started started_fresh eq_refl) with_one_runs) as (g & Hs & _ & [Hva|(_ & _ & _ & Hx)]); [discriminate|].
  exists g. split; [exact Hs|exact Hx].
Defined.

Lemma with_one_inv : exists g, space_inv with_one g /\ busy with_one g 0x15000.
Proof.
  pose proof (addr_init_spec started started_fresh) as Hi. destruct (wp_inv _ _ _ Hi) as ([] & t1 & Hrun & g1 & Hs1 & He1 & _).
  assert (Heq : frame_map_anywhere 5 started = frame_map_anywhere 5 t1).
  { unfold frame_map_anywhere. rewrite map_anywhere_init; [|reflexivity|intros t'; rewrite Hrun; intros [= <-]; apply Hs1].
    by erewrite bind_ok by exact Hrun. }
  pose proof with_one_runs as Hr1. rewrite Heq in Hr1.
  destruct (wp_run _ _ _ _ _ (frame_map_anywhere_spec 5 4096 t1 g1 Hs1 ltac:(by rewrite He1)) Hr1) as (g & Hg & _ & [Hva|[_ HR]]); [discriminate|].
  exists g. split; [apply Hg|]. apply HR. unfold in_range. cbn [fst snd]. lia.
Qed.

Definition with_two : addrs kernel := state_of (frame_map_anywhere 6) with_one.
Lemma with_two_runs : frame_map_anywhere 6 with_one = Ok 0x16000 with_two.
Proof. unfold with_two. by_answer. Qed.

Lemma frame_map_anywhere_correct_witness : frame_map_anywhere 6 with_one = Ok 0x16000 with_two /\
  exists g g', space_inv with_one g /\ space_inv with_two g' /\
  forall x, 0x16000 <= x < 0x16000 + 4096 -> ~ busy with_one g x /\ busy with_two g' x /\ env_mapped (ad_env with_two) x.
Proof.
  split; [exact with_two_runs|]. destruct with_one_inv as (g & Hs & _).
  assert (Hn : env_len (ad_env with_one) 6 = Some 4096) by (vm_compute; reflexivity).
  destruct (wp_run _ _ _ _ _ (frame_map_anywhere_correct 6 4096 with_one g Hs Hn) with_two_runs) as (g' & Hs' & _ & [Hva|(_ & _ & _ & Hx)]); [discriminate|].
  exists g, g'. split; [exact Hs|]. split; [exact Hs'|exact Hx].
Defined.

#[local] Opaque with_one with_two.
(** The span of the frame, and that no block of a pool is in it. *)
Definition node_of_frame : Z := 77964.
Definition alone_at (N : gmap Z span) : bool :=
  forallb (fun '(a, y) => negb (in_rangeb (hn_va y) (hn_len y) 0x15000 || (hn_va y =? 0x15000)) ||
    ((a =? node_of_frame) && (hn_va y =? 0x15000) && (hn_len y =? 4096)))%bool (map_to_list N).
Lemma only_node N a (y : span) : alone_at N = true -> N !! a = Some y ->
  in_range (hn_va y, hn_len y) 0x15000 \/ hn_va y = 0x15000 -> a = node_of_frame /\ hn_va y = 0x15000 /\ hn_len y = 4096.
Proof.
  intros Hb Hy Hx. apply elem_of_map_to_list, list_elem_of_In in Hy. unfold alone_at in Hb. rewrite forallb_forall in Hb.
  specialize (Hb _ Hy). cbn beta iota in Hb. apply orb_true_iff in Hb as [Hb|Hb].
  - apply negb_true_iff, orb_false_iff in Hb as [Hb1 Hb2]. apply Z.eqb_neq in Hb2. destruct Hx as [Hx|Hx]; [|done].
    by rewrite (proj2 (in_rangeb_spec _ _ _)) in Hb1 by exact Hx.
  - rewrite !andb_true_iff, !Z.eqb_eq in Hb. tauto.
Qed.
Lemma with_one_alone : alone_at (hs_node (ad_span with_one)) = true.
Proof. vm_compute. reflexivity. Qed.
Lemma blocks_out sz (p : pool) P : pool_rep sz p P ->
  forallb (fun '(o, _) => (o + sz <=? 0x15000) || (0x16000 <=? o))%bool (map_to_list (pl_obj p)) = true ->
  forall x, block_bytes sz P x -> ~ in_range (0x15000, 4096) x.
Proof.
  intros [Hp _] Hb x (v & Hv & Hx) Hy. assert (exists o, pl_obj p !! (v - sizeof_pool_obj) = Some o) as [o Ho].
  { apply elem_of_union in Hv as [Hv|Hv]; [apply (ps_free _ _ _ Hp) in Hv|apply (ps_used _ _ _ Hp) in Hv]; unfold in_use in Hv;
      (destruct (pl_obj p !! _); [by eexists|done]). }
  apply elem_of_map_to_list, list_elem_of_In in Ho. rewrite forallb_forall in Hb. specialize (Hb _ Ho). cbn beta iota in Hb.
  unfold in_range in *. cbn [fst snd] in *. apply orb_true_iff in Hb as [Hb|Hb]; apply Z.leb_le in Hb; lia.
Qed.

Lemma span_of_frame g : space_inv with_one g -> busy with_one g 0x15000 ->
  exists l, node_of_frame ∈ g_sp g (l, sp_list_mapped) /\ spr with_one node_of_frame = (0x15000, 4096).
Proof.
  intros Hs (l & a & Ha & Hx). exists l.
  destruct (span_node _ _ _ _ _ (si_rep _ _ Hs) Ha) as (y & Hy & _).
  assert (Ey : spr with_one a = (hn_va y, hn_len y)) by (unfold spr, range_of; by rewrite Hy).
  rewrite Ey in Hx. destruct (only_node _ a y with_one_alone Hy (or_introl Hx)) as (-> & E1 & E2).
  split; [exact Ha|]. by rewrite Ey, E1, E2.
Qed.
Definition one_back : addrs kernel := state_of (unmap_addr 5 0x15000) with_one.
Lemma one_back_runs : unmap_addr 5 0x15000 with_one = Ok OK one_back.
Proof. unfold one_back. by_answer. Qed.

Lemma unmap_addr_correct_witness : unmap_addr 5 0x15000 with_one = Ok OK one_back /\
  exists g g', space_inv with_one g /\ space_inv one_back g' /\
  forall x, busy one_back g' x <-> busy with_one g x /\ ~ in_range (0x15000, 4096) x.
Proof.
  split; [exact one_back_runs|]. destruct with_one_inv as (g & Hs & Hb). destruct (span_of_frame g Hs Hb) as (l & Ha & Es).
  pose proof (si_rep _ _ Hs) as Hr.
  assert (Hw : wp (unmap_addr 5 0x15000) with_one (fun r t' => exists g', addr_rep t' g' /\
    (forall x, busy t' g' x <-> busy with_one g x /\ ~ in_range (0x15000, 4096) x) /\
    (forall x, idle t' g' x <-> idle with_one g x \/ in_range (0x15000, 4096) x) /\
    (r = OK -> env_len (ad_env with_one) 5 = Some 4096 -> space_inv t' g'))).
  { apply (unmap_addr_correct 5 0x15000 4096 with_one g l node_of_frame Hs Ha Es); [lia| |].
    - intros b Hbm Hbva. destruct (span_node _ _ _ _ _ Hr Hbm) as (y & Hy & _).
      assert (Ey : spr with_one b = (hn_va y, hn_len y)) by (unfold spr, range_of; by rewrite Hy).
      rewrite Ey in Hbva. apply (only_node _ b y with_one_alone Hy). by right.
    - intros x [Hx|Hx]; revert x Hx; [apply (blocks_out _ (l1_span_pool with_one))|apply (blocks_out _ (span_pool with_one))];
        [apply Hr|vm_compute; reflexivity|apply Hr|vm_compute; reflexivity]. }
  destruct (wp_run _ _ _ _ _ Hw one_back_runs) as (g' & _ & Hbusy & _ & Hok).
  assert (Hn : env_len (ad_env with_one) 5 = Some 4096) by (vm_compute; reflexivity).
  exists g, g'. split; [exact Hs|]. split; [exact (Hok eq_refl Hn)|exact Hbusy].
Defined.
