(* ===== verification/Malloc.v ===== *)
(** * The allocator of the processes, lib/mem/alloc.c

    Free chunks of 32 to 4096 bytes are kept in eight lists ([bins]), one for
    each size, sorted by address; a chunk is split to serve a smaller request and
    joined with a neighbour when it comes back.  [heap_inv] says what the lists
    stand for, and the theorems are about the bytes that are free.  Pages come from
    an interface, [Pages]: a request for memory and the mapping of the frame that
    answers it. *)
From S2P Require Import Prelude Mmu SList Ranges.

Local Open Scope Z_scope.
Local Open Scope c_scope.

Record chunk := mk_chunk { ch_size : Z; ch_next : Z }.
Definition set_ch_size v c := mk_chunk v (ch_next c).
Definition set_ch_next v c := mk_chunk (ch_size c) v.

Record heap (E : Type) := mk_heap { hp_bins : list Z; hp_chunk : gmap Z chunk; hp_env : E }.
Arguments mk_heap {E}.
Arguments hp_bins {E}.
Arguments hp_chunk {E}.
Arguments hp_env {E}.
Definition set_hp_bins {E} (v : list Z) (h : heap E) := mk_heap v (hp_chunk h) (hp_env h).
Definition set_hp_chunk {E} (v : gmap Z chunk) (h : heap E) := mk_heap (hp_bins h) v (hp_env h).
Definition set_hp_env {E} (v : E) (h : heap E) := mk_heap (hp_bins h) (hp_chunk h) v.

Class Pages (E : Type) := {
  request_memory : Z -> Z -> M E Z;
  frame_map_anywhere : Z -> M E Z;
  release_memory : Z -> M E unit
}.

Definition BIN_MAX : Z := 7.
Definition CHUNK_SIZE (b : Z) : Z := Z.shiftl 1 (b + 5).
Definition sizeof_size_t : Z := 4.
Definition sizeof_buffer : Z := 4.

(** A [struct chunk **]. *)
Inductive cplace := Bin (b : Z) | Link (c : Z).

Section operations.
Context {E : Type} `{Pages E}.
Abbreviation HM := (M (heap E)).

Definition get_chunk_at (c : Z) : HM chunk := read FNil (fun h => hp_chunk h !! c).
(** Memory becomes a chunk by being written; the other field keeps what was there. *)
Definition upd_chunk (c : Z) (f : chunk -> chunk) : HM unit :=
  modify (fun h => set_hp_chunk (<[c := f (default (mk_chunk 0 0) (hp_chunk h !! c))]> (hp_chunk h)) h).

Definition get_cplace (p : cplace) : HM Z :=
  match p with
  | Bin b => read FBounds (fun h => znth (hp_bins h) b)
  | Link c => let* x := get_chunk_at c in ret (ch_next x)
  end.
Definition put_cplace (p : cplace) (v : Z) : HM unit :=
  match p with
  | Bin b => let* _ := get_cplace (Bin b) in modify (fun h => set_hp_bins (zupd b v (hp_bins h)) h)
  | Link c => let* _ := get_chunk_at c in upd_chunk c (set_ch_next v)
  end.

(** Memory from the parent: nil when there is none, or no place to map it. *)
Definition get_pages (len : Z) : HM Z :=
  let* fid := zoom hp_env set_hp_env (request_memory len 0x1000) in
  if fid <? 0 then ret NIL
  else
    let* c := zoom hp_env set_hp_env (frame_map_anywhere fid) in
    (if c =? NIL then zoom hp_env set_hp_env (release_memory fid) else ret tt) ;;;
    ret c.

(** The loop of insert_chunk: [c] is put where it belongs, or a neighbour is
    taken off the list and the chunk they make up is left to be inserted. *)
Fixpoint insert_loop (fuel : nat) (bin : Z) (p : cplace) (c : Z) : HM (option Z) :=
  match fuel with
  | O => nofuel
  | S fuel =>
    let* q := get_cplace p in
    let put := upd_chunk c (set_ch_next q) ;;; put_cplace p c ;;; ret None in
    if q =? NIL then put
    else
      let* x := get_chunk_at q in
      let a := c =? align_up c (CHUNK_SIZE (bin + 1)) in
      if (bin <? BIN_MAX) && a && (u32 (c + CHUNK_SIZE bin) =? ch_next x) then
        let* y := get_chunk_at (ch_next x) in
        put_cplace (Link q) (ch_next y) ;;;
        ret (Some c)
      else if (bin <? BIN_MAX) && negb a && (u32 (q + CHUNK_SIZE bin) =? c) then
        put_cplace p (ch_next x) ;;;
        ret (Some q)
      else if c <? q then put
      else insert_loop fuel bin (Link q) c
  end.
Definition chunk_fuel : HM nat := gets (fun h => S (base.size (hp_chunk h))).

(** [n] bins from [bin] on are left. *)
Fixpoint insert_chunk (n : nat) (bin c : Z) : HM unit :=
  match n with
  | O => nofuel
  | S n =>
    let* f := chunk_fuel in
    let* r := insert_loop f bin (Bin bin) c in
    match r with
    | None => ret tt
    | Some c => insert_chunk n (bin + 1) c
    end
  end.
Definition bins_from (bin : Z) : nat := Z.to_nat (BIN_MAX + 1 - bin).

(** The loop over the chunks of new memory, from offset [i] on. *)
Fixpoint add_chunks (fuel : nat) (bin c i len : Z) : HM unit :=
  if i <? len then
    match fuel with
    | O => nofuel
    | S fuel =>
      upd_chunk (u32 (c + i)) (set_ch_size 0) ;;;
      insert_chunk (bins_from bin) bin (u32 (c + i)) ;;;
      add_chunks fuel bin c (i + CHUNK_SIZE bin) len
    end
  else ret tt.

Fixpoint get_chunk_in (n : nat) (bin : Z) : HM Z :=
  match n with
  | O => nofuel
  | S n =>
    let finish c := upd_chunk c (set_ch_size (CHUNK_SIZE bin)) ;;; upd_chunk c (set_ch_next NIL) ;;; ret c in
    let* c := get_cplace (Bin bin) in
    if negb (c =? NIL) then
      let* x := get_chunk_at c in
      put_cplace (Bin bin) (ch_next x) ;;;
      finish c
    else if bin <? BIN_MAX then
      let* c := get_chunk_in n (bin + 1) in
      if c =? NIL then ret NIL
      else
        let o := u32 (c + CHUNK_SIZE bin) in
        upd_chunk o (set_ch_size 0) ;;;
        insert_chunk (bins_from bin) bin o ;;;
        finish c
    else
      let len := PAGE_ALIGN (CHUNK_SIZE bin) in
      let* c := get_pages len in
      if c =? NIL then ret NIL
      else
        add_chunks (Z.to_nat (len / CHUNK_SIZE bin)) bin c (CHUNK_SIZE bin) len ;;;
        finish c
  end.
Definition get_chunk (bin : Z) : HM Z := get_chunk_in (bins_from bin) bin.

Definition free_chunk (bin c : Z) : HM unit :=
  upd_chunk c (set_ch_size 0) ;;;
  insert_chunk (bins_from bin) bin c.

Fixpoint bin_n_from (n : nat) (bin len : Z) : Z :=
  match n with
  | O => bin
  | S n => if CHUNK_SIZE bin <? len then bin_n_from n (bin + 1) len else bin
  end.
Definition bin_n (len : Z) : Z := bin_n_from 8 0 len.

Definition malloc (len : Z) : HM Z :=
  let bin := bin_n (u32 (len + sizeof_size_t)) in
  if bin <=? BIN_MAX then
    let* c := get_chunk bin in
    if c =? NIL then ret NIL else ret (u32 (c + sizeof_size_t))
  else
    let len := PAGE_ALIGN (u32 (len + sizeof_buffer)) in
    let* b := get_pages len in
    if b =? NIL then ret NIL
    else
      upd_chunk b (set_ch_size len) ;;;
      ret (u32 (b + sizeof_buffer)).

Definition free (p : Z) : HM unit :=
  if p =? NIL then ret tt
  else
    let c := u32 (p - sizeof_size_t) in
    let* x := get_chunk_at c in
    let bin := bin_n (ch_size x) in
    if bin <=? BIN_MAX then free_chunk bin c else ret tt.
End operations.
