(* ===== verification/MallocProps.v ===== *)
(** * What the allocator keeps true

    [heap_inv h L]: the list of bin [b] holds the chunks [L b], which are
    aligned to their size and in the order of their addresses, and no two chunks
    of the heap overlap.  Inserting a chunk adds exactly its bytes to the bytes
    that are free, whether it is joined with its neighbours or not. *)
From stdpp Require Import functions sorting.
From S2P Require Import Prelude Mmu SList Ranges Malloc.

Local Open Scope Z_scope.
Local Open Scope c_scope.

(** ** Chunks *)
Definition span (b c : Z) : Z * Z := (c, CHUNK_SIZE b).
Definition chunk_ok (b c : Z) : Prop :=
  0 <= b <= BIN_MAX /\ 0 < c /\ (CHUNK_SIZE b | c) /\ c + CHUNK_SIZE b < 2 ^ 32.
Definition held (L : Z -> list Z) (x : Z) : Prop := exists b c, c ∈ L b /\ in_range (span b c) x.
Definition clink {E} (h : heap E) (c : Z) : option Z := ch_next <$> hp_chunk h !! c.

Record heap_inv {E} (h : heap E) (L : Z -> list Z) : Prop := {
  hi_bins : length (hp_bins h) = 8%nat;
  hi_list : forall b, 0 <= b <= BIN_MAX -> exists hd, znth (hp_bins h) b = Some hd /\ slist (clink h) hd (L b);
  hi_ok : forall b c, c ∈ L b -> chunk_ok b c;
  hi_sorted : forall b, StronglySorted Z.lt (L b);
  hi_apart : forall b c b' c' x, c ∈ L b -> c' ∈ L b' ->
    in_range (span b c) x -> in_range (span b' c') x -> b = b' /\ c = c'
}.

(** The chunks that are not on a list, and everything else, stay as they are. *)
Definition undisturbed {E} (h h' : heap E) (L' : Z -> list Z) : Prop :=
  hp_env h' = hp_env h /\ forall a, ~ held L' a -> hp_chunk h' !! a = hp_chunk h !! a.

Section sizes.
Lemma CHUNK_SIZE_pow b : 0 <= b -> CHUNK_SIZE b = 2 ^ (b + 5).
Proof. intros. unfold CHUNK_SIZE. rewrite Z.shiftl_mul_pow2 by lia. lia. Qed.

Lemma CHUNK_SIZE_pos b : 0 <= b -> 32 <= CHUNK_SIZE b.
Proof. intros. rewrite CHUNK_SIZE_pow by done. apply (Z.pow_le_mono_r 2 5); lia. Qed.

Lemma CHUNK_SIZE_S b : 0 <= b -> CHUNK_SIZE (b + 1) = 2 * CHUNK_SIZE b.
Proof.
  intros. rewrite !CHUNK_SIZE_pow by lia. replace (b + 1 + 5) with (Z.succ (b + 5)) by lia.
  by apply Z.pow_succ_r; lia.
Qed.

Lemma CHUNK_SIZE_max b : 0 <= b <= BIN_MAX -> CHUNK_SIZE b <= 4096.
Proof. unfold BIN_MAX. intros. rewrite CHUNK_SIZE_pow by lia. apply (Z.pow_le_mono_r 2 _ 12); lia. Qed.

Lemma in_first b c : chunk_ok b c -> in_range (span b c) c.
Proof. intros (? & _). unfold in_range. cbn. pose proof (CHUNK_SIZE_pos b). lia. Qed.

(** A multiple of a chunk's size is one of twice the size, or the next one is. *)
Lemma buddy_cases b c : 0 <= b -> (CHUNK_SIZE b | c) ->
  (CHUNK_SIZE (b + 1) | c) \/ (CHUNK_SIZE (b + 1) | c - CHUNK_SIZE b).
Proof.
  intros Hb [k ->]. rewrite CHUNK_SIZE_S by done. destruct (Z.Even_or_Odd k) as [[j ->]|[j ->]].
  - left. exists j. lia.
  - right. exists j. lia.
Qed.

(** The test of the code for the lower one of two buddies. *)
Lemma aligned_test b c : 0 <= b < BIN_MAX -> chunk_ok b c ->
  (c =? align_up c (CHUNK_SIZE (b + 1))) = true <-> (CHUNK_SIZE (b + 1) | c).
Proof.
  unfold BIN_MAX. intros Hb (_ & Hc & Hd & Hm). pose proof (CHUNK_SIZE_S b). pose proof (CHUNK_SIZE_pos b).
  assert (Hn : c + CHUNK_SIZE (b + 1) - 1 < 2 ^ 32).
  { assert (HD : (CHUNK_SIZE b | 2 ^ 32)).
    { rewrite CHUNK_SIZE_pow by lia. exists (2 ^ (32 - (b + 5))). rewrite <-Z.pow_add_r by lia. f_equal. lia. }
    destruct HD as [j HD], Hd as [k Hd]. assert (k + 1 < j).
    { apply (Z.mul_lt_mono_pos_r (CHUNK_SIZE b)); lia. }
    assert ((k + 2) * CHUNK_SIZE b <= j * CHUNK_SIZE b) by (apply Z.mul_le_mono_nonneg_r; lia). lia. }
  rewrite CHUNK_SIZE_pow in * by lia. rewrite align_up_pow2 by lia.
  set (m := 2 ^ (b + 1 + 5)) in *. assert (Hm0 : 0 < m) by lia.
  rewrite Z.eqb_eq. split.
  - intros E. rewrite E. by exists ((c + m - 1) / m).
  - intros [k ->]. rewrite <-Z.add_sub_assoc, Z.div_add_l, (Z.div_small (m - 1)) by lia. lia.
Qed.
End sizes.

(** ** Places *)
Section places.
Context {E : Type} `{Pages E}.
Implicit Types (h : heap E) (L : Z -> list Z) (b c d q v : Z) (pre post l : list Z).

Definition cplace_of b pre : cplace := match last pre with None => Bin b | Some a => Link a end.

Lemma get_cplace_spec h b hd pre q : znth (hp_bins h) b = Some hd -> sseg (clink h) hd pre q ->
  get_cplace (cplace_of b pre) h = Ok q h.
Proof.
  intros Hb Hs. unfold cplace_of. destruct pre as [|a pre _] using rev_ind.
  - cbn in *. unfold read. by rewrite Hb, Hs.
  - rewrite last_snoc. apply sseg_app in Hs as (m & _ & (-> & _ & n & Hn & <-)). cbn.
    unfold clink in Hn. destruct (hp_chunk h !! a) as [x|] eqn:Hx; [|done]. injection Hn as <-.
    erewrite bind_ok by by apply read_ok. done.
Qed.

(** What writing through a place does: the nodes before it now lead to [v]. *)
Record relinked (h h' : heap E) (b v : Z) (pre : list Z) : Prop := {
  rl_list : exists hd, znth (hp_bins h') b = Some hd /\ sseg (clink h') hd pre v;
  rl_bins : length (hp_bins h') = length (hp_bins h);
  rl_other : forall b', b' <> b -> znth (hp_bins h') b' = znth (hp_bins h) b';
  rl_chunk : forall a, a ∉ pre -> hp_chunk h' !! a = hp_chunk h !! a;
  rl_env : hp_env h' = hp_env h
}.

Lemma upd_chunk_ok h c x f : hp_chunk h !! c = Some x ->
  upd_chunk c f h = Ok tt (set_hp_chunk (<[c := f x]> (hp_chunk h)) h).
Proof. intros Hc. unfold upd_chunk, modify. by rewrite Hc. Qed.

Lemma put_cplace_spec h b hd pre q v :
  znth (hp_bins h) b = Some hd -> sseg (clink h) hd pre q -> NoDup pre ->
  exists h', put_cplace (cplace_of b pre) v h = Ok tt h' /\ relinked h h' b v pre.
Proof.
  intros Hb Hs Hnd. unfold cplace_of. pose proof (znth_bound _ _ _ Hb).
  destruct pre as [|a pre _] using rev_ind.
  - eexists. split.
    { cbn [last put_cplace get_cplace]. erewrite bind_ok by by apply read_ok. done. }
    constructor; cbn; [|by autorewrite with zlist|intros; by apply znth_zupd_ne|done..].
    exists v. split; [by apply znth_zupd_eq|done].
  - rewrite last_snoc. apply sseg_app in Hs as (m & H1 & (-> & Ha & n & Hn & <-)).
    apply NoDup_snoc in Hnd as [_ Hal].
    unfold clink in Hn. destruct (hp_chunk h !! a) as [x|] eqn:Hx; [|done]. injection Hn as <-.
    eexists. split.
    { cbn [put_cplace]. erewrite bind_ok by by apply read_ok. by eapply upd_chunk_ok. }
    constructor; cbn; [|done|done| |done].
    + exists hd. split; [done|]. apply sseg_app. exists a. split.
      * eapply sseg_ext; [|exact H1]. intros d Hd. unfold clink. cbn. rewrite lookup_insert_ne; [done|]. by intros ->.
      * cbn. split; [done|]. split; [done|]. exists v. unfold clink. cbn. by rewrite lookup_insert_eq.
    + intros d Hd. apply lookup_insert_ne. set_solver.
Qed.

(** One list is replaced: the others and their chunks must not have changed. *)
Lemma heap_inv_update h h' L b l :
  heap_inv h L -> 0 <= b <= BIN_MAX -> length (hp_bins h') = 8%nat ->
  (exists hd, znth (hp_bins h') b = Some hd /\ slist (clink h') hd l) ->
  (forall b', b' <> b -> znth (hp_bins h') b' = znth (hp_bins h) b') ->
  (forall b' c, b' <> b -> c ∈ L b' -> hp_chunk h' !! c = hp_chunk h !! c) ->
  (forall c, c ∈ l -> chunk_ok b c) -> StronglySorted Z.lt l ->
  (forall c b' c' x, c ∈ l -> c' ∈ <[b := l]> L b' ->
     in_range (span b c) x -> in_range (span b' c') x -> b = b' /\ c = c') ->
  heap_inv h' (<[b := l]> L).
Proof.
  intros Hi Hb Hlen Hl Hbins Hch Hok Hs Hap. constructor; [done|..].
  - intros b' Hb'. destruct (decide (b = b')) as [<-|Hne]; [by rewrite fn_lookup_insert|].
    rewrite fn_lookup_insert_ne by done. destruct (hi_list _ _ Hi b' Hb') as (hd & Hz & Hsl).
    exists hd. rewrite Hbins by done. split; [done|]. eapply sseg_ext; [|exact Hsl].
    intros a Ha. unfold clink. by rewrite (Hch b').
  - intros b' c. destruct (decide (b = b')) as [<-|Hne]; [by rewrite fn_lookup_insert; apply Hok|].
    rewrite fn_lookup_insert_ne by done. apply (hi_ok _ _ Hi).
  - intros b'. destruct (decide (b = b')) as [<-|Hne]; [by rewrite fn_lookup_insert|].
    rewrite fn_lookup_insert_ne by done. apply (hi_sorted _ _ Hi).
  - intros b1 c1 b2 c2 x H1 H2 Hx1 Hx2. destruct (decide (b = b1)) as [<-|Hn1].
    { rewrite fn_lookup_insert in H1. by apply (Hap c1 b2 c2 x). }
    destruct (decide (b = b2)) as [<-|Hn2].
    { rewrite fn_lookup_insert in H2. destruct (Hap c2 b1 c1 x) as [-> ->]; done. }
    rewrite fn_lookup_insert_ne in H1, H2 by done. by eapply (hi_apart _ _ Hi).
Qed.

Lemma chunk_apart h L b b' c : heap_inv h L -> c ∈ L b -> c ∈ L b' -> b = b'.
Proof.
  intros Hi H1 H2. pose proof (in_first _ _ (hi_ok _ _ Hi _ _ H1)). pose proof (in_first _ _ (hi_ok _ _ Hi _ _ H2)).
  by destruct (hi_apart _ _ Hi b c b' c c).
Qed.

Lemma list_size h hd l : slist (clink h) hd l -> (length l <= base.size (hp_chunk h))%nat.
Proof.
  intros Hs. pose proof (slist_NoDup _ _ _ Hs) as Hnd.
  rewrite <-size_dom, <-(size_list_to_set (C:=gset Z)) by done. apply subseteq_size.
  intros a Ha%elem_of_list_to_set. apply elem_of_dom.
  destruct (sseg_elem _ _ _ _ _ Hs Ha) as [_ [x Hx]]. unfold clink in Hx. destruct (hp_chunk h !! a); [by eexists|done].
Qed.

(** A chunk that may be put into the heap. *)
Record newcomer (L : Z -> list Z) b c : Prop := {
  nc_ok : chunk_ok b c;
  nc_apart : forall x, in_range (span b c) x -> ~ held L x
}.

Lemma newcomer_notin h L b b' c : heap_inv h L -> newcomer L b c -> c ∉ L b'.
Proof.
  intros Hi [Hok Hap] Hin. apply (Hap c); [by apply in_first|]. exists b', c. split; [done|].
  eapply in_first, hi_ok; done.
Qed.

Lemma held_update L b l x : held (<[b := l]> L) x <->
  (exists c, c ∈ l /\ in_range (span b c) x) \/ (exists b' c, b' <> b /\ c ∈ L b' /\ in_range (span b' c) x).
Proof.
  split.
  - intros (b' & c & Hc & Hx). destruct (decide (b = b')) as [<-|Hne].
    + rewrite fn_lookup_insert in Hc. eauto.
    + rewrite fn_lookup_insert_ne in Hc by done. right. by exists b', c.
  - intros [(c & Hc & Hx)|(b' & c & Hne & Hc & Hx)].
    + exists b, c. by rewrite fn_lookup_insert.
    + exists b', c. by rewrite fn_lookup_insert_ne.
Qed.

Lemma held_add L b l c : (forall d, d ∈ l <-> d = c \/ d ∈ L b) ->
  forall x, held (<[b := l]> L) x <-> held L x \/ in_range (span b c) x.
Proof.
  intros Hl x. rewrite held_update. split.
  - intros [(d & [->|Hd]%Hl & Hx)|(b' & d & _ & Hd & Hx)]; [by right|left; by exists b, d|left; by exists b', d].
  - intros [(b' & d & Hd & Hx)|Hx]; [|left; exists c; naive_solver].
    destruct (decide (b' = b)) as [->|]; [left; exists d; naive_solver|right; by exists b', d].
Qed.

(** The chunk goes between two neighbours. *)
Lemma put_new h L b c pre post hd q : heap_inv h L -> newcomer L b c -> L b = pre ++ post ->
  znth (hp_bins h) b = Some hd -> sseg (clink h) hd pre q -> slist (clink h) q post ->
  (forall d, d ∈ pre -> d < c) -> (forall d, d ∈ post -> c < d) ->
  exists h', (upd_chunk c (set_ch_next q) ;;; put_cplace (cplace_of b pre) c ;;; ret (@None Z)) h = Ok None h' /\
    heap_inv h' (<[b := pre ++ c :: post]> L) /\ undisturbed h h' (<[b := pre ++ c :: post]> L).
Proof.
  intros Hi Hnc HL Hz Hpre Hpost Hlt Hgt. pose proof (nc_ok _ _ _ Hnc) as Hok. pose proof Hok as (Hb & Hc0 & _).
  pose proof (newcomer_notin _ _ _ b _ Hi Hnc) as Hnin. rewrite HL in Hnin.
  assert (Hnd : NoDup (L b)).
  { destruct (hi_list _ _ Hi b Hb) as (hd' & _ & Hs). by eapply slist_NoDup. }
  set (h1 := set_hp_chunk (<[c := set_ch_next q (default (mk_chunk 0 0) (hp_chunk h !! c))]> (hp_chunk h)) h).
  assert (Hx : forall l, c ∉ l -> forall a, a ∈ l -> clink h1 a = clink h a).
  { intros l Hl a Ha. unfold clink, h1. cbn. rewrite lookup_insert_ne; [done|]. by intros ->. }
  destruct (put_cplace_spec h1 b hd pre q c) as (h' & Hrun & [(hd' & Hz' & Hpre') Hlen Hbins Hch Henv]); [done| | |].
  { eapply sseg_ext; [|exact Hpre]. apply Hx. set_solver. }
  { rewrite HL in Hnd. by apply NoDup_app in Hnd as []. }
  assert (Hc1 : hp_chunk h' !! c = hp_chunk h1 !! c) by (apply Hch; set_solver).
  assert (Hel : forall d, d ∈ pre ++ c :: post <-> d = c \/ d ∈ L b) by (rewrite HL; set_solver).
  exists h'. split; [|split].
  - unfold bind at 1. change (upd_chunk c (set_ch_next q) h) with (Ok (S := heap E) tt h1). cbn beta iota.
    erewrite bind_ok by exact Hrun. done.
  - eapply heap_inv_update; [exact Hi|done| | | | | | |].
    + rewrite Hlen. apply Hi.
    + exists hd'. split; [done|]. apply sseg_app. exists c. split; [done|].
      cbn. split; [done|]. split; [unfold NIL; lia|]. exists q. unfold clink at 1. rewrite Hc1. unfold h1. cbn.
      rewrite lookup_insert_eq. split; [done|]. eapply sseg_ext; [|exact Hpost].
      intros a Ha. unfold clink. rewrite Hch; [apply (Hx post); set_solver|].
      rewrite HL in Hnd. apply NoDup_app in Hnd as (_ & Hd & _). intros ?; by eapply Hd.
    + exact Hbins.
    + intros b' d Hne Hd. rewrite Hch.
      * unfold h1. cbn. apply lookup_insert_ne. intros <-. by eapply newcomer_notin.
      * intros Hp. apply Hne. eapply chunk_apart; [exact Hi|exact Hd|]. rewrite HL. set_solver.
    + intros d [->|Hd]%Hel; [done|]. by apply (hi_ok _ _ Hi).
    + pose proof (hi_sorted _ _ Hi b) as Hs. rewrite HL in Hs. apply StronglySorted_app in Hs as (H1 & H2 & H3).
      apply StronglySorted_app. split; [|split; [done|]].
      * intros x y Hxp [->|Hy]%elem_of_cons; [by apply Hlt|by apply H1].
      * constructor; [done|]. apply Forall_forall. intros y Hy. by apply Hgt.
    + intros d b' d' x Hd Hd' Hr Hr'. destruct (decide (b = b')) as [<-|Hne].
      * rewrite fn_lookup_insert in Hd'. apply Hel in Hd as [->|Hd], Hd' as [->|Hd']; [done| | |].
        { exfalso. apply (nc_apart _ _ _ Hnc x Hr). by exists b, d'. }
        { exfalso. apply (nc_apart _ _ _ Hnc x Hr'). by exists b, d. }
        by eapply (hi_apart _ _ Hi).
      * rewrite fn_lookup_insert_ne in Hd' by done. apply Hel in Hd as [->|Hd].
        { exfalso. apply (nc_apart _ _ _ Hnc x Hr). by exists b', d'. }
        by eapply (hi_apart _ _ Hi).
  - split; [by rewrite Henv|]. intros a Ha. rewrite Hch.
    + unfold h1. cbn. apply lookup_insert_ne. intros <-. apply Ha. apply (held_add _ _ _ c Hel). right. by apply in_first.
    + intros Hp. apply Ha. apply (held_add _ _ _ c Hel). left. exists b, a.
      assert (Hab : a ∈ L b) by (rewrite HL; set_solver). split; [done|]. by apply in_first, (hi_ok _ _ Hi).
Qed.

(** A chunk is taken off its list. *)
Lemma take_chunk h L b d pre post hd n : heap_inv h L -> 0 <= b <= BIN_MAX -> L b = pre ++ d :: post ->
  znth (hp_bins h) b = Some hd -> sseg (clink h) hd pre d -> clink h d = Some n -> slist (clink h) n post ->
  exists h', put_cplace (cplace_of b pre) n h = Ok tt h' /\ heap_inv h' (<[b := pre ++ post]> L) /\
    hp_env h' = hp_env h /\ forall a, a ∉ pre ++ post -> hp_chunk h' !! a = hp_chunk h !! a.
Proof.
  intros Hi Hb HL Hz Hpre Hn Hpost.
  assert (Hnd : NoDup (L b)).
  { destruct (hi_list _ _ Hi b Hb) as (hd' & _ & Hs). by eapply slist_NoDup. }
  rewrite HL in Hnd. apply NoDup_app in Hnd as (Hnd1 & Hd & _).
  destruct (put_cplace_spec h b hd pre d n) as (h' & Hrun & [(hd' & Hz' & Hpre') Hlen Hbins Hch Henv]); [done..|].
  assert (Hel : forall a, a ∈ pre ++ post -> a ∈ L b) by (rewrite HL; set_solver).
  exists h'. split; [exact Hrun|split; [|split; [done|intros; apply Hch; set_solver]]].
  eapply heap_inv_update; [exact Hi|done| | |exact Hbins| | | |].
  - rewrite Hlen. apply Hi.
  - exists hd'. split; [done|]. apply sseg_app. exists n. split; [done|]. eapply sseg_ext; [|exact Hpost].
    intros a Ha. unfold clink. rewrite Hch; [done|]. intros Hp. eapply Hd; [exact Hp|]. set_solver.
  - intros b' a Hne Ha. apply Hch. intros Hp. apply Hne. eapply chunk_apart; [exact Hi|exact Ha|]. rewrite HL. set_solver.
  - intros a Ha. apply (hi_ok _ _ Hi). by apply Hel.
  - pose proof (hi_sorted _ _ Hi b) as Hs. rewrite HL in Hs. apply StronglySorted_app in Hs as (H1 & H2 & H3).
    apply StronglySorted_app. split; [set_solver|]. split; [done|]. by inversion H3.
  - intros a b' a' x Ha%Hel Ha' Hr Hr'. destruct (decide (b = b')) as [<-|Hne].
    + rewrite fn_lookup_insert in Ha'. apply Hel in Ha'. by eapply (hi_apart _ _ Hi).
    + rewrite fn_lookup_insert_ne in Ha' by done. by eapply (hi_apart _ _ Hi).
Qed.

(** What the loop leaves: the chunk is on the list, or a buddy was taken off and
    the two make up a chunk of the next bin. *)
Definition inserted h L b c (r : option Z) h' : Prop :=
  match r with
  | None => exists l, heap_inv h' (<[b := l]> L) /\ (forall d, d ∈ l <-> d = c \/ d ∈ L b) /\
      undisturbed h h' (<[b := l]> L)
  | Some c' => b < BIN_MAX /\ exists d l, d ∈ L b /\ heap_inv h' (<[b := l]> L) /\
      (forall a, a ∈ l <-> a ∈ L b /\ a <> d) /\ c' = Z.min c d /\ Z.abs (c - d) = CHUNK_SIZE b /\
      (CHUNK_SIZE (b + 1) | c') /\
      hp_env h' = hp_env h /\ forall a, a ∉ L b -> hp_chunk h' !! a = hp_chunk h !! a
  end.

Lemma remove_elem l1 l2 d : NoDup (l1 ++ d :: l2) ->
  forall a, a ∈ l1 ++ l2 <-> a ∈ l1 ++ d :: l2 /\ a <> d.
Proof.
  intros (_ & Hd & Hn)%NoDup_app a. apply NoDup_cons in Hn as [Hn _]. rewrite !elem_of_app, elem_of_cons.
  split; [|naive_solver]. intros [Ha|Ha]; (split; [naive_solver|]); intros ->; [|done].
  eapply Hd; [exact Ha|]. by apply elem_of_cons; left.
Qed.

(** Joining with a buddy that is on the list. *)
Lemma join_spec h L b c c' d pre post hd : heap_inv h L -> b < BIN_MAX -> 0 <= b -> L b = pre ++ d :: post ->
  znth (hp_bins h) b = Some hd -> slist (clink h) hd (pre ++ d :: post) ->
  c' = Z.min c d -> Z.abs (c - d) = CHUNK_SIZE b -> (CHUNK_SIZE (b + 1) | c') ->
  exists n, clink h d = Some n /\
  wp (put_cplace (cplace_of b pre) n ;;; ret (Some c')) h (inserted h L b c).
Proof.
  intros Hi Hb Hb0 HL Hz Hs Hc' Habs Hdiv. pose proof (slist_NoDup _ _ _ Hs) as Hnd.
  apply sseg_app in Hs as (m & Hpre & (-> & _ & n & Hn & Hpost)).
  destruct (take_chunk h L b d pre post hd n) as (h' & Hrun & Hi' & He & Hch); [done|lia|done..|].
  exists n. split; [done|]. apply wpe_bind. eapply wpe_ok; [exact Hrun|]. apply wpe_ret. split; [done|].
  exists d, (pre ++ post). split; [rewrite HL; set_solver|]. split; [done|]. split; [|split; [done|]].
  - intros a. rewrite HL. by apply remove_elem.
  - split; [done|]. split; [done|]. split; [done|]. intros a Ha. apply Hch. rewrite HL in Ha. set_solver.
Qed.

Lemma clink_chunk h a n : clink h a = Some n -> exists x, hp_chunk h !! a = Some x /\ ch_next x = n.
Proof. unfold clink. destruct (hp_chunk h !! a) as [x|]; [|done]. intros [= <-]. by exists x. Qed.

Lemma insert_loop_spec h L b c hd : heap_inv h L -> newcomer L b c -> znth (hp_bins h) b = Some hd ->
  forall fuel pre q post, (length post < fuel)%nat -> L b = pre ++ post ->
  sseg (clink h) hd pre q -> slist (clink h) q post -> (forall d, d ∈ pre -> d < c) ->
  wp (insert_loop fuel b (cplace_of b pre) c) h (inserted h L b c).
Proof.
  intros Hi Hnc Hz. pose proof (nc_ok _ _ _ Hnc) as Hok. pose proof Hok as (Hb & Hc0 & Hdiv & Hmax).
  pose proof (CHUNK_SIZE_pos b ltac:(lia)) as Hpos.
  induction fuel as [|fuel IH]; intros pre q post Hf HL Hpre Hpost Hlt; [lia|]. cbn [insert_loop].
  apply wpe_bind. eapply wpe_ok; [by eapply get_cplace_spec|]. cbn beta zeta.
  assert (Hput : (forall d, d ∈ post -> c < d) ->
    wp (upd_chunk c (set_ch_next q) ;;; put_cplace (cplace_of b pre) c ;;; ret (@None Z)) h (inserted h L b c)).
  { intros Hgt. destruct (put_new h L b c pre post hd q) as (h' & Hrun & Hi' & Hu); [done..|].
    eapply wpe_ok; [exact Hrun|]. exists (pre ++ c :: post). split; [done|]. split; [|done].
    intros d. rewrite HL. set_solver. }
  destruct post as [|a post].
  { rewrite (proj2 (Z.eqb_eq q NIL) Hpost). apply Hput. set_solver. }
  pose proof Hpost as (-> & Hq0 & n & Hn & Hpost'). rewrite (proj2 (Z.eqb_neq _ _)) by done.
  destruct (clink_chunk _ _ _ Hn) as (x & Hx & Hxn). apply wpe_bind. eapply wpe_ok; [by apply read_ok|]. cbn beta.
  pose proof (hi_sorted _ _ Hi b) as Hs. rewrite HL in Hs. apply StronglySorted_app in Hs as (_ & _ & Hs2).
  inversion Hs2 as [|? ? _ Hs4]; subst. rewrite Forall_forall in Hs4.
  assert (Hac : a <> c). { intros ->. apply (newcomer_notin _ _ _ b _ Hi Hnc). rewrite HL. set_solver. }
  assert (Hall : slist (clink h) hd (pre ++ a :: post)) by (apply sseg_app; by exists a).
  assert (Hoka : chunk_ok b a) by (apply (hi_ok _ _ Hi); rewrite HL; set_solver).
  destruct Hoka as (_ & Ha & _ & Hamax).
  assert (Hu' : u32 (a + CHUNK_SIZE b) = a + CHUNK_SIZE b) by (apply u32_small; lia).
  assert (Hu : u32 (c + CHUNK_SIZE b) = c + CHUNK_SIZE b) by (apply u32_small; lia).
  assert (Hrec : a < c -> wp (insert_loop fuel b (Link a) c) h (inserted h L b c)).
  { intros Hlt'. replace (Link a) with (cplace_of b (pre ++ [a])) by (unfold cplace_of; by rewrite last_snoc).
    apply (IH _ (ch_next x) post); [cbn in Hf; lia|by rewrite <-app_assoc| |exact Hpost'|].
    - apply sseg_app. exists a. split; [done|]. cbn. eauto.
    - intros d [Hd| ->%list_elem_of_singleton]%elem_of_app; [by apply Hlt|done]. }
  assert (Hat : (b <? BIN_MAX) = true ->
    (c =? align_up c (CHUNK_SIZE (b + 1))) = true <-> (CHUNK_SIZE (b + 1) | c)).
  { intros ?%Z.ltb_lt. apply aligned_test; [lia|done]. }
  wstep; [|wstep; [|wstep]].
  - apply andb_prop in Hb0 as [[Hbm Hal]%andb_prop Hsum%Z.eqb_eq]. rewrite Hu in Hsum.
    destruct post as [|n post]; [cbn in Hpost'; unfold NIL in *; lia|]. destruct Hpost' as (Hxn & _).
    destruct (join_spec h L b c c n (pre ++ [a]) post hd) as (ny & Hny & Hj);
      [done|by apply Z.ltb_lt|lia|by rewrite <-app_assoc|done|by rewrite <-app_assoc|lia|lia|by apply Hat|].
    destruct (clink_chunk _ _ _ Hny) as (y & Hy & <-). apply wpe_bind.
    eapply wpe_ok; [apply read_ok; by rewrite Hxn|]. unfold cplace_of in Hj. by rewrite last_snoc in Hj.
  - apply andb_prop in Hb1 as [[Hbm Hal]%andb_prop Hsum%Z.eqb_eq]. rewrite Hu' in Hsum.
    apply negb_true_iff, not_true_iff_false in Hal. rewrite Hat in Hal by done.
    destruct (join_spec h L b c a a pre post hd) as (ny & Hny & Hj);
      [done|by apply Z.ltb_lt|lia|done|done|done|lia|lia| |].
    { destruct (buddy_cases b c) as [?|Hd]; [lia|done|done|]. by replace a with (c - CHUNK_SIZE b) by lia. }
    rewrite Hn in Hny. by injection Hny as <-.
  - apply Z.ltb_lt in Hb2. apply Hput. intros d [->|Hd%Hs4]%elem_of_cons; lia.
  - apply Z.ltb_ge in Hb2. apply Hrec. lia.
Qed.

(** Two buddies make up a chunk of the next bin. *)
Lemma join_range b c d x : 0 <= b -> Z.abs (c - d) = CHUNK_SIZE b ->
  in_range (span (b + 1) (Z.min c d)) x <-> in_range (span b c) x \/ in_range (span b d) x.
Proof. intros. unfold in_range, span. cbn. rewrite CHUNK_SIZE_S by done. lia. Qed.

Lemma held_remove h L b l d : heap_inv h L -> d ∈ L b -> (forall a, a ∈ l <-> a ∈ L b /\ a <> d) ->
  forall x, held (<[b := l]> L) x <-> held L x /\ ~ in_range (span b d) x.
Proof.
  intros Hi Hd Hl x. rewrite held_update. split.
  - intros [(a & [Ha Had]%Hl & Hx)|(b' & a & Hne & Ha & Hx)].
    + split; [by exists b, a|]. intros Hx'. by destruct (hi_apart _ _ Hi b a b d x).
    + split; [by exists b', a|]. intros Hx'. by destruct (hi_apart _ _ Hi b' a b d x).
  - intros [(b' & a & Ha & Hx) Hnd]. destruct (decide (b' = b)) as [->|Hne]; [|right; by exists b', a].
    left. exists a. split; [|done]. apply Hl. split; [done|]. by intros ->.
Qed.

Lemma undisturbed_refl h L : undisturbed h h L.
Proof. done. Qed.

Lemma undisturbed_trans h1 h2 h3 L1 L2 : undisturbed h1 h2 L1 -> undisturbed h2 h3 L2 ->
  (forall x, held L1 x -> held L2 x) -> undisturbed h1 h3 L2.
Proof.
  intros [He1 H1] [He2 H2] Hs. split; [by rewrite He2|]. intros a Ha. rewrite H2, H1; [done| |done].
  intros ?. by apply Ha, Hs.
Qed.

(** [added h L b c h']: the heap now holds the bytes of the chunk [c] as well. *)
Definition added h L b c h' : Prop := exists L', heap_inv h' L' /\
  (forall x, held L' x <-> held L x \/ in_range (span b c) x) /\
  (exists b' c', b <= b' /\ c' ∈ L' b') /\ undisturbed h h' L'.

Lemma insert_chunk_spec n : forall b c h L, heap_inv h L -> newcomer L b c -> n = bins_from b ->
  wp (insert_chunk n b c) h (fun _ => added h L b c).
Proof.
  induction n as [|n IH]; intros b c h L Hi Hnc Hn; pose proof (nc_ok _ _ _ Hnc) as (Hb & Hc & Hdiv & Hmax);
    [unfold bins_from, BIN_MAX in *; lia|]. cbn [insert_chunk].
  destruct (hi_list _ _ Hi b Hb) as (hd & Hz & Hs). unfold chunk_fuel. apply wpe_bind, wpe_gets. apply wpe_bind.
  eapply wpe_mono; [apply (insert_loop_spec h L b c hd Hi Hnc Hz _ [] hd (L b))| |done]; [|done..|set_solver|].
  { apply list_size in Hs. lia. }
  intros r h1 Hr. destruct r as [c'|]; cbn in Hr.
  - destruct Hr as (Hbm & d & l & Hd & Hi1 & Hl & -> & Habs & Hdiv' & He & Hch).
    pose proof (hi_ok _ _ Hi _ _ Hd) as (_ & Hd0 & _ & Hdmax).
    pose proof (held_remove _ _ _ _ _ Hi Hd Hl) as Hh. assert (Hb1 : 0 <= b) by lia.
    eapply wpe_mono; [apply (IH _ _ _ _ Hi1)| |done].
    + constructor.
      * split; [lia|]. split; [lia|]. split; [done|]. rewrite CHUNK_SIZE_S by done. lia.
      * intros x [Hx|Hx]%join_range; [| |done|done]; rewrite Hh; [|naive_solver].
        intros [Hx' _]. by apply (nc_apart _ _ _ Hnc x).
    + unfold bins_from in *. lia.
    + intros _ h2 (L' & Hi2 & Hh2 & (b' & c' & Hbb & Hbc) & Hu). exists L'. split; [done|].
      assert (Hh' : forall x, held L' x <-> held L x \/ in_range (span b c) x).
      { intros x. rewrite Hh2, Hh, join_range by done. split; [|].
        - intros [[]|[|]]; [tauto|tauto|left; by exists b, d].
        - destruct (decide (d <= x < d + CHUNK_SIZE b)); unfold in_range; cbn; tauto. }
      split; [done|]. split; [exists b', c'; split; [lia|done]|].
      split; [destruct Hu as [-> _]; done|]. intros a Ha. destruct Hu as [_ Hu]. rewrite Hu by done.
      apply Hch. intros Hin. apply Ha, Hh'. left. exists b, a. split; [done|]. by apply in_first, (hi_ok _ _ Hi).
  - destruct Hr as (l & Hi1 & Hl & Hu). apply wpe_ret. exists (<[b := l]> L). split; [done|].
    split; [by apply held_add|]. split; [|done]. exists b, c. rewrite fn_lookup_insert. split; [lia|]. apply Hl. by left.
Qed.

(** Writing to memory that is on no list. *)
Lemma heap_inv_write h L c x : heap_inv h L -> (forall b, c ∉ L b) ->
  heap_inv (set_hp_chunk (<[c := x]> (hp_chunk h)) h) L.
Proof.
  intros Hi Hc. destruct Hi as [H1 H2 H3 H4 H5]. constructor; try done. intros b Hb.
  destruct (H2 b Hb) as (hd & Hz & Hs). exists hd. split; [done|]. eapply sseg_ext; [|exact Hs].
  intros a Ha. unfold clink. cbn. rewrite lookup_insert_ne; [done|]. intros ->. by apply (Hc b).
Qed.

Lemma heap_inv_env h L e : heap_inv h L -> heap_inv (set_hp_env e h) L.
Proof. intros [H1 H2 H3 H4 H5]. by constructor. Qed.

Lemma upd_chunk_spec h c f (Q : unit -> heap E -> Prop) Ex :
  Q tt (set_hp_chunk (<[c := f (default (mk_chunk 0 0) (hp_chunk h !! c))]> (hp_chunk h)) h) ->
  wpe (upd_chunk c f) h Q Ex.
Proof. exact id. Qed.

(** A chunk is cleared and put into the heap: the code of free_chunk, and of
    get_chunk for the half it does not need. *)
Lemma free_chunk_spec h L b c : heap_inv h L -> newcomer L b c ->
  wp (free_chunk b c) h (fun _ => added h L b c).
Proof.
  intros Hi Hnc. apply wpe_bind, upd_chunk_spec. cbn beta.
  eapply wpe_mono; [apply (insert_chunk_spec _ b c _ L); [|done|done]| |done].
  { apply heap_inv_write; [done|]. intros b'. by eapply newcomer_notin. }
  intros _ h' (L' & Hi' & Hh & Hex & He & Hch). exists L'. split; [done|]. split; [done|]. split; [done|].
  split; [done|]. intros a Ha. rewrite Hch by done. cbn. apply lookup_insert_ne. intros <-.
  apply Ha, Hh. right. by apply in_first, (nc_ok _ _ _ Hnc).
Qed.
End places.

(** ** Pages *)

(** What the interface promises: [env_used] are the bytes that are mapped,
    [env_frame] the lengths of the frames; a frame is mapped where nothing was. *)
Class PagesOk (E : Type) `{Pages E} := {
  env_used : E -> Z -> Prop;
  env_frame : E -> Z -> option Z;
  request_memory_ok : forall len e, wp (request_memory len 0x1000) e (fun r e' =>
    (forall x, env_used e' x <-> env_used e x) /\ (0 <= r -> env_frame e' r = Some len));
  frame_map_ok : forall fid len e, env_frame e fid = Some len -> wp (frame_map_anywhere fid) e (fun c e' =>
    (c = NIL /\ forall x, env_used e' x <-> env_used e x) \/
    (0 < c /\ (PAGE_SIZE | c) /\ c + len < 2 ^ 32 /\ (forall x, in_range (c, len) x -> ~ env_used e x) /\
     forall x, env_used e' x <-> env_used e x \/ in_range (c, len) x));
  release_memory_ok : forall fid e, wp (release_memory fid) e (fun _ e' =>
    forall x, env_used e' x <-> env_used e x)
}.

Section blocks.
Context {E : Type} `{PagesOk E}.
Implicit Types (h : heap E) (L : Z -> list Z) (b c : Z) (A : gmap Z Z).

Lemma get_pages_spec h len : wp (get_pages len) h (fun c h' => exists e, h' = set_hp_env e h /\
  ((c = NIL /\ forall x, env_used e x <-> env_used (hp_env h) x) \/
   (0 < c /\ (PAGE_SIZE | c) /\ c + len < 2 ^ 32 /\ (forall x, in_range (c, len) x -> ~ env_used (hp_env h) x) /\
    forall x, env_used e x <-> env_used (hp_env h) x \/ in_range (c, len) x))).
Proof.
  unfold get_pages. apply wpe_bind, wpe_zoom.
  eapply wpe_mono; [apply request_memory_ok|cbn beta|done]. intros r e1 [Hu1 Hr]. destruct (Z.ltb_spec r 0).
  { apply wpe_ret. exists e1. split; [done|]. by left. }
  apply wpe_bind, wpe_zoom. cbn. eapply wpe_mono; [apply frame_map_ok, Hr; lia|cbn beta|done].
  intros c e2 [[-> Hu2]|(Hc & Hal & Hlim & Hnew & Hu2)].
  - rewrite Z.eqb_refl. apply wpe_bind, wpe_zoom. eapply wpe_mono; [apply release_memory_ok|cbn beta|done].
    intros _ e3 Hu3. apply wpe_ret. exists e3. split; [done|]. left. split; [done|]. intros x.
    rewrite Hu3. cbn. rewrite Hu2. apply Hu1.
  - rewrite (proj2 (Z.eqb_neq _ _)) by (unfold NIL; lia). apply wpe_bind, wpe_ret, wpe_ret. exists e2. split; [done|].
    right. split_and!; [done..| |].
    + intros x Hx. rewrite <-Hu1. by apply Hnew.
    + intros x. by rewrite Hu2, Hu1.
Qed.

Lemma finish_spec h L b c : heap_inv h L -> (forall b', c ∉ L b') ->
  wp (upd_chunk c (set_ch_size (CHUNK_SIZE b)) ;;; upd_chunk c (set_ch_next NIL) ;;; ret c) h (fun r h' =>
    r = c /\ heap_inv h' L /\ hp_env h' = hp_env h /\ hp_chunk h' !! c = Some (mk_chunk (CHUNK_SIZE b) NIL) /\
    forall a, a <> c -> hp_chunk h' !! a = hp_chunk h !! a).
Proof.
  intros Hi Hc. apply wpe_bind, upd_chunk_spec, wpe_bind, upd_chunk_spec, wpe_ret. split; [done|].
  split; [by apply heap_inv_write; [apply heap_inv_write|]|]. split; [done|]. cbn. split.
  - by rewrite !lookup_insert_eq.
  - intros a Ha. by rewrite !lookup_insert_ne.
Qed.

(** What get_chunk brings about: nothing when there is no memory, or a chunk of
    bytes that were free or are the [N] new ones. *)
Definition took h L b c h' : Prop := exists L' (N : Z -> Prop), chunk_ok b c /\ heap_inv h' L' /\
  (forall x, held L' x -> ~ in_range (span b c) x) /\
  (forall x, held L' x \/ in_range (span b c) x <-> held L x \/ N x) /\
  (forall x, N x -> ~ env_used (hp_env h) x) /\
  (forall x, env_used (hp_env h') x <-> env_used (hp_env h) x \/ N x) /\
  hp_chunk h' !! c = Some (mk_chunk (CHUNK_SIZE b) NIL) /\
  forall a, ~ held L' a -> a <> c -> hp_chunk h' !! a = hp_chunk h !! a.
Definition no_memory h L c h' : Prop := c = NIL /\ heap_inv h' L /\ hp_chunk h' = hp_chunk h /\
  forall x, env_used (hp_env h') x <-> env_used (hp_env h) x.
Definition stocked L b : Prop := exists b' c, b <= b' /\ c ∈ L b'.
Definition got h L b c h' : Prop :=
  (stocked L b -> c <> NIL /\ hp_env h' = hp_env h) /\ (no_memory h L c h' \/ took h L b c h').

(** The list of the bin has a chunk. *)
Lemma get_from_bin h L b c l n hd : heap_inv h L -> 0 <= b <= BIN_MAX -> L b = c :: l ->
  znth (hp_bins h) b = Some hd -> slist (clink h) hd (c :: l) -> clink h c = Some n ->
  wp (put_cplace (Bin b) n ;;;
      upd_chunk c (set_ch_size (CHUNK_SIZE b)) ;;; upd_chunk c (set_ch_next NIL) ;;; ret c) h (got h L b).
Proof.
  intros Hi Hb HL Hz Hs Hn. pose proof Hs as (-> & Hc0 & n' & Hn' & Hs'). rewrite Hn in Hn'. injection Hn' as <-.
  assert (Hc : c ∈ L b) by (rewrite HL; set_solver).
  destruct (take_chunk h L b c [] l c n) as (h' & Hrun & Hi' & He & Hch); [done..|].
  apply wpe_bind. eapply wpe_ok; [exact Hrun|]. cbn beta.
  pose proof (slist_NoDup _ _ _ Hs) as Hnd.
  assert (Hl : forall a, a ∈ [] ++ l <-> a ∈ L b /\ a <> c) by (rewrite HL; apply (remove_elem [] l c Hnd)).
  pose proof (held_remove h L b ([] ++ l) c Hi Hc Hl) as Hh.
  assert (Hnin : forall x, held (<[b := [] ++ l]> L) x -> ~ in_range (span b c) x) by (intros x; rewrite Hh; tauto).
  pose proof (hi_ok _ _ Hi _ _ Hc) as Hok.
  eapply wpe_mono; [apply finish_spec; [exact Hi'|]|cbn beta|done].
  { intros b' Hin. apply (Hnin c); [|by apply in_first]. exists b', c. split; [done|]. by eapply in_first, hi_ok. }
  intros r h2 (-> & Hi2 & He2 & Hc2 & Hch2). split; [intros _; split; [done|by rewrite He2, He]|right].
  exists (<[b := [] ++ l]> L), (fun _ => False). split; [done|]. split; [done|]. split; [done|]. split_and!.
  - intros x. rewrite Hh. destruct (decide (c <= x < c + CHUNK_SIZE b)) as [Hx|Hx].
    + assert (held L x) by (by exists b, c). unfold in_range; cbn; tauto.
    + unfold in_range; cbn; tauto.
  - done.
  - intros x. rewrite He2, He. tauto.
  - done.
  - intros a Ha Hac. rewrite Hch2 by done. apply Hch. intros Hin. apply Ha. exists b, a.
    rewrite fn_lookup_insert. split; [done|]. apply in_first, (hi_ok _ _ Hi). rewrite HL. by apply elem_of_cons; right.
Qed.

(** A chunk of the next bin is split. *)
Lemma split_chunk h h1 L b c : took h L (b + 1) c h1 -> 0 <= b -> 
  wp (upd_chunk (u32 (c + CHUNK_SIZE b)) (set_ch_size 0) ;;;
      insert_chunk (bins_from b) b (u32 (c + CHUNK_SIZE b)) ;;;
      upd_chunk c (set_ch_size (CHUNK_SIZE b)) ;;; upd_chunk c (set_ch_next NIL) ;;; ret c) h1 (fun r h' =>
    r = c /\ hp_env h' = hp_env h1 /\ took h L b c h').
Proof.
  intros (L1 & N & (Hb & Hc & Hdiv & Hmax) & Hi1 & Hap & Hh & HN & Hu & Hc1 & Hch) Hb0.
  assert (HS := CHUNK_SIZE_S b Hb0). pose proof (CHUNK_SIZE_pos b Hb0). rewrite u32_small by lia.
  assert (Hd : (CHUNK_SIZE b | c)) by (destruct Hdiv as [k ->]; exists (2 * k); lia).
  assert (Hsp : forall x, in_range (span (b + 1) c) x <-> in_range (span b c) x \/ in_range (span b (c + CHUNK_SIZE b)) x).
  { intros x. unfold in_range, span. cbn. lia. }
  assert (Hnc : newcomer L1 b (c + CHUNK_SIZE b)).
  { constructor; [split_and!; [lia..| |lia]; apply Z.divide_add_r; [done|reflexivity]|].
    intros x Hx Hx'. apply (Hap x); [done|]. apply Hsp. by right. }
  pose proof (free_chunk_spec h1 L1 b (c + CHUNK_SIZE b) Hi1 Hnc) as Hf. apply wpe_bind_inv in Hf.
  apply wpe_bind. eapply wpe_mono; [exact Hf|cbn beta|done].
  intros _ h2 Hw. apply wpe_bind. eapply wpe_mono; [exact Hw|cbn beta|done].
  intros _ h3 (L' & Hi' & Hh' & _ & He & Hch').
  assert (Hdis : forall x, held L' x -> ~ in_range (span b c) x).
  { intros x [Hx|Hx]%Hh' Hx'; [apply (Hap x Hx), Hsp; by left|]. unfold in_range, span in *. cbn in *. lia. }
  assert (Hok : chunk_ok b c) by (split_and!; [lia..|done|lia]).
  eapply wpe_mono; [apply finish_spec; [exact Hi'|]|cbn beta|done].
  { intros b' Hin. apply (Hdis c); [|by apply in_first]. exists b', c. split; [done|]. by eapply in_first, hi_ok. }
  intros r h' (-> & Hi2 & He2 & Hc2 & Hch2). split; [done|]. split; [by rewrite He2, He|].
  exists L', N. split; [done|]. split; [done|]. split; [done|]. split_and!; [|done| |done|].
  - intros x. rewrite Hh', <-Hh, Hsp. tauto.
  - intros x. by rewrite He2, He.
  - intros a Ha Hac. rewrite Hch2, Hch' by done. apply Hch; [|done]. intros Ha1. apply Ha, Hh'. by left.
Qed.

Lemma page_chunk h L c e : heap_inv h L -> (forall x, held L x -> env_used (hp_env h) x) ->
  0 < c -> (PAGE_SIZE | c) -> c + CHUNK_SIZE BIN_MAX < 2 ^ 32 ->
  (forall x, in_range (span BIN_MAX c) x -> ~ env_used (hp_env h) x) ->
  (forall x, env_used e x <-> env_used (hp_env h) x \/ in_range (span BIN_MAX c) x) ->
  wp (upd_chunk c (set_ch_size (CHUNK_SIZE BIN_MAX)) ;;; upd_chunk c (set_ch_next NIL) ;;; ret c) (set_hp_env e h)
    (fun r h' => r = c /\ took h L BIN_MAX c h').
Proof.
  intros Hi Hused Hc Hal Hlim Hnew Hu. assert (Hok : chunk_ok BIN_MAX c) by (split_and!; done).
  assert (Hnin : forall x, held L x -> ~ in_range (span BIN_MAX c) x) by (intros x Hx Hx'; by apply (Hnew x), Hused).
  eapply wpe_mono; [apply (finish_spec _ L); [by apply heap_inv_env|]|cbn beta|done].
  { intros b' Hin. apply (Hnin c); [|by apply in_first]. exists b', c. split; [done|]. by eapply in_first, hi_ok. }
  intros r h' (-> & Hi2 & He2 & Hc2 & Hch2). split; [done|].
  exists L, (in_range (span BIN_MAX c)). split; [done|]. split; [done|]. split; [done|]. split; [done|].
  split; [done|]. split; [intros x; rewrite He2; apply Hu|]. split; [done|]. intros a _ Hac. by rewrite Hch2.
Qed.

Lemma get_chunk_in_spec n : forall b h L, heap_inv h L -> (forall x, held L x -> env_used (hp_env h) x) ->
  0 <= b <= BIN_MAX -> n = bins_from b -> wp (get_chunk_in n b) h (got h L b).
Proof.
  induction n as [|n IH]; intros b h L Hi Hused Hb Hn; [unfold bins_from in *; lia|]. cbn [get_chunk_in].
  destruct (hi_list _ _ Hi b Hb) as (hd & Hz & Hs). apply wpe_bind.
  eapply wpe_ok; [apply (get_cplace_spec h b hd []); done|]. cbn beta zeta. wstep; [|wstep].
  - apply negb_true_iff in Hb0. destruct (L b) as [|c l] eqn:HL; [cbn in Hs; subst; done|].
    pose proof Hs as (-> & _ & m & Hm & _). destruct (clink_chunk _ _ _ Hm) as (x & Hx & <-).
    apply wpe_bind. eapply wpe_ok; [by apply read_ok|]. cbn beta. by eapply get_from_bin.
  - apply negb_false_iff, Z.eqb_eq in Hb0. apply Z.ltb_lt in Hb1.
    assert (HL : L b = []) by (by apply (slist_nil _ _ _ Hs)).
    assert (Hst : stocked L b -> stocked L (b + 1)).
    { intros (b' & c & Hle & Hin). exists b', c. split; [|done].
      destruct (decide (b = b')) as [<-|]; [rewrite HL in Hin; set_solver|lia]. }
    apply wpe_bind. eapply wpe_mono; [apply (IH (b + 1) h L); [done|done|lia|unfold bins_from in *; lia]|cbn beta|done].
    intros c h1 [Hgo [Hno|Ht]].
    + pose proof Hno as (-> & _). rewrite Z.eqb_refl. apply wpe_ret. split; [intros Hx%Hst; by apply Hgo in Hx as []|by left].
    + assert (Hc : c <> NIL) by (destruct Ht as (? & ? & (_ & ? & _) & _); unfold NIL; lia).
      rewrite (proj2 (Z.eqb_neq _ _)) by done.
      eapply wpe_mono; [apply (split_chunk h h1 L b c Ht); lia|cbn beta|done].
      intros r h' (-> & He & Ht'). split; [|by right]. intros Hx%Hst. split; [done|]. rewrite He. by apply Hgo.
  - apply negb_false_iff, Z.eqb_eq in Hb0. apply Z.ltb_ge in Hb1. assert (b = BIN_MAX) as -> by lia.
    assert (Hst : ~ stocked L BIN_MAX).
    { intros (b' & c & Hle & Hin). pose proof (hi_ok _ _ Hi _ _ Hin) as (? & _). assert (b' = BIN_MAX) as -> by lia.
      apply (slist_nil _ _ _ Hs) in Hb0. rewrite Hb0 in Hin. set_solver. }
    change (PAGE_ALIGN (CHUNK_SIZE BIN_MAX)) with (CHUNK_SIZE BIN_MAX). apply wpe_bind.
    eapply wpe_mono; [apply get_pages_spec|cbn beta|done].
    intros c h1 (e & -> & [[-> Hu]|(Hc & Hal & Hlim & Hnew & Hu)]).
    + rewrite Z.eqb_refl. apply wpe_ret. split; [done|]. left. split; [done|]. split; [by apply heap_inv_env|done].
    + rewrite (proj2 (Z.eqb_neq _ _)) by (unfold NIL; lia). apply wpe_bind, wpe_ret.
      eapply wpe_mono; [by apply (page_chunk h L)|cbn beta|done]. intros r h' [-> Ht]. split; [done|by right].
Qed.
End blocks.

Lemma bin_n_from_spec n b len : 0 <= b -> b + Z.of_nat n = 8 ->
  let r := bin_n_from n b len in
  b <= r <= 8 /\ (r <= BIN_MAX -> len <= CHUNK_SIZE r) /\ forall d, b <= d < r -> CHUNK_SIZE d < len.
Proof.
  revert b. induction n as [|n IH]; intros b Hb Hn; cbn [bin_n_from].
  { cbv zeta. unfold BIN_MAX. split; [lia|]. split; lia. }
  destruct (Z.ltb_spec (CHUNK_SIZE b) len); cbv zeta.
  - destruct (IH (b + 1)) as (H1 & H2 & H3); [lia..|]. split; [lia|]. split; [done|]. intros d Hd.
    destruct (decide (d = b)) as [->|]; [done|]. apply H3. lia.
  - split; [lia|]. split; [done|lia].
Qed.

Lemma bin_n_spec len : 0 <= bin_n len <= 8 /\ (bin_n len <= BIN_MAX -> len <= CHUNK_SIZE (bin_n len)) /\
  forall d, 0 <= d < bin_n len -> CHUNK_SIZE d < len.
Proof. apply bin_n_from_spec; lia. Qed.

Lemma CHUNK_SIZE_mono b d : 0 <= b <= d -> CHUNK_SIZE b <= CHUNK_SIZE d.
Proof. intros. rewrite !CHUNK_SIZE_pow by lia. apply Z.pow_le_mono_r; lia. Qed.

(** The least bin that fits. *)
Lemma bin_n_least len d : 0 <= d -> len <= CHUNK_SIZE d -> bin_n len <= d.
Proof.
  intros Hd Hl. destruct (bin_n_spec len) as (H1 & _ & H3). destruct (Z.le_gt_cases (bin_n len) d); [done|].
  specialize (H3 d). lia.
Qed.

Lemma bin_n_CHUNK_SIZE b : 0 <= b <= BIN_MAX -> bin_n (CHUNK_SIZE b) = b.
Proof.
  intros Hb. pose proof (bin_n_least (CHUNK_SIZE b) b). destruct (bin_n_spec (CHUNK_SIZE b)) as (H1 & H2 & _).
  destruct (Z.eq_dec (bin_n (CHUNK_SIZE b)) b) as [|Hne]; [done|]. exfalso.
  assert (Hm : CHUNK_SIZE (bin_n (CHUNK_SIZE b) + 1) <= CHUNK_SIZE b) by (apply CHUNK_SIZE_mono; lia).
  rewrite CHUNK_SIZE_S in Hm by lia. pose proof (CHUNK_SIZE_pos (bin_n (CHUNK_SIZE b))). lia.
Qed.

(** ** The promise of the allocator *)

(** [A] maps the header of each block in use to the block's size. *)
Definition block_ok (a n : Z) : Prop :=
  0 < a /\ a + n < 2 ^ 32 /\ ((exists b, n = CHUNK_SIZE b /\ chunk_ok b a) \/ 4096 < n).
Record alloc_inv {E} `{PagesOk E} (h : heap E) (L : Z -> list Z) (A : gmap Z Z) : Prop := {
  ai_heap : heap_inv h L;
  ai_block : forall a n, A !! a = Some n -> block_ok a n /\ ch_size <$> hp_chunk h !! a = Some n;
  ai_free : forall a n x, A !! a = Some n -> in_range (a, n) x -> ~ held L x;
  ai_apart : forall a n a' n' x, A !! a = Some n -> A !! a' = Some n' ->
    in_range (a, n) x -> in_range (a', n') x -> a = a';
  ai_used : forall x, held L x \/ (exists a n, A !! a = Some n /\ in_range (a, n) x) -> env_used (hp_env h) x
}.

Section promise.
Context {E : Type} `{PagesOk E}.
Implicit Types (h : heap E) (L : Z -> list Z) (a b c n x : Z) (A : gmap Z Z).

Lemma block_first a n : block_ok a n -> in_range (a, n) a.
Proof.
  intros (_ & _ & [(b & -> & Hc)|Hn]); unfold in_range; cbn; [|lia].
  destruct Hc as (Hb & _). pose proof (CHUNK_SIZE_pos b). lia.
Qed.

(** A block comes into use: its bytes were free or are new. *)
Lemma alloc_add h h' L L' A c n (N : Z -> Prop) : alloc_inv h L A -> heap_inv h' L' -> block_ok c n ->
  ch_size <$> hp_chunk h' !! c = Some n ->
  (forall x, held L' x -> ~ in_range (c, n) x) ->
  (forall x, held L' x \/ in_range (c, n) x <-> held L x \/ N x) ->
  (forall x, N x -> ~ env_used (hp_env h) x) ->
  (forall x, env_used (hp_env h') x <-> env_used (hp_env h) x \/ N x) ->
  (forall a, ~ held L' a -> a <> c -> hp_chunk h' !! a = hp_chunk h !! a) ->
  A !! c = None /\ alloc_inv h' L' (<[c := n]> A) /\
  forall x, held L' x \/ in_range (c, n) x <-> held L x \/ (env_used (hp_env h') x /\ ~ env_used (hp_env h) x).
Proof.
  intros [Hh Hb Hf Ha Hu] Hi' Hc Hcs Hd Hall HN Hused Hch.
  assert (Hout : forall a m x, A !! a = Some m -> in_range (a, m) x -> ~ (held L' x \/ in_range (c, n) x)).
  { intros a m x Hm Hx [Hx'|Hx']%Hall; [by eapply Hf|]. apply (HN x Hx'), Hu. right. eauto. }
  assert (Hnone : A !! c = None).
  { destruct (A !! c) as [m|] eqn:Hm; [|done]. exfalso. destruct (Hb _ _ Hm) as [Hbm _].
    apply (Hout c m c Hm); [by apply block_first|]. right. by apply block_first. }
  split; [done|]. split.
  - constructor; [done|..].
    + intros a m [[<- <-]|[Hne Hm]]%lookup_insert_Some; [done|]. destruct (Hb _ _ Hm) as [Hbm Hs]. split; [done|].
      rewrite Hch; [done| |done]. intros Hx. apply (Hout a m a Hm); [by apply block_first|by left].
    + intros a m x [[<- <-]|[Hne Hm]]%lookup_insert_Some Hx Hx'; [by apply (Hd x)|]. apply (Hout a m x Hm Hx). by left.
    + intros a m a' m' x [[<- <-]|[Hne Hm]]%lookup_insert_Some [[<- <-]|[Hne' Hm']]%lookup_insert_Some Hx Hx'; [done| | |].
      * exfalso. apply (Hout _ _ x Hm' Hx'). by right.
      * exfalso. apply (Hout _ _ x Hm Hx). by right.
      * by eapply Ha.
    + intros x Hx. apply Hused. assert (Hx' : (held L' x \/ in_range (c, n) x) \/ exists a m, A !! a = Some m /\ in_range (a, m) x).
      { destruct Hx as [Hx|(a & m & [[<- <-]|[Hne Hm]]%lookup_insert_Some & Hx)]; eauto. }
      rewrite Hall in Hx'. destruct Hx' as [[Hx'|Hx']|Hx']; [left; apply Hu; by left|by right|left; apply Hu; by right].
  - intros x. rewrite Hall, Hused. specialize (HN x). tauto.
Qed.

(** A block is given up. *)
Lemma alloc_drop h L A a : alloc_inv h L A -> alloc_inv h L (delete a A).
Proof.
  intros [Hh Hb Hf Ha Hu]. constructor; [done|..].
  - intros c n [_ Hn]%lookup_delete_Some. by apply Hb.
  - intros c n x [_ Hn]%lookup_delete_Some. by apply Hf.
  - intros c n c' n' x [_ Hn]%lookup_delete_Some [_ Hn']%lookup_delete_Some. by eapply Ha.
  - intros x [Hx|(c & n & [_ Hn]%lookup_delete_Some & Hx)]; apply Hu; eauto.
Qed.

Lemma no_memory_inv h h' L A c : alloc_inv h L A -> no_memory h L c h' -> alloc_inv h' L A.
Proof.
  intros [Hh Hb Hf Ha Hu] (_ & Hi & Hc & He). constructor; [done| |done|done|].
  - intros a n Hn. rewrite Hc. by apply Hb.
  - intros x Hx. by apply He, Hu.
Qed.

(** Freeing a chunk. *)
Lemma free_small h L A a b : alloc_inv h L A -> A !! a = Some (CHUNK_SIZE b) -> chunk_ok b a ->
  wp (free_chunk b a) h (fun _ h' => exists L', alloc_inv h' L' (delete a A) /\ hp_env h' = hp_env h /\
    (exists b' c', b <= b' /\ c' ∈ L' b') /\ forall x, held L' x <-> held L x \/ in_range (span b a) x).
Proof.
  intros Hai Ha Hok. pose proof Hai as [Hh Hb Hf Hap Hu].
  eapply wpe_mono; [apply (free_chunk_spec _ L b a Hh)|cbn beta|done].
  { constructor; [done|]. intros x Hx Hx'. by apply (Hf _ _ x Ha). }
  intros _ h' (L' & Hi' & Hh' & Hex & He & Hch). exists L'. split; [|done]. constructor; [done|..].
  - intros c n [Hne Hn]%lookup_delete_Some. destruct (Hb _ _ Hn) as [Hbn Hs]. split; [done|]. rewrite Hch; [done|].
    intros [Hx|Hx]%Hh'; [by apply (Hf _ _ c Hn); [apply block_first|]|].
    apply Hne. apply (Hap _ _ _ _ c Ha Hn); [done|by apply block_first].
  - intros c n x [Hne Hn]%lookup_delete_Some Hx [Hx'|Hx']%Hh'; [by eapply Hf|]. by apply Hne, (Hap _ _ _ _ x Ha Hn).
  - intros c n c' n' x [_ Hn]%lookup_delete_Some [_ Hn']%lookup_delete_Some. by eapply Hap.
  - intros x Hx. rewrite He. apply Hu. destruct Hx as [[Hx|Hx]%Hh'|(c & n & [_ Hn]%lookup_delete_Some & Hx)]; eauto.
Qed.

(** Requests of up to two pages less than the address space. *)
Lemma malloc_big h L A len : alloc_inv h L A -> 4096 < len + 4 -> len + 8191 < 2 ^ 32 ->
  wp (malloc len) h (fun p h' => (p = NIL /\ alloc_inv h' L A) \/
    exists a n L', p = a + 4 /\ len + 4 <= n /\ A !! a = None /\ alloc_inv h' L' (<[a := n]> A) /\
      forall x, held L' x \/ in_range (a, n) x <-> held L x \/ (env_used (hp_env h') x /\ ~ env_used (hp_env h) x)).
Proof.
  intros Hai Hlen Hmax. unfold malloc, sizeof_size_t, sizeof_buffer. rewrite (u32_small (len + 4)) by lia.
  destruct (bin_n_spec (len + 4)) as (Hbn & Hfit & _).
  destruct (Z.leb_spec (bin_n (len + 4)) BIN_MAX) as [Hle|Hgt].
  { apply Hfit in Hle as Hle'. pose proof (CHUNK_SIZE_max (bin_n (len + 4))). lia. }
  set (n := PAGE_ALIGN (len + 4)).
  assert (Hn : len + 4 <= n < len + 4 + 4096).
  { unfold n, PAGE_ALIGN. change PAGE_SIZE with (2 ^ 12). rewrite align_up_pow2 by lia. apply round_up_bounds. lia. }
  apply wpe_bind. eapply wpe_mono; [apply get_pages_spec|cbn beta|done].
  intros c h1 (e & -> & [[-> Hu]|(Hc & Hal & Hlim & Hnew & Hu)]).
  { rewrite Z.eqb_refl. apply wpe_ret. left. split; [done|]. apply (no_memory_inv h _ L A NIL); [done|].
    split_and!; [done|by apply heap_inv_env, Hai|done|done]. }
  rewrite (proj2 (Z.eqb_neq _ _)) by (unfold NIL; lia). apply wpe_bind, upd_chunk_spec, wpe_ret. right.
  assert (Hd : forall x, held L x -> ~ in_range (c, n) x) by (intros x Hx Hx'; apply (Hnew x Hx'), Hai; by left).
  assert (Hb : block_ok c n) by (split_and!; [done|done|right; lia]).
  exists c, n, L. split; [by rewrite u32_small by lia|]. split; [lia|].
  apply (alloc_add h _ L L A c n (in_range (c, n))); cbn; [done| |done| |done|done|done|done|].
  - apply (heap_inv_write (set_hp_env e h)); [by apply heap_inv_env, Hai|]. intros b Hin. apply (Hd c); [|by apply block_first].
    exists b, c. split; [done|]. eapply in_first, hi_ok; [apply Hai|done].
  - by rewrite lookup_insert_eq.
  - intros a _ Hac. by rewrite lookup_insert_ne.
Qed.

Lemma malloc_small h L A len : alloc_inv h L A -> 0 <= len -> len + 4 <= 4096 ->
  wp (malloc len) h (fun p h' =>
    (stocked L (bin_n (len + 4)) -> p <> NIL /\ hp_env h' = hp_env h) /\
    ((p = NIL /\ alloc_inv h' L A) \/
    exists a n L', p = a + 4 /\ len + 4 <= n /\ A !! a = None /\ alloc_inv h' L' (<[a := n]> A) /\
      forall x, held L' x \/ in_range (a, n) x <-> held L x \/ (env_used (hp_env h') x /\ ~ env_used (hp_env h) x))).
Proof.
  intros Hai Hlen Hmax. unfold malloc, sizeof_size_t. rewrite (u32_small (len + 4)) by lia.
  destruct (bin_n_spec (len + 4)) as (Hbn & Hfit & _). set (b := bin_n (len + 4)) in *.
  assert (Hb : b <= BIN_MAX) by (apply bin_n_least; [done|exact Hmax]). rewrite (proj2 (Z.leb_le _ _)) by done.
  apply wpe_bind. eapply wpe_mono; [apply (get_chunk_in_spec _ b h L); [apply Hai| |lia|done]|cbn beta|done].
  { intros x Hx. apply Hai. by left. }
  intros c h' [Hst [Hno|Ht]].
  - pose proof Hno as (-> & _). rewrite Z.eqb_refl. apply wpe_ret. split; [exact Hst|]. left. split; [done|].
    by eapply no_memory_inv.
  - destruct Ht as (L' & N & Hok & Hi' & Hd & Hall & HN & Hu & Hc & Hch). pose proof Hok as (_ & Hc0 & _ & Hlim).
    pose proof (CHUNK_SIZE_pos b ltac:(lia)).
    rewrite (proj2 (Z.eqb_neq _ _)) by (unfold NIL; lia). apply wpe_ret. rewrite u32_small by lia.
    split; [intros Hs; split; [unfold NIL; lia|by apply Hst]|]. right. exists c, (CHUNK_SIZE b), L'.
    split; [done|]. split; [by apply Hfit|].
    apply (alloc_add h h' L L' A c (CHUNK_SIZE b) N); try done; [|by rewrite Hc].
    split; [done|]. split; [done|]. left. by exists b.
Qed.

(** C26: For lengths of less than 2^32 - 8191 (for more see [malloc_wraps]) allocating
    hands out a block that has room for the length and the header and that no block in
    use and no free chunk overlaps, made of bytes that were free or are new, or returns
    nil with the blocks in use and the free chunks as they were. *)
Theorem malloc_correct h L A len : alloc_inv h L A -> 0 <= len -> len + 8191 < 2 ^ 32 ->
  wp (malloc len) h (fun p h' => (p = NIL /\ alloc_inv h' L A) \/
    exists a n L', p = a + 4 /\ len + 4 <= n /\ A !! a = None /\ alloc_inv h' L' (<[a := n]> A) /\
      forall x, held L' x \/ in_range (a, n) x <-> held L x \/ (env_used (hp_env h') x /\ ~ env_used (hp_env h) x)).
Proof.
  intros Hai Hlen Hmax. destruct (Z.le_gt_cases (len + 4) 4096); [|by apply malloc_big].
  eapply wpe_mono; [by apply (malloc_small h L A)|cbn beta; intros; tauto|done].
Qed.

Lemma free_ok h L A a n : alloc_inv h L A -> A !! a = Some n ->
  wp (free (a + 4)) h (fun _ h' => exists L', alloc_inv h' L' (delete a A) /\ hp_env h' = hp_env h /\
    (n <= 4096 -> stocked L' (bin_n n)) /\
    forall x, held L' x <-> held L x \/ (n <= 4096 /\ in_range (a, n) x)).
Proof.
  intros Hai Ha. destruct (ai_block _ _ _ Hai _ _ Ha) as [Hok Hs]. pose proof Hok as (Ha0 & Hmax & Hcase).
  unfold free, sizeof_size_t. rewrite (proj2 (Z.eqb_neq _ _)) by (unfold NIL; lia).
  assert (Hn : 32 <= n) by (destruct Hcase as [(b & -> & Hb & _)|]; [apply CHUNK_SIZE_pos|]; lia).
  replace (a + 4 - 4) with a by lia. rewrite u32_small by lia.
  destruct (hp_chunk h !! a) as [y|] eqn:Hy; [|done]. injection Hs as Hs.
  apply wpe_bind. eapply wpe_ok; [by apply read_ok|]. cbn beta zeta. rewrite Hs.
  destruct Hcase as [(b & -> & Hb)|Hbig].
  - pose proof Hb as (Hbr & _). rewrite bin_n_CHUNK_SIZE, (proj2 (Z.leb_le _ _)) by lia.
    eapply wpe_mono; [by apply (free_small h L A a b)|cbn beta|done]. intros _ h' (L' & Hai' & He & Hex & Hh).
    exists L'. split; [done|]. split; [done|]. split; [done|]. intros x. rewrite Hh. unfold span.
    pose proof (CHUNK_SIZE_max b Hbr). tauto.
  - destruct (Z.leb_spec (bin_n n) BIN_MAX) as [Hle|_].
    { destruct (bin_n_spec n) as (? & Hfit & _). apply Hfit in Hle as Hle'. pose proof (CHUNK_SIZE_max (bin_n n)). lia. }
    apply wpe_ret. exists L. split; [by apply alloc_drop|]. split; [done|]. split; [lia|]. intros x. split; [tauto|].
    intros [?|[? _]]; [done|lia].
Qed.

(** C27: Freeing a block gives its bytes back, unless it is larger than a page: then
    they are neither in use nor free. *)
Theorem free_correct h L A a n : alloc_inv h L A -> A !! a = Some n ->
  wp (free (a + 4)) h (fun _ h' => exists L', alloc_inv h' L' (delete a A) /\ hp_env h' = hp_env h /\
    forall x, held L' x <-> held L x \/ (n <= 4096 /\ in_range (a, n) x)).
Proof.
  intros Hai Ha. eapply wpe_mono; [by apply (free_ok h L A a n)|cbn beta|done].
  intros _ h' (L' & ? & ? & _ & ?). by exists L'.
Qed.

(** What was freed can be allocated again without asking for memory. *)
Theorem free_malloc h L A a n len : alloc_inv h L A -> A !! a = Some n -> n <= 4096 -> 0 <= len -> len + 4 <= n ->
  wp (free (a + 4) ;;; malloc len) h (fun p h' => p <> NIL /\ hp_env h' = hp_env h).
Proof.
  intros Hai Ha Hn Hlen Hfit. apply wpe_bind. eapply wpe_mono; [by apply (free_ok h L A a n)|cbn beta|done].
  intros _ h1 (L1 & Hai1 & He & Hst & _). eapply wpe_mono; [apply (malloc_small h1 L1 (delete a A)); [done|lia|lia]|cbn beta|done].
  intros p h2 [Hp _]. rewrite <-He. apply Hp. destruct (Hst Hn) as (b' & c & Hle & Hin). exists b', c. split; [|done].
  destruct (ai_block _ _ _ Hai _ _ Ha) as [(_ & _ & [(b & -> & Hb)|]) _]; [|lia]. pose proof Hb as (Hbr & _).
  rewrite bin_n_CHUNK_SIZE in Hle by done. pose proof (bin_n_least (len + 4) b). lia.
Qed.

(** The sum of the length and the header is not checked: a request for almost all
    of the address space is served with the smallest chunk. *)
Lemma malloc_wraps h len : 2 ^ 32 - 4 <= len < 2 ^ 32 -> malloc len h = malloc 0 h.
Proof.
  intros Hl. unfold malloc, sizeof_size_t. replace (u32 (len + 4)) with (len + 4 - 2 ^ 32).
  - replace (bin_n (len + 4 - 2 ^ 32)) with (bin_n (u32 (0 + 4))); [done|]. change (bin_n (u32 (0 + 4))) with 0.
    destruct (bin_n_spec (len + 4 - 2 ^ 32)) as [? _].
    assert (bin_n (len + 4 - 2 ^ 32) <= 0); [|lia]. apply bin_n_least; [done|]. change (CHUNK_SIZE 0) with 32. lia.
  - unfold u32. apply Z.mod_unique with 1; lia.
Qed.
End promise.

(** ** A process with memory from a bump allocator *)
Definition brk : Type := Z.
#[export] Instance brk_pages : Pages brk := {|
  request_memory len _ := ret len;
  frame_map_anywhere fid e :=
    if (0 <? e) && (0 <? fid) && (e mod PAGE_SIZE =? 0) && (fid mod PAGE_SIZE =? 0) && (e + fid <? 2 ^ 32) then
      Ok e (e + fid)
    else Ok NIL e;
  release_memory _ := ret tt
|}.
#[export] Program Instance brk_pages_ok : PagesOk brk := {|
  env_used e x := x < e;
  env_frame _ fid := Some fid
|}.
Next Obligation. done. Qed.
Next Obligation.
  intros fid len e [= ->]. unfold wpe. cbn. destruct (_ && _)%bool eqn:E; [|by left]. bdestruct_all. right.
  unfold in_range. cbn. split; [done|]. split; [by apply Z.mod_divide|]. split; [done|]. split; lia.
Qed.
Next Obligation. done. Qed.

Definition no_bins : heap brk := mk_heap [0;0;0;0;0;0;0;0] ∅ PAGE_SIZE.
Lemma no_bins_inv : alloc_inv no_bins (fun _ => []) ∅.
Proof.
  constructor; [constructor| | | |]; try (intros; set_solver).
  - intros b Hb. exists 0. split; [|done]. unfold BIN_MAX in Hb. assert (HH : In b [0;1;2;3;4;5;6;7]) by (cbn; lia).
    repeat destruct HH as [<-|HH]; done.
  - intros. constructor.
  - intros x [(b & c & Hc & _)|(a & n & Hn & _)]; [set_solver|done].
Qed.

Lemma malloc_correct_witness : exists p h', malloc 100 no_bins = Ok p h' /\
  ((p = NIL /\ alloc_inv h' (fun _ => []) ∅) \/ exists a n L', p = a + 4 /\ 100 + 4 <= n /\ alloc_inv h' L' {[a := n]}).
Proof.
  pose proof (malloc_correct no_bins (fun _ => []) ∅ 100 no_bins_inv) as Hw.
  destruct (wp_inv _ _ _ (Hw ltac:(lia) ltac:(lia))) as (p & h' & Hrun & Hp). exists p, h'. split; [exact Hrun|].
  destruct Hp as [Hp|(a & n & L' & H1 & H2 & _ & H3 & _)]; [left; exact Hp|right]. exists a, n, L'.
  split; [exact H1|]. split; [exact H2|exact H3].
Defined.

(** The state after a first request, by computation. *)
Lemma demo_block : exists h L, malloc 100 no_bins = Ok 4100 h /\ alloc_inv h L {[4096 := 128]}.
Proof.
  pose proof (malloc_small no_bins (fun _ => []) ∅ 100 no_bins_inv ltac:(lia) ltac:(lia)) as Hw.
  destruct (wp_inv _ _ _ Hw) as (p & h & Hrun & _ & Hp). exists h.
  assert (Hp' : p = 4100) by (vm_compute in Hrun; by injection Hrun). subst p.
  destruct Hp as [[Hp _]|(a & n & L & H1 & _ & _ & Hai & _)]; [discriminate|]. assert (a = 4096) as -> by lia.
  exists L. split; [exact Hrun|]. destruct (ai_block _ _ _ Hai 4096 n) as [_ Hs]; [apply lookup_insert_eq|].
  assert (Hs' : ch_size <$> hp_chunk h !! 4096 = Some 128) by (vm_compute in Hrun; by injection Hrun as <-).
  rewrite Hs' in Hs. injection Hs as <-. exact Hai.
Qed.

Lemma free_correct_witness : exists h h' L', malloc 100 no_bins = Ok 4100 h /\ free 4100 h = Ok tt h' /\ alloc_inv h' L' ∅.
Proof.
  destruct demo_block as (h & L & Hrun & Hai).
  destruct (wp_inv _ _ _ (free_correct h L _ 4096 128 Hai eq_refl)) as ([] & h' & Hf & L' & H' & _).
  exists h, h', L'. split; [exact Hrun|]. split; [exact Hf|]. exact H'.
Defined.

Lemma free_malloc_witness : exists h p h', malloc 100 no_bins = Ok 4100 h /\
  (free 4100 ;;; malloc 60) h = Ok p h' /\ p <> NIL /\ hp_env h' = hp_env h.
Proof.
  destruct demo_block as (h & L & Hrun & Hai).
  destruct (wp_inv _ _ _ (free_malloc h L _ 4096 128 60 Hai eq_refl ltac:(lia) ltac:(lia) ltac:(lia))) as (p & h' & Hf & H1 & H2).
  exists h, p, h'. split; [exact Hrun|]. split; [exact Hf|]. split; [exact H1|exact H2].
Defined.

(** The test for the lower buddy looks behind the first chunk of the list, so two
    buddies that come back in falling order are not joined. *)
Definition bins_after {A} (m : M (heap brk) A) : option (list Z) :=
  match m no_bins with Ok _ h => Some (hp_bins h) | _ => None end.
Lemma buddies_stay_apart :
  bins_after (free_chunk 0 4096 ;;; free_chunk 0 4128) = Some [0;4096;0;0;0;0;0;0] /\
  bins_after (free_chunk 0 4128 ;;; free_chunk 0 4096) = Some [4096;0;0;0;0;0;0;0].
Proof. by vm_compute. Qed.
