(* ===== verification/Root.v ===== *)
(** * The root task's memory: arm/lib/c/sys.c and arm/root/mem.c, main.c

    The library part of a process keeps the capability identifiers it has given
    out ([kcap_list], a bit each) and the kernel objects it made ([kobj]); the root
    task also keeps the free memory (Ranges.v) and three spare frames.  The two
    call each other: an object is made in memory that is requested, and a request
    makes objects for frames.  [request_memory] is what ties the knot, with fuel
    for the depth of the recursion; [request_memory_depth] shows that two levels
    are enough.

    The system calls are those of an interface, [Sys]; [kernel_sys] is the kernel
    of this development as an instance. *)
From S2P Require Import Prelude KState Mmu Obj Frame SList Pool Ranges.

Local Open Scope Z_scope.
Local Open Scope c_scope.

Record kobj := mk_kobj {
  ko_cid : Z;
  ko_claimed : bool;
  ko_type : Z;
  ko_len : Z;
  ko_next : Z;
  ko_from : Z
}.
Definition set_ko_cid (v : Z) (x : kobj) : kobj :=
  mk_kobj v (ko_claimed x) (ko_type x) (ko_len x) (ko_next x) (ko_from x).
Definition set_ko_claimed (v : bool) (x : kobj) : kobj :=
  mk_kobj (ko_cid x) v (ko_type x) (ko_len x) (ko_next x) (ko_from x).
Definition set_ko_type (v : Z) (x : kobj) : kobj :=
  mk_kobj (ko_cid x) (ko_claimed x) v (ko_len x) (ko_next x) (ko_from x).
Definition set_ko_len (v : Z) (x : kobj) : kobj :=
  mk_kobj (ko_cid x) (ko_claimed x) (ko_type x) v (ko_next x) (ko_from x).
Definition set_ko_next (v : Z) (x : kobj) : kobj :=
  mk_kobj (ko_cid x) (ko_claimed x) (ko_type x) (ko_len x) v (ko_from x).
Definition set_ko_from (v : Z) (x : kobj) : kobj :=
  mk_kobj (ko_cid x) (ko_claimed x) (ko_type x) (ko_len x) (ko_next x) v.

(** What a process' memory has to offer: the system calls it makes, the call
    that maps a frame at a free address (arm/lib/c/addr.c), the address of
    [kobj_pool_initial], and what is in the memory of a new object before it is
    written. *)
Class Sys (K : Type) := {
  obj_create : Z -> Z -> M K Z;
  obj_split : Z -> Z -> M K Z;
  obj_retype : Z -> Z -> Z -> M K Z;
  frame_setup : Z -> Z -> Z -> Z -> M K Z;
  frame_map_anywhere : Z -> M K Z;
  kobj_pool_initial : Z;
  stale_kobj : Z -> kobj
}.

Record root (K : Type) := mk_root {
  rt_k : K;
  rt_caps : list Z;
  rt_pool : pool;
  rt_obj : gmap Z kobj;
  rt_objs : Z;
  rt_ready : bool;
  rt_checking : bool;
  rt_mem : ranges;
  rt_spare : list Z;
  rt_replenish : bool
}.
Arguments mk_root {K}.
Arguments rt_k {K}.
Arguments rt_caps {K}.
Arguments rt_pool {K}.
Arguments rt_obj {K}.
Arguments rt_objs {K}.
Arguments rt_ready {K}.
Arguments rt_checking {K}.
Arguments rt_mem {K}.
Arguments rt_spare {K}.
Arguments rt_replenish {K}.
Section setters.
Context {K : Type}.
Definition set_rt_k (v : K) (x : root K) : root K :=
  mk_root v (rt_caps x) (rt_pool x) (rt_obj x) (rt_objs x) (rt_ready x) (rt_checking x) (rt_mem x) (rt_spare x) (rt_replenish x).
Definition set_rt_caps (v : list Z) (x : root K) : root K :=
  mk_root (rt_k x) v (rt_pool x) (rt_obj x) (rt_objs x) (rt_ready x) (rt_checking x) (rt_mem x) (rt_spare x) (rt_replenish x).
Definition set_rt_pool (v : pool) (x : root K) : root K :=
  mk_root (rt_k x) (rt_caps x) v (rt_obj x) (rt_objs x) (rt_ready x) (rt_checking x) (rt_mem x) (rt_spare x) (rt_replenish x).
Definition set_rt_obj (v : gmap Z kobj) (x : root K) : root K :=
  mk_root (rt_k x) (rt_caps x) (rt_pool x) v (rt_objs x) (rt_ready x) (rt_checking x) (rt_mem x) (rt_spare x) (rt_replenish x).
Definition set_rt_objs (v : Z) (x : root K) : root K :=
  mk_root (rt_k x) (rt_caps x) (rt_pool x) (rt_obj x) v (rt_ready x) (rt_checking x) (rt_mem x) (rt_spare x) (rt_replenish x).
Definition set_rt_ready (v : bool) (x : root K) : root K :=
  mk_root (rt_k x) (rt_caps x) (rt_pool x) (rt_obj x) (rt_objs x) v (rt_checking x) (rt_mem x) (rt_spare x) (rt_replenish x).
Definition set_rt_checking (v : bool) (x : root K) : root K :=
  mk_root (rt_k x) (rt_caps x) (rt_pool x) (rt_obj x) (rt_objs x) (rt_ready x) v (rt_mem x) (rt_spare x) (rt_replenish x).
Definition set_rt_mem (v : ranges) (x : root K) : root K :=
  mk_root (rt_k x) (rt_caps x) (rt_pool x) (rt_obj x) (rt_objs x) (rt_ready x) (rt_checking x) v (rt_spare x) (rt_replenish x).
Definition set_rt_spare (v : list Z) (x : root K) : root K :=
  mk_root (rt_k x) (rt_caps x) (rt_pool x) (rt_obj x) (rt_objs x) (rt_ready x) (rt_checking x) (rt_mem x) v (rt_replenish x).
Definition set_rt_replenish (v : bool) (x : root K) : root K :=
  mk_root (rt_k x) (rt_caps x) (rt_pool x) (rt_obj x) (rt_objs x) (rt_ready x) (rt_checking x) (rt_mem x) (rt_spare x) v.
End setters.

Definition sizeof_kobj : Z := 24.
(** [sizeof(kobj_pool_initial)], 64 objects. *)
Definition sizeof_kobj_pool : Z := 64 * sizeof_kobj.
(** The length of [caps]. *)
Definition CAP_WORDS : Z := CLIST_CAPS / 32.

Section operations.
Context {K : Type} `{Sys K}.
Abbreviation RT := (M (root K)).

Definition on_k {A} (m : M K A) : RT A := zoom rt_k set_rt_k m.
Definition on_kobjs {A} (m : M pool A) : RT A := zoom rt_pool set_rt_pool m.
Definition on_mem {A} (m : RM A) : RT A := zoom rt_mem set_rt_mem m.
Definition exit {A} (code : Z) : RT A := halt (Exited code).

Definition get_kobj (o : Z) : RT kobj := read FNil (fun s => rt_obj s !! o).
Definition upd_kobj (o : Z) (f : kobj -> kobj) : RT unit :=
  let* _ := get_kobj o in modify (fun s => set_rt_obj (alter f o (rt_obj s)) s).
Definition put_kobj (o : Z) (x : kobj) : RT unit :=
  modify (fun s => set_rt_obj (<[o := x]> (rt_obj s)) s).

(** ** Capability identifiers *)
Definition ksys_init : RT unit :=
  let* r := gets rt_ready in
  if r then ret tt
  else
    modify (set_rt_objs NIL) ;;;
    let* e := on_kobjs (pool_init sizeof_kobj) in
    if negb (e =? OK) then exit 1
    else
      let* e := on_kobjs (pool_load kobj_pool_initial sizeof_kobj_pool) in
      if negb (e =? OK) then exit 1
      else
        modify (set_rt_caps (zupd 0 (Z.lor 0 15) (replicate (Z.to_nat CAP_WORDS) 0))) ;;;
        modify (set_rt_ready true).

(** The loop of kcap_alloc, [n] rounds from identifier [o] on. *)
Fixpoint kcap_alloc_loop (n : nat) (o : Z) : RT Z :=
  match n with
  | O => ret ERR
  | S n =>
    let* w := read FBounds (fun s => znth (rt_caps s) (o / 32)) in
    if Z.land w (Z.shiftl 1 (o mod 32)) =? 0 then
      modify (fun s => set_rt_caps (zupd (o / 32) (Z.lor w (Z.shiftl 1 (o mod 32))) (rt_caps s)) s) ;;;
      ret (Z.shiftl o 12)
    else kcap_alloc_loop n (o + 1)
  end.
Definition kcap_alloc : RT Z :=
  ksys_init ;;; kcap_alloc_loop (Z.to_nat CLIST_CAPS) 0.
Definition kcap_free (cid : Z) : RT unit := ret tt.

(** ** Kernel objects; [rm] is the request for memory they are made in *)
Section kobjs.
Context (rm : Z -> Z -> RT Z).

Definition grow_pool : RT bool :=
  let* n := on_kobjs pool_obj_size in
  let len := PAGE_ALIGN (u32 (sizeof_pool_frame + n * 64)) in
  let* fid := rm len 0x1000 in
  if fid <? 0 then ret false
  else
    let* va := on_k (frame_map_anywhere fid) in
    if va =? NIL then ret false
    else
      let* e := on_kobjs (pool_load va len) in
      if negb (e =? OK) then ret false else ret true.

Definition kobj_pool_alloc : RT Z :=
  let* c := gets rt_checking in
  (if c then ret tt
   else
     let* n := on_kobjs pool_n_free in
     if n <? 5 then
       modify (set_rt_checking true) ;;;
       grow_pool ;;;
       modify (set_rt_checking false)
     else ret tt) ;;;
  on_kobjs pool_alloc.

Definition kobj_alloc_new (len : Z) : RT Z :=
  let len := if len <? 0x1000 then 0x1000 else len in
  let* fid := rm len 0x1000 in
  if fid <? 0 then ret NIL
  else
    let* cid := kcap_alloc in
    if cid <? 0 then ret NIL
    else
      let* e := on_k (obj_create fid cid) in
      if negb (e =? OK) then ret NIL
      else
        kcap_free fid ;;;
        let* o := kobj_pool_alloc in
        if o =? NIL then ret NIL
        else
          let* h := gets rt_objs in
          put_kobj o (mk_kobj cid false OBJ_untyped len h o) ;;;
          modify (set_rt_objs o) ;;;
          ret o.

Definition kobj_split (o : Z) : RT bool :=
  let* x := get_kobj o in
  if negb (ko_type x =? OBJ_untyped) then ret false
  else if ko_len x <? 4 then ret false
  else
    let* nid := kcap_alloc in
    if nid <? 0 then ret false
    else
      let* n := kobj_pool_alloc in
      if n =? NIL then ret false
      else
        let* x := get_kobj o in
        let* e := on_k (obj_split (ko_cid x) nid) in
        if negb (e =? OK) then ret false
        else
          let* s := get in
          put_kobj n (mk_kobj nid (ko_claimed (default (stale_kobj n) (rt_obj s !! n)))
            OBJ_untyped (Z.shiftr (ko_len x) 1) (ko_next x) o) ;;;
          upd_kobj o (set_ko_len (Z.shiftr (ko_len x) 1)) ;;;
          upd_kobj o (set_ko_next n) ;;;
          ret true.

Definition kobj_type_size (type n : Z) : Z :=
  if type =? OBJ_untyped then 0
  else if type =? OBJ_endpoint then sizeof_endpoint
  else if type =? OBJ_caplist then sizeof_caplist
  else if type =? OBJ_proc then sizeof_proc
  else if type =? OBJ_intr then sizeof_intr
  else if type =? OBJ_frame then sizeof_frame
  else 0.

Definition kobj_add_untyped (cid len : Z) : RT Z :=
  ksys_init ;;;
  let* n := kobj_pool_alloc in
  if n =? NIL then ret ERR
  else
    let* s := get in
    put_kobj n (mk_kobj cid (ko_claimed (default (stale_kobj n) (rt_obj s !! n)))
      OBJ_untyped len (rt_objs s) n) ;;;
    modify (set_rt_objs n) ;;;
    ret OK.

(** [while (len < l) len <<= 1]: the sizes are below 2^32, so 33 rounds do. *)
Fixpoint kobj_len (fuel : nat) (len l : Z) : RT Z :=
  match fuel with
  | O => nofuel
  | S fuel => if len <? l then kobj_len fuel (u32 (Z.shiftl len 1)) l else ret len
  end.

(** The search of kobj_alloc from object [o] on; [f] is the best one so far. *)
Fixpoint kobj_best (fuel : nat) (o f len : Z) : RT Z :=
  match fuel with
  | O => nofuel
  | S fuel =>
    if o =? NIL then ret f
    else
      let* x := get_kobj o in
      if negb (ko_type x =? OBJ_untyped) then kobj_best fuel (ko_next x) f len
      else if ko_claimed x then kobj_best fuel (ko_next x) f len
      else if len <=? ko_len x then
        (let* better :=
           if f =? NIL then ret true else let* y := get_kobj f in ret (ko_len x <? ko_len y) in
         kobj_best fuel (ko_next x) (if better : bool then o else f) len)
      else kobj_best fuel (ko_next x) f len
  end.

(** [while (len < f->len)]: split [f] until it is no longer than needed. *)
Fixpoint kobj_fit (fuel : nat) (f len : Z) : RT bool :=
  match fuel with
  | O => nofuel
  | S fuel =>
    let* x := get_kobj f in
    if len <? ko_len x then
      let* ok := kobj_split f in if ok : bool then kobj_fit fuel f len else ret false
    else ret true
  end.

Definition kobj_alloc (type n : Z) : RT Z :=
  ksys_init ;;;
  let l := kobj_type_size type n in
  if l =? 0 then ret ERR
  else
    let* len := kobj_len 33 1 l in
    let* s := get in
    let* f := kobj_best (S (base.size (rt_obj s))) (rt_objs s) NIL len in
    let* f := if f =? NIL then kobj_alloc_new len else ret f in
    if f =? NIL then ret ERR
    else
      upd_kobj f (set_ko_claimed true) ;;;
      let* fits := kobj_fit 33 f len in
      if negb fits then ret ERR
      else
        let* x := get_kobj f in
        let* e := on_k (obj_retype (ko_cid x) type n) in
        if negb (e =? OK) then ret ERR
        else
          upd_kobj f (set_ko_type type) ;;;
          ret (ko_cid x).
End kobjs.

(** ** Memory *)

(** The first of the [n] spare frames from [i] on. *)
Fixpoint take_spare (n : nat) (i : Z) : RT Z :=
  match n with
  | O => ret (-1)
  | S n =>
    let* c := read FBounds (fun s => znth (rt_spare s) i) in
    if 0 <? c then
      modify (fun s => set_rt_spare (zupd i (-1) (rt_spare s)) s) ;;; ret c
    else take_spare n (i + 1)
  end.

Fixpoint fill_spare (rm : Z -> Z -> RT Z) (n : nat) (i : Z) : RT unit :=
  match n with
  | O => ret tt
  | S n =>
    let* c := read FBounds (fun s => znth (rt_spare s) i) in
    (if c <? 0 then
       let* c := kobj_alloc rm OBJ_frame 1 in
       modify (fun s => set_rt_spare (zupd i c (rt_spare s)) s) ;;;
       if c <? 0 then exit ERR else ret tt
     else ret tt) ;;;
    fill_spare rm n (i + 1)
  end.

(** [if (!replenish)]: fill the spare frames up. *)
Definition replenish_spares (rm : Z -> Z -> RT Z) : RT unit :=
  let* rep := gets rt_replenish in
  if rep then ret tt
  else
    modify (set_rt_replenish true) ;;;
    fill_spare rm 3 0 ;;;
    modify (set_rt_replenish false).

(** One request; [rm] makes those that filling up the spare frames needs. *)
Definition request_step (rm : Z -> Z -> RT Z) (len align : Z) : RT Z :=
  let* cid := take_spare 3 0 in
  if cid <? 0 then exit ERR
  else
    let* m := on_mem (addr_range_get_any Head len align) in
    if m =? NIL then ret NIL
    else
      let* r := on_mem (get_range m) in
      let* e := on_k (frame_setup cid FRAME_MEM (ar_start r) (ar_len r)) in
      if negb (e =? OK) then exit ERR
      else
        on_mem (on_pool (pool_free m)) ;;;
        replenish_spares rm ;;;
        ret cid.
Fixpoint request_memory (fuel : nat) (len align : Z) : RT Z :=
  match fuel with
  | O => nofuel
  | S fuel => request_step (request_memory fuel) len align
  end.
(** Requests made while the spare frames are filled up fill none, so the
    recursion is two levels deep. *)
Definition root_request_memory : Z -> Z -> RT Z := request_memory 2.

Definition release_memory (cid : Z) : RT Z := ret ERR.

Definition create_frame (pa len type : Z) : RT Z :=
  let* cid := kobj_alloc root_request_memory OBJ_frame 1 in
  if cid <? 0 then exit ERR
  else
    let* e := on_k (frame_setup cid type pa len) in
    if negb (e =? OK) then exit ERR else ret cid.

(** The part of struct kernel_info that init_mem reads. *)
Record kernel_info := mk_info { i_boot : Z * Z; i_kernel : Z * Z; i_root : Z * Z; i_bundle : Z * Z }.

(** Memory that is in use already is taken out of the free memory. *)
Definition remove_range (x : Z * Z) (code : Z) : RT unit :=
  let* m := on_mem (addr_range_get Head x.1 x.2) in
  if m =? NIL then exit code else on_mem (on_pool (pool_free m)).

Fixpoint init_spare (n : nat) (i : Z) : RT unit :=
  match n with
  | O => ret tt
  | S n =>
    let* c := kobj_alloc root_request_memory OBJ_frame 1 in
    modify (fun s => set_rt_spare (zupd i c (rt_spare s)) s) ;;;
    if c <? 0 then exit 8 else init_spare n (i + 1)
  end.

(** arm/vexpress-a9/devices.c *)
Definition board_init_ram : RM unit := add_ram 0x60000000 0x20000000.

(** [pool] is the address of [addr_pool_initial]. *)
Definition init_mem (pool : Z) (info : kernel_info) : RT unit :=
  let* e := on_mem (on_pool (pool_init sizeof_addr_range)) in
  if negb (e =? OK) then exit 1
  else
    let* e := on_mem (on_pool (pool_load pool
      (sizeof_pool_frame + (sizeof_addr_range + sizeof_pool_obj) * 2048))) in
    if negb (e =? OK) then exit 2
    else
      on_mem board_init_ram ;;;
      let* h := on_mem (gets rg_free) in
      if h =? NIL then exit 3
      else
        remove_range (i_boot info) 4 ;;;
        remove_range (i_kernel info) 5 ;;;
        remove_range (i_root info) 6 ;;;
        remove_range (i_bundle info) 7 ;;;
        init_spare 3 0.

(** ** Requests of other processes, arm/root/main.c *)
Definition PROC0_ERR_ALIGNMENT : Z := -5.

(** The reply to a request: its [ret], and the capability passed with it. *)
Definition handle_mem_req (len align : Z) : RT (Z * option Z) :=
  if negb (len =? PAGE_ALIGN len) then ret (PROC0_ERR_ALIGNMENT, None)
  else if negb (align =? PAGE_ALIGN align) then ret (PROC0_ERR_ALIGNMENT, None)
  else
    let* cid := root_request_memory len align in
    if cid <? 0 then ret (PROC0_ERR_ALIGNMENT, None) else ret (OK, Some cid).
End operations.

(** The kernel's own calls, made by the process that runs. *)
Definition kernel_sys `{Board} (fma : Z -> KM Z) (initial : Z) (stale : Z -> kobj) : Sys kstate := {|
  obj_create := sys_obj_create;
  obj_split := sys_obj_split;
  obj_retype := sys_obj_retype;
  frame_setup := sys_frame_setup;
  frame_map_anywhere := fma;
  kobj_pool_initial := initial;
  stale_kobj := stale
|}.
