(* ===== verification/RootProps.v ===== *)
(** * The root task's memory: theorems

    Capability identifiers, the choice of the object a new one is made in, the
    depth of the recursion between objects and memory, and what a request for
    memory gets when there is none left. *)
From S2P Require Import Prelude KState Mmu SList Pool Ranges Root.

Local Open Scope Z_scope.
Local Open Scope c_scope.

(** ** Capability identifiers *)
Definition cap_used (caps : list Z) (o : Z) : bool :=
  match znth caps (o / 32) with Some w => Z.testbit w (o mod 32) | None => true end.

Lemma testbit_mask w k : 0 <= k -> (Z.land w (Z.shiftl 1 k) =? 0) = negb (Z.testbit w k).
Proof.
  intros Hk. rewrite Z.shiftl_1_l, land_pow2 by done. destruct (Z.testbit w k); [|done].
  apply Z.eqb_neq. pose proof (Z.pow_pos_nonneg 2 k). lia.
Qed.

Section caps.
Context {K : Type} `{Sys K}.
Implicit Types (s : root K) (caps : list Z) (o : Z).

Lemma cap_used_set caps o w j : znth caps (o / 32) = Some w -> 0 <= o -> 0 <= j ->
  cap_used (zupd (o / 32) (Z.lor w (Z.shiftl 1 (o mod 32))) caps) j = (j =? o) || cap_used caps j.
Proof.
  intros Hw Ho Hj. unfold cap_used. pose proof (Z.mod_pos_bound o 32). pose proof (Z.mod_pos_bound j 32).
  pose proof (Z.div_mod o 32). pose proof (Z.div_mod j 32).
  destruct (decide (o / 32 = j / 32)) as [E|E].
  - rewrite <-E, Hw. apply znth_bound in Hw as Hb. rewrite znth_zupd_eq by done.
    rewrite Z.shiftl_1_l, Z.lor_spec, Z.pow2_bits_eqb by lia.
    destruct (Z.eqb_spec (o mod 32) (j mod 32)), (Z.eqb_spec j o); try lia; by rewrite ?orb_true_r, ?orb_false_r.
  - rewrite znth_zupd_ne by done. destruct (Z.eqb_spec j o); [congruence|done].
Qed.

Lemma kcap_alloc_loop_spec n o s : length (rt_caps s) = 15%nat -> 0 <= o <= 480 -> 480 < o + Z.of_nat n ->
  (forall f, o <= f < 480 -> cap_used (rt_caps s) f = false -> (forall j, o <= j < f -> cap_used (rt_caps s) j = true) ->
     exists caps, kcap_alloc_loop n o s = Ok (f * 4096) (set_rt_caps caps s) /\ length caps = 15%nat /\
       forall j, 0 <= j -> cap_used caps j = (j =? f) || cap_used (rt_caps s) j) /\
  ((forall j, o <= j < 480 -> cap_used (rt_caps s) j = true) -> kcap_alloc_loop n o s = Fault FBounds).
Proof.
  intros Hlen. revert o. induction n as [|n IH]; intros o Ho Hn.
  - lia.
  - cbn [kcap_alloc_loop]. destruct (decide (o < 480)) as [Hlt|Hge].
    + destruct (znth_is_Some (rt_caps s) (o / 32)) as [w Hw].
      { rewrite Hlen. split; [apply Z.div_pos; lia|apply Z.div_lt_upper_bound; lia]. }
      assert (Hu : cap_used (rt_caps s) o = Z.testbit w (o mod 32)) by (unfold cap_used; by rewrite Hw).
      pose proof (Z.mod_pos_bound o 32). erewrite bind_ok by by apply read_ok. rewrite testbit_mask, <-Hu by lia.
      destruct (IH (o + 1)) as [IH1 IH2]; [lia|lia|]. destruct (cap_used (rt_caps s) o) eqn:E; cbn [negb].
      * split.
        -- intros f Hf Hff Hfj. apply IH1; [|done|intros; apply Hfj; lia].
           destruct (decide (f = o)) as [->|]; [congruence|lia].
        -- intros Hj. apply IH2. intros; apply Hj; lia.
      * split; [|intros Hj; rewrite Hj in E by lia; done]. intros f Hf Hff Hfj.
        assert (f = o) as ->.
        { destruct (decide (f = o)) as [|Hne]; [done|]. rewrite Hfj in E by lia. done. }
        exists (zupd (o / 32) (Z.lor w (Z.shiftl 1 (o mod 32))) (rt_caps s)). split; [|split].
        -- unfold bind, modify, ret. by rewrite Z.shiftl_mul_pow2 by lia.
        -- by rewrite length_zupd.
        -- intros j Hj. by apply cap_used_set; [done|lia|done].
    + split; [lia|]. intros _.
      assert (Hnone : znth (rt_caps s) (o / 32) = None).
      { apply znth_None. right. rewrite Hlen. apply Z.div_le_lower_bound; lia. }
      unfold bind, read. by rewrite Hnone.
Qed.

(** Once the library is set up, [kcap_alloc] gives out the least identifier
    that is not in use and marks just this one, so no identifier is given out twice;
    when the first 480 are in use it reads behind its table instead of failing. *)
Theorem kcap_alloc_correct s : rt_ready s = true -> length (rt_caps s) = 15%nat ->
  (forall f, 0 <= f < 480 -> cap_used (rt_caps s) f = false -> (forall j, 0 <= j < f -> cap_used (rt_caps s) j = true) ->
     exists caps, kcap_alloc s = Ok (f * 4096) (set_rt_caps caps s) /\ length caps = 15%nat /\
       forall j, 0 <= j -> cap_used caps j = (j =? f) || cap_used (rt_caps s) j) /\
  ((forall j, 0 <= j < 480 -> cap_used (rt_caps s) j = true) -> kcap_alloc s = Fault FBounds).
Proof.
  intros Hr Hlen. assert (E : kcap_alloc s = kcap_alloc_loop (Z.to_nat CLIST_CAPS) 0 s).
  { unfold kcap_alloc, ksys_init, gets, bind. by rewrite Hr. }
  rewrite E. apply kcap_alloc_loop_spec; [done|lia|]. unfold CLIST_CAPS. lia.
Qed.
End caps.

(** ** The object a new one is made in *)
Section best.
Context {K : Type} `{Sys K}.
Implicit Types (s : root K) (l : list Z) (o f len : Z).

(** An object that memory can be taken from. *)
Definition usable s len o : Prop := exists x, rt_obj s !! o = Some x /\
  ko_type x = OBJ_untyped /\ ko_claimed x = false /\ len <= ko_len x.
Definition kobj_size s o : Z := default 0 (ko_len <$> rt_obj s !! o).
Definition kobj_next s o : option Z := ko_next <$> rt_obj s !! o.

(** [f] is the smallest object of [l] that can be used, or nil. *)
Definition best_of s len l f : Prop :=
  (f = NIL /\ forall o, o ∈ l -> ~ usable s len o) \/
  (f <> NIL /\ f ∈ l /\ usable s len f /\ forall o, o ∈ l -> usable s len o -> kobj_size s f <= kobj_size s o).

Lemma best_skip s len l f o : best_of s len l f -> ~ usable s len o -> best_of s len (l ++ [o]) f.
Proof.
  intros [[-> Hno]|(? & ? & ? & Hmin)] Ho; [left|right]; split_and!; try done; try set_solver.
Qed.

Lemma best_take s len l f o : best_of s len l f -> usable s len o -> o <> NIL ->
  best_of s len (l ++ [o]) (if (f =? NIL) || (kobj_size s o <? kobj_size s f) then o else f).
Proof.
  intros Hb Ho Hnz. destruct ((f =? NIL) || (kobj_size s o <? kobj_size s f)) eqn:E; right.
  - split_and!; [done|set_solver|done|]. intros q [Hq|Hq%list_elem_of_singleton]%elem_of_app Huq; [|subst; lia].
    destruct Hb as [[_ Hno]|(Hf & _ & _ & Hmin)]; [by destruct (Hno q)|]. specialize (Hmin q Hq Huq).
    apply orb_true_iff in E as [E|E]; bdestruct_all; [done|lia].
  - bdestruct_all. destruct Hb as [[-> _]|(Hf & ? & ? & Hmin)]; [done|]. split_and!; [done|set_solver|done|].
    intros q [Hq|Hq%list_elem_of_singleton]%elem_of_app Huq; [by apply Hmin|subst; lia].
Qed.

Lemma kobj_best_spec s l1 l2 o f len fuel : sseg (kobj_next s) o l2 NIL -> (length l2 < fuel)%nat ->
  best_of s len l1 f -> exists f', kobj_best fuel o f len s = Ok f' s /\ best_of s len (l1 ++ l2) f'.
Proof.
  revert o f l1 l2. induction fuel as [|fuel IH]; intros o f l1 l2 Hl Hfuel Hb; [lia|]. cbn [kobj_best].
  destruct l2 as [|a l2]; cbn in Hl.
  { subst o. exists f. by rewrite app_nil_r. }
  destruct Hl as (-> & Ha & n & Hn & Hl). rewrite (proj2 (Z.eqb_neq _ _)) by done.
  unfold kobj_next in Hn. destruct (rt_obj s !! a) as [x|] eqn:Hx; [|done]. injection Hn as Hn.
  unfold get_kobj. erewrite bind_ok by by apply read_ok. rewrite Hn.
  assert (Hskip : ~ usable s len a -> exists f', kobj_best fuel n f len s = Ok f' s /\ best_of s len (l1 ++ a :: l2) f').
  { intros Hno. destruct (IH n f (l1 ++ [a]) l2) as (f' & ? & ?); [done|cbn in Hfuel; lia|by apply best_skip|].
    exists f'. by rewrite <-app_assoc in *. }
  destruct (Z.eqb_spec (ko_type x) OBJ_untyped) as [Ht|Ht]; cbn [negb];
    [|apply Hskip; intros (y & ? & ? & _); congruence].
  destruct (ko_claimed x) eqn:Hc; [apply Hskip; intros (y & ? & _ & ? & _); congruence|].
  destruct (Z.leb_spec len (ko_len x)) as [Hle|Hle]; [|apply Hskip; intros (y & ? & _ & _ & ?); simplify_eq; lia].
  assert (Hu : usable s len a) by by exists x.
  assert (Hcmp : (if f =? NIL then ret true else let* y := get_kobj f in ret (ko_len x <? ko_len y))%c s =
    Ok ((f =? NIL) || (kobj_size s a <? kobj_size s f)) s).
  { destruct (Z.eqb_spec f NIL); [done|]. destruct Hb as [[? _]|(_ & _ & (y & Hy & _) & _)]; [done|].
    unfold get_kobj. erewrite bind_ok by by apply read_ok. unfold kobj_size. by rewrite Hx, Hy. }
  unfold get_kobj in Hcmp. erewrite bind_ok by exact Hcmp. cbn beta.
  destruct (IH n (if (f =? NIL) || (kobj_size s a <? kobj_size s f) then a else f) (l1 ++ [a]) l2) as (f' & ? & ?);
    [done|cbn in Hfuel; lia|by apply best_take|]. exists f'. by rewrite <-app_assoc in *.
Qed.
End best.

(** The search of [kobj_alloc] ends and finds the smallest block of untyped
    memory that is unclaimed and long enough, or nothing when there is none. *)
Theorem kobj_best_correct {K} `{Sys K} (s : root K) l len :
  slist (kobj_next s) (rt_objs s) l ->
  exists f, kobj_best (S (base.size (rt_obj s))) (rt_objs s) NIL len s = Ok f s /\ best_of s len l f.
Proof.
  intros Hl. apply (kobj_best_spec s [] l); [done| |left; set_solver].
  assert (length l <= base.size (rt_obj s))%nat; [|lia].
  eapply slist_count; [|exact Hl]. intros a. unfold kobj_next. by rewrite fmap_is_Some.
Qed.

(** ** The depth of the recursion *)
Section depth.
Context {K : Type} `{Sys K}.
Implicit Types (s : root K).

(** [m] and [m'] are the same while the spare frames are filled up, which
    neither of them ends. *)
Definition same_inside {A} (m m' : M (root K) A) : Prop :=
  forall s, rt_replenish s = true -> m s = m' s /\ forall a s', m s = Ok a s' -> rt_replenish s' = true.

Lemma inside_bind {A B} (m m' : M (root K) A) (k k' : A -> M (root K) B) :
  same_inside m m' -> (forall a, same_inside (k a) (k' a)) -> same_inside (bind m k) (bind m' k').
Proof.
  intros Hm Hk s Hs. destruct (Hm s Hs) as [E Hr]. unfold bind. rewrite <-E.
  destruct (m s) as [a s1| | |]; [|done..]. apply Hk. by eapply Hr.
Qed.
Lemma inside_pure {A} (m : M (root K) A) : (forall s a s', m s = Ok a s' -> s' = s) -> same_inside m m.
Proof. intros Hm s Hs. split; [done|]. by intros a s' ->%Hm. Qed.
Lemma inside_ret {A} (a : A) : same_inside (ret a) (ret a).
Proof. apply inside_pure. by intros s b s' [= _ ->]. Qed.
Lemma inside_get : same_inside get get.
Proof. apply inside_pure. by intros s b s' [= _ ->]. Qed.
Lemma inside_gets {A} (f : root K -> A) : same_inside (gets f) (gets f).
Proof. apply inside_pure. by intros s b s' [= _ ->]. Qed.
Lemma inside_halt {A} w : same_inside (A:=A) (halt w) (halt w).
Proof. by apply inside_pure. Qed.
Lemma inside_nofuel {A} : same_inside (A:=A) nofuel nofuel.
Proof. by apply inside_pure. Qed.
Lemma inside_read {A} f (g : root K -> option A) : same_inside (read f g) (read f g).
Proof. apply inside_pure. unfold read. intros s b s'. destruct (g s); [by intros [= _ ->]|done]. Qed.
Lemma inside_modify (f : root K -> root K) : (forall s, rt_replenish (f s) = rt_replenish s) ->
  same_inside (modify f) (modify f).
Proof. intros Hf s Hs. split; [done|]. intros a s' [= _ <-]. by rewrite Hf. Qed.
Lemma inside_zoom {T A} (part : root K -> T) put (m : M T A) :
  (forall t s, rt_replenish (put t s) = rt_replenish s) -> same_inside (zoom part put m) (zoom part put m).
Proof.
  intros Hp s Hs. split; [done|]. unfold zoom. intros a s'. destruct (m (part s)); try done.
  intros [= _ <-]. by rewrite Hp.
Qed.
Lemma inside_if {A} (b : bool) (m1 m2 k1 k2 : M (root K) A) : same_inside m1 m2 -> same_inside k1 k2 ->
  same_inside (if b then m1 else k1) (if b then m2 else k2).
Proof. by destruct b. Qed.
End depth.

Create HintDb inside discriminated.
Ltac inside :=
  repeat (intros; cbv beta zeta;
    lazymatch goal with
    | |- same_inside (bind _ _) _ => apply inside_bind
    | |- same_inside (if _ then _ else _) _ => apply inside_if
    | |- same_inside (ret _) _ => apply inside_ret
    | |- same_inside get _ => apply inside_get
    | |- same_inside (gets _) _ => apply inside_gets
    | |- same_inside (halt _) _ => apply inside_halt
    | |- same_inside nofuel _ => apply inside_nofuel
    | |- same_inside (read _ _) _ => apply inside_read
    | |- same_inside (modify _) _ => apply inside_modify; by intros []
    | |- same_inside (zoom _ _ _) _ => apply inside_zoom; by intros ? []
    | |- same_inside _ _ => solve [auto with inside nocore]
    end).

Section agreement.
Context {K : Type} `{Sys K}.
Context (rm rm' : Z -> Z -> M (root K) Z) (Hrm : forall len align, same_inside (rm len align) (rm' len align)).

Lemma ksys_init_inside : same_inside (K:=K) ksys_init ksys_init.
Proof. unfold ksys_init, on_kobjs, exit. inside. Qed.
Lemma kcap_alloc_inside : same_inside (K:=K) kcap_alloc kcap_alloc.
Proof.
  unfold kcap_alloc. apply inside_bind; [apply ksys_init_inside|]. intros _. generalize 0.
  induction (Z.to_nat CLIST_CAPS); intros o; cbn [kcap_alloc_loop]; inside.
Qed.
Hint Resolve ksys_init_inside kcap_alloc_inside : inside.
Hint Extern 1 (same_inside (rm _ _) (rm' _ _)) => apply Hrm : inside.

Lemma kobj_pool_alloc_inside : same_inside (kobj_pool_alloc rm) (kobj_pool_alloc rm').
Proof. unfold kobj_pool_alloc, grow_pool, on_kobjs, on_k. inside. Qed.
Hint Resolve kobj_pool_alloc_inside : inside.
Lemma kobj_alloc_new_inside len : same_inside (kobj_alloc_new rm len) (kobj_alloc_new rm' len).
Proof. unfold kobj_alloc_new, kcap_free, put_kobj, on_k. inside. Qed.
Lemma kobj_split_inside o : same_inside (kobj_split rm o) (kobj_split rm' o).
Proof. unfold kobj_split, upd_kobj, get_kobj, put_kobj, on_k. inside. Qed.
Hint Resolve kobj_alloc_new_inside kobj_split_inside : inside.
Lemma kobj_fit_inside n f len : same_inside (kobj_fit rm n f len) (kobj_fit rm' n f len).
Proof. induction n; cbn [kobj_fit]; unfold get_kobj; inside. Qed.
Lemma kobj_best_inside n o f len : same_inside (K:=K) (kobj_best n o f len) (kobj_best n o f len).
Proof. revert o f. induction n; intros o f; cbn [kobj_best]; unfold get_kobj; inside. Qed.
Lemma kobj_len_inside n a b : same_inside (K:=K) (kobj_len n a b) (kobj_len n a b).
Proof. revert a. induction n; intros a; cbn [kobj_len]; inside. Qed.
Hint Resolve kobj_fit_inside kobj_best_inside kobj_len_inside : inside.
Lemma kobj_alloc_inside type n : same_inside (kobj_alloc rm type n) (kobj_alloc rm' type n).
Proof. unfold kobj_alloc, upd_kobj, get_kobj, on_k. inside. Qed.
Hint Resolve kobj_alloc_inside : inside.
Lemma fill_spare_inside n i : same_inside (fill_spare rm n i) (fill_spare rm' n i).
Proof. revert i. induction n; intros i; cbn [fill_spare]; unfold exit; inside. Qed.
End agreement.

Section requests.
Context {K : Type} `{Sys K}.
Implicit Types (s : root K).

Lemma take_spare_inside n i : same_inside (K:=K) (take_spare n i) (take_spare n i).
Proof. revert i. induction n; intros i; cbn [take_spare]; inside. Qed.
Hint Resolve take_spare_inside : inside.

Lemma replenish_inside rm rm' : same_inside (K:=K) (replenish_spares rm) (replenish_spares rm').
Proof. intros s Hs. unfold replenish_spares, gets, bind. rewrite Hs. by apply inside_ret. Qed.
Hint Resolve replenish_inside : inside.

(** A request made while the spare frames are filled up makes no other. *)
Lemma request_inside n n' len align :
  same_inside (request_memory (S n) len align) (request_memory (S n') len align).
Proof. cbn [request_memory]. unfold request_step, exit, on_mem, on_k. inside. Qed.

Lemma bind_ext {A B} (m : M (root K) A) (k k' : A -> M (root K) B) s :
  (forall a s, k a s = k' a s) -> bind m k s = bind m k' s.
Proof. intros Hk. unfold bind. by destruct (m s). Qed.

Lemma replenish_ext rm rm' s : (forall len align, same_inside (rm len align) (rm' len align)) ->
  replenish_spares rm s = replenish_spares rm' s.
Proof.
  intros Hrm. unfold replenish_spares. apply bind_ext. intros [] s1; [done|].
  unfold modify, bind at 1 3. unfold bind at 1 2.
  destruct (fill_spare_inside rm rm' Hrm 3 0 (set_rt_replenish true s1)) as [-> _]; [by destruct s1|done].
Qed.

Lemma request_step_ext rm rm' len align s : (forall len align, same_inside (rm len align) (rm' len align)) ->
  request_step rm len align s = request_step rm' len align s.
Proof.
  intros Hrm. unfold request_step. apply bind_ext. intros cid s1. destruct (cid <? 0); [done|].
  apply bind_ext. intros m s2. destruct (m =? NIL); [done|]. apply bind_ext. intros r s3.
  apply bind_ext. intros e s4. destruct (negb _); [done|]. apply bind_ext. intros _ s5.
  unfold bind. by rewrite (replenish_ext rm rm' s5 Hrm).
Qed.

Lemma request_memory_S n len align s :
  request_memory (S n) len align s = request_step (request_memory n) len align s.
Proof. reflexivity. Qed.

(** C22: The recursion between making objects and requesting memory is two levels
    deep: whatever the state and the request, giving it more levels changes
    nothing. *)
Theorem request_memory_depth n len align s : (2 <= n)%nat ->
  request_memory n len align s = root_request_memory len align s.
Proof.
  intros Hn. destruct n as [|[|n]]; [lia..|].
  unfold root_request_memory. rewrite (request_memory_S (S n)), (request_memory_S 1).
  apply request_step_ext. intros. apply request_inside.
Qed.

(** What a request takes from the spare frames. *)
Lemma take_spare_first c l s : rt_spare s = c :: l -> 0 < c ->
  take_spare 3 0 s = Ok c (set_rt_spare ((-1) :: l) s).
Proof.
  intros Hs Hc. cbn [take_spare]. erewrite bind_ok by (apply read_ok; by rewrite Hs).
  rewrite (proj2 (Z.ltb_lt _ _)) by done. unfold bind, modify, ret. by rewrite Hs.
Qed.

(** When no free range passes the test of the search, a request for memory
    is answered with OK and capability 0 -- the root task's own capability list --
    and a spare frame is lost: the root task returns nil where its caller takes
    negative identifiers for failures. *)
Theorem handle_mem_req_exhausted s P l L len align c rest :
  rt_spare s = c :: rest -> 0 < c -> ranges_rep (rt_mem s) P l L -> ranges_ok L ->
  (2 <= base.size (sp_free P))%nat -> len = PAGE_ALIGN len -> align = PAGE_ALIGN align ->
  (forall x, x ∈ L -> ~ any_fits len align x) ->
  handle_mem_req len align s = Ok (OK, Some CID_CLIST) (set_rt_spare ((-1) :: rest) s).
Proof.
  intros Hs Hc Hr Hok Hsz Hlen Hal Hno. unfold handle_mem_req.
  rewrite <-Hlen, <-Hal, !Z.eqb_refl. cbn [negb]. unfold root_request_memory. cbn [request_memory].
  unfold request_step at 1. unfold bind at 1.
  erewrite bind_ok by by apply (take_spare_first c rest). rewrite (proj2 (Z.ltb_ge _ _)) by lia.
  assert (Hget : addr_range_get_any Head len align (rt_mem s) = Ok NIL (rt_mem s)).
  { pose proof (rseg_size _ _ _ _ (rr_list _ _ _ _ Hr)) as Hlen'.
    destruct (wp_inv _ _ _ (addr_range_get_any_loop_spec (rt_mem s) P [] l [] L
      (S (S (base.size (rg_range (rt_mem s))))) len align Hr eq_refl ltac:(lia) Hok Hsz))
      as (m & s' & Hrun & [(-> & -> & _)|(st & n & K1 & K2 & -> & _ & Hf & _)]).
    - exact Hrun.
    - destruct (Hno (st, n)); [set_solver|done]. }
  unfold on_mem, zoom, bind. cbn [rt_mem set_rt_spare]. rewrite Hget. by destruct s.
Qed.
End requests.

(** *** Witnesses *)
#[export] Instance demo_sys : Sys unit := {|
  obj_create _ _ := ret OK; obj_split _ _ := ret OK; obj_retype _ _ _ := ret OK;
  frame_setup _ _ _ _ := ret OK; frame_map_anywhere _ := ret 0x20000;
  kobj_pool_initial := 0x9000; stale_kobj _ := mk_kobj 0 false 0 0 NIL NIL |}.

Definition demo_root : root unit :=
  mk_root tt (15 :: replicate 14 0) (mk_pool NIL NIL 0 32 ∅ ∅)
    {[ 0x100 := mk_kobj 0x4000 false OBJ_untyped 0x1000 0x200 0x100;
       0x200 := mk_kobj 0x5000 false OBJ_untyped 0x100 NIL 0x200 ]} 0x100 true false demo_ranges [0x6000; 0x7000; 0x8000] false.

Lemma kcap_alloc_correct_witness : rt_ready demo_root = true /\ length (rt_caps demo_root) = 15%nat /\
  exists caps, kcap_alloc demo_root = Ok (4 * 4096) (set_rt_caps caps demo_root).
Proof.
  split; [reflexivity|]. split; [reflexivity|].
  destruct (kcap_alloc_correct demo_root eq_refl eq_refl) as [Hfree _].
  destruct (Hfree 4) as (caps & Hrun & _); [lia|reflexivity| |by exists caps].
  intros j Hj. assert (j = 0 \/ j = 1 \/ j = 2 \/ j = 3) as [->|[->|[->| ->]]] by lia; reflexivity.
Defined.

Lemma kobj_best_correct_witness : exists f,
  slist (kobj_next demo_root) (rt_objs demo_root) [0x100; 0x200] /\
  kobj_best (S (base.size (rt_obj demo_root))) (rt_objs demo_root) NIL 0x80 demo_root = Ok f demo_root /\
  best_of demo_root 0x80 [0x100; 0x200] f.
Proof.
  assert (Hl : slist (kobj_next demo_root) (rt_objs demo_root) [0x100; 0x200]).
  { split_and!; [reflexivity|done|]. exists 0x200. split; [reflexivity|].
    split_and!; [reflexivity|done|]. by exists NIL. }
  destruct (kobj_best_correct demo_root [0x100; 0x200] 0x80 Hl) as (f & H1 & H2).
  exists f. exact (conj Hl (conj H1 H2)).
Defined.

Lemma request_memory_depth_witness :
  request_memory 5 0x1000 0x1000 demo_root = root_request_memory 0x1000 0x1000 demo_root.
Proof. apply (request_memory_depth 5). lia. Defined.

Lemma handle_mem_req_exhausted_witness :
  handle_mem_req 0x1000 0x1000 demo_root =
    Ok (OK, Some CID_CLIST) (set_rt_spare [-1; 0x7000; 0x8000] demo_root).
Proof.
  destruct demo_rep as (P & l & Hr & Hs).
  apply (handle_mem_req_exhausted demo_root P l [(0x60001000, 0x1000)] 0x1000 0x1000 0x6000);
    [reflexivity|lia|exact Hr| |exact Hs|reflexivity|reflexivity|].
  - repeat constructor; cbn; lia.
  - intros x Hx. apply list_elem_of_singleton in Hx as ->. vm_compute. intros E. discriminate E.
Defined.
