(* ===== verification/Crc.v ===== *)
(** * The CRC-32 of lib/crc/crc.c

    The code looks eight bits up at a time in a table.  The reference is the
    usual definition, one bit at a time, with the reflected polynomial of the
    CRC-32; [crc_checksum_correct] shows that the two agree on every input. *)
From S2P Require Import Prelude.

Local Open Scope Z_scope.

Definition poly8_lookup : list Z :=
  [0; 0x77073096; 0xee0e612c; 0x990951ba; 0x076dc419; 0x706af48f;
   0xe963a535; 0x9e6495a3; 0x0edb8832; 0x79dcb8a4; 0xe0d5e91e; 0x97d2d988;
   0x09b64c2b; 0x7eb17cbd; 0xe7b82d07; 0x90bf1d91; 0x1db71064; 0x6ab020f2;
   0xf3b97148; 0x84be41de; 0x1adad47d; 0x6ddde4eb; 0xf4d4b551; 0x83d385c7;
   0x136c9856; 0x646ba8c0; 0xfd62f97a; 0x8a65c9ec; 0x14015c4f; 0x63066cd9;
   0xfa0f3d63; 0x8d080df5; 0x3b6e20c8; 0x4c69105e; 0xd56041e4; 0xa2677172;
   0x3c03e4d1; 0x4b04d447; 0xd20d85fd; 0xa50ab56b; 0x35b5a8fa; 0x42b2986c;
   0xdbbbc9d6; 0xacbcf940; 0x32d86ce3; 0x45df5c75; 0xdcd60dcf; 0xabd13d59;
   0x26d930ac; 0x51de003a; 0xc8d75180; 0xbfd06116; 0x21b4f4b5; 0x56b3c423;
   0xcfba9599; 0xb8bda50f; 0x2802b89e; 0x5f058808; 0xc60cd9b2; 0xb10be924;
   0x2f6f7c87; 0x58684c11; 0xc1611dab; 0xb6662d3d; 0x76dc4190; 0x01db7106;
   0x98d220bc; 0xefd5102a; 0x71b18589; 0x06b6b51f; 0x9fbfe4a5; 0xe8b8d433;
   0x7807c9a2; 0x0f00f934; 0x9609a88e; 0xe10e9818; 0x7f6a0dbb; 0x086d3d2d;
   0x91646c97; 0xe6635c01; 0x6b6b51f4; 0x1c6c6162; 0x856530d8; 0xf262004e;
   0x6c0695ed; 0x1b01a57b; 0x8208f4c1; 0xf50fc457; 0x65b0d9c6; 0x12b7e950;
   0x8bbeb8ea; 0xfcb9887c; 0x62dd1ddf; 0x15da2d49; 0x8cd37cf3; 0xfbd44c65;
   0x4db26158; 0x3ab551ce; 0xa3bc0074; 0xd4bb30e2; 0x4adfa541; 0x3dd895d7;
   0xa4d1c46d; 0xd3d6f4fb; 0x4369e96a; 0x346ed9fc; 0xad678846; 0xda60b8d0;
   0x44042d73; 0x33031de5; 0xaa0a4c5f; 0xdd0d7cc9; 0x5005713c; 0x270241aa;
   0xbe0b1010; 0xc90c2086; 0x5768b525; 0x206f85b3; 0xb966d409; 0xce61e49f;
   0x5edef90e; 0x29d9c998; 0xb0d09822; 0xc7d7a8b4; 0x59b33d17; 0x2eb40d81;
   0xb7bd5c3b; 0xc0ba6cad; 0xedb88320; 0x9abfb3b6; 0x03b6e20c; 0x74b1d29a;
   0xead54739; 0x9dd277af; 0x04db2615; 0x73dc1683; 0xe3630b12; 0x94643b84;
   0x0d6d6a3e; 0x7a6a5aa8; 0xe40ecf0b; 0x9309ff9d; 0x0a00ae27; 0x7d079eb1;
   0xf00f9344; 0x8708a3d2; 0x1e01f268; 0x6906c2fe; 0xf762575d; 0x806567cb;
   0x196c3671; 0x6e6b06e7; 0xfed41b76; 0x89d32be0; 0x10da7a5a; 0x67dd4acc;
   0xf9b9df6f; 0x8ebeeff9; 0x17b7be43; 0x60b08ed5; 0xd6d6a3e8; 0xa1d1937e;
   0x38d8c2c4; 0x4fdff252; 0xd1bb67f1; 0xa6bc5767; 0x3fb506dd; 0x48b2364b;
   0xd80d2bda; 0xaf0a1b4c; 0x36034af6; 0x41047a60; 0xdf60efc3; 0xa867df55;
   0x316e8eef; 0x4669be79; 0xcb61b38c; 0xbc66831a; 0x256fd2a0; 0x5268e236;
   0xcc0c7795; 0xbb0b4703; 0x220216b9; 0x5505262f; 0xc5ba3bbe; 0xb2bd0b28;
   0x2bb45a92; 0x5cb36a04; 0xc2d7ffa7; 0xb5d0cf31; 0x2cd99e8b; 0x5bdeae1d;
   0x9b64c2b0; 0xec63f226; 0x756aa39c; 0x026d930a; 0x9c0906a9; 0xeb0e363f;
   0x72076785; 0x05005713; 0x95bf4a82; 0xe2b87a14; 0x7bb12bae; 0x0cb61b38;
   0x92d28e9b; 0xe5d5be0d; 0x7cdcefb7; 0x0bdbdf21; 0x86d3d2d4; 0xf1d4e242;
   0x68ddb3f8; 0x1fda836e; 0x81be16cd; 0xf6b9265b; 0x6fb077e1; 0x18b74777;
   0x88085ae6; 0xff0f6a70; 0x66063bca; 0x11010b5c; 0x8f659eff; 0xf862ae69;
   0x616bffd3; 0x166ccf45; 0xa00ae278; 0xd70dd2ee; 0x4e048354; 0x3903b3c2;
   0xa7672661; 0xd06016f7; 0x4969474d; 0x3e6e77db; 0xaed16a4a; 0xd9d65adc;
   0x40df0b66; 0x37d83bf0; 0xa9bcae53; 0xdebb9ec5; 0x47b2cf7f; 0x30b5ffe9;
   0xbdbdf21c; 0xcabac28a; 0x53b39330; 0x24b4a3a6; 0xbad03605; 0xcdd70693;
   0x54de5729; 0x23d967bf; 0xb3667a2e; 0xc4614ab8; 0x5d681b02; 0x2a6f2b94;
   0xb40bbe37; 0xc30c8ea1; 0x5a05df1b; 0x2d02ef8d].

(** ** Operations; bytes are integers below 256 *)
Definition crc_start : Z := 0xffffffff.

Definition crc_byte (crc b : Z) : Z :=
  Z.lxor (default 0 (znth poly8_lookup (Z.lxor (u8 crc) b))) (Z.shiftr crc 8).
Fixpoint crc_continue (p : list Z) (crc : Z) : Z :=
  match p with
  | [] => crc
  | b :: p => crc_continue p (crc_byte crc b)
  end.

Definition crc_finish (crc : Z) : Z := Z.lxor crc 0xffffffff.

Definition crc_checksum (p : list Z) : Z := crc_finish (crc_continue p crc_start).

(** ** The reference *)
Definition crc32_poly : Z := 0xedb88320.
(** A division step: the lowest bit is the next coefficient. *)
Definition crc32_bit (x : Z) : Z :=
  if Z.testbit x 0 then Z.lxor (Z.shiftr x 1) crc32_poly else Z.shiftr x 1.
Definition crc32_byte (crc b : Z) : Z := Nat.iter 8 crc32_bit (Z.lxor crc b).
Definition crc32 (p : list Z) : Z := Z.lxor (fold_left crc32_byte p 0xffffffff) 0xffffffff.

(** ** Proofs *)
Section crc.
Implicit Types (x y crc b : Z) (n : nat) (p : list Z).

(** The steps are linear. *)
Lemma crc32_bit_lxor x y : crc32_bit (Z.lxor x y) = Z.lxor (crc32_bit x) (crc32_bit y).
Proof.
  unfold crc32_bit. rewrite Z.lxor_spec, Z.shiftr_lxor.
  destruct (Z.testbit x 0), (Z.testbit y 0); cbn [xorb]; apply Z.bits_inj'; intros n Hn;
    rewrite ?Z.lxor_spec; destruct (Z.testbit (Z.shiftr x 1) n), (Z.testbit (Z.shiftr y 1) n), (Z.testbit crc32_poly n); done.
Qed.
Lemma crc32_bits_lxor n x y :
  Nat.iter n crc32_bit (Z.lxor x y) = Z.lxor (Nat.iter n crc32_bit x) (Nat.iter n crc32_bit y).
Proof. induction n as [|n IH]; [done|]. rewrite !Nat.iter_succ, IH. apply crc32_bit_lxor. Qed.

(** On bits above the lowest ones, they only shift. *)
Lemma crc32_bits_shift n x : 0 <= x -> Nat.iter n crc32_bit (Z.shiftl x (Z.of_nat n)) = x.
Proof.
  intros Hx. revert x Hx. induction n as [|n IH]; intros x Hx; [by rewrite Z.shiftl_0_r|].
  rewrite Nat.iter_succ_r. unfold crc32_bit at 2.
  rewrite Z.shiftl_spec_low by lia. rewrite Z.shiftr_shiftl_l by lia.
  replace (Z.of_nat (S n) - 1) with (Z.of_nat n) by lia. by apply IH.
Qed.

Lemma split_low x : 0 <= x -> x = Z.lxor (u8 x) (Z.shiftl (Z.shiftr x 8) 8).
Proof.
  intros Hx. apply Z.bits_inj'; intros n Hn. unfold u8. rewrite Z.lxor_spec.
  destruct (Z.lt_ge_cases n 8).
  - rewrite Z.mod_pow2_bits_low, Z.shiftl_spec_low by lia. by rewrite xorb_false_r.
  - rewrite Z.mod_pow2_bits_high, Z.shiftl_spec, Z.shiftr_spec by lia. rewrite xorb_false_l. f_equal. lia.
Qed.

(** The table holds what the eight steps make of each byte. *)
Lemma table_ok : forallb (fun i => default 0 (znth poly8_lookup i) =? Nat.iter 8 crc32_bit i) (seqZ 0 256) = true.
Proof. vm_compute. reflexivity. Qed.
Lemma table_entry x : 0 <= x < 256 -> default 0 (znth poly8_lookup x) = Nat.iter 8 crc32_bit x.
Proof.
  intros Hx. pose proof table_ok as Ht. rewrite forallb_forall in Ht. apply Z.eqb_eq, Ht.
  apply list_elem_of_In, elem_of_seqZ. lia.
Qed.

Lemma u8_bound x : 0 <= u8 x < 256.
Proof. unfold u8. apply Z.mod_pos_bound. lia. Qed.
Lemma u8_lxor x y : u8 (Z.lxor x y) = Z.lxor (u8 x) (u8 y).
Proof.
  unfold u8. apply Z.bits_inj'; intros n Hn. rewrite Z.lxor_spec. destruct (Z.lt_ge_cases n 8).
  - by rewrite !Z.mod_pow2_bits_low, Z.lxor_spec by lia.
  - by rewrite !Z.mod_pow2_bits_high by lia.
Qed.
Lemma byte_shift b : 0 <= b < 256 -> Z.shiftr b 8 = 0.
Proof. intros. rewrite Z.shiftr_div_pow2 by lia. by apply Z.div_small. Qed.

Lemma crc_byte_ref crc b : 0 <= crc -> 0 <= b < 256 -> crc_byte crc b = crc32_byte crc b.
Proof.
  intros Hc Hb. unfold crc_byte, crc32_byte.
  assert (Hx : 0 <= Z.lxor crc b) by (apply Z.lxor_nonneg; lia).
  rewrite (split_low (Z.lxor crc b) Hx), crc32_bits_lxor.
  assert (Eu : u8 (Z.lxor crc b) = Z.lxor (u8 crc) b) by (rewrite u8_lxor; f_equal; by apply Z.mod_small).
  rewrite <-Eu, table_entry by apply u8_bound. f_equal.
  rewrite (crc32_bits_shift 8); [|by apply Z.shiftr_nonneg]. by rewrite Z.shiftr_lxor, (byte_shift b), Z.lxor_0_r.
Qed.

Lemma crc32_bit_nonneg x : 0 <= x -> 0 <= crc32_bit x.
Proof.
  intros Hx. assert (0 <= Z.shiftr x 1) by by apply Z.shiftr_nonneg.
  unfold crc32_bit. destruct (Z.testbit x 0); [|done]. apply Z.lxor_nonneg. unfold crc32_poly. lia.
Qed.
Lemma crc32_byte_nonneg crc b : 0 <= crc -> 0 <= b -> 0 <= crc32_byte crc b.
Proof.
  intros Hc Hb. unfold crc32_byte. apply Nat.iter_invariant; [|apply Z.lxor_nonneg; lia].
  apply crc32_bit_nonneg.
Qed.

Lemma crc_continue_ref p crc : 0 <= crc -> Forall (fun b => 0 <= b < 256) p ->
  crc_continue p crc = fold_left crc32_byte p crc.
Proof.
  intros Hc Hp. revert crc Hc. induction Hp as [|b p Hb Hp IH]; intros crc Hc; [done|].
  cbn [crc_continue fold_left]. rewrite crc_byte_ref by done. apply IH, crc32_byte_nonneg; lia.
Qed.
End crc.

(** C23: The checksum computed with the table is the CRC-32 of the bytes, defined
    bit by bit; and it can be computed in pieces, continuing where the last piece
    ended. *)
Theorem crc_checksum_correct p q : Forall (fun b => 0 <= b < 256) p -> Forall (fun b => 0 <= b < 256) q ->
  crc_checksum p = crc32 p /\
  crc_finish (crc_continue q (crc_continue p crc_start)) = crc32 (p ++ q).
Proof.
  intros Hp Hq. unfold crc_checksum, crc32, crc_finish, crc_start.
  assert (Hpq : crc_continue q (crc_continue p 0xffffffff) = crc_continue (p ++ q) 0xffffffff).
  { clear. generalize 0xffffffff. induction p; intros c; cbn; [done|]. apply IHp. }
  rewrite Hpq, !crc_continue_ref; [done|lia|by apply Forall_app|lia|done].
Qed.

(** The check value of the CRC-32: the checksum of the digits 1 to 9. *)
Lemma crc_checksum_correct_witness :
  crc_checksum [0x31; 0x32; 0x33; 0x34; 0x35; 0x36; 0x37; 0x38; 0x39] = 0xcbf43926 /\
  crc_checksum [0x31; 0x32] = crc32 [0x31; 0x32] /\
  crc_finish (crc_continue [0x33] (crc_continue [0x31; 0x32] crc_start)) = crc32 ([0x31; 0x32] ++ [0x33]).
Proof.
  split; [vm_compute; reflexivity|].
  apply (crc_checksum_correct [0x31; 0x32] [0x33]); repeat constructor; lia.
Defined.
