(* ===== verification/Str.v ===== *)
(** * Strings, lib/string/string.c and conv.c

    A [char *] to read is the list of the bytes from where it points to the end
    of its array; a string is closed by a 0, and reading past the array is no value
    ([None], or a fault).  A buffer to write is the state of a computation. *)
From S2P Require Import Prelude.

Local Open Scope Z_scope.
Local Open Scope c_scope.

Definition isspace (c : Z) : bool := (c =? 32) || (c =? 10) || (c =? 9).

Fixpoint strncmp (s1 s2 : list Z) (len : Z) : option bool :=
  match s1, s2 with
  | c1 :: s1, c2 :: s2 =>
    if len <=? 0 then Some true
    else if (c1 =? 0) && (c2 =? 0) then Some true
    else if negb (c1 =? c2) then Some false
    else strncmp s1 s2 (len - 1)
  | _, _ => if len <=? 0 then Some true else None
  end.

Fixpoint strlen (s : list Z) : option Z :=
  match s with
  | [] => None
  | c :: s => if c =? 0 then Some 0 else l ← strlen s; Some (l + 1)
  end.

Definition strcmp (s1 s2 : list Z) : option bool :=
  l1 ← strlen s1; l2 ← strlen s2;
  if l1 =? l2 then strncmp s1 s2 l1 else Some false.

(** ** Writing *)
Abbreviation BM := (M (list Z)).
Definition put_char (i c : Z) : BM unit :=
  let* s := get in
  if (0 <=? i) && (i <? Z.of_nat (length s)) then modify (zupd i (u8 c)) else fail FBounds.

(** The loop of strlcpy, from index [i] of the source on. *)
Fixpoint strlcpy_loop (src : list Z) (i max : Z) : BM Z :=
  if i <? u32 (max - 1) then
    match src with
    | [] => fail FBounds
    | c :: src => if c =? 0 then ret i else put_char i c ;;; strlcpy_loop src (i + 1) max
    end
  else ret i.
Definition strlcpy (src : list Z) (max : Z) : BM Z :=
  let* i := strlcpy_loop src 0 max in
  put_char i 0 ;;;
  ret (i + 1).

(** The digits of a number, least one first: the first loop of printint.  A
    64-bit number has at most 64 digits. *)
Fixpoint digits (fuel : nat) (i base : Z) : list Z :=
  match fuel with
  | O => []
  | S fuel =>
    let d := i / base in
    let i := i mod base in
    (if 9 <? i then 97 + (i - 10) else 48 + i) :: (if 0 <? d then digits fuel d base else [])
  end.

(** [while (c > 0 && d < max)], at [str + at]. *)
Fixpoint put_digits (s : list Z) (at_ d max : Z) : BM Z :=
  match s with
  | [] => ret d
  | c :: s => if d <? max then put_char (at_ + d) c ;;; put_digits s at_ (d + 1) max else ret d
  end.
Definition printint (at_ max i base : Z) : BM Z := put_digits (rev (digits 64 i base)) at_ 0 max.

(** The arguments after the format. *)
Inductive arg := A_int (v : Z) | A_str (s : option (list Z)).
(** [(null)] *)
Definition null_text : list Z := [40; 110; 117; 108; 108; 41; 0].

Fixpoint put_string (s : list Z) (ind max : Z) : BM Z :=
  if ind <? max then
    match s with
    | [] => fail FBounds
    | c :: s => if c =? 0 then ret ind else put_char ind c ;;; put_string s (ind + 1) max
    end
  else ret ind.

Definition take_int (args : list arg) : BM (Z * list arg) :=
  match args with A_int v :: args => ret (v, args) | _ => fail FBounds end.

(** The [switch] of vsnprintf: one conversion [d] at index [ind]. *)
Definition convert (d ind max : Z) (args : list arg) : BM (Z * list arg) :=
  if d =? 37 (* %% *) then put_char ind 37 ;;; ret (ind + 1, args)
  else if d =? 105 (* i *) then
    let* (v, args) := take_int args in
    let i := s32 v in
    let* (i, ind) := if i <? 0 then put_char ind 45 ;;; ret (s32 (- i), ind + 1) else ret (i, ind) in
    if max <=? ind then ret (ind, args)
    else let* n := printint ind (max - ind) (u64 i) 10 in ret (ind + n, args)
  else if d =? 117 (* u *) then
    let* (v, args) := take_int args in
    let* n := printint ind (max - ind) (u32 v) 10 in ret (ind + n, args)
  else if d =? 120 (* x *) then
    let* (v, args) := take_int args in
    let* n := printint ind (max - ind) (u32 v) 16 in ret (ind + n, args)
  else if d =? 98 (* b *) then
    let* (v, args) := take_int args in
    let* n := printint ind (max - ind) (u32 v) 2 in ret (ind + n, args)
  else if d =? 99 (* c *) then
    let* (v, args) := take_int args in
    put_char ind v ;;; ret (ind + 1, args)
  else if d =? 115 (* s *) then
    match args with
    | A_str s :: args => let* ind := put_string (default null_text s) ind max in ret (ind, args)
    | _ => fail FBounds
    end
  else ret (ind, args).

Fixpoint vsnprintf_loop (fmt : list Z) (ind max : Z) (args : list arg) : BM Z :=
  match fmt with
  | [] => fail FBounds
  | c :: fmt =>
    if negb (c =? 0) && (ind <? max) then
      if negb (c =? 37) then put_char ind c ;;; vsnprintf_loop fmt (ind + 1) max args
      else match fmt with
        | [] => fail FBounds
        | d :: fmt =>
          let* (ind, args) := convert d ind max args in
          vsnprintf_loop fmt ind max args
        end
    else ret ind
  end.
Definition vsnprintf (max : Z) (fmt : list Z) (args : list arg) : BM Z :=
  let* ind := vsnprintf_loop fmt 0 max args in
  put_char ind 0 ;;;
  ret ind.
Definition snprintf (max : Z) (fmt : list Z) (args : list arg) : BM Z :=
  let* i := vsnprintf max fmt args in ret (u32 (s32 i)).

(** ** Reading numbers; a [long] has 32 bits *)
Fixpoint skip_space (s : list Z) : option (list Z) :=
  match s with
  | [] => None
  | c :: s' => if isspace c then skip_space s' else Some s
  end.
Fixpoint strtol_digits (s : list Z) (n base : Z) : option Z :=
  match s with
  | [] => None
  | c :: s => if (c =? 0) || isspace c then Some n
              else strtol_digits s (s32 (s32 (n * base) + (c - 48))) base
  end.
Definition strtol (s : list Z) (base : Z) : option Z :=
  s ← skip_space s;
  match s with
  | [] => None
  | c :: s' =>
    if c =? 43 then strtol_digits s' 0 base
    else if c =? 45 then n ← strtol_digits s' 0 base; Some (s32 (- n))
    else strtol_digits s 0 base
  end.

(** ** Comparison *)

(** [s] holds the string [l]. *)
Definition cstring (s l : list Z) : Prop := exists t, s = l ++ 0 :: t /\ Forall (fun c => c <> 0) l.

Lemma strlen_spec s l : cstring s l -> strlen s = Some (Z.of_nat (length l)).
Proof.
  intros (t & -> & Hl). induction Hl as [|c l Hc Hl IH]; [done|]. cbn [app strlen length].
  rewrite (proj2 (Z.eqb_neq _ _)) by done. rewrite IH. cbn. f_equal. lia.
Qed.

Lemma strncmp_spec l1 l2 t1 t2 : Forall (fun c => c <> 0) l1 -> Forall (fun c => c <> 0) l2 ->
  length l1 = length l2 ->
  strncmp (l1 ++ t1) (l2 ++ t2) (Z.of_nat (length l1)) = Some (bool_decide (l1 = l2)).
Proof.
  intros H1. revert l2. induction H1 as [|c1 l1 Hc1 H1 IH]; intros l2 H2 Hlen.
  - destruct l2; [|done]. by destruct t1, t2.
  - destruct H2 as [|c2 l2 Hc2 H2]; [done|]. cbn [app strncmp]. rewrite (proj2 (Z.leb_gt _ _)) by (cbn; lia).
    rewrite (proj2 (Z.eqb_neq c1 0)) by done. cbn [andb]. destruct (Z.eqb_spec c1 c2) as [->|Hne]; cbn [negb].
    + replace (Z.of_nat (length (c2 :: l1)) - 1) with (Z.of_nat (length l1)) by (cbn; lia).
      rewrite IH by (try done; by injection Hlen). f_equal. apply bool_decide_ext. split; [by intros ->|by intros [= ->]].
    + rewrite bool_decide_false; [done|]. by intros [= ].
Qed.

(** [strcmp] tells whether two strings are equal -- true when they are, unlike
    the function of the C library -- and reads neither past its end. *)
Theorem strcmp_correct s1 s2 l1 l2 : cstring s1 l1 -> cstring s2 l2 ->
  strcmp s1 s2 = Some (bool_decide (l1 = l2)).
Proof.
  intros H1 H2. unfold strcmp. rewrite (strlen_spec _ _ H1), (strlen_spec _ _ H2). cbn.
  destruct H1 as (t1 & -> & H1), H2 as (t2 & -> & H2).
  destruct (Z.eqb_spec (Z.of_nat (length l1)) (Z.of_nat (length l2))) as [E|E].
  - apply strncmp_spec; [done..|lia].
  - rewrite bool_decide_false; [done|]. by intros ->.
Qed.

(** ** Buffers *)
Lemma put_char_run i c s : 0 <= i < Z.of_nat (length s) -> put_char i c s = Ok tt (zupd i (u8 c) s).
Proof.
  intros Hi. unfold put_char, get, bind. by rewrite (proj2 (Z.leb_le _ _)), (proj2 (Z.ltb_lt _ _)) by lia.
Qed.

Lemma put_char_at i c pre x post : i = Z.of_nat (length pre) ->
  put_char i c (pre ++ x :: post) = Ok tt (pre ++ u8 c :: post).
Proof.
  intros ->. rewrite put_char_run by (rewrite length_app; cbn; lia). f_equal. unfold zupd.
  rewrite (proj2 (Z.leb_le _ _)), Nat2Z.id by lia. rewrite insert_app_r_alt, Nat.sub_diag by lia. done.
Qed.

Lemma put_digits_fits l : forall at_ d max pre mid post, at_ + d = Z.of_nat (length pre) -> length mid = length l ->
  d + Z.of_nat (length l) <= max ->
  put_digits l at_ d max (pre ++ mid ++ post) = Ok (d + Z.of_nat (length l)) (pre ++ (u8 <$> l) ++ post).
Proof.
  induction l as [|c l IH]; intros at_ d max pre mid post Hpre Hmid Hmax.
  - destruct mid; [|done]. cbn. by rewrite Z.add_0_r.
  - destruct mid as [|x mid]; [done|]. cbn [put_digits]. rewrite (proj2 (Z.ltb_lt _ _)) by (cbn in Hmax; lia).
    cbn [app]. erewrite bind_ok by by apply put_char_at. change (pre ++ u8 c :: mid ++ post) with (pre ++ [u8 c] ++ mid ++ post).
    rewrite app_assoc, (IH at_ (d + 1)); [|rewrite length_app; cbn; lia|by injection Hmid|cbn in Hmax; lia].
    rewrite <-app_assoc. f_equal. cbn [length]. lia.
Qed.

(** ** Numbers *)
Definition digit_value (c : Z) : Z := if 97 <=? c then c - 97 + 10 else c - 48.

Lemma digits_length fuel i base : (length (digits fuel i base) <= fuel)%nat.
Proof. revert i. induction fuel as [|fuel IH]; intros i; cbn; [done|]. destruct (0 <? i / base); cbn; [specialize (IH (i / base))|]; lia. Qed.

(** The digits of a number below [10 ^ n] are at most [n], and stand for it. *)
Lemma digits_10 n fuel i : (n <= fuel)%nat -> (0 < n)%nat -> 0 <= i < 10 ^ Z.of_nat n ->
  (length (digits fuel i 10) <= n)%nat /\ Forall (fun c => 48 <= c < 58) (digits fuel i 10) /\
  foldr (fun c v => (c - 48) + 10 * v) 0 (digits fuel i 10) = i.
Proof.
  revert fuel i. induction n as [|n IH]; intros fuel i Hfu Hn Hi; [lia|]. destruct fuel as [|fuel]; [lia|].
  cbn [digits]. pose proof (Z.mod_pos_bound i 10). pose proof (Z.div_mod i 10).
  rewrite (proj2 (Z.ltb_ge 9 (i mod 10))) by lia. destruct (Z.ltb_spec 0 (i / 10)).
  - destruct n as [|n]; [cbn in Hi; exfalso; pose proof (Z.div_small i 10); lia|].
    destruct (IH fuel (i / 10)) as (Hd1 & Hd2 & Hd3); [lia|lia| |].
    { split; [lia|]. apply Z.div_lt_upper_bound; [lia|]. rewrite <-Z.pow_succ_r by lia. rewrite <-Nat2Z.inj_succ. lia. }
    split; [cbn; lia|]. split; [by constructor; [lia|]|]. cbn [foldr]. rewrite Hd3. lia.
  - assert (0 <= i / 10) by (apply Z.div_pos; lia).
    split; [cbn; lia|]. split; [repeat constructor; lia|]. cbn. lia.
Qed.

Lemma strtol_digits_spec l t n : Forall (fun c => 48 <= c < 58) l -> 0 <= n ->
  fold_left (fun v c => 10 * v + (c - 48)) l n < 2 ^ 31 ->
  strtol_digits (l ++ 0 :: t) n 10 = Some (fold_left (fun v c => 10 * v + (c - 48)) l n).
Proof.
  intros Hl. revert n. induction Hl as [|c l Hc Hl IH]; intros n Hn Hb; [done|]. cbn [app strtol_digits fold_left] in *.
  unfold isspace. rewrite !(proj2 (Z.eqb_neq c _)) by lia. cbn [orb].
  assert (Hmono : forall l m, Forall (fun c => 48 <= c < 58) l -> 0 <= m -> m <= fold_left (fun v c => 10 * v + (c - 48)) l m).
  { clear. intros l m H. revert m. induction H as [|c l Hc H IH]; intros m Hm; cbn; [lia|].
    etransitivity; [|apply IH; lia]. lia. }
  specialize (Hmono l (10 * n + (c - 48)) Hl ltac:(lia)).
  rewrite (s32_small (n * 10)) by lia. rewrite s32_small by lia.
  replace (n * 10 + (c - 48)) with (10 * n + (c - 48)) by lia. by apply IH; [lia|].
Qed.

(** The text of a decimal number. *)
Definition decimal (i : Z) : list Z := rev (digits 64 i 10).

Lemma decimal_spec i : 0 <= i < 2 ^ 31 ->
  (0 < length (decimal i) <= 10)%nat /\ Forall (fun c => 48 <= c < 58) (decimal i) /\
  forall t, strtol_digits (decimal i ++ 0 :: t) 0 10 = Some i.
Proof.
  intros Hi. unfold decimal. destruct (digits_10 10 64 i) as (H1 & H2 & H3); [lia|lia|lia|].
  rewrite length_rev. split; [split; [cbn; lia|done]|]. split; [by apply Forall_rev|]. intros t.
  assert (Hf : fold_left (fun v c => 10 * v + (c - 48)) (rev (digits 64 i 10)) 0 = i).
  { rewrite <-fold_left_rev_right, rev_involutive. etransitivity; [|exact H3]. generalize (digits 64 i 10). intros l.
    induction l as [|c l IH]; cbn; lia. }
  rewrite strtol_digits_spec by (try apply Forall_rev; try done; lia). by rewrite Hf.
Qed.

Lemma decimal_u8 i : 0 <= i < 2 ^ 31 -> u8 <$> decimal i = decimal i.
Proof.
  intros Hi. destruct (decimal_spec i Hi) as (_ & H & _). induction H as [|c l Hc H IH]; [done|]. cbn.
  rewrite IH. f_equal. apply Z.mod_small. lia.
Qed.

Definition signed_text (i : Z) : list Z := if i <? 0 then 45 :: decimal (- i) else decimal i.

Lemma strtol_text i t : - 2 ^ 31 < i < 2 ^ 31 -> strtol (signed_text i ++ 0 :: t) 10 = Some i.
Proof.
  intros Hi. unfold signed_text, strtol. destruct (Z.ltb_spec i 0).
  - destruct (decimal_spec (- i)) as (_ & _ & Hd); [lia|]. cbn. rewrite Hd. cbn. f_equal. rewrite s32_small; lia.
  - destruct (decimal_spec i) as (Hlen & Hd & Hs); [lia|]. specialize (Hs t). destruct (decimal i) as [|c l]; [cbn in Hlen; lia|].
    apply Forall_cons in Hd as [Hc _]. cbn [app skip_space] in *. unfold isspace at 1.
    rewrite !(proj2 (Z.eqb_neq c _)) by lia. cbn -[strtol_digits]. rewrite !(proj2 (Z.eqb_neq c _)) by lia. exact Hs.
Qed.

(** The digits are written and the end is where they end. *)
Lemma printint_fits i pre mid post max : 0 <= i < 2 ^ 31 -> length mid = length (decimal i) ->
  Z.of_nat (length (decimal i)) <= max ->
  printint (Z.of_nat (length pre)) max i 10 (pre ++ mid ++ post) =
    Ok (Z.of_nat (length (decimal i))) (pre ++ decimal i ++ post).
Proof.
  intros Hi Hmid Hmax. unfold printint. rewrite <-(decimal_u8 i Hi) at 2.
  apply (put_digits_fits _ (Z.of_nat (length pre)) 0 max pre mid post); [lia|done|]. done.
Qed.

Lemma printint_at i at_ pre s max : 0 <= i < 2 ^ 31 -> at_ = Z.of_nat (length pre) ->
  (length (decimal i) <= length s)%nat -> Z.of_nat (length (decimal i)) <= max ->
  printint at_ max i 10 (pre ++ s) = Ok (Z.of_nat (length (decimal i)))
    (pre ++ decimal i ++ drop (length (decimal i)) s).
Proof.
  intros Hi -> Hs Hmax. rewrite <-(take_drop (length (decimal i)) s) at 1.
  apply printint_fits; [done|rewrite length_take; lia|done].
Qed.

Lemma convert_i i buf max : - 2 ^ 31 < i < 2 ^ 31 -> 11 <= max < Z.of_nat (length buf) ->
  convert 105 0 max [A_int i] buf =
    Ok (Z.of_nat (length (signed_text i)), []) (signed_text i ++ drop (length (signed_text i)) buf).
Proof.
  intros Hi Hmax. unfold convert, take_int. cbn -[printint put_char]. rewrite (s32_small i) by lia.
  unfold signed_text. destruct (Z.ltb_spec i 0) as [Hneg|Hpos].
  - destruct (decimal_spec (- i)) as (Hlen & _); [lia|]. destruct buf as [|x buf]; [cbn in Hmax; lia|].
    assert (Hput : put_char 0 45 (x :: buf) = Ok tt (45 :: buf)) by exact (put_char_at 0 45 [] x buf eq_refl).
    unfold bind at 1. unfold bind at 1. rewrite Hput. unfold ret at 1. cbv beta iota.
    rewrite (proj2 (Z.leb_gt _ _)) by lia. rewrite (s32_small (- i)) by lia.
    assert (E64 : u64 (- i) = - i) by (apply Z.mod_small; lia). rewrite E64.
    erewrite bind_ok by (apply (printint_at (- i) (0 + 1) [45] buf); [lia|done|cbn in Hmax; lia|lia]).
    unfold ret. cbn [length app drop]. do 2 f_equal. lia.
  - destruct (decimal_spec i) as (Hlen & _); [lia|]. unfold bind at 1, ret at 1. cbv beta iota.
    rewrite (proj2 (Z.leb_gt _ _)) by lia. assert (E64 : u64 i = i) by (apply Z.mod_small; lia). rewrite E64.
    erewrite bind_ok by (apply (printint_at i 0 [] buf); [lia|done|lia|lia]). done.
Qed.

Lemma signed_text_length i : - 2 ^ 31 < i < 2 ^ 31 -> (length (signed_text i) <= 11)%nat.
Proof.
  intros Hi. unfold signed_text. destruct (Z.ltb_spec i 0).
  - destruct (decimal_spec (- i)) as (? & _); [lia|]. cbn [length]. lia.
  - destruct (decimal_spec i) as (? & _); [lia|]. lia.
Qed.

(** C25: Printing a number with [%i] and reading the text back with [strtol] gives
    the number again, negative ones included, for every 32-bit number but the least;
    the length returned is that of the text and nothing behind its end changes. *)
Theorem print_read_round_trip i buf max : - 2 ^ 31 < i < 2 ^ 31 -> 12 <= max < Z.of_nat (length buf) ->
  exists t, vsnprintf max [37; 105; 0] [A_int i] buf = Ok (Z.of_nat (length t)) (t ++ 0 :: drop (S (length t)) buf) /\
    Forall (fun c => c <> 0) t /\ strtol (t ++ 0 :: drop (S (length t)) buf) 10 = Some i.
Proof.
  intros Hi Hmax. pose proof (signed_text_length i Hi) as Hlen. exists (signed_text i).
  split; [|split; [|by apply strtol_text]].
  - assert (Hloop : vsnprintf_loop [37; 105; 0] 0 max [A_int i] buf =
      Ok (Z.of_nat (length (signed_text i))) (signed_text i ++ drop (length (signed_text i)) buf)).
    { cbn [vsnprintf_loop Z.eqb Pos.eqb negb andb]. rewrite (proj2 (Z.ltb_lt 0 max)) by lia. cbn [negb].
      erewrite bind_ok by (apply convert_i; [done|lia]). done. }
    unfold vsnprintf. erewrite bind_ok by exact Hloop.
    destruct (drop (length (signed_text i)) buf) as [|x post] eqn:E.
    { apply (f_equal length) in E. rewrite length_drop in E. cbn in E. lia. }
    erewrite bind_ok by by apply put_char_at. unfold ret. do 2 f_equal. f_equal.
    change (S (length (signed_text i))) with (1 + length (signed_text i))%nat.
    rewrite Nat.add_comm, <-drop_drop, E. done.
  - unfold signed_text. destruct (Z.ltb_spec i 0); [constructor; [done|]|];
      [destruct (decimal_spec (- i)) as (_ & H' & _); [lia|]|destruct (decimal_spec i) as (_ & H' & _); [lia|]];
      (eapply Forall_impl; [exact H'|]; intros ? ?; cbv beta in *; lia).
Qed.

(** ** Bounds *)

(** The arguments a conversion takes are there. *)
Definition conv_args (d : Z) (args : list arg) : option (list arg) :=
  if (d =? 105) || (d =? 117) || (d =? 120) || (d =? 98) || (d =? 99) then
    match args with A_int _ :: args => Some args | _ => None end
  else if d =? 115 then
    match args with
    | A_str s :: args => if existsb (Z.eqb 0) (default null_text s) then Some args else None
    | _ => None
    end
  else Some args.
(** The format is closed, has no [%] at its end, and the arguments are those
    it asks for. *)
Fixpoint fmt_ok (fmt : list Z) (args : list arg) : bool :=
  match fmt with
  | [] => false
  | c :: fmt =>
    if c =? 0 then true
    else if c =? 37 then
      match fmt with
      | [] => false
      | d :: fmt => negb (d =? 0) && match conv_args d args with Some args => fmt_ok fmt args | None => false end
      end
    else fmt_ok fmt args
  end.

(** What a write of at most [max] bytes may do to a buffer. *)
Definition kept (max : Z) (s s' : list Z) : Prop :=
  length s' = length s /\ forall j, max < j -> znth s' j = znth s j.

Section bounds.
Context (max : Z) (Hmax : max < 2 ^ 32).
Implicit Types (s : list Z) (i ind d : Z).

Lemma kept_refl s : kept max s s.
Proof. done. Qed.
Lemma kept_trans s1 s2 s3 : kept max s1 s2 -> kept max s2 s3 -> kept max s1 s3.
Proof. intros [H1 H2] [H3 H4]. split; [congruence|]. intros j Hj. by rewrite H4, H2. Qed.

Lemma put_char_spec i c s : 0 <= i <= max -> max < Z.of_nat (length s) ->
  wp (put_char i c) s (fun _ s' => kept max s s' /\ znth s' i = Some (u8 c)).
Proof.
  intros Hi Hlen. eapply wpe_ok; [apply put_char_run; lia|]. split; [split|].
  - apply length_zupd.
  - intros j Hj. apply znth_zupd_ne. lia.
  - apply znth_zupd_eq. lia.
Qed.

Lemma put_digits_spec l at_ d m s : 0 <= at_ + d -> 0 <= d <= m -> at_ + m <= max -> max < Z.of_nat (length s) ->
  wp (put_digits l at_ d m) s (fun n s' => d <= n <= m /\ kept max s s').
Proof.
  revert d s. induction l as [|c l IH]; intros d s Ha Hd Hm Hlen; cbn [put_digits]; [apply wpe_ret; split; [lia|done]|].
  destruct (Z.ltb_spec d m); [|apply wpe_ret; split; [lia|done]]. apply wpe_bind.
  eapply wpe_mono; [apply put_char_spec; lia|cbn beta|done]. intros _ s1 [Hk _].
  eapply wpe_mono; [apply IH; try lia; rewrite (proj1 Hk); lia|cbn beta|done].
  intros n s2 [Hn Hk']. split; [lia|by eapply kept_trans].
Qed.

Lemma printint_spec i ind m base s : 0 <= ind -> 0 <= m -> ind + m <= max -> max < Z.of_nat (length s) ->
  wp (printint ind m i base) s (fun n s' => 0 <= n <= m /\ kept max s s').
Proof. intros. apply put_digits_spec; lia. Qed.

Lemma put_string_spec l ind s : existsb (Z.eqb 0) l = true -> 0 <= ind <= max -> max < Z.of_nat (length s) ->
  wp (put_string l ind max) s (fun n s' => 0 <= n <= max /\ kept max s s').
Proof.
  revert ind s. induction l as [|c l IH]; intros ind s Hz Hi Hlen; [done|]. cbn [put_string].
  destruct (Z.ltb_spec ind max); [|apply wpe_ret; split; [lia|done]].
  destruct (Z.eqb_spec c 0); [apply wpe_ret; split; [lia|done]|]. apply wpe_bind.
  eapply wpe_mono; [apply put_char_spec; lia|cbn beta|done]. intros _ s1 [Hk _].
  eapply wpe_mono; [apply IH; [|lia|rewrite (proj1 Hk); lia]|cbn beta|done].
  - cbn [existsb] in Hz. apply orb_true_iff in Hz as [Hz|Hz]; [|done]. apply Z.eqb_eq in Hz. congruence.
  - intros r s2 [Hr Hk']. split; [lia|by eapply kept_trans].
Qed.

Lemma number_spec ind v base args s : 0 <= ind <= max -> max < Z.of_nat (length s) ->
  wp (let* n := printint ind (max - ind) v base in ret (ind + n, args))%c s
    (fun (r : Z * list arg) s' => 0 <= r.1 <= max /\ r.2 = args /\ kept max s s').
Proof.
  intros Hi Hlen. apply wpe_bind. eapply wpe_mono; [apply printint_spec; lia|cbn beta|done].
  intros n s1 [Hn Hk]. apply wpe_ret. cbn. split; [lia|done].
Qed.

Lemma char_spec c ind args s : 0 <= ind < max -> max < Z.of_nat (length s) ->
  wp (put_char ind c ;;; ret (ind + 1, args))%c s
    (fun (r : Z * list arg) s' => 0 <= r.1 <= max /\ r.2 = args /\ kept max s s').
Proof.
  intros Hi Hlen. apply wpe_bind. eapply wpe_mono; [apply put_char_spec; lia|cbn beta|done].
  intros _ s1 [Hk _]. apply wpe_ret. cbn. split; [lia|done].
Qed.

Lemma convert_spec d ind args args' s : conv_args d args = Some args' -> 0 <= ind < max -> max < Z.of_nat (length s) ->
  wp (convert d ind max args) s (fun r s' => 0 <= r.1 <= max /\ r.2 = args' /\ kept max s s').
Proof.
  intros Hc Hi Hlen. unfold convert, conv_args in *.
  destruct (Z.eqb_spec d 37) as [->|]; [cbn in Hc; injection Hc as ->; by apply char_spec|].
  destruct (Z.eqb_spec d 105) as [->|]; cbn [orb] in Hc.
  { destruct args as [|[v|] args]; [done| |done]. injection Hc as ->. cbn [take_int]. apply wpe_bind, wpe_ret. cbv beta iota zeta.
    apply wpe_bind. destruct (Z.ltb_spec (s32 v) 0).
    - apply wpe_bind. eapply wpe_mono; [apply put_char_spec; lia|cbn beta|done]. intros _ s1 [Hk _]. apply wpe_ret.
      cbv beta iota. destruct (Z.leb_spec max (ind + 1)); [apply wpe_ret; cbn; split; [lia|done]|].
      eapply wpe_mono; [apply number_spec; [lia|rewrite (proj1 Hk); lia]|cbn beta|done].
      intros r s2 (? & ? & Hk'). split; [done|]. split; [done|]. by eapply kept_trans.
    - apply wpe_ret. cbv beta iota. rewrite (proj2 (Z.leb_gt _ _)) by lia. apply number_spec; lia. }
  assert (Hnum : forall f base, conv_args 105 args = Some args' ->
    wp (let* (v, args) := take_int args in let* n := printint ind (max - ind) (f v) base in ret (ind + n, args))%c s
      (fun r s' => 0 <= r.1 <= max /\ r.2 = args' /\ kept max s s')).
  { intros f base Ha. destruct args as [|[v|] args]; [done| |done]. injection Ha as ->. apply wpe_bind, wpe_ret.
    apply number_spec; lia. }
  destruct (Z.eqb_spec d 117) as [->|]; [by apply Hnum|]. destruct (Z.eqb_spec d 120) as [->|]; [by apply Hnum|].
  destruct (Z.eqb_spec d 98) as [->|]; [by apply Hnum|]. cbn [orb] in Hc. destruct (Z.eqb_spec d 99) as [->|]; cbn [orb] in Hc.
  { destruct args as [|[v|] args]; [done| |done]. injection Hc as ->. apply wpe_bind, wpe_ret. by apply char_spec. }
  destruct (Z.eqb_spec d 115) as [->|].
  - destruct args as [|[|l] args]; [done..|]. destruct (existsb (Z.eqb 0) (default null_text l)) eqn:Hz; [|done].
    injection Hc as ->. apply wpe_bind. eapply wpe_mono; [apply put_string_spec; [done|lia|lia]|cbn beta|done].
    intros r s1 [Hr Hk]. by apply wpe_ret.
  - injection Hc as ->. apply wpe_ret. cbn. split; [lia|done].
Qed.

Lemma vsnprintf_loop_spec k fmt ind args s : (length fmt <= k)%nat -> fmt_ok fmt args = true ->
  0 <= ind <= max -> max < Z.of_nat (length s) ->
  wp (vsnprintf_loop fmt ind max args) s (fun n s' => 0 <= n <= max /\ kept max s s').
Proof.
  revert fmt ind args s. induction k as [|k IH]; intros fmt ind args s Hk Hok Hi Hlen; destruct fmt as [|c fmt]; try done;
    [cbn in Hk; lia|]. cbn [vsnprintf_loop fmt_ok length] in *.
  destruct (Z.eqb_spec c 0) as [->|Hc0]; [apply wpe_ret; by split|]. cbn [negb andb].
  destruct (Z.ltb_spec ind max); [|apply wpe_ret; by split]. cbn [andb].
  assert (Hgo : forall fmt ind args s1, (length fmt <= k)%nat -> fmt_ok fmt args = true -> 0 <= ind <= max -> kept max s s1 ->
    wp (vsnprintf_loop fmt ind max args) s1 (fun n s' => 0 <= n <= max /\ kept max s s')).
  { intros f i a s1 Hf Ha Hi' Hk1. eapply wpe_mono; [apply IH; try done; rewrite (proj1 Hk1); lia|cbn beta|done].
    intros n s2 [? Hk2]. split; [done|by eapply kept_trans]. }
  destruct (Z.eqb_spec c 37) as [->|Hc37]; cbn [negb].
  - destruct fmt as [|d fmt]; [done|]. apply andb_true_iff in Hok as [_ Hok].
    destruct (conv_args d args) as [args'|] eqn:Hconv; [|done]. apply wpe_bind.
    eapply wpe_mono; [apply (convert_spec _ _ _ _ _ Hconv); lia|cbn beta|done].
    intros [ind' a'] s1 (? & E & Hk1). cbn in E. subst a'. apply Hgo; [cbn in Hk; lia|done|done|done].
  - apply wpe_bind. eapply wpe_mono; [apply put_char_spec; lia|cbn beta|done].
    intros _ s1 [Hk1 _]. apply Hgo; [lia|done|lia|done].
Qed.
End bounds.

(** C24: With a well formed format and the arguments it asks for, [vsnprintf] ends,
    closes the text within its first [max + 1] bytes and writes nothing behind them;
    so a buffer needs one byte more than the [max] the caller gives. *)
Theorem vsnprintf_bounds max fmt args s :
  0 <= max < 2 ^ 32 -> max < Z.of_nat (length s) -> fmt_ok fmt args = true ->
  wp (vsnprintf max fmt args) s (fun n s' =>
    0 <= n <= max /\ znth s' n = Some 0 /\ length s' = length s /\ forall j, max < j -> znth s' j = znth s j).
Proof.
  intros Hmax Hlen Hok. unfold vsnprintf. apply wpe_bind.
  eapply wpe_mono; [apply (vsnprintf_loop_spec max (length fmt)); (done || lia)|cbn beta|done].
  intros n s1 [Hn Hk]. apply wpe_bind.
  eapply wpe_mono; [apply (put_char_spec max); [lia|rewrite (proj1 Hk); lia]|cbn beta|done].
  intros _ s2 [Hk2 Hz]. apply wpe_ret. destruct (kept_trans _ _ _ _ Hk Hk2). done.
Qed.

(** A text that fills the [max] bytes is closed behind them: in a buffer of
    just that size the call writes out of bounds. *)
Lemma vsnprintf_overrun : vsnprintf 3 [97; 98; 99; 0] [] [0; 0; 0] = Fault FBounds.
Proof. reflexivity. Qed.

(** *** Witnesses *)
Lemma strcmp_correct_witness : strcmp [97; 0; 98] [97; 0; 99] = Some (bool_decide ([97] = [97])).
Proof.
  apply strcmp_correct; [exists [98]|exists [99]]; (split; [reflexivity|repeat constructor; lia]).
Defined.

Lemma print_read_round_trip_witness : exists t,
  vsnprintf 16 [37; 105; 0] [A_int (-1234)] (replicate 20 7) =
    Ok (Z.of_nat (length t)) (t ++ 0 :: drop (S (length t)) (replicate 20 7)) /\
  Forall (fun c => c <> 0) t /\ strtol (t ++ 0 :: drop (S (length t)) (replicate 20 7)) 10 = Some (-1234).
Proof. apply (print_read_round_trip (-1234) (replicate 20 7) 16); cbn; lia. Defined.

(** [x=%x %s] with 16 bytes for it. *)
Lemma vsnprintf_bounds_witness :
  wp (vsnprintf 16 [120; 61; 37; 120; 32; 37; 115; 0] [A_int 48879; A_str None]) (replicate 17 7) (fun n s' =>
    0 <= n <= 16 /\ znth s' n = Some 0 /\ length s' = length (replicate 17 (7 : Z)) /\
    forall j, 16 < j -> znth s' j = znth (replicate 17 7) j).
Proof. apply vsnprintf_bounds; [lia|cbn; lia|reflexivity]. Defined.
