(* ===== verification/Services.v ===== *)
(** * The root task's services, arm/root/main.c and proc.c

    What the root task does once its memory is set up (Root.v): it makes the endpoints,
    frames and interrupts of its services, starts the bundled processes, and answers
    their requests for memory and for resources.  The services are a list whose indices
    are the pointers to them; [services_vexpress] is the table of the board
    (arm/vexpress-a9/devices.c).  The bundles (the list of names and lengths that the
    build generates) are arguments. *)
From Stdlib Require Import Strings.Ascii Strings.String.
From S2P Require Import Prelude KState Mmu Obj SList Pool Ranges Root Str.

Local Open Scope Z_scope.
Local Open Scope c_scope.

(** ** Texts *)
Definition codes (s : string) : list Z := (fun a => Z.of_N (N_of_ascii a)) <$> list_ascii_of_string s.
(** A text to point to, and one in an array of [n] characters. *)
Definition c_text (s : string) : list Z := codes s ++ [0].
Definition c_array (n : nat) (s : string) : list Z := take n (codes s ++ replicate n 0).

Definition RESOURCE_type_none : Z := 0.
Definition RESOURCE_type_log : Z := 1.
Definition RESOURCE_type_regs : Z := 2.
Definition RESOURCE_type_int : Z := 3.
Definition RESOURCE_type_timer : Z := 4.
Definition RESOURCE_type_serial : Z := 5.
Definition RESOURCE_type_block : Z := 6.
Definition RESOURCE_type_net : Z := 7.
Definition RESOURCE_type_mount : Z := 8.

Record service := mk_service {
  sv_name : list Z; sv_bin : list Z;
  sv_is_device : bool; sv_reg : Z; sv_len : Z; sv_irqn : Z;
  sv_has_regs : bool; sv_has_irq : bool; sv_reg_cid : Z; sv_irq_cid : Z;
  sv_resources : list (Z * option (list Z));
  sv_pid : Z; sv_listen_eid : Z; sv_connect_eid : Z
}.
Definition set_sv_has_regs v x := mk_service (sv_name x) (sv_bin x) (sv_is_device x) (sv_reg x) (sv_len x) (sv_irqn x)
  v (sv_has_irq x) (sv_reg_cid x) (sv_irq_cid x) (sv_resources x) (sv_pid x) (sv_listen_eid x) (sv_connect_eid x).
Definition set_sv_has_irq v x := mk_service (sv_name x) (sv_bin x) (sv_is_device x) (sv_reg x) (sv_len x) (sv_irqn x)
  (sv_has_regs x) v (sv_reg_cid x) (sv_irq_cid x) (sv_resources x) (sv_pid x) (sv_listen_eid x) (sv_connect_eid x).
Definition set_sv_reg_cid v x := mk_service (sv_name x) (sv_bin x) (sv_is_device x) (sv_reg x) (sv_len x) (sv_irqn x)
  (sv_has_regs x) (sv_has_irq x) v (sv_irq_cid x) (sv_resources x) (sv_pid x) (sv_listen_eid x) (sv_connect_eid x).
Definition set_sv_irq_cid v x := mk_service (sv_name x) (sv_bin x) (sv_is_device x) (sv_reg x) (sv_len x) (sv_irqn x)
  (sv_has_regs x) (sv_has_irq x) (sv_reg_cid x) v (sv_resources x) (sv_pid x) (sv_listen_eid x) (sv_connect_eid x).
Definition set_sv_pid v x := mk_service (sv_name x) (sv_bin x) (sv_is_device x) (sv_reg x) (sv_len x) (sv_irqn x)
  (sv_has_regs x) (sv_has_irq x) (sv_reg_cid x) (sv_irq_cid x) (sv_resources x) v (sv_listen_eid x) (sv_connect_eid x).
Definition set_sv_listen_eid v x := mk_service (sv_name x) (sv_bin x) (sv_is_device x) (sv_reg x) (sv_len x) (sv_irqn x)
  (sv_has_regs x) (sv_has_irq x) (sv_reg_cid x) (sv_irq_cid x) (sv_resources x) (sv_pid x) v (sv_connect_eid x).
Definition set_sv_connect_eid v x := mk_service (sv_name x) (sv_bin x) (sv_is_device x) (sv_reg x) (sv_len x) (sv_irqn x)
  (sv_has_regs x) (sv_has_irq x) (sv_reg_cid x) (sv_irq_cid x) (sv_resources x) (sv_pid x) (sv_listen_eid x) v.

(** ** The services of the board
    What is not given is 0; the array of resources has 16 places. *)
Definition new_service (name bin : string) (dev : option (Z * Z * Z)) (rs : list (Z * string)) : service :=
  let '(is_device, (reg, len, irqn)) := match dev with Some d => (true, d) | None => (false, (0, 0, 0)) end in
  mk_service (c_array 32 name) (c_array 256 bin) is_device reg len irqn false false 0 0
    (take 16 (((fun r => (r.1, Some (c_text r.2))) <$> rs) ++ replicate 16 (RESOURCE_type_none, None))) 0 0 0.
Arguments new_service (_ _)%_string_scope _ _.
Definition services_vexpress : list service := [
  new_service "sysreg" "arm/drivers/sysreg-sp810" (Some (0x10000000, 0x1000, 0)) [];
  new_service "serial0" "arm/drivers/serial-pl01x" (Some (0x10009000, 0x1000, 37)) [];
  new_service "sd0" "arm/drivers/mmc-pl18x" (Some (0x10005000, 0x1000, 41))
    [(RESOURCE_type_log, "log"%string); (RESOURCE_type_timer, "timer0"%string)];
  new_service "net0" "arm/drivers/virtio/net" (Some (0x10013000 + 0x200 * 3, 0x200, 32 + 40 + 3))
    [(RESOURCE_type_log, "log"%string); (RESOURCE_type_timer, "timer0"%string)];
  new_service "timer0" "arm/drivers/timer-sp804" (Some (0x10011000, 0x1000, 32 + 2)) [(RESOURCE_type_log, "log"%string)];
  new_service "log" "procs/log" None [(RESOURCE_type_serial, "serial0"%string)];
  new_service "test" "procs/test" None
    [(RESOURCE_type_log, "log"%string); (RESOURCE_type_timer, "timer0"%string); (RESOURCE_type_block, "sd0"%string); (RESOURCE_type_net, "net0"%string)];
  new_service "lfs" "procs/lfs" None
    [(RESOURCE_type_log, "log"%string); (RESOURCE_type_timer, "timer0"%string); (RESOURCE_type_block, "sd0"%string)]
].

(** ** The calls on processes, endpoints and address spaces
    [copy_mem] is memcpy between two mapped places. *)
Class ProcCalls (K : Type) := {
  endpoint_connect : Z -> Z -> M K Z;
  frame_l1_setup : Z -> M K Z;
  l2_map : Z -> Z -> Z -> M K Z;
  map_frame : Z -> Z -> Z -> bool -> M K Z;
  unmap_frame : Z -> Z -> M K Z;
  proc_setup : Z -> Z -> Z -> Z -> M K Z;
  proc_set_priority : Z -> Z -> M K Z;
  proc_start : Z -> Z -> Z -> M K Z;
  intr_init : Z -> Z -> M K Z;
  copy_mem : Z -> Z -> Z -> M K unit
}.

Record task (K : Type) := mk_task { tk_root : root K; tk_services : list service; tk_main_eid : Z }.
Arguments mk_task {K}.
Arguments tk_root {K}.
Arguments tk_services {K}.
Arguments tk_main_eid {K}.

Definition USER_ADDR : Z := 0x20000.

Section services.
Context {K : Type} `{Sys K} `{ProcCalls K}.
Abbreviation TM := (M (task K)).

Definition set_tk_root v (t : task K) : task K := mk_task v (tk_services t) (tk_main_eid t).
Definition set_tk_services v (t : task K) : task K := mk_task (tk_root t) v (tk_main_eid t).
Definition set_tk_main_eid v (t : task K) : task K := mk_task (tk_root t) (tk_services t) v.

Definition on_root {A} (m : M (root K) A) : TM A := zoom tk_root set_tk_root m.
Definition on_calls {A} (m : M K A) : TM A := on_root (on_k m).
Definition stop_with {A} (code : Z) : TM A := halt (Exited code).
Definition get_service (i : nat) : TM service := read FBounds (fun t => tk_services t !! i).
Definition upd_service (i : nat) (f : service -> service) : TM unit :=
  let* x := get_service i in modify (fun t => set_tk_services (<[i := f x]> (tk_services t)) t).

Definition task_request_memory (len align : Z) : TM Z := on_root (root_request_memory len align).
Definition task_kobj_alloc (type n : Z) : TM Z := on_root (kobj_alloc root_request_memory type n).
Definition task_kcap_alloc : TM Z := on_root kcap_alloc.

(** ** proc.c
    [code] is where the bytes of the process begin in the mapped bundle. *)
Definition init_bundled_proc (code priority len : Z) : TM Z :=
  let* code_new := task_request_memory len 0x1000 in
  if code_new <? 0 then stop_with 1 else
  let* stack := task_request_memory 0x1000 0x1000 in
  if stack <? 0 then stop_with 1 else
  let* l1 := task_request_memory 0x4000 0x4000 in
  if l1 <? 0 then stop_with 1 else
  let* l2 := task_request_memory 0x1000 0x1000 in
  if l2 <? 0 then stop_with 1 else
  let* code_va := on_calls (frame_map_anywhere code_new) in
  if code_va =? NIL then stop_with 1 else
  on_calls (copy_mem code_va code len) ;;;
  let* _ := on_calls (unmap_frame code_new code_va) in
  let* r := on_calls (frame_l1_setup l1) in
  if negb (r =? OK) then stop_with 1 else
  let* r := on_calls (l2_map l1 l2 0) in
  if negb (r =? OK) then stop_with 1 else
  let* r := on_calls (map_frame l1 code_new USER_ADDR true) in
  if negb (r =? OK) then stop_with 1 else
  let* r := on_calls (map_frame l1 stack (USER_ADDR - 0x1000) true) in
  if negb (r =? OK) then stop_with 1 else
  let* eid := task_kcap_alloc in
  let* main_eid := gets tk_main_eid in
  let* r := on_calls (endpoint_connect main_eid eid) in
  if negb (r =? OK) then stop_with 1 else
  let* p_cid := task_kobj_alloc OBJ_proc 1 in
  if p_cid <? 0 then stop_with 1 else
  let* clist := task_kobj_alloc OBJ_caplist 1 in
  if clist <? 0 then stop_with 1 else
  let* p_pid := on_calls (proc_setup p_cid l1 clist eid) in
  if p_pid <? 0 then stop_with 1 else
  on_root (kcap_free l1) ;;;
  on_root (kcap_free clist) ;;;
  on_root (kcap_free eid) ;;;
  let* r := on_calls (proc_set_priority p_cid priority) in
  if negb (r =? OK) then stop_with 1 else
  let* r := on_calls (proc_start p_cid USER_ADDR USER_ADDR) in
  if r <? 0 then stop_with 10 else
  ret p_pid.

(** The frame of the registers and the interrupt of a device. *)
Definition init_device (i : nat) : TM unit :=
  let* x := get_service i in
  (if negb (sv_reg x =? 0) then
     let* cid := on_root (create_frame (PAGE_ALIGN_DN (sv_reg x)) (PAGE_ALIGN (sv_len x)) FRAME_DEV) in
     upd_service i (set_sv_reg_cid cid) ;;;
     if cid <? 0 then stop_with 1 else ret tt
   else upd_service i (set_sv_reg_cid (-1))) ;;;
  if 0 <? sv_irqn x then
    let* cid := task_kobj_alloc OBJ_intr 1 in
    if cid <? 0 then stop_with 1
    else
      let* r := on_calls (intr_init cid (sv_irqn x)) in
      if negb (r =? OK) then stop_with 1 else upd_service i (set_sv_irq_cid cid)
  else upd_service i (set_sv_irq_cid (-1)).
Definition init_service (i : nat) : TM unit :=
  let* listen := task_kobj_alloc OBJ_endpoint 1 in
  upd_service i (set_sv_listen_eid listen) ;;;
  if listen <? 0 then stop_with 1
  else
    let* connect := task_kcap_alloc in
    upd_service i (set_sv_connect_eid connect) ;;;
    let* r := on_calls (endpoint_connect listen connect) in
    if negb (r =? OK) then stop_with 1
    else
      let* x := get_service i in
      if sv_is_device x then init_device i else ret tt.
Fixpoint for_each (f : nat -> TM unit) (l : list nat) : TM unit :=
  match l with [] => ret tt | i :: l => f i ;;; for_each f l end.
Definition for_services (f : nat -> TM unit) : TM unit :=
  let* t := get in for_each f (seq 0 (length (tk_services t))).
Definition init_services : TM unit := for_services init_service.

(** One service and the bundled process [p], whose bytes are at [code]. *)
Definition start_service (p : list Z * Z) (code : Z) (i : nat) : TM unit :=
  let* x := get_service i in
  let* same := read FBounds (fun _ => strcmp (sv_bin x) p.1) in
  if negb same then ret tt
  else if 0 <? sv_pid x then ret tt
  else
    let* pid := init_bundled_proc code (if sv_is_device x then 2 else 1) p.2 in
    upd_service i (set_sv_pid pid).
Fixpoint init_idle (l : list (list Z * Z)) (va off : Z) : TM Z :=
  match l with
  | [] => ret off
  | p :: l => let* _ := init_bundled_proc (va + off) 0 p.2 in init_idle l va (u32 (off + p.2))
  end.
Fixpoint init_bundled (l : list (list Z * Z)) (va off : Z) : TM unit :=
  match l with
  | [] => ret tt
  | p :: l => for_services (start_service p (va + off)) ;;; init_bundled l va (u32 (off + p.2))
  end.
Definition init_procs (bundle_pa bundle_len : Z) (idle procs : list (list Z * Z)) : TM unit :=
  init_services ;;;
  let* bundle_cid := on_root (create_frame bundle_pa bundle_len FRAME_MEM) in
  if bundle_cid <? 0 then stop_with 1
  else
    let* bundle_va := on_calls (frame_map_anywhere bundle_cid) in
    if bundle_va =? NIL then stop_with 1
    else
      let* off := init_idle idle bundle_va 0 in
      init_bundled procs bundle_va off ;;;
      let* r := on_calls (unmap_frame bundle_cid bundle_va) in
      if negb (r =? OK) then stop_with 1 else ret tt.

(** ** main.c *)
Definition find_service_pid (pid : Z) : TM (option nat) :=
  gets (fun t => fst <$> list_find (fun x => sv_pid x = pid) (tk_services t)).

(** The name of the resource: the loop has 32 rounds, the array 16 places. *)
Fixpoint resource_name (n : nat) (rs : list (Z * option (list Z))) (type : Z) : TM (option (option (list Z))) :=
  match n with
  | O => ret (Some None)
  | S n =>
    match rs with
    | [] => fail FBounds
    | r :: rs =>
      if r.1 =? RESOURCE_type_none then ret None
      else if r.1 =? type then ret (Some r.2)
      else resource_name n rs type
    end
  end.
Fixpoint find_service_name (l : list service) (i : nat) (name : option (list Z)) : TM (option nat) :=
  match l with
  | [] => ret None
  | x :: l =>
    let* name_ := read FNil (fun _ => name) in
    let* same := read FBounds (fun _ => strncmp (sv_name x) name_ 32) in
    if same : bool then ret (Some i) else find_service_name l (S i) name
  end.
Definition find_service_resource (x : service) (type : Z) : TM (option nat) :=
  let* name := resource_name 32 (sv_resources x) type in
  match name with
  | None => ret None
  | Some name => let* t := get in find_service_name (tk_services t) 0 name
  end.

(** The answer to a request: what it returns, the interrupt number or the registers,
    and the capability that goes with it, if the answer can carry one (0 is none). *)
Inductive gr_result := gr_none | gr_irqn (n : Z) | gr_regs (pa len : Z).
Record answer := mk_answer { an_ret : Z; an_result : gr_result; an_cap : option Z }.

Definition is_shared (type : Z) : bool :=
  existsb (Z.eqb type) [RESOURCE_type_log; RESOURCE_type_timer; RESOURCE_type_block; RESOURCE_type_net; RESOURCE_type_serial].
Definition handle_get_resource (from type : Z) : TM answer :=
  let* s := find_service_pid from in
  match s with
  | None => ret (mk_answer ERR gr_none None)
  | Some i =>
    let* x := get_service i in
    if type =? RESOURCE_type_mount then
      if 0 <=? sv_listen_eid x then
        upd_service i (set_sv_listen_eid 0) ;;;
        ret (mk_answer OK gr_none (Some (sv_listen_eid x)))
      else ret (mk_answer ERR gr_none (Some 0))
    else if is_shared type then
      let* r := find_service_resource x type in
      match r with
      | None => ret (mk_answer ERR gr_none (Some 0))
      | Some j =>
        let* give_cap := task_kcap_alloc in
        let* y := get_service j in
        let* r := on_calls (endpoint_connect (sv_connect_eid y) give_cap) in
        ret (mk_answer r gr_none (Some give_cap))
      end
    else if type =? RESOURCE_type_int then
      if sv_is_device x && negb (sv_has_irq x) then
        upd_service i (set_sv_has_irq true) ;;;
        ret (mk_answer OK (gr_irqn (sv_irqn x)) (Some (sv_irq_cid x)))
      else ret (mk_answer ERR gr_none (Some 0))
    else if type =? RESOURCE_type_regs then
      if sv_is_device x && negb (sv_has_regs x) then
        upd_service i (set_sv_has_regs true) ;;;
        ret (mk_answer OK (gr_regs (sv_reg x) (sv_len x)) (Some (sv_reg_cid x)))
      else ret (mk_answer ERR gr_none (Some 0))
    else ret (mk_answer ERR gr_none (Some 0))
  end.

Inductive proc0_req := PROC0_mem_req (len align : Z) | PROC0_get_resource (type : Z) | PROC0_other.
(** One round of the loop of main: what recv returned, the sender and the message. *)
Definition main_round (got : Z * Z * proc0_req) : TM (option answer) :=
  let '(r, from, rq) := got in
  if negb (r =? OK) then ret None
  else if from =? PID_SIGNAL then ret None
  else match rq with
    | PROC0_mem_req len align =>
      let* (r, cap) := on_root (handle_mem_req len align) in ret (Some (mk_answer r gr_none cap))
    | PROC0_get_resource type => let* a := handle_get_resource from type in ret (Some a)
    | PROC0_other => ret None
    end.
(** The rounds for the messages that come, with their answers. *)
Fixpoint main_loop (l : list (Z * Z * proc0_req)) : TM (list (Z * proc0_req * option answer)) :=
  match l with
  | [] => ret []
  | (r, from, rq) :: l =>
    let* a := main_round (r, from, rq) in
    let* rest := main_loop l in
    ret ((from, rq, a) :: rest)
  end.
Definition main (pool : Z) (info : kernel_info) (idle procs : list (list Z * Z)) (l : list (Z * Z * proc0_req)) :
    TM (list (Z * proc0_req * option answer)) :=
  let* r := on_root (kobj_add_untyped root_request_memory (CID_L1 + Z.shiftl 1 12) 0x1000) in
  if negb (r =? OK) then stop_with 1
  else
    on_root (init_mem pool info) ;;;
    let* eid := task_kobj_alloc OBJ_endpoint 1 in
    modify (set_tk_main_eid eid) ;;;
    if eid <? 0 then stop_with 1
    else
      init_procs (i_bundle info).1 (i_bundle info).2 idle procs ;;;
      main_loop l.
End services.
