(* ===== verification/ServicesProps.v ===== *)
(** * The root task's services: theorems

    The interrupt and the registers of a device are given out once, to the process of its
    service; the other resources are endpoints of the services that the table names. *)
From S2P Require Import Prelude KState SList Pool Ranges Root RootProps Str Services.

Local Open Scope Z_scope.
Local Open Scope c_scope.

(** ** Names *)
Fixpoint text (s : list Z) : list Z :=
  match s with [] => [] | c :: s => if c =? 0 then [] else c :: text s end.

Lemma text_cstring s : 0 ∈ s -> cstring s (text s).
Proof.
  induction s as [|c s IH]; intros Hs; [by apply not_elem_of_nil in Hs|]. cbn [text].
  destruct (Z.eqb_spec c 0) as [->|Hc]; [by exists s|].
  apply elem_of_cons in Hs as [|Hs]; [lia|]. destruct (IH Hs) as (t & Ht & Hf). exists t.
  split; [by rewrite Ht at 1|by constructor].
Qed.

Lemma strncmp_text s1 s2 n : 0 ∈ s1 -> 0 ∈ s2 -> Z.of_nat (length (text s1)) < n ->
  strncmp s1 s2 n = Some (bool_decide (text s1 = text s2)).
Proof.
  revert s2 n. induction s1 as [|c1 s1 IH]; intros s2 n H1 H2 Hn; [by apply not_elem_of_nil in H1|].
  destruct s2 as [|c2 s2]; [by apply not_elem_of_nil in H2|]. cbn [strncmp text] in *.
  rewrite (proj2 (Z.leb_gt _ _)) by lia. destruct (Z.eqb_spec c1 0) as [->|Hc1], (Z.eqb_spec c2 0) as [->|Hc2]; cbn [andb].
  - done.
  - by rewrite (proj2 (Z.eqb_neq 0 c2)).
  - by rewrite (proj2 (Z.eqb_neq c1 0)).
  - destruct (Z.eqb_spec c1 c2) as [->|Hne]; cbn [negb].
    + apply elem_of_cons in H1 as [|H1]; [lia|]. apply elem_of_cons in H2 as [|H2]; [lia|].
      cbn [length] in Hn. rewrite IH by (done || lia). f_equal. apply bool_decide_ext. split; [by intros ->|by intros [= ->]].
    + rewrite bool_decide_false; [done|]. by intros [= ].
Qed.

(** What the table says: the name of the service behind a resource, and the first
    service that has a name. *)
Definition resource_of (x : service) (type : Z) : option (list Z) :=
  match list_find (fun r => r.1 = RESOURCE_type_none \/ r.1 = type) (sv_resources x) with
  | Some (_, (k, Some s)) => if k =? RESOURCE_type_none then None else Some (text s)
  | _ => None
  end.
Definition service_named (l : list service) (name : list Z) : option (nat * service) :=
  list_find (fun y => text (sv_name y) = name) l.
Definition service_of (l : list service) (pid : Z) : option (nat * service) := list_find (fun x => sv_pid x = pid) l.

(** A table as the boards have it: texts are closed, lists of resources end. *)
Definition service_ok (x : service) : Prop :=
  0 ∈ sv_name x /\ Z.of_nat (length (text (sv_name x))) < 32 /\
  exists pre d post, sv_resources x = pre ++ (RESOURCE_type_none, d) :: post /\ (length pre < 32)%nat /\
    Forall (fun r => r.1 <> RESOURCE_type_none /\ exists s, r.2 = Some s /\ 0 ∈ s) pre.

Section props.
Context {K : Type} `{Sys K} `{ProcCalls K}.
Implicit Types (t : task K).

Lemma resource_name_spec n pre d post type t : (length pre < n)%nat -> type <> RESOURCE_type_none ->
  Forall (fun r => r.1 <> RESOURCE_type_none /\ exists s, r.2 = Some s /\ 0 ∈ s) pre ->
  exists r, resource_name n (pre ++ (RESOURCE_type_none, d) :: post) type t = Ok r t /\
  match list_find (fun r => r.1 = RESOURCE_type_none \/ r.1 = type) (pre ++ (RESOURCE_type_none, d) :: post) with
  | Some (_, (k, o)) => if k =? RESOURCE_type_none then r = None else r = Some o /\ exists s, o = Some s /\ 0 ∈ s
  | None => False
  end.
Proof.
  intros Hn Ht Hp. revert n Hn. induction Hp as [|[k o] pre [Hk (s & Hs & Hs0)] Hp IH]; intros [|n] Hn; cbn in Hn; try lia.
  - by exists None.
  - cbn [app resource_name fst snd list_find]. cbn in Hk, Hs. rewrite (proj2 (Z.eqb_neq k _)) by done. destruct (Z.eqb_spec k type) as [->|Hne].
    + exists (Some o). split; [done|]. rewrite decide_True by (by right). rewrite (proj2 (Z.eqb_neq type _)) by done. eauto.
    + destruct (IH n) as (r & Hr & Hm); [lia|]. exists r. split; [done|].
      rewrite decide_False by (intros [?|?]; done). by destruct (list_find _ _) as [[j [k' o']]|].
Qed.

Lemma find_service_name_spec l i s t : Forall service_ok l -> 0 ∈ s ->
  find_service_name l i (Some s) t = Ok ((fun p => i + p.1)%nat <$> service_named l (text s)) t.
Proof.
  intros Hl Hs. revert i. induction Hl as [|x l (H1 & H2 & _) Hl IH]; intros i; [done|]. cbn [find_service_name].
  rewrite (bind_ok _ _ _ s t) by done. rewrite (bind_ok _ _ _ (bool_decide (text (sv_name x) = text s)) t) by (apply read_ok; by apply strncmp_text).
  unfold service_named. cbn [list_find]. case_bool_decide as E.
  - rewrite decide_True by done. unfold ret. cbn. by rewrite Nat.add_0_r.
  - rewrite decide_False by done. rewrite IH. unfold service_named. destruct (list_find _ l) as [[j y]|]; [|done]. cbn. do 2 f_equal. lia.
Qed.

Definition provider t (x : service) (type : Z) : option (nat * service) :=
  n ← resource_of x type; service_named (tk_services t) n.
Lemma find_service_resource_spec x type t : service_ok x -> Forall service_ok (tk_services t) -> type <> RESOURCE_type_none ->
  find_service_resource x type t = Ok (fst <$> provider t x type) t.
Proof.
  intros (_ & _ & pre & d & post & Hrs & Hlen & Hp) Hl Ht. unfold find_service_resource, provider, resource_of. rewrite Hrs.
  destruct (resource_name_spec 32 pre d post type t Hlen Ht Hp) as (r & Hr & Hm). rewrite (bind_ok _ _ _ _ _ Hr).
  destruct (list_find _ _) as [[j [k o]]|]; [|done]. destruct (k =? RESOURCE_type_none).
  - subst r. by destruct o.
  - destruct Hm as (-> & s & -> & Hs). rewrite (bind_ok _ _ _ t t) by done. rewrite find_service_name_spec by done. cbn.
    by destruct (service_named _ _) as [[? ?]|].
Qed.

(** ** One request *)
Record task_ok t : Prop := {
  to_ready : rt_ready (tk_root t) = true;
  to_caps : length (rt_caps (tk_root t)) = 15%nat;
  to_services : Forall service_ok (tk_services t)
}.
(** The identifiers that are left. *)
Definition free_ids t : list Z := filter (fun j => cap_used (rt_caps (tk_root t)) j = false) (seqZ 0 480).


Lemma filter_first (P : Z -> Prop) `{forall x, Decision (P x)} m n f l : 0 <= n -> filter P (seqZ m n) = f :: l ->
  (m <= f < m + n /\ P f) /\ (forall j, m <= j < f -> ~ P j) /\ forall j, j ∈ l -> f < j.
Proof.
  intros Hn. revert m. pattern n. apply natlike_ind; [done| |done]. clear n Hn. intros n Hn IH m.
  rewrite seqZ_cons by lia. replace (Z.pred (Z.succ n)) with n by lia. rewrite filter_cons. case_decide as Hm.
  - intros [= -> <-]. split; [split; [lia|done]|]. split; [intros; lia|]. intros j [_ Hj]%list_elem_of_filter. apply elem_of_seqZ in Hj. lia.
  - intros Hf. destruct (IH _ Hf) as ((? & ?) & Hj & Hl). split; [split; [lia|done]|]. split; [|done].
    intros j Hj'. destruct (decide (j = m)) as [->|]; [done|]. apply Hj. lia.
Qed.

Lemma filter_ext_in {A} (P Q : A -> Prop) `{forall x, Decision (P x)} `{forall x, Decision (Q x)} (l : list A) :
  (forall x, x ∈ l -> P x <-> Q x) -> filter P l = filter Q l.
Proof.
  induction l as [|x l IH]; intros Hl; [done|]. rewrite !filter_cons. rewrite IH by (intros; apply Hl; by right).
  assert (P x <-> Q x) by (apply Hl; by left). repeat case_decide; tauto || done.
Qed.
Lemma filter_all {A} (P : A -> Prop) `{forall x, Decision (P x)} (l : list A) : (forall x, x ∈ l -> P x) -> filter P l = l.
Proof.
  induction l as [|x l IH]; intros Hl; [done|]. rewrite filter_cons_True by (apply Hl; by left). f_equal. apply IH. intros; apply Hl. by right.
Qed.
Lemma kcap_alloc_free t f l : task_ok t -> free_ids t = f :: l ->
  exists caps, let t' := set_tk_root (set_rt_caps caps (tk_root t)) t in
    task_kcap_alloc t = Ok (f * 4096) t' /\ task_ok t' /\ free_ids t' = l.
Proof.
  intros [Hr Hc Hs] Hf. destruct (filter_first _ 0 480 f l ltac:(lia) Hf) as ((Hfb & Hfu) & Hj & Hl).
  destruct (kcap_alloc_correct (tk_root t) Hr Hc) as [Hk _].
  destruct (Hk f) as (caps & Hrun & Hlen & Hu); [lia|done|intros j ?; apply not_false_iff_true, Hj; lia|].
  exists caps. split; [|split].
  - unfold task_kcap_alloc, on_root, zoom. by rewrite Hrun.
  - by split.
  - unfold free_ids in *. cbn [tk_root set_tk_root rt_caps set_rt_caps].
    assert (Heq : filter (fun j => cap_used caps j = false) (seqZ 0 480) = filter (fun j => j <> f) (filter (fun j => cap_used (rt_caps (tk_root t)) j = false) (seqZ 0 480))).
    { rewrite list_filter_filter. apply filter_ext_in. intros j [Hj' _]%elem_of_seqZ. rewrite Hu, orb_false_iff, Z.eqb_neq by done. tauto. }
    rewrite Heq, Hf, filter_cons_False by tauto. apply filter_all. intros j Hj'%Hl. lia.
Qed.

(** What a service has for itself: the answer that gives it away, and what is left. *)
Definition own_resource (type : Z) (x : service) : option (answer * service) :=
  if type =? RESOURCE_type_mount then
    if 0 <=? sv_listen_eid x then Some (mk_answer OK gr_none (Some (sv_listen_eid x)), set_sv_listen_eid 0 x) else None
  else if type =? RESOURCE_type_int then
    if sv_is_device x && negb (sv_has_irq x) then Some (mk_answer OK (gr_irqn (sv_irqn x)) (Some (sv_irq_cid x)), set_sv_has_irq true x) else None
  else if type =? RESOURCE_type_regs then
    if sv_is_device x && negb (sv_has_regs x) then Some (mk_answer OK (gr_regs (sv_reg x) (sv_len x)) (Some (sv_reg_cid x)), set_sv_has_regs true x) else None
  else None.
Definition refused : answer := mk_answer ERR gr_none (Some 0).

(** The requests for what is not shared, without the lookup of an endpoint. *)
Definition own_run (i : nat) (x : service) (type : Z) t : outcome (task K) answer :=
  match own_resource type x with
  | Some (a, x') => Ok a (set_tk_services (<[i := x']> (tk_services t)) t)
  | None => Ok refused t
  end.
Lemma upd_service_run i x f t : tk_services t !! i = Some x -> upd_service i f t = Ok tt (set_tk_services (<[i := f x]> (tk_services t)) t).
Proof. intros Hx. unfold upd_service. by rewrite (bind_ok _ _ _ x t) by by apply read_ok. Qed.

Definition shared_run (x : service) (type : Z) : M (task K) answer :=
  let* r := find_service_resource x type in
  match r with
  | None => ret refused
  | Some j =>
    let* give_cap := task_kcap_alloc in
    let* y := get_service j in
    let* r := on_calls (endpoint_connect (sv_connect_eid y) give_cap) in
    ret (mk_answer r gr_none (Some give_cap))
  end.
Lemma get_resource_eq from type t : handle_get_resource from type t =
  match service_of (tk_services t) from with
  | None => Ok (mk_answer ERR gr_none None) t
  | Some (i, x) => if is_shared type then shared_run x type t else own_run i x type t
  end.
Proof.
  unfold handle_get_resource. rewrite (bind_ok _ _ _ _ t) by reflexivity. unfold service_of.
  destruct (list_find _ _) as [[i x]|] eqn:Hf; [|done]. cbn [fmap option_fmap option_map fst].
  apply list_find_Some in Hf as (Hx & _ & _). rewrite (bind_ok _ _ _ x t) by by apply read_ok.
  unfold own_run, own_resource. destruct (Z.eqb_spec type RESOURCE_type_mount) as [->|].
  { change (is_shared _) with false. cbn match. destruct (0 <=? sv_listen_eid x); [|done]. by rewrite (bind_ok _ _ _ _ _ (upd_service_run _ _ _ _ Hx)). }
  destruct (is_shared type); [done|]. destruct (type =? RESOURCE_type_int).
  { destruct (sv_is_device x && negb (sv_has_irq x)); [|done]. by rewrite (bind_ok _ _ _ _ _ (upd_service_run _ _ _ _ Hx)). }
  destruct (type =? RESOURCE_type_regs); [|done].
  destruct (sv_is_device x && negb (sv_has_regs x)); [|done]. by rewrite (bind_ok _ _ _ _ _ (upd_service_run _ _ _ _ Hx)).
Qed.

(** ** Tables that differ in what is given away *)
Definition given_less (x x' : service) : Prop :=
  sv_name x' = sv_name x /\ sv_pid x' = sv_pid x /\ sv_resources x' = sv_resources x /\ sv_is_device x' = sv_is_device x /\
  sv_irqn x' = sv_irqn x /\ sv_reg x' = sv_reg x /\ sv_len x' = sv_len x /\
  sv_irq_cid x' = sv_irq_cid x /\ sv_reg_cid x' = sv_reg_cid x /\ sv_connect_eid x' = sv_connect_eid x /\
  (sv_has_irq x = true -> sv_has_irq x' = true) /\ (sv_has_regs x = true -> sv_has_regs x' = true).
#[export] Instance given_less_pre : PreOrder given_less.
Proof. split; [intros x; by split_and!|]. unfold given_less. intros x y z H1 H2. decompose [and] H1. decompose [and] H2. split_and!; (congruence || auto). Qed.
Definition later (l l' : list service) : Prop := Forall2 given_less l l'.
Lemma later_insert l i x x' : l !! i = Some x -> given_less x x' -> later l (<[i := x']> l).
Proof.
  intros Hx Hg. apply Forall2_same_length_lookup. split; [by rewrite length_insert|]. intros j y z Hy Hz.
  destruct (decide (j = i)) as [->|Hne].
  - rewrite list_lookup_insert_eq in Hz by by eapply lookup_lt_Some. by simplify_eq.
  - rewrite list_lookup_insert_ne in Hz by done. by simplify_eq.
Qed.
Lemma own_given type x a x' : own_resource type x = Some (a, x') -> given_less x x'.
Proof. unfold own_resource, given_less. intros Ho. repeat case_match; simplify_eq; by split_and!. Qed.
Lemma later_service_of l l' pid i x : later l l' -> service_of l pid = Some (i, x) -> exists x', service_of l' pid = Some (i, x') /\ given_less x x'.
Proof.
  intros Hl (Hx & Hp & Hj)%list_find_Some. destruct (Forall2_lookup_l _ _ _ _ _ Hl Hx) as (x' & Hx' & Hg). exists x'. split; [|done].
  apply list_find_Some. split; [done|]. split; [destruct Hg as (_ & -> & _); done|]. intros j y' Hy' Hlt.
  destruct (Forall2_lookup_r _ _ _ _ _ Hl Hy') as (y & Hy & Hg'). destruct Hg' as (_ & -> & _). by eapply Hj.
Qed.

(** What is given to one process only. *)
Definition exclusive (type : Z) : Prop := type = RESOURCE_type_int \/ type = RESOURCE_type_regs.
Lemma own_taken type x a x' : exclusive type -> own_resource type x = Some (a, x') -> own_resource type x' = None.
Proof. unfold own_resource. intros [-> | ->] Ho; cbn in *; repeat case_match; simplify_eq; cbn in *; by destruct (sv_is_device x). Qed.
Lemma later_taken type x x' : exclusive type -> given_less x x' -> own_resource type x = None -> own_resource type x' = None.
Proof.
  unfold own_resource. intros He (_ & _ & _ & Hd & _ & _ & _ & _ & _ & _ & Hi & Hr). destruct He as [-> | ->].
  - change (RESOURCE_type_int =? RESOURCE_type_mount) with false. rewrite Z.eqb_refl, Hd. destruct (sv_is_device x); [|done].
    destruct (sv_has_irq x); [by rewrite Hi|done].
  - change (RESOURCE_type_regs =? RESOURCE_type_mount) with false. change (RESOURCE_type_regs =? RESOURCE_type_int) with false.
    rewrite Z.eqb_refl, Hd. destruct (sv_is_device x); [|done]. destruct (sv_has_regs x); [by rewrite Hr|done].
Qed.
Lemma later_own type x x' a y : exclusive type -> given_less x x' -> own_resource type x' = Some (a, y) -> exists y0, own_resource type x = Some (a, y0).
Proof.
  intros He Hg Ho. destruct (own_resource type x) as [[a0 y0]|] eqn:Hx; [|by rewrite (later_taken type x x') in Ho].
  exists y0. do 2 f_equal. destruct Hg as (_ & _ & _ & Hd & H1 & H2 & H3 & H4 & H5 & _).
  unfold own_resource in *. destruct He as [-> | ->]; cbn in *; repeat case_match; simplify_eq; congruence.
Qed.

(** Only the table and the requests for what a device has matter here: an answer that
    gives something away is that of the table. *)
Definition gave from rq (a : option answer) (l l' : list service) : Prop :=
  later l l' /\ forall type an, exclusive type -> rq = PROC0_get_resource type -> a = Some an -> an_ret an = OK ->
    exists i x x', service_of l from = Some (i, x) /\ own_resource type x = Some (an, x') /\ service_of l' from = Some (i, x').

Lemma wlp_on_root {A} (m : M (root K) A) t (Q : A -> task K -> Prop) : (forall a r, Q a (set_tk_root r t)) -> wlp (on_root m) t Q.
Proof. unfold wlp, on_root, zoom. intros HQ. destruct (m _); done || apply HQ. Qed.

Lemma shared_run_keeps x type t : wlp (shared_run x type) t (fun _ t' => tk_services t' = tk_services t).
Proof.
  assert (Hname : forall l i n t, wlp (find_service_name l i n) t (fun _ t' => t' = t)).
  { induction l as [|y l IH]; intros i n u; cbn [find_service_name]; [by apply wlp_ret|].
    apply wlp_bind, wlp_read. intros s _. apply wlp_bind, wlp_read. intros [] _; [by apply wlp_ret|apply IH]. }
  assert (Hres : forall n rs t, wlp (resource_name n rs type) t (fun _ t' => t' = t)).
  { induction n as [|n IH]; intros rs u; cbn [resource_name]; [by apply wlp_ret|].
    destruct rs as [|r rs]; [by apply wlp_fail|]. repeat case_match; first [by apply wlp_ret|apply IH]. }
  unfold shared_run, find_service_resource. apply wlp_bind, wlp_bind. eapply wlp_mono; [apply Hres|]. intros [n|] ? ->; cbn beta match.
  - apply wlp_bind, wlp_get. eapply wlp_mono; [apply Hname|]. intros [j|] ? ->; cbn beta match; [|by apply wlp_ret].
    apply wlp_bind. apply wlp_on_root. intros f r. apply wlp_bind, wlp_read. intros y _.
    apply wlp_bind. apply wlp_on_root. intros a r'. by apply wlp_ret.
  - by repeat apply wlp_ret.
Qed.

Lemma main_round_gave r from rq t : wlp (main_round (r, from, rq)) t (fun a t' => gave from rq a (tk_services t) (tk_services t')).
Proof.
  assert (Hskip : forall a t', tk_services t' = tk_services t -> (forall type, rq = PROC0_get_resource type -> exclusive type ->
    forall an, a = Some an -> an_ret an <> OK) -> gave from rq a (tk_services t) (tk_services t')).
  { intros a t' -> Hn. split; [by apply Forall2_same_length_lookup; split; [|intros; simplify_eq]|].
    intros type an He Hr Ha Hok. by destruct (Hn type Hr He an Ha). }
  unfold main_round. destruct (r =? OK); cbn [negb]; [|by apply wlp_ret, Hskip].
  destruct (from =? PID_SIGNAL); [by apply wlp_ret, Hskip|]. destruct rq as [len align|type|]; [| |by apply wlp_ret, Hskip].
  - apply wlp_bind, wlp_on_root. intros [r' cap] k. by apply wlp_ret, Hskip.
  - apply wlp_bind. unfold wlp at 1. rewrite get_resource_eq. destruct (service_of _ from) as [[i x]|] eqn:Hf.
    + destruct (is_shared type) eqn:Hsh.
      * pose proof (shared_run_keeps x type t) as Hs. unfold wlp in Hs. destruct (shared_run x type t) as [a t'| | |]; try done.
        apply wlp_ret, Hskip; [done|]. by intros type' [= <-] [-> | ->].
      * unfold own_run. destruct (own_resource type x) as [[a x']|] eqn:Ho.
        -- apply wlp_ret. cbn [tk_services set_tk_services]. apply list_find_Some in Hf as Hf'. destruct Hf' as (Hx & Hp & Hj).
           assert (Hl : later (tk_services t) (<[i := x']> (tk_services t))) by (eapply later_insert; [done|by eapply own_given]).
           split; [done|]. intros type' an He [= <-] [= <-] _. exists i, x, x'. split; [done|]. split; [done|].
           destruct (later_service_of _ _ _ _ _ Hl Hf) as (x2 & Hx2 & _). rewrite Hx2. do 2 f_equal.
           apply list_find_Some in Hx2 as (Hx2 & _ & _). rewrite list_lookup_insert_eq in Hx2 by by eapply lookup_lt_Some. by injection Hx2.
        -- apply wlp_ret, Hskip; [done|]. by intros type' _ _ an [= <-].
    + apply wlp_ret, Hskip; [done|]. by intros type' _ _ an [= <-].
Qed.

(** ** Any requests, in any order *)
Definition owned l from type (a : answer) : Prop := exists k x x', service_of l from = Some (k, x) /\ own_resource type x = Some (a, x').
(** The place [i] of the answers is one that gives [type] to [from]. *)
Definition given (out : list (Z * proc0_req * option answer)) from type (i : nat) (a : answer) : Prop :=
  out !! i = Some (from, PROC0_get_resource type, Some a) /\ an_ret a = OK.
Definition given_once l out : Prop := forall from type, exclusive type ->
  (forall i j a b, given out from type i a -> given out from type j b -> i = j) /\
  forall i a, given out from type i a -> owned l from type a.

Lemma owned_back l l' from type a : exclusive type -> later l l' -> owned l' from type a -> owned l from type a.
Proof.
  intros He Hl (k & x' & y & Hx' & Ho). destruct (service_of l from) as [[k0 x]|] eqn:Hx.
  - destruct (later_service_of _ _ _ _ _ Hl Hx) as (x2 & Hx2 & Hg). rewrite Hx' in Hx2. injection Hx2 as <- <-.
    destruct (later_own type x x' a y He Hg Ho) as [y0 Hy0]. by exists k, x, y0.
  - exfalso. apply list_find_None in Hx. apply list_find_Some in Hx' as (Hk & Hp & _).
    destruct (Forall2_lookup_r _ _ _ _ _ Hl Hk) as (x & Hx0 & _ & Hpid & _). apply (Forall_lookup_1 _ _ _ _ Hx Hx0). congruence.
Qed.

Lemma given_once_cons from rq a l l' out : gave from rq a l l' -> given_once l' out -> given_once l ((from, rq, a) :: out).
Proof.
  intros [Hl Hg] Ho from' type He. destruct (Ho from' type He) as [Ho1 Ho2].
  assert (Hhead : forall b, given ((from, rq, a) :: out) from' type 0 b -> owned l from' type b /\ forall i c, ~ given out from' type i c).
  { intros b [H1 H2]. injection H1 as -> -> ->. destruct (Hg type b He eq_refl eq_refl H2) as (k & x & x' & Hx & Hown & Hx').
    split; [by exists k, x, x'|]. intros i c Hc. destruct (Ho2 i c Hc) as (k' & z & z' & Hz & Hown'). rewrite Hx' in Hz. injection Hz as <- <-.
    by rewrite (own_taken type x b x') in Hown'. }
  split.
  - intros [|i] [|j] b c Hb Hc; [done| | |f_equal; by eapply Ho1].
    + destruct (Hhead b Hb) as [_ Hno]. by destruct (Hno j c).
    + destruct (Hhead c Hc) as [_ Hno]. by destruct (Hno i b).
  - intros [|i] b Hb; [by apply Hhead|]. eapply owned_back; [done..|]. by eapply (Ho2 i b).
Qed.

Lemma main_loop_once l t : wlp (main_loop l) t (fun out _ => given_once (tk_services t) out).
Proof.
  revert t. induction l as [|[[r from] rq] l IH]; intros t; cbn [main_loop].
  - apply wlp_ret. intros from type He. split; [by intros ???? [? _]|by intros ?? [? _]].
  - apply wlp_bind. eapply wlp_mono; [apply main_round_gave|]. cbn beta. intros a t1 Hg.
    apply wlp_bind. eapply wlp_mono; [apply IH|]. cbn beta. intros out t2 Ho. apply wlp_ret. by eapply given_once_cons.
Qed.

(** ** Requests for resources are answered *)
Variable connect_returns : forall a b (k : K), exists r k', endpoint_connect a b k = Ok r k'.

(** What the lookup of a service ends with. *)
Definition connected t (x : service) (type : Z) (a : answer) t' : Prop :=
  match provider t x type with
  | None => a = refused /\ t' = t
  | Some (_, y) => exists f l caps r k, free_ids t = f :: l /\ a = mk_answer r gr_none (Some (f * 4096)) /\
      endpoint_connect (sv_connect_eid y) (f * 4096) (rt_k (tk_root t)) = Ok r k /\
      t' = set_tk_root (set_rt_k k (set_rt_caps caps (tk_root t))) t /\ free_ids t' = l
  end.
Lemma shared_run_spec t x type : task_ok t -> service_ok x -> type <> RESOURCE_type_none -> free_ids t <> [] ->
  wp (shared_run x type) t (fun a t' => task_ok t' /\ connected t x type a t').
Proof.
  intros Ht Hx Hty Hf. unfold shared_run, connected. apply wpe_bind. eapply wpe_ok; [by apply find_service_resource_spec; [|apply Ht|]|].
  destruct (provider t x type) as [[j y]|] eqn:Hy; [|by apply wpe_ret]. cbn match.
  destruct (free_ids t) as [|f l] eqn:Hfr; [done|]. destruct (kcap_alloc_free t f l Ht Hfr) as (caps & Hrun & Hok & Hl).
  apply wpe_bind. eapply wpe_ok; [exact Hrun|]. cbn beta.
  assert (Hsv : tk_services t !! j = Some y).
  { unfold provider in Hy. destruct (resource_of x type); [|done]. by apply list_find_Some in Hy as (? & _ & _). }
  apply wpe_bind. eapply wpe_read; [exact Hsv|]. destruct (connect_returns (sv_connect_eid y) (f * 4096) (rt_k (tk_root t))) as (r & k & Hc).
  apply wpe_bind. eapply wpe_ok; [unfold on_calls, on_root, on_k, zoom; cbn [tk_root set_tk_root rt_k set_rt_caps]; by rewrite Hc|].
  apply wpe_ret. split; [by destruct Hok; split|]. by exists f, l, caps, r, k.
Qed.

Definition shared_req (rq : proc0_req) : bool := match rq with PROC0_get_resource type => is_shared type | _ => false end.
Definition mem_req (rq : proc0_req) : bool := match rq with PROC0_mem_req _ _ => true | _ => false end.
Lemma is_shared_some type : is_shared type = true -> type <> RESOURCE_type_none.
Proof. by intros Hs ->. Qed.
Lemma service_ok_later l l' : later l l' -> Forall service_ok l -> Forall service_ok l'.
Proof.
  intros Hl Ho. apply Forall_lookup. intros i x' Hx'. destruct (Forall2_lookup_r _ _ _ _ _ Hl Hx') as (x & Hx & Hn & _ & Hr & _).
  destruct (Forall_lookup_1 _ _ _ _ Ho Hx) as (? & ? & ?). unfold service_ok. by rewrite Hn, Hr.
Qed.
Lemma service_of_lookup l pid i x : service_of l pid = Some (i, x) -> l !! i = Some x.
Proof. by intros (? & _ & _)%list_find_Some. Qed.

Lemma main_round_returns r from rq t : task_ok t -> mem_req rq = false -> (shared_req rq = true -> free_ids t <> []) ->
  wp (main_round (r, from, rq)) t (fun _ t' => task_ok t' /\
    (length (free_ids t) <= length (free_ids t') + if shared_req rq then 1 else 0)%nat).
Proof.
  intros Ht Hm Hs. unfold main_round. destruct (r =? OK); cbn [negb]; [|apply wpe_ret; split; [done|lia]].
  destruct (from =? PID_SIGNAL); [apply wpe_ret; split; [done|lia]|]. destruct rq as [|type|]; [done| |apply wpe_ret; split; [done|lia]].
  cbn [shared_req] in *. apply wpe_bind. unfold wpe at 1. rewrite get_resource_eq.
  destruct (service_of _ from) as [[i x]|] eqn:Hx; [|apply wpe_ret; split; [done|lia]].
  pose proof (to_services _ Ht) as Hsv. apply service_of_lookup in Hx as Hi. destruct (is_shared type) eqn:Hsh.
  - assert (Hw := shared_run_spec t x type Ht (Forall_lookup_1 _ _ _ _ Hsv Hi) (is_shared_some _ Hsh) (Hs eq_refl)).
    unfold wpe in Hw. destruct (shared_run x type t) as [a t'| | |]; try done. destruct Hw as [Hok Hc]. apply wpe_ret. split; [done|].
    unfold connected in Hc. destruct (provider t x type) as [[j y]|]; [|destruct Hc as [_ ->]; lia].
    destruct Hc as (f & l & caps & r' & k & Hf & _ & _ & _ & Hl). rewrite Hf, Hl. cbn. lia.
  - unfold own_run. destruct (own_resource type x) as [[a x']|] eqn:Ho; apply wpe_ret; [|split; [done|lia]].
    destruct Ht. split; [|unfold free_ids; cbn; lia]. split; [done..|]. cbn.
    eapply service_ok_later; [|done]. eapply later_insert; [done|by eapply own_given].
Qed.

Definition lookups (l : list (Z * Z * proc0_req)) : nat := length (filter (fun e => shared_req e.2 = true) l).
Lemma main_loop_returns l t : task_ok t -> Forall (fun e => mem_req e.2 = false) l -> (lookups l <= length (free_ids t))%nat ->
  wp (main_loop l) t (fun _ t' => task_ok t').
Proof.
  intros Ht Hl. revert t Ht. induction Hl as [|[[r from] rq] l Hm Hl IH]; intros t Ht Hn; cbn [main_loop]; [by apply wpe_ret|].
  unfold lookups in *. rewrite filter_cons in Hn. cbn [snd] in *. apply wpe_bind.
  eapply wpe_mono; [apply main_round_returns; [done|done|]| |done].
  - intros Hsh. rewrite decide_True in Hn by done. destruct (free_ids t); [cbn in Hn; lia|done].
  - cbn beta. intros a t1 [Ht1 Hn1]. apply wpe_bind. eapply wpe_mono; [apply IH; [done|]| |done].
    + destruct (shared_req rq); [rewrite decide_True in Hn by done|rewrite decide_False in Hn by done]; cbn in Hn; lia.
    + cbn beta. intros out t2 Ht2. by apply wpe_ret.
Qed.

(** Whatever the root task is asked and in whatever order: the interrupt and the
    registers of a device are given out at most once, to the process of the service that
    has the device, and what is given is the capability made for it.  Requests for
    resources are all answered, as long as there are identifiers for the endpoints
    they look up. *)
Theorem resources_given_once (l : list (Z * Z * proc0_req)) t :
  (forall out t', main_loop l t = Ok out t' -> given_once (tk_services t) out) /\
  (task_ok t -> Forall (fun e => mem_req e.2 = false) l -> (lookups l <= length (free_ids t))%nat ->
   exists out t', main_loop l t = Ok out t' /\ task_ok t').
Proof.
  split.
  - intros out t' Hrun. exact (wlp_ok _ _ _ _ _ (main_loop_once l t) Hrun).
  - intros Ht Hl Hn. exact (wp_inv _ _ _ (main_loop_returns l t Ht Hl Hn)).
Qed.

(** A request of a service for the log, a timer, a disk, the network or a serial line is
    answered with a connection to the first service of the name that the table has for
    it, under an identifier that was free, and is refused when the table has none. *)
Theorem resource_connected from type t i x : task_ok t -> service_of (tk_services t) from = Some (i, x) ->
  is_shared type = true -> free_ids t <> [] ->
  wp (handle_get_resource from type) t (fun a t' => task_ok t' /\ connected t x type a t').
Proof.
  intros Ht Hx Hs Hf. unfold wpe. rewrite get_resource_eq, Hx, Hs.
  apply (shared_run_spec t x type); [done| |by apply is_shared_some|done].
  exact (Forall_lookup_1 _ _ _ _ (to_services _ Ht) (service_of_lookup _ _ _ _ Hx)).
Qed.
End props.
Arguments task_ok {K}.
Arguments free_ids {K}.

(** ** The board, with its services started as the processes 2 to 9 *)
#[export] Instance demo_calls : ProcCalls unit := {|
  endpoint_connect _ _ := ret OK; frame_l1_setup _ := ret OK; l2_map _ _ _ := ret OK; map_frame _ _ _ _ := ret OK;
  unmap_frame _ _ := ret OK; proc_setup _ _ _ _ := ret 2; proc_set_priority _ _ := ret OK; proc_start _ _ _ := ret OK;
  intr_init _ _ := ret OK; copy_mem _ _ _ := ret tt |}.
Lemma demo_connects a b (k : unit) : exists r k', endpoint_connect a b k = Ok r k'.
Proof. by exists OK, k. Qed.
Definition demo_services : list service := imap (fun i x =>
  let n := Z.of_nat i in set_sv_pid (2 + n) (set_sv_listen_eid (0x10000 + n) (set_sv_connect_eid (0x20000 + n)
    (set_sv_reg_cid (0x30000 + n) (set_sv_irq_cid (0x40000 + n) x))))) services_vexpress.
Definition demo_task : task unit := mk_task demo_root demo_services 0x5000.

Lemma resources_ok (rs : list (Z * option (list Z))) : Forall (fun r => r.1 <> RESOURCE_type_none /\ exists s, r.2 = Some s /\ 0 ∈ s) rs -> (length rs < 16)%nat ->
  exists pre d post, take 16 (rs ++ replicate 16 (RESOURCE_type_none, None)) = pre ++ (RESOURCE_type_none, d) :: post /\ (length pre < 32)%nat /\
    Forall (fun r => r.1 <> RESOURCE_type_none /\ exists s, r.2 = Some s /\ 0 ∈ s) pre.
Proof.
  intros Hrs Hlen. exists rs, None, (replicate (15 - length rs) (RESOURCE_type_none, None)). split; [|split; [lia|done]].
  rewrite take_app_ge by lia. f_equal. rewrite take_replicate. replace (16 - length rs)%nat with (S (15 - length rs)) by lia.
  rewrite Nat.min_l by lia. done.
Qed.
Lemma c_text_closed s : 0 ∈ c_text s.
Proof. unfold c_text. apply elem_of_app. right. by left. Qed.
Lemma services_vexpress_ok : Forall service_ok services_vexpress.
Proof.
  unfold services_vexpress, new_service.
  repeat apply Forall_cons_2; [..|by apply Forall_nil_2];
    (split; [refine (bool_decide_eq_true_1 _ _); by vm_compute|]; split; [by vm_compute|]; apply resources_ok; [|cbn; lia];
     repeat (constructor; [split; [done|by eexists; split; [|apply c_text_closed]]|]); constructor).
Qed.
Lemma demo_task_ok : task_ok demo_task.
Proof.
  split; [done|done|]. apply Forall_lookup. intros i x Hx. cbn [tk_services demo_task] in Hx. unfold demo_services in Hx.
  rewrite list_lookup_imap in Hx. destruct (services_vexpress !! i) as [y|] eqn:Hy; [|done]. injection Hx as <-.
  exact (Forall_lookup_1 _ _ _ _ services_vexpress_ok Hy).
Qed.

(** The lfs process (9) asks for a disk, the driver of the serial line (3) twice for its
    interrupt. *)
Definition demo_requests : list (Z * Z * proc0_req) :=
  [(OK, 9, PROC0_get_resource RESOURCE_type_block); (OK, 3, PROC0_get_resource RESOURCE_type_int); (OK, 3, PROC0_get_resource RESOURCE_type_int)].
Lemma resources_given_once_witness : given_once demo_services
    [(9, PROC0_get_resource RESOURCE_type_block, Some (mk_answer OK gr_none (Some 0x4000)));
     (3, PROC0_get_resource RESOURCE_type_int, Some (mk_answer OK (gr_irqn 37) (Some 0x40001)));
     (3, PROC0_get_resource RESOURCE_type_int, Some refused)] /\
  exists out t', main_loop demo_requests demo_task = Ok out t' /\ task_ok t'.
Proof.
  destruct (resources_given_once demo_connects demo_requests demo_task) as [H1 H2]. split.
  - eapply (H1 _ _). vm_compute. reflexivity.
  - apply H2; [exact demo_task_ok|by repeat constructor|vm_compute; lia].
Defined.

Lemma resource_connected_witness : exists x a t', demo_services !! 7%nat = Some x /\
  handle_get_resource 9 RESOURCE_type_block demo_task = Ok a t' /\ connected demo_task x RESOURCE_type_block a t'.
Proof.
  destruct (wp_inv _ _ _ (resource_connected demo_connects 9 RESOURCE_type_block demo_task 7 _ demo_task_ok eq_refl eq_refl ltac:(discriminate)))
    as (a & t' & Hrun & _ & Hc). by eexists _, a, t'.
Defined.

(** ** Where the code and its purpose part
    The endpoint that a service listens on is given out once; the second request is
    answered with OK and no capability.  The search goes on behind a list of resources
    that is full. *)
Lemma mount_twice : match main_loop [(OK, 9, PROC0_get_resource RESOURCE_type_mount); (OK, 9, PROC0_get_resource RESOURCE_type_mount)] demo_task with
  | Ok out _ => (fun e => e.2) <$> out
  | _ => []
  end = [Some (mk_answer OK gr_none (Some 0x10007)); Some (mk_answer OK gr_none (Some 0))].
Proof. vm_compute. reflexivity. Qed.
Lemma resources_full_loop n k type o (t : task unit) : type <> 1 -> (k < n)%nat -> resource_name n (replicate k (1, o)) type t = Fault FBounds.
Proof.
  intros Ht. revert k. induction n as [|n IH]; intros [|k] Hk; [lia|lia|done|]. cbn [replicate resource_name fst].
  rewrite (proj2 (Z.eqb_neq 1 RESOURCE_type_none)), (proj2 (Z.eqb_neq 1 type)) by done. apply IH. lia.
Qed.
Lemma resources_full type o (t : task unit) : type <> 1 -> resource_name 32 (replicate 16 (1, o)) type t = Fault FBounds.
Proof. intros Ht. apply resources_full_loop; [done|lia]. Qed.
