(* ===== verification/Bytes.v ===== *)
(** * Bytes

    Big-endian fields (beto16, beto32 and beto64 of include/types.h), and the copying
    functions memcpy, memset and memcmp (lib/mem/util.c and arm/lib/c/util.c, which
    are the same) on a memory of bytes. *)
From S2P Require Import Prelude.

Local Open Scope Z_scope.
Local Open Scope c_scope.

(** ** Big-endian fields, from the bytes *)
Definition beto16 (b0 b1 : Z) : Z := Z.lor (Z.shiftl b0 8) b1.
Definition beto32 (b0 b1 b2 b3 : Z) : Z :=
  Z.lor (Z.lor (Z.lor (Z.shiftl b0 24) (Z.shiftl b1 16)) (Z.shiftl b2 8)) b3.
Definition beto64 (b0 b1 b2 b3 b4 b5 b6 b7 : Z) : Z :=
  Z.lor (Z.lor (Z.lor (Z.lor (Z.lor (Z.lor (Z.lor (Z.shiftl b0 56) (Z.shiftl b1 48)) (Z.shiftl b2 40))
    (Z.shiftl b3 32)) (Z.shiftl b4 24)) (Z.shiftl b5 16)) (Z.shiftl b6 8)) b7.

(** The bytes of a number, most significant one first. *)
Definition be16 (x : Z) : list Z := [Z.land (Z.shiftr x 8) 0xff; Z.land x 0xff].
Definition be32 (x : Z) : list Z :=
  [Z.land (Z.shiftr x 24) 0xff; Z.land (Z.shiftr x 16) 0xff; Z.land (Z.shiftr x 8) 0xff; Z.land x 0xff].

Definition is_byte (b : Z) : Prop := 0 <= b < 256.

Lemma shiftl_lor_add a b k : 0 <= k -> 0 <= b < 2 ^ k -> Z.lor (Z.shiftl a k) b = a * 2 ^ k + b.
Proof.
  intros Hk Hb. rewrite Z.shiftl_mul_pow2 by done. apply (lor_low_add _ _ k); [done| |done].
  by apply Z.mod_mul, Z.pow_nonzero.
Qed.

Lemma beto16_eq b0 b1 : is_byte b1 -> beto16 b0 b1 = b0 * 256 + b1.
Proof. intros. unfold beto16. by rewrite shiftl_lor_add. Qed.

Lemma beto32_eq b0 b1 b2 b3 : is_byte b1 -> is_byte b2 -> is_byte b3 ->
  beto32 b0 b1 b2 b3 = ((b0 * 256 + b1) * 256 + b2) * 256 + b3.
Proof.
  intros H1 H2 H3. unfold is_byte in *. unfold beto32.
  replace (Z.shiftl b0 24) with (Z.shiftl (Z.shiftl b0 8) 16) by (rewrite Z.shiftl_shiftl by lia; f_equal; lia).
  rewrite <-(Z.shiftl_lor _ _ 16), (shiftl_lor_add b0 b1) by lia.
  replace (Z.shiftl (b0 * 2 ^ 8 + b1) 16) with (Z.shiftl (Z.shiftl (b0 * 2 ^ 8 + b1) 8) 8)
    by (rewrite Z.shiftl_shiftl by lia; f_equal; lia).
  rewrite <-(Z.shiftl_lor _ _ 8), (shiftl_lor_add _ b2), (shiftl_lor_add _ b3) by lia. lia.
Qed.

Lemma land_byte x : Z.land x 0xff = x mod 256.
Proof. change 0xff with (Z.ones 8). by rewrite Z.land_ones. Qed.

Lemma be16_eq x : be16 x = [x / 256 mod 256; x mod 256].
Proof. unfold be16. rewrite !land_byte, Z.shiftr_div_pow2 by lia. done. Qed.

Lemma be32_eq x : be32 x = [x / 2 ^ 24 mod 256; x / 2 ^ 16 mod 256; x / 256 mod 256; x mod 256].
Proof. unfold be32. rewrite !land_byte, !Z.shiftr_div_pow2 by lia. done. Qed.

Lemma be16_bytes x : Forall is_byte (be16 x).
Proof. rewrite be16_eq. repeat constructor; try apply Z.mod_pos_bound; lia. Qed.
Lemma be32_bytes x : Forall is_byte (be32 x).
Proof. rewrite be32_eq. repeat constructor; try apply Z.mod_pos_bound; lia. Qed.

(** Written and read back. *)
Lemma beto16_be16 x : 0 <= x < 2 ^ 16 -> beto16 (Z.land (Z.shiftr x 8) 0xff) (Z.land x 0xff) = x.
Proof.
  intros Hx. rewrite !land_byte, Z.shiftr_div_pow2, beto16_eq by (try apply Z.mod_pos_bound; lia).
  change (2 ^ 8) with 256. rewrite (Z.mod_small (x / 256)) by (Z.div_mod_to_equations; lia).
  Z.div_mod_to_equations. lia.
Qed.

Lemma beto32_be32 x : 0 <= x < 2 ^ 32 -> 
  beto32 (Z.land (Z.shiftr x 24) 0xff) (Z.land (Z.shiftr x 16) 0xff) (Z.land (Z.shiftr x 8) 0xff) (Z.land x 0xff) = x.
Proof.
  intros Hx. rewrite !land_byte, !Z.shiftr_div_pow2, beto32_eq by (try apply Z.mod_pos_bound; lia).
  change (2 ^ 8) with 256. change (2 ^ 16) with (256 * 256). change (2 ^ 24) with (256 * (256 * 256)).
  rewrite <-!Z.div_div by lia. rewrite (Z.mod_small (x / 256 / 256 / 256)) by (Z.div_mod_to_equations; lia).
  pose proof (Z.div_mod x 256). pose proof (Z.div_mod (x / 256) 256). pose proof (Z.div_mod (x / 256 / 256) 256). lia.
Qed.

(** ** Copying *)
Abbreviation bytes := (gmap Z Z).
Abbreviation YM := (M bytes).
Definition get_byte (a : Z) : YM Z := read FBounds (fun m => m !! a).
Definition put_byte (a v : Z) : YM unit := let* _ := get_byte a in modify (fun m => <[a := u8 v]> m).

(** [while (len-- > 0)]; a length has 32 bits, so [fuel] is the length itself. *)
Fixpoint memcpy_loop (fuel : nat) (d s : Z) : YM unit :=
  match fuel with
  | O => ret tt
  | S fuel => let* v := get_byte s in put_byte d v ;;; memcpy_loop fuel (d + 1) (s + 1)
  end.
Definition memcpy (dd ss len : Z) : YM unit := memcpy_loop (Z.to_nat len) dd ss.

Fixpoint memset_loop (fuel : nat) (d v : Z) : YM unit :=
  match fuel with
  | O => ret tt
  | S fuel => put_byte d v ;;; memset_loop fuel (d + 1) v
  end.
Definition memset (dd v len : Z) : YM unit := memset_loop (Z.to_nat len) dd v.

Fixpoint memcmp_loop (fuel : nat) (a b : Z) : YM bool :=
  match fuel with
  | O => ret true
  | S fuel =>
    let* x := get_byte a in
    let* y := get_byte b in
    if negb (x =? y) then ret false else memcmp_loop fuel (a + 1) (b + 1)
  end.
Definition memcmp (aa bb len : Z) : YM bool := memcmp_loop (Z.to_nat len) aa bb.

(** [m] has the bytes from [a] on. *)
Definition has_bytes (m : bytes) (a len : Z) : Prop := forall x, a <= x < a + len -> exists v, m !! x = Some v /\ is_byte v.

Lemma get_byte_run m a v : m !! a = Some v -> get_byte a m = Ok v m.
Proof. apply read_ok. Qed.

Lemma put_byte_run m a v w : m !! a = Some w -> is_byte v -> put_byte a v m = Ok tt (<[a := v]> m).
Proof.
  intros Ha Hv. unfold put_byte. erewrite bind_ok by by apply get_byte_run. unfold modify, u8. by rewrite Z.mod_small.
Qed.

(** What is copied is what was there before, unless the source is overwritten before
    it is read. *)
Theorem memcpy_correct dd ss len m : 0 <= len -> has_bytes m dd len -> has_bytes m ss len ->
  dd <= ss \/ ss + len <= dd -> wp (memcpy dd ss len) m (fun _ m' =>
    (forall i, 0 <= i < len -> m' !! (dd + i) = m !! (ss + i)) /\
    (forall x, ~ (dd <= x < dd + len) -> m' !! x = m !! x)).
Proof.
  intros Hl. unfold memcpy. destruct (Z_of_nat_complete _ Hl) as [n ->]. rewrite Nat2Z.id. clear Hl.
  revert dd ss m. induction n as [|n IH]; intros dd ss m Hd Hs Hdis; cbn [memcpy_loop].
  { apply wpe_ret. split; [lia|done]. }
  destruct (Hd dd) as (w & Hw & _); [lia|]. destruct (Hs ss) as (v & Hv & Hvb); [lia|].
  apply wpe_bind. eapply wpe_ok; [by apply get_byte_run|]. cbn beta.
  apply wpe_bind. eapply wpe_ok; [by eapply put_byte_run|]. cbn beta.
  assert (Hkeep : forall a, has_bytes m a (Z.of_nat (S n)) -> has_bytes (<[dd := v]> m) (a + 1) (Z.of_nat n)).
  { intros a Ha x Hx. destruct (decide (dd = x)) as [<-|]; [rewrite lookup_insert_eq; eauto|].
    rewrite lookup_insert_ne by done. apply Ha. lia. }
  eapply wpe_mono; [apply (IH (dd + 1) (ss + 1) (<[dd := v]> m)); [by apply Hkeep|by apply Hkeep|lia]|cbn beta|done].
  intros _ m' [H1 H2]. split.
  - intros i Hi. destruct (decide (i = 0)) as [->|].
    + rewrite !Z.add_0_r, H2, lookup_insert_eq by lia. by rewrite Hv.
    + specialize (H1 (i - 1)). replace (dd + 1 + (i - 1)) with (dd + i) in H1 by lia.
      replace (ss + 1 + (i - 1)) with (ss + i) in H1 by lia. rewrite H1 by lia. apply lookup_insert_ne. lia.
  - intros x Hx. rewrite H2 by lia. apply lookup_insert_ne. lia.
Qed.

(** Copied upwards over itself, the first byte fills the range. *)
Lemma memcpy_smears a m v w : m !! a = Some v -> m !! (a + 1) = Some w -> is_byte v -> (exists x, m !! (a + 2) = Some x) ->
  wp (memcpy (a + 1) a 2) m (fun _ m' => m' !! (a + 1) = Some v /\ m' !! (a + 2) = Some v).
Proof.
  intros Hv Hw Hb [x Hx]. unfold memcpy. change (Z.to_nat 2) with 2%nat. cbn [memcpy_loop].
  apply wpe_bind. eapply wpe_ok; [by apply get_byte_run|]. cbn beta.
  apply wpe_bind. eapply wpe_ok; [by eapply put_byte_run|]. cbn beta.
  apply wpe_bind. eapply wpe_ok; [apply get_byte_run, lookup_insert_eq|]. cbn beta.
  apply wpe_bind. eapply wpe_ok; [eapply put_byte_run; [|done]|].
  { rewrite lookup_insert_ne by lia. by replace (a + 1 + 1) with (a + 2) by lia. }
  cbn beta. apply wpe_ret. replace (a + 1 + 1) with (a + 2) by lia. rewrite lookup_insert_ne by lia. by rewrite !lookup_insert_eq.
Qed.

Lemma memset_correct dd v len m : 0 <= len -> is_byte v -> has_bytes m dd len -> wp (memset dd v len) m (fun _ m' =>
  (forall x, dd <= x < dd + len -> m' !! x = Some v) /\ (forall x, ~ (dd <= x < dd + len) -> m' !! x = m !! x)).
Proof.
  intros Hl Hv. unfold memset. destruct (Z_of_nat_complete _ Hl) as [n ->]. rewrite Nat2Z.id. clear Hl.
  revert dd m. induction n as [|n IH]; intros dd m Hd; cbn [memset_loop].
  { apply wpe_ret. split; [lia|done]. }
  destruct (Hd dd) as (w & Hw & _); [lia|]. apply wpe_bind. eapply wpe_ok; [by eapply put_byte_run|]. cbn beta.
  eapply wpe_mono; [apply (IH (dd + 1) (<[dd := v]> m))|cbn beta|done].
  { intros x Hx. rewrite lookup_insert_ne by lia. apply Hd. lia. }
  intros _ m' [H1 H2]. split; intros x Hx.
  - destruct (decide (x = dd)) as [->|]; [|apply H1; lia]. rewrite H2 by lia. apply lookup_insert_eq.
  - rewrite H2 by lia. apply lookup_insert_ne. lia.
Qed.

(** [memcmp] is true on equal ranges, unlike the function of the C library. *)
Lemma memcmp_correct aa bb len m : 0 <= len -> has_bytes m aa len -> has_bytes m bb len ->
  exists r, memcmp aa bb len m = Ok r m /\ (r = true <-> forall i, 0 <= i < len -> m !! (aa + i) = m !! (bb + i)).
Proof.
  intros Hl. unfold memcmp. destruct (Z_of_nat_complete _ Hl) as [n ->]. rewrite Nat2Z.id. clear Hl.
  revert aa bb. induction n as [|n IH]; intros aa bb Ha Hb; cbn [memcmp_loop].
  { exists true. split; [done|]. split; [lia|done]. }
  destruct (Ha aa) as (v & Hv & _); [lia|]. destruct (Hb bb) as (w & Hw & _); [lia|].
  erewrite bind_ok by by apply get_byte_run. erewrite bind_ok by by apply get_byte_run.
  destruct (Z.eqb_spec v w) as [->|Hne]; cbn [negb].
  - destruct (IH (aa + 1) (bb + 1)) as (r & Hr & Hrb); [intros x Hx; apply Ha; lia|intros x Hx; apply Hb; lia|].
    exists r. split; [done|]. rewrite Hrb. split; intros H i Hi.
    + destruct (decide (i = 0)) as [->|]; [rewrite !Z.add_0_r; by rewrite Hv, Hw|]. specialize (H (i - 1)).
      replace (aa + 1 + (i - 1)) with (aa + i) in H by lia. replace (bb + 1 + (i - 1)) with (bb + i) in H by lia. apply H. lia.
    + specialize (H (i + 1)). replace (aa + (i + 1)) with (aa + 1 + i) in H by lia.
      replace (bb + (i + 1)) with (bb + 1 + i) in H by lia. apply H. lia.
  - exists false. split; [done|]. split; [done|]. intros H. specialize (H 0). rewrite !Z.add_0_r, Hv, Hw in H.
    destruct Hne. by injection (H ltac:(lia)).
Qed.
