(* ===== verification/Fdt.v ===== *)
(** * Flattened device trees, lib/fdt/fdt.c

    The blob is a list of bytes at the address [dtb]; a pointer is an address, and
    what is read outside the blob has no value.  The functions call back into a
    state of the caller's.  [(x + 3) & ~3] is [align_up x 4]. *)
From S2P Require Import Prelude Bytes Str.

Local Open Scope Z_scope.
Local Open Scope c_scope.

Definition FDT_MAGIC : Z := 0xd00dfeed.
Definition FDT_BEGIN_NODE : Z := 0x1.
Definition FDT_END_NODE : Z := 0x2.
Definition FDT_PROP : Z := 0x3.
Definition FDT_NOP : Z := 0x4.

Record fdt_header := mk_fdt_header {
  magic : Z; totalsize : Z; off_dt_struct : Z; off_dt_strings : Z; off_mem_rsvmap : Z;
  version : Z; last_comp_version : Z; boot_cpuid_phys : Z; size_dt_strings : Z; size_dt_struct : Z
}.
Definition sizeof_reserve_entry : Z := 16.

(** The texts the code compares with. *)
Definition text_reg : list Z := [114; 101; 103; 0].
Definition text_compatible : list Z := [99; 111; 109; 112; 97; 116; 105; 98; 108; 101; 0].
Definition text_phandle : list Z := [112; 104; 97; 110; 100; 108; 101; 0].
Definition text_device_type : list Z := [100; 101; 118; 105; 99; 101; 95; 116; 121; 112; 101; 0].

(** fdt_compatable does not look at a tree: two lists of strings with their lengths.
    [d]/[dlen] walk the strings of the driver, [device]/[devlen] those of the device. *)
Fixpoint fdt_driver_loop (fuel : nat) (device d : list Z) (dlen : Z) : option bool :=
  match fuel with
  | O => None
  | S fuel =>
    if 0 <? dlen then
      c ← head d;
      if c =? 0 then Some false
      else
        b ← strcmp device d;
        if (b : bool) then Some true
        else
          len ← strlen d;
          fdt_driver_loop fuel device (drop (Z.to_nat (len + 1)) d) (s32 (dlen - (len + 1)))
    else Some false
  end.
Fixpoint fdt_device_loop (fuel : nat) (device : list Z) (devlen : Z) (driver : list Z) (drilen : Z) : option bool :=
  match fuel with
  | O => None
  | S fuel =>
    if 0 <? devlen then
      c ← head device;
      if c =? 0 then Some false
      else
        b ← fdt_driver_loop (S (length driver)) device driver (s32 drilen);
        if (b : bool) then Some true
        else
          len ← strlen device;
          fdt_device_loop fuel (drop (Z.to_nat (len + 1)) device) (u32 (devlen - (len + 1))) driver drilen
    else Some false
  end.
Definition fdt_compatable (device : list Z) (devlen : Z) (driver : list Z) (drilen : Z) : option bool :=
  fdt_device_loop (S (length device)) device devlen driver drilen.

Section tree.
Context {S : Type}.
Variables (blob : list Z) (dtb : Z).

Definition byte_at (p : Z) : option Z := znth blob (p - dtb).
(** The text at [p], up to the end of the blob. *)
Definition text_at (p : Z) : list Z := if dtb <=? p then drop (Z.to_nat (p - dtb)) blob else [].
Definition word_at (p : Z) : option Z :=
  b0 ← byte_at p; b1 ← byte_at (p + 1); b2 ← byte_at (p + 2); b3 ← byte_at (p + 3); Some (beto32 b0 b1 b2 b3).
Definition dword_at (p : Z) : option Z :=
  b0 ← byte_at p; b1 ← byte_at (p + 1); b2 ← byte_at (p + 2); b3 ← byte_at (p + 3);
  b4 ← byte_at (p + 4); b5 ← byte_at (p + 5); b6 ← byte_at (p + 6); b7 ← byte_at (p + 7);
  Some (beto64 b0 b1 b2 b3 b4 b5 b6 b7).
Definition get_word (p : Z) : M S Z := read FBounds (fun _ => word_at p).
Definition get_dword (p : Z) : M S Z := read FBounds (fun _ => dword_at p).
Definition get_strcmp (s : list Z) (p : Z) : M S bool := read FBounds (fun _ => strcmp s (text_at p)).
Definition get_strlen (p : Z) : M S Z := read FBounds (fun _ => strlen (text_at p)).

(** One round of each loop reads a byte of the blob that no other round reads. *)
Definition fdt_fuel : nat := Datatypes.S (length blob).

Definition fdt_check : M S (Z * fdt_header) :=
  let* w0 := get_word dtb in
  let* w1 := get_word (u32 (dtb + 4)) in
  let* w2 := get_word (u32 (dtb + 8)) in
  let* w3 := get_word (u32 (dtb + 12)) in
  let* w4 := get_word (u32 (dtb + 16)) in
  let* w5 := get_word (u32 (dtb + 20)) in
  let* w6 := get_word (u32 (dtb + 24)) in
  let* w7 := get_word (u32 (dtb + 28)) in
  let* w8 := get_word (u32 (dtb + 32)) in
  let* w9 := get_word (u32 (dtb + 36)) in
  let head := mk_fdt_header w0 w1 w2 w3 w4 w5 w6 w7 w8 w9 in
  if negb (magic head =? FDT_MAGIC) then ret (ERR, head)
  else if negb (version head =? 17) then ret (ERR, head)
  else ret (OK, head).

Definition fdt_size : M S Z :=
  let* (r, head) := fdt_check in
  if negb (r =? OK) then ret 0 else ret (totalsize head).

Section reserved.
Variable callback : Z -> Z -> M S unit.
Fixpoint fdt_reserved_loop (fuel : nat) (e : Z) : M S unit :=
  match fuel with
  | O => nofuel
  | Datatypes.S fuel =>
    let* a := get_dword e in
    let* n := (if a =? 0 then ret 0 else get_dword (u32 (e + 8))) in
    if negb (a =? 0) && negb (n =? 0) then
      callback (u32 a) (u32 n) ;;;
      fdt_reserved_loop fuel (u32 (e + sizeof_reserve_entry))
    else ret tt
  end.
Definition fdt_check_reserved : M S unit :=
  let* (r, head) := fdt_check in
  if negb (r =? OK) then ret tt
  else fdt_reserved_loop fdt_fuel (u32 (dtb + off_mem_rsvmap head)).
End reserved.

Definition fdt_skip_prop (pr : Z) : M S Z :=
  let* len := get_word (u32 (pr + 4)) in
  ret (u32 (u32 (pr + 8) + align_up len 4)).

(** The new [pr], and what is stored at [name], [data] and [len]. *)
Definition fdt_get_prop (head : fdt_header) (pr : Z) : M S (Z * Z * Z * Z) :=
  let* len := get_word (u32 (pr + 4)) in
  let* no := get_word (u32 (pr + 8)) in
  ret (u32 (u32 (pr + 8) + align_up len 4), u32 (u32 (dtb + off_dt_strings head) + no), u32 (pr + 12), len).

(** From a node to behind its name. *)
Definition fdt_behind_name (node : Z) : M S Z :=
  let pc := u32 (node + 4) in
  let* i := get_strlen pc in
  ret (u32 (pc + align_up (i + 1) 4)).

Fixpoint fdt_skip_node (fuel : nat) (pr : Z) : M S Z :=
  match fuel with
  | O => nofuel
  | Datatypes.S fuel => let* pr := fdt_behind_name pr in fdt_skip_loop fuel pr
  end
with fdt_skip_loop (fuel : nat) (pr : Z) : M S Z :=
  match fuel with
  | O => nofuel
  | Datatypes.S fuel =>
    let* w := get_word pr in
    if w =? FDT_END_NODE then ret pr
    else if w =? FDT_BEGIN_NODE then
      let* pr := fdt_skip_node fuel pr in
      if pr =? NIL then ret NIL else fdt_skip_loop fuel (u32 (pr + 4))
    else if w =? FDT_NOP then fdt_skip_loop fuel (u32 (pr + 4))
    else if w =? FDT_PROP then
      let* pr := fdt_skip_prop pr in fdt_skip_loop fuel (u32 (pr + 4))
    else ret NIL
  end.

(** The second component is [*data], which keeps its value when no property is met. *)
Fixpoint fdt_property_loop (fuel : nat) (head : fdt_header) (prop : list Z) (pr : Z) (data : option Z) : M S (Z * option Z) :=
  match fuel with
  | O => nofuel
  | Datatypes.S fuel =>
    let* w := get_word pr in
    if w =? FDT_END_NODE then ret (-1, data)
    else if w =? FDT_BEGIN_NODE then
      let* pr := fdt_skip_node fdt_fuel pr in
      if pr =? NIL then ret (-1, data) else fdt_property_loop fuel head prop (u32 (pr + 4)) data
    else if w =? FDT_NOP then fdt_property_loop fuel head prop (u32 (pr + 4)) data
    else if w =? FDT_PROP then
      let* (pr, name, d, i) := fdt_get_prop head pr in
      let* b := get_strcmp prop name in
      if b then ret (s32 i, Some d) else fdt_property_loop fuel head prop (u32 (pr + 4)) (Some d)
    else ret (-1, data)
  end.
Definition fdt_node_property (node : Z) (prop : list Z) (data : option Z) : M S (Z * option Z) :=
  let* (r, head) := fdt_check in
  if negb (r =? OK) then ret (-1, data)
  else let* pr := fdt_behind_name node in fdt_property_loop fdt_fuel head prop pr data.

(** The address and size of region [ind], or [None] for the answer false. *)
Definition fdt_node_regs (node ind : Z) : M S (option (Z * Z)) :=
  let* (r, data) := fdt_node_property node text_reg None in
  let len := u32 r in
  if len <=? u32 (ind * 4 * 2) then ret None
  else
    let* data := read FNil (fun _ => data) in
    let* addr := get_word (u32 (data + 4 * u32 (ind * 4 * 2))) in
    let* size := get_word (u32 (data + 4 * u32 (ind * 4 * 2 + 1))) in
    ret (Some (addr, size)).

Definition fdt_node_path (node : Z) (path : list Z) (max : Z) : Z := -1.
Definition fdt_node_name (node : Z) : Z := u32 (node + 4).

Definition fdt_node_phandle (node : Z) : M S Z :=
  let* (len, data) := fdt_node_property node text_phandle None in
  if len <=? 0 then ret 0
  else let* data := read FNil (fun _ => data) in get_word data.

(** ** Searches *)
Section compatable.
Variables (head : fdt_header) (compatable : list Z) (callback : Z -> M S bool).

(** The loop over the strings of a "compatible" property; false when it was ended. *)
Fixpoint fdt_strings_loop (fuel : nat) (node data i len : Z) : M S bool :=
  match fuel with
  | O => nofuel
  | Datatypes.S fuel =>
    if i <? len then
      let* b := get_strcmp compatable (u32 (data + i)) in
      let* go := (if b : bool then callback node else ret true) in
      if negb go then ret false
      else
        let* l := get_strlen (u32 (data + i)) in
        fdt_strings_loop fuel node data (u32 (i + (l + 1))) len
    else ret true
  end.

Fixpoint fdt_find_node_compatable_h (fuel : nat) (node : Z) : M S Z :=
  match fuel with
  | O => nofuel
  | Datatypes.S fuel => let* pr := fdt_behind_name node in fdt_compatable_loop fuel node pr
  end
with fdt_compatable_loop (fuel : nat) (node pr : Z) : M S Z :=
  match fuel with
  | O => nofuel
  | Datatypes.S fuel =>
    let* w := get_word pr in
    if w =? FDT_END_NODE then ret pr
    else if w =? FDT_BEGIN_NODE then
      let* pr := fdt_find_node_compatable_h fuel pr in
      if pr =? NIL then ret NIL else fdt_compatable_loop fuel node (u32 (pr + 4))
    else if w =? FDT_NOP then fdt_compatable_loop fuel node (u32 (pr + 4))
    else if w =? FDT_PROP then
      let* (pr, name, data, len) := fdt_get_prop head pr in
      let* b := get_strcmp text_compatible name in
      let* go := (if b : bool then fdt_strings_loop fdt_fuel node data 0 len else ret true) in
      if negb go then ret NIL else fdt_compatable_loop fuel node (u32 (pr + 4))
    else ret NIL
  end.
End compatable.
Definition fdt_find_node_compatable (compatable : list Z) (callback : Z -> M S bool) : M S unit :=
  let* (r, head) := fdt_check in
  if negb (r =? OK) then ret tt
  else
    let* _ := fdt_find_node_compatable_h head compatable callback fdt_fuel (u32 (dtb + off_dt_struct head)) in
    ret tt.

Section device_type.
Variables (head : fdt_header) (type : list Z) (callback : Z -> M S bool).
Fixpoint fdt_find_node_device_type_h (fuel : nat) (node : Z) : M S Z :=
  match fuel with
  | O => nofuel
  | Datatypes.S fuel => let* pr := fdt_behind_name node in fdt_device_type_loop fuel node pr
  end
with fdt_device_type_loop (fuel : nat) (node pr : Z) : M S Z :=
  match fuel with
  | O => nofuel
  | Datatypes.S fuel =>
    let* w := get_word pr in
    if w =? FDT_END_NODE then ret pr
    else if w =? FDT_BEGIN_NODE then
      let* pr := fdt_find_node_device_type_h fuel pr in
      if pr =? NIL then ret NIL else fdt_device_type_loop fuel node (u32 (pr + 4))
    else if w =? FDT_NOP then fdt_device_type_loop fuel node (u32 (pr + 4))
    else if w =? FDT_PROP then
      let* (pr, name, data, len) := fdt_get_prop head pr in
      let* b := get_strcmp text_device_type name in
      let* b := (if b : bool then get_strcmp type data else ret false) in
      let* go := (if b : bool then callback node else ret true) in
      if negb go then ret NIL else fdt_device_type_loop fuel node (u32 (pr + 4))
    else ret NIL
  end.
End device_type.
Definition fdt_find_node_device_type (type : list Z) (callback : Z -> M S bool) : M S unit :=
  let* (r, head) := fdt_check in
  if negb (r =? OK) then ret tt
  else
    let* _ := fdt_find_node_device_type_h head type callback fdt_fuel (u32 (dtb + off_dt_struct head)) in
    ret tt.

(** With [*found]. *)
Fixpoint fdt_find_node_phandle_h (fuel : nat) (head : fdt_header) (handle node : Z) : M S (Z * bool) :=
  match fuel with
  | O => nofuel
  | Datatypes.S fuel => let* pr := fdt_behind_name node in fdt_phandle_loop fuel head handle node pr
  end
with fdt_phandle_loop (fuel : nat) (head : fdt_header) (handle node pr : Z) : M S (Z * bool) :=
  match fuel with
  | O => nofuel
  | Datatypes.S fuel =>
    let* w := get_word pr in
    if w =? FDT_END_NODE then ret (pr, false)
    else if w =? FDT_BEGIN_NODE then
      let* (pr, found) := fdt_find_node_phandle_h fuel head handle pr in
      if pr =? NIL then ret (NIL, found)
      else if (found : bool) then ret (pr, found)
      else fdt_phandle_loop fuel head handle node (u32 (pr + 4))
    else if w =? FDT_NOP then fdt_phandle_loop fuel head handle node (u32 (pr + 4))
    else if w =? FDT_PROP then
      let* (pr, name, data, len) := fdt_get_prop head pr in
      let* b := get_strcmp text_phandle name in
      let* hit := (if b : bool then let* h := get_word data in ret (h =? handle) else ret false) in
      if hit : bool then ret (node, true) else fdt_phandle_loop fuel head handle node (u32 (pr + 4))
    else ret (NIL, false)
  end.
Definition fdt_find_node_phandle (node handle : Z) : M S Z :=
  let* (r, head) := fdt_check in
  if negb (r =? OK) then ret NIL
  else
    let* (node, found) := fdt_find_node_phandle_h fdt_fuel head handle node in
    if found : bool then ret node else ret NIL.

(** The comparison of a name [pc] with the head of a path: [None] for [skip], else the
    path from where it ended; no value when it left the blob or the path. *)
Fixpoint path_compare (pc path : list Z) : option (option (list Z)) :=
  match pc, path with
  | c :: pc, q :: path' =>
    if negb (c =? 0) && negb (q =? 0) && negb (q =? 47) then
      if negb (c =? q) then Some None else path_compare pc path'
    else Some (Some path)
  | _, _ => None
  end.
Fixpoint fdt_find_node_path_h (fuel : nat) (path : list Z) (node : Z) : M S (Z * bool) :=
  match fuel with
  | O => nofuel
  | Datatypes.S fuel =>
    let* pr := fdt_behind_name node in
    let* rest := read FBounds (fun _ => path_compare (text_at (u32 (node + 4))) path) in
    match rest with
    | None => let* pr := fdt_skip_node fdt_fuel node in ret (pr, false)
    | Some [] => fail FBounds
    | Some (c :: path) => if c =? 0 then ret (node, true) else fdt_path_loop fuel path pr
    end
  end
with fdt_path_loop (fuel : nat) (path : list Z) (pr : Z) : M S (Z * bool) :=
  match fuel with
  | O => nofuel
  | Datatypes.S fuel =>
    let* w := get_word pr in
    if w =? FDT_END_NODE then ret (pr, false)
    else if w =? FDT_BEGIN_NODE then
      let* (pr, found) := fdt_find_node_path_h fuel path pr in
      if pr =? NIL then ret (NIL, found)
      else if (found : bool) then ret (pr, found)
      else fdt_path_loop fuel path (u32 (pr + 4))
    else if w =? FDT_NOP then fdt_path_loop fuel path (u32 (pr + 4))
    else if w =? FDT_PROP then let* pr := fdt_skip_prop pr in fdt_path_loop fuel path (u32 (pr + 4))
    else ret (NIL, false)
  end.
Definition fdt_find_node_path (node : Z) (path : list Z) : M S Z :=
  let* (node, found) := fdt_find_node_path_h fdt_fuel path node in
  if found : bool then ret node else ret NIL.

Definition fdt_root_node : M S Z :=
  let* (r, head) := fdt_check in
  if negb (r =? OK) then ret NIL else ret (u32 (dtb + off_dt_struct head)).
End tree.
