(* ===== verification/FdtProps.v ===== *)
(** * What the flattened form of a device tree stands for

    [items] is what a node holds; [items_at] says that the blob holds it.  Each
    search of fdt.c is a walk over the words of the blob; the theorems say that it is
    the search one would write for the tree. *)
From S2P Require Import Prelude Bytes Str Fdt.

Local Open Scope Z_scope.
Local Open Scope c_scope.

(** Properties, nodes and padding, up to the end of the node. *)
Inductive items :=
  | Done
  | Nop (r : items)
  | Property (no : Z) (name data : list Z) (r : items)
  | Child (name : list Z) (sub r : items).

Definition pad (n : Z) : Z := (n + 3) / 4 * 4.
Definition zlen {A} (l : list A) : Z := Z.of_nat (length l).
(** The bytes the items take, with the word that ends the node. *)
Fixpoint size (its : items) : Z :=
  match its with
  | Done => 4
  | Nop r => 4 + size r
  | Property _ _ d r => 12 + pad (zlen d) + size r
  | Child n sub r => 4 + pad (zlen n + 1) + size sub + size r
  end.
Fixpoint cells (its : items) : nat :=
  match its with
  | Done => 1
  | Nop r => S (cells r)
  | Property _ _ _ r => S (cells r)
  | Child _ sub r => 2 + cells sub + cells r
  end.
(** Behind the name of the node at [p]. *)
Definition behind (p : Z) (n : list Z) : Z := p + 4 + pad (zlen n + 1).
Definition behind_prop (p : Z) (d : list Z) : Z := p + 12 + pad (zlen d).

(** The strings of a list of strings, each closed by 0. *)
Fixpoint strings (cur d : list Z) : list (list Z) :=
  match d with
  | [] => []
  | c :: d => if c =? 0 then cur :: strings [] d else strings (cur ++ [c]) d
  end.
Definition flat (ss : list (list Z)) : list Z := concat ((fun s => s ++ [0]) <$> ss).
Definition text (s : list Z) : Prop := Forall (fun c => c <> 0) s.
Definition name_of (t : list Z) : list Z := take (length t - 1) t.
Definition first_word (d : list Z) : option Z :=
  match d with b0 :: b1 :: b2 :: b3 :: _ => Some (beto32 b0 b1 b2 b3) | _ => None end.

Lemma pad_bounds n : n <= pad n < n + 4.
Proof. unfold pad. Z.div_mod_to_equations. lia. Qed.
Lemma align_up_pad n : 0 <= n -> n + 3 < 2 ^ 32 -> align_up n 4 = pad n.
Proof. intros. change 4 with (2 ^ 2). rewrite align_up_pow2 by lia. unfold pad. f_equal. f_equal. lia. Qed.
Lemma zlen_nonneg {A} (l : list A) : 0 <= zlen l.
Proof. unfold zlen. lia. Qed.
Lemma cells_size its : 4 * Z.of_nat (cells its) <= size its.
Proof.
  induction its as [|r IH|no n d r IH|n sub IH1 r IH2]; cbn [cells size]; [lia|lia| |].
  - pose proof (pad_bounds (zlen d)). pose proof (zlen_nonneg d). lia.
  - pose proof (pad_bounds (zlen n + 1)). pose proof (zlen_nonneg n). unfold pad in *. Z.div_mod_to_equations. lia.
Qed.
Lemma cells_pos its : (0 < cells its)%nat.
Proof. destruct its; cbn; lia. Qed.

Lemma strings_flat ss : Forall text ss -> strings [] (flat ss) = ss.
Proof.
  assert (Hg : forall s cur d, text s -> strings cur (s ++ 0 :: d) = (cur ++ s) :: strings [] d).
  { induction s as [|c s IH]; intros cur d Hs; cbn [app strings]; [by rewrite app_nil_r|].
    apply Forall_cons in Hs as [Hc Hs]. rewrite (proj2 (Z.eqb_neq c 0)) by done. rewrite IH by done. by rewrite <-app_assoc. }
  induction 1 as [|s ss Hs _ IH]; [done|]. unfold flat in *. cbn [fmap list_fmap concat]. rewrite <-app_assoc. cbn [app].
  rewrite Hg by done. cbn [app]. by rewrite IH.
Qed.

(** The switch over a word that is known. *)
Ltac tags := cbn iota; repeat match goal with
  | |- context [?a =? ?b] => lazymatch a with FDT_END_NODE => idtac | FDT_NOP => idtac | FDT_PROP => idtac | FDT_BEGIN_NODE => idtac end;
      let v := eval vm_compute in (a =? b) in change (a =? b) with v
  end; cbn iota.

Section tree.
Context {S : Type}.
Variables (blob : list Z) (dtb : Z).
Hypothesis Hdtb : 0 < dtb /\ dtb + zlen blob < 2 ^ 32.

Abbreviation word_at := (word_at blob dtb).
Abbreviation text_at := (text_at blob dtb).
Abbreviation byte_at := (byte_at blob dtb).
Definition bytes_at (p : Z) (d : list Z) : Prop := forall i b, d !! i = Some b -> byte_at (p + Z.of_nat i) = Some b.

Definition header_at (head : fdt_header) : Prop :=
  word_at dtb = Some (magic head) /\ word_at (dtb + 4) = Some (totalsize head) /\ word_at (dtb + 8) = Some (off_dt_struct head) /\
  word_at (dtb + 12) = Some (off_dt_strings head) /\ word_at (dtb + 16) = Some (off_mem_rsvmap head) /\
  word_at (dtb + 20) = Some (version head) /\ word_at (dtb + 24) = Some (last_comp_version head) /\
  word_at (dtb + 28) = Some (boot_cpuid_phys head) /\ word_at (dtb + 32) = Some (size_dt_strings head) /\
  word_at (dtb + 36) = Some (size_dt_struct head).

(** The names of properties are in the strings of the blob, at [strs]. *)
Fixpoint items_at (strs : Z) (pr : Z) (its : items) : Prop :=
  match its with
  | Done => word_at pr = Some FDT_END_NODE
  | Nop r => word_at pr = Some FDT_NOP /\ items_at strs (pr + 4) r
  | Property no n d r => word_at pr = Some FDT_PROP /\ word_at (pr + 4) = Some (zlen d) /\ word_at (pr + 8) = Some no /\
    0 <= no /\ strs + no < 2 ^ 32 /\ cstring (text_at (strs + no)) n /\ bytes_at (pr + 12) d /\ items_at strs (behind_prop pr d) r
  | Child n sub r => word_at pr = Some FDT_BEGIN_NODE /\ cstring (text_at (pr + 4)) n /\
    items_at strs (behind pr n) sub /\ items_at strs (behind pr n + size sub) r
  end.
Definition node_at (strs : Z) (node : Z) (n : list Z) (its : items) : Prop :=
  dtb <= node /\ cstring (text_at (node + 4)) n /\ items_at strs (behind node n) its.

Lemma byte_at_bound p b : byte_at p = Some b -> dtb <= p < dtb + zlen blob.
Proof. unfold Fdt.byte_at. intros H%znth_bound. unfold zlen. lia. Qed.

Lemma word_at_bound p w : word_at p = Some w -> dtb <= p /\ p + 4 <= dtb + zlen blob.
Proof.
  unfold Fdt.word_at. destruct (Fdt.byte_at blob dtb p) as [b0|] eqn:E0; [|done]. cbn.
  destruct (Fdt.byte_at blob dtb (p + 1)) eqn:E1; [|done]. cbn. destruct (Fdt.byte_at blob dtb (p + 2)) eqn:E2; [|done]. cbn.
  destruct (Fdt.byte_at blob dtb (p + 3)) eqn:E3; [|done]. intros _. apply byte_at_bound in E0, E3. lia.
Qed.

Lemma size_pos its : 4 <= size its.
Proof. pose proof (cells_size its). pose proof (cells_pos its). lia. Qed.

Lemma items_at_first strs pr its : items_at strs pr its -> dtb <= pr /\ pr + 4 <= dtb + zlen blob.
Proof. destruct its; cbn [items_at]; [intros H|intros (H & _)..]; by eapply word_at_bound. Qed.

Lemma items_at_bound strs its : forall pr, items_at strs pr its -> dtb <= pr /\ pr + size its <= dtb + zlen blob.
Proof.
  induction its as [|r IH|no n d r IH|n sub IH1 r IH2]; intros pr Hi; pose proof (items_at_first _ _ _ Hi) as [H1 H2]; cbn [size].
  - done.
  - destruct Hi as (_ & Hi). apply IH in Hi. lia.
  - destruct Hi as (_ & _ & _ & _ & _ & _ & _ & Hi). apply IH in Hi. unfold behind_prop in Hi. lia.
  - destruct Hi as (_ & _ & _ & Hi). apply IH2 in Hi. unfold behind in Hi. lia.
Qed.

Lemma items_at_fuel strs its pr : items_at strs pr its -> (cells its < fdt_fuel blob)%nat.
Proof. intros Hi%items_at_bound. pose proof (cells_size its). unfold fdt_fuel, zlen in *. lia. Qed.

Lemma get_word_run p w (s : S) : word_at p = Some w -> get_word blob dtb p s = Ok w s.
Proof. intros. by apply read_ok. Qed.

Lemma get_strcmp_run t n1 p n2 (s : S) : cstring t n1 -> cstring (text_at p) n2 ->
  get_strcmp blob dtb t p s = Ok (bool_decide (n1 = n2)) s.
Proof. intros. apply read_ok. by apply strcmp_correct. Qed.

Lemma fdt_behind_name_run strs node n its (s : S) : node_at strs node n its ->
  fdt_behind_name blob dtb node s = Ok (behind node n) s.
Proof.
  intros (Hn & Ht & Hi). apply items_at_first in Hi. unfold behind in *. pose proof (pad_bounds (zlen n + 1)) as Hp.
  pose proof (zlen_nonneg n). pose proof (zlen_nonneg blob). unfold fdt_behind_name. rewrite u32_small by lia. unfold get_strlen.
  erewrite bind_ok by (apply read_ok; by apply strlen_spec). fold (zlen n). rewrite align_up_pad by lia. rewrite u32_small by lia. done.
Qed.

(** The node at a child. *)
Lemma child_node strs pr n sub r : items_at strs pr (Child n sub r) -> node_at strs pr n sub.
Proof. intros Hi. pose proof (items_at_first _ _ _ Hi) as [Hf _]. destruct Hi as (_ & Ht & Hi & _). split; [done|by split]. Qed.

(** ** Skipping *)
Lemma fdt_skip_prop_run strs pr no n d r (s : S) : items_at strs pr (Property no n d r) ->
  exists pr', fdt_skip_prop blob dtb pr s = Ok pr' s /\ u32 (pr' + 4) = behind_prop pr d.
Proof.
  intros Hi. destruct (items_at_bound _ _ _ Hi) as [B1 _]. destruct Hi as (_ & Hl & _ & _ & _ & _ & _ & Hr). apply items_at_first in Hr.
  unfold behind_prop in *. pose proof (pad_bounds (zlen d)). pose proof (zlen_nonneg d). pose proof (word_at_bound _ _ Hl).
  unfold fdt_skip_prop. eexists. split; [erewrite bind_ok; [done|]|].
  - apply get_word_run. by rewrite u32_small by lia.
  - rewrite align_up_pad by lia. rewrite (u32_small (pr + 8)), (u32_small (pr + 8 + _)), u32_small by lia. lia.
Qed.

Lemma fdt_get_prop_run head pr no n d r (s : S) : 0 <= off_dt_strings head -> dtb + off_dt_strings head < 2 ^ 32 ->
  items_at (dtb + off_dt_strings head) pr (Property no n d r) ->
  exists pr', fdt_get_prop blob dtb head pr s = Ok (pr', dtb + off_dt_strings head + no, pr + 12, zlen d) s /\
    u32 (pr' + 4) = behind_prop pr d.
Proof.
  intros Ho1 Ho2 Hi. destruct (items_at_bound _ _ _ Hi) as [B1 _]. destruct Hi as (_ & Hl & Hno & N1 & N2 & _ & _ & Hr). apply items_at_first in Hr.
  unfold behind_prop in *. pose proof (pad_bounds (zlen d)). pose proof (zlen_nonneg d). pose proof (word_at_bound _ _ Hl).
  unfold fdt_get_prop. eexists. split; [erewrite bind_ok; [erewrite bind_ok; [unfold ret; f_equal|]|]|].
  - rewrite (u32_small (dtb + _)), (u32_small (_ + no)), (u32_small (pr + 12)) by lia. done.
  - apply get_word_run. by rewrite u32_small by lia.
  - apply get_word_run. by rewrite u32_small by lia.
  - rewrite align_up_pad by lia. rewrite (u32_small (pr + 8)), (u32_small (pr + 8 + _)), u32_small by lia. lia.
Qed.

Lemma fdt_skip_run strs its : forall fuel pr (s : S), items_at strs pr its -> (cells its <= fuel)%nat ->
  fdt_skip_loop blob dtb fuel pr s = Ok (pr + size its - 4) s.
Proof.
  induction its as [|r IH|no n d r IH|n sub IH1 r IH2]; intros [|fuel] pr s Hi Hf; try (cbn in Hf; lia);
    pose proof (items_at_bound _ _ _ Hi) as [B1 B2]; cbn [fdt_skip_loop size] in *.
  - erewrite bind_ok by by apply get_word_run. cbn. unfold ret. f_equal. lia.
  - destruct Hi as (Hw & Hi). erewrite bind_ok by by apply get_word_run. cbn.
    rewrite u32_small by (pose proof (size_pos r); lia). rewrite IH by (try done; cbn in Hf; lia). f_equal. lia.
  - pose proof Hi as (Hw & _). erewrite bind_ok by by apply get_word_run. cbn.
    destruct (fdt_skip_prop_run _ _ _ _ _ _ s Hi) as (pr' & Hrun & Hpr). erewrite bind_ok by exact Hrun. cbn beta. rewrite Hpr.
    destruct Hi as (_ & _ & _ & _ & _ & _ & _ & Hi). rewrite IH by (try done; cbn in Hf; lia). unfold behind_prop. f_equal. lia.
  - pose proof (child_node _ _ _ _ _ Hi) as Hn. destruct Hi as (Hw & _ & Hsub & Hr). cbn in Hf.
    destruct fuel as [|fuel]; [lia|]. pose proof (cells_pos r).
    erewrite bind_ok by by apply get_word_run. cbn [Z.eqb FDT_END_NODE FDT_BEGIN_NODE Pos.eqb fdt_skip_node].
    change (FDT_BEGIN_NODE =? FDT_END_NODE) with false. change (FDT_BEGIN_NODE =? FDT_BEGIN_NODE) with true. cbn iota.
    erewrite bind_ok; [|erewrite bind_ok by (by eapply fdt_behind_name_run); apply IH1; [done|lia]].
    pose proof (items_at_bound _ _ _ Hsub). pose proof (items_at_bound _ _ _ Hr). pose proof (size_pos sub). pose proof (size_pos r).
    rewrite (proj2 (Z.eqb_neq _ _)) by (unfold NIL; lia). rewrite u32_small by lia.
    replace (behind pr n + size sub - 4 + 4) with (behind pr n + size sub) by lia.
    rewrite IH2 by (done || lia). unfold behind. f_equal. lia.
Qed.

(** A node that is skipped is left at its last word. *)
Lemma fdt_skip_node_run strs node n its fuel (s : S) : node_at strs node n its -> (cells its < fuel)%nat ->
  fdt_skip_node blob dtb fuel node s = Ok (behind node n + size its - 4) s.
Proof.
  intros Hn Hf. destruct fuel as [|fuel]; [lia|]. cbn [fdt_skip_node]. erewrite bind_ok by by eapply fdt_behind_name_run.
  apply fdt_skip_run with strs; [apply Hn|lia].
Qed.

(** From the last word of a child on. *)
Lemma child_end strs pr n sub r : items_at strs pr (Child n sub r) ->
  behind pr n + size sub - 4 <> NIL /\ u32 (behind pr n + size sub - 4 + 4) = behind pr n + size sub.
Proof.
  intros (_ & _ & Hs & Hr). pose proof (items_at_bound _ _ _ Hs). pose proof (items_at_first _ _ _ Hr). pose proof (size_pos sub).
  split; [unfold NIL; lia|]. rewrite u32_small by lia. lia.
Qed.

Lemma nop_end strs pr r : items_at strs pr (Nop r) -> u32 (pr + 4) = pr + 4.
Proof. intros (_ & Hr). pose proof (items_at_first _ _ _ Hr). apply u32_small. lia. Qed.

Lemma item_word strs pr its : items_at strs pr its -> word_at pr = Some (match its with
  | Done => FDT_END_NODE | Nop _ => FDT_NOP | Property _ _ _ _ => FDT_PROP | Child _ _ _ => FDT_BEGIN_NODE end).
Proof. destruct its; cbn [items_at]; [done|by intros (H & _)..]. Qed.

(** ** The header *)
Definition header_ok (head : fdt_header) : Prop :=
  header_at head /\ magic head = FDT_MAGIC /\ version head = 17.

Lemma fdt_check_run head (s : S) : header_at head ->
  fdt_check blob dtb s = Ok (if (magic head =? FDT_MAGIC) && (version head =? 17) then OK else ERR, head) s.
Proof.
  intros (H0 & H1 & H2 & H3 & H4 & H5 & H6 & H7 & H8 & H9). pose proof (word_at_bound _ _ H9). destruct head. cbn in *.
  unfold fdt_check. rewrite !u32_small by lia. do 10 erewrite bind_ok by by apply get_word_run. cbn.
  destruct (magic =? FDT_MAGIC); [|done]. by destruct (version =? 17).
Qed.

Lemma fdt_check_ok head (s : S) : header_ok head -> fdt_check blob dtb s = Ok (OK, head) s.
Proof. intros (H & Hm & Hv). rewrite (fdt_check_run head) by done. by rewrite Hm, Hv. Qed.

Definition strings_of (head : fdt_header) : Z := dtb + off_dt_strings head.
Definition strings_ok (head : fdt_header) : Prop := 0 <= off_dt_strings head /\ dtb + off_dt_strings head < 2 ^ 32.

Lemma prop_step head pr no n d r t nm (s : S) : strings_ok head ->
  items_at (strings_of head) pr (Property no n d r) -> cstring t nm ->
  exists pr', fdt_get_prop blob dtb head pr s = Ok (pr', strings_of head + no, pr + 12, zlen d) s /\
    get_strcmp blob dtb t (strings_of head + no) s = Ok (bool_decide (nm = n)) s /\ u32 (pr' + 4) = behind_prop pr d.
Proof.
  intros [Ho1 Ho2] Hi Ht. destruct (fdt_get_prop_run head pr no n d r s Ho1 Ho2 Hi) as (pr' & Hrun & Hpr). exists pr'.
  split; [done|]. split; [|done]. destruct Hi as (_ & _ & _ & _ & _ & Hn & _). by apply get_strcmp_run.
Qed.
Lemma bytes_word p d w : bytes_at p d -> first_word d = Some w -> word_at p = Some w.
Proof.
  intros Hb Hw. destruct d as [|b0 [|b1 [|b2 [|b3 d]]]]; try done. injection Hw as <-. unfold Fdt.word_at.
  pose proof (Hb 0%nat b0 eq_refl) as H0. pose proof (Hb 1%nat b1 eq_refl) as H1. pose proof (Hb 2%nat b2 eq_refl) as H2.
  pose proof (Hb 3%nat b3 eq_refl) as H3.
  rewrite Z.add_0_r in H0. change (Z.of_nat 1) with 1 in H1. change (Z.of_nat 2) with 2 in H2. change (Z.of_nat 3) with 3 in H3.
  by rewrite H0, H1, H2, H3.
Qed.

(** ** Properties of a node *)
Fixpoint find_prop (nm : list Z) (pr : Z) (its : items) : option (Z * list Z) :=
  match its with
  | Done => None
  | Nop r => find_prop nm (pr + 4) r
  | Property _ n d r => if bool_decide (nm = n) then Some (pr + 12, d) else find_prop nm (behind_prop pr d) r
  | Child n sub r => find_prop nm (behind pr n + size sub) r
  end.

Lemma find_prop_bytes strs nm its : forall pr a d, items_at strs pr its -> find_prop nm pr its = Some (a, d) -> bytes_at a d /\ 0 < a.
Proof.
  induction its as [|r IH|no n d r IH|n sub IH1 r IH2]; intros pr a d' Hi; cbn [find_prop]; [done|..].
  - apply IH, Hi.
  - case_bool_decide; [|apply IH, Hi]. intros [= <- <-]. pose proof (items_at_first _ _ _ Hi). split; [apply Hi|lia].
  - apply IH2, Hi.
Qed.

Lemma fdt_property_loop_run head prop nm its : strings_ok head -> cstring prop nm -> forall fuel pr data (s : S),
  items_at (strings_of head) pr its -> (cells its <= fuel)%nat ->
  exists data', fdt_property_loop blob dtb fuel head prop pr data s = Ok
    (match find_prop nm pr its with Some (_, d) => s32 (zlen d) | None => -1 end, data') s /\
    forall a d, find_prop nm pr its = Some (a, d) -> data' = Some a.
Proof.
  intros Ho Ht. induction its as [|r IH|no n d r IH|n sub IH1 r IH2]; intros [|fuel] pr data s Hi Hf; try (cbn in Hf; lia);
    cbn [fdt_property_loop find_prop]; erewrite bind_ok by (apply get_word_run, (item_word _ _ _ Hi)); cbn [cells] in Hf.
  - tags. by exists data.
  - tags. rewrite (nop_end _ _ _ Hi). apply IH; [apply Hi|lia].
  - tags. destruct (prop_step head pr no n d r prop nm s Ho Hi Ht) as (pr' & Hrun & Hcmp & Hpr).
    erewrite bind_ok by exact Hrun. cbn beta iota. erewrite bind_ok by exact Hcmp. cbn beta.
    case_bool_decide; [eexists; split; [done|by intros a d' [= -> ->]]|]. rewrite Hpr. apply IH; [apply Hi|lia].
  - tags. destruct (child_end _ _ _ _ _ Hi) as [Hne Hend]. pose proof (child_node _ _ _ _ _ Hi) as Hn.
    erewrite bind_ok by (eapply fdt_skip_node_run; [exact Hn|eapply items_at_fuel, Hn]).
    rewrite (proj2 (Z.eqb_neq _ _)) by done. rewrite Hend. apply IH2; [apply Hi|lia].
Qed.

(** A property of a node is found by its name, at its address and with its length,
    whatever nodes lie in between; -1 is the answer when the node has none. *)
Theorem fdt_node_property_correct head prop nm node n its (s : S) : header_ok head -> strings_ok head -> cstring prop nm ->
  node_at (strings_of head) node n its ->
  exists data, fdt_node_property blob dtb node prop None s = Ok
    (match find_prop nm (behind node n) its with Some (_, d) => s32 (zlen d) | None => -1 end, data) s /\
    forall a d, find_prop nm (behind node n) its = Some (a, d) -> data = Some a /\ bytes_at a d.
Proof.
  intros Hh Ho Ht Hn. unfold fdt_node_property. erewrite bind_ok by by apply fdt_check_ok. cbn beta iota.
  change (negb (OK =? OK)) with false. cbn iota. erewrite bind_ok by by eapply fdt_behind_name_run.
  destruct (fdt_property_loop_run head prop nm its Ho Ht (fdt_fuel blob) (behind node n) None s) as (data & Hrun & Hd);
    [apply Hn|pose proof (items_at_fuel _ _ _ (proj2 (proj2 Hn))); lia|].
  exists data. split; [done|]. intros a d Hf. split; [by eapply Hd|]. by eapply find_prop_bytes; [apply Hn|].
Qed.

(** ** Searches
    The nodes in the order of the blob; [node] is the node the items belong to. *)
Definition phandle : list Z := name_of text_phandle.
Definition compatible : list Z := name_of text_compatible.
Definition device_type : list Z := name_of text_device_type.
Lemma texts_closed : cstring text_phandle phandle /\ cstring text_compatible compatible /\ cstring text_device_type device_type.
Proof. split_and!; exists []; (split; [reflexivity|repeat constructor; lia]). Qed.

(** Handles have a word. *)
Fixpoint handles_ok (its : items) : Prop :=
  match its with
  | Done => True
  | Nop r => handles_ok r
  | Property _ n d r => (phandle = n -> is_Some (first_word d)) /\ handles_ok r
  | Child _ sub r => handles_ok sub /\ handles_ok r
  end.
Fixpoint find_handle (h node pr : Z) (its : items) : option Z :=
  match its with
  | Done => None
  | Nop r => find_handle h node (pr + 4) r
  | Property _ n d r =>
    if bool_decide (phandle = n /\ first_word d = Some h) then Some node else find_handle h node (behind_prop pr d) r
  | Child n sub r =>
    match find_handle h pr (behind pr n) sub with
    | Some a => Some a
    | None => find_handle h node (behind pr n + size sub) r
    end
  end.

Lemma find_handle_pos strs h its : forall node pr a, 0 < node -> items_at strs pr its -> find_handle h node pr its = Some a -> 0 < a.
Proof.
  induction its as [|r IH|no n d r IH|n sub IH1 r IH2]; intros node pr a Hn Hi; cbn [find_handle]; [done|..].
  - apply IH; [done|apply Hi].
  - case_bool_decide; [by intros [= <-]|]. apply IH; [done|apply Hi].
  - pose proof (items_at_first _ _ _ Hi). destruct (find_handle h pr _ sub) eqn:E1; [intros [= <-]|].
    + eapply IH1; [|apply Hi|exact E1]. lia.
    + apply IH2; [done|apply Hi].
Qed.

Lemma fdt_phandle_loop_run head h its : strings_ok head -> forall fuel node pr (s : S), 0 < node ->
  items_at (strings_of head) pr its -> handles_ok its -> (cells its <= fuel)%nat ->
  fdt_phandle_loop blob dtb fuel head h node pr s = Ok
    (match find_handle h node pr its with Some a => (a, true) | None => (pr + size its - 4, false) end) s.
Proof.
  intros Ho. induction its as [|r IH|no n d r IH|n sub IH1 r IH2]; intros [|fuel] node pr s Hpos Hi Hh Hf; try (cbn in Hf; lia);
    cbn [fdt_phandle_loop find_handle size]; erewrite bind_ok by (apply get_word_run, (item_word _ _ _ Hi)); cbn [cells] in Hf; tags.
  - unfold ret. f_equal. f_equal. lia.
  - rewrite (nop_end _ _ _ Hi), IH by (apply Hi || done || lia). destruct (find_handle h node (pr + 4) r); [done|]. f_equal. f_equal. lia.
  - destruct Hh as [Hd Hh]. destruct (prop_step head pr no n d r _ _ s Ho Hi (proj1 texts_closed)) as (pr' & Hrun & Hcmp & Hpr).
    erewrite bind_ok by exact Hrun. cbn beta iota. erewrite bind_ok by exact Hcmp. cbn beta.
    destruct (decide (phandle = n)) as [Hp|Hp].
    + rewrite bool_decide_true by done. destruct (Hd Hp) as [w Hw]. pose proof Hi as (_ & _ & _ & _ & _ & _ & Hb & Hr).
      erewrite bind_ok by (erewrite bind_ok by (eapply get_word_run, bytes_word; [exact Hb|exact Hw]); done). cbn beta.
      destruct (Z.eqb_spec w h) as [->|Hne]; [by rewrite bool_decide_true|]. rewrite bool_decide_false by (intros [_ E]; congruence).
      rewrite Hpr, IH by (done || lia). unfold behind_prop. destruct (find_handle _ _ _ r); [done|]. f_equal. f_equal. lia.
    + rewrite !bool_decide_false by tauto. erewrite bind_ok by done. cbn beta iota. rewrite Hpr, IH by (apply Hi || done || lia).
      unfold behind_prop. destruct (find_handle _ _ _ r); [done|]. f_equal. f_equal. lia.
  - destruct (child_end _ _ _ _ _ Hi) as [Hne Hend]. pose proof (child_node _ _ _ _ _ Hi) as Hn. destruct Hh as [Hh1 Hh2].
    pose proof (items_at_first _ _ _ Hi) as [Hfirst _]. destruct fuel as [|fuel]; [pose proof (cells_pos r); lia|].
    pose proof Hi as (_ & _ & Hsub & Hr).
    erewrite bind_ok; [|cbn [fdt_find_node_phandle_h]; erewrite bind_ok by (by eapply fdt_behind_name_run); apply IH1; [lia|done|done|lia]].
    destruct (find_handle h pr (behind pr n) sub) as [a|] eqn:E1; cbn beta iota.
    + assert (0 < a) by (apply (find_handle_pos _ _ _ pr _ _ ltac:(lia) Hsub E1)). rewrite (proj2 (Z.eqb_neq _ _)) by (unfold NIL; lia). done.
    + rewrite (proj2 (Z.eqb_neq _ _)) by done. rewrite Hend, IH2 by (done || lia). unfold behind.
      destruct (find_handle _ node _ r); [done|]. f_equal. f_equal. lia.
Qed.

(** C31: The search for a handle is the search of the tree in the order of the blob: the
    first node that has it, or nil. *)
Theorem fdt_find_node_phandle_correct head h node n its (s : S) : header_ok head -> strings_ok head ->
  node_at (strings_of head) node n its -> handles_ok its ->
  fdt_find_node_phandle blob dtb node h s = Ok (default NIL (find_handle h node (behind node n) its)) s.
Proof.
  intros Hh Ho Hn Hhs. unfold fdt_find_node_phandle. erewrite bind_ok by by apply fdt_check_ok. cbn beta iota.
  change (negb (OK =? OK)) with false. cbn iota. pose proof Hn as (Hn1 & _ & Hi). unfold fdt_fuel.
  erewrite bind_ok; [|cbn [fdt_find_node_phandle_h]; erewrite bind_ok by (by eapply fdt_behind_name_run);
    apply (fdt_phandle_loop_run head h its); [done|lia|done|done|pose proof (items_at_fuel _ _ _ Hi); unfold fdt_fuel in *; lia]].
  by destruct (find_handle h node (behind node n) its).
Qed.

(** Called for the nodes in turn, until one call answers false. *)
Fixpoint visit (callback : Z -> M S bool) (nodes : list Z) : M S bool :=
  match nodes with
  | [] => ret true
  | n :: nodes => let* go := callback n in if go : bool then visit callback nodes else ret false
  end.
Lemma visit_app callback l1 l2 s :
  visit callback (l1 ++ l2) s = (let* go := visit callback l1 in if go : bool then visit callback l2 else ret false) s.
Proof.
  revert s. induction l1 as [|n l1 IH]; intros s; cbn [visit app]; [done|]. unfold bind. destruct (callback n s) as [[] s'| | |]; try done.
Qed.

Section compatible.
Variables (c : list Z) (callback : Z -> M S bool).
(** As often as the string is in the property. *)
Definition named (d : list Z) (node : Z) : list Z := (fun _ => node) <$> filter (fun x => x = name_of c) (strings [] d).
Fixpoint compatible_nodes (node pr : Z) (its : items) : list Z :=
  match its with
  | Done => []
  | Nop r => compatible_nodes node (pr + 4) r
  | Property _ n d r => (if bool_decide (compatible = n) then named d node else []) ++ compatible_nodes node (behind_prop pr d) r
  | Child n sub r => compatible_nodes pr (behind pr n) sub ++ compatible_nodes node (behind pr n + size sub) r
  end.
Fixpoint closed_ok (its : items) : Prop :=
  match its with
  | Done => True
  | Nop r => closed_ok r
  | Property _ n d r => (compatible = n -> exists ss, d = flat ss /\ Forall text ss) /\ closed_ok r
  | Child _ sub r => closed_ok sub /\ closed_ok r
  end.

Lemma bytes_at_text p d : bytes_at p d -> d <> [] -> exists t, text_at p = d ++ t.
Proof.
  intros Hb Hne. destruct d as [|x d]; [done|]. pose proof (byte_at_bound _ _ (Hb 0%nat x eq_refl)) as Hp.
  exists (drop (length (x :: d)) (text_at p)). unfold Fdt.text_at. rewrite (proj2 (Z.leb_le _ _)) by lia.
  assert (Hpre : x :: d = take (length (x :: d)) (drop (Z.to_nat (p - dtb)) blob)).
  { apply list_eq. intros i. destruct (decide (i < length (x :: d))%nat) as [Hi|Hi].
    - destruct (lookup_lt_is_Some_2 _ _ Hi) as [b Eb]. pose proof (Hb i b Eb) as Hbi. unfold Fdt.byte_at in Hbi.
      apply znth_lookup in Hbi as [_ Hbi]. rewrite Eb, lookup_take_lt, lookup_drop by done. rewrite <-Hbi. f_equal. lia.
    - rewrite lookup_ge_None_2 by lia. rewrite lookup_take_ge by lia. done. }
  rewrite <-(take_drop (length (x :: d)) (drop _ blob)) at 1. by rewrite <-Hpre.
Qed.

Lemma bytes_at_drop p d k : bytes_at p d -> bytes_at (p + Z.of_nat k) (drop k d).
Proof. intros Hb i b Hi. rewrite lookup_drop in Hi. specialize (Hb _ _ Hi). replace (p + Z.of_nat k + Z.of_nat i) with (p + Z.of_nat (k + i)) by lia. done. Qed.

Lemma fdt_strings_loop_run node data len : cstring c (name_of c) -> 0 <= data -> data + len < 2 ^ 32 -> forall ss i fuel (s : S),
  Forall text ss -> bytes_at (data + i) (flat ss) -> 0 <= i -> i + zlen (flat ss) = len -> (length (flat ss) < fuel)%nat ->
  fdt_strings_loop blob dtb c callback fuel node data i len s =
    visit callback ((fun _ => node) <$> filter (fun x => x = name_of c) ss) s.
Proof.
  intros Hc Hd Hl ss. induction ss as [|x ss IH]; intros i fuel s Hss Hb Hi Hlen Hf; (destruct fuel as [|fuel]; [lia|]); cbn [fdt_strings_loop].
  - unfold zlen in Hlen. cbn in Hlen. rewrite (proj2 (Z.ltb_ge _ _)) by lia. done.
  - apply Forall_cons in Hss as [Hx Hss]. unfold flat in *. cbn [fmap list_fmap concat] in *. rewrite <-app_assoc in *. cbn [app] in *.
    fold (flat ss) in *. unfold zlen in Hlen. rewrite length_app in *. cbn [length] in *.
    rewrite (proj2 (Z.ltb_lt _ _)) by lia. rewrite u32_small by lia.
    assert (Hcs : cstring (text_at (data + i)) x).
    { destruct (bytes_at_text _ _ Hb) as (t & Et); [by destruct x|]. rewrite Et. exists (flat ss ++ t). split; [by rewrite <-app_assoc|done]. }
    erewrite bind_ok by (by apply get_strcmp_run).
    assert (Hnext : forall s', (let* l := get_strlen blob dtb (data + i) in
      fdt_strings_loop blob dtb c callback fuel node data (u32 (i + (l + 1))) len) s' =
      visit callback ((fun _ => node) <$> filter (fun x => x = name_of c) ss) s').
    { intros s'. erewrite bind_ok by (apply read_ok; by apply strlen_spec). rewrite u32_small by lia.
      apply IH; [done| |lia|unfold zlen; lia|lia].
      replace (data + (i + (Z.of_nat (length x) + 1))) with (data + i + Z.of_nat (length x + 1)) by lia.
      apply (bytes_at_drop _ _ (length x + 1)) in Hb. rewrite <-drop_drop, drop_app_length in Hb. exact Hb. }
    rewrite filter_cons. case_bool_decide as Ex.
    + rewrite decide_True by done. cbn [fmap list_fmap visit]. unfold bind at 1 3. destruct (callback node s) as [[] s'| | |]; first [done|apply Hnext].
    + rewrite decide_False by congruence. unfold bind at 1, ret at 1. cbn [negb]. apply Hnext.
Qed.

Lemma fdt_compatable_loop_run head its : cstring c (name_of c) -> strings_ok head -> forall fuel node pr (s : S),
  items_at (strings_of head) pr its -> closed_ok its -> (cells its <= fuel)%nat ->
  fdt_compatable_loop blob dtb head c callback fuel node pr s =
    (let* go := visit callback (compatible_nodes node pr its) in ret (if go : bool then pr + size its - 4 else NIL)) s.
Proof.
  intros Hc Ho. induction its as [|r IH|no n d r IH|n sub IH1 r IH2]; intros [|fuel] node pr s Hi Hcl Hf; try (cbn in Hf; lia);
    cbn [fdt_compatable_loop compatible_nodes size]; erewrite bind_ok by (apply get_word_run, (item_word _ _ _ Hi)); cbn [cells] in Hf; tags.
  - cbn. unfold bind, ret. f_equal. lia.
  - rewrite (nop_end _ _ _ Hi), IH by (apply Hi || done || lia). replace (pr + 4 + size r) with (pr + (4 + size r)) by lia. done.
  - destruct Hcl as [Hcl1 Hcl]. destruct (prop_step head pr no n d r _ _ s Ho Hi (proj1 (proj2 texts_closed))) as (pr' & Hrun & Hcmp & Hpr).
    erewrite bind_ok by exact Hrun. cbn beta iota. erewrite bind_ok by exact Hcmp. cbn beta. rewrite Hpr.
    assert (Hgo : forall s', fdt_compatable_loop blob dtb head c callback fuel node (behind_prop pr d) s' =
      (let* go := visit callback (compatible_nodes node (behind_prop pr d) r) in ret (if go : bool then pr + (12 + pad (zlen d) + size r) - 4 else NIL)) s').
    { intros s'. rewrite IH by (apply Hi || done || lia). unfold behind_prop. replace (pr + 12 + pad (zlen d) + size r) with (pr + (12 + pad (zlen d) + size r)) by lia. done. }
    case_bool_decide as En.
    + destruct (Hcl1 En) as (ss & Ed & Hss). unfold named. rewrite Ed at 2. rewrite strings_flat by done.
      destruct Hi as (_ & Hl & _ & _ & _ & _ & Hb & Hr). pose proof (items_at_first _ _ _ Hr) as Hbd. unfold behind_prop in Hbd. pose proof (pad_bounds (zlen d)).
      pose proof (word_at_bound _ _ Hl).
      unfold bind at 1 2. rewrite visit_app. unfold bind at 1.
      rewrite (fdt_strings_loop_run node (pr + 12) (zlen d) Hc) with (ss := ss); try done; try lia; [|by rewrite Z.add_0_r, <-Ed|by rewrite Ed|].
      * destruct (visit callback _ s) as [[] s'| | |]; cbn [negb]; first [done|by rewrite Hgo].
      * rewrite <-Ed. unfold fdt_fuel. unfold zlen in *. lia.
    + unfold bind at 1, ret at 1. cbn [negb app]. by rewrite Hgo.
  - destruct (child_end _ _ _ _ _ Hi) as [Hne Hend]. pose proof (child_node _ _ _ _ _ Hi) as Hn. destruct Hcl as [Hc1 Hc2].
    destruct fuel as [|fuel]; [pose proof (cells_pos r); lia|]. pose proof Hi as (_ & _ & Hsub & Hr).
    cbn [fdt_find_node_compatable_h]. unfold bind at 1 2. erewrite fdt_behind_name_run by done. rewrite IH1 by (done || lia).
    unfold bind at 1 2. rewrite visit_app. unfold bind at 1. destruct (visit callback (compatible_nodes pr _ sub) s) as [[] s'| | |]; try done.
    unfold ret at 1. rewrite (proj2 (Z.eqb_neq _ _)) by done. rewrite Hend, IH2 by (done || lia). unfold behind.
    replace (pr + 4 + pad (zlen n + 1) + size sub + size r) with (pr + (4 + pad (zlen n + 1) + size sub + size r)) by lia. done.
Qed.

(** C30: The nodes that are compatible with the string are called back in the order of the
    blob, once for each time they name it, until a call answers false. *)
Theorem fdt_find_node_compatable_correct head n its (s : S) : header_ok head -> strings_ok head -> cstring c (name_of c) ->
  0 <= off_dt_struct head -> dtb + off_dt_struct head < 2 ^ 32 ->
  node_at (strings_of head) (dtb + off_dt_struct head) n its -> closed_ok its ->
  fdt_find_node_compatable blob dtb c callback s =
    (visit callback (compatible_nodes (dtb + off_dt_struct head) (behind (dtb + off_dt_struct head) n) its) ;;; ret tt) s.
Proof.
  intros Hh Ho Hc H1 H2 Hn Hcl. unfold fdt_find_node_compatable. erewrite bind_ok by by apply fdt_check_ok. cbn beta iota.
  change (negb (OK =? OK)) with false. cbn iota. rewrite u32_small by lia. unfold fdt_fuel. cbn [fdt_find_node_compatable_h].
  unfold bind at 1 2. erewrite fdt_behind_name_run by done. rewrite (fdt_compatable_loop_run head its Hc Ho).
  - unfold bind. by destruct (visit callback _ s) as [[] s'| | |].
  - apply Hn.
  - done.
  - pose proof (items_at_fuel _ _ _ (proj2 (proj2 Hn))). unfold fdt_fuel in *. lia.
Qed.
End compatible.
End tree.
