(* ===== verification/FdtFind.v ===== *)
(** * More searches of device trees

    By device type and by path, the reserved memory of a blob, lists of compatible
    strings, and the walks of FdtProps.v on a blob. *)
From S2P Require Import Prelude Bytes Str Fdt FdtProps.

Local Open Scope Z_scope.
Local Open Scope c_scope.

Section tree.
Context {S : Type}.
Variables (blob : list Z) (dtb : Z).
Hypothesis Hdtb : 0 < dtb /\ dtb + zlen blob < 2 ^ 32.
Abbreviation word_at := (word_at blob dtb).
Abbreviation text_at := (text_at blob dtb).
Abbreviation items_at := (items_at blob dtb).
Abbreviation node_at := (node_at blob dtb).

(** ** By device type *)
Section device_type.
Variables (t : list Z) (callback : Z -> M S bool).
Fixpoint typed_nodes (node pr : Z) (its : items) : list Z :=
  match its with
  | Done => []
  | Nop r => typed_nodes node (pr + 4) r
  | Property _ n d r =>
    (if bool_decide (device_type = n /\ name_of t = name_of d) then [node] else []) ++ typed_nodes node (behind_prop pr d) r
  | Child n sub r => typed_nodes pr (behind pr n) sub ++ typed_nodes node (behind pr n + size sub) r
  end.
(** The types are texts. *)
Fixpoint types_ok (its : items) : Prop :=
  match its with
  | Done => True
  | Nop r => types_ok r
  | Property _ n d r => (device_type = n -> exists x, d = x ++ [0] /\ text x) /\ types_ok r
  | Child _ sub r => types_ok sub /\ types_ok r
  end.

Lemma name_of_closed x : name_of (x ++ [0]) = x.
Proof. unfold name_of. rewrite length_app. cbn. replace (length x + 1 - 1)%nat with (length x) by lia. by rewrite take_app_length. Qed.

Lemma fdt_device_type_loop_run head its : cstring t (name_of t) -> strings_ok dtb head -> forall fuel node pr (s : S),
  items_at (strings_of dtb head) pr its -> types_ok its -> (cells its <= fuel)%nat ->
  fdt_device_type_loop blob dtb head t callback fuel node pr s =
    (let* go := visit callback (typed_nodes node pr its) in ret (if go : bool then pr + size its - 4 else NIL)) s.
Proof.
  intros Ht Ho. induction its as [|r IH|no n d r IH|n sub IH1 r IH2]; intros [|fuel] node pr s Hi Hty Hf; try (cbn in Hf; lia);
    cbn [fdt_device_type_loop typed_nodes size]; erewrite bind_ok by (eapply get_word_run, item_word, Hi); cbn [cells] in Hf.
  - tags. cbn. unfold bind, ret. f_equal. lia.
  - tags. rewrite (nop_end _ _ Hdtb _ _ _ Hi), IH by (apply Hi || done || lia). replace (pr + 4 + size r) with (pr + (4 + size r)) by lia. done.
  - tags. destruct Hty as [Hty1 Hty]. destruct (prop_step blob dtb Hdtb head pr no n d r _ _ s Ho Hi (proj2 (proj2 texts_closed))) as (pr' & Hrun & Hcmp & Hpr).
    erewrite bind_ok by exact Hrun. cbn beta iota. erewrite bind_ok by exact Hcmp. cbn beta. rewrite Hpr.
    assert (Hgo : forall s', fdt_device_type_loop blob dtb head t callback fuel node (behind_prop pr d) s' =
      (let* go := visit callback (typed_nodes node (behind_prop pr d) r) in ret (if go : bool then pr + (12 + pad (zlen d) + size r) - 4 else NIL)) s').
    { intros s'. rewrite IH by (apply Hi || done || lia). unfold behind_prop. replace (pr + 12 + pad (zlen d) + size r) with (pr + (12 + pad (zlen d) + size r)) by lia. done. }
    destruct (decide (device_type = n)) as [En|En].
    + rewrite bool_decide_true by done. destruct (Hty1 En) as (x & Ed & Hx).
      assert (Hcs : cstring (text_at (pr + 12)) x).
      { destruct Hi as (_ & _ & _ & _ & _ & _ & Hb & _). destruct (bytes_at_text _ _ _ _ Hb) as (u & Eu); [by rewrite Ed; destruct x|].
        rewrite Eu, Ed. exists u. split; [by rewrite <-app_assoc|done]. }
      erewrite bind_ok by (eapply get_strcmp_run; [exact Ht|exact Hcs]). cbn beta.
      assert (En2 : name_of d = x) by (by rewrite Ed, name_of_closed). unfold bind at 1 2. destruct (decide (name_of t = x)) as [Ex|Ex].
      * rewrite !bool_decide_true by (first [exact Ex|split; congruence]). cbn [app visit]. unfold bind at 1. destruct (callback node s) as [[] s'| | |]; first [done|by rewrite Hgo].
      * rewrite !bool_decide_false by (first [exact Ex|intros [_ ?]; congruence]). unfold ret at 1. cbn [negb app]. apply Hgo.
    + rewrite !bool_decide_false by tauto. erewrite bind_ok by done. cbn beta iota. erewrite bind_ok by done. cbn [negb app]. apply Hgo.
  - tags. destruct (child_end _ _ Hdtb _ _ _ _ _ Hi) as [Hne Hend]. pose proof (child_node _ _ _ _ _ _ _ Hi) as Hn. destruct Hty as [Hc1 Hc2].
    destruct fuel as [|fuel]; [pose proof (cells_pos r); lia|]. pose proof Hi as (_ & _ & Hsub & Hr).
    cbn [fdt_find_node_device_type_h]. unfold bind at 1 2. erewrite fdt_behind_name_run by done. rewrite IH1 by (done || lia).
    unfold bind at 1 2. rewrite visit_app. unfold bind at 1. destruct (visit callback (typed_nodes pr _ sub) s) as [[] s'| | |]; try done.
    unfold ret at 1. rewrite (proj2 (Z.eqb_neq _ _)) by done. rewrite Hend, IH2 by (done || lia). unfold behind.
    replace (pr + 4 + pad (zlen n + 1) + size sub + size r) with (pr + (4 + pad (zlen n + 1) + size sub + size r)) by lia. done.
Qed.

(** The nodes of a device type are called back in the order of the blob. *)
Lemma fdt_find_node_device_type_correct head n its (s : S) : header_ok blob dtb head -> strings_ok dtb head -> cstring t (name_of t) ->
  0 <= off_dt_struct head -> dtb + off_dt_struct head < 2 ^ 32 ->
  node_at (strings_of dtb head) (dtb + off_dt_struct head) n its -> types_ok its ->
  fdt_find_node_device_type blob dtb t callback s =
    (visit callback (typed_nodes (dtb + off_dt_struct head) (behind (dtb + off_dt_struct head) n) its) ;;; ret tt) s.
Proof.
  intros Hh Ho Ht H1 H2 Hn Hty. unfold fdt_find_node_device_type. erewrite bind_ok by by apply fdt_check_ok. cbn beta iota.
  change (negb (OK =? OK)) with false. cbn iota. rewrite u32_small by lia. unfold fdt_fuel. cbn [fdt_find_node_device_type_h].
  unfold bind at 1 2. erewrite fdt_behind_name_run by done. rewrite (fdt_device_type_loop_run head its Ht Ho).
  - unfold bind. by destruct (visit callback _ s) as [[] s'| | |].
  - apply Hn.
  - done.
  - pose proof (items_at_fuel _ _ _ _ _ (proj2 (proj2 Hn))). unfold fdt_fuel in *. lia.
Qed.
End device_type.

(** ** By path
    The specification, on the texts alone: the part of a path before its first slash,
    and what is left of a path once a node has answered to its head.  The node answers
    when its name and that part agree up to the end of the shorter one; what is left
    begins where they stop to be compared. *)
Fixpoint head_part (q : list Z) : list Z :=
  match q with [] => [] | c :: q => if decide (c = 47) then [] else c :: head_part q end.
Definition answers_to (n q : list Z) : option (list Z) :=
  let k := Nat.min (length n) (length (head_part q)) in
  if decide (take k n = take k (head_part q)) then Some (drop k q) else None.

Lemma path_compare_spec n q t u : Forall (fun c => c <> 0) n -> Forall (fun c => c <> 0) q ->
  path_compare (n ++ 0 :: u) (q ++ 0 :: t) = Some ((fun r => r ++ 0 :: t) <$> answers_to n q).
Proof.
  intros Hn. revert q. induction Hn as [|c n Hc Hn IH]; intros q Hq; [by destruct Hq|].
  destruct Hq as [|d q Hd Hq]; cbn [app path_compare]; [by rewrite andb_false_r|].
  rewrite (proj2 (Z.eqb_neq c 0)), (proj2 (Z.eqb_neq d 0)) by done. unfold answers_to. cbn [head_part].
  destruct (Z.eqb_spec d 47) as [->|H47]; [by rewrite decide_True by done|]. rewrite (decide_False (P := d = 47)) by done. cbn [andb negb].
  destruct (Z.eqb_spec c d) as [->|Hne]; cbn [negb length Nat.min take drop].
  - rewrite IH by done. unfold answers_to. case_decide as E1; case_decide as E2; try done; [by rewrite E1 in E2|by injection E2].
  - by rewrite decide_False by congruence.
Qed.
Lemma answers_nonzero n q r : Forall (fun c => c <> 0) q -> answers_to n q = Some r -> Forall (fun c => c <> 0) r.
Proof. unfold answers_to. case_decide; [|done]. intros Hq [= <-]. by apply Forall_drop. Qed.

(** The first node, in the order of the blob, on a way of nodes that answer to the parts
    of the path; [its] are the items at [pr]. *)
Fixpoint find_path (q : list Z) (pr : Z) (its : items) : option Z :=
  match its with
  | Done => None
  | Nop r => find_path q (pr + 4) r
  | Property _ _ d r => find_path q (behind_prop pr d) r
  | Child n sub r =>
    match
      match answers_to n q with
      | None => None
      | Some [] => Some pr
      | Some (_ :: q') => find_path q' (behind pr n) sub
      end
    with Some a => Some a | None => find_path q (behind pr n + size sub) r end
  end.

Lemma find_path_pos strs its : forall q pr a, items_at strs pr its -> find_path q pr its = Some a -> 0 < a.
Proof.
  induction its as [|r IH|no n d r IH|n sub IH1 r IH2]; intros q pr a Hi; cbn [find_path]; [done|..].
  - apply IH, Hi.
  - apply IH, Hi.
  - pose proof (items_at_first _ _ _ _ _ Hi). pose proof Hi as (_ & _ & Hsub & Hr).
    destruct (answers_to n q) as [[|c q']|]; [intros [= <-]; lia| |by apply IH2].
    destruct (find_path q' _ sub) as [b|] eqn:E1; [intros [= <-]; by eapply IH1|by apply IH2].
Qed.

Lemma fdt_path_loop_run strs its : forall fuel q t pr (s : S), items_at strs pr its -> (cells its <= fuel)%nat ->
  Forall (fun c => c <> 0) q ->
  fdt_path_loop blob dtb fuel (q ++ 0 :: t) pr s = Ok (match find_path q pr its with Some a => (a, true) | None => (pr + size its - 4, false) end) s.
Proof.
  induction its as [|r IH|no n d r IH|n sub IH1 r IH2]; intros [|fuel] q t pr s Hi Hf Hq; try (cbn in Hf; lia);
    cbn [fdt_path_loop find_path size]; erewrite bind_ok by (eapply get_word_run, item_word, Hi); cbn [cells] in Hf; tags.
  - unfold ret. f_equal. f_equal. lia.
  - rewrite (nop_end _ _ Hdtb _ _ _ Hi). rewrite IH by (apply Hi || done || lia). destruct (find_path _ _ _); [done|]. f_equal. f_equal. lia.
  - destruct (fdt_skip_prop_run _ _ Hdtb _ _ _ _ _ _ s Hi) as (pr' & Hrun & Hpr). erewrite bind_ok by exact Hrun. cbn beta. rewrite Hpr.
    destruct Hi as (_ & _ & _ & _ & _ & _ & _ & Hr). rewrite IH by (done || lia). unfold behind_prop. destruct (find_path _ _ _); [done|]. f_equal. f_equal. lia.
  - destruct (child_end _ _ Hdtb _ _ _ _ _ Hi) as [Hne Hend]. pose proof (child_node _ _ _ _ _ _ _ Hi) as Hn.
    destruct fuel as [|fuel]; [pose proof (cells_pos r); lia|]. pose proof Hi as (_ & Ht & Hsub & Hr).
    pose proof (items_at_first _ _ _ _ _ Hi) as [B1 B2]. pose proof (items_at_first _ _ _ _ _ Hsub) as [B3 B4].
    assert (Hrest : forall s' : S, fdt_path_loop blob dtb (Datatypes.S fuel) (q ++ 0 :: t) (u32 (behind pr n + size sub - 4 + 4)) s' =
      Ok (match find_path q (behind pr n + size sub) r with Some a => (a, true) | None => (pr + (4 + pad (zlen n + 1) + size sub + size r) - 4, false) end) s').
    { intros s'. rewrite Hend. rewrite IH2 by (done || lia). unfold behind. destruct (find_path _ _ _); [done|]. f_equal. f_equal. lia. }
    cbn [fdt_find_node_path_h]. unfold bind at 1 2. erewrite fdt_behind_name_run by done.
    unfold bind at 1, read at 1. rewrite u32_small by (pose proof (zlen_nonneg blob); lia).
    destruct Ht as (u & -> & Hnz). rewrite path_compare_spec by done.
    destruct (answers_to n q) as [[|c q']|] eqn:Ha; cbn [fmap option_fmap option_map app].
    + change (0 =? 0) with true. cbn match. unfold ret at 1. cbn beta iota. assert (Hpr : pr =? NIL = false) by (apply Z.eqb_neq; unfold NIL; lia). by rewrite Hpr.
    + pose proof (answers_nonzero _ _ _ Hq Ha) as [Hc Hq']%Forall_cons. rewrite (proj2 (Z.eqb_neq c 0)) by done.
      rewrite IH1 by (done || lia). destruct (find_path q' (behind pr n) sub) as [b|] eqn:E1; cbn beta iota.
      * assert (0 < b) by (by eapply find_path_pos; [exact Hsub|exact E1]). by rewrite (proj2 (Z.eqb_neq b NIL)) by (unfold NIL; lia).
      * rewrite (proj2 (Z.eqb_neq _ _)) by done. by apply Hrest.
    + unfold bind at 1. erewrite fdt_skip_node_run; [|done|exact Hn|eapply items_at_fuel, Hsub]. unfold ret at 1.
      rewrite (proj2 (Z.eqb_neq _ _)) by done. by apply Hrest.
Qed.

(** C32: The path search is the search of the tree for the first node, in the order of
    the blob, on a way of nodes that answer to the parts of the path, for every path that
    is closed by a 0; nil when there is none.  A node answers to a part when one of the
    two is the beginning of the other ([answers_to]), which is what the code compares. *)
Theorem fdt_find_node_path_correct strs node n its q t (s : S) : node_at strs node n its -> Forall (fun c => c <> 0) q ->
  fdt_find_node_path blob dtb node (q ++ 0 :: t) s = Ok (default NIL (find_path q node (Child n its Done))) s.
Proof.
  intros Hn Hq. pose proof Hn as (Hn1 & Ht & Hi). cbn [find_path]. unfold fdt_find_node_path, fdt_fuel. cbn [fdt_find_node_path_h].
  unfold bind at 1 2. erewrite fdt_behind_name_run by done. pose proof (items_at_fuel _ _ _ _ _ Hi) as Hfuel. pose proof (items_at_first _ _ _ _ _ Hi) as [B1 B2].
  unfold behind in B2. pose proof (pad_bounds (zlen n + 1)). pose proof (zlen_nonneg n).
  unfold bind at 1, read at 1. rewrite u32_small by lia. destruct Ht as (u & -> & Hnz). rewrite path_compare_spec by done.
  destruct (answers_to n q) as [[|c q']|] eqn:Ha; cbn [fmap option_fmap option_map app]; [done|..].
  - pose proof (answers_nonzero _ _ _ Hq Ha) as [Hc Hq']%Forall_cons. rewrite (proj2 (Z.eqb_neq c 0)) by done.
    erewrite fdt_path_loop_run; [|exact Hi|unfold fdt_fuel in Hfuel; lia|done]. by destruct (find_path q' (behind node n) its).
  - unfold bind at 1. erewrite fdt_skip_node_run; [|done|exact Hn|exact Hfuel]. done.
Qed.

(** ** Reserved memory *)
Fixpoint entries_at (e : Z) (l : list (Z * Z)) : Prop :=
  match l with
  | [] => dword_at blob dtb e = Some 0
  | (a, n) :: l => dword_at blob dtb e = Some a /\ dword_at blob dtb (e + 8) = Some n /\ a <> 0 /\ n <> 0 /\ entries_at (e + 16) l
  end.
Fixpoint each (callback : Z -> Z -> M S unit) (l : list (Z * Z)) : M S unit :=
  match l with [] => ret tt | (a, n) :: l => callback (u32 a) (u32 n) ;;; each callback l end.

Lemma dword_at_bound p w : dword_at blob dtb p = Some w -> dtb <= p /\ p + 8 <= dtb + zlen blob.
Proof.
  unfold Fdt.dword_at. destruct (byte_at blob dtb p) as [b0|] eqn:E0; [|done]. cbn.
  destruct (byte_at blob dtb (p + 7)) as [b7|] eqn:E7.
  2: { intros Hw. exfalso. revert Hw. destruct (Fdt.byte_at blob dtb (p + 1)); [cbn|done]. destruct (Fdt.byte_at blob dtb (p + 2)); [cbn|done]. destruct (Fdt.byte_at blob dtb (p + 3)); [cbn|done]. destruct (Fdt.byte_at blob dtb (p + 4)); [cbn|done]. destruct (Fdt.byte_at blob dtb (p + 5)); [cbn|done]. destruct (Fdt.byte_at blob dtb (p + 6)); [cbn|done]. done. }
  intros _. apply byte_at_bound in E0, E7. lia.
Qed.

Lemma fdt_reserved_loop_run callback l : forall fuel e (s : S), entries_at e l -> (length l < fuel)%nat ->
  fdt_reserved_loop blob dtb callback fuel e s = each callback l s.
Proof.
  induction l as [|[a n] l IH]; intros [|fuel] e s Hl Hf; cbn [length] in Hf; try lia; cbn [fdt_reserved_loop each].
  - erewrite bind_ok by (apply read_ok; exact Hl). cbn. done.
  - destruct Hl as (H1 & H2 & Ha & Hn & Hl). pose proof (dword_at_bound _ _ H1). pose proof (dword_at_bound _ _ H2).
    assert (dtb <= e + 16 /\ e + 16 + 8 <= dtb + zlen blob).
    { destruct l as [|[a' n'] l]; [by apply dword_at_bound with 0|]. destruct Hl as (Hl & _). by apply dword_at_bound in Hl. }
    erewrite bind_ok by (apply read_ok; exact H1). cbn beta. rewrite (proj2 (Z.eqb_neq a 0)) by done. rewrite (u32_small (e + 8)) by lia.
    erewrite bind_ok by (apply read_ok; exact H2). cbn beta. rewrite (proj2 (Z.eqb_neq n 0)) by done. cbn [negb andb].
    unfold sizeof_reserve_entry. rewrite (u32_small (e + 16)) by lia. unfold bind.
    destruct (callback (u32 a) (u32 n) s) as [[] s'| | |]; first [done|apply IH; [done|lia]].
Qed.
End tree.

(** ** Compatible strings *)
Definition texts (ss : list (list Z)) : Prop := Forall (fun s => text s /\ s <> []) ss.
Lemma flat_cons s ss u : flat (s :: ss) ++ u = s ++ 0 :: (flat ss ++ u).
Proof. unfold flat. cbn [fmap list_fmap concat]. by rewrite <-!app_assoc. Qed.
Lemma flat_cons_len s ss : zlen (flat (s :: ss)) = zlen s + 1 + zlen (flat ss).
Proof. unfold flat, zlen. cbn [fmap list_fmap concat]. rewrite !length_app. cbn. lia. Qed.
Lemma text_closed s u : text s -> cstring (s ++ 0 :: u) s.
Proof. intros. by exists u. Qed.
Lemma text_head (s : list Z) u : text s -> s <> [] -> exists c, head (s ++ 0 :: u) = Some c /\ c <> 0.
Proof. intros Hs Hne. destruct s as [|c s]; [done|]. exists c. split; [done|]. by apply Forall_cons in Hs as [Hc _]. Qed.
Lemma drop_text (s : list Z) u : drop (Z.to_nat (zlen s + 1)) (s ++ 0 :: u) = u.
Proof. unfold zlen. replace (Z.to_nat _) with (length s + 1)%nat by lia. by rewrite <-drop_drop, drop_app_length. Qed.

Lemma fdt_driver_loop_run device x drs u : cstring device x -> texts drs -> forall fuel, (length drs < fuel)%nat ->
  zlen (flat drs) < 2 ^ 31 -> fdt_driver_loop fuel device (flat drs ++ u) (zlen (flat drs)) = Some (bool_decide (x ∈ drs)).
Proof.
  intros Hd. induction 1 as [|s drs [Hs Hne] _ IH]; intros [|fuel] Hf Hl; cbn [length] in Hf; try lia; cbn [fdt_driver_loop]; [done|].
  rewrite flat_cons_len in *. pose proof (zlen_nonneg s). pose proof (zlen_nonneg (flat drs)).
  rewrite (proj2 (Z.ltb_lt _ _)) by lia. rewrite flat_cons. destruct (text_head s (flat drs ++ u) Hs Hne) as (c & -> & Hc). cbn [mbind option_bind].
  rewrite (proj2 (Z.eqb_neq c 0)) by done. pose proof (text_closed _ (flat drs ++ u) Hs) as Hcs.
  erewrite strcmp_correct by done. cbn [mbind option_bind].
  destruct (decide (x = s)) as [E|E]; [rewrite !bool_decide_true by (first [exact E|apply elem_of_cons; by left]); done|].
  rewrite (bool_decide_false (x = s)) by done. erewrite strlen_spec by done. cbn [mbind option_bind]. fold (zlen s).
  rewrite drop_text, s32_small by lia. replace (_ + 1 + zlen (flat drs) - (zlen s + 1)) with (zlen (flat drs)) by lia.
  rewrite IH by lia. f_equal. apply bool_decide_ext. rewrite elem_of_cons. naive_solver.
Qed.

(** A driver fits a device when some string of the one is a string of the other. *)
Theorem fdt_compatable_correct devs drs u v : texts devs -> texts drs -> zlen (flat devs) < 2 ^ 32 -> zlen (flat drs) < 2 ^ 31 ->
  fdt_compatable (flat devs ++ u) (zlen (flat devs)) (flat drs ++ v) (zlen (flat drs)) =
    Some (bool_decide (Exists (fun x => x ∈ drs) devs)).
Proof.
  intros Hdv Hdr. unfold fdt_compatable.
  assert (Hlen : forall ss, texts ss -> (length ss <= length (flat ss))%nat).
  { induction 1 as [|s ss _ _ IH]; [done|]. pose proof (flat_cons_len s ss) as E. unfold zlen in E. cbn [length]. lia. }
  assert (Hg : forall fuel, (length devs < fuel)%nat -> zlen (flat devs) < 2 ^ 32 -> zlen (flat drs) < 2 ^ 31 ->
    fdt_device_loop fuel (flat devs ++ u) (zlen (flat devs)) (flat drs ++ v) (zlen (flat drs)) = Some (bool_decide (Exists (fun x => x ∈ drs) devs))).
  { induction Hdv as [|s devs [Hs Hne] _ IH]; intros [|fuel] Hf Hl1 Hl2; cbn [length] in Hf; try lia; cbn [fdt_device_loop].
    { done. }
    rewrite flat_cons_len in *. pose proof (zlen_nonneg s). pose proof (zlen_nonneg (flat devs)). pose proof (zlen_nonneg (flat drs)).
    rewrite (proj2 (Z.ltb_lt _ _)) by lia. rewrite flat_cons. destruct (text_head s (flat devs ++ u) Hs Hne) as (c & -> & Hc). cbn [mbind option_bind].
    rewrite (proj2 (Z.eqb_neq c 0)) by done. pose proof (text_closed _ (flat devs ++ u) Hs) as Hcs. rewrite s32_small by lia.
    erewrite fdt_driver_loop_run; [|exact Hcs|done| |done].
    2: { rewrite length_app. specialize (Hlen drs Hdr). lia. }
    cbn [mbind option_bind]. destruct (decide (s ∈ drs)) as [E|E].
    { rewrite !bool_decide_true by (first [exact E|apply Exists_cons; by left]). done. }
    rewrite (bool_decide_false (s ∈ drs)) by done.
    erewrite strlen_spec by done. cbn [mbind option_bind]. fold (zlen s).
    rewrite drop_text, u32_small by lia. replace (_ + 1 + zlen (flat devs) - (zlen s + 1)) with (zlen (flat devs)) by lia.
    rewrite IH by lia. f_equal. apply bool_decide_ext. rewrite Exists_cons. tauto. }
  intros H1 H2. apply Hg; [|done|done]. rewrite length_app. specialize (Hlen devs Hdv). lia.
Qed.

(** ** The flattened form *)
Definition padded (l : list Z) : list Z := l ++ replicate (Z.to_nat (pad (zlen l) - zlen l)) 0.
Fixpoint flatten (its : items) : list Z :=
  match its with
  | Done => be32 FDT_END_NODE
  | Nop r => be32 FDT_NOP ++ flatten r
  | Property no _ d r => be32 FDT_PROP ++ be32 (zlen d) ++ be32 no ++ padded d ++ flatten r
  | Child n sub r => be32 FDT_BEGIN_NODE ++ padded (n ++ [0]) ++ flatten sub ++ flatten r
  end.

Lemma zlen_app {A} (l1 l2 : list A) : zlen (l1 ++ l2) = zlen l1 + zlen l2.
Proof. unfold zlen. rewrite length_app. lia. Qed.
Lemma zlen_padded l : zlen (padded l) = pad (zlen l).
Proof.
  unfold padded. rewrite zlen_app. unfold zlen at 2. rewrite length_replicate. pose proof (pad_bounds (zlen l)). lia.
Qed.
Lemma zlen_be32 x : zlen (be32 x) = 4.
Proof. done. Qed.
Lemma zlen_flatten its : zlen (flatten its) = size its.
Proof.
  induction its as [|r IH|no n d r IH|n sub IH1 r IH2]; cbn [flatten size]; rewrite ?zlen_app, ?zlen_be32, ?zlen_padded, ?zlen_app; [done|lia..|].
  change (zlen [0]) with 1. lia.
Qed.

Section encoded.
Variables (blob : list Z) (dtb : Z).
Abbreviation bytes_at := (bytes_at blob dtb).
Implicit Types (p strs : Z) (d l : list Z).

Lemma bytes_at_app p l1 l2 : bytes_at p (l1 ++ l2) <-> bytes_at p l1 /\ bytes_at (p + zlen l1) l2.
Proof.
  unfold FdtProps.bytes_at, zlen. split.
  - intros H. split; intros i b Hi.
    + apply H. by apply lookup_app_l_Some.
    + replace (p + Z.of_nat (length l1) + Z.of_nat i) with (p + Z.of_nat (length l1 + i)) by lia. apply H.
      by rewrite lookup_app_r, Nat.add_comm, Nat.add_sub by lia.
  - intros [H1 H2] i b [Hi|[Hi Hl]]%lookup_app_Some; [by apply H1|].
    replace (p + Z.of_nat i) with (p + Z.of_nat (length l1) + Z.of_nat (i - length l1)) by lia. by apply H2.
Qed.

Lemma bytes_at_middle pre l post : blob = pre ++ l ++ post -> bytes_at (dtb + zlen pre) l.
Proof.
  intros -> i b Hi. unfold byte_at. apply znth_lookup. unfold zlen. split; [lia|].
  replace (Z.to_nat _) with (length pre + i)%nat by lia. rewrite lookup_app_r, Nat.add_comm, Nat.add_sub by lia. by apply lookup_app_l_Some.
Qed.

Lemma be32_at p x : 0 <= x < 2 ^ 32 -> bytes_at p (be32 x) -> word_at blob dtb p = Some x.
Proof. intros Hx Hb. apply (bytes_word _ _ _ _ _ Hb). cbn. f_equal. by apply beto32_be32. Qed.

(** What the encoding needs of the tree: names are texts, the names of properties are in the strings. *)
Fixpoint encodable strs (its : items) : Prop :=
  match its with
  | Done => True
  | Nop r => encodable strs r
  | Property no n d r => 0 <= no /\ strs + no < 2 ^ 32 /\ no < 2 ^ 32 /\ zlen d < 2 ^ 32 /\ cstring (text_at blob dtb (strs + no)) n /\ encodable strs r
  | Child n sub r => text n /\ encodable strs sub /\ encodable strs r
  end.

Lemma name_at p n : text n -> bytes_at p (padded (n ++ [0])) -> cstring (text_at blob dtb p) n.
Proof.
  intros Hn Hb. destruct (bytes_at_text _ _ _ _ Hb) as (t & Et); [by unfold padded; destruct n|]. rewrite Et. unfold padded.
  rewrite <-!app_assoc. cbn [app]. by apply text_closed.
Qed.

(** Where the encoding of a tree lies, the tree is. *)
Theorem flatten_at strs its : forall p, bytes_at p (flatten its) -> encodable strs its -> items_at blob dtb strs p its.
Proof.
  induction its as [|r IH|no n d r IH|n sub IH1 r IH2]; intros p Hb He; cbn [flatten items_at encodable] in *.
  - by apply be32_at.
  - apply bytes_at_app in Hb as [Hw Hb]. split; [by apply be32_at|]. by apply IH.
  - destruct He as (H1 & H2 & H3 & H4 & H5 & He). apply bytes_at_app in Hb as [Hw Hb]. apply bytes_at_app in Hb as [Hl Hb].
    apply bytes_at_app in Hb as [Hno Hb]. apply bytes_at_app in Hb as [Hd Hb]. rewrite !zlen_be32, ?zlen_padded in *.
    pose proof (zlen_nonneg d). split_and!; try done.
    + by apply be32_at.
    + by apply be32_at.
    + apply be32_at; [lia|]. by replace (p + 8) with (p + 4 + 4) by lia.
    + replace (p + 12) with (p + 4 + 4 + 4) by lia. unfold padded in Hd. by apply bytes_at_app in Hd as [Hd _].
    + apply IH; [|done]. unfold behind_prop. by replace (p + 12 + pad (zlen d)) with (p + 4 + 4 + 4 + pad (zlen d)) by lia.
  - destruct He as (Hn & He1 & He2). apply bytes_at_app in Hb as [Hw Hb]. apply bytes_at_app in Hb as [Hname Hb].
    apply bytes_at_app in Hb as [Hs Hb]. rewrite !zlen_be32, ?zlen_padded, ?zlen_flatten, ?zlen_app in *. change (zlen [0]) with 1 in *.
    split_and!.
    + by apply be32_at.
    + by apply name_at.
    + by apply IH1.
    + by apply IH2.
Qed.
End encoded.

(** ** A blob
    A root that is compatible with "v", with a node "cpus" of handle 7 and two
    registers, and the strings "compatible", "phandle" and "reg". *)
Definition demo_cpus : items :=
  Property 11 phandle (be32 7) (Property 19 (name_of text_reg) (be32 16 ++ be32 1 ++ be32 32 ++ be32 2) Done).
Definition demo_cpus_name : list Z := [99; 112; 117; 115].
Definition demo_items : items := Property 0 compatible [118; 0] (Nop (Child demo_cpus_name demo_cpus Done)).
Definition demo_strings : list Z := text_compatible ++ text_phandle ++ text_reg.
Definition demo_struct : list Z := flatten (Child [] demo_items Done).
Definition demo_head : fdt_header :=
  mk_fdt_header FDT_MAGIC (40 + 16 + zlen demo_struct + zlen demo_strings) 56 (56 + zlen demo_struct) 40 17 16 0
    (zlen demo_strings) (zlen demo_struct).
Definition demo_front : list Z :=
  be32 (magic demo_head) ++ be32 (totalsize demo_head) ++ be32 (off_dt_struct demo_head) ++ be32 (off_dt_strings demo_head) ++
  be32 (off_mem_rsvmap demo_head) ++ be32 (version demo_head) ++ be32 (last_comp_version demo_head) ++ be32 (boot_cpuid_phys demo_head) ++
  be32 (size_dt_strings demo_head) ++ be32 (size_dt_struct demo_head) ++ replicate 16 0.
Definition demo_blob : list Z := demo_front ++ demo_struct ++ demo_strings.
Definition demo_dtb : Z := 0x8000.

Lemma demo_bounds : 0 < demo_dtb /\ demo_dtb + zlen demo_blob < 2 ^ 32.
Proof. by vm_compute. Qed.
Lemma demo_header_ok : header_ok demo_blob demo_dtb demo_head.
Proof. by vm_compute. Qed.
Lemma demo_strings_ok : strings_ok demo_dtb demo_head.
Proof. by vm_compute. Qed.
Lemma demo_encodable : encodable demo_blob demo_dtb (strings_of demo_dtb demo_head) (Child [] demo_items Done).
Proof.
  assert (Hc : forall no n rest, text_at demo_blob demo_dtb (strings_of demo_dtb demo_head + no) = n ++ 0 :: rest -> text n ->
    cstring (text_at demo_blob demo_dtb (strings_of demo_dtb demo_head + no)) n) by (intros no n rest -> Hn; by exists rest).
  cbn [encodable demo_items demo_cpus]. split_and!; try (vm_compute; done).
  - apply (Hc 0 _ (text_phandle ++ text_reg)); [vm_compute; reflexivity|by repeat constructor].
  - by repeat constructor.
  - apply (Hc 11 _ text_reg); [vm_compute; reflexivity|by repeat constructor].
  - apply (Hc 19 _ []); [vm_compute; reflexivity|by repeat constructor].
Qed.
Lemma demo_at : items_at demo_blob demo_dtb (strings_of demo_dtb demo_head) (demo_dtb + 56) (Child [] demo_items Done).
Proof.
  apply flatten_at; [|exact demo_encodable]. change 56 with (zlen demo_front). apply (bytes_at_middle _ _ demo_front demo_struct demo_strings). reflexivity.
Qed.

Definition demo_node : Z := demo_dtb + 56.
Lemma demo_node_at : node_at demo_blob demo_dtb (strings_of demo_dtb demo_head) demo_node [] demo_items.
Proof. exact (child_node _ _ _ _ _ _ _ demo_at). Qed.
Lemma demo_closed : closed_ok demo_items /\ handles_ok demo_items.
Proof.
  split; cbn [closed_ok handles_ok demo_items demo_cpus]; split_and!; try done.
  - intros _. exists [[118]]. split; [done|]. by repeat constructor.
Qed.

Lemma fdt_node_property_correct_witness : exists data,
  fdt_node_property demo_blob demo_dtb demo_node text_compatible None tt = Ok (2, data) tt /\
  data = Some (demo_node + 20) /\ bytes_at demo_blob demo_dtb (demo_node + 20) [118; 0].
Proof.
  destruct (fdt_node_property_correct demo_blob demo_dtb demo_bounds demo_head text_compatible compatible demo_node [] demo_items tt
    demo_header_ok demo_strings_ok (proj1 (proj2 texts_closed)) demo_node_at) as (data & Hrun & Hd).
  exists data. split; [exact Hrun|]. apply Hd. vm_compute. reflexivity.
Defined.

Lemma fdt_find_node_phandle_correct_witness : fdt_find_node_phandle demo_blob demo_dtb demo_node 7 tt = Ok (demo_node + 28) tt.
Proof.
  exact (fdt_find_node_phandle_correct demo_blob demo_dtb demo_bounds demo_head 7 demo_node [] demo_items tt
    demo_header_ok demo_strings_ok demo_node_at (proj2 demo_closed)).
Defined.

Definition record_node (n : Z) : M (list Z) bool := fun s => Ok true (s ++ [n]).
Lemma fdt_find_node_compatable_correct_witness :
  fdt_find_node_compatable demo_blob demo_dtb [118; 0] record_node [] = Ok tt [demo_node].
Proof.
  rewrite (fdt_find_node_compatable_correct demo_blob demo_dtb demo_bounds [118; 0] record_node demo_head [] demo_items []
    demo_header_ok demo_strings_ok); [vm_compute; reflexivity|exists []; split; [reflexivity|repeat constructor; lia]|
    vm_compute; discriminate|vm_compute; reflexivity|exact demo_node_at|exact (proj1 demo_closed)].
Defined.

Definition path_cpus : list Z := [47; 99; 112; 117; 115; 0].
Lemma fdt_find_node_path_correct_witness : fdt_find_node_path demo_blob demo_dtb demo_node path_cpus tt = Ok (demo_node + 28) tt.
Proof.
  exact (fdt_find_node_path_correct demo_blob demo_dtb demo_bounds (strings_of demo_dtb demo_head) demo_node [] demo_items
    (removelast path_cpus) [] tt demo_node_at ltac:(repeat constructor; discriminate)).
Defined.

Lemma fdt_compatable_correct_witness : fdt_compatable [118; 0; 119; 0] 4 [119; 0] 2 = Some true.
Proof.
  exact (fdt_compatable_correct [[118]; [119]] [[119]] [] [] ltac:(repeat constructor; done) ltac:(repeat constructor; done)
    ltac:(vm_compute; reflexivity) ltac:(vm_compute; reflexivity)).
Defined.

Lemma flatten_at_witness : items_at demo_blob demo_dtb (strings_of demo_dtb demo_head) (demo_dtb + 56) (Child [] demo_items Done).
Proof.
  apply flatten_at; [|exact demo_encodable]. change 56 with (zlen demo_front).
  apply (bytes_at_middle _ _ demo_front demo_struct demo_strings). reflexivity.
Defined.

(** A path names every node its parts are prefixes of, and the other way round: "/c"
    and "/cpus1" find the node "cpus" as well. *)
Lemma path_prefix : fdt_find_node_path demo_blob demo_dtb demo_node [47; 99; 0] tt = Ok (demo_node + 28) tt /\
  path_compare (demo_cpus_name ++ [0]) [99; 112; 117; 115; 49; 47; 97; 0] = Some (Some [49; 47; 97; 0]).
Proof. split; vm_compute; reflexivity. Qed.

(** Register [ind] is looked for eight times as far as it is: the second register of a
    node is read from behind its property. *)
Lemma regs_index : fdt_node_regs demo_blob demo_dtb (demo_node + 28) 0 tt = Ok (Some (16, 1)) tt /\
  fdt_node_regs demo_blob demo_dtb (demo_node + 28) 1 tt <> Ok (Some (32, 2)) tt.
Proof. split; [vm_compute; reflexivity|vm_compute; discriminate]. Qed.

(** A node without registers has any number of them. *)
Lemma regs_missing : fdt_node_regs demo_blob demo_dtb demo_node 5 tt <> Ok None tt.
Proof. vm_compute. discriminate. Qed.
