(* ===== verification/Net.v ===== *)
(** * The network stack: state, ethernet and address resolution

    lib/net/net.h, ip.h, eth.c and arp.c.  Objects that are shared are kept by
    address; the entries, requests, fragments and tcp packets, which have one owner
    each, are lists of records with the addresses they were allocated at.  A packet is
    the list of the bytes of its buffer.  The process around the stack (memory, device,
    replies to clients) is an interface, [Host]. *)
From S2P Require Import Prelude Bytes.

Local Open Scope Z_scope.
Local Open Scope c_scope.

(** The sizes that are asked for. *)
Definition sizeof_eth_hdr : Z := 14.
Definition sizeof_ipv4_hdr : Z := 20.
Definition sizeof_icmp_hdr : Z := 8.
Definition sizeof_udp_hdr : Z := 8.
Definition sizeof_tcp_hdr : Z := 20.
Definition sizeof_arp_request : Z := 16.
Definition sizeof_arp_entry : Z := 16.
Definition sizeof_binding : Z := 20.
Definition sizeof_binding_ip : Z := 28.
Definition sizeof_ip_pkt_frag : Z := 16.
Definition sizeof_ip_pkt : Z := 32.
Definition sizeof_tcp_pkt : Z := 20.
Definition sizeof_tcp_con : Z := 64.
Definition sizeof_udp_write_req : Z := 28.

Definition IP_ICMP : Z := 0x01.
Definition IP_TCP : Z := 0x06.
Definition IP_UDP : Z := 0x11.
Definition NET_proto_udp : Z := 0.
Definition NET_proto_tcp : Z := 1.
Definition TCP_flag_fin : Z := 1.
Definition TCP_flag_syn : Z := 2.
Definition TCP_flag_rst : Z := 4.
Definition TCP_flag_psh : Z := 8.
Definition TCP_flag_ack : Z := 16.

Inductive tcp_state :=
  | TCP_state_listen | TCP_state_opening | TCP_state_syn_sent | TCP_state_syn_received | TCP_state_established
  | TCP_state_fin_wait_1 | TCP_state_fin_wait_2 | TCP_state_close_wait | TCP_state_closing | TCP_state_last_ack
  | TCP_state_time_wait | TCP_state_closed.
#[export] Instance tcp_state_eq_dec : EqDecision tcp_state.
Proof. solve_decision. Defined.

(** ** Objects *)
Record ip_pkt_frag := mk_frag { fr_at : Z; fr_offset : Z; fr_data_at : Z; fr_data : list Z; fr_len : Z }.
Record ip_pkt := mk_ip_pkt {
  ip_next : Z; ip_src : list Z; ip_dst : list Z; ip_protocol : Z; ip_id : Z; ip_src_port : Z;
  ip_have_last : bool; ip_frags : list ip_pkt_frag; ip_data_at : Z; ip_data : list Z; ip_len : Z
}.
Record tcp_pkt := mk_tcp_pkt { tp_at : Z; tp_data_at : Z; tp_data : list Z; tp_len : Z; tp_seq : Z; tp_flags : Z }.
Record tcp_con := mk_tcp_con {
  cn_next : Z; cn_binding : option Z; cn_id : Z; cn_port_rem : Z; cn_mac_rem : list Z; cn_addr_rem : option (list Z);
  cn_state : tcp_state; cn_closing : bool; cn_window_size_loc : Z; cn_window_size_rem : Z; cn_window_sent : Z;
  cn_ack : Z; cn_next_seq : Z; cn_sending : list tcp_pkt; cn_offset : Z; cn_recv_wait : list tcp_pkt
}.
Record binding_ip := mk_binding_ip {
  bi_addr_loc : list Z; bi_port_loc : Z;
  bi_listen_con : Z; bi_next_con_id : Z; bi_cons : Z;
  bi_offset : Z; bi_recv_wait : Z
}.
Record binding := mk_binding { bd_next : Z; bd_proc_id : Z; bd_id : Z; bd_proto : Z; bd_proto_arg : Z }.
Record arp_entry := mk_arp_entry { ae_at : Z; ae_ip : list Z; ae_mac : list Z }.
Record udp_write_req := mk_udp_write_req {
  uw_at : Z; uw_binding : Z; uw_cap : Z; uw_va : Z; uw_len : Z; uw_addr_rem : list Z; uw_port_rem : Z
}.
(** The functions a request is made with: udp_write_finish and connect_tcp_arp. *)
Inductive arp_func := F_udp_write (r : udp_write_req) | F_connect_tcp (c : Z).
Record arp_request := mk_arp_request { aq_at : Z; aq_ip : list Z; aq_func : arp_func }.

(** Answers; what the code leaves unset in a message is [None]. *)
Inductive proto_rsp := P_none | P_udp (addr_rem : list Z) (port_rem : Z) | P_tcp (con_id : Z).
Inductive net_rsp :=
  | R_bind (ret : Z) (chan_id : option Z)
  | R_unbind (ret chan_id : Z)
  | R_tcp_connect (ret chan_id con_id : Z)
  | R_tcp_disconnect (ret chan_id con_id : Z)
  | R_tcp_listen (ret chan_id con_id : Z)
  | R_read (ret chan_id len : Z) (proto : proto_rsp)
  | R_write (ret chan_id len : Z) (proto : proto_rsp).

(** The process around the stack.  A block comes with the bytes it holds. *)
Class Host (E : Type) := {
  h_malloc : Z -> M E (Z * list Z);
  h_free : Z -> M E unit;
  h_send_pkt : list Z -> M E unit;
  h_reply : Z -> Z -> net_rsp -> M E unit;
  h_reply_cap : Z -> Z -> net_rsp -> Z -> M E unit;
  h_map : Z -> M E Z;
  h_unmap : Z -> Z -> M E Z;
  h_read : Z -> Z -> M E (list Z);
  h_write : Z -> Z -> list Z -> M E unit
}.

(** [struct net_dev] with [struct net_dev_internal]. *)
Record net_dev (E : Type) := mk_net_dev {
  nd_mount_eid : Z; nd_ipv4_ident : Z; nd_mac : list Z; nd_ipv4 : list Z;
  ni_arp_entries : list arp_entry; ni_arp_requests : list arp_request;
  ni_n_binding_id : Z; ni_n_free_port : Z; ni_bindings : Z; ni_pkts : option Z;
  ns_binding : gmap Z binding; ns_ip : gmap Z binding_ip; ns_con : gmap Z tcp_con; ns_pkt : gmap Z ip_pkt;
  nd_env : E
}.
Arguments mk_net_dev {E}.
Arguments nd_mount_eid {E}.
Arguments nd_ipv4_ident {E}.
Arguments nd_mac {E}.
Arguments nd_ipv4 {E}.
Arguments ni_arp_entries {E}.
Arguments ni_arp_requests {E}.
Arguments ni_n_binding_id {E}.
Arguments ni_n_free_port {E}.
Arguments ni_bindings {E}.
Arguments ni_pkts {E}.
Arguments ns_binding {E}.
Arguments ns_ip {E}.
Arguments ns_con {E}.
Arguments ns_pkt {E}.
Arguments nd_env {E}.

Section stack.
Context {E : Type} `{Host E}.
Implicit Types (n : net_dev E).
Abbreviation NM := (M (net_dev E)).

Definition set_nd_ipv4_ident v n : net_dev E :=
  mk_net_dev (nd_mount_eid n) v (nd_mac n) (nd_ipv4 n) (ni_arp_entries n) (ni_arp_requests n)
    (ni_n_binding_id n) (ni_n_free_port n) (ni_bindings n) (ni_pkts n) (ns_binding n) (ns_ip n) (ns_con n)
    (ns_pkt n) (nd_env n).
Definition set_ni_arp_entries v n : net_dev E :=
  mk_net_dev (nd_mount_eid n) (nd_ipv4_ident n) (nd_mac n) (nd_ipv4 n) v (ni_arp_requests n)
    (ni_n_binding_id n) (ni_n_free_port n) (ni_bindings n) (ni_pkts n) (ns_binding n) (ns_ip n) (ns_con n)
    (ns_pkt n) (nd_env n).
Definition set_ni_arp_requests v n : net_dev E :=
  mk_net_dev (nd_mount_eid n) (nd_ipv4_ident n) (nd_mac n) (nd_ipv4 n) (ni_arp_entries n) v
    (ni_n_binding_id n) (ni_n_free_port n) (ni_bindings n) (ni_pkts n) (ns_binding n) (ns_ip n) (ns_con n)
    (ns_pkt n) (nd_env n).
Definition set_ni_n_binding_id v n : net_dev E :=
  mk_net_dev (nd_mount_eid n) (nd_ipv4_ident n) (nd_mac n) (nd_ipv4 n) (ni_arp_entries n) (ni_arp_requests n)
    v (ni_n_free_port n) (ni_bindings n) (ni_pkts n) (ns_binding n) (ns_ip n) (ns_con n) (ns_pkt n)
    (nd_env n).
Definition set_ni_bindings v n : net_dev E :=
  mk_net_dev (nd_mount_eid n) (nd_ipv4_ident n) (nd_mac n) (nd_ipv4 n) (ni_arp_entries n) (ni_arp_requests n)
    (ni_n_binding_id n) (ni_n_free_port n) v (ni_pkts n) (ns_binding n) (ns_ip n) (ns_con n) (ns_pkt n)
    (nd_env n).
Definition set_ni_pkts v n : net_dev E :=
  mk_net_dev (nd_mount_eid n) (nd_ipv4_ident n) (nd_mac n) (nd_ipv4 n) (ni_arp_entries n) (ni_arp_requests n)
    (ni_n_binding_id n) (ni_n_free_port n) (ni_bindings n) v (ns_binding n) (ns_ip n) (ns_con n) (ns_pkt n)
    (nd_env n).
Definition set_ns_binding v n : net_dev E :=
  mk_net_dev (nd_mount_eid n) (nd_ipv4_ident n) (nd_mac n) (nd_ipv4 n) (ni_arp_entries n) (ni_arp_requests n)
    (ni_n_binding_id n) (ni_n_free_port n) (ni_bindings n) (ni_pkts n) v (ns_ip n) (ns_con n) (ns_pkt n)
    (nd_env n).
Definition set_ns_ip v n : net_dev E :=
  mk_net_dev (nd_mount_eid n) (nd_ipv4_ident n) (nd_mac n) (nd_ipv4 n) (ni_arp_entries n) (ni_arp_requests n)
    (ni_n_binding_id n) (ni_n_free_port n) (ni_bindings n) (ni_pkts n) (ns_binding n) v (ns_con n) (ns_pkt n)
    (nd_env n).
Definition set_ns_con v n : net_dev E :=
  mk_net_dev (nd_mount_eid n) (nd_ipv4_ident n) (nd_mac n) (nd_ipv4 n) (ni_arp_entries n) (ni_arp_requests n)
    (ni_n_binding_id n) (ni_n_free_port n) (ni_bindings n) (ni_pkts n) (ns_binding n) (ns_ip n) v (ns_pkt n)
    (nd_env n).
Definition set_ns_pkt v n : net_dev E :=
  mk_net_dev (nd_mount_eid n) (nd_ipv4_ident n) (nd_mac n) (nd_ipv4 n) (ni_arp_entries n) (ni_arp_requests n)
    (ni_n_binding_id n) (ni_n_free_port n) (ni_bindings n) (ni_pkts n) (ns_binding n) (ns_ip n) (ns_con n) v
    (nd_env n).
Definition set_nd_env v n : net_dev E :=
  mk_net_dev (nd_mount_eid n) (nd_ipv4_ident n) (nd_mac n) (nd_ipv4 n) (ni_arp_entries n) (ni_arp_requests n)
    (ni_n_binding_id n) (ni_n_free_port n) (ni_bindings n) (ni_pkts n) (ns_binding n) (ns_ip n) (ns_con n)
    (ns_pkt n) v.

Definition on_host {A} (m : M E A) : NM A := zoom nd_env set_nd_env m.
Definition n_malloc (len : Z) : NM (Z * list Z) := on_host (h_malloc len).
(** Memory whose first contents do not matter. *)
Definition alloc (len : Z) : NM Z := let* (a, _) := n_malloc len in ret a.
Definition n_free (a : Z) : NM unit := on_host (h_free a).
Definition n_reply (eid pid : Z) (rp : net_rsp) : NM unit := on_host (h_reply eid pid rp).
Definition n_reply_cap (eid pid : Z) (rp : net_rsp) (cap : Z) : NM unit := on_host (h_reply_cap eid pid rp cap).

(** Objects by address: a pointer that dangles has none. *)
Definition get_binding (a : Z) : NM binding := read FNil (fun n => ns_binding n !! a).
Definition get_ip (a : Z) : NM binding_ip := read FNil (fun n => ns_ip n !! a).
Definition get_con (a : Z) : NM tcp_con := read FNil (fun n => ns_con n !! a).
Definition get_pkt (a : Z) : NM ip_pkt := read FNil (fun n => ns_pkt n !! a).
Definition put_binding (a : Z) (x : binding) : NM unit := modify (fun n => set_ns_binding (<[a := x]> (ns_binding n)) n).
Definition put_ip (a : Z) (x : binding_ip) : NM unit := modify (fun n => set_ns_ip (<[a := x]> (ns_ip n)) n).
Definition put_con (a : Z) (x : tcp_con) : NM unit := modify (fun n => set_ns_con (<[a := x]> (ns_con n)) n).
Definition put_pkt (a : Z) (x : ip_pkt) : NM unit := modify (fun n => set_ns_pkt (<[a := x]> (ns_pkt n)) n).
Definition upd_binding (a : Z) (f : binding -> binding) : NM unit := let* x := get_binding a in put_binding a (f x).
Definition upd_ip (a : Z) (f : binding_ip -> binding_ip) : NM unit := let* x := get_ip a in put_ip a (f x).
Definition upd_con (a : Z) (f : tcp_con -> tcp_con) : NM unit := let* x := get_con a in put_con a (f x).
Definition upd_pkt (a : Z) (f : ip_pkt -> ip_pkt) : NM unit := let* x := get_pkt a in put_pkt a (f x).

(** ** Buffers *)
Definition byte (buf : list Z) (i : Z) : NM Z := read FBounds (fun _ => znth buf i).
Definition sub_bytes (buf : list Z) (i len : Z) : NM (list Z) :=
  if (0 <=? i) && (0 <=? len) && (i + len <=? Z.of_nat (length buf)) then ret (take (Z.to_nat len) (drop (Z.to_nat i) buf))
  else fail FBounds.
Definition splice (buf : list Z) (i : Z) (bs : list Z) : NM (list Z) :=
  if (0 <=? i) && (i + Z.of_nat (length bs) <=? Z.of_nat (length buf)) then
    ret (take (Z.to_nat i) buf ++ bs ++ drop (Z.to_nat i + length bs) buf)
  else fail FBounds.
(** memcmp of 4 or 6 bytes: true when they are equal. *)
Definition same (a b : list Z) : bool := bool_decide (a = b).

(** ** lib/net/eth.c
    The buffer of the packet with its address, or [None]; its body begins at 14. *)
Definition create_eth_pkt (dst_mac : list Z) (type len : Z) : NM (option (Z * list Z)) :=
  let pkt_len := u32 (sizeof_eth_hdr + len) in
  let* (pkt, buf) := n_malloc (u32 (sizeof_eth_hdr + pkt_len)) in
  if pkt =? NIL then ret None
  else
    let* n := get in
    let* buf := splice buf 6 (nd_mac n) in
    let* buf := splice buf 0 dst_mac in
    let* buf := splice buf 12 (be16 type) in
    ret (Some (pkt, buf)).

Definition send_eth_pkt (buf : list Z) (len : Z) : NM unit :=
  let* bs := sub_bytes buf 0 (u32 (sizeof_eth_hdr + len)) in
  on_host (h_send_pkt bs).

(** ** lib/net/arp.c *)
Fixpoint find_entry (ip : list Z) (l : list arp_entry) : option arp_entry :=
  match l with
  | [] => None
  | e :: l => if same (ae_ip e) ip then Some e else find_entry ip l
  end.
(** The address that was copied to [mac_dst], or [None] for false. *)
Definition arp_match_ip (ip_src : list Z) : NM (option (list Z)) :=
  let* n := get in ret (ae_mac <$> find_entry ip_src (ni_arp_entries n)).

(** The body of a request (operation 1) or an answer (2). *)
Definition arp_body (oper : Z) (src_mac src_ip tgt_mac tgt_ip : list Z) : list Z :=
  [0; 1; 0x08; 0x00; 6; 4; 0; oper] ++ src_mac ++ src_ip ++ tgt_mac ++ tgt_ip.

Section functions.
(** The call of a request's function. *)
Variable call : arp_func -> list Z -> NM unit.

Definition arp_request_ (ipv4 : list Z) (func : arp_func) : NM unit :=
  let* m := arp_match_ip ipv4 in
  match m with
  | Some mac => call func mac
  | None =>
    let* p := create_eth_pkt [0xff; 0xff; 0xff; 0xff; 0xff; 0xff] 0x0806 28 in
    match p with
    | None => ret tt
    | Some (pkt, buf) =>
      let* r := alloc sizeof_arp_request in
      if r =? NIL then n_free pkt
      else
        modify (fun n => set_ni_arp_requests (mk_arp_request r ipv4 func :: ni_arp_requests n) n) ;;;
        let* n := get in
        let* buf := splice buf sizeof_eth_hdr (arp_body 1 (nd_mac n) (nd_ipv4 n) [0; 0; 0; 0; 0; 0] ipv4) in
        send_eth_pkt buf 28
    end
  end.

Fixpoint set_entry (ip mac : list Z) (l : list arp_entry) : list arp_entry :=
  match l with
  | [] => []
  | e :: l => if same (ae_ip e) ip then mk_arp_entry (ae_at e) (ae_ip e) mac :: l else e :: set_entry ip mac l
  end.
(** The loop over the requests; what is left of them. *)
Fixpoint answer_requests (ipv4 mac : list Z) (l : list arp_request) : NM (list arp_request) :=
  match l with
  | [] => ret []
  | f :: l =>
    if same (aq_ip f) ipv4 then
      call (aq_func f) mac ;;;
      n_free (aq_at f) ;;;
      answer_requests ipv4 mac l
    else let* l := answer_requests ipv4 mac l in ret (f :: l)
  end.
Definition arp_add_entry (ipv4 mac : list Z) : NM unit :=
  let* n := get in
  let* ok :=
    match find_entry ipv4 (ni_arp_entries n) with
    | Some _ => ret true
    | None =>
      let* e := alloc sizeof_arp_entry in
      if e =? NIL then ret false
      else modify (fun n => set_ni_arp_entries (mk_arp_entry e ipv4 mac :: ni_arp_entries n) n) ;;; ret true
    end in
  if negb ok then ret tt
  else
    modify (fun n => set_ni_arp_entries (set_entry ipv4 mac (ni_arp_entries n)) n) ;;;
    let* n := get in
    let* l := answer_requests ipv4 mac (ni_arp_requests n) in
    modify (set_ni_arp_requests l).

Definition handle_arp_request (src_mac src_ipv4 : list Z) : NM unit :=
  let* p := create_eth_pkt src_mac 0x0806 28 in
  match p with
  | None => ret tt
  | Some (pkt, buf) =>
    let* n := get in
    let* buf := splice buf sizeof_eth_hdr (arp_body 2 (nd_mac n) (nd_ipv4 n) src_mac src_ipv4) in
    send_eth_pkt buf 28 ;;;
    arp_add_entry src_ipv4 src_mac
  end.

Definition handle_arp_response (bdy : list Z) : NM unit :=
  let* src_mac := sub_bytes bdy 8 6 in
  let* src_ip := sub_bytes bdy 14 4 in
  arp_add_entry src_ip src_mac.

(** [hdr] and [bdy] are the bytes from the header and from the body on. *)
Definition handle_arp (hdr bdy : list Z) (len : Z) : NM unit :=
  if len <? 8 then ret tt
  else
    let* b0 := byte bdy 0 in let* b1 := byte bdy 1 in
    let* b2 := byte bdy 2 in let* b3 := byte bdy 3 in
    let* hlen := byte bdy 4 in
    let* plen := byte bdy 5 in
    let* b6 := byte bdy 6 in let* b7 := byte bdy 7 in
    if len <? 8 + hlen * 2 + plen * 2 then ret tt
    else if negb (beto16 b0 b1 =? 1) || negb (beto16 b2 b3 =? 0x800) then ret tt
    else
      let* n := get in
      let* dst := sub_bytes hdr 0 6 in
      if same dst [0xff; 0xff; 0xff; 0xff; 0xff; 0xff] then
        let* tgt := sub_bytes bdy 24 4 in
        if same tgt (nd_ipv4 n) then
          let* src_mac := sub_bytes hdr 6 6 in
          let* src_ipv4 := sub_bytes bdy 14 4 in
          handle_arp_request src_mac src_ipv4
        else ret tt
      else if same dst (nd_mac n) then
        if beto16 b6 b7 =? 2 then handle_arp_response bdy else ret tt
      else ret tt.
End functions.

(** print_mac, without the 0 at the end of each pair. *)
Definition hex_digit (x : Z) : Z := if x <? 10 then x + 48 else x - 10 + 97.
Definition print_mac (mac : list Z) : list Z :=
  let s := concat ((fun b => [hex_digit (Z.land (Z.shiftr b 4) 0xf); hex_digit (Z.land b 0xf); 58]) <$> mac) in
  take 17 s ++ [0].
End stack.
