(* ===== verification/NetIp.v ===== *)
(** * The network stack: internet packets

    lib/net/ip.c up to the reception of packets, and icmp.c.  A packet that is built is
    a buffer; its internet header begins at 14, the header of its protocol at 34. *)
From S2P Require Import Prelude Bytes Net.

Local Open Scope Z_scope.
Local Open Scope c_scope.

(** ** Checksums
    [csum_ip_continue] adds the 16-bit words of the bytes, in a [size_t]. *)
Fixpoint csum_ip_continue (h : list Z) (sum : Z) : Z :=
  match h with
  | [] => sum
  | [a] => u32 (sum + Z.shiftl a 8)
  | a :: b :: h => csum_ip_continue h (u32 (sum + beto16 a b))
  end.
(** [while (sum > 0xffff)]; 32 bits are folded in two rounds. *)
Fixpoint csum_fold {St} (fuel : nat) (sum : Z) : M St Z :=
  match fuel with
  | O => nofuel
  | S fuel => if 0xffff <? sum then csum_fold fuel (Z.land sum 0xffff + Z.shiftr sum 16) else ret sum
  end.
Definition csum_ip_finish {St} (sum : Z) : M St Z :=
  let* s := csum_fold 3 sum in ret (Z.land (u32 (Z.lnot s)) 0xffff).
Definition csum_ip {St} (h : list Z) : M St Z := csum_ip_finish (csum_ip_continue h 0).

Section stack.
Context {E : Type} `{Host E}.
Implicit Types (n : net_dev E).
Abbreviation NM := (M (net_dev E)).

(** The buffer with its address, or [None] for false. *)
Definition create_ipv4_pkt (dst_mac dst_ip : list Z) (hdr_len proto data_len : Z) : NM (option (Z * list Z)) :=
  let ip_len := u32 (hdr_len + data_len) in
  let* p := create_eth_pkt dst_mac 0x0800 ip_len in
  match p with
  | None => ret None
  | Some (pkt, buf) =>
    let* buf := splice buf 14 [Z.lor (Z.shiftl 4 4) (Z.shiftr hdr_len 2)] in
    let* buf := splice buf 16 (be16 ip_len) in
    let* n := get in
    let* buf := splice buf 18 (be16 (nd_ipv4_ident n)) in
    modify (fun n => set_nd_ipv4_ident (u16 (nd_ipv4_ident n + 1)) n) ;;;
    let* buf := splice buf 20 [0; 0] in
    let* buf := splice buf 22 [0xff; proto] in
    let* buf := splice buf 30 dst_ip in
    let* buf := splice buf 26 (nd_ipv4 n) in
    let* buf := splice buf 24 [0; 0] in
    let* hdr := sub_bytes buf 14 hdr_len in
    let* csum := csum_ip hdr in
    let* buf := splice buf 24 (be16 csum) in
    ret (Some (pkt, buf))
  end.
Definition send_ipv4_pkt (buf : list Z) (hdr_len data_len : Z) : NM unit := send_eth_pkt buf (u32 (hdr_len + data_len)).

(** A loop over the bindings has one round for each of them and one more. *)
Fixpoint find_binding_ip_loop (fuel : nat) (b proto port_loc : Z) : NM Z :=
  match fuel with
  | O => nofuel
  | S fuel =>
    if b =? NIL then ret NIL
    else
      let* x := get_binding b in
      let* found :=
        if proto =? bd_proto x then let* ip := get_ip (bd_proto_arg x) in ret (port_loc =? bi_port_loc ip)
        else ret false in
      if (found : bool) then ret b else find_binding_ip_loop fuel (bd_next x) proto port_loc
  end.
Definition find_binding_ip (proto port_loc : Z) : NM Z :=
  let* n := get in find_binding_ip_loop (S (size (ns_binding n))) (ni_bindings n) proto port_loc.

(** ** Packets that are received *)
Definition ip_pkt_new (src dst : list Z) (proto ident : Z) : NM Z :=
  let* p := alloc sizeof_ip_pkt in
  if p =? NIL then ret NIL
  else put_pkt p (mk_ip_pkt NIL src dst proto ident 0 false [] NIL [] 0) ;;; ret p.

(** [free] of a packet: no pointer to it is valid any more. *)
Definition drop_pkt (p : Z) : NM unit := modify (fun n => set_ns_pkt (delete p (ns_pkt n)) n) ;;; n_free p.

Fixpoint free_frags (l : list ip_pkt_frag) (data : list Z) : NM unit :=
  match l with
  | [] => ret tt
  | a :: l =>
    let* bs := sub_bytes (fr_data a) 0 (fr_len a) in
    let* data := splice data (fr_offset a) bs in
    n_free (fr_data_at a) ;;;
    n_free (fr_at a) ;;;
    free_frags l data
  end.
Definition ip_pkt_free (p : Z) : NM unit :=
  let* x := get_pkt p in
  free_frags (ip_frags x) (ip_data x) ;;;
  (if ip_data_at x =? NIL then ret tt else n_free (ip_data_at x)) ;;;
  drop_pkt p.

Fixpoint waiting_loop (fuel : nat) (p : Z) (src : list Z) (proto ident : Z) : NM Z :=
  match fuel with
  | O => nofuel
  | S fuel =>
    if p =? NIL then ret NIL
    else
      let* x := get_pkt p in
      if same (ip_src x) src && (ip_id x =? ident) && (ip_protocol x =? proto) then ret p
      else waiting_loop fuel (ip_next x) src proto ident
  end.
Definition get_waiting_ip_pkt (src dst : list Z) (proto ident : Z) : NM Z :=
  let* n := get in
  let* pkts := read FNil (fun n => ni_pkts n) in
  let* p := waiting_loop (S (size (ns_pkt n))) pkts src proto ident in
  if negb (p =? NIL) then ret p
  else
    let* p := ip_pkt_new src dst proto ident in
    if p =? NIL then ret NIL
    else
      upd_pkt p (fun x => mk_ip_pkt pkts (ip_src x) (ip_dst x) (ip_protocol x) (ip_id x) (ip_src_port x)
        (ip_have_last x) (ip_frags x) (ip_data_at x) (ip_data x) (ip_len x)) ;;;
      modify (set_ni_pkts (Some p)) ;;;
      ret p.

Fixpoint place_frag (f : ip_pkt_frag) (l : list ip_pkt_frag) : list ip_pkt_frag :=
  match l with
  | [] => [f]
  | o :: l => if fr_offset f <? fr_offset o then f :: o :: l else o :: place_frag f l
  end.
Fixpoint no_gap (l : list ip_pkt_frag) : bool :=
  match l with
  | a :: (b :: _) as l => if u32 (fr_offset a + fr_len a) <? fr_offset b then false else no_gap l
  | _ => true
  end.
Definition insert_pkt_frag (p : Z) (f : ip_pkt_frag) (have_last : bool) : NM bool :=
  let* x := get_pkt p in
  let frags := place_frag f (ip_frags x) in
  let have_last := have_last || ip_have_last x in
  let len := if ip_len x <? u32 (fr_offset f + fr_len f) then u32 (fr_offset f + fr_len f) else ip_len x in
  let x := mk_ip_pkt (ip_next x) (ip_src x) (ip_dst x) (ip_protocol x) (ip_id x) (ip_src_port x) have_last frags
    (ip_data_at x) (ip_data x) len in
  put_pkt p x ;;;
  if negb have_last then ret false
  else if negb (no_gap frags) then ret false
  else
    let* (d, bs) := n_malloc len in
    put_pkt p (mk_ip_pkt (ip_next x) (ip_src x) (ip_dst x) (ip_protocol x) (ip_id x) (ip_src_port x) have_last frags
      d (if d =? NIL then [] else bs) len) ;;;
    ret (negb (d =? NIL)).

(** ** lib/net/icmp.c *)
Definition create_icmp_pkt (dst_mac dst_ip : list Z) (data_len : Z) : NM (option (Z * list Z)) :=
  create_ipv4_pkt dst_mac dst_ip 20 IP_ICMP (u32 (sizeof_icmp_hdr + data_len)).
Definition send_icmp_pkt (buf : list Z) (data_len : Z) : NM unit :=
  let* buf := splice buf 36 [0; 0] in
  let* icmp := sub_bytes buf 34 (u32 (sizeof_icmp_hdr + data_len)) in
  let* csum := csum_ip icmp in
  let* buf := splice buf 36 (be16 csum) in
  send_ipv4_pkt buf 20 (u32 (sizeof_icmp_hdr + data_len)).

(** [data] are the bytes of the request, header included. *)
Definition handle_echo_request (src_ipv4 data : list Z) (bdy_len : Z) : NM unit :=
  let* m := arp_match_ip src_ipv4 in
  match m with
  | None => ret tt
  | Some rsp_mac =>
    let* p := create_icmp_pkt rsp_mac src_ipv4 bdy_len in
    match p with
    | None => ret tt
    | Some (pkt, buf) =>
      let* buf := splice buf 34 [0; 0] in
      let* rst := sub_bytes data 4 4 in
      let* buf := splice buf 38 rst in
      let* bdy := sub_bytes data sizeof_icmp_hdr bdy_len in
      let* buf := splice buf 42 bdy in
      send_icmp_pkt buf bdy_len ;;;
      n_free pkt
    end
  end.
Definition handle_icmp (p : Z) : NM unit :=
  let* x := get_pkt p in
  let* type := byte (ip_data x) 0 in
  (if type =? 8 then handle_echo_request (ip_src x) (ip_data x) (u32 (ip_len x - sizeof_icmp_hdr)) else ret tt) ;;;
  ip_pkt_free p.
End stack.
