(* ===== verification/NetUdp.v ===== *)
(** * The network stack: datagrams

    lib/net/udp.c, with the requests of clients (include/net.h): a request is the bytes
    of a message, its fields have fixed places and the lowest byte of a number comes
    first. *)
From S2P Require Import Prelude Bytes Net NetIp.

Local Open Scope Z_scope.
Local Open Scope c_scope.

(** ** union net_req *)
Abbreviation net_req := (list Z).
Definition rq_byte (rq : net_req) (i : nat) : Z := nth i rq 0.
Definition rq_u16 (rq : net_req) (i : nat) : Z := rq_byte rq i + 256 * rq_byte rq (i + 1).
Definition rq_u32 (rq : net_req) (i : nat) : Z := rq_u16 rq i + 65536 * rq_u16 rq (i + 2).
Definition rq_addr (rq : net_req) (i : nat) : list Z := [rq_byte rq i; rq_byte rq (i + 1); rq_byte rq (i + 2); rq_byte rq (i + 3)].
Definition rq_type (rq : net_req) : Z := rq_u32 rq 0.
Definition rq_bind_addr_loc (rq : net_req) : list Z := rq_addr rq 4.
Definition rq_bind_port_loc (rq : net_req) : Z := rq_u16 rq 8.
Definition rq_bind_proto (rq : net_req) : Z := s32 (rq_u32 rq 12).
Definition rq_chan_id (rq : net_req) : Z := s32 (rq_u32 rq 4).
Definition rq_connect_addr_rem (rq : net_req) : list Z := rq_addr rq 8.
Definition rq_connect_port_rem (rq : net_req) : Z := rq_u16 rq 12.
Definition rq_disconnect_con_id (rq : net_req) : Z := s32 (rq_u32 rq 8).
Definition rq_len (rq : net_req) : Z := rq_u32 rq 8.
Definition rq_read_con_id (rq : net_req) : Z := s32 (rq_u32 rq 16).
Definition rq_write_con_id (rq : net_req) : Z := s32 (rq_u32 rq 12).
Definition rq_write_addr_rem (rq : net_req) : list Z := rq_addr rq 12.
Definition rq_write_port_rem (rq : net_req) : Z := rq_u16 rq 16.

Section stack.
Context {E : Type} `{Host E}.
Implicit Types (n : net_dev E).
Abbreviation NM := (M (net_dev E)).

(** The process' frames: frame_map_anywhere, unmap_addr and what is mapped. *)
Definition n_map (cap : Z) : NM Z := on_host (h_map cap).
Definition n_unmap (cap va : Z) : NM Z := on_host (h_unmap cap va).
Definition read_mem (va len : Z) : NM (list Z) := on_host (h_read va len).
(** To [va + o]. *)
Definition write_mem (va o : Z) (bs : list Z) : NM unit := on_host (h_write va o bs).

(** ** Sending *)
Definition send_udp_pkt (b : Z) (mac_rem addr_rem : list Z) (port_rem data data_len : Z) : NM bool :=
  let* x := get_binding b in
  let length := u32 (sizeof_udp_hdr + data_len) in
  let* p := create_ipv4_pkt mac_rem addr_rem 20 IP_UDP length in
  match p with
  | None => ret false
  | Some (pkt, buf) =>
    let* ip := get_ip (bd_proto_arg x) in
    let* buf := splice buf 34 (be16 (bi_port_loc ip) ++ be16 port_rem) in
    let* buf := splice buf 38 (be16 length) in
    let* buf := splice buf 40 [0; 0] in
    let* bs := read_mem data data_len in
    let* buf := splice buf 42 bs in
    send_ipv4_pkt buf 20 length ;;;
    n_free pkt ;;;
    ret true
  end.

Definition udp_write_finish (r : udp_write_req) (mac : list Z) : NM unit :=
  let* ok := send_udp_pkt (uw_binding r) mac (uw_addr_rem r) (uw_port_rem r) (uw_va r) (uw_len r) in
  if negb ok then ret tt
  else
    let* _ := n_unmap (uw_cap r) (uw_va r) in
    let* b := get_binding (uw_binding r) in
    let* n := get in
    n_reply_cap (nd_mount_eid n) (bd_proc_id b) (R_write OK (bd_id b) (uw_len r) P_none) (uw_cap r) ;;;
    n_free (uw_at r).

Section functions.
Variable call : arp_func -> list Z -> NM unit.

Definition add_udp_write_req (b cap va len : Z) (addr_rem : list Z) (port_rem : Z) : NM unit :=
  let* r := alloc sizeof_udp_write_req in
  if r =? NIL then ret tt
  else arp_request_ call addr_rem (F_udp_write (mk_udp_write_req r b cap va len addr_rem port_rem)).

Definition ip_write_udp (rq : net_req) (cap b : Z) : NM unit :=
  let* va := n_map cap in
  if va =? NIL then ret tt
  else add_udp_write_req b cap va (rq_len rq) (rq_write_addr_rem rq) (rq_write_port_rem rq).
End functions.

(** ** Receiving *)
Definition set_src_port (v : Z) (x : ip_pkt) : ip_pkt :=
  mk_ip_pkt (ip_next x) (ip_src x) (ip_dst x) (ip_protocol x) (ip_id x) v
    (ip_have_last x) (ip_frags x) (ip_data_at x) (ip_data x) (ip_len x).
Definition set_ip_next (v : Z) (x : ip_pkt) : ip_pkt :=
  mk_ip_pkt v (ip_src x) (ip_dst x) (ip_protocol x) (ip_id x) (ip_src_port x)
    (ip_have_last x) (ip_frags x) (ip_data_at x) (ip_data x) (ip_len x).
Definition set_bi_udp (offset recv_wait : Z) (x : binding_ip) : binding_ip :=
  mk_binding_ip (bi_addr_loc x) (bi_port_loc x) (bi_listen_con x) (bi_next_con_id x) (bi_cons x) offset recv_wait.

(** The packet whose [next] ends the list from [p] on, which is not empty. *)
Fixpoint last_pkt (fuel : nat) (p : Z) : NM Z :=
  match fuel with
  | O => nofuel
  | S fuel => let* x := get_pkt p in if ip_next x =? NIL then ret p else last_pkt fuel (ip_next x)
  end.

(** The data are read as they are logged. *)
Definition handle_udp (p : Z) : NM unit :=
  let* x := get_pkt p in
  let* hdr := sub_bytes (ip_data x) 0 sizeof_udp_hdr in
  match hdr with
  | [s0; s1; d0; d1; l0; l1; _; _] =>
    let length := beto16 l0 l1 in
    if ip_len x <? length then ret tt
    else
      let data_len := u32 (length - sizeof_udp_hdr) in
      upd_pkt p (set_src_port (beto16 s0 s1)) ;;;
      let* _ := sub_bytes (ip_data x) sizeof_udp_hdr data_len in
      let* b := find_binding_ip NET_proto_udp (beto16 d0 d1) in
      if b =? NIL then ip_pkt_free p
      else
        let* y := get_binding b in
        let* ip := get_ip (bd_proto_arg y) in
        let* n := get in
        if bi_recv_wait ip =? NIL then
          upd_pkt p (set_ip_next NIL) ;;;
          put_ip (bd_proto_arg y) (set_bi_udp (bi_offset ip) p ip)
        else
          let* o := last_pkt (S (size (ns_pkt n))) (bi_recv_wait ip) in
          upd_pkt p (set_ip_next NIL) ;;;
          upd_pkt o (set_ip_next p)
  | _ => fail FBounds
  end.

Definition ip_bind_udp_init (b : Z) : NM Z :=
  let* x := get_binding b in
  upd_ip (bd_proto_arg x) (set_bi_udp 0 NIL) ;;;
  ret OK.

Fixpoint unbind_udp_loop (fuel : nat) (ip : Z) : NM unit :=
  match fuel with
  | O => nofuel
  | S fuel =>
    let* x := get_ip ip in
    if bi_recv_wait x =? NIL then ret tt
    else
      let p := bi_recv_wait x in
      let* y := get_pkt p in
      put_ip ip (set_bi_udp (bi_offset x) (ip_next y) x) ;;;
      ip_pkt_free p ;;;
      unbind_udp_loop fuel ip
  end.
Definition ip_unbind_udp (b : Z) : NM Z :=
  let* x := get_binding b in
  let* n := get in
  unbind_udp_loop (S (size (ns_pkt n))) (bd_proto_arg x) ;;;
  ret OK.

Definition ip_read_udp (rq : net_req) (cap b : Z) : NM unit :=
  let* x := get_binding b in
  let* n := get in
  let zero := P_udp [0; 0; 0; 0] 0 in
  let* va := n_map cap in
  if va =? NIL then n_reply_cap (nd_mount_eid n) (bd_proc_id x) (R_read ERR (bd_id x) 0 zero) cap
  else
    let* ip := get_ip (bd_proto_arg x) in
    let p := bi_recv_wait ip in
    let* (len, proto) :=
      if p =? NIL then ret (0, zero)
      else
        let* y := get_pkt p in
        let o := bi_offset ip in
        let left := u32 (ip_len y - sizeof_udp_hdr - o) in
        let l := if left <? rq_len rq then left else rq_len rq in
        let* bs := sub_bytes (ip_data y) (u32 (sizeof_udp_hdr + o)) l in
        write_mem va 0 bs ;;;
        (if u32 (o + l) <? u32 (ip_len y - sizeof_udp_hdr) then
           put_ip (bd_proto_arg x) (set_bi_udp (u32 (o + l)) p ip)
         else
           put_ip (bd_proto_arg x) (set_bi_udp 0 (ip_next y) ip) ;;;
           ip_pkt_free p) ;;;
        ret (l, P_udp (ip_src y) (ip_src_port y)) in
    let* _ := n_unmap cap va in
    n_reply_cap (nd_mount_eid n) (bd_proc_id x) (R_read OK (bd_id x) len proto) cap.
End stack.
