(* ===== verification/NetTcp.v ===== *)
(** * The network stack: connections

    lib/net/tcp.c.  Connections are kept by address; what a connection has to send and
    what it has received are lists of packets that it owns. *)
From S2P Require Import Prelude Bytes Net NetIp NetUdp.

Local Open Scope Z_scope.
Local Open Scope c_scope.

(** Fields of a connection. *)
Section con.
Implicit Types c : tcp_con.
Definition set_cn_next v c : tcp_con :=
  mk_tcp_con v (cn_binding c) (cn_id c) (cn_port_rem c) (cn_mac_rem c) (cn_addr_rem c) (cn_state c)
    (cn_closing c) (cn_window_size_loc c) (cn_window_size_rem c) (cn_window_sent c) (cn_ack c)
    (cn_next_seq c) (cn_sending c) (cn_offset c) (cn_recv_wait c).
Definition set_cn_rem port mac addr c : tcp_con :=
  mk_tcp_con (cn_next c) (cn_binding c) (cn_id c) port mac addr (cn_state c) (cn_closing c)
    (cn_window_size_loc c) (cn_window_size_rem c) (cn_window_sent c) (cn_ack c) (cn_next_seq c)
    (cn_sending c) (cn_offset c) (cn_recv_wait c).
Definition set_cn_mac_rem v c : tcp_con :=
  mk_tcp_con (cn_next c) (cn_binding c) (cn_id c) (cn_port_rem c) v (cn_addr_rem c) (cn_state c)
    (cn_closing c) (cn_window_size_loc c) (cn_window_size_rem c) (cn_window_sent c) (cn_ack c)
    (cn_next_seq c) (cn_sending c) (cn_offset c) (cn_recv_wait c).
Definition set_cn_state v c : tcp_con :=
  mk_tcp_con (cn_next c) (cn_binding c) (cn_id c) (cn_port_rem c) (cn_mac_rem c) (cn_addr_rem c) v
    (cn_closing c) (cn_window_size_loc c) (cn_window_size_rem c) (cn_window_sent c) (cn_ack c)
    (cn_next_seq c) (cn_sending c) (cn_offset c) (cn_recv_wait c).
Definition set_cn_closing v c : tcp_con :=
  mk_tcp_con (cn_next c) (cn_binding c) (cn_id c) (cn_port_rem c) (cn_mac_rem c) (cn_addr_rem c) (cn_state c)
    v (cn_window_size_loc c) (cn_window_size_rem c) (cn_window_sent c) (cn_ack c) (cn_next_seq c)
    (cn_sending c) (cn_offset c) (cn_recv_wait c).
Definition set_cn_window_size_rem v c : tcp_con :=
  mk_tcp_con (cn_next c) (cn_binding c) (cn_id c) (cn_port_rem c) (cn_mac_rem c) (cn_addr_rem c) (cn_state c)
    (cn_closing c) (cn_window_size_loc c) v (cn_window_sent c) (cn_ack c) (cn_next_seq c) (cn_sending c)
    (cn_offset c) (cn_recv_wait c).
Definition set_cn_ack v c : tcp_con :=
  mk_tcp_con (cn_next c) (cn_binding c) (cn_id c) (cn_port_rem c) (cn_mac_rem c) (cn_addr_rem c) (cn_state c)
    (cn_closing c) (cn_window_size_loc c) (cn_window_size_rem c) (cn_window_sent c) v (cn_next_seq c)
    (cn_sending c) (cn_offset c) (cn_recv_wait c).
Definition set_cn_next_seq v c : tcp_con :=
  mk_tcp_con (cn_next c) (cn_binding c) (cn_id c) (cn_port_rem c) (cn_mac_rem c) (cn_addr_rem c) (cn_state c)
    (cn_closing c) (cn_window_size_loc c) (cn_window_size_rem c) (cn_window_sent c) (cn_ack c) v
    (cn_sending c) (cn_offset c) (cn_recv_wait c).
Definition set_cn_sending v c : tcp_con :=
  mk_tcp_con (cn_next c) (cn_binding c) (cn_id c) (cn_port_rem c) (cn_mac_rem c) (cn_addr_rem c) (cn_state c)
    (cn_closing c) (cn_window_size_loc c) (cn_window_size_rem c) (cn_window_sent c) (cn_ack c)
    (cn_next_seq c) v (cn_offset c) (cn_recv_wait c).
Definition set_cn_recv offset v c : tcp_con :=
  mk_tcp_con (cn_next c) (cn_binding c) (cn_id c) (cn_port_rem c) (cn_mac_rem c) (cn_addr_rem c) (cn_state c)
    (cn_closing c) (cn_window_size_loc c) (cn_window_size_rem c) (cn_window_sent c) (cn_ack c)
    (cn_next_seq c) (cn_sending c) offset v.
End con.

Definition set_bi_tcp (listen_con next_con_id cons : Z) (x : binding_ip) : binding_ip :=
  mk_binding_ip (bi_addr_loc x) (bi_port_loc x) listen_con next_con_id cons (bi_offset x) (bi_recv_wait x).
(** A bit of the flags. *)
Definition flag (flags f : Z) : bool := negb (Z.land flags f =? 0).

Section stack.
Context {E : Type} `{Host E}.
Implicit Types (n : net_dev E).
Abbreviation NM := (M (net_dev E)).

Definition connect_tcp_finish (b c : Z) : NM unit :=
  let* x := get_binding b in
  let* y := get_con c in
  let* n := get in
  n_reply (nd_mount_eid n) (bd_proc_id x) (R_tcp_connect OK (bd_id x) (cn_id y)).

Definition listen_tcp_finish (b c : Z) : NM unit :=
  let* x := get_binding b in
  let* ip := get_ip (bd_proto_arg x) in
  let* y := get_con c in
  if negb (c =? bi_listen_con ip) then ret tt
  else
    put_con c (set_cn_next (bi_cons ip) y) ;;;
    put_ip (bd_proto_arg x) (set_bi_tcp NIL (bi_next_con_id ip) c ip) ;;;
    let* n := get in
    n_reply (nd_mount_eid n) (bd_proc_id x) (R_tcp_listen OK (bd_id x) (cn_id y)).

Definition free_tcp_pkt (p : tcp_pkt) : NM unit :=
  (if tp_data_at p =? NIL then ret tt else n_free (tp_data_at p)) ;;; n_free (tp_at p).

(** ** Sending *)
(** The loop at the start: packets with nothing in them are dropped, unless one is the
    last. *)
Fixpoint skip_empty (l : list tcp_pkt) : NM (list tcp_pkt) :=
  match l with
  | [] => ret []
  | p :: l' =>
    if 0 <? tp_len p then ret l
    else match l' with
    | [] => ret l
    | _ => if flag (tp_flags p) (Z.lor TCP_flag_fin TCP_flag_syn) then ret l else free_tcp_pkt p ;;; skip_empty l'
    end
  end.
Definition state_sent (flags : Z) (s : tcp_state) : tcp_state :=
  match s with
  | TCP_state_established => if flag flags TCP_flag_fin then TCP_state_fin_wait_1 else s
  | TCP_state_close_wait => if flag flags TCP_flag_fin then TCP_state_last_ack else s
  | _ => s
  end.
Definition send_tcp_pkt (b c : Z) : NM unit :=
  let* x := get_binding b in
  let* y := get_con c in
  let* sending := skip_empty (cn_sending y) in
  put_con c (set_cn_sending sending y) ;;;
  match sending with
  | [] => ret tt
  | p :: _ =>
    upd_con c (fun y => set_cn_state (state_sent (tp_flags p) (cn_state y)) y) ;;;
    let flags := Z.lor (Z.shiftl (sizeof_tcp_hdr / 4) 12) (tp_flags p) in
    let length := u32 (sizeof_tcp_hdr + tp_len p) in
    let* addr_rem := read FNil (fun _ => cn_addr_rem y) in
    let* q := create_ipv4_pkt (cn_mac_rem y) addr_rem 20 IP_TCP length in
    match q with
    | None => ret tt
    | Some (pkt, buf) =>
      let* ip := get_ip (bd_proto_arg x) in
      let* buf := splice buf 34 (be16 (bi_port_loc ip) ++ be16 (cn_port_rem y)) in
      let* buf := splice buf 38 (be32 (tp_seq p)) in
      let* buf := splice buf 42 (be32 (cn_ack y)) in
      let* buf := splice buf 46 (be16 flags) in
      let* buf := splice buf 48 (be16 (cn_window_size_loc y)) in
      let* buf := splice buf 50 [0; 0] in
      let* buf := splice buf 52 [0; 0] in
      let* bs := sub_bytes (tp_data p) 0 (tp_len p) in
      let* buf := splice buf 54 bs in
      let pseudo_hdr := bi_addr_loc ip ++ addr_rem ++ [0; IP_TCP] ++ be16 length in
      let* tcp := sub_bytes buf 34 length in
      let* csum := csum_ip_finish (csum_ip_continue tcp (csum_ip_continue pseudo_hdr 0)) in
      let* buf := splice buf 50 (be16 csum) in
      send_ipv4_pkt buf 20 length ;;;
      n_free pkt
    end
  end.

Definition add_pkt (c flags : Z) (data : Z * list Z) (len : Z) : NM unit :=
  let* t := alloc sizeof_tcp_pkt in
  if t =? NIL then ret tt
  else upd_con c (fun y => set_cn_sending (cn_sending y ++ [mk_tcp_pkt t (fst data) (snd data) len (cn_next_seq y) flags]) y).
Definition nodata : Z * list Z := (NIL, []).

(** ** Receiving *)
(** The loop for the place: what is before it, what is after it, and whether the packet
    is there already. *)
Fixpoint recv_place (seq cont_seq : Z) (gap : bool) (l : list tcp_pkt) : list tcp_pkt * list tcp_pkt * bool :=
  match l with
  | [] => ([], [], false)
  | o :: l' =>
    if tp_seq o <=? cont_seq then let '(b, a, h) := recv_place seq cont_seq gap l' in (o :: b, a, h)
    else
      let '(cont_seq, gap) :=
        if negb gap then if cont_seq =? tp_seq o then (u32 (cont_seq + tp_len o), false) else (cont_seq, true)
        else (cont_seq, gap) in
      if seq =? tp_seq o then ([], l, true)
      else if seq <? tp_seq o then ([], l, false)
      else let '(b, a, h) := recv_place seq cont_seq gap l' in (o :: b, a, h)
  end.
(** The data are the [len] bytes from [off] on; the flags of the packet are not set. *)
Definition insert_received (c seq : Z) (data : list Z) (off len : Z) : NM unit :=
  let* y := get_con c in
  let '(before, after, already_have) := recv_place seq (cn_ack y) false (cn_recv_wait y) in
  if already_have then ret tt
  else
    let* t := alloc sizeof_tcp_pkt in
    if t =? NIL then ret tt
    else
      let* d :=
        if 0 <? len then
          let* (d, mem) := n_malloc len in
          if d =? NIL then ret None
          else
            let* bs := sub_bytes data off len in
            let* bs := splice mem 0 bs in
            ret (Some (d, bs))
        else ret (Some nodata) in
      match d with
      | None => n_free t
      | Some (d, bs) => put_con c (set_cn_recv (cn_offset y) (before ++ mk_tcp_pkt t d bs len seq 0 :: after) y)
      end.

Definition tcp_con_finish (b c : Z) : NM unit :=
  let* x := get_binding b in
  let* y := get_con c in
  let* n := get in
  n_reply (nd_mount_eid n) (bd_proc_id x) (R_tcp_disconnect OK (bd_id x) (cn_id y)).

(** [free] of a connection. *)
Definition drop_con (c : Z) : NM unit := modify (fun n => set_ns_con (delete c (ns_con n)) n) ;;; n_free c.
(** The connection whose [next] is [c] or ends the list from [o] on. *)
Fixpoint con_before (fuel : nat) (o c : Z) : NM Z :=
  match fuel with
  | O => nofuel
  | S fuel =>
    let* y := get_con o in
    if (cn_next y =? NIL) || (cn_next y =? c) then ret o else con_before fuel (cn_next y) c
  end.
Definition tcp_con_free (b c : Z) : NM unit :=
  let* x := get_binding b in
  let* y := get_con c in
  if negb (bool_decide (cn_state y = TCP_state_closed)) then ret tt
  else match cn_sending y, cn_recv_wait y with
  | [], [] =>
    let* ip := get_ip (bd_proto_arg x) in
    let* n := get in
    (if (bi_cons ip =? NIL) || (bi_cons ip =? c) then
       put_ip (bd_proto_arg x) (set_bi_tcp (bi_listen_con ip) (bi_next_con_id ip) (cn_next y) ip)
     else
       let* o := con_before (S (size (ns_con n))) (bi_cons ip) c in
       upd_con o (set_cn_next (cn_next y))) ;;;
    drop_con c
  | _, _ => ret tt
  end.

(** handle_tcp_rst: every state is logged only. *)
Definition handle_tcp_rst (c : Z) : NM unit := let* _ := get_con c in ret tt.

Definition handle_tcp_fin (b c : Z) : NM unit :=
  let* y := get_con c in
  let time_wait := add_pkt c TCP_flag_ack nodata 0 ;;; send_tcp_pkt b c in
  let fin_wait_2 :=
    upd_con c (set_cn_state TCP_state_time_wait) ;;;
    upd_con c (fun y => set_cn_ack (u32 (cn_ack y + 1)) y) ;;;
    tcp_con_finish b c ;;;
    time_wait in
  match cn_state y with
  | TCP_state_established =>
    put_con c (set_cn_closing true (set_cn_state TCP_state_close_wait y)) ;;;
    match cn_recv_wait y with
    | [] =>
      upd_con c (fun y => set_cn_ack (u32 (cn_ack y + 1)) y) ;;;
      add_pkt c TCP_flag_ack nodata 0 ;;;
      send_tcp_pkt b c
    | _ => ret tt
    end
  | TCP_state_fin_wait_1 => upd_con c (set_cn_state TCP_state_fin_wait_2) ;;; fin_wait_2
  | TCP_state_fin_wait_2 => fin_wait_2
  | TCP_state_time_wait => time_wait
  | _ => ret tt
  end.

Definition handle_tcp_syn (p b c seq port_src : Z) : NM unit :=
  let* y := get_con c in
  match cn_state y with
  | TCP_state_syn_sent =>
    upd_con c (set_cn_state TCP_state_syn_received) ;;;
    upd_con c (set_cn_state TCP_state_established) ;;;
    upd_con c (set_cn_ack (u32 (seq + 1))) ;;;
    upd_con c (fun y => set_cn_next_seq (u32 (cn_next_seq y + 1)) y) ;;;
    add_pkt c TCP_flag_ack nodata 0 ;;;
    send_tcp_pkt b c ;;;
    upd_con c (set_cn_state TCP_state_established) ;;;
    connect_tcp_finish b c
  | TCP_state_listen =>
    let* x := get_pkt p in
    upd_con c (fun y => set_cn_rem port_src (cn_mac_rem y) (Some (ip_src x)) y) ;;;
    let* m := arp_match_ip (ip_src x) in
    match m with
    | None => ip_pkt_free p
    | Some mac =>
      upd_con c (set_cn_mac_rem mac) ;;;
      upd_con c (set_cn_ack (u32 (seq + 1))) ;;;
      upd_con c (set_cn_state TCP_state_syn_received) ;;;
      add_pkt c (Z.lor TCP_flag_syn TCP_flag_ack) nodata 0 ;;;
      send_tcp_pkt b c
    end
  | _ => ret tt
  end.

(** The first packet to be sent is taken off. *)
Definition pop_sending (c : Z) : NM unit :=
  let* y := get_con c in
  match cn_sending y with
  | [] => ret tt
  | t :: l => put_con c (set_cn_sending l y) ;;; free_tcp_pkt t
  end.
Definition handle_tcp_ack (b c seq ack : Z) (data : list Z) (off data_len : Z) : NM unit :=
  let* y := get_con c in
  match cn_state y with
  | TCP_state_last_ack =>
    if ack =? u32 (cn_next_seq y + 1) then pop_sending c ;;; tcp_con_free b c else ret tt
  | TCP_state_fin_wait_1 =>
    if ack =? u32 (cn_next_seq y + 1) then
      upd_con c (fun y => set_cn_next_seq (u32 (cn_next_seq y + 1)) y) ;;;
      upd_con c (set_cn_state TCP_state_fin_wait_2) ;;;
      pop_sending c
    else send_tcp_pkt b c
  | TCP_state_syn_received =>
    upd_con c (set_cn_state TCP_state_established) ;;;
    upd_con c (fun y => set_cn_next_seq (u32 (cn_next_seq y + 1)) y) ;;;
    listen_tcp_finish b c
  | TCP_state_established =>
    if cn_ack y <? u32 (seq + data_len) then insert_received c seq data off data_len
    else if 0 <? data_len then add_pkt c TCP_flag_ack nodata 0 ;;; send_tcp_pkt b c
    else ret tt
  | _ => ret tt
  end.

(** Packets the other side has: all before the first that it has not, or that closes. *)
Fixpoint drop_acked (ack : Z) (l : list tcp_pkt) : NM (list tcp_pkt) :=
  match l with
  | [] => ret []
  | t :: l' =>
    if (ack <? u32 (tp_seq t + tp_len t)) || flag (tp_flags t) TCP_flag_fin then ret l
    else free_tcp_pkt t ;;; drop_acked ack l'
  end.
Definition con_from (port_src : Z) (src : list Z) (y : tcp_con) : NM bool :=
  if port_src =? cn_port_rem y then let* a := read FNil (fun _ => cn_addr_rem y) in ret (same src a) else ret false.
Fixpoint find_con_from (fuel : nat) (c port_src : Z) (src : list Z) : NM Z :=
  match fuel with
  | O => nofuel
  | S fuel =>
    if c =? NIL then ret NIL
    else
      let* y := get_con c in
      let* found := con_from port_src src y in
      if (found : bool) then ret c else find_con_from fuel (cn_next y) port_src src
  end.

Definition handle_tcp (p : Z) : NM unit :=
  let* x := get_pkt p in
  let* hdr := sub_bytes (ip_data x) 0 16 in
  match hdr with
  | [ps0; ps1; pd0; pd1; s0; s1; s2; s3; a0; a1; a2; a3; f0; f1; w0; w1] =>
    let port_src := beto16 ps0 ps1 in
    let seq := beto32 s0 s1 s2 s3 in
    let ack := beto32 a0 a1 a2 a3 in
    let hdr_len := Z.shiftr f0 4 * 4 in
    let flags := Z.lor (Z.shiftl (Z.land f0 0xf) 8) f1 in
    let* b := find_binding_ip NET_proto_tcp (beto16 pd0 pd1) in
    if b =? NIL then ip_pkt_free p
    else
      let* y := get_binding b in
      let* ip := get_ip (bd_proto_arg y) in
      let* n := get in
      let* c := find_con_from (S (size (ns_con n))) (bi_cons ip) port_src (ip_src x) in
      let* c :=
        if negb (c =? NIL) then ret c
        else if bi_listen_con ip =? NIL then ret NIL
        else
          let* z := get_con (bi_listen_con ip) in
          if bool_decide (cn_state z = TCP_state_listen) then ret (bi_listen_con ip)
          else
            let* found := con_from port_src (ip_src x) z in
            ret (if (found : bool) then bi_listen_con ip else NIL) in
      if c =? NIL then ip_pkt_free p
      else
        upd_con c (set_cn_window_size_rem (beto16 w0 w1)) ;;;
        (if flag flags TCP_flag_ack then
           let* z := get_con c in
           let* l := drop_acked ack (cn_sending z) in
           put_con c (set_cn_sending l z)
         else ret tt) ;;;
        (if flag flags TCP_flag_rst then handle_tcp_rst c
         else if flag flags TCP_flag_fin then handle_tcp_fin b c
         else if flag flags TCP_flag_syn then handle_tcp_syn p b c seq port_src
         else if flag flags TCP_flag_ack then
           handle_tcp_ack b c seq ack (ip_data x) hdr_len (u32 (ip_len x - hdr_len))
         else ret tt) ;;;
        ip_pkt_free p ;;;
        send_tcp_pkt b c
  | _ => fail FBounds
  end.

(** ** Requests *)
Definition ip_bind_tcp_init (b : Z) : NM Z :=
  let* x := get_binding b in
  upd_ip (bd_proto_arg x) (set_bi_tcp NIL 0 NIL) ;;;
  ret OK.

Definition ip_unbind_tcp (b : Z) : NM Z :=
  let* x := get_binding b in
  let* ip := get_ip (bd_proto_arg x) in
  if negb (bi_cons ip =? NIL) || negb (bi_listen_con ip =? NIL) then ret ERR
  else
    modify (fun n => set_ns_ip (delete (bd_proto_arg x) (ns_ip n)) n) ;;;
    n_free (bd_proto_arg x) ;;;
    ret OK.

(** The binding and the remote address are not set. *)
Definition ip_tcp_listen (b : Z) : NM unit :=
  let* x := get_binding b in
  let* c := alloc sizeof_tcp_con in
  if c =? NIL then ret tt
  else
    let* ip := get_ip (bd_proto_arg x) in
    put_con c (mk_tcp_con NIL None (bi_next_con_id ip) 0 [0; 0; 0; 0; 0; 0] None
      TCP_state_listen false 1024 0 0 0 0x1000 [] 0 []) ;;;
    put_ip (bd_proto_arg x) (set_bi_tcp c (s32 (bi_next_con_id ip + 1)) (bi_cons ip) ip).

Definition connect_tcp_arp (c : Z) (mac : list Z) : NM unit :=
  let* y := get_con c in
  let* b := read FNil (fun _ => cn_binding y) in
  put_con c (set_cn_mac_rem mac y) ;;;
  send_tcp_pkt b c.

(** The functions of the requests that wait for an address. *)
Definition call_func (f : arp_func) (mac : list Z) : NM unit :=
  match f with
  | F_udp_write r => udp_write_finish r mac
  | F_connect_tcp c => connect_tcp_arp c mac
  end.

Definition ip_tcp_connect (rq : net_req) (b : Z) : NM unit :=
  let* x := get_binding b in
  let* c := alloc sizeof_tcp_con in
  if c =? NIL then ret tt
  else
    let* ip := get_ip (bd_proto_arg x) in
    put_con c (mk_tcp_con (bi_cons ip) (Some b) (bi_next_con_id ip) (rq_connect_port_rem rq) [0; 0; 0; 0; 0; 0]
      (Some (rq_connect_addr_rem rq)) TCP_state_syn_sent false 1024 0 0 0 0x1000 [] 0 []) ;;;
    put_ip (bd_proto_arg x) (set_bi_tcp (bi_listen_con ip) (s32 (bi_next_con_id ip + 1)) c ip) ;;;
    add_pkt c TCP_flag_syn nodata 0 ;;;
    arp_request_ call_func (rq_connect_addr_rem rq) (F_connect_tcp c).

Fixpoint find_tcp_con_loop (fuel : nat) (c id : Z) : NM Z :=
  match fuel with
  | O => nofuel
  | S fuel =>
    if c =? NIL then ret NIL
    else let* y := get_con c in if cn_id y =? id then ret c else find_tcp_con_loop fuel (cn_next y) id
  end.
Definition find_tcp_con (b id : Z) : NM Z :=
  let* x := get_binding b in
  let* ip := get_ip (bd_proto_arg x) in
  let* n := get in
  find_tcp_con_loop (S (size (ns_con n))) (bi_cons ip) id.

Definition ip_tcp_disconnect (rq : net_req) (b : Z) : NM unit :=
  let* c := find_tcp_con b (rq_disconnect_con_id rq) in
  if c =? NIL then ret tt
  else
    let* y := get_con c in
    match cn_recv_wait y with
    | _ :: _ => ret tt
    | [] =>
      put_con c (set_cn_closing true y) ;;;
      (match cn_state y with
       | TCP_state_established | TCP_state_close_wait => add_pkt c (Z.lor TCP_flag_ack TCP_flag_fin) nodata 0
       | _ => ret tt
       end) ;;;
      send_tcp_pkt b c
    end.

Definition ip_write_tcp (rq : net_req) (cap b : Z) : NM unit :=
  let* c := find_tcp_con b (rq_write_con_id rq) in
  if c =? NIL then ret tt
  else
    let* x := get_binding b in
    let* y := get_con c in
    let* n := get in
    if negb (bool_decide (cn_state y = TCP_state_established)) || cn_closing y then
      n_reply_cap (nd_mount_eid n) (bd_proc_id x) (R_write ERR (bd_id x) 0 (P_tcp (cn_id y))) cap
    else
      let* (d, mem) := n_malloc (rq_len rq) in
      if d =? NIL then ret tt
      else
        let* va := n_map cap in
        if va =? NIL then ret tt
        else
          let* bs := read_mem va (rq_len rq) in
          let* bs := splice mem 0 bs in
          let* _ := n_unmap cap va in
          add_pkt c (Z.lor TCP_flag_ack TCP_flag_psh) (d, bs) (rq_len rq) ;;;
          upd_con c (fun y => set_cn_next_seq (u32 (cn_next_seq y + rq_len rq)) y) ;;;
          send_tcp_pkt b c ;;;
          n_reply_cap (nd_mount_eid n) (bd_proc_id x) (R_write OK (bd_id x) (rq_len rq) (P_tcp (cn_id y))) cap.

(** The loop that reads: [want] bytes into the memory at [va], of which [len] are there.
    It ends with the bytes that are there and the acknowledgement. *)
Fixpoint read_tcp_loop (fuel : nat) (c va want len cont_ack : Z) : NM (Z * Z) :=
  match fuel with
  | O => nofuel
  | S fuel =>
    let* y := get_con c in
    match cn_recv_wait y with
    | [] => ret (len, cont_ack)
    | p :: l' =>
      if negb (len <? want) then ret (len, cont_ack)
      else if negb (tp_seq p =? cont_ack) then ret (len, cont_ack)
      else
        let o := cn_offset y in
        let left := u32 (tp_len p - o) in
        let l := if left <? u32 (want - len) then left else u32 (want - len) in
        let* bs := sub_bytes (tp_data p) o l in
        write_mem va len bs ;;;
        if u32 (o + l) <? tp_len p then
          put_con c (set_cn_recv (u32 (o + l)) (p :: l') y) ;;;
          read_tcp_loop fuel c va want (u32 (len + l)) cont_ack
        else
          put_con c (set_cn_recv 0 l' y) ;;;
          free_tcp_pkt p ;;;
          read_tcp_loop fuel c va want (u32 (len + l)) (u32 (cont_ack + l))
    end
  end.
Definition ip_read_tcp (rq : net_req) (cap b : Z) : NM unit :=
  let* c := find_tcp_con b (rq_read_con_id rq) in
  if c =? NIL then ret tt
  else
    let* x := get_binding b in
    let* y := get_con c in
    let* n := get in
    if negb (bool_decide (cn_state y = TCP_state_established)) then
      n_reply_cap (nd_mount_eid n) (bd_proc_id x) (R_read ERR (bd_id x) 0 (P_tcp (cn_id y))) cap
    else
      let* va := n_map cap in
      if va =? NIL then ret tt
      else
        let* (len, cont_ack) := read_tcp_loop (S (S (length (cn_recv_wait y)))) c va (rq_len rq) 0 (cn_ack y) in
        (if cn_ack y <? cont_ack then
           upd_con c (set_cn_ack cont_ack) ;;;
           add_pkt c TCP_flag_ack nodata 0 ;;;
           send_tcp_pkt b c
         else ret tt) ;;;
        let* z := get_con c in
        (match cn_closing z, cn_recv_wait z with
         | true, [] =>
           upd_con c (set_cn_state TCP_state_close_wait) ;;;
           upd_con c (fun y => set_cn_ack (u32 (cn_ack y + 1)) y) ;;;
           add_pkt c TCP_flag_ack nodata 0 ;;;
           send_tcp_pkt b c
         | _, _ => ret tt
         end) ;;;
        let* _ := n_unmap cap va in
        n_reply_cap (nd_mount_eid n) (bd_proc_id x) (R_read OK (bd_id x) len (P_tcp (cn_id y))) cap.
End stack.
