(* ===== verification/NetDev.v ===== *)
(** * The network stack: packets and requests

    The entry points of the stack: packets (net_process_pkt of lib/net/net.c and
    handle_ipv4 of ip.c), the requests of clients (net_handle_message) and the start
    (net_init). *)
From S2P Require Import Prelude Bytes Net NetIp NetUdp NetTcp.

Local Open Scope Z_scope.
Local Open Scope c_scope.

(** The types of requests (include/mesg.h). *)
Definition NET_bind : Z := 28.
Definition NET_unbind : Z := 29.
Definition NET_tcp_connect : Z := 30.
Definition NET_tcp_disconnect : Z := 31.
Definition NET_tcp_listen : Z := 32.
Definition NET_write : Z := 33.
Definition NET_read : Z := 34.

Definition sizeof_net_dev_internal : Z := 24.

Section stack.
Context {E : Type} `{Host E}.
Implicit Types (n : net_dev E).
Abbreviation NM := (M (net_dev E)).

(** ** Packets *)
Definition set_ip_data (d : Z) (bs : list Z) (len : Z) (x : ip_pkt) : ip_pkt :=
  mk_ip_pkt (ip_next x) (ip_src x) (ip_dst x) (ip_protocol x) (ip_id x) (ip_src_port x)
    (ip_have_last x) (ip_frags x) d bs len.

(** A piece of a packet: the packet it completes, or nil. *)
Definition take_frag (src dst : list Z) (protocol ident frag_offset : Z) (more : bool) (bdy : list Z) (hdr_len ip_len : Z) : NM Z :=
  let* f := alloc sizeof_ip_pkt_frag in
  if f =? NIL then ret NIL
  else
    let* (d, mem) := n_malloc ip_len in
    if d =? NIL then n_free f ;;; ret NIL
    else
      let* bs := sub_bytes bdy hdr_len ip_len in
      let* bs := splice mem 0 bs in
      let* p := get_waiting_ip_pkt src dst protocol ident in
      if p =? NIL then n_free d ;;; n_free f ;;; ret NIL
      else
        let* done := insert_pkt_frag p (mk_frag f frag_offset d bs ip_len) (negb more) in
        ret (if (done : bool) then p else NIL).
(** A packet that is whole. *)
Definition take_pkt (src dst : list Z) (protocol ident : Z) (bdy : list Z) (hdr_len ip_len : Z) : NM Z :=
  let* p := ip_pkt_new src dst protocol ident in
  if p =? NIL then ret NIL
  else
    let* (d, mem) := n_malloc ip_len in
    if d =? NIL then drop_pkt p ;;; ret NIL
    else
      let* bs := sub_bytes bdy hdr_len ip_len in
      let* bs := splice mem 0 bs in
      upd_pkt p (set_ip_data d bs ip_len) ;;;
      ret p.

(** [hdr] are the bytes of the packet, [bdy] those after the ethernet header. *)
Definition handle_ipv4 (hdr bdy : list Z) (len : Z) : NM unit :=
  let* n := get in
  let* eth_dst := sub_bytes hdr 0 6 in
  if negb (same eth_dst (nd_mac n)) then ret tt
  else
    let* dst := sub_bytes bdy 16 4 in
    if negb (same dst (nd_ipv4 n)) then ret tt
    else
      let* ver_len := byte bdy 0 in
      let hdr_len := Z.shiftl (Z.land ver_len 0xf) 2 in
      if negb (Z.shiftr (Z.land ver_len 0xf0) 4 =? 4) then ret tt
      else
        let* l0 := byte bdy 2 in let* l1 := byte bdy 3 in
        let ip_len := u32 (beto16 l0 l1 - hdr_len) in
        let* i0 := byte bdy 4 in let* i1 := byte bdy 5 in
        let ident := beto16 i0 i1 in
        let* f0 := byte bdy 6 in let* f1 := byte bdy 7 in
        let more := negb (Z.land (Z.shiftr f0 5) 1 =? 0) in
        let frag_offset := Z.lor (Z.shiftl (Z.land f0 0x1f) 5) f1 in
        let* protocol := byte bdy 9 in
        let* src := sub_bytes bdy 12 4 in
        let* p :=
          if (0 <? frag_offset) || more then take_frag src dst protocol ident frag_offset more bdy hdr_len ip_len
          else take_pkt src dst protocol ident bdy hdr_len ip_len in
        if p =? NIL then ret tt
        else if protocol =? IP_ICMP then handle_icmp p
        else if protocol =? IP_TCP then handle_tcp p
        else if protocol =? IP_UDP then handle_udp p
        else ret tt.

Definition net_process_pkt (pkt : list Z) (len : Z) : NM unit :=
  let bdy := drop 14 pkt in
  let bdy_len := u32 (len - sizeof_eth_hdr) in
  let* t0 := byte pkt 12 in let* t1 := byte pkt 13 in
  let type := beto16 t0 t1 in
  if type =? 0x0806 then handle_arp call_func pkt bdy bdy_len
  else if type =? 0x0800 then handle_ipv4 pkt bdy bdy_len
  else ret tt.

(** ** Bindings *)
Definition set_bd_next (v : Z) (x : binding) : binding := mk_binding v (bd_proc_id x) (bd_id x) (bd_proto x) (bd_proto_arg x).
Definition set_bd_proto_arg (v : Z) (x : binding) : binding := mk_binding (bd_next x) (bd_proc_id x) (bd_id x) (bd_proto x) v.
(** [free] of a binding. *)
Definition drop_binding (b : Z) : NM unit := modify (fun n => set_ns_binding (delete b (ns_binding n)) n) ;;; n_free b.

Definition ip_bind (rq : net_req) (b : Z) : NM Z :=
  let* o := find_binding_ip (rq_bind_proto rq) (rq_bind_port_loc rq) in
  if negb (o =? NIL) then ret ERR
  else
    let* ip := alloc sizeof_binding_ip in
    if ip =? NIL then ret ERR
    else
      upd_binding b (set_bd_proto_arg ip) ;;;
      put_ip ip (mk_binding_ip (rq_bind_addr_loc rq) (rq_bind_port_loc rq) NIL 0 NIL 0 NIL) ;;;
      if rq_bind_proto rq =? NET_proto_udp then ip_bind_udp_init b
      else if rq_bind_proto rq =? NET_proto_tcp then ip_bind_tcp_init b
      else ret ERR.

Definition ip_unbind (b : Z) : NM Z :=
  let* x := get_binding b in
  if bd_proto x =? NET_proto_udp then ip_unbind_udp b
  else if bd_proto x =? NET_proto_tcp then ip_unbind_tcp b
  else ret ERR.

Fixpoint find_binding_loop (fuel : nat) (c pid id : Z) : NM Z :=
  match fuel with
  | O => nofuel
  | S fuel =>
    if c =? NIL then ret NIL
    else
      let* x := get_binding c in
      if (bd_proc_id x =? pid) && (bd_id x =? id) then ret c else find_binding_loop fuel (bd_next x) pid id
  end.
Definition find_binding (pid id : Z) : NM Z :=
  let* n := get in find_binding_loop (S (size (ns_binding n))) (ni_bindings n) pid id.

(** The identifier of a binding that is refused is read after the binding is freed. *)
Definition handle_bind (eid from : Z) (rq : net_req) : NM unit :=
  let* b := alloc sizeof_binding in
  if b =? NIL then n_reply eid from (R_bind ERR None)
  else
    let* n := get in
    let id := s32 (ni_n_binding_id n) in
    put_binding b (mk_binding NIL from id (u8 (rq_bind_proto rq)) NIL) ;;;
    modify (fun n => set_ni_n_binding_id (u32 (ni_n_binding_id n + 1)) n) ;;;
    let* r := ip_bind rq b in
    (if r =? OK then
       let* n := get in
       upd_binding b (set_bd_next (ni_bindings n)) ;;;
       modify (set_ni_bindings b)
     else drop_binding b) ;;;
    n_reply eid from (R_bind r (if r =? OK then Some id else None)).

(** The loop for the place that holds [b]: its [next] is put there. *)
Fixpoint unlink_binding (fuel : nat) (o b next : Z) : NM unit :=
  match fuel with
  | O => nofuel
  | S fuel =>
    let* y := get_binding o in
    if (bd_next y =? NIL) || (bd_next y =? b) then put_binding o (set_bd_next next y)
    else unlink_binding fuel (bd_next y) b next
  end.
Definition handle_unbind (eid from : Z) (rq : net_req) : NM unit :=
  let* b := find_binding from (rq_chan_id rq) in
  if b =? NIL then ret tt
  else
    let* x := get_binding b in
    if negb (bd_proc_id x =? from) then ret tt
    else
      let* r := ip_unbind b in
      let* x := get_binding b in
      let* n := get in
      (if (ni_bindings n =? NIL) || (ni_bindings n =? b) then modify (set_ni_bindings (bd_next x))
       else unlink_binding (S (size (ns_binding n))) (ni_bindings n) b (bd_next x)) ;;;
      drop_binding b ;;;
      n_reply eid from (R_unbind r (rq_chan_id rq)).

(** The binding a request is about, or nil. *)
Definition request_binding (from : Z) (rq : net_req) (k : Z -> binding -> NM unit) : NM unit :=
  let* c := find_binding from (rq_chan_id rq) in
  if c =? NIL then ret tt
  else
    let* x := get_binding c in
    if negb (bd_proc_id x =? from) then ret tt else k c x.
Definition handle_tcp_listen (eid from : Z) (rq : net_req) : NM unit :=
  request_binding from rq (fun c x => if bd_proto x =? NET_proto_tcp then ip_tcp_listen c else ret tt).
Definition handle_tcp_connect (eid from : Z) (rq : net_req) : NM unit :=
  request_binding from rq (fun c x => if bd_proto x =? NET_proto_tcp then ip_tcp_connect rq c else ret tt).
Definition handle_tcp_disconnect (eid from : Z) (rq : net_req) : NM unit :=
  request_binding from rq (fun c x => if bd_proto x =? NET_proto_tcp then ip_tcp_disconnect rq c else ret tt).
Definition handle_read (eid from : Z) (rq : net_req) (cap : Z) : NM unit :=
  request_binding from rq (fun c x =>
    if bd_proto x =? NET_proto_udp then ip_read_udp rq cap c
    else if bd_proto x =? NET_proto_tcp then ip_read_tcp rq cap c else ret tt).
Definition handle_write (eid from : Z) (rq : net_req) (cap : Z) : NM unit :=
  request_binding from rq (fun c x =>
    if bd_proto x =? NET_proto_udp then ip_write_udp call_func rq cap c
    else if bd_proto x =? NET_proto_tcp then ip_write_tcp rq cap c else ret tt).

Definition net_handle_message (eid from : Z) (m : net_req) (cap : Z) : NM unit :=
  let type := rq_type m in
  if type =? NET_bind then handle_bind eid from m
  else if type =? NET_unbind then handle_unbind eid from m
  else if type =? NET_tcp_listen then handle_tcp_listen eid from m
  else if type =? NET_tcp_connect then handle_tcp_connect eid from m
  else if type =? NET_tcp_disconnect then handle_tcp_disconnect eid from m
  else if type =? NET_read then handle_read eid from m cap
  else if type =? NET_write then handle_write eid from m cap
  else ret tt.
End stack.

(** net_init, given the address of the card and what the driver set; the packets that
    wait for their other pieces are not set. *)
Definition net_init {E} `{Host E} (mount_eid : Z) (mac : list Z) : M E (option (net_dev E)) :=
  let* (i, _) := h_malloc sizeof_net_dev_internal in
  if i =? NIL then ret None
  else
    let* e := get in
    ret (Some (mk_net_dev mount_eid 0xabcd mac [192; 168; 10; 34] [] [] 321 1025 NIL None ∅ ∅ ∅ ∅ e)).
