(* ===== verification/NetPres.v ===== *)
(** * The network stack: what operations leave alone

    The rules of [pres] for the stack, and the tactic [pres] that goes through the text
    of an operation with them. *)
From S2P Require Import Prelude Bytes Net NetIp NetUdp NetTcp NetDev.

Local Open Scope Z_scope.
Local Open Scope c_scope.

(** A relation that an operation on the environment alone cannot leave. *)
Class NetRel {E} (R : net_dev E -> net_dev E -> Prop) : Prop := {
  nr_pre :: PreOrder R;
  nr_env e n : R n (set_nd_env e n)
}.

Section pres.
Context {E : Type} `{Host E}.
Implicit Types (n : net_dev E).
Variable R : net_dev E -> net_dev E -> Prop.
Context `{HR : NetRel E R}.
Abbreviation NM := (M (net_dev E)).

Lemma pres_bind {A B} (m : NM A) (k : A -> NM B) : pres R m -> (forall a, pres R (k a)) -> pres R (bind m k).
Proof.
  intros Hm Hk s. apply wlp_bind. eapply wlp_mono; [apply Hm|]. cbn. intros a s' Hs.
  eapply wlp_mono; [apply Hk|]. cbn. intros _ s'' Hs'. by transitivity s'.
Qed.
Lemma pres_ret {A} (a : A) : pres R (ret a).
Proof. intros s. apply wlp_ret. reflexivity. Qed.
Lemma pres_fail {A} f : pres R (@fail _ A f).
Proof. intros s. apply wlp_fail. Qed.
Lemma pres_nofuel {A} : pres R (@nofuel _ A).
Proof. intros s. apply wlp_nofuel. Qed.
Lemma pres_get : pres R get.
Proof. intros s. apply wlp_get. reflexivity. Qed.
Lemma pres_read {A} f (g : _ -> option A) : pres R (read f g).
Proof. intros s. apply wlp_read. intros. reflexivity. Qed.
Lemma pres_host {A} (m : M E A) : pres R (on_host m).
Proof. intros n. unfold wlp, on_host, zoom. destruct (m _); try done. apply nr_env. Qed.
Lemma pres_modify f : (forall n, R n (f n)) -> pres R (modify f).
Proof. intros Hf n. apply wlp_modify, Hf. Qed.
End pres.

(** Steps through the text; what is left are changes of the state and the operations
    that are not unfolded. *)
Ltac pres_step :=
  lazymatch goal with
  | |- pres ?R (bind _ _) => apply (pres_bind R); [|intros ?]
  | |- pres _ (ret _) => apply pres_ret; apply _
  | |- pres _ (fail _) => apply pres_fail
  | |- pres _ nofuel => apply pres_nofuel
  | |- pres _ get => apply pres_get; apply _
  | |- pres _ (read _ _) => apply pres_read; apply _
  | |- pres _ (on_host _) => apply pres_host; apply _
  | |- pres _ (if ?b then _ else _) => destruct b
  | |- pres _ (match ?x with _ => _ end) => destruct x
  | |- pres _ (let '_ := ?x in _) => destruct x
  end.

(** Nor can anything that leaves the connections alone. *)
Class ConFree {E} (R : net_dev E -> net_dev E -> Prop) : Prop := {
  cf_rel :: NetRel R;
  cf_any n n' : ns_con n' = ns_con n -> R n n'
}.
Definition same_cons {E} (n n' : net_dev E) : Prop := ns_con n' = ns_con n.
#[export] Instance same_cons_free {E} : ConFree (@same_cons E).
Proof.
  split; [split|done].
  - split; [done|]. intros n n1 n2 H1 H2. unfold same_cons in *. congruence.
  - by intros e [].
Qed.

Create HintDb pres.
#[export] Hint Extern 1 (pres _ (read_mem _ _)) => apply pres_host; apply _ : pres.
#[export] Hint Extern 1 (pres _ (write_mem _ _ _)) => apply pres_host; apply _ : pres.
#[export] Hint Extern 1 (pres _ (n_unmap _ _)) => apply pres_host; apply _ : pres.
#[export] Hint Extern 1 (pres _ (n_map _)) => apply pres_host; apply _ : pres.
Ltac pres := repeat first [pres_step | solve [eauto 2 with pres]].
Ltac pres_mod := (lazymatch goal with |- pres ?R _ => apply (pres_modify R) end); intros ?n; apply cf_any; by destruct n.

Section con_free.
Context {E : Type} `{Host E}.
Implicit Types (n : net_dev E).
Variable R : net_dev E -> net_dev E -> Prop.
Context `{HR : ConFree E R}.
Abbreviation NM := (M (net_dev E)).

Lemma pres_malloc len : pres R (n_malloc len).
Proof. apply pres_host. apply _. Qed.
Lemma pres_free a : pres R (n_free a).
Proof. apply pres_host. apply _. Qed.
Lemma pres_alloc len : pres R (alloc len).
Proof. unfold alloc. apply (pres_bind R); [apply pres_malloc; apply _|]. intros [a b]. apply pres_ret. apply _. Qed.
Lemma pres_reply eid pid rp : pres R (n_reply eid pid rp).
Proof. apply pres_host. apply _. Qed.
Lemma pres_reply_cap eid pid rp cap : pres R (n_reply_cap eid pid rp cap).
Proof. apply pres_host. apply _. Qed.
Lemma pres_put_binding a x : pres R (put_binding a x).
Proof. pres_mod. Qed.
Lemma pres_put_ip a x : pres R (put_ip a x).
Proof. pres_mod. Qed.
Lemma pres_put_pkt a x : pres R (put_pkt a x).
Proof. pres_mod. Qed.
Lemma pres_splice buf i bs : pres R (splice buf i bs).
Proof. unfold splice. pres. Qed.
Lemma pres_slice buf i l : pres R (sub_bytes buf i l).
Proof. unfold sub_bytes. pres. Qed.
End con_free.
#[export] Hint Extern 1 (pres _ (n_malloc _)) => apply pres_malloc; apply _ : pres.
#[export] Hint Extern 1 (pres _ (n_free _)) => apply pres_free; apply _ : pres.
#[export] Hint Extern 1 (pres _ (alloc _)) => apply pres_alloc; apply _ : pres.
#[export] Hint Extern 1 (pres _ (n_reply _ _ _)) => apply pres_reply; apply _ : pres.
#[export] Hint Extern 1 (pres _ (n_reply_cap _ _ _ _)) => apply pres_reply_cap; apply _ : pres.
#[export] Hint Extern 1 (pres _ (put_binding _ _)) => apply pres_put_binding; apply _ : pres.
#[export] Hint Extern 1 (pres _ (put_ip _ _)) => apply pres_put_ip; apply _ : pres.
#[export] Hint Extern 1 (pres _ (put_pkt _ _)) => apply pres_put_pkt; apply _ : pres.
#[export] Hint Extern 1 (pres _ (splice _ _ _)) => apply pres_splice; apply _ : pres.
#[export] Hint Extern 1 (pres _ (sub_bytes _ _ _)) => apply pres_slice; apply _ : pres.
#[export] Hint Extern 1 (pres _ (modify _)) => pres_mod : pres.

Section con_free_ops.
Context {E : Type} `{Host E}.
Implicit Types (n : net_dev E).
Variable R : net_dev E -> net_dev E -> Prop.
Context `{HR : ConFree E R}.

Lemma pres_create_eth_pkt d t l : pres R (create_eth_pkt d t l).
Proof. unfold create_eth_pkt. pres. Qed.
Lemma pres_send_eth_pkt b l : pres R (send_eth_pkt b l).
Proof. unfold send_eth_pkt. pres. Qed.
Lemma pres_csum_fold fuel s : pres R (csum_fold fuel s).
Proof. revert s. induction fuel; intros s; cbn [csum_fold]; pres. Qed.
Lemma pres_csum_ip_finish s : pres R (csum_ip_finish s).
Proof. unfold csum_ip_finish. apply (pres_bind R); [apply pres_csum_fold|]. intros. pres. Qed.
Lemma pres_csum_ip h : pres R (csum_ip h).
Proof. apply pres_csum_ip_finish. Qed.
End con_free_ops.
#[export] Hint Extern 1 (pres _ (create_eth_pkt _ _ _)) => apply pres_create_eth_pkt; apply _ : pres.
#[export] Hint Extern 1 (pres _ (send_eth_pkt _ _)) => apply pres_send_eth_pkt; apply _ : pres.
#[export] Hint Extern 1 (pres _ (csum_ip _)) => apply pres_csum_ip; apply _ : pres.
#[export] Hint Extern 1 (pres _ (csum_ip_finish _)) => apply pres_csum_ip_finish; apply _ : pres.

Section con_free_ops.
Context {E : Type} `{Host E}.
Implicit Types (n : net_dev E).
Variable R : net_dev E -> net_dev E -> Prop.
Context `{HR : ConFree E R}.

Lemma pres_create_ipv4_pkt m a h p l : pres R (create_ipv4_pkt m a h p l).
Proof. unfold create_ipv4_pkt. pres. Qed.
Lemma pres_send_ipv4_pkt b h l : pres R (send_ipv4_pkt b h l).
Proof. unfold send_ipv4_pkt. pres. Qed.
Lemma pres_find_binding_ip proto port : pres R (find_binding_ip proto port).
Proof.
  unfold find_binding_ip. apply (pres_bind R); [pres|]. intros n.
  generalize (ni_bindings n) (S (size (ns_binding n))). intros b fuel. revert b.
  induction fuel as [|fuel IH]; intros b; cbn [find_binding_ip_loop]; unfold get_binding, get_ip; pres; apply IH.
Qed.
Lemma pres_find_binding pid id : pres R (find_binding pid id).
Proof.
  unfold find_binding. apply (pres_bind R); [pres|]. intros n.
  generalize (ni_bindings n) (S (size (ns_binding n))). intros b fuel. revert b.
  induction fuel as [|fuel IH]; intros b; cbn [find_binding_loop]; unfold get_binding; pres; apply IH.
Qed.
Lemma pres_unlink_binding fuel o b x : pres R (unlink_binding fuel o b x).
Proof. revert o. induction fuel as [|fuel IH]; intros o; cbn [unlink_binding]; unfold get_binding; pres; apply IH. Qed.
Lemma pres_ip_pkt_new s d p i : pres R (ip_pkt_new s d p i).
Proof. unfold ip_pkt_new. pres. Qed.
Lemma pres_free_frags l data : pres R (free_frags l data).
Proof. revert data. induction l as [|a l IH]; intros data; cbn [free_frags]; pres; apply IH. Qed.
End con_free_ops.
#[export] Hint Extern 1 (pres _ (create_ipv4_pkt _ _ _ _ _)) => apply pres_create_ipv4_pkt; apply _ : pres.
#[export] Hint Extern 1 (pres _ (send_ipv4_pkt _ _ _)) => apply pres_send_ipv4_pkt; apply _ : pres.
#[export] Hint Extern 1 (pres _ (find_binding_ip _ _)) => apply pres_find_binding_ip; apply _ : pres.
#[export] Hint Extern 1 (pres _ (find_binding _ _)) => apply pres_find_binding; apply _ : pres.
#[export] Hint Extern 1 (pres _ (unlink_binding _ _ _ _)) => apply pres_unlink_binding; apply _ : pres.
#[export] Hint Extern 1 (pres _ (ip_pkt_new _ _ _ _)) => apply pres_ip_pkt_new; apply _ : pres.
#[export] Hint Extern 1 (pres _ (free_frags _ _)) => apply pres_free_frags; apply _ : pres.

Section con_free_pkts.
Context {E : Type} `{Host E}.
Implicit Types (n : net_dev E).
Variable R : net_dev E -> net_dev E -> Prop.
Context `{HR : ConFree E R}.

Lemma pres_drop_pkt p : pres R (drop_pkt p).
Proof. unfold drop_pkt. pres. Qed.
Lemma pres_ip_pkt_free p : pres R (ip_pkt_free p).
Proof. unfold ip_pkt_free, get_pkt, drop_pkt. pres. Qed.
Lemma pres_waiting_loop fuel p s pr i : pres R (waiting_loop fuel p s pr i).
Proof. revert p. induction fuel as [|fuel IH]; intros p; cbn [waiting_loop]; unfold get_pkt; pres; apply IH. Qed.
Lemma pres_insert_pkt_frag p f l : pres R (insert_pkt_frag p f l).
Proof. unfold insert_pkt_frag, get_pkt. pres. Qed.
Lemma pres_last_pkt fuel p : pres R (last_pkt fuel p).
Proof. revert p. induction fuel as [|fuel IH]; intros p; cbn [last_pkt]; unfold get_pkt; pres; apply IH. Qed.
Lemma pres_arp_match_ip ip : pres R (arp_match_ip ip).
Proof. unfold arp_match_ip. pres. Qed.
Lemma pres_send_udp_pkt b m a p d l : pres R (send_udp_pkt b m a p d l).
Proof. unfold send_udp_pkt, get_binding, get_ip. pres. Qed.
End con_free_pkts.
#[export] Hint Extern 1 (pres _ (drop_pkt _)) => apply pres_drop_pkt; apply _ : pres.
#[export] Hint Extern 1 (pres _ (ip_pkt_free _)) => apply pres_ip_pkt_free; apply _ : pres.
#[export] Hint Extern 1 (pres _ (waiting_loop _ _ _ _ _)) => apply pres_waiting_loop; apply _ : pres.
#[export] Hint Extern 1 (pres _ (insert_pkt_frag _ _ _)) => apply pres_insert_pkt_frag; apply _ : pres.
#[export] Hint Extern 1 (pres _ (last_pkt _ _)) => apply pres_last_pkt; apply _ : pres.
#[export] Hint Extern 1 (pres _ (arp_match_ip _)) => apply pres_arp_match_ip; apply _ : pres.
#[export] Hint Extern 1 (pres _ (send_udp_pkt _ _ _ _ _ _)) => apply pres_send_udp_pkt; apply _ : pres.

Section con_free_udp.
Context {E : Type} `{Host E}.
Implicit Types (n : net_dev E).
Variable R : net_dev E -> net_dev E -> Prop.
Context `{HR : ConFree E R}.

Lemma pres_udp_write_finish r m : pres R (udp_write_finish r m).
Proof. unfold udp_write_finish, n_unmap, get_binding. pres. Qed.
Lemma pres_handle_icmp p : pres R (handle_icmp p).
Proof. unfold handle_icmp, handle_echo_request, create_icmp_pkt, send_icmp_pkt, get_pkt, byte. pres. Qed.
Lemma pres_handle_udp p : pres R (handle_udp p).
Proof. unfold handle_udp, get_pkt, upd_pkt, get_binding, get_ip, get_pkt. pres. Qed.
Lemma pres_ip_read_udp rq cap b : pres R (ip_read_udp rq cap b).
Proof. unfold ip_read_udp, get_binding, n_map, n_unmap, get_ip, get_pkt, write_mem. pres. Qed.
Lemma pres_ip_unbind_udp b : pres R (ip_unbind_udp b).
Proof.
  unfold ip_unbind_udp, get_binding. pres. generalize (S (size (ns_pkt a0))). intros fuel. 
  induction fuel as [|fuel IH]; cbn [unbind_udp_loop]; unfold get_ip, get_pkt; pres; apply IH.
Qed.
Lemma pres_get_waiting s d p i : pres R (get_waiting_ip_pkt s d p i).
Proof. unfold get_waiting_ip_pkt, upd_pkt, get_pkt. pres. Qed.

Section functions.
Variable call : arp_func -> list Z -> M (net_dev E) unit.
Hypothesis Hcall : forall f mac, pres R (call f mac).
Lemma pres_arp_request ip f : pres R (arp_request_ call ip f).
Proof. unfold arp_request_. pres. Qed.
Lemma pres_answer_requests ip mac l : pres R (answer_requests call ip mac l).
Proof. induction l as [|f l IH]; cbn [answer_requests]; pres; apply IH. Qed.
Lemma pres_arp_add_entry ip mac : pres R (arp_add_entry call ip mac).
Proof. unfold arp_add_entry. pres; apply pres_answer_requests. Qed.
Lemma pres_handle_arp hdr bdy len : pres R (handle_arp call hdr bdy len).
Proof.
  unfold handle_arp, handle_arp_request, handle_arp_response, byte.
  pose proof pres_arp_add_entry. pres.
Qed.
Lemma pres_ip_write_udp rq cap b : pres R (ip_write_udp call rq cap b).
Proof. unfold ip_write_udp, add_udp_write_req, n_map. pose proof pres_arp_request. pres. Qed.
End functions.
End con_free_udp.
