(* ===== verification/NetStates.v ===== *)
(** * The network stack: the states of connections

    [tcp_step] are the changes of state that lib/net/tcp.c makes.  Whatever packet or
    request the stack handles, a connection goes through steps of [tcp_step] only, from
    the state it had or from the state a new one starts in; none is ever closed, and
    none is ever freed. *)
From S2P Require Import Prelude Bytes Net NetIp NetUdp NetTcp NetDev NetPres.

Local Open Scope Z_scope.
Local Open Scope c_scope.

Inductive tcp_step : tcp_state -> tcp_state -> Prop :=
  | step_listen : tcp_step TCP_state_listen TCP_state_syn_received
  | step_syn_sent : tcp_step TCP_state_syn_sent TCP_state_syn_received
  | step_syn_received : tcp_step TCP_state_syn_received TCP_state_established
  | step_fin_read : tcp_step TCP_state_established TCP_state_close_wait
  | step_fin_sent : tcp_step TCP_state_established TCP_state_fin_wait_1
  | step_last : tcp_step TCP_state_close_wait TCP_state_last_ack
  | step_fin_acked : tcp_step TCP_state_fin_wait_1 TCP_state_fin_wait_2
  | step_fin_fin : tcp_step TCP_state_fin_wait_2 TCP_state_time_wait
  (** A read that empties the queue of a connection that is being closed. *)
  | step_read_closing : tcp_step TCP_state_fin_wait_1 TCP_state_close_wait.
#[export] Hint Constructors tcp_step : core.

Definition initial (s : tcp_state) : Prop := s = TCP_state_listen \/ s = TCP_state_syn_sent.
Definition early (s : tcp_state) : Prop := initial s \/ s = TCP_state_syn_received.
Definition nofin (l : list tcp_pkt) : Prop := Forall (fun p => flag (tp_flags p) TCP_flag_fin = false) l.
Definition con_ok (y : tcp_con) : Prop :=
  cn_state y <> TCP_state_closed /\ (early (cn_state y) -> nofin (cn_sending y)).
Definition all_ok {E} (n : net_dev E) : Prop := forall c y, ns_con n !! c = Some y -> con_ok y.
Definition from_initial (s : tcp_state) : Prop := exists i, initial i /\ rtc tcp_step i s.

(** What an operation may do to the connections: each goes on by steps, or is a new one
    at a place where there may be a new one. *)
Definition cons_moved {E} (new : Z -> Prop) (n n' : net_dev E) : Prop := all_ok n ->
  all_ok n' /\ dom (ns_con n) ⊆ dom (ns_con n') /\
  forall c y', ns_con n' !! c = Some y' ->
    (exists y, ns_con n !! c = Some y /\ rtc tcp_step (cn_state y) (cn_state y')) \/ new c /\ from_initial (cn_state y').

#[export] Instance cons_moved_free {E} new : ConFree (@cons_moved E new).
Proof.
  assert (Hany : forall n n' : net_dev E, ns_con n' = ns_con n -> cons_moved new n n').
  { intros n n' Heq Hok. unfold all_ok. rewrite Heq. split; [done|]. split; [done|]. intros c y Hy. left. by exists y. }
  split; [split|exact Hany].
  - split; [by intros n; apply Hany|]. intros n n1 n2 H1 H2 Hok. destruct (H1 Hok) as (Hok1 & Hd1 & Hm1).
    destruct (H2 Hok1) as (Hok2 & Hd2 & Hm2). split; [done|]. split; [set_solver|]. intros c y2 Hy2.
    destruct (Hm2 _ _ Hy2) as [(y1 & Hy1 & Hs)|]; [|by right].
    destruct (Hm1 _ _ Hy1) as [(y & Hy & Hs')|(Hn & i & Hi & Hs')]; [left; exists y|right; split; [done|]; exists i]; (split; [done|]); by etransitivity.
  - intros e n. apply Hany. by destruct n.
Qed.

(** ** One connection *)
Definition moved (y y' : tcp_con) : Prop := con_ok y -> con_ok y' /\ rtc tcp_step (cn_state y) (cn_state y').
#[export] Instance moved_pre : PreOrder moved.
Proof.
  split; [by intros y|]. intros y y1 y2 H1 H2 Hok. destruct (H1 Hok) as [Hok1 Hs1]. destruct (H2 Hok1) as [Hok2 Hs2].
  split; [done|]. by etransitivity.
Qed.
(** [n] differs from [n0] in the connection [c] at most, which is now [y]. *)
Definition con_at {E} (c : Z) (n0 n : net_dev E) (y : tcp_con) : Prop := ns_con n = <[c := y]> (ns_con n0).

Lemma con_at_moved {E} new c (n0 n : net_dev E) y0 y : ns_con n0 !! c = Some y0 -> moved y0 y -> con_at c n0 n y -> cons_moved new n0 n.
Proof.
  intros H0 Hm Hat Hok. unfold con_at in Hat. destruct (Hm (Hok _ _ H0)) as [Hy Hs]. split.
  { intros d z. rewrite Hat, lookup_insert. case_decide; [by intros [= <-]|apply Hok]. }
  split; [rewrite Hat, dom_insert; set_solver|]. intros d z. rewrite Hat, lookup_insert. case_decide as Hd.
  - intros [= <-]. subst d. left. by exists y0.
  - intros Hz. left. by exists z.
Qed.

(** A new one. *)
Lemma con_at_new {E} (new : Z -> Prop) c (n0 n : net_dev E) y : new c -> con_ok y -> initial (cn_state y) -> con_at c n0 n y -> cons_moved new n0 n.
Proof.
  intros Hc Hy Hi Hat Hok. unfold con_at in Hat. split.
  { intros d z. rewrite Hat, lookup_insert. case_decide; [by intros [= <-]|apply Hok]. }
  split; [rewrite Hat, dom_insert; set_solver|]. intros d z. rewrite Hat, lookup_insert. case_decide as Hd.
  - intros [= <-]. subst d. right. split; [done|]. by exists (cn_state y).
  - intros Hz. left. by exists z.
Qed.

Lemma con_at_lookup {E} c (n0 n : net_dev E) y : con_at c n0 n y -> ns_con n !! c = Some y.
Proof. intros H. unfold con_at in H. by rewrite H, lookup_insert_eq. Qed.
Lemma con_at_refl {E} c (n : net_dev E) y : ns_con n !! c = Some y -> con_at c n n y.
Proof. intros H. unfold con_at. by rewrite insert_id. Qed.
Lemma con_at_same {E} c (n0 n n' : net_dev E) y : con_at c n0 n y -> same_cons n n' -> con_at c n0 n' y.
Proof. unfold con_at, same_cons. by intros <-. Qed.

Section con.
Context {E : Type} `{Host E}.
Implicit Types (n : net_dev E).
Abbreviation NM := (M (net_dev E)).
Variables (c : Z) (n0 : net_dev E).

Lemma wlp_get_con n y (Q : tcp_con -> net_dev E -> Prop) : con_at c n0 n y -> Q y n -> wlp (get_con c) n Q.
Proof. intros Hat HQ. apply wlp_read. intros a. rewrite (con_at_lookup _ _ _ _ Hat). by intros [= <-]. Qed.
Lemma wlp_put_con n y z (Q : unit -> net_dev E -> Prop) : con_at c n0 n y -> (forall n', con_at c n0 n' z -> Q tt n') -> wlp (put_con c z) n Q.
Proof.
  intros Hat HQ. apply wlp_modify, HQ. unfold con_at in *. destruct n; cbn in *. rewrite Hat. apply insert_insert_eq.
Qed.
Lemma wlp_upd_con n y f (Q : unit -> net_dev E -> Prop) : con_at c n0 n y -> (forall n', con_at c n0 n' (f y) -> Q tt n') -> wlp (upd_con c f) n Q.
Proof. intros Hat HQ. apply wlp_bind. eapply wlp_get_con; [done|]. by eapply wlp_put_con. Qed.
(** An operation that leaves connections alone. *)
Lemma wlp_same {A} (m : NM A) n y (Q : A -> net_dev E -> Prop) : pres same_cons m -> con_at c n0 n y ->
  (forall a n', con_at c n0 n' y -> Q a n') -> wlp m n Q.
Proof. intros Hm Hat HQ. eapply wlp_pres; [exact Hm|]. intros a n' Hs. apply HQ. by eapply con_at_same. Qed.
End con.

#[export] Hint Extern 1 (pres _ (get_binding _)) => apply pres_read; apply _ : pres.
#[export] Hint Extern 1 (pres _ (get_ip _)) => apply pres_read; apply _ : pres.
#[export] Hint Extern 1 (pres _ (get_pkt _)) => apply pres_read; apply _ : pres.
#[export] Hint Extern 1 (pres _ (get_con _)) => apply pres_read; apply _ : pres.

(** One step at the head of the text, for a connection that is known. *)
Ltac con_step :=
  lazymatch goal with
  | |- wlp (bind _ _) _ _ => apply wlp_bind
  | |- wlp (get_con _) _ _ => first [eapply wlp_get_con; [eassumption|] | apply wlp_read; intros ? ?]
  | |- wlp (put_con _ _) _ _ => eapply wlp_put_con; [eassumption|]; intros ? ?
  | |- wlp (upd_con _ _) _ _ => eapply wlp_upd_con; [eassumption|]; intros ? ?
  | |- wlp (fail _) _ _ => apply wlp_fail
  | |- wlp (if ?b then _ else _) _ _ => let H := fresh "Hif" in destruct b eqn:H
  | |- wlp _ _ _ => eapply wlp_same; [solve [pres]|eassumption|]; intros ? ? ?
  end.

(** The state stays, and no packet with the fin flag appears. *)
Definition quiet (y y' : tcp_con) : Prop := cn_state y' = cn_state y /\ (nofin (cn_sending y) -> nofin (cn_sending y')).
#[export] Instance quiet_pre : PreOrder quiet.
Proof. split; [by intros []|]. intros ??? [] []. split; [congruence|auto]. Qed.
Lemma quiet_moved y y' : quiet y y' -> moved y y'.
Proof. intros [Hs Hf] [Hc He]. unfold con_ok. rewrite Hs. split; [|done]. split; [done|auto]. Qed.
#[export] Hint Resolve quiet_moved : core.

(** Nothing but the state matters for [moved]. *)
Lemma moved_step y y' : tcp_step (cn_state y) (cn_state y') -> cn_state y' <> TCP_state_closed ->
  (early (cn_state y') -> early (cn_state y)) -> cn_sending y' = cn_sending y -> moved y y'.
Proof. intros Hs Hc He Hl [_ Hn]. split; [|by apply rtc_once]. split; [done|]. rewrite Hl. auto. Qed.

Section con_ops.
Context {E : Type} `{Host E}.
Implicit Types (n : net_dev E).
Abbreviation NM := (M (net_dev E)).
Variables (c : Z) (n0 : net_dev E).

Lemma wlp_add_pkt n y flags d len (Q : unit -> net_dev E -> Prop) : con_at c n0 n y ->
  (forall n' y', con_at c n0 n' y' -> cn_state y' = cn_state y ->
    (cn_sending y' = cn_sending y \/ exists t, cn_sending y' = cn_sending y ++ [t] /\ tp_flags t = flags) -> Q tt n') ->
  wlp (add_pkt c flags d len) n Q.
Proof.
  intros Hat HQ. unfold add_pkt. con_step. con_step. con_step.
  - apply wlp_ret. eapply HQ; eauto.
  - eapply wlp_upd_con; [done|]. intros n2 Hat2. eapply HQ; [done|by destruct y|]. right.
    eexists. split; [by destruct y|done].
Qed.
Lemma wlp_add_quiet n y flags d len (Q : unit -> net_dev E -> Prop) : con_at c n0 n y -> flag flags TCP_flag_fin = false ->
  (forall n' y', con_at c n0 n' y' -> quiet y y' -> Q tt n') -> wlp (add_pkt c flags d len) n Q.
Proof.
  intros Hat Hf HQ. eapply wlp_add_pkt; [done|]. intros n' y' Hat' Hs Hl. eapply HQ; [done|]. split; [done|].
  destruct Hl as [->|(t & -> & Ht)]; [done|]. intros Hn. apply Forall_app. split; [done|]. constructor; [by rewrite Ht|constructor].
Qed.

Lemma pres_free_tcp_pkt p : pres (@same_cons E) (free_tcp_pkt p).
Proof. unfold free_tcp_pkt. pres. Qed.
Lemma wlp_skip_empty l n : wlp (skip_empty l) n (fun l' n' => same_cons n n' /\ l' `suffix_of` l).
Proof.
  revert n. induction l as [|p l IH]; intros n; cbn [skip_empty]; [by apply wlp_ret|].
  destruct (0 <? _); [by apply wlp_ret|]. destruct l as [|p2 l]; [by apply wlp_ret|]. destruct (flag _ _); [by apply wlp_ret|].
  apply wlp_bind. eapply wlp_pres; [apply pres_free_tcp_pkt|]. intros _ n1 Hn1. eapply wlp_mono; [apply IH|].
  intros l' n2 [Hn2 Hl]. split; [unfold same_cons in *; congruence|]. by apply suffix_cons_r.
Qed.
Lemma nofin_suffix l l' : l' `suffix_of` l -> nofin l -> nofin l'.
Proof. intros [k ->] Hn. apply Forall_app in Hn. tauto. Qed.
Lemma state_sent_nofin p s : flag (tp_flags p) TCP_flag_fin = false -> state_sent (tp_flags p) s = s.
Proof. intros Hf. by destruct s; cbn; rewrite ?Hf. Qed.
Lemma state_sent_moved p y : moved y (set_cn_state (state_sent (tp_flags p) (cn_state y)) y).
Proof.
  destruct (flag (tp_flags p) TCP_flag_fin) eqn:Hf; [|rewrite state_sent_nofin by done; by destruct y].
  destruct y as [? ? ? ? ? ? s]; destruct s; cbn; rewrite ?Hf; try reflexivity;
    (apply moved_step; cbn; [constructor|done|by intros [[|]|]|done]).
Qed.

(** What is sent: the state moves when the packet closes the connection. *)
Lemma wlp_send_tcp_pkt b n y (Q : unit -> net_dev E -> Prop) : con_at c n0 n y ->
  (forall n' y', con_at c n0 n' y' -> moved y y' -> (nofin (cn_sending y) -> quiet y y') ->
    (exists flags, cn_state y' = state_sent flags (cn_state y)) -> Q tt n') ->
  wlp (send_tcp_pkt b c) n Q.
Proof.
  intros Hat HQ. unfold send_tcp_pkt. con_step. con_step. con_step. con_step. con_step.
  eapply wlp_mono; [apply wlp_skip_empty|]. intros l n2 [Hn2 Hl]. cbn beta.
  assert (Hq : quiet y (set_cn_sending l y)) by (destruct y; split; [done|by apply nofin_suffix]).
  assert (con_at c n0 n2 y) by (eapply con_at_same; [|done]; done). con_step. con_step.
  destruct l as [|p l].
  { apply wlp_ret. eapply HQ; [done|auto|done|]. exists 0. by destruct y as [? ? ? ? ? ? []]. }
  con_step. con_step.
  eapply wlp_same; [|eassumption|].
  - pres.
  - intros [] n5 Hat5. eapply HQ; [done| | |exists (tp_flags p); by destruct y].
    + transitivity (set_cn_sending (p :: l) y); [auto|]. eapply transitivity; [apply (state_sent_moved p)|]. by destruct y.
    + intros Hn. pose proof (nofin_suffix _ _ Hl Hn) as Hp. apply Forall_cons in Hp as [Hp _].
      rewrite state_sent_nofin by done. etransitivity; [exact Hq|]. by destruct y.
Qed.
End con_ops.

#[export] Hint Extern 1 (pres _ (free_tcp_pkt _)) => apply pres_free_tcp_pkt : pres.

(** An operation on one connection. *)
Definition con_op {E A} (c : Z) (m : M (net_dev E) A) : Prop := forall n0 n y, con_at c n0 n y -> con_ok y ->
  wlp m n (fun _ n' => exists y', con_at c n0 n' y' /\ moved y y').

Section con_ops2.
Context {E : Type} `{Host E}.
Implicit Types (n : net_dev E).
Abbreviation NM := (M (net_dev E)).
Variable c : Z.

Lemma con_op_bind {A B} (m : NM A) (k : A -> NM B) : con_op c m -> (forall a, con_op c (k a)) -> con_op c (bind m k).
Proof.
  intros Hm Hk n0 n y Hat Hok. apply wlp_bind. eapply wlp_mono; [by eapply Hm|]. cbn beta. intros a n1 (y1 & Hat1 & Hm1).
  eapply wlp_mono; [eapply Hk; [done|by apply Hm1]|]. intros _ n2 (y2 & Hat2 & Hm2). exists y2. split; [done|]. by transitivity y1.
Qed.
Lemma con_op_same {A} (m : NM A) : pres same_cons m -> con_op c m.
Proof. intros Hm n0 n y Hat _. eapply wlp_same; [done|done|]. intros a n' Hat'. by exists y. Qed.
Lemma con_op_ret {A} (a : A) : con_op (E := E) c (ret a).
Proof. apply con_op_same. pres. Qed.
Lemma con_op_send b : con_op c (send_tcp_pkt b c).
Proof. intros n0 n y Hat _. eapply wlp_send_tcp_pkt; [done|]. eauto. Qed.
Lemma con_op_add flags d len : flag flags TCP_flag_fin = false -> con_op c (add_pkt c flags d len).
Proof. intros Hf n0 n y Hat _. eapply wlp_add_quiet; [done|done|]. eauto. Qed.
Lemma con_op_upd f : (forall y, moved y (f y)) -> con_op (E := E) c (upd_con c f).
Proof. intros Hf n0 n y Hat _. eapply wlp_upd_con; [done|]. eauto. Qed.
(** A field that neither the state nor the flags depend on. *)
Lemma con_op_upd_quiet f : (forall y, quiet y (f y)) -> con_op (E := E) c (upd_con c f).
Proof. intros Hf. apply con_op_upd. auto. Qed.
(** The first packet closes nothing if the state is early. *)
Lemma quiet_sending y l : l `suffix_of` cn_sending y -> quiet y (set_cn_sending l y).
Proof. intros Hl. destruct y; split; [done|by apply nofin_suffix]. Qed.

Lemma con_op_get (k : tcp_con -> NM unit) :
  (forall n0 n y, con_at c n0 n y -> con_ok y -> wlp (k y) n (fun _ n' => exists y', con_at c n0 n' y' /\ moved y y')) ->
  con_op c (let* y := get_con c in k y).
Proof. intros Hk n0 n y Hat Hok. apply wlp_bind. eapply wlp_get_con; [done|]. by apply Hk. Qed.

(** The rest of an operation, after a change of [y] to [y1]. *)
Lemma con_op_after {A} (m : NM A) n0 n y y1 : con_op c m -> con_ok y -> moved y y1 -> con_at c n0 n y1 ->
  wlp m n (fun _ n' => exists y', con_at c n0 n' y' /\ moved y y').
Proof.
  intros Hm Hok Hy Hat. eapply wlp_mono; [eapply Hm; [done|by apply Hy]|]. intros _ n' (y' & Hat' & Hm').
  exists y'. split; [done|]. by transitivity y1.
Qed.

Lemma con_op_pop : con_op c (pop_sending c).
Proof.
  apply con_op_get. intros n0 n y Hat Hok. destruct (cn_sending y) as [|t l] eqn:Hl; [apply wlp_ret; by exists y|].
  con_step. con_step. eapply con_op_after; [apply con_op_same; pres|done| |eassumption].
  apply quiet_moved, quiet_sending. rewrite Hl. by apply suffix_cons_r.
Qed.
Lemma pres_drop_acked ack l : pres (@same_cons E) (drop_acked ack l).
Proof. induction l as [|t l IH]; cbn [drop_acked]; pres; apply IH. Qed.
Lemma drop_acked_suffix ack l n : wlp (drop_acked ack l) n (fun l' n' => same_cons n n' /\ l' `suffix_of` l).
Proof.
  revert n. induction l as [|t l IH]; intros n; cbn [drop_acked]; [by apply wlp_ret|]. destruct (_ || _); [by apply wlp_ret|].
  apply wlp_bind. eapply wlp_pres; [apply pres_free_tcp_pkt|]. intros _ n1 Hn1. eapply wlp_mono; [apply IH|].
  intros l' n2 [Hn2 Hl]. split; [unfold same_cons in *; congruence|]. by apply suffix_cons_r.
Qed.
Lemma con_op_acked ack : con_op c (let* z := get_con c in let* l := drop_acked ack (cn_sending z) in put_con c (set_cn_sending l z)).
Proof.
  apply con_op_get. intros n0 n y Hat Hok. apply wlp_bind. eapply wlp_mono; [apply drop_acked_suffix|]. cbn beta.
  intros l n1 [Hs Hl]. eapply wlp_put_con; [by eapply con_at_same|]. intros n2 Hat2. eexists. split; [exact Hat2|].
  by apply quiet_moved, quiet_sending.
Qed.

(** A new state, written alone. *)
Lemma moved_state s y : tcp_step (cn_state y) s -> s <> TCP_state_closed -> (early s -> early (cn_state y)) -> moved y (set_cn_state s y).
Proof. intros. destruct y. by apply moved_step. Qed.
Lemma moved_state_eq s s' y : cn_state y = s' -> tcp_step s' s -> s <> TCP_state_closed -> (early s -> early s') -> moved y (set_cn_state s y).
Proof. intros <-. apply moved_state. Qed.
End con_ops2.

#[export] Hint Extern 1 (pres _ (drop_acked _ _)) => apply pres_drop_acked : pres.
#[export] Hint Extern 1 (quiet _ _) => (match goal with |- quiet ?y _ => destruct y end; done) : core.

Section handlers.
Context {E : Type} `{Host E}.
Implicit Types (n : net_dev E).
Abbreviation NM := (M (net_dev E)).
Variable c : Z.

(** [y] changed to [y1], and the rest is an operation on the connection. *)
Ltac after := eapply con_op_after; [|eassumption| |eassumption].
Ltac con_ops := repeat lazymatch goal with
  | |- con_op _ (bind _ _) => apply con_op_bind; [|intros ?]
  | |- con_op _ (send_tcp_pkt _ _) => apply con_op_send
  | |- con_op _ (add_pkt _ _ _ _) => apply con_op_add; reflexivity
  | |- con_op _ (upd_con _ _) => apply con_op_upd_quiet; intros ?; auto
  | |- con_op _ (pop_sending _) => apply con_op_pop
  | |- con_op _ (ret _) => apply con_op_ret
  | |- con_op _ _ => apply con_op_same; solve [pres]
  end.

Lemma con_op_finish b : con_op c (tcp_con_finish b c).
Proof. apply con_op_same. unfold tcp_con_finish. pres. Qed.
Lemma con_op_connect_finish b : con_op c (connect_tcp_finish b c).
Proof. apply con_op_same. unfold connect_tcp_finish. pres. Qed.
Lemma con_op_listen_finish b : con_op c (listen_tcp_finish b c).
Proof.
  unfold listen_tcp_finish. apply con_op_bind; [con_ops|intros x]. apply con_op_bind; [con_ops|intros ip].
  apply con_op_get. intros n0 n y Hat Hok. destruct (negb _); [apply wlp_ret; by exists y|].
  con_step. con_step. after; [con_ops|]. by destruct y.
Qed.

Lemma con_op_fin b : con_op c (handle_tcp_fin b c).
Proof.
  apply con_op_get. intros n0 n y Hat Hok. pose proof con_op_finish.
  assert (Htw : con_op c (add_pkt c TCP_flag_ack nodata 0 ;;; send_tcp_pkt b c)) by con_ops.
  assert (Hfw2 : forall n1 y1, moved y y1 -> cn_state y1 = TCP_state_fin_wait_2 -> con_at c n0 n1 y1 ->
    wlp (upd_con c (set_cn_state TCP_state_time_wait) ;;; upd_con c (fun y => set_cn_ack (u32 (cn_ack y + 1)) y) ;;;
      tcp_con_finish b c ;;; add_pkt c TCP_flag_ack nodata 0 ;;; send_tcp_pkt b c) n1
      (fun _ n' => exists y', con_at c n0 n' y' /\ moved y y')).
  { intros n1 y1 Hm Hs Hat1. con_step. con_step. after.
    - apply con_op_bind; [con_ops|intros _]. apply con_op_bind; [auto|intros _]. exact Htw.
    - etransitivity; [exact Hm|]. eapply moved_state_eq; [exact Hs|constructor|done|by intros [[|]|]]. }
  destruct (cn_state y) eqn:Hs; try (apply wlp_ret; by exists y).
  - con_step. con_step. after.
    + destruct (cn_recv_wait y); con_ops.
    + transitivity (set_cn_state TCP_state_close_wait y); [|by destruct y; auto].
      eapply moved_state_eq; [exact Hs|constructor|done|by intros [[|]|]].
  - con_step. con_step. eapply Hfw2; cycle 2; [eassumption| |by destruct y].
    eapply moved_state_eq; [exact Hs|constructor|done|by intros [[|]|]].
  - by eapply Hfw2.
  - by eapply Htw.
Qed.

Lemma con_op_syn p b seq port : con_op c (handle_tcp_syn p b c seq port).
Proof.
  apply con_op_get. intros n0 n y Hat Hok. destruct (cn_state y) eqn:Hs; try (apply wlp_ret; by exists y).
  - apply wlp_bind. apply wlp_read. intros x _. con_step. con_step.
    assert (Hq : forall a m, quiet y (set_cn_rem port m a y)) by (intros; auto).
    con_step. eapply wlp_same; [solve [pres]|eassumption|]. intros m n2 Hat2. destruct m as [mac|].
    + con_step. con_step. con_step. con_step. con_step. con_step. after; [apply con_op_bind; [|intros _; con_ops]; con_ops|].
      match goal with |- moved y (set_cn_state _ ?z) => transitivity z; [by destruct y; auto|] end.
      eapply (moved_state_eq _ TCP_state_listen); [by destruct y|constructor|done|intros; by left; left].
    + after; [con_ops|auto].
  - pose proof con_op_connect_finish. do 9 con_step.
    destruct Hok as [Hc He]. assert (Hn : nofin (cn_sending y)) by (apply He; left; by right).
    eapply wlp_add_quiet; [eassumption|reflexivity|]. intros n5 y5 Hat5 Hq5.
    assert (H5 : moved y y5 /\ cn_state y5 = TCP_state_established /\ nofin (cn_sending y5)).
    { destruct Hq5 as [Hq5s Hq5n]. split; [|split; [rewrite Hq5s; by destruct y|apply Hq5n; by destruct y]].
      match type of Hq5n with (nofin (cn_sending ?z) -> _) => transitivity z; [|by apply quiet_moved] end.
      transitivity (set_cn_state TCP_state_syn_received y).
      { eapply moved_state_eq; [exact Hs|constructor|done|intros; by left; right]. }
      transitivity (set_cn_state TCP_state_established (set_cn_state TCP_state_syn_received y)); [|by destruct y; auto].
      eapply (moved_state_eq _ TCP_state_syn_received); [by destruct y|constructor|done|by intros [[|]|]]. }
    destruct H5 as (Hm5 & Hs5 & Hn5). con_step. eapply wlp_send_tcp_pkt; [eassumption|]. intros n6 y6 Hat6 _ Hq6 _.
    specialize (Hq6 Hn5). con_step. con_step. eapply con_op_after; [auto|split; [done|exact He]| |eassumption].
    transitivity y5; [done|]. transitivity y6; [auto|]. apply quiet_moved.
    destruct Hq6 as [Hq6 _]. rewrite Hs5 in Hq6. destruct y6. split; [by symmetry|done].
Qed.

Lemma con_op_insert seq data off len : con_op c (insert_received c seq data off len).
Proof.
  apply con_op_get. intros n0 n y Hat Hok. destruct (recv_place _ _ _ _) as [[b a] []]; [apply wlp_ret; by exists y|].
  con_step. con_step. con_step; [apply wlp_ret; by exists y|]. apply wlp_bind. eapply wlp_same; [solve [pres]|eassumption|].
  intros [[d bs]|] n3 Hat3.
  - con_step. eexists. split; [eassumption|]. by destruct y; auto.
  - con_step. by exists y.
Qed.

Lemma con_op_free b : con_op c (tcp_con_free b c).
Proof.
  unfold tcp_con_free. apply con_op_bind; [con_ops|intros x]. apply con_op_get. intros n0 n y Hat Hok.
  rewrite bool_decide_false by apply Hok. apply wlp_ret. by exists y.
Qed.

Lemma con_op_ack b seq ack data off len : con_op c (handle_tcp_ack b c seq ack data off len).
Proof.
  apply con_op_get. intros n0 n y Hat Hok. pose proof con_op_free. pose proof con_op_listen_finish.
  destruct (cn_state y) eqn:Hs; try (apply wlp_ret; by exists y).
  - con_step. con_step. con_step. con_step. after; [auto|].
    transitivity (set_cn_state TCP_state_established y); [|by destruct y; auto].
    eapply moved_state_eq; [exact Hs|constructor|done|by intros [[|]|]].
  - destruct (_ <? _); [by apply con_op_insert|]. destruct (_ <? _); [|apply wlp_ret; by exists y].
    enough (con_op c (add_pkt c TCP_flag_ack nodata 0 ;;; send_tcp_pkt b c)) by auto. con_ops.
  - destruct (_ =? _); [|by apply con_op_send]. con_step. con_step. con_step. con_step. after; [con_ops|].
    transitivity (set_cn_state TCP_state_fin_wait_2 y); [|by destruct y; auto].
    eapply moved_state_eq; [exact Hs|constructor|done|by intros [[|]|]].
  - destruct (_ =? _); [|apply wlp_ret; by exists y].
    enough (con_op c (pop_sending c ;;; tcp_con_free b c)) by auto. apply con_op_bind; [con_ops|auto].
Qed.
End handlers.

Ltac con_ops := repeat lazymatch goal with
  | |- con_op _ (bind _ _) => apply con_op_bind; [|intros ?]
  | |- con_op _ (if ?b then _ else _) => destruct b
  | |- con_op _ (match ?x with _ => _ end) => destruct x
  | |- con_op _ (send_tcp_pkt _ _) => apply con_op_send
  | |- con_op _ (add_pkt _ _ _ _) => apply con_op_add; reflexivity
  | |- con_op _ (upd_con _ _) => apply con_op_upd_quiet; intros ?; auto
  | |- con_op _ (pop_sending _) => apply con_op_pop
  | |- con_op _ (ret _) => apply con_op_ret
  | |- con_op _ (handle_tcp_rst _) => apply con_op_same, pres_bind; [apply _|pres|intros; pres]
  | |- con_op _ (handle_tcp_fin _ _) => apply con_op_fin
  | |- con_op _ (handle_tcp_syn _ _ _ _ _) => apply con_op_syn
  | |- con_op _ (handle_tcp_ack _ _ _ _ _ _ _) => apply con_op_ack
  | |- con_op _ _ => apply con_op_same; solve [pres]
  end.

Section net.
Context {E : Type} `{Host E}.
Implicit Types (n : net_dev E).
Abbreviation NM := (M (net_dev E)).
Variable new : Z -> Prop.
Abbreviation moves := (@cons_moved E new).

(** An operation that reads the connection first. *)
Lemma pres_get_con c (k : tcp_con -> NM unit) :
  (forall n y, con_at c n n y -> con_ok y -> wlp (k y) n (fun _ n' => exists y', con_at c n n' y' /\ moved y y')) ->
  pres moves (let* y := get_con c in k y).
Proof.
  intros Hk n. apply wlp_bind, wlp_read. intros y Hy. unfold wlp. destruct (k y n) as [[] n'| | |] eqn:Hrun; try done. intros Hok.
  pose proof (Hk n y (con_at_refl _ _ _ Hy) (Hok _ _ Hy)) as Hw. eapply wlp_ok in Hw; [|exact Hrun].
  destruct Hw as (y' & Hat & Hm). by eapply con_at_moved.
Qed.
Lemma pres_upd_con c f (k : NM unit) : (forall y, quiet y (f y)) -> con_op c k -> pres moves (upd_con c f ;;; k).
Proof.
  intros Hf Hk. assert (Hg : pres moves (let* y := get_con c in (put_con c (f y) ;;; k))).
  { apply pres_get_con. intros n y Hat Hok. apply wlp_bind. eapply wlp_put_con; [done|]. intros n1 Hat1.
    eapply con_op_after; [done|done| |done]. auto. }
  intros n. specialize (Hg n). unfold wlp, upd_con, bind in *. destruct (get_con c n); done.
Qed.

Lemma pres_con_from p s y : pres moves (con_from p s y).
Proof. unfold con_from. pres. Qed.
Lemma pres_find_con_from fuel c p s : pres moves (find_con_from fuel c p s).
Proof. revert c. induction fuel as [|fuel IH]; intros c; cbn [find_con_from]; pose proof pres_con_from; pres; apply IH. Qed.
Lemma pres_find_tcp_con b id : pres moves (find_tcp_con b id).
Proof.
  unfold find_tcp_con. pres. generalize (S (size (ns_con a1))), (bi_cons a0). intros fuel. induction fuel as [|fuel IH]; intros c;
    cbn [find_tcp_con_loop]; pres; apply IH.
Qed.

Lemma pres_handle_tcp p : pres moves (handle_tcp p).
Proof.
  unfold handle_tcp. pose proof pres_find_con_from. pose proof pres_con_from.
  apply (pres_bind moves); [pres|intros x]. apply (pres_bind moves); [pres|intros hdr].
  do 16 (destruct hdr as [|? hdr]; [apply pres_fail|]). destruct hdr; [|apply pres_fail].
  cbv zeta. apply (pres_bind moves); [pres|intros b]. destruct (b =? NIL); [pres|].
  apply (pres_bind moves); [pres|intros y]. apply (pres_bind moves); [pres|intros ip].
  apply (pres_bind moves); [pres|intros n]. apply (pres_bind moves); [auto|intros c1].
  apply (pres_bind moves); [pres|intros c]. destruct (c =? NIL); [pres|].
  apply pres_upd_con; [auto|]. apply con_op_bind; [|intros _; con_ops].
  destruct (flag _ TCP_flag_ack); [apply con_op_acked|con_ops].
Qed.
Lemma pres_connect_tcp_arp c mac : pres moves (connect_tcp_arp c mac).
Proof.
  apply pres_get_con. intros n y Hat Hok. apply wlp_bind, wlp_read. intros b _. apply wlp_bind.
  eapply wlp_put_con; [done|]. intros n1 Hat1. eapply con_op_after; [apply con_op_send|done| |done]. auto.
Qed.
Lemma pres_call_func f mac : pres moves (call_func f mac).
Proof. destruct f; [apply pres_udp_write_finish; apply _|apply pres_connect_tcp_arp]. Qed.

Lemma pres_upd_con1 c f : (forall y, quiet y (f y)) -> pres moves (upd_con c f).
Proof.
  intros Hf. apply pres_get_con. intros n y Hat Hok. eapply wlp_put_con; [done|]. intros n' Hat'. eexists. split; [done|auto].
Qed.
Lemma pres_add_pkt c flags d len : flag flags TCP_flag_fin = false -> pres moves (add_pkt c flags d len).
Proof.
  intros Hf. unfold add_pkt. apply (pres_bind moves); [pres|intros t]. destruct (_ =? _); [pres|].
  apply pres_upd_con1. intros y. destruct y. split; [done|]. cbn. intros Hn. apply Forall_app. split; [done|by repeat constructor].
Qed.
(** A connection that is made is at a place where there may be a new one. *)
Definition malloc_new n : Prop := forall a bs e', h_malloc sizeof_tcp_con (nd_env n) = Ok (a, bs) e' -> a <> NIL -> new a.
Lemma wlp_new_con n (k : Z -> NM unit) : malloc_new n -> (forall c, new c -> pres moves (k c)) ->
  wlp (let* c := alloc sizeof_tcp_con in if c =? NIL then ret tt else k c) n (fun _ n' => moves n n').
Proof.
  intros Hn Hk. unfold alloc, n_malloc, on_host, zoom. apply wlp_bind, wlp_bind. unfold wlp at 1.
  destruct (h_malloc _ _) as [[a bs] e'| | |] eqn:Hm; try done. apply wlp_ret. destruct (Z.eqb_spec a NIL) as [|Ha].
  - apply wlp_ret, nr_env.
  - eapply wlp_mono; [by eapply Hk, Hn|]. cbn beta. intros _ n' Hn'. etransitivity; [apply nr_env|exact Hn'].
Qed.
Lemma pres_put_new c y : new c -> con_ok y -> initial (cn_state y) -> pres moves (put_con c y).
Proof. intros Hc Hy Hi n. apply wlp_modify. eapply (con_at_new new c); [done..|]. by destruct n. Qed.
Lemma wlp_ip_tcp_listen b n : malloc_new n -> wlp (ip_tcp_listen b) n (fun _ n' => moves n n').
Proof.
  intros Hn. unfold ip_tcp_listen. apply wlp_bind, wlp_read. intros x _. apply wlp_new_con; [done|]. intros c Hc.
  apply (pres_bind moves); [pres|intros ip]. apply (pres_bind moves); [|intros; pres].
  apply pres_put_new; [done|split; [done|by intros _; constructor]|by left].
Qed.
Lemma wlp_ip_tcp_connect rq b n : malloc_new n -> wlp (ip_tcp_connect rq b) n (fun _ n' => moves n n').
Proof.
  intros Hn. unfold ip_tcp_connect. apply wlp_bind, wlp_read. intros x _. apply wlp_new_con; [done|]. intros c Hc.
  apply (pres_bind moves); [pres|intros ip]. apply (pres_bind moves); [|intros _].
  { apply pres_put_new; [done|split; [done|by intros _; constructor]|by right]. }
  apply (pres_bind moves); [pres|intros _]. apply (pres_bind moves); [by apply pres_add_pkt|intros _].
  apply pres_arp_request; [apply _|apply pres_call_func].
Qed.

Lemma pres_ip_tcp_disconnect rq b : pres moves (ip_tcp_disconnect rq b).
Proof.
  unfold ip_tcp_disconnect. pose proof pres_find_tcp_con. apply (pres_bind moves); [auto|intros c].
  destruct (_ =? _); [pres|]. apply pres_get_con. intros n y Hat Hok. destruct (cn_recv_wait y); [|apply wlp_ret; by exists y].
  apply wlp_bind. eapply wlp_put_con; [done|]. intros n1 Hat1.
  assert (Hq : moved y (set_cn_closing true y)) by auto.
  assert (Hlate : ~ early (cn_state y) -> wlp (add_pkt c (Z.lor TCP_flag_ack TCP_flag_fin) nodata 0;;; send_tcp_pkt b c) n1
    (fun _ n' => exists y', con_at c n n' y' /\ moved y y')).
  { intros Hs. apply wlp_bind. eapply wlp_add_pkt; [done|]. intros n2 y2 Hat2 Hst2 _. 
    assert (Hc2 : cn_state y2 = cn_state y) by (rewrite Hst2; by destruct y).
    eapply con_op_after; [apply con_op_send|done| |done]. intros _. split; [split|].
    - rewrite Hc2. apply Hok.
    - rewrite Hc2. tauto.
    - by rewrite Hc2. }
  destruct (cn_state y); first [apply Hlate; by intros [[|]|] | eapply (con_op_after c); [|done|exact Hq|done]; con_ops].
Qed.

Lemma pres_ip_write_tcp rq cap b : pres moves (ip_write_tcp rq cap b).
Proof.
  unfold ip_write_tcp. pose proof pres_find_tcp_con. apply (pres_bind moves); [auto|intros c].
  destruct (_ =? _); [pres|]. apply (pres_bind moves); [pres|intros x]. apply pres_get_con. intros n y Hat Hok.
  assert (Hop : forall m : NM unit, con_op c m -> wlp m n (fun _ n' => exists y', con_at c n n' y' /\ moved y y')) by eauto.
  apply Hop. unfold n_map, n_unmap. con_ops.
Qed.

Lemma quiet_read_loop c fuel va want : forall len cont n0 n y, con_at c n0 n y ->
  wlp (read_tcp_loop fuel c va want len cont) n (fun _ n' => exists y', con_at c n0 n' y' /\ quiet y y').
Proof.
  induction fuel as [|fuel IH]; intros len cont n0 n y Hat; cbn [read_tcp_loop]; [apply wlp_nofuel|].
  con_step. con_step. destruct (cn_recv_wait y) as [|p l]; [apply wlp_ret; by exists y|].
  con_step; [apply wlp_ret; by exists y|]. con_step; [apply wlp_ret; by exists y|]. cbv zeta.
  con_step. con_step. con_step. eapply wlp_same; [apply pres_host; apply _|eassumption|]. intros _ n2 Hat2.
  con_step; con_step; con_step; [|con_step; con_step];
    (eapply wlp_mono; [by eapply IH|]; intros _ nn (y' & Hat' & Hq); exists y'; split; [done|];
     etransitivity; [|exact Hq]; auto).
Qed.

Lemma pres_ip_read_tcp rq cap b : pres moves (ip_read_tcp rq cap b).
Proof.
  unfold ip_read_tcp. pose proof pres_find_tcp_con. apply (pres_bind moves); [auto|intros c].
  destruct (_ =? _); [pres|]. apply (pres_bind moves); [pres|intros x]. apply pres_get_con. intros n y Hat Hok.
  con_step. con_step. destruct (bool_decide_reflect (cn_state y = TCP_state_established)) as [Hs|]; cbn [negb];
    [|con_step; by exists y].
  con_step. eapply wlp_same; [apply pres_host; apply _|eassumption|]. intros va n1 Hat1.
  con_step; [apply wlp_ret; by exists y|]. con_step. eapply wlp_mono; [by eapply quiet_read_loop|]. cbn beta.
  intros [len cont] n2 (y2 & Hat2 & Hq2). con_step.
  eapply (wlp_mono _ _ (fun (_ : unit) (n3 : net_dev E) => exists y3, con_at c n n3 y3 /\ moved y y3 /\
    (cn_state y3 = TCP_state_established \/ cn_state y3 = TCP_state_fin_wait_1))).
  { assert (Hs2 : cn_state y2 = TCP_state_established) by (by destruct Hq2 as [-> _]).
    con_step; [|apply wlp_ret; exists y2; auto]. con_step. con_step. con_step. eapply wlp_add_quiet; [eassumption|reflexivity|].
    intros n4 y4 Hat4 Hq4. eapply wlp_send_tcp_pkt; [eassumption|]. intros n5 y5 Hat5 Hm5 _ (flags & Hf).
    exists y5. split; [done|]. split; [|].
    - transitivity y2; [auto|]. transitivity y4; [|done]. transitivity (set_cn_ack cont y2); auto.
    - destruct Hq4 as [Hq4 _]. rewrite Hf, Hq4. replace (cn_state (set_cn_ack cont y2)) with (cn_state y2) by by destruct y2.
      rewrite Hs2. cbn. destruct (flag _ _); auto. }
  intros _ n3 (y3 & Hat3 & Hm3 & Hs3). con_step. con_step. con_step.
  eapply (wlp_mono _ _ (fun (_ : unit) (n4 : net_dev E) => exists y4, con_at c n n4 y4 /\ moved y y4)).
  { destruct (cn_closing y3); [|apply wlp_ret; eauto]. destruct (cn_recv_wait y3); [|apply wlp_ret; eauto].
    con_step. con_step. eapply (con_op_after c); [con_ops|done| |eassumption]. etransitivity; [exact Hm3|].
    apply moved_state; [destruct Hs3 as [-> | ->]; constructor|done|by intros [[|]|]]. }
  intros _ n4 (y4 & Hat4 & Hm4). con_step. con_step. con_step. by exists y4.
Qed.

(** ** The whole stack *)
Lemma pres_take_frag s d p i o m bdy h l : pres moves (take_frag s d p i o m bdy h l).
Proof. unfold take_frag. pose proof (pres_get_waiting moves). pres. Qed.
Lemma pres_take_pkt s d p i bdy h l : pres moves (take_pkt s d p i bdy h l).
Proof. unfold take_pkt, upd_pkt. pres. Qed.
Lemma pres_handle_ipv4 hdr bdy len : pres moves (handle_ipv4 hdr bdy len).
Proof.
  unfold handle_ipv4, byte. pose proof pres_take_frag. pose proof pres_take_pkt. pose proof pres_handle_tcp.
  pose proof (pres_handle_icmp moves). pose proof (pres_handle_udp moves). pres.
Qed.
Lemma pres_net_process_pkt pkt len : pres moves (net_process_pkt pkt len).
Proof.
  unfold net_process_pkt, byte. pose proof (pres_handle_arp moves _ pres_call_func).
  pose proof pres_handle_ipv4. pres.
Qed.

Lemma pres_ip_bind rq b : pres moves (ip_bind rq b).
Proof. unfold ip_bind, upd_binding, ip_bind_udp_init, ip_bind_tcp_init, upd_ip. pres. Qed.
Lemma pres_ip_unbind b : pres moves (ip_unbind b).
Proof. unfold ip_unbind, ip_unbind_tcp. pose proof (pres_ip_unbind_udp moves). pres. Qed.
Lemma wlp_find_binding from id n : wlp (find_binding from id) n (fun _ n' => n' = n).
Proof.
  unfold find_binding. apply wlp_bind, wlp_get. generalize (ni_bindings n) (S (size (ns_binding n))). intros b fuel. revert b.
  induction fuel as [|fuel IH]; intros b; cbn [find_binding_loop]; [apply wlp_nofuel|]. destruct (_ =? _); [by apply wlp_ret|].
  apply wlp_bind, wlp_read. intros x _. destruct (_ && _); [by apply wlp_ret|apply IH].
Qed.
Lemma wlp_request_binding from rq k n : (forall c x, wlp (k c x) n (fun _ n' => moves n n')) ->
  wlp (request_binding from rq k) n (fun _ n' => moves n n').
Proof.
  intros Hk. unfold request_binding. apply wlp_bind. eapply wlp_mono; [apply wlp_find_binding|]. cbn beta. intros c n' ->.
  destruct (_ =? _); [by apply wlp_ret|]. apply wlp_bind, wlp_read. intros x _. destruct (negb _); [by apply wlp_ret|done].
Qed.
Lemma wlp_net_handle_message eid from m cap n : malloc_new n -> wlp (net_handle_message eid from m cap) n (fun _ n' => moves n n').
Proof.
  intros Hn. assert (Hp : forall m : NM unit, pres moves m -> wlp m n (fun _ n' => moves n n')) by auto.
  pose proof pres_ip_bind. pose proof pres_ip_unbind. unfold net_handle_message.
  repeat match goal with |- wlp (if _ then _ else _) _ _ => destruct (_ =? _) end;
    try (apply wlp_request_binding; intros c x).
  1,2: unfold handle_bind, handle_unbind, upd_binding, drop_binding; apply Hp; pres.
  1,2: destruct (_ =? _); [|by apply wlp_ret]; by first [apply wlp_ip_tcp_listen|apply wlp_ip_tcp_connect].
  all: apply Hp; pose proof pres_ip_tcp_disconnect; pose proof (pres_ip_read_udp moves); pose proof pres_ip_read_tcp;
    pose proof (pres_ip_write_udp moves _ pres_call_func); pose proof pres_ip_write_tcp; pres.
Qed.
End net.

(** What happens to a device after it is started. *)
Inductive net_event := Ev_pkt (pkt : list Z) (len : Z) | Ev_message (eid from : Z) (m : net_req) (cap : Z).
Definition net_event_run {E} `{Host E} (ev : net_event) : M (net_dev E) unit :=
  match ev with
  | Ev_pkt pkt len => net_process_pkt pkt len
  | Ev_message eid from m cap => net_handle_message eid from m cap
  end.
Fixpoint net_run {E} `{Host E} (evs : list net_event) : M (net_dev E) unit :=
  match evs with
  | [] => ret tt
  | ev :: evs => net_event_run ev ;;; net_run evs
  end.

(** The memory that is given out for a connection is not that of another one. *)
Definition malloc_fresh {E} `{Host E} (n : net_dev E) : Prop :=
  forall a bs e', h_malloc sizeof_tcp_con (nd_env n) = Ok (a, bs) e' -> a <> NIL -> ns_con n !! a = None.
Fixpoint run_fresh {E} `{Host E} (evs : list net_event) (n : net_dev E) : Prop :=
  match evs with
  | [] => True
  | ev :: evs => malloc_fresh n /\ match net_event_run ev n with Ok _ n' => run_fresh evs n' | _ => True end
  end.

Lemma net_event_moves {E} `{Host E} new ev (n n' : net_dev E) : malloc_new new n -> net_event_run ev n = Ok tt n' -> cons_moved new n n'.
Proof.
  intros Hn Hr. destruct ev as [pkt len|eid from m cap]; cbn [net_event_run] in Hr.
  - pose proof (pres_net_process_pkt new pkt len n) as Hw. by eapply wlp_ok in Hw.
  - pose proof (wlp_net_handle_message new eid from m cap n Hn) as Hw. by eapply wlp_ok in Hw.
Qed.
Lemma net_run_cons {E} `{Host E} ev evs (n n' : net_dev E) : net_run (ev :: evs) n = Ok tt n' ->
  exists n1, net_event_run ev n = Ok tt n1 /\ net_run evs n1 = Ok tt n'.
Proof. cbn [net_run]. unfold bind. destruct (net_event_run ev n) as [[] n1| | |]; try done. by exists n1. Qed.

(** Without a word on memory, a new connection may be anywhere. *)
Lemma net_run_moves {E} `{Host E} evs (n n' : net_dev E) : net_run evs n = Ok tt n' -> cons_moved (fun _ => True) n n'.
Proof.
  revert n. induction evs as [|ev evs IH]; intros n Hr; [by injection Hr as <-|].
  apply net_run_cons in Hr as (n1 & H1 & H2). etransitivity; [by eapply net_event_moves|by apply IH].
Qed.
Lemma net_run_steps {E} `{Host E} evs (n n' : net_dev E) : all_ok n -> run_fresh evs n -> net_run evs n = Ok tt n' ->
  (forall c y, ns_con n !! c = Some y -> exists y', ns_con n' !! c = Some y' /\ rtc tcp_step (cn_state y) (cn_state y')) /\
  (forall c y', ns_con n' !! c = Some y' -> ns_con n !! c = None -> from_initial (cn_state y')).
Proof.
  revert n. induction evs as [|ev evs IH]; intros n Hok Hf Hr.
  { injection Hr as <-. split; [intros c y Hy; by exists y|]. intros c y Hy Hn. congruence. }
  apply net_run_cons in Hr as (n1 & H1 & H2). cbn [run_fresh] in Hf. rewrite H1 in Hf. destruct Hf as [Hm Hf].
  destruct (net_event_moves (fun c => ns_con n !! c = None) _ _ _ Hm H1 Hok) as (Hok1 & Hd & Hs).
  destruct (IH n1 Hok1 Hf H2) as [Hs1 Hn1]. split.
  - intros c y Hy. assert (is_Some (ns_con n1 !! c)) as [y1 Hy1] by (apply elem_of_dom, Hd, elem_of_dom; by exists y).
    destruct (Hs _ _ Hy1) as [(z & Hz & Hz1)|[Hz _]]; [|congruence]. rewrite Hy in Hz. injection Hz as <-.
    destruct (Hs1 _ _ Hy1) as (y' & Hy' & H'). exists y'. split; [done|]. by etransitivity.
  - intros c y' Hy' Hn. destruct (ns_con n1 !! c) as [y1|] eqn:Hy1; [|by eapply Hn1].
    destruct (Hs _ _ Hy1) as [(z & Hz & _)|[_ (i & Hi & Hi1)]]; [congruence|].
    destruct (Hs1 _ _ Hy1) as (z & Hz & Hz1). rewrite Hy' in Hz. injection Hz as <-. exists i. split; [done|]. by etransitivity.
Qed.

(** Where a connection can be. *)
Lemma from_initial_open s : from_initial s -> s <> TCP_state_closed.
Proof. intros (i & [-> | ->] & Hs) ->; apply rtc_inv_r in Hs as [[=]|(z & _ & Hz)]; inversion Hz. Qed.
