(* ===== verification/NetHost.v ===== *)
(** * The network stack: the process around it

    [HostOk] is what the stack relies on: memory that is given out is not in use, what is
    sent goes out once, answers reach the client with the capability they return, and a
    frame that is mapped can be read and written.  [sim_host] is a process that has it. *)
From S2P Require Import Prelude Bytes Net NetIp NetUdp.

Local Open Scope Z_scope.
Local Open Scope c_scope.

(** What can be seen of the process: the blocks in use, the packets sent, the answers
    (endpoint, process, answer, capability), the frames by capability and where they
    are mapped.  If [hv_plenty], no request for memory is refused. *)
Record hview := mk_hview {
  hv_plenty : bool; hv_used : gset Z; hv_sent : list (list Z); hv_said : list (Z * Z * net_rsp * option Z);
  hv_frames : gmap Z (list Z); hv_maps : gmap Z Z
}.
Definition hv_set_used (u : gset Z) (v : hview) : hview := mk_hview (hv_plenty v) u (hv_sent v) (hv_said v) (hv_frames v) (hv_maps v).
Definition hv_send (bs : list Z) (v : hview) : hview := mk_hview (hv_plenty v) (hv_used v) (hv_sent v ++ [bs]) (hv_said v) (hv_frames v) (hv_maps v).
Definition hv_say (x : Z * Z * net_rsp * option Z) (v : hview) : hview := mk_hview (hv_plenty v) (hv_used v) (hv_sent v) (hv_said v ++ [x]) (hv_frames v) (hv_maps v).
Definition hv_write (cap : Z) (bs : list Z) (v : hview) : hview := mk_hview (hv_plenty v) (hv_used v) (hv_sent v) (hv_said v) (<[cap := bs]> (hv_frames v)) (hv_maps v).
Definition hv_map (va cap : Z) (v : hview) : hview := mk_hview (hv_plenty v) (hv_used v) (hv_sent v) (hv_said v) (hv_frames v) (<[va := cap]> (hv_maps v)).
Definition hv_unmap (va : Z) (v : hview) : hview := mk_hview (hv_plenty v) (hv_used v) (hv_sent v) (hv_said v) (hv_frames v) (delete va (hv_maps v)).

(** Bytes that are overwritten from [o] on. *)
Definition overwrite (bs : list Z) (o : nat) (b : list Z) : list Z := take o bs ++ b ++ drop (o + length b) bs.

Class HostOk (E : Type) `{Host E} := {
  hv : E -> hview;
  ho_inv : E -> Prop;
  ho_malloc len e : ho_inv e -> 0 <= len -> exists a bs e', h_malloc len e = Ok (a, bs) e' /\ ho_inv e' /\
    (a = NIL /\ hv_plenty (hv e) = false /\ hv e' = hv e \/
     a <> NIL /\ a ∉ hv_used (hv e) /\ Z.of_nat (length bs) = len /\ Forall is_byte bs /\
       hv e' = hv_set_used ({[a]} ∪ hv_used (hv e)) (hv e));
  ho_free a e : ho_inv e -> a ∈ hv_used (hv e) ->
    exists e', h_free a e = Ok tt e' /\ ho_inv e' /\ hv e' = hv_set_used (hv_used (hv e) ∖ {[a]}) (hv e);
  ho_send bs e : ho_inv e -> exists e', h_send_pkt bs e = Ok tt e' /\ ho_inv e' /\ hv e' = hv_send bs (hv e);
  ho_reply eid pid rp e : ho_inv e ->
    exists e', h_reply eid pid rp e = Ok tt e' /\ ho_inv e' /\ hv e' = hv_say (eid, pid, rp, None) (hv e);
  ho_reply_cap eid pid rp cap e : ho_inv e ->
    exists e', h_reply_cap eid pid rp cap e = Ok tt e' /\ ho_inv e' /\ hv e' = hv_say (eid, pid, rp, Some cap) (hv e);
  ho_map cap bs e : ho_inv e -> hv_frames (hv e) !! cap = Some bs -> exists va e', h_map cap e = Ok va e' /\ ho_inv e' /\
    (va = NIL /\ hv_plenty (hv e) = false /\ hv e' = hv e \/
     va <> NIL /\ hv_maps (hv e) !! va = None /\ hv e' = hv_map va cap (hv e));
  ho_unmap cap va e : ho_inv e -> hv_maps (hv e) !! va = Some cap ->
    exists r e', h_unmap cap va e = Ok r e' /\ ho_inv e' /\ hv e' = hv_unmap va (hv e);
  ho_read cap va bs len e : ho_inv e -> hv_maps (hv e) !! va = Some cap -> hv_frames (hv e) !! cap = Some bs ->
    0 <= len <= Z.of_nat (length bs) -> exists e', h_read va len e = Ok (take (Z.to_nat len) bs) e' /\ ho_inv e' /\ hv e' = hv e;
  ho_write cap va o bs b e : ho_inv e -> hv_maps (hv e) !! va = Some cap -> hv_frames (hv e) !! cap = Some bs ->
    0 <= o -> o + Z.of_nat (length b) <= Z.of_nat (length bs) ->
    exists e', h_write va o b e = Ok tt e' /\ ho_inv e' /\ hv e' = hv_write cap (overwrite bs (Z.to_nat o) b) (hv e)
}.

(** ** A process
    Blocks and places of frames are numbered from 1 on and are never given out twice. *)
Record sim_host := mk_sim { sh_next : Z; sh_view : hview }.

Definition sim_do (f : hview -> hview) : M sim_host unit := modify (fun e => mk_sim (sh_next e) (f (sh_view e))).
Definition sim_take : M sim_host Z := fun e => Ok (sh_next e) (mk_sim (sh_next e + 1) (sh_view e)).
Definition sim_malloc (len : Z) : M sim_host (Z * list Z) :=
  let* e := get in
  if hv_plenty (sh_view e) then
    let* a := sim_take in
    sim_do (fun v => hv_set_used ({[a]} ∪ hv_used v) v) ;;;
    ret (a, replicate (Z.to_nat len) 0)
  else ret (NIL, []).
Definition sim_free (a : Z) : M sim_host unit :=
  let* e := get in
  if bool_decide (a ∈ hv_used (sh_view e)) then sim_do (fun v => hv_set_used (hv_used v ∖ {[a]}) v) else fail FNil.
Definition sim_map (cap : Z) : M sim_host Z :=
  let* e := get in
  if hv_plenty (sh_view e) then let* va := sim_take in sim_do (hv_map va cap) ;;; ret va
  else ret NIL.
Definition sim_frame (va : Z) : M sim_host (Z * list Z) :=
  read FBounds (fun e => cap ← hv_maps (sh_view e) !! va; bs ← hv_frames (sh_view e) !! cap; Some (cap, bs)).
Definition sim_read (va len : Z) : M sim_host (list Z) :=
  let* (_, bs) := sim_frame va in
  if len <=? Z.of_nat (length bs) then ret (take (Z.to_nat len) bs) else fail FBounds.
Definition sim_write (va o : Z) (b : list Z) : M sim_host unit :=
  let* (cap, bs) := sim_frame va in
  if (0 <=? o) && (o + Z.of_nat (length b) <=? Z.of_nat (length bs)) then sim_do (hv_write cap (overwrite bs (Z.to_nat o) b)) else fail FBounds.
#[export] Instance sim_host_ops : Host sim_host := {
  h_malloc := sim_malloc;
  h_free := sim_free;
  h_send_pkt bs := sim_do (hv_send bs);
  h_reply eid pid rp := sim_do (hv_say (eid, pid, rp, None));
  h_reply_cap eid pid rp cap := sim_do (hv_say (eid, pid, rp, Some cap));
  h_map := sim_map;
  h_unmap cap va := sim_do (hv_unmap va) ;;; ret OK;
  h_read := sim_read;
  h_write := sim_write
}.

(** Numbers that are in use are below the next one. *)
Definition sim_inv (e : sim_host) : Prop :=
  0 < sh_next e /\ (forall a, a ∈ hv_used (sh_view e) -> a < sh_next e) /\
  (forall va cap, hv_maps (sh_view e) !! va = Some cap -> va < sh_next e).

#[export] Instance sim_host_ok : HostOk sim_host.
Proof.
  refine {| hv := sh_view; ho_inv := sim_inv |}.
  - intros len [x v] (H1 & H2 & H3) Hl. cbn in *. unfold sim_malloc, bind, get. cbn [sh_view].
    destruct (hv_plenty v) eqn:Hp; cbn; do 3 eexists; (split; [reflexivity|]).
    + split; [split_and!; cbn; [lia|intros a [->%elem_of_singleton|?%H2]%elem_of_union; lia|intros va cap ?%H3; lia]|].
      right. rewrite length_replicate. split_and!; [unfold NIL; lia|intros ?%H2; lia|lia|by apply Forall_replicate|done].
    + split; [done|]. by left.
  - intros a [x v] (H1 & H2 & H3) Ha. cbn in *. unfold sim_free, bind, get. cbn [sh_view].
    rewrite bool_decide_true by done. eexists. split; [reflexivity|]. split; [|done]. split_and!; cbn; [lia|set_solver|done].
  - intros bs [x v] Hi. eexists. by split.
  - intros eid pid rp [x v] Hi. eexists. by split.
  - intros eid pid rp cap [x v] Hi. eexists. by split.
  - intros cap bs [x v] (H1 & H2 & H3) Hf. cbn in *. unfold sim_map, bind, get. cbn [sh_view].
    destruct (hv_plenty v) eqn:Hp; cbn; do 2 eexists; (split; [reflexivity|]).
    + split; [split_and!; cbn; [lia|intros a ?%H2; lia|]|].
      * intros va c. rewrite lookup_insert_Some. intros [[<- _]|[_ ?%H3]]; lia.
      * right. split_and!; [unfold NIL; lia| |done]. destruct (hv_maps v !! x) eqn:Hm; [|done]. apply H3 in Hm. lia.
    + split; [done|]. by left.
  - intros cap va [x v] (H1 & H2 & H3) Hm. exists OK, (mk_sim x (hv_unmap va v)). cbn in *. split; [reflexivity|]. split; [|done]. split_and!; cbn; [lia|done|].
    intros va' c. rewrite lookup_delete_Some. intros [_ ?]. by eapply H3.
  - intros cap va bs len [x v] Hi Hm Hf Hl. cbn in *. exists (mk_sim x v). split; [|done]. unfold sim_read, sim_frame, bind, read. cbn.
    rewrite Hm. cbn. rewrite Hf. cbn. by rewrite (proj2 (Z.leb_le _ _)) by lia.
  - intros cap va o bs b [x v] Hi Hm Hf Ho Hl. cbn in *. exists (mk_sim x (hv_write cap (overwrite bs (Z.to_nat o) b) v)).
    split; [|done]. unfold sim_write, sim_frame, bind, read. cbn. rewrite Hm. cbn. rewrite Hf. cbn.
    by rewrite (proj2 (Z.leb_le 0 o)), (proj2 (Z.leb_le _ _)) by lia.
Defined.
