(* ===== verification/NetSum.v ===== *)
(** * The network stack: checksums

    The checksum of lib/net/ip.c is the complement of the one's complement sum of the
    words, and bytes that hold their own checksum have the checksum 0. *)
From S2P Require Import Prelude Bytes Net NetIp.

Local Open Scope Z_scope.
Local Open Scope c_scope.

(** The sum of the 16-bit words, a last odd byte being the upper half of one. *)
Fixpoint word_sum (h : list Z) : Z :=
  match h with
  | [] => 0
  | [a] => a * 256
  | a :: b :: h => a * 256 + b + word_sum h
  end.
(** Addition with the carry added in again: 0 is the sum of zeros only. *)
Definition ones_sum (s : Z) : Z := if s =? 0 then 0 else (s - 1) mod 0xffff + 1.
Definition inet_csum (h : list Z) : Z := 0xffff - ones_sum (word_sum h).

Lemma list_ind2 {A} (P : list A -> Prop) : P [] -> (forall a, P [a]) -> (forall a b l, P l -> P (a :: b :: l)) -> forall l, P l.
Proof.
  intros H0 H1 H2 l. enough (P l /\ forall a, P (a :: l)) by tauto. induction l as [|b l [IH1 IH2]]; auto.
Qed.

Lemma word_sum_bound h : Forall is_byte h -> 0 <= word_sum h <= Z.of_nat (length h) * 0xffff.
Proof.
  induction h as [|a|a b h IH] using list_ind2; intros Hb; cbn [word_sum length]; [lia|..];
    apply Forall_cons in Hb as [Ha Hb]; unfold is_byte in Ha; [lia|].
  apply Forall_cons in Hb as [Hb Hh]. unfold is_byte in Hb. specialize (IH Hh). lia.
Qed.

Lemma csum_ip_continue_eq h sum : Forall is_byte h -> 0 <= sum -> sum + word_sum h < 2 ^ 32 -> csum_ip_continue h sum = sum + word_sum h.
Proof.
  revert sum. induction h as [|a|a b h IH] using list_ind2; intros sum Hb Hs Hl; cbn [csum_ip_continue word_sum] in *.
  - lia.
  - rewrite Z.shiftl_mul_pow2 by lia. change (2 ^ 8) with 256. apply Forall_cons in Hb as [Ha _]. unfold is_byte in Ha. rewrite u32_small; lia.
  - apply Forall_cons in Hb as [Ha [Hb Hh]%Forall_cons]. pose proof (word_sum_bound _ Hh). unfold is_byte in Ha.
    rewrite beto16_eq by done. unfold is_byte in Hb. rewrite u32_small by lia. rewrite IH by (done || lia). lia.
Qed.

Lemma fold_eq s : Z.land s 0xffff + Z.shiftr s 16 = s mod 65536 + s / 65536.
Proof. change 0xffff with (Z.ones 16). rewrite Z.land_ones, Z.shiftr_div_pow2 by lia. done. Qed.

(** Folding keeps the sum; two rounds are enough for 32 bits. *)
Lemma ones_sum_fold s : 0 <= s -> ones_sum (s mod 65536 + s / 65536) = ones_sum s.
Proof.
  intros Hs. unfold ones_sum. pose proof (Z.div_mod s 65536). pose proof (Z.mod_pos_bound s 65536).
  pose proof (Z.div_pos s 65536). destruct (Z.eqb_spec s 0) as [->|]; [done|].
  rewrite (proj2 (Z.eqb_neq _ _)) by lia. f_equal.
  replace (s - 1) with (s mod 65536 + s / 65536 - 1 + s / 65536 * 65535) by lia. by rewrite Z.mod_add by lia.
Qed.
Lemma ones_sum_small s : 0 <= s <= 0xffff -> ones_sum s = s.
Proof. intros Hs. unfold ones_sum. destruct (Z.eqb_spec s 0); [lia|]. rewrite Z.mod_small; lia. Qed.
Lemma ones_sum_bound s : 0 <= s -> 0 <= ones_sum s <= 0xffff.
Proof. intros Hs. unfold ones_sum. case_match; [lia|]. pose proof (Z.mod_pos_bound (s - 1) 0xffff). lia. Qed.

Lemma csum_fold_run {St} (st : St) s : 0 <= s < 2 ^ 32 -> csum_fold 3 s st = Ok (ones_sum s) st.
Proof.
  intros Hs. cbn [csum_fold]. rewrite fold_eq. set (s1 := s mod 65536 + s / 65536).
  assert (H1 : 0 <= s1 <= 0x1fffe) by (unfold s1; Z.div_mod_to_equations; lia).
  assert (E1 : ones_sum s1 = ones_sum s) by (apply ones_sum_fold; lia).
  destruct (Z.ltb_spec 0xffff s); [|by rewrite ones_sum_small by lia].
  destruct (Z.ltb_spec 0xffff s1); [|by rewrite <-E1, (ones_sum_small s1) by lia].
  rewrite fold_eq. set (s2 := s1 mod 65536 + s1 / 65536).
  assert (H2 : 0 <= s2 <= 0xffff) by (unfold s2; Z.div_mod_to_equations; lia).
  assert (E2 : ones_sum s2 = ones_sum s1) by (apply ones_sum_fold; lia).
  rewrite (proj2 (Z.ltb_ge 0xffff s2)) by lia. by rewrite <-E1, <-E2, ones_sum_small by lia.
Qed.
Lemma csum_ip_finish_run {St} (st : St) s : 0 <= s < 2 ^ 32 -> csum_ip_finish s st = Ok (0xffff - ones_sum s) st.
Proof.
  intros Hs. unfold csum_ip_finish, bind. rewrite csum_fold_run by done. unfold ret. f_equal.
  pose proof (ones_sum_bound s). set (o := ones_sum s) in *. change 0xffff with (Z.ones 16) at 1. rewrite Z.land_ones by lia.
  unfold u32. replace (Z.lnot o) with (- o - 1) by (unfold Z.lnot; lia).
  replace ((- o - 1) mod 2 ^ 32) with (2 ^ 32 - 1 - o) by (apply Z.mod_unique with (-1); lia).
  symmetry. apply Z.mod_unique with 65535; lia.
Qed.

Lemma inet_csum_bound h : Forall is_byte h -> 0 <= inet_csum h <= 0xffff.
Proof. intros Hh. pose proof (word_sum_bound _ Hh). pose proof (ones_sum_bound (word_sum h)). unfold inet_csum. lia. Qed.

Lemma csum_ip_run {St} (st : St) h : Forall is_byte h -> Z.of_nat (length h) <= 0xffff -> csum_ip h st = Ok (inet_csum h) st.
Proof.
  intros Hh Hl. pose proof (word_sum_bound _ Hh). assert (word_sum h < 2 ^ 32) by lia.
  unfold csum_ip. rewrite csum_ip_continue_eq by (done || lia). by rewrite csum_ip_finish_run by lia.
Qed.

(** A number added to bytes that have room for it, at an even place. *)
Lemma word_sum_app h1 h2 : Nat.Even (length h1) -> word_sum (h1 ++ h2) = word_sum h1 + word_sum h2.
Proof.
  induction h1 as [|a|a b h IH] using list_ind2; intros [k Hk]; cbn [word_sum app length] in *; [done|lia|].
  rewrite IH; [lia|]. exists (k - 1)%nat. lia.
Qed.
Lemma word_sum_be16 x h : 0 <= x < 2 ^ 16 -> word_sum (be16 x ++ h) = x + word_sum h.
Proof. intros Hx. rewrite be16_eq. cbn [word_sum app]. rewrite (Z.mod_small (x / 256)); Z.div_mod_to_equations; lia. Qed.

(** The checksum of bytes that hold their own checksum. *)
Lemma inet_csum_self h1 h2 : Nat.Even (length h1) -> Forall is_byte h1 -> Forall is_byte h2 ->
  inet_csum (h1 ++ be16 (inet_csum (h1 ++ [0; 0] ++ h2)) ++ h2) = 0.
Proof.
  intros He H1 H2. set (c := inet_csum (h1 ++ [0; 0] ++ h2)).
  assert (Hc : 0 <= c <= 0xffff) by (apply inet_csum_bound; rewrite !Forall_app; by repeat constructor).
  unfold inet_csum at 1. rewrite word_sum_app, word_sum_be16 by (done || lia).
  assert (Hd : c = 0xffff - ones_sum (word_sum h1 + word_sum h2)) by (unfold c, inet_csum; by rewrite word_sum_app).
  pose proof (word_sum_bound _ H1). pose proof (word_sum_bound _ H2). set (s := word_sum h1 + word_sum h2) in *.
  replace (word_sum h1 + (c + word_sum h2)) with (s + c) by (unfold s; lia).
  enough (ones_sum (s + c) = 0xffff) by lia. rewrite Hd. unfold ones_sum. destruct (Z.eqb_spec s 0) as [->|]; [done|].
  pose proof (Z.mod_pos_bound (s - 1) 0xffff). rewrite (proj2 (Z.eqb_neq _ _)) by lia.
  pose proof (Z.div_mod (s - 1) 0xffff). set (q := (s - 1) / 0xffff) in *.
  replace (s + (0xffff - ((s - 1) mod 0xffff + 1)) - 1) with (65534 + q * 0xffff) by lia.
  rewrite Z.mod_add by lia. done.
Qed.
