(* ===== verification/NetSend.v ===== *)
(** * The network stack: packets that are built

    The bytes of an internet packet ([ipv4_pkt]) and of a datagram ([udp_pkt]), and that
    create_ipv4_pkt and send_udp_pkt build them. *)
From S2P Require Import Prelude Bytes Net NetIp NetUdp NetHost NetSum.

Local Open Scope Z_scope.
Local Open Scope c_scope.

(** ** Running on the process *)
Abbreviation netv n := (hv (nd_env n)).
Abbreviation net_inv n := (ho_inv (nd_env n)).

Section host.
Context {E : Type} `{HostOk E}.
Implicit Types (n : net_dev E).

Lemma nd_env_set e n : nd_env (set_nd_env e n) = e.
Proof. by destruct n. Qed.
Lemma set_nd_env_env e e' n : set_nd_env e' (set_nd_env e n) = set_nd_env e' n.
Proof. by destruct n. Qed.
Lemma set_nd_env_id n : set_nd_env (nd_env n) n = n.
Proof. by destruct n. Qed.

Lemma on_host_run {A} (m : M E A) n a e' : m (nd_env n) = Ok a e' -> on_host m n = Ok a (set_nd_env e' n).
Proof. unfold on_host, zoom. by intros ->. Qed.

(** Memory that is new: its address and what the process is then. *)
Definition fresh_block (e : E) (len a : Z) (bs : list Z) (e' : E) : Prop :=
  a <> NIL /\ a ∉ hv_used (hv e) /\ Z.of_nat (length bs) = len /\ Forall is_byte bs /\ ho_inv e' /\
  hv e' = hv_set_used ({[a]} ∪ hv_used (hv e)) (hv e).
Definition refused (e e' : E) : Prop := hv_plenty (hv e) = false /\ ho_inv e' /\ hv e' = hv e.

Lemma wp_malloc n len (Q : Z * list Z -> net_dev E -> Prop) : net_inv n -> 0 <= len ->
  (forall bs e', refused (nd_env n) e' -> Q (NIL, bs) (set_nd_env e' n)) ->
  (forall a bs e', fresh_block (nd_env n) len a bs e' -> Q (a, bs) (set_nd_env e' n)) -> wp (n_malloc len) n Q.
Proof.
  intros Hi Hl Hr Hf. destruct (ho_malloc len (nd_env n) Hi Hl) as (a & bs & e' & Hrun & Hi' & Hc).
  eapply wpe_ok; [by apply on_host_run|]. destruct Hc as [(-> & Hp & Hv)|(Ha & Hu & Hlen & Hb & Hv)]; [by apply Hr|by apply Hf].
Qed.
Lemma wp_alloc n len (Q : Z -> net_dev E -> Prop) : net_inv n -> 0 <= len ->
  (forall e', refused (nd_env n) e' -> Q NIL (set_nd_env e' n)) ->
  (forall a bs e', fresh_block (nd_env n) len a bs e' -> Q a (set_nd_env e' n)) -> wp (alloc len) n Q.
Proof.
  intros Hi Hl Hr Hf. unfold alloc. apply wpe_bind. apply wp_malloc; [done|done|..]; intros; apply wpe_ret; eauto.
Qed.
Lemma wp_free n a (Q : unit -> net_dev E -> Prop) : net_inv n -> a ∈ hv_used (netv n) ->
  (forall e', ho_inv e' -> hv e' = hv_set_used (hv_used (netv n) ∖ {[a]}) (netv n) -> Q tt (set_nd_env e' n)) -> wp (n_free a) n Q.
Proof.
  intros Hi Ha HQ. destruct (ho_free a (nd_env n) Hi Ha) as (e' & Hrun & Hi' & Hv). eapply wpe_ok; [by apply on_host_run|]. by apply HQ.
Qed.
Lemma wp_reply_cap n eid pid rp cap (Q : unit -> net_dev E -> Prop) : net_inv n ->
  (forall e', ho_inv e' -> hv e' = hv_say (eid, pid, rp, Some cap) (netv n) -> Q tt (set_nd_env e' n)) -> wp (n_reply_cap eid pid rp cap) n Q.
Proof.
  intros Hi HQ. destruct (ho_reply_cap eid pid rp cap (nd_env n) Hi) as (e' & Hrun & Hi' & Hv). eapply wpe_ok; [by apply on_host_run|]. by apply HQ.
Qed.
Lemma wp_read_mem n cap va bs len (Q : list Z -> net_dev E -> Prop) : net_inv n -> hv_maps (netv n) !! va = Some cap ->
  hv_frames (netv n) !! cap = Some bs -> 0 <= len <= Z.of_nat (length bs) ->
  (forall e', ho_inv e' -> hv e' = netv n -> Q (take (Z.to_nat len) bs) (set_nd_env e' n)) -> wp (read_mem va len) n Q.
Proof.
  intros Hi Hm Hf Hl HQ. destruct (ho_read cap va bs len (nd_env n) Hi Hm Hf Hl) as (e' & Hrun & Hi' & Hv). eapply wpe_ok; [by apply on_host_run|]. by apply HQ.
Qed.

(** ** Buffers *)
Lemma splice_run n buf i bs : 0 <= i -> i + Z.of_nat (length bs) <= Z.of_nat (length buf) ->
  splice buf i bs n = Ok (overwrite buf (Z.to_nat i) bs) n.
Proof. intros H1 H2. unfold splice. by rewrite (proj2 (Z.leb_le 0 i)), (proj2 (Z.leb_le _ _)) by lia. Qed.
Lemma slice_run n buf i len : 0 <= i -> 0 <= len -> i + len <= Z.of_nat (length buf) ->
  sub_bytes buf i len n = Ok (take (Z.to_nat len) (drop (Z.to_nat i) buf)) n.
Proof.
  intros H1 H2 H3. unfold sub_bytes. by rewrite (proj2 (Z.leb_le 0 i)), (proj2 (Z.leb_le 0 len)), (proj2 (Z.leb_le _ _)) by lia.
Qed.
Lemma overwrite_app (a o b : list Z) (bs : list Z) : length o = length bs -> overwrite (a ++ o ++ b) (length a) bs = a ++ bs ++ b.
Proof.
  intros Hl. unfold overwrite. rewrite take_app_length. do 2 f_equal.
  rewrite <-drop_drop, drop_app_length. rewrite <-Hl. apply drop_app_length.
Qed.
Lemma take_length_app (a b : list Z) k : length a = k -> take k (a ++ b) = a.
Proof. intros <-. apply take_app_length. Qed.
Lemma cut_bytes (k : nat) (l : list Z) : (k <= length l)%nat -> exists l1 l2, l = l1 ++ l2 /\ length l1 = k.
Proof. intros. exists (take k l), (drop k l). rewrite take_drop. split; [done|]. rewrite length_take. lia. Qed.
End host.

(** ** Internet packets *)
Definition ipv4_hdr (dscp len ident proto csum : Z) (src dst : list Z) : list Z :=
  [0x45; dscp] ++ be16 len ++ be16 ident ++ [0; 0; 0xff; proto] ++ be16 csum ++ src ++ dst.
Definition ipv4_csum (dscp len ident proto : Z) (src dst : list Z) : Z := inet_csum (ipv4_hdr dscp len ident proto 0 src dst).
Definition eth_bytes (dst_mac src_mac : list Z) (type : Z) : list Z := dst_mac ++ src_mac ++ be16 type.
(** A packet with [body] in it. *)
Definition ipv4_pkt (dst_mac src_mac : list Z) (dscp ident proto : Z) (src dst body : list Z) : list Z :=
  let len := 20 + Z.of_nat (length body) in
  eth_bytes dst_mac src_mac 0x0800 ++ ipv4_hdr dscp len ident proto (ipv4_csum dscp len ident proto src dst) src dst ++ body.
Definition udp_hdr (src_port dst_port len : Z) : list Z := be16 src_port ++ be16 dst_port ++ be16 len ++ [0; 0].

Definition mac_ok (m : list Z) : Prop := length m = 6%nat /\ Forall is_byte m.
Definition ip_ok (a : list Z) : Prop := length a = 4%nat /\ Forall is_byte a.

Lemma ipv4_hdr_length dscp len ident proto csum src dst : ip_ok src -> ip_ok dst -> length (ipv4_hdr dscp len ident proto csum src dst) = 20%nat.
Proof. intros [Hs _] [Hd _]. unfold ipv4_hdr. rewrite !length_app, Hs, Hd. done. Qed.
Lemma ipv4_hdr_bytes dscp len ident proto csum src dst : is_byte dscp -> is_byte proto -> ip_ok src -> ip_ok dst ->
  Forall is_byte (ipv4_hdr dscp len ident proto csum src dst).
Proof.
  intros. unfold ipv4_hdr, ip_ok in *. rewrite !Forall_app. split_and!; try apply be16_bytes; try tauto;
    rewrite !Forall_cons; split_and!; try apply Forall_nil; unfold is_byte in *; lia || done.
Qed.

(** A header with its checksum in it sums up to ones only. *)
Lemma ipv4_hdr_sum dscp len ident proto src dst : is_byte dscp -> is_byte proto -> ip_ok src -> ip_ok dst ->
  ones_sum (word_sum (ipv4_hdr dscp len ident proto (ipv4_csum dscp len ident proto src dst) src dst)) = 0xffff.
Proof.
  intros Hds Hp Hs Hd. set (h1 := [0x45; dscp] ++ be16 len ++ be16 ident ++ [0; 0; 0xff; proto]).
  assert (E1 : forall c, ipv4_hdr dscp len ident proto c src dst = h1 ++ be16 c ++ (src ++ dst)) by (intros c; unfold ipv4_hdr, h1; by rewrite <-!app_assoc).
  unfold ipv4_csum. rewrite !E1. enough (inet_csum (h1 ++ be16 (inet_csum (h1 ++ [0; 0] ++ src ++ dst)) ++ src ++ dst) = 0) as Hc.
  { unfold inet_csum at 1 in Hc. change (be16 0) with [0; 0]. lia. }
  apply (inet_csum_self h1 (src ++ dst)).
  - by exists 5%nat.
  - unfold h1. rewrite !Forall_app. split_and!; try apply be16_bytes; rewrite !Forall_cons; split_and!; try apply Forall_nil; unfold is_byte in *; lia || done.
  - apply Forall_app. split; [apply Hs|apply Hd].
Qed.

Section build.
Context {E : Type} `{HostOk E}.
Implicit Types (n : net_dev E).

(** A device whose own addresses are addresses. *)
Definition dev_ok n : Prop := mac_ok (nd_mac n) /\ ip_ok (nd_ipv4 n) /\ net_inv n.

(** The buffer for [len] bytes after the ethernet header: 14 bytes more than is sent. *)
Lemma wp_create_eth_pkt n dst_mac type len (Q : option (Z * list Z) -> net_dev E -> Prop) :
  dev_ok n -> length dst_mac = 6%nat -> 0 <= len -> len + 28 < 2 ^ 32 ->
  (forall e', refused (nd_env n) e' -> Q None (set_nd_env e' n)) ->
  (forall pkt g e', Z.of_nat (length g) = len + 14 -> Forall is_byte g ->
    pkt <> NIL -> pkt ∉ hv_used (netv n) -> ho_inv e' -> hv e' = hv_set_used ({[pkt]} ∪ hv_used (netv n)) (netv n) ->
    Q (Some (pkt, eth_bytes dst_mac (nd_mac n) type ++ g)) (set_nd_env e' n)) ->
  wp (create_eth_pkt dst_mac type len) n Q.
Proof.
  intros ((Hm & Hmb) & _ & Hi) Hd Hl Hmax Hr Hf. unfold create_eth_pkt, sizeof_eth_hdr. cbv zeta.
  rewrite (u32_small (14 + len)), u32_small by lia. apply wpe_bind. apply wp_malloc; [done|lia|..].
  { intros bs e' Hre. cbn. by apply Hr. }
  intros pkt bs e' (Hp & Hu & Hlen & Hb & Hi' & Hv). cbn [fst snd]. rewrite (proj2 (Z.eqb_neq _ _)) by done.
  apply wpe_bind, wpe_get. replace (nd_mac (set_nd_env e' n)) with (nd_mac n) by by destruct n.
  destruct (cut_bytes 14 bs) as (l & g & -> & Hl14); [lia|]. destruct (cut_bytes 6 l) as (l1 & l2 & -> & H1); [lia|].
  rewrite length_app in Hl14. destruct (cut_bytes 6 l2) as (l3 & l4 & -> & H2); [lia|]. rewrite !length_app in Hl14, Hlen.
  apply wpe_bind. eapply wpe_ok; [apply splice_run; [lia|rewrite !length_app; lia]|]. cbn beta.
  replace (overwrite _ _ _) with (l1 ++ nd_mac n ++ l4 ++ g).
  2: { symmetry. change (Z.to_nat 6) with 6%nat. rewrite <-H1, <-!app_assoc. apply overwrite_app. lia. }
  apply wpe_bind. eapply wpe_ok; [apply splice_run; [lia|rewrite !length_app; lia]|]. cbn beta.
  replace (overwrite _ _ _) with (dst_mac ++ nd_mac n ++ l4 ++ g).
  2: { symmetry. apply (overwrite_app [] l1). lia. }
  apply wpe_bind. eapply wpe_ok; [apply splice_run; [lia|rewrite !length_app; cbn; lia]|]. cbn beta.
  replace (overwrite _ _ _) with (eth_bytes dst_mac (nd_mac n) type ++ g).
  2: { symmetry. unfold eth_bytes. change (Z.to_nat 12) with 12%nat. rewrite !app_assoc, <-app_assoc.
       replace 12%nat with (length (dst_mac ++ nd_mac n)) by (rewrite length_app; lia).
       rewrite overwrite_app; [by rewrite <-!app_assoc|]. cbn. lia. }
  apply wpe_ret. apply Forall_app in Hb as [_ Hg]. rewrite !length_app in Hlen. apply Hf; [lia|done..].
Qed.
End build.

(** Writing [k] bytes after a header that stays. *)
Lemma splice_hdr {E} (n : net_dev E) hd buf i (k : nat) bs : i = Z.of_nat (length hd) + Z.of_nat k ->
  (k + length bs <= length buf)%nat -> splice (hd ++ buf) i bs n = Ok (hd ++ overwrite buf k bs) n.
Proof.
  intros -> Hk. rewrite splice_run by (rewrite ?length_app; lia). do 2 f_equal.
  replace (Z.to_nat _) with (length hd + k)%nat by lia.
  unfold overwrite. rewrite take_app_add, <-app_assoc. do 3 f_equal. rewrite <-Nat.add_assoc. by rewrite drop_app_add.
Qed.
Lemma slice_hdr {E} (n : net_dev E) hd buf i (k len : nat) zl : i = Z.of_nat (length hd) + Z.of_nat k -> zl = Z.of_nat len ->
  (k + len <= length buf)%nat -> sub_bytes (hd ++ buf) i zl n = Ok (take len (drop k buf)) n.
Proof.
  intros -> -> Hk. rewrite slice_run by (rewrite ?length_app; lia). rewrite Nat2Z.id. do 2 f_equal.
  replace (Z.to_nat _) with (length hd + k)%nat by lia. by rewrite drop_app_add.
Qed.

(** Fields that are written into a buffer whose first bytes are known one by one. *)
Ltac fill k :=
  apply wpe_bind; eapply wpe_ok; [apply (splice_hdr _ _ _ _ k); [lia|cbn; lia]|]; cbn beta; unfold overwrite;
  cbn [take drop app length Nat.add]; rewrite ?take_0, ?drop_0.

Section ipv4.
Context {E : Type} `{HostOk E}.
Implicit Types (n : net_dev E).

Lemma eth_bytes_length d s t : length d = 6%nat -> length s = 6%nat -> length (eth_bytes d s t) = 14%nat.
Proof. intros Hd Hs. unfold eth_bytes. rewrite !length_app, Hd, Hs. done. Qed.

(** The header of internet packets: its 20 bytes are written one field after the other
    and the checksum is of all of them. *)
Lemma wp_create_ipv4_pkt n dst_mac dst proto len (Q : option (Z * list Z) -> net_dev E -> Prop) :
  dev_ok n -> length dst_mac = 6%nat -> ip_ok dst -> is_byte proto -> 0 <= len -> len + 48 < 2 ^ 32 ->
  (forall e', refused (nd_env n) e' -> Q None (set_nd_env e' n)) ->
  (forall pkt dscp g e', is_byte dscp -> Z.of_nat (length g) = len + 14 -> Forall is_byte g ->
    pkt <> NIL -> pkt ∉ hv_used (netv n) -> ho_inv e' -> hv e' = hv_set_used ({[pkt]} ∪ hv_used (netv n)) (netv n) ->
    let id := nd_ipv4_ident n in
    Q (Some (pkt, eth_bytes dst_mac (nd_mac n) 0x0800 ++
         ipv4_hdr dscp (20 + len) id proto (ipv4_csum dscp (20 + len) id proto (nd_ipv4 n) dst) (nd_ipv4 n) dst ++ g))
      (set_nd_ipv4_ident (u16 (id + 1)) (set_nd_env e' n))) ->
  wp (create_ipv4_pkt dst_mac dst 20 proto len) n Q.
Proof.
  intros Hdev Hm Hd Hpr Hl Hmax Hr Hf. unfold create_ipv4_pkt. cbv zeta. rewrite u32_small by lia. apply wpe_bind.
  apply wp_create_eth_pkt; [done|done|lia|lia|..]; [intros e' Hre; by apply wpe_ret, Hr|].
  intros pkt g e' Hg Hgb Hp Hu Hi' Hv. destruct Hdev as ((Hnm & _) & Hni & _).
  pose proof (eth_bytes_length dst_mac (nd_mac n) 0x0800 Hm Hnm) as He.
  destruct (cut_bytes 20 g) as (h & g' & -> & Hh); [lia|]. rewrite length_app in Hg. apply Forall_app in Hgb as [Hhb Hgb'].
  do 20 (destruct h as [|? h]; [done|]). destruct h; [|done]. clear Hh.
  pose proof Hd as (Hdl & Hdb). pose proof Hni as (Hnl & Hnb).
  destruct dst as [|d0 [|d1 [|d2 [|d3 [|]]]]]; try done.
  destruct (nd_ipv4 n) as [|i0 [|i1 [|i2 [|i3 [|]]]]] eqn:Hnip; try done.
  set (hd := eth_bytes dst_mac (nd_mac n) 0x0800) in *. specialize (Hf pkt z0 g' e'). cbv zeta in Hf.
  unfold be16. cbn [app]. fill 0%nat. fill 2%nat. apply wpe_bind, wpe_get.
  replace (nd_ipv4_ident (set_nd_env e' n)) with (nd_ipv4_ident n) by by destruct n.
  fill 4%nat. apply wpe_bind, wpe_modify. fill 6%nat. fill 8%nat. fill 16%nat.
  replace (nd_ipv4 (set_nd_env e' n)) with (nd_ipv4 n) by by destruct n. rewrite Hnip.
  fill 12%nat. fill 10%nat. apply wpe_bind. eapply wpe_ok; [apply (slice_hdr _ _ _ _ 0 20); [lia|done|cbn; lia]|].
  cbn [take drop app]. rewrite ?take_0, ?drop_0. assert (Hz0 : is_byte z0) by (by do 2 apply Forall_cons in Hhb as [? Hhb]).
  apply wpe_bind. eapply wpe_ok; [apply csum_ip_run; [apply (ipv4_hdr_bytes z0 (20 + len) (nd_ipv4_ident n) proto 0 [i0; i1; i2; i3] [d0; d1; d2; d3]);
    [done..]|cbn; lia]|].
  cbn beta. fill 10%nat. apply wpe_ret. specialize (Hf Hz0 ltac:(cbn in Hg; lia) Hgb' Hp Hu Hi' Hv).
  replace (nd_ipv4_ident (set_nd_env e' n)) with (nd_ipv4_ident n) by by destruct n. exact Hf.
Qed.
End ipv4.

(** ** Datagrams *)
Definition udp_pkt (dst_mac src_mac : list Z) (dscp ident : Z) (src : list Z) (src_port : Z) (dst : list Z) (dst_port : Z) (data : list Z) : list Z :=
  ipv4_pkt dst_mac src_mac dscp ident IP_UDP src dst (udp_hdr src_port dst_port (8 + Z.of_nat (length data)) ++ data).

Section udp.
Context {E : Type} `{HostOk E}.
Implicit Types (n : net_dev E).

Lemma wp_send_eth_pkt n bs tail len (Q : unit -> net_dev E -> Prop) : net_inv n -> 0 <= len -> len + 14 < 2 ^ 32 ->
  Z.of_nat (length bs) = len + 14 ->
  (forall e', ho_inv e' -> hv e' = hv_send bs (netv n) -> Q tt (set_nd_env e' n)) -> wp (send_eth_pkt (bs ++ tail) len) n Q.
Proof.
  intros Hi Hl Hmax Hbs HQ. unfold send_eth_pkt, sizeof_eth_hdr. rewrite u32_small by lia. apply wpe_bind. 
  eapply wpe_ok; [apply slice_run; rewrite ?length_app; lia|]. cbn beta. rewrite drop_0, take_length_app by lia.
  destruct (ho_send bs (nd_env n) Hi) as (e' & Hrun & Hi' & Hv). eapply wpe_ok; [by apply on_host_run|]. by apply HQ.
Qed.

Lemma hv_used_back (v : hview) a : a ∉ hv_used v -> hv_set_used (({[a]} ∪ hv_used v) ∖ {[a]}) v = v.
Proof. intros Ha. replace (({[a]} ∪ hv_used v) ∖ {[a]}) with (hv_used v) by set_solver. by destruct v. Qed.

Lemma wp_send_udp_pkt n b x ip mac_rem addr_rem port_rem va cap bs len (Q : bool -> net_dev E -> Prop) :
  dev_ok n -> ns_binding n !! b = Some x -> ns_ip n !! bd_proto_arg x = Some ip ->
  length mac_rem = 6%nat -> ip_ok addr_rem -> hv_maps (netv n) !! va = Some cap -> hv_frames (netv n) !! cap = Some bs ->
  0 <= len <= Z.of_nat (length bs) -> len + 56 < 2 ^ 32 ->
  (forall e', refused (nd_env n) e' -> Q false (set_nd_env e' n)) ->
  (forall dscp e', is_byte dscp -> ho_inv e' ->
    hv e' = hv_send (udp_pkt mac_rem (nd_mac n) dscp (nd_ipv4_ident n) (nd_ipv4 n) (bi_port_loc ip) addr_rem port_rem (take (Z.to_nat len) bs)) (netv n) ->
    Q true (set_nd_ipv4_ident (u16 (nd_ipv4_ident n + 1)) (set_nd_env e' n))) ->
  wp (send_udp_pkt b mac_rem addr_rem port_rem va len) n Q.
Proof.
  intros Hdev Hb Hip Hm Ha Hva Hcap Hlen Hmax Hr Hs. unfold send_udp_pkt, sizeof_udp_hdr. cbv zeta.
  apply wpe_bind. eapply wpe_read; [exact Hb|]. rewrite u32_small by lia. apply wpe_bind.
  apply wp_create_ipv4_pkt; [done|done|done|by vm_compute|lia|lia|intros e' He; by apply wpe_ret, Hr|].
  intros pkt dscp g e' Hdscp Hg Hgb Hp Hu Hi' Hv id. set (n1 := set_nd_ipv4_ident _ _).
  assert (En1 : nd_env n1 = e') by (unfold n1; by destruct n).
  assert (Eip : ns_ip n1 = ns_ip n) by (unfold n1; by destruct n).
  assert (He1 : forall e2, set_nd_env e2 n1 = set_nd_ipv4_ident (u16 (id + 1)) (set_nd_env e2 n)) by (intros; unfold n1; by destruct n).
  destruct Hdev as ((Hnm & _) & Hni & _). 
  set (hd := eth_bytes mac_rem (nd_mac n) 2048 ++ ipv4_hdr dscp (20 + (8 + len)) id IP_UDP (ipv4_csum dscp (20 + (8 + len)) id IP_UDP (nd_ipv4 n) addr_rem) (nd_ipv4 n) addr_rem).
  rewrite app_assoc. fold hd.
  assert (Hhd : length hd = 34%nat) by (unfold hd; rewrite length_app, eth_bytes_length, ipv4_hdr_length by done; done).
  apply wpe_bind. eapply wpe_read; [rewrite Eip; exact Hip|].
  destruct (cut_bytes 8 g) as (h & g2 & -> & Hh); [lia|]. rewrite length_app in Hg.
  do 8 (destruct h as [|? h]; [done|]). destruct h; [|done]. clear Hh. cbn [length] in Hg.
  destruct (cut_bytes (Z.to_nat len) g2) as (old & tail & -> & Hold); [lia|]. rewrite length_app in Hg.
  unfold be16. cbn [app]. fill 0%nat. fill 4%nat. fill 6%nat. apply wpe_bind. eapply wp_read_mem.
  1: by rewrite En1. 1: by rewrite En1, Hv. 1: by rewrite En1, Hv. 1: done.
  intros e2 Hi2 Hv2. rewrite En1 in Hv2. set (data := take (Z.to_nat len) bs).
  assert (Hdata : length data = Z.to_nat len) by (unfold data; rewrite length_take; lia).
  apply wpe_bind. eapply wpe_ok; [apply (splice_hdr _ _ _ _ 8); [lia|cbn; rewrite length_app; lia]|]. cbn beta.
  match goal with |- context [overwrite (?a0 :: ?a1 :: ?a2 :: ?a3 :: ?a4 :: ?a5 :: ?a6 :: ?a7 :: old ++ tail) 8 data] =>
    set (u := [a0; a1; a2; a3; a4; a5; a6; a7]);
    replace (overwrite _ 8 data) with (u ++ data ++ tail) by (symmetry; apply (overwrite_app u old); lia) end.
  assert (Hu8 : u = udp_hdr (bi_port_loc ip) port_rem (8 + len)) by done. clearbody u. subst u.
  apply wpe_bind. unfold send_ipv4_pkt. rewrite u32_small by lia.
  rewrite (app_assoc (udp_hdr _ _ _)), (app_assoc hd). apply wp_send_eth_pkt; [by rewrite nd_env_set|lia|lia|..].
  { rewrite !length_app, Hhd, Hdata. cbn. lia. }
  intros e3 Hi3 Hv3. rewrite nd_env_set in Hv3. rewrite set_nd_env_env. apply wpe_bind. apply wp_free.
  1: by rewrite nd_env_set. 1: rewrite nd_env_set, Hv3, Hv2, Hv; cbn; set_solver.
  intros e4 Hi4 Hv4. rewrite nd_env_set in Hv4. rewrite set_nd_env_env, He1. apply wpe_ret. apply (Hs dscp); [done|done|].
  rewrite Hv4, Hv3, Hv2, Hv. unfold hv_send, hv_set_used. cbn. f_equal; [set_solver|]. do 2 f_equal.
  unfold udp_pkt, ipv4_pkt. fold data. rewrite length_app, Hdata. replace (20 + Z.of_nat _) with (20 + (8 + len)) by (cbn; lia).
  replace (8 + Z.of_nat (Z.to_nat len)) with (8 + len) by lia. unfold hd. by rewrite <-!app_assoc.
Qed.
End udp.
