(* ===== verification/NetRecv.v ===== *)
(** * The network stack: datagrams that arrive

    A datagram that was built by [udp_pkt] and arrives at a device that has its
    addresses is put at the end of the queue of the binding for its port, and a read
    gives its bytes and where it is from. *)
From S2P Require Import Prelude Bytes SList Net NetIp NetUdp NetTcp NetDev NetHost NetSum NetSend.

Local Open Scope Z_scope.
Local Open Scope c_scope.

(** ** Lists of bindings and packets *)
Definition nxb {E} (n : net_dev E) (a : Z) : option Z := bd_next <$> ns_binding n !! a.
Definition nxp {E} (n : net_dev E) (a : Z) : option Z := ip_next <$> ns_pkt n !! a.


(** The bindings of a device, with what they are for. *)
Record bindings {E} (n : net_dev E) (l : list Z) : Prop := {
  bs_list : slist (nxb n) (ni_bindings n) l;
  bs_ip : forall a x, a ∈ l -> ns_binding n !! a = Some x -> exists ip, ns_ip n !! bd_proto_arg x = Some ip
}.
Definition bound {E} (n : net_dev E) (proto port a : Z) : bool :=
  match ns_binding n !! a with
  | Some x => match ns_ip n !! bd_proto_arg x with
    | Some ip => (proto =? bd_proto x) && (port =? bi_port_loc ip)
    | None => false
    end
  | None => false
  end.

Section find.
Context {E : Type}.
Implicit Types (n : net_dev E).

Lemma find_binding_ip_loop_run n proto port l fuel h : slist (nxb n) h l ->
  (forall a x, a ∈ l -> ns_binding n !! a = Some x -> exists ip, ns_ip n !! bd_proto_arg x = Some ip) -> (length l < fuel)%nat ->
  exists r, find_binding_ip_loop fuel h proto port n = Ok r n /\
    (r = NIL /\ (forall a, a ∈ l -> bound n proto port a = false) \/ r ∈ l /\ bound n proto port r = true).
Proof.
  revert fuel h. induction l as [|a l IH]; intros [|fuel] h Hl Hip Hf; cbn [length] in Hf; try lia; cbn [find_binding_ip_loop].
  - assert (h = NIL) as -> by exact Hl. exists NIL. split; [done|]. left. split; [done|set_solver].
  - destruct Hl as (-> & Hn & nx & Hnx & Hl). rewrite (proj2 (Z.eqb_neq _ _)) by done.
    unfold nxb in Hnx. destruct (ns_binding n !! a) as [x|] eqn:Hx; [|done]. injection Hnx as <-.
    destruct (Hip a x) as (ip & Hi); [set_solver|done|]. erewrite bind_ok by by apply read_ok.
    assert (Hrun : (if proto =? bd_proto x then let* ip := get_ip (bd_proto_arg x) in ret (port =? bi_port_loc ip) else ret false) n =
      Ok (bound n proto port a) n).
    { unfold bound. rewrite Hx, Hi. destruct (proto =? bd_proto x); [|done]. by erewrite bind_ok by by apply read_ok. }
    erewrite bind_ok by exact Hrun. destruct (bound n proto port a) eqn:Hb.
    + exists a. split; [done|]. right. split; [set_solver|done].
    + destruct (IH fuel (bd_next x)) as (r & Hr & Hc); [done|intros; eapply Hip; set_solver|lia|]. exists r. split; [done|].
      destruct Hc as [[-> Hc]|[Hc1 Hc2]]; [left|right; split; [set_solver|done]].
      split; [done|]. intros b [->|?]%elem_of_cons; auto.
Qed.
Lemma find_binding_ip_run n l proto port : bindings n l -> exists r, find_binding_ip proto port n = Ok r n /\
  (r = NIL /\ (forall a, a ∈ l -> bound n proto port a = false) \/ r ∈ l /\ bound n proto port r = true).
Proof.
  intros [Hl Hip]. unfold find_binding_ip. rewrite (bind_ok _ _ _ n n) by done. eapply find_binding_ip_loop_run; [done..|].
  enough (length l <= size (ns_binding n))%nat by lia. eapply slist_count; [|exact Hl]. intros a. unfold nxb. by rewrite fmap_is_Some.
Qed.

(** The last packet of a list. *)
Lemma last_pkt_run n l a fuel h : slist (nxp n) h (l ++ [a]) -> (length l < fuel)%nat -> last_pkt fuel h n = Ok a n.
Proof.
  revert fuel h. induction l as [|p l IH]; intros [|fuel] h Hl Hf; cbn [length app] in *; try lia; cbn [last_pkt].
  - destruct Hl as (-> & Hn & nx & Hnx & Hnil). cbn in Hnil. subst nx. unfold nxp in Hnx.
    destruct (ns_pkt n !! a) as [x|] eqn:Hx; [|done]. injection Hnx as Hnx. erewrite bind_ok by by apply read_ok. by rewrite Hnx.
  - destruct Hl as (-> & Hn & nx & Hnx & Hl). unfold nxp in Hnx. destruct (ns_pkt n !! p) as [x|] eqn:Hx; [|done].
    injection Hnx as Hnx. erewrite bind_ok by by apply read_ok. rewrite Hnx. rewrite (proj2 (Z.eqb_neq _ _)).
    + apply IH; [done|lia].
    + intros ->. apply slist_nil in Hl. destruct l; naive_solver.
Qed.
End find.

(** ** Queues of datagrams *)
Record dgram := mk_dgram { dg_src : list Z; dg_port : Z; dg_data : list Z }.
(** A packet that waits, with the header of the datagram in front of its bytes. *)
Definition holds_dgram (x : ip_pkt) (d : dgram) : Prop :=
  ip_src x = dg_src d /\ ip_src_port x = dg_port d /\ ip_len x = 8 + Z.of_nat (length (dg_data d)) /\
  exists h, length h = 8%nat /\ ip_data x = h ++ dg_data d.
Definition udp_queue {E} (n : net_dev E) (ip : binding_ip) (q : list (Z * dgram)) : Prop :=
  slist (nxp n) (bi_recv_wait ip) q.*1 /\
  Forall (fun '(a, d) => exists x, ns_pkt n !! a = Some x /\ holds_dgram x d) q.

(** ** Fields of a buffer whose first bytes are known one by one *)
Lemma byte_run {E} (n : net_dev E) buf i v : znth buf i = Some v -> byte buf i n = Ok v n.
Proof. intros Hv. by apply read_ok. Qed.
Lemma list4 (l : list Z) : length l = 4%nat -> exists a b c d, l = [a; b; c; d].
Proof. destruct l as [|a [|b [|c [|d [|]]]]]; try discriminate. eauto. Qed.
Lemma list6 (l : list Z) : length l = 6%nat -> exists a b c d e f, l = [a; b; c; d; e; f].
Proof. destruct l as [|a [|b [|c [|d [|e [|f [|]]]]]]]; try discriminate. eauto 8. Qed.
Ltac get_byte := apply wpe_bind; eapply wpe_ok; [apply byte_run; reflexivity|]; cbn beta.
Ltac get_slice k l := apply wpe_bind; eapply wpe_ok; [apply (slice_hdr _ [] _ _ k l); [done|done|cbn; lia]|]; cbn [take drop]; rewrite ?drop_0, ?take_0; cbn [take].

Section recv.
Context {E : Type} `{HostOk E}.
Implicit Types (n : net_dev E).

Lemma wp_upd_pkt n a x f (Q : unit -> net_dev E -> Prop) : ns_pkt n !! a = Some x ->
  Q tt (set_ns_pkt (<[a := f x]> (ns_pkt n)) n) -> wp (upd_pkt a f) n Q.
Proof. intros Hx HQ. unfold upd_pkt, get_pkt, put_pkt. apply wpe_bind. eapply wpe_read; [done|]. by apply wpe_modify. Qed.

(** A change of one packet, which keeps its link, keeps lists and queues. *)
Lemma nxp_upd n (m : net_dev E) a x y : ns_pkt n !! a = Some x -> ip_next y = ip_next x -> forall b, nxp (set_ns_pkt (<[a := y]> (ns_pkt n)) m) b = nxp n b.
Proof. intros Hx Hy b. unfold nxp. cbn. destruct (decide (a = b)) as [<-|]; [by rewrite lookup_insert_eq, Hx; cbn; rewrite Hy|by rewrite lookup_insert_ne]. Qed.
Lemma nxp_new n (m : net_dev E) a y b : b <> a -> nxp (set_ns_pkt (<[a := y]> (ns_pkt n)) m) b = nxp n b.
Proof. intros Hb. unfold nxp. cbn. by rewrite lookup_insert_ne. Qed.

Lemma pkts_length n h l : slist (nxp n) h l -> (length l <= size (ns_pkt n))%nat.
Proof. apply slist_count. intros a. unfold nxp. by rewrite fmap_is_Some. Qed.

(** What a device is when a datagram has come: the queue is longer by one. *)
Record udp_put n n' (arg : Z) (ip : binding_ip) (q : list (Z * dgram)) (p : Z) (y : ip_pkt) (d : dgram) (ip' : binding_ip) : Prop := {
  up_pkt : exists y', ns_pkt n' !! p = Some y' /\ ip_frags y' = ip_frags y /\ ip_data_at y' = ip_data_at y;
  up_ip : ns_ip n' = <[arg := ip']> (ns_ip n);
  up_same : bi_addr_loc ip' = bi_addr_loc ip /\ bi_port_loc ip' = bi_port_loc ip /\ bi_offset ip' = bi_offset ip;
  up_queue : udp_queue n' ip' (q ++ [(p, d)]);
  up_rest : ns_binding n' = ns_binding n /\ ni_bindings n' = ni_bindings n /\ nd_env n' = nd_env n /\ nd_mount_eid n' = nd_mount_eid n
}.

Lemma queue_put n n' q p d y o w ip' : Forall (fun '(a, d) => exists x, ns_pkt n !! a = Some x /\ holds_dgram x d) q ->
  p ∉ q.*1 -> ns_pkt n' !! p = Some y -> holds_dgram y d -> ip_next y = NIL -> p <> NIL ->
  (forall a, a ∈ q.*1 -> a <> o -> ns_pkt n' !! a = ns_pkt n !! a) ->
  (q = [] /\ bi_recv_wait ip' = p \/
   exists l, q.*1 = l ++ [o] /\ slist (nxp n) (bi_recv_wait ip') (l ++ [o]) /\ ns_pkt n !! o = Some w /\ ns_pkt n' !! o = Some (set_ip_next p w)) ->
  udp_queue n' ip' (q ++ [(p, d)]).
Proof.
  intros Hq Hpq Hy Hd Hnx Hp Hsame Hcase. unfold udp_queue. rewrite fmap_app. cbn [fmap list_fmap fst].
  destruct Hcase as [[-> ->]|(l & El & Hl & Ho & Ho')].
  { split; [|apply Forall_singleton; by exists y]. cbn. split; [done|]. split; [done|]. exists NIL. unfold nxp. rewrite Hy. cbn. by rewrite Hnx. }
  assert (Hol : o ∉ l) by (apply slist_NoDup in Hl; apply NoDup_app in Hl as (_ & Hl & _); intros Hin; apply (Hl o Hin); by apply list_elem_of_singleton).
  split.
  - rewrite El, <-app_assoc. apply sseg_app in Hl as (m & Hl1 & Hl2). apply sseg_app. exists m. split.
    + eapply sseg_ext; [|exact Hl1]. intros a Ha. unfold nxp. rewrite Hsame; [done|rewrite El; apply elem_of_app; by left|by intros ->].
    + destruct Hl2 as (-> & Hon & _). cbn [sseg app]. split_and!; [done..|]. exists p. unfold nxp at 1. rewrite Ho'. split_and!; [done..|].
      exists NIL. unfold nxp. rewrite Hy. cbn. by rewrite Hnx.
  - apply Forall_app. split; [|apply Forall_singleton; by exists y]. apply Forall_forall. intros [a e] Ha.
    rewrite Forall_forall in Hq. destruct (Hq _ Ha) as (x & Hx & Hh). destruct (decide (a = o)) as [->|].
    + exists (set_ip_next p w). split; [done|]. by replace w with x by congruence.
    + exists x. rewrite Hsame; [done| |done]. apply list_elem_of_fmap. by exists (a, e).
Qed.

Lemma wp_handle_udp n l b x ip q p y sport dport data (Q : unit -> net_dev E -> Prop) :
  bindings n l -> b ∈ l -> bound n NET_proto_udp dport b = true ->
  (forall a, a ∈ l -> bound n NET_proto_udp dport a = true -> a = b) ->
  ns_binding n !! b = Some x -> ns_ip n !! bd_proto_arg x = Some ip -> udp_queue n ip q ->
  ns_pkt n !! p = Some y -> p ∉ q.*1 -> p <> NIL ->
  ip_data y = udp_hdr sport dport (8 + Z.of_nat (length data)) ++ data -> ip_len y = 8 + Z.of_nat (length data) ->
  0 <= sport < 2 ^ 16 -> 0 <= dport < 2 ^ 16 -> 8 + Z.of_nat (length data) < 2 ^ 16 ->
  (forall n' ip', udp_put n n' (bd_proto_arg x) ip q p y (mk_dgram (ip_src y) sport data) ip' -> Q tt n') ->
  wp (handle_udp p) n Q.
Proof.
  intros Hbs Hbl Hbb Hbu Hx Hip [Hq1 Hq2] Hp Hpq Hpn Hdata Hlen Hs Hd Hl HQ. unfold handle_udp.
  apply wpe_bind. eapply wpe_read; [exact Hp|]. cbn beta. rewrite Hdata. unfold sizeof_udp_hdr, udp_hdr, be16. cbn [app].
  apply wpe_bind. eapply wpe_ok; [apply (slice_hdr _ [] _ _ 0 8); [done|done|cbn; lia]|]. cbn [take drop]. rewrite ?drop_0. cbn [take]. rewrite ?take_0.
  rewrite !beto16_be16 by lia. cbv zeta. rewrite Hlen, Z.ltb_irrefl. apply wpe_bind. eapply wp_upd_pkt; [exact Hp|].
  set (n1 := set_ns_pkt _ n). set (y1 := set_src_port _ y) in *.
  apply wpe_bind. eapply wpe_ok; [apply (slice_hdr _ [] _ _ 8 (length data)); [done| |cbn; lia]|].
  { rewrite u32_small; lia. }
  cbn beta. assert (Hbs1 : bindings n1 l) by (by destruct Hbs).
  destruct (find_binding_ip_run n1 l NET_proto_udp dport Hbs1) as (r & Hr & Hc).
  apply wpe_bind. eapply wpe_ok; [exact Hr|]. cbn beta.
  assert (r = b) as ->.
  { destruct Hc as [[_ Hc]|[Hc1 Hc2]]; [|by apply Hbu]. specialize (Hc b Hbl). change (bound n NET_proto_udp dport b = false) in Hc. congruence. }
  assert (Hbn : b <> NIL) by (destruct Hbs as [Hsl _]; by destruct (sseg_elem _ _ _ _ _ Hsl Hbl)).
  rewrite (proj2 (Z.eqb_neq _ _)) by done. apply wpe_bind. eapply wpe_read; [exact Hx|]. apply wpe_bind. eapply wpe_read; [exact Hip|].
  apply wpe_bind, wpe_get. cbn beta.
  assert (Hy1 : ns_pkt n1 !! p = Some y1) by (cbn; by rewrite lookup_insert_eq).
  assert (Hhd : holds_dgram (set_ip_next NIL y1) (mk_dgram (ip_src y) sport data)).
  { unfold holds_dgram. cbn. split_and!; [done..|]. exists (udp_hdr sport dport (8 + Z.of_nat (length data))). split; [done|]. exact Hdata. }
  destruct (Z.eqb_spec (bi_recv_wait ip) NIL) as [Hnil|Hne].
  - apply wpe_bind. eapply wp_upd_pkt; [exact Hy1|]. apply wpe_modify. eapply HQ. split; [|reflexivity|done| |done].
    { exists (set_ip_next NIL y1). split_and!; [cbn; by rewrite lookup_insert_eq|done..]. }
    apply (slist_nil _ _ _ Hq1) in Hnil. destruct q as [|[]]; [|done].
    eapply (queue_put n _ [] p _ _ NIL y); [done|done|cbn; by rewrite lookup_insert_eq|exact Hhd|done|done|by intros ? ?%elem_of_nil|by left].
  - destruct q as [|[o d0] q0 _] using rev_ind; [by apply Hne in Hq1|]. rewrite fmap_app in Hq1, Hpq. cbn [fmap list_fmap fst] in Hq1, Hpq.
    assert (Hq1' : slist (nxp n1) (bi_recv_wait ip) (q0.*1 ++ [o])).
    { eapply sseg_ext; [|exact Hq1]. intros a Ha. apply nxp_new. by intros ->. }
    assert (Hop : o <> p) by (intros ->; apply Hpq, elem_of_app; right; by apply list_elem_of_singleton).
    assert (Hw : exists w, ns_pkt n !! o = Some w).
    { apply Forall_app in Hq2 as [_ Hq2]. apply Forall_singleton in Hq2 as (w & Hw & _). by exists w. }
    destruct Hw as (w & Hw). apply wpe_bind. eapply wpe_ok; [eapply last_pkt_run; [exact Hq1'|]|].
    { apply pkts_length in Hq1'. rewrite length_app in Hq1'. change (length [o]) with 1%nat in Hq1'. lia. }
    cbn beta. apply wpe_bind. eapply wp_upd_pkt; [exact Hy1|]. eapply wp_upd_pkt.
    { cbn. rewrite !lookup_insert_ne by done. exact Hw. }
    eapply (HQ _ ip). split; [|cbn; by rewrite insert_id|done| |done].
    { exists (set_ip_next NIL y1). split_and!; [cbn; by rewrite lookup_insert_ne, lookup_insert_eq|done..]. }
    eapply (queue_put n _ _ p _ (set_ip_next NIL y1) o w).
    + exact Hq2.
    + rewrite fmap_app. exact Hpq.
    + cbn. by rewrite lookup_insert_ne, lookup_insert_eq.
    + exact Hhd.
    + done.
    + done.
    + intros a Ha Hao. cbn. rewrite fmap_app in Ha. by rewrite !lookup_insert_ne by by intros ->.
    + right. exists q0.*1. rewrite fmap_app. split_and!; [done|done|done|]. cbn. by rewrite lookup_insert_eq.
Qed.

(** Packets are in memory that is in use. *)
Definition pkts_used n : Prop := forall p, is_Some (ns_pkt n !! p) -> p ∈ hv_used (netv n).

Lemma wp_take_pkt n src dst proto ident bdy hl len (Q : Z -> net_dev E -> Prop) :
  net_inv n -> hv_plenty (netv n) = true -> 0 <= hl -> 0 <= len -> hl + len <= Z.of_nat (length bdy) ->
  (forall p d e', p <> NIL -> d <> NIL -> p <> d -> p ∉ hv_used (netv n) -> d ∉ hv_used (netv n) -> ho_inv e' -> hv e' = hv_set_used ({[d]} ∪ ({[p]} ∪ hv_used (netv n))) (netv n) ->
    Q p (set_ns_pkt (<[p := mk_ip_pkt NIL src dst proto ident 0 false [] d (take (Z.to_nat len) (drop (Z.to_nat hl) bdy)) len]> (ns_pkt n)) (set_nd_env e' n))) ->
  wp (take_pkt src dst proto ident bdy hl len) n Q.
Proof.
  intros Hi Hpl Hhl Hl Hb HQ. unfold take_pkt, ip_pkt_new. apply wpe_bind, wpe_bind. apply wp_alloc; [done|done|..].
  { intros e' (Hp & _). congruence. }
  intros p bs e (Hp & Hu & _ & _ & Hi1 & Hv1). rewrite (proj2 (Z.eqb_neq p _)) by done. apply wpe_bind, wpe_modify, wpe_ret.
  rewrite (proj2 (Z.eqb_neq p _)) by done. apply wpe_bind. apply wp_malloc; [done|done|..].
  { intros b2 e2 (Hp2 & _). cbn in Hp2. rewrite Hv1 in Hp2. cbn in Hp2. congruence. }
  intros d mem e2 (Hd & Hu2 & Hlm & _ & Hi2 & Hv2). rewrite (proj2 (Z.eqb_neq d _)) by done.
  apply wpe_bind. eapply wpe_ok; [by apply slice_run|]. cbn beta. set (bs2 := take _ _).
  assert (Hlb : length bs2 = Z.to_nat len) by (unfold bs2; rewrite length_take, length_drop; lia).
  apply wpe_bind. eapply wpe_ok; [apply splice_run; lia|]. cbn beta.
  replace (overwrite mem _ bs2) with bs2 by (unfold overwrite; rewrite drop_ge by lia; cbn; by rewrite take_0, app_nil_r).
  apply wpe_bind. eapply wp_upd_pkt; [cbn; by rewrite lookup_insert_eq|]. apply wpe_ret. cbn in Hv2. rewrite Hv1 in Hv2.
  assert (Hpd : p <> d) by (intros ->; apply Hu2; cbn; rewrite Hv1; cbn; set_solver).
  assert (Hdu : d ∉ hv_used (netv n)) by (intros Hin; apply Hu2; cbn; rewrite Hv1; cbn; set_solver).
  specialize (HQ p d e2 Hp Hd Hpd Hu Hdu Hi2 Hv2).
  lazymatch goal with |- Q _ ?s => lazymatch type of HQ with Q _ ?t => replace s with t; [exact HQ|] end end.
  unfold set_ns_pkt, set_nd_env. cbn. by rewrite insert_insert_eq.
Qed.

(** A datagram arrives. *)
Lemma wp_process_udp n l b x ip q src_mac dscp id src sport dport data plen (Q : unit -> net_dev E -> Prop) :
  dev_ok n -> hv_plenty (netv n) = true -> pkts_used n -> mac_ok src_mac -> ip_ok src -> is_byte dscp ->
  bindings n l -> b ∈ l -> bound n NET_proto_udp dport b = true ->
  (forall a, a ∈ l -> bound n NET_proto_udp dport a = true -> a = b) ->
  ns_binding n !! b = Some x -> ns_ip n !! bd_proto_arg x = Some ip -> udp_queue n ip q ->
  0 <= sport < 2 ^ 16 -> 0 <= dport < 2 ^ 16 -> 28 + Z.of_nat (length data) < 2 ^ 16 ->
  (forall n1 n' ip' p y d, ns_binding n1 = ns_binding n -> ns_ip n1 = ns_ip n -> ni_bindings n1 = ni_bindings n ->
     net_inv n' -> netv n' = hv_set_used ({[d]} ∪ ({[p]} ∪ hv_used (netv n))) (netv n) -> p <> d -> ip_frags y = [] -> ip_data_at y = d ->
     p <> NIL -> d <> NIL -> p ∉ hv_used (netv n) -> d ∉ hv_used (netv n) -> nd_mount_eid n' = nd_mount_eid n ->
     udp_put n1 n' (bd_proto_arg x) ip q p y (mk_dgram src sport data) ip' -> Q tt n') ->
  wp (net_process_pkt (udp_pkt (nd_mac n) src_mac dscp id src sport (nd_ipv4 n) dport data) plen) n Q.
Proof.
  intros ((Hm & _) & (Hni & _) & Hi) Hpl Hpu (Hsm & _) (Hsl & _) Hds Hbs Hbl Hbb Hbu Hx Hip Hq Hs Hd Hl HQ.
  unfold net_process_pkt, udp_pkt, ipv4_pkt, eth_bytes, ipv4_hdr, udp_hdr. cbv zeta.
  set (csum := ipv4_csum _ _ _ _ _ _). clearbody csum.
  destruct (list6 _ Hm) as (m0 & m1 & m2 & m3 & m4 & m5 & Emac), (list6 _ Hsm) as (r0 & r1 & r2 & r3 & r4 & r5 & ->).
  destruct (list4 _ Hni) as (i0 & i1 & i2 & i3 & Eip), (list4 _ Hsl) as (s0 & s1 & s2 & s3 & ->). rewrite Emac, Eip.
  rewrite length_app. cbn [length]. set (tl := 8 + Z.of_nat (length data)).
  replace (20 + Z.of_nat (length (be16 sport ++ be16 dport ++ be16 tl ++ [0; 0]) + length data)) with (20 + tl) by (rewrite !length_app; cbn; unfold tl; lia).
  unfold be16. cbn [app drop]. get_byte. get_byte. change (_ =? 0x0806) with false. change (beto16 _ _ =? 0x0800) with true. cbv iota.
  unfold handle_ipv4. apply wpe_bind, wpe_get. get_slice 0%nat 6%nat. rewrite Emac. unfold same at 1. rewrite bool_decide_true by done. cbn [negb].
  get_slice 16%nat 4%nat. rewrite Eip. unfold same at 1. rewrite bool_decide_true by done. cbn [negb].
  get_byte. change (Z.shiftr (Z.land 69 240) 4 =? 4) with true. change (Z.shiftl (Z.land 69 15) 2) with 20. cbn [negb].
  get_byte. get_byte. get_byte. get_byte. get_byte. get_byte. change (Z.shiftr 0 5) with 0. cbn [Z.land Z.eqb negb].
  change (Z.lor (Z.shiftl 0 5) 0) with 0. cbn [Z.ltb Z.compare orb]. get_byte. get_slice 12%nat 4%nat.
  rewrite (beto16_be16 (20 + tl)) by (unfold tl; lia). replace (20 + tl - 20) with tl by lia. rewrite u32_small by (unfold tl; lia).
  apply wpe_bind. eapply wp_take_pkt; [done|done|done|unfold tl; lia|cbn; unfold tl; lia|].
  intros p d e' Hp Hdn Hpd Hu Hdu Hi' Hv. rewrite (proj2 (Z.eqb_neq p _)) by done. change (IP_UDP =? IP_ICMP) with false. change (IP_UDP =? IP_TCP) with false.
  change (IP_UDP =? IP_UDP) with true. cbv iota. change (Z.to_nat 20) with 20%nat. cbn [drop]. rewrite ?drop_0.
  set (n1 := set_ns_pkt _ _).
  assert (Hpq : forall a, a ∈ q.*1 -> a <> p).
  { destruct Hq as [Hq _]. intros a Ha ->. apply Hu, Hpu. destruct (sseg_elem _ _ _ _ _ Hq Ha) as [_ Hs1].
    unfold nxp in Hs1. by rewrite fmap_is_Some in Hs1. }
  assert (Hq1 : udp_queue n1 ip q).
  { destruct Hq as [Hq1 Hq2]. split.
    - eapply sseg_ext; [|exact Hq1]. intros a Ha. by apply nxp_new, Hpq.
    - apply Forall_forall. intros [a dg] Ha. rewrite Forall_forall in Hq2. destruct (Hq2 _ Ha) as (y & Hy & Hd').
      exists y. split; [|done]. cbn. rewrite lookup_insert_ne; [done|]. intros <-. eapply Hpq; [|done].
      apply list_elem_of_fmap. by exists (p, dg). }
  eapply (wp_handle_udp n1 l b x ip q p _ sport dport data).
  1: by destruct Hbs. 1-6: done. 1: by cbn; rewrite lookup_insert_eq. 1: by intros Ha; apply (Hpq p). 1: done.
  { cbn. rewrite take_ge; [done|]. cbn. unfold tl. lia. }
  1-4: first [done | unfold tl in *; lia].
  intros n' ip' Hput. pose proof (up_rest _ _ _ _ _ _ _ _ _ Hput) as (_ & _ & He & Hme).
  eapply (HQ n1 n' ip' p _ d); [done..| | |exact Hpd| | |done|done|done|done| |exact Hput]; try done.
  - rewrite He. exact Hi'.
  - rewrite He. exact Hv.
Qed.

(** ** Reading *)
Definition frame_view (v : hview) (eid pid : Z) (rp : net_rsp) (cap : Z) (bs : list Z) : hview := hv_say (eid, pid, rp, Some cap) (hv_write cap bs v).

Lemma wp_free_pkt n p y (Q : unit -> net_dev E -> Prop) : net_inv n -> ns_pkt n !! p = Some y -> ip_frags y = [] ->
  ip_data_at y <> NIL -> ip_data_at y ∈ hv_used (netv n) -> p ∈ hv_used (netv n) -> p <> ip_data_at y ->
  (forall e', ho_inv e' -> hv e' = hv_set_used (hv_used (netv n) ∖ {[ip_data_at y]} ∖ {[p]}) (netv n) ->
    Q tt (set_ns_pkt (delete p (ns_pkt n)) (set_nd_env e' n))) -> wp (ip_pkt_free p) n Q.
Proof.
  intros Hi Hy Hf Hdn Hd Hp Hne HQ. unfold ip_pkt_free. apply wpe_bind. eapply wpe_read; [exact Hy|]. cbn beta. rewrite Hf. cbn [free_frags].
  apply wpe_bind, wpe_ret. rewrite (proj2 (Z.eqb_neq _ _)) by done. apply wpe_bind. apply wp_free; [done|done|].
  intros e1 Hi1 Hv1. unfold drop_pkt. apply wpe_bind, wpe_modify. apply wp_free; [done|cbn; rewrite Hv1; cbn; set_solver|].
  intros e2 Hi2 Hv2. cbn in Hv2. rewrite Hv1 in Hv2. exact (HQ e2 Hi2 Hv2).
Qed.

(** All of the only datagram in the queue. *)
Lemma wp_read_udp n b x ip rq cap p y d bs (Q : unit -> net_dev E -> Prop) :
  net_inv n -> hv_plenty (netv n) = true -> ns_binding n !! b = Some x -> ns_ip n !! bd_proto_arg x = Some ip ->
  bi_offset ip = 0 -> udp_queue n ip [(p, d)] -> ns_pkt n !! p = Some y -> ip_frags y = [] -> ip_data_at y <> NIL ->
  ip_data_at y ∈ hv_used (netv n) -> p ∈ hv_used (netv n) -> p <> ip_data_at y ->
  hv_frames (netv n) !! cap = Some bs -> Z.of_nat (length (dg_data d)) <= rq_len rq -> rq_len rq < 2 ^ 32 -> (length (dg_data d) <= length bs)%nat ->
  Z.of_nat (length (dg_data d)) + 8 < 2 ^ 32 ->
  (forall n' ip', hv_said (netv n') = hv_said (netv n) ++
       [(nd_mount_eid n, bd_proc_id x, R_read OK (bd_id x) (Z.of_nat (length (dg_data d))) (P_udp (dg_src d) (dg_port d)), Some cap)] ->
     hv_frames (netv n') = <[cap := overwrite bs 0 (dg_data d)]> (hv_frames (netv n)) -> hv_used (netv n') = hv_used (netv n) ∖ {[ip_data_at y]} ∖ {[p]} ->
     ns_ip n' !! bd_proto_arg x = Some ip' -> udp_queue n' ip' [] -> Q tt n') ->
  wp (ip_read_udp rq cap b) n Q.
Proof.
  intros Hi Hpl Hx Hip Hoff [Hq Hqd] Hy Hf Hdn Hd Hp Hne Hfr Hw Hw2 Hbs Hmax HQ. unfold ip_read_udp.
  apply Forall_singleton in Hqd as (y' & Hy' & Hs & Hpo & Hl & h & Hh & Hdat). assert (y' = y) as -> by congruence. clear Hy'.
  assert (bi_recv_wait ip = p /\ p <> NIL /\ ip_next y = NIL) as (Hrw & Hpn & Hnx).
  { cbn [fmap list_fmap fst sseg] in Hq. destruct Hq as (E1 & E2 & nx & E3 & E4). unfold nxp in E3. rewrite Hy in E3. injection E3 as ->. by cbn in E4. }
  apply wpe_bind. eapply wpe_read; [exact Hx|]. apply wpe_bind, wpe_get. apply wpe_bind.
  destruct (ho_map cap bs (nd_env n) Hi Hfr) as (va & e1 & Hrun & Hi1 & Hc). destruct Hc as [(_ & Hc & _)|(Hva & _ & Hv1)]; [congruence|].
  eapply wpe_ok; [by apply on_host_run|]. cbn beta. rewrite (proj2 (Z.eqb_neq va _)) by done. apply wpe_bind. eapply wpe_read; [exact Hip|].
  cbn beta. rewrite Hrw, Hoff, (proj2 (Z.eqb_neq p _)) by done. apply wpe_bind, wpe_bind. eapply wpe_read; [exact Hy|]. cbn beta.
  unfold sizeof_udp_hdr. rewrite Hl. set (len := Z.of_nat (length (dg_data d))) in *. replace (8 + len - 8 - 0) with len by lia.
  replace (8 + len - 8) with len by lia. rewrite !(u32_small len) by lia. set (l := if len <? rq_len rq then len else rq_len rq).
  assert (l = len) as El by (unfold l; destruct (Z.ltb_spec len (rq_len rq)); lia). rewrite El. rewrite Z.add_0_l, (u32_small len), (u32_small (8 + 0)) by lia. rewrite Z.ltb_irrefl.
  apply wpe_bind. eapply wpe_ok; [apply (slice_hdr _ [] (ip_data y) _ 8 (length (dg_data d))); [done|done|rewrite Hdat, length_app; lia]|]. cbn beta.
  rewrite Hdat, drop_app_length' by done. rewrite firstn_all. apply wpe_bind.
  destruct (ho_write cap va 0 bs (dg_data d) e1) as (e2 & Hrun2 & Hi2 & Hv2); [done|rewrite Hv1; cbn; by rewrite lookup_insert_eq|by rewrite Hv1|lia|lia|].
  eapply wpe_ok; [by apply on_host_run|]. cbn beta. apply wpe_bind, wpe_bind, wpe_modify. rewrite Hnx.
  eapply wp_free_pkt; [exact Hi2|exact Hy|done|done|cbn; rewrite Hv2, Hv1; exact Hd|cbn; rewrite Hv2, Hv1; exact Hp|done|].
  intros e3 Hi3 Hv3. cbn in Hv3. rewrite Hv2, Hv1 in Hv3. cbn in Hv3. apply wpe_ret. cbn [fst snd]. apply wpe_bind.
  destruct (ho_unmap cap va e3 Hi3) as (r & e4 & Hrun4 & Hi4 & Hv4); [rewrite Hv3; cbn; by rewrite lookup_insert_eq|].
  eapply wpe_ok; [by apply on_host_run|]. cbn beta. apply wp_reply_cap; [exact Hi4|]. intros e5 Hi5 Hv5. cbn in Hv5. rewrite Hv4, Hv3 in Hv5.
  eapply HQ.
  - cbn. rewrite Hv5. cbn. by rewrite Hs, Hpo.
  - cbn. by rewrite Hv5.
  - cbn. by rewrite Hv5.
  - cbn. by rewrite lookup_insert_eq.
  - split; [done|constructor].
Qed.
End recv.
