(* ===== verification/NetArp.v ===== *)
(** * The network stack: address resolution

    A write to an address that is not known waits for the answer to a request.  When the
    answer arrives every write that waits for that address is done, in order, and is
    taken off the list; the others stay. *)
From S2P Require Import Prelude Bytes SList Net NetIp NetUdp NetTcp NetDev NetHost NetSum NetSend NetRecv.

Local Open Scope Z_scope.
Local Open Scope c_scope.

(** ** The entries *)
Lemma find_set_entry ip mac l e : find_entry ip l = Some e -> ae_mac <$> find_entry ip (set_entry ip mac l) = Some mac.
Proof.
  induction l as [|x l IH]; [done|]. cbn. unfold same. case_bool_decide as Hx; cbn.
  - unfold same. by rewrite bool_decide_true.
  - intros He. unfold same. rewrite bool_decide_false by done. auto.
Qed.
Lemma find_set_other ip ip' mac l : ip' <> ip -> find_entry ip' (set_entry ip mac l) = find_entry ip' l.
Proof.
  intros Hne. induction l as [|x l IH]; [done|]. cbn. unfold same. case_bool_decide as Hx; cbn; unfold same.
  - rewrite !bool_decide_false by congruence. done.
  - case_bool_decide; [done|exact IH].
Qed.

Section arp.
Context {E : Type} `{HostOk E}.
Implicit Types (n : net_dev E).

(** ** Writes that wait *)
(** What a write needs of the device, and what is sent and said for it. *)
Definition write_ok n (r : udp_write_req) : Prop := exists x ip bs, ns_binding n !! uw_binding r = Some x /\
  ns_ip n !! bd_proto_arg x = Some ip /\ hv_frames (netv n) !! uw_cap r = Some bs /\
  0 <= uw_len r <= Z.of_nat (length bs) /\ uw_len r + 56 < 2 ^ 32 /\ ip_ok (uw_addr_rem r).
Definition write_sent n (mac : list Z) (r : udp_write_req) (pkt : list Z) : Prop := exists x ip bs dscp id,
  ns_binding n !! uw_binding r = Some x /\ ns_ip n !! bd_proto_arg x = Some ip /\ hv_frames (netv n) !! uw_cap r = Some bs /\
  pkt = udp_pkt mac (nd_mac n) dscp id (nd_ipv4 n) (bi_port_loc ip) (uw_addr_rem r) (uw_port_rem r) (take (Z.to_nat (uw_len r)) bs).
Definition write_said n (r : udp_write_req) (s : Z * Z * net_rsp * option Z) : Prop := exists x,
  ns_binding n !! uw_binding r = Some x /\ s = (nd_mount_eid n, bd_proc_id x, R_write OK (bd_id x) (uw_len r) P_none, Some (uw_cap r)).

(** The device but for the process and the number of the next packet. *)
Definition same_dev n n' : Prop := exists id e, n' = set_nd_ipv4_ident id (set_nd_env e n).
Lemma same_dev_env n e : same_dev n (set_nd_env e n).
Proof. exists (nd_ipv4_ident n), e. by destruct n. Qed.
Lemma same_dev_trans n1 n2 n3 : same_dev n1 n2 -> same_dev n2 n3 -> same_dev n1 n3.
Proof. intros (id & e & ->) (id' & e' & ->). by exists id', e'. Qed.

Lemma wp_udp_write_finish n r mac (Q : unit -> net_dev E -> Prop) : dev_ok n -> hv_plenty (netv n) = true -> length mac = 6%nat ->
  write_ok n r -> hv_maps (netv n) !! uw_va r = Some (uw_cap r) -> uw_at r ∈ hv_used (netv n) ->
  (forall n' pkt s, same_dev n n' -> net_inv n' -> write_sent n mac r pkt -> write_said n r s ->
     netv n' = hv_set_used (hv_used (netv n) ∖ {[uw_at r]}) (hv_say s (hv_unmap (uw_va r) (hv_send pkt (netv n)))) -> Q tt n') ->
  wp (udp_write_finish r mac) n Q.
Proof.
  intros Hdev Hpl Hm (x & ip & bs & Hx & Hip & Hbs & Hl & Hmax & Ha) Hva Hat HQ. unfold udp_write_finish. apply wpe_bind.
  eapply wp_send_udp_pkt; [done..| |]; [intros e' (Hp & _); congruence|].
  intros dscp e' Hds Hi' Hv. cbn [negb]. apply wpe_bind.
  destruct (ho_unmap (uw_cap r) (uw_va r) e' Hi') as (rr & e2 & Hrun & Hi2 & Hv2); [rewrite Hv; exact Hva|].
  eapply wpe_ok; [by apply on_host_run|]. cbn beta. apply wpe_bind. eapply wpe_read; [exact Hx|]. apply wpe_bind, wpe_get.
  apply wpe_bind. apply wp_reply_cap; [exact Hi2|]. intros e3 Hi3 Hv3. cbn in Hv3. rewrite Hv2, Hv in Hv3.
  apply wp_free; [exact Hi3|cbn; rewrite Hv3; exact Hat|]. intros e4 Hi4 Hv4. cbn in Hv4. rewrite Hv3 in Hv4.
  eapply HQ; [by eexists _, e4|exact Hi4| | |cbn; exact Hv4].
  - by exists x, ip, bs, dscp, (nd_ipv4_ident n).
  - by exists x.
Qed.

(** The writes among the requests that wait for [ip], with the addresses of the requests. *)
Definition waits (ip : list Z) (q : arp_request) : option (Z * udp_write_req) :=
  match aq_func q with F_udp_write r => if same (aq_ip q) ip then Some (aq_at q, r) else None | _ => None end.
Record answers_ok n (ip : list Z) (rs : list arp_request) : Prop := {
  ao_write : Forall (fun q => aq_ip q = ip -> exists r, aq_func q = F_udp_write r) rs;
  ao_ok : Forall (fun '(_, r) => write_ok n r) (omap (waits ip) rs);
  ao_maps : Forall (fun '(_, r) => hv_maps (netv n) !! uw_va r = Some (uw_cap r)) (omap (waits ip) rs);
  ao_va : NoDup ((fun '(_, r) => uw_va r) <$> omap (waits ip) rs);
  ao_used : Forall (fun a => a ∈ hv_used (netv n)) (omap (waits ip) rs ≫= fun '(a, r) => [uw_at r; a]);
  ao_nodup : NoDup (omap (waits ip) rs ≫= fun '(a, r) => [uw_at r; a])
}.

(** After one of them, the others are as they were. *)
Lemma write_ok_same n n' r : same_dev n n' -> hv_frames (netv n') = hv_frames (netv n) -> write_ok n r -> write_ok n' r.
Proof. intros (id & e & ->) Hf (x & ip & bs & H1 & H2 & H3 & H4). exists x, ip, bs. by rewrite Hf. Qed.
Lemma write_sent_same n n' mac r pkt : same_dev n n' -> hv_frames (netv n') = hv_frames (netv n) -> write_sent n' mac r pkt -> write_sent n mac r pkt.
Proof.
  intros (id & e & ->) Hf (x & ip & bs & dscp & i & H1 & H2 & H3 & H4). rewrite Hf in H3. by exists x, ip, bs, dscp, i.
Qed.
Lemma write_said_same n n' r s : same_dev n n' -> write_said n' r s -> write_said n r s.
Proof. intros (id & e & ->) (x & H1 & H2). by exists x. Qed.
Lemma dev_ok_same n n' : same_dev n n' -> net_inv n' -> dev_ok n -> dev_ok n'.
Proof. intros (id & e & ->) Hi (H1 & H2 & _). done. Qed.

Lemma answers_tail n n' ip a r (rs : list arp_request) q : answers_ok n ip (q :: rs) -> waits ip q = Some (a, r) -> same_dev n n' ->
  hv_frames (netv n') = hv_frames (netv n) -> hv_maps (netv n') = delete (uw_va r) (hv_maps (netv n)) ->
  hv_used (netv n') = hv_used (netv n) ∖ {[uw_at r]} ∖ {[a]} -> answers_ok n' ip rs.
Proof.
  intros [Hw Hok Hm Hv Hu Hn] Hq Hs Hf Hmap Hused. cbn in Hok, Hm, Hv, Hu, Hn. rewrite Hq in Hok, Hm, Hv, Hu, Hn. cbn in Hv, Hu, Hn.
  apply Forall_cons in Hw as [_ Hw], Hok as [_ Hok], Hm as [_ Hm], Hu as [_ [_ Hu]%Forall_cons].
  apply NoDup_cons in Hv as [Hv1 Hv2], Hn as [Hn1 [Hn2 Hn3]%NoDup_cons]. split; try done.
  - eapply Forall_impl; [exact Hok|]. intros [b t]. by apply write_ok_same.
  - apply Forall_forall. intros [b t] Hin. rewrite Forall_forall in Hm. specialize (Hm _ Hin). cbn in Hm.
    rewrite Hmap, lookup_delete_ne; [done|]. intros Heq. apply Hv1. apply list_elem_of_fmap. by exists (b, t).
  - apply Forall_forall. intros b Hin. rewrite Forall_forall in Hu. specialize (Hu _ Hin). rewrite Hused.
    assert (b <> a) by (by intros ->). assert (b <> uw_at r) by (intros ->; apply Hn1; by right). set_solver.
Qed.
Lemma answers_skip n ip (rs : list arp_request) q : answers_ok n ip (q :: rs) -> waits ip q = None -> answers_ok n ip rs.
Proof.
  intros [Hw Hok Hm Hv Hu Hn] Hq. cbn in Hok, Hm, Hv, Hu, Hn. rewrite Hq in Hok, Hm, Hv, Hu, Hn.
  by apply Forall_cons in Hw as [_ Hw].
Qed.

Lemma wp_answer_requests ip mac rs : forall n (Q : list arp_request -> net_dev E -> Prop), dev_ok n -> hv_plenty (netv n) = true -> length mac = 6%nat ->
  answers_ok n ip rs ->
  (forall n' pkts said, same_dev n n' -> net_inv n' ->
     Forall2 (write_sent n mac) (omap (waits ip) rs).*2 pkts -> Forall2 (write_said n) (omap (waits ip) rs).*2 said ->
     hv_sent (netv n') = hv_sent (netv n) ++ pkts -> hv_said (netv n') = hv_said (netv n) ++ said ->
     Q (filter (fun q => aq_ip q <> ip) rs) n') ->
  wp (answer_requests call_func ip mac rs) n Q.
Proof.
  induction rs as [|q rs IH]; intros n Q Hdev Hpl Hm Hok HQ; cbn [answer_requests].
  { apply wpe_ret. eapply (HQ n [] []); [by exists (nd_ipv4_ident n), (nd_env n); destruct n|apply Hdev|constructor|constructor|by rewrite app_nil_r|by rewrite app_nil_r]. }
  rewrite filter_cons in HQ. unfold same. case_bool_decide as Hip.
  - rewrite (decide_False (P := aq_ip q <> ip)) in HQ by tauto.
    pose proof (ao_write _ _ _ Hok) as Hw. apply Forall_cons in Hw as [Hw _]. destruct (Hw Hip) as (r & Hr).
    assert (Hwt : waits ip q = Some (aq_at q, r)) by (unfold waits, same; by rewrite Hr, bool_decide_true).
    pose proof (answers_tail n) as Htail. pose proof Hok as [_ Hwok Hmap _ Hu Hn]. cbn in Hwok, Hmap, Hu, Hn. rewrite Hwt in Hwok, Hmap, Hu, Hn. cbn in Hu, Hn.
    apply Forall_cons in Hwok as [Hwok _], Hmap as [Hmap _], Hu as [Hu1 [Hu2 _]%Forall_cons]. apply NoDup_cons in Hn as [Hn _].
    rewrite Hr. cbn [call_func]. apply wpe_bind. apply wp_udp_write_finish; [done..|].
    intros n1 pkt s Hs1 Hi1 Hsent Hsaid Hv1. apply wpe_bind. apply wp_free; [done|rewrite Hv1; cbn; set_solver|].
    intros e2 Hi2 Hv2. rewrite Hv1 in Hv2. cbn in Hv2. set (n2 := set_nd_env e2 n1).
    assert (Hs2 : same_dev n n2) by (eapply same_dev_trans; [done|apply same_dev_env]).
    assert (Hf2 : hv_frames (netv n2) = hv_frames (netv n)) by (cbn; by rewrite Hv2).
    apply (IH n2); [by eapply dev_ok_same|cbn; by rewrite Hv2|done|eapply Htail; [done|done|done|done|cbn; by rewrite Hv2|cbn; by rewrite Hv2]|].
    intros n3 pkts said Hs3 Hi3 Hp Hsd Esent Esaid. cbn [nd_env set_nd_env] in Esent, Esaid. 
    cbn in HQ. rewrite Hwt in HQ. eapply (HQ n3 (pkt :: pkts) (s :: said)); [by eapply same_dev_trans|done| | |..].
    + cbn. constructor; [done|]. eapply Forall2_impl; [exact Hp|]. intros t b. by apply write_sent_same.
    + cbn. constructor; [done|]. eapply Forall2_impl; [exact Hsd|]. intros t b. by apply write_said_same.
    + rewrite Esent. cbn. rewrite Hv2. cbn. by rewrite <-app_assoc.
    + rewrite Esaid. cbn. rewrite Hv2. cbn. by rewrite <-app_assoc.
  - rewrite (decide_True (P := aq_ip q <> ip)) in HQ by done.
    assert (Hwt : waits ip q = None) by (unfold waits, same; rewrite bool_decide_false by done; by destruct (aq_func q)).
    cbn in HQ. rewrite Hwt in HQ. apply wpe_bind. apply (IH n); [done|done|done|by eapply answers_skip|].
    intros n3 pkts said Hs3 Hi3 Hp Hsd Esent Esaid. apply wpe_ret. by eapply HQ.
Qed.

(** ** The answer *)
Lemma answers_more n n' ip rs : answers_ok n ip rs -> ns_binding n' = ns_binding n -> ns_ip n' = ns_ip n ->
  hv_frames (netv n') = hv_frames (netv n) -> hv_maps (netv n') = hv_maps (netv n) -> hv_used (netv n) ⊆ hv_used (netv n') -> answers_ok n' ip rs.
Proof.
  intros [Hw Hok Hm Hv Hu Hn] Hb Hi Hf Hmap Hused. split; [done| | |done| |done].
  - eapply Forall_impl; [exact Hok|]. intros [a r] (x & i & bs & H1 & H2 & H3 & H4). exists x, i, bs. by rewrite Hb, Hi, Hf.
  - by rewrite Hmap.
  - eapply Forall_impl; [exact Hu|]. set_solver.
Qed.

(** What an answer from [mac] for [ip] leaves. *)
Record answered n n' (ip mac : list Z) (pkts : list (list Z)) (said : list (Z * Z * net_rsp * option Z)) : Prop := {
  an_known : ae_mac <$> find_entry ip (ni_arp_entries n') = Some mac;
  an_others : forall ip', ip' <> ip -> ae_mac <$> find_entry ip' (ni_arp_entries n') = ae_mac <$> find_entry ip' (ni_arp_entries n);
  an_requests : ni_arp_requests n' = filter (fun q => aq_ip q <> ip) (ni_arp_requests n);
  an_pkts : Forall2 (write_sent n mac) (omap (waits ip) (ni_arp_requests n)).*2 pkts;
  an_answers : Forall2 (write_said n) (omap (waits ip) (ni_arp_requests n)).*2 said;
  an_sent : hv_sent (netv n') = hv_sent (netv n) ++ pkts;
  an_said : hv_said (netv n') = hv_said (netv n) ++ said
}.

Lemma wp_arp_add_entry n ip mac (Q : unit -> net_dev E -> Prop) : dev_ok n -> hv_plenty (netv n) = true -> length mac = 6%nat ->
  answers_ok n ip (ni_arp_requests n) -> (forall n' pkts said, answered n n' ip mac pkts said -> Q tt n') ->
  wp (arp_add_entry call_func ip mac) n Q.
Proof.
  intros Hdev Hpl Hm Hok HQ. unfold arp_add_entry. apply wpe_bind, wpe_get.
  assert (Hrest : forall n1, ni_arp_requests n1 = ni_arp_requests n -> dev_ok n1 -> answers_ok n1 ip (ni_arp_requests n) ->
    hv_plenty (netv n1) = true -> hv_sent (netv n1) = hv_sent (netv n) -> hv_said (netv n1) = hv_said (netv n) ->
    (forall r p, write_sent n1 mac r p -> write_sent n mac r p) -> (forall r p, write_said n1 r p -> write_said n r p) ->
    (exists e, find_entry ip (ni_arp_entries n1) = Some e) ->
    (forall ip', ip' <> ip -> find_entry ip' (ni_arp_entries n1) = find_entry ip' (ni_arp_entries n)) ->
    wp (modify (fun n => set_ni_arp_entries (set_entry ip mac (ni_arp_entries n)) n) ;;; let* n := get in
        let* l := answer_requests call_func ip mac (ni_arp_requests n) in modify (set_ni_arp_requests l)) n1 Q).
  { intros n1 Hr Hd1 Hok1 Hpl1 Hse Hsa Hws Hwsa (e & He) Hoth. apply wpe_bind, wpe_modify. apply wpe_bind, wpe_get. cbn [ni_arp_requests set_ni_arp_entries].
    rewrite Hr. set (n2 := set_ni_arp_entries _ n1). apply wpe_bind.
    apply (wp_answer_requests ip mac _ n2); [done|done|done|by eapply answers_more|].
    intros n3 pkts said (id & e3 & ->) Hi3 Hp Hsd E1 E2. apply wpe_modify. apply (HQ _ pkts said). split.
    - cbn. by apply (find_set_entry _ _ _ e).
    - intros ip' Hne. cbn. by rewrite find_set_other, Hoth.
    - done.
    - eapply Forall2_impl; [exact Hp|]. intros r p Hrp. by apply Hws.
    - eapply Forall2_impl; [exact Hsd|]. intros r p Hrp. by apply Hwsa.
    - cbn. cbn in E1. by rewrite E1, Hse.
    - cbn. cbn in E2. by rewrite E2, Hsa. }
  destruct (find_entry ip (ni_arp_entries n)) as [e|] eqn:He.
  - apply wpe_bind, wpe_ret. cbn [negb]. apply Hrest; try done. by exists e.
  - apply wpe_bind, wpe_bind. apply wp_alloc; [apply Hdev|done|intros e' (Hp & _); congruence|].
    intros a bs e' (Ha & Hu & _ & _ & Hi' & Hv). rewrite (proj2 (Z.eqb_neq _ _)) by done.
    apply wpe_bind, wpe_modify, wpe_ret. cbn [negb]. apply Hrest.
    + done.
    + destruct Hdev as (H1 & H2 & _). done.
    + eapply answers_more; [exact Hok|done|done|cbn; by rewrite Hv|cbn; by rewrite Hv|cbn; rewrite Hv; cbn; set_solver].
    + cbn. by rewrite Hv.
    + cbn. by rewrite Hv.
    + cbn. by rewrite Hv.
    + intros r p (x & i & b & d & id & H1 & H2 & H3 & H4). cbn in H3. rewrite Hv in H3. by exists x, i, b, d, id.
    + intros r p (x & H1 & H2). by exists x.
    + eexists. cbn. unfold same. by rewrite bool_decide_true.
    + intros ip' Hne. cbn. unfold same. by rewrite bool_decide_false by congruence.
Qed.

Definition arp_pkt (dst src : list Z) (oper : Z) (src_mac src_ip tgt_mac tgt_ip : list Z) : list Z :=
  eth_bytes dst src 0x0806 ++ arp_body oper src_mac src_ip tgt_mac tgt_ip.
Definition broadcast : list Z := [0xff; 0xff; 0xff; 0xff; 0xff; 0xff].

Lemma wp_arp_answer n mac ip tgt_mac tgt_ip plen (Q : unit -> net_dev E -> Prop) : dev_ok n -> hv_plenty (netv n) = true -> nd_mac n <> broadcast ->
  mac_ok mac -> ip_ok ip -> length tgt_mac = 6%nat -> length tgt_ip = 4%nat -> 42 <= plen < 2 ^ 32 -> answers_ok n ip (ni_arp_requests n) ->
  (forall n' pkts said, answered n n' ip mac pkts said -> Q tt n') ->
  wp (net_process_pkt (arp_pkt (nd_mac n) mac 2 mac ip tgt_mac tgt_ip) plen) n Q.
Proof.
  intros Hdev Hpl Hbc [Hmac _] [Hip _] Htm Hti Hlen Hok HQ. pose proof Hdev as ((Hm & _) & _).
  destruct (list6 _ Hm) as (m0 & m1 & m2 & m3 & m4 & m5 & Emac), (list6 _ Hmac) as (r0 & r1 & r2 & r3 & r4 & r5 & ->).
  destruct (list4 _ Hip) as (i0 & i1 & i2 & i3 & ->), (list6 _ Htm) as (t0 & t1 & t2 & t3 & t4 & t5 & ->), (list4 _ Hti) as (j0 & j1 & j2 & j3 & ->).
  unfold net_process_pkt, arp_pkt, eth_bytes, arp_body, be16. rewrite Emac. cbv zeta. cbn [app drop]. get_byte. get_byte. rewrite ?drop_0.
  change (beto16 _ _ =? 0x0806) with true. cbv iota. unfold handle_arp, sizeof_eth_hdr. rewrite u32_small by lia.
  rewrite (proj2 (Z.ltb_ge (plen - 14) 8)) by lia. do 8 get_byte. rewrite (proj2 (Z.ltb_ge (plen - 14) _)) by lia.
  change (beto16 0 1 =? 1) with true. change (beto16 8 0 =? 2048) with true. cbn [negb orb]. apply wpe_bind, wpe_get. get_slice 0%nat 6%nat.
  unfold same at 1. rewrite bool_decide_false by (by rewrite Emac in Hbc). unfold same. rewrite bool_decide_true by done.
  change (beto16 0 2 =? 2) with true. cbv iota. unfold handle_arp_response. get_slice 8%nat 6%nat. get_slice 14%nat 4%nat.
  by apply wp_arp_add_entry.
Qed.
End arp.
