(* ===== verification/NetStream.v ===== *)
(** * The network stack: the bytes of a connection

    What a connection has received is a queue of packets with sequence numbers; [ready]
    are the bytes that follow each other without a gap from the number that is expected
    on.  The loop of ip_read_tcp gives them in order, and what it leaves is what follows. *)
From S2P Require Import Prelude Bytes Net NetIp NetUdp NetTcp NetHost NetSum NetSend.

Local Open Scope Z_scope.
Local Open Scope c_scope.

Fixpoint ready (cont : Z) (l : list tcp_pkt) : list Z :=
  match l with
  | [] => []
  | p :: l => if tp_seq p =? cont then tp_data p ++ ready (u32 (cont + tp_len p)) l else []
  end.

(** The blocks of a packet, in the order they are freed. *)
Definition tp_blocks (p : tcp_pkt) : list Z := (if tp_data_at p =? NIL then [] else [tp_data_at p]) ++ [tp_at p].
Definition tp_ok (p : tcp_pkt) : Prop := tp_len p = Z.of_nat (length (tp_data p)) /\ tp_len p < 2 ^ 32.
Record recv_ok {E} `{HostOk E} (n : net_dev E) (l : list tcp_pkt) : Prop := {
  rk_ok : Forall tp_ok l;
  rk_used : Forall (fun a => a ∈ hv_used (hv (nd_env n))) (l ≫= tp_blocks);
  rk_nodup : NoDup (l ≫= tp_blocks)
}.

Lemma overwrite_length bs o b : (o + length b <= length bs)%nat -> length (overwrite bs o b) = length bs.
Proof. intros. unfold overwrite. rewrite !length_app, length_take, length_drop. lia. Qed.
(** Two parts that follow each other. *)
Lemma overwrite_twice bs o a b : (o + length a + length b <= length bs)%nat ->
  overwrite (overwrite bs o a) (o + length a) b = overwrite bs o (a ++ b).
Proof.
  intros Hl. unfold overwrite. assert (Ho : length (take o bs) = o) by (rewrite length_take; lia).
  assert (E1 : take (o + length a) (take o bs ++ a ++ drop (o + length a) bs) = take o bs ++ a).
  { rewrite app_assoc. rewrite take_app_length'; [done|]. rewrite length_app. lia. }
  rewrite E1, <-!app_assoc. do 3 f_equal. rewrite app_assoc, drop_app_ge by (rewrite length_app; lia).
  rewrite length_app, Ho, drop_drop. f_equal. rewrite length_app. lia.
Qed.
Lemma overwrite_nil bs o : overwrite bs o [] = bs.
Proof. unfold overwrite. cbn. rewrite Nat.add_0_r. apply take_drop. Qed.

Lemma hv_set_used_id v : hv_set_used (hv_used v) v = v.
Proof. by destruct v. Qed.

Section stream.
Context {E : Type} `{HostOk E}.
Implicit Types (n : net_dev E).

Lemma wp_free_tcp_pkt n p l (Q : unit -> net_dev E -> Prop) : net_inv n -> recv_ok n (p :: l) ->
  (forall e', ho_inv e' -> (exists u, hv e' = hv_set_used u (netv n)) -> recv_ok (set_nd_env e' n) l -> Q tt (set_nd_env e' n)) ->
  wp (free_tcp_pkt p) n Q.
Proof.
  intros Hi [Hok Hu Hn] HQ. apply Forall_cons in Hok as [_ Hok]. cbn in Hu, Hn.
  apply Forall_app in Hu as [Hp Hu]. apply NoDup_app in Hn as (Hnp & Hd & Hn). unfold free_tcp_pkt, tp_blocks in *.
  assert (Hmid : forall n1, net_inv n1 -> (exists e1, n1 = set_nd_env e1 n) -> (exists u, netv n1 = hv_set_used u (netv n)) -> tp_at p ∈ hv_used (netv n1) ->
    (forall b, b ∈ l ≫= tp_blocks -> b ∈ hv_used (netv n1)) -> (tp_at p ∉ l ≫= tp_blocks) -> wp (n_free (tp_at p)) n1 Q).
  { intros n1 Hi1 (e1 & ->) (u & Eu) Hat Hb Hna. apply wp_free; [done|done|]. intros e' Hi' Hv. cbn [nd_env set_nd_env] in *.
    rewrite set_nd_env_env. apply HQ; [done|eexists; rewrite Hv, Eu; reflexivity|]. split; [done| |done].
    apply Forall_forall. intros b Hin. cbn. rewrite Hv. cbn. apply elem_of_difference. split; [by apply Hb|].
    intros ->%elem_of_singleton. by apply Hna. }
  destruct (Z.eqb_spec (tp_data_at p) NIL) as [Hnil|Hnn]; cbn [app] in Hp, Hnp, Hd.
  - apply wpe_bind, wpe_ret. rewrite Forall_singleton in Hp. apply Hmid; [done|exists (nd_env n); by destruct n|exists (hv_used (netv n)); symmetry; apply hv_set_used_id|done| |].
    + by apply Forall_forall.
    + apply Hd. by left.
  - apply Forall_cons in Hp as [Hp1 Hp2]. rewrite Forall_singleton in Hp2. apply NoDup_cons in Hnp as [Hnp _]. apply wpe_bind. apply wp_free; [done|done|].
    intros e1 Hi1 Hv1. apply Hmid; [done|by exists e1|by eexists; cbn; rewrite Hv1| | |].
    + cbn. rewrite Hv1. cbn. apply elem_of_difference. split; [done|]. intros E1%elem_of_singleton. apply Hnp. rewrite E1. by left.
    + intros b Hb. cbn. rewrite Hv1. cbn. apply elem_of_difference. split; [by rewrite Forall_forall in Hu; apply Hu|].
      intros ->%elem_of_singleton. apply (Hd (tp_data_at p)); [by left|done].
    + apply Hd. right. by left.
Qed.

(** What the loop reads and leaves, from packets of which nothing has been read. *)
Lemma wp_read_tcp_loop c va cap want l : 0 <= want < 2 ^ 32 -> forall fuel n y len cont bs (Q : Z * Z -> net_dev E -> Prop),
  net_inv n -> ns_con n !! c = Some y -> cn_recv_wait y = l -> cn_offset y = 0 -> recv_ok n l -> (S (length l) < fuel)%nat ->
  0 <= len <= want -> hv_maps (netv n) !! va = Some cap -> hv_frames (netv n) !! cap = Some bs -> want <= Z.of_nat (length bs) ->
  (forall n' o l' cont', let r := take (Z.to_nat (want - len)) (ready cont l) in
     net_inv n' -> ns_con n' = <[c := set_cn_recv o l' y]> (ns_con n) -> 0 <= o ->
     drop (Z.to_nat o) (ready cont' l') = drop (length r) (ready cont l) ->
     hv_frames (netv n') = <[cap := overwrite bs (Z.to_nat len) r]> (hv_frames (netv n)) ->
     Q (len + Z.of_nat (length r), cont') n') ->
  wp (read_tcp_loop fuel c va want len cont) n Q.
Proof.
  intros Hw. induction l as [|p l IH]; intros [|fuel] n y len cont bs Q Hi Hy Hl Ho Hok Hfuel Hlen Hva Hcap Hbs HQ; try (cbn in Hfuel; lia);
    cbn [read_tcp_loop]; apply wpe_bind; (eapply wpe_read; [exact Hy|]); cbn beta; rewrite Hl.
  { specialize (HQ n 0 [] cont). cbn in HQ. rewrite firstn_nil, overwrite_nil, Z.add_0_r in HQ. apply wpe_ret, HQ; [done| |lia|done|by rewrite insert_id].
    rewrite insert_id; [done|]. rewrite Hy. f_equal. destruct y. cbn in *. by subst. }
  assert (Hstop : take (Z.to_nat (want - len)) (ready cont (p :: l)) = [] -> wp (ret (len, cont)) n Q).
  { intros Hr. specialize (HQ n 0 (p :: l) cont). cbv zeta in HQ. rewrite Hr, overwrite_nil, Z.add_0_r in HQ.
    apply wpe_ret, HQ; [done| |lia|done|by rewrite insert_id]. rewrite insert_id; [done|]. rewrite Hy. f_equal. destruct y. cbn in *. by subst. }
  destruct (Z.ltb_spec len want) as [Hlw|Hlw]; cbn [negb].
  2: { apply Hstop. by replace (Z.to_nat (want - len)) with 0%nat by lia. }
  destruct (Z.eqb_spec (tp_seq p) cont) as [Hseq|Hseq]; cbn [negb].
  2: { apply Hstop. cbn. rewrite (proj2 (Z.eqb_neq _ _)) by done. apply firstn_nil. }
  pose proof (rk_ok _ _ Hok) as Hp. apply Forall_cons in Hp as [[Hpl Hpm] _]. rewrite Ho, Z.sub_0_r.
  rewrite (u32_small (tp_len p)), (u32_small (want - len)) by lia. cbv zeta.
  set (k := if tp_len p <? want - len then tp_len p else want - len).
  assert (Hk : 0 <= k <= tp_len p /\ k <= want - len /\ (k < tp_len p -> k = want - len)) by (unfold k; destruct (Z.ltb_spec (tp_len p) (want - len)); lia).
  apply wpe_bind. eapply wpe_ok; [apply slice_run; lia|]. cbn beta. change (Z.to_nat 0) with 0%nat. rewrite drop_0.
  set (bk := take (Z.to_nat k) (tp_data p)). assert (Hbk : Z.of_nat (length bk) = k) by (unfold bk; rewrite length_take; lia).
  apply wpe_bind. destruct (ho_write cap va len bs bk (nd_env n)) as (e1 & Hrun & Hi1 & Hv1); [done..|lia|lia|].
  eapply wpe_ok; [by apply on_host_run|]. cbn beta. rewrite Z.add_0_l, (u32_small k), (u32_small (len + k)) by lia.
  assert (Hready : ready cont (p :: l) = tp_data p ++ ready (u32 (cont + tp_len p)) l) by (cbn; by rewrite (proj2 (Z.eqb_eq _ _))).
  destruct (Z.ltb_spec k (tp_len p)) as [Hkp|Hkp].
  - apply wpe_bind, wpe_modify. destruct Hk as (Hk1 & Hk2 & Hk3). specialize (Hk3 Hkp).
    destruct fuel as [|fuel]; [cbn in Hfuel; lia|]. cbn [read_tcp_loop]. apply wpe_bind. eapply wpe_read; [cbn; apply lookup_insert_eq|]. cbn beta.
    cbn [cn_recv_wait set_cn_recv]. rewrite (proj2 (Z.ltb_ge _ _)) by lia. cbn [negb]. apply wpe_ret.
    assert (Hr : take (Z.to_nat (want - len)) (ready cont (p :: l)) = bk) by (rewrite Hready, take_app_le by lia; unfold bk; by rewrite Hk3).
    specialize (HQ (set_ns_con (<[c := set_cn_recv k (p :: l) y]> (ns_con (set_nd_env e1 n))) (set_nd_env e1 n)) k (p :: l) cont). cbv zeta in HQ.
    rewrite Hr, Hbk in HQ. apply HQ; [exact Hi1|done|lia| |cbn; by rewrite Hv1]. do 2 f_equal. lia.
  - assert (k = tp_len p) as Ek by lia. assert (bk = tp_data p) as Eb by (unfold bk; rewrite take_ge; [done|lia]). rewrite Ek in *. rewrite Eb in *.
    apply wpe_bind, wpe_modify. apply wpe_bind.
    eapply (wp_free_tcp_pkt _ p l); [exact Hi1|destruct Hok; split; [done| |done]; cbn; by rewrite Hv1|].
    intros e2 Hi2 (u & Hu) Hok2. cbn in Hu.
    eapply (IH fuel _ (set_cn_recv 0 l y) (len + tp_len p) (u32 (cont + tp_len p)) (overwrite bs (Z.to_nat len) (tp_data p)));
      [exact Hi2|cbn; apply lookup_insert_eq|done|done|exact Hok2|cbn in Hfuel; lia|lia|cbn; by rewrite Hu, Hv1|cbn; rewrite Hu, Hv1; cbn; apply lookup_insert_eq| |].
    { rewrite overwrite_length; lia. }
    intros n' o l' cont' r' Hi' Hcon Ho' Hdrop Hfr. specialize (HQ n' o l' cont'). cbv zeta in HQ.
    assert (Hr : take (Z.to_nat (want - len)) (ready cont (p :: l)) = tp_data p ++ r').
    { rewrite Hready, take_app_ge by lia. do 2 f_equal. unfold r'. f_equal. lia. }
    rewrite Hr in HQ. rewrite length_app, Nat2Z.inj_add, <-Hpl, Z.add_assoc in HQ. apply HQ; [done| |done| |].
    + rewrite Hcon. cbn. rewrite insert_insert_eq. done.
    + rewrite Hdrop, Hready, drop_app_ge by lia. f_equal. lia.
    + rewrite Hfr. cbn. rewrite Hu, Hv1. cbn. rewrite insert_insert_eq. f_equal. rewrite <-overwrite_twice; [f_equal; lia|].
      unfold r'. rewrite length_take. lia.
Qed.
End stream.
