(* ===== verification/NetBind.v ===== *)
(** * The network stack: bindings

    A device has at most one binding for each protocol and port, and bindings have
    different identifiers; a request for a port that is taken is refused and changes
    nothing. *)
From S2P Require Import Prelude Bytes SList Net NetIp NetUdp NetTcp NetDev NetHost NetSum NetSend NetRecv.

Local Open Scope Z_scope.
Local Open Scope c_scope.

Definition bkey {E} (n : net_dev E) (a : Z) : option (Z * Z) :=
  x ← ns_binding n !! a; ip ← ns_ip n !! bd_proto_arg x; Some (bd_proto x, bi_port_loc ip).
Definition bid {E} (n : net_dev E) (a : Z) : option Z := bd_id <$> ns_binding n !! a.

Record binds_ok {E} `{HostOk E} (n : net_dev E) (l : list Z) : Prop := {
  bo_list : bindings n l;
  bo_keys : NoDup (bkey n <$> l);
  bo_ids : NoDup (bid n <$> l);
  bo_next : forall a i, a ∈ l -> bid n a = Some i -> i < ni_n_binding_id n;
  bo_used : forall a, is_Some (ns_binding n !! a) -> a ∈ hv_used (netv n);
  bo_used_ip : forall a, is_Some (ns_ip n !! a) -> a ∈ hv_used (netv n)
}.

Section bind.
Context {E : Type} `{HostOk E}.
Implicit Types (n : net_dev E).

Lemma bound_bkey n proto port a : bound n proto port a = true <-> bkey n a = Some (proto, port).
Proof.
  unfold bound, bkey. destruct (ns_binding n !! a) as [x|]; [|done]. cbn. destruct (ns_ip n !! _) as [ip|]; [|done]. cbn.
  rewrite andb_true_iff, !Z.eqb_eq. naive_solver.
Qed.

(** The lists of a device with the same bindings for the addresses of [l]. *)
Lemma binds_ext n n' l : (forall a, a ∈ l -> ns_binding n' !! a = ns_binding n !! a) ->
  (forall a x, a ∈ l -> ns_binding n !! a = Some x -> ns_ip n' !! bd_proto_arg x = ns_ip n !! bd_proto_arg x) ->
  ni_bindings n' = ni_bindings n -> bindings n l ->
  bindings n' l /\ (forall a, a ∈ l -> bkey n' a = bkey n a) /\ (forall a, a ∈ l -> bid n' a = bid n a).
Proof.
  intros Hb Hip Hh [Hl Hi]. split; [split|split].
  - rewrite Hh. eapply sseg_ext; [|exact Hl]. intros a Ha. unfold nxb. by rewrite Hb.
  - intros a x Ha Hx. rewrite Hb in Hx by done. rewrite (Hip a) by done. eauto.
  - intros a Ha. unfold bkey. rewrite Hb by done. destruct (ns_binding n !! a) as [x|] eqn:Hx; [|done]. cbn. by rewrite (Hip a).
  - intros a Ha. unfold bid. by rewrite Hb.
Qed.
Lemma fmap_ext_in {A B} (f g : A -> B) (l : list A) : (forall a, a ∈ l -> f a = g a) -> f <$> l = g <$> l.
Proof. intros Hfg. apply list_fmap_ext. intros i a Ha. apply Hfg. by eapply list_elem_of_lookup_2. Qed.

Lemma bindings_dom n l a : bindings n l -> a ∈ l -> exists x, ns_binding n !! a = Some x.
Proof.
  intros [Hl _] Ha. destruct (sseg_elem _ _ _ _ _ Hl Ha) as [_ [x Hx]]. unfold nxb in Hx.
  destruct (ns_binding n !! a); [by eexists|done].
Qed.

Definition bind_said n eid from (r : Z) (id : option Z) : Z * Z * net_rsp * option Z := (eid, from, R_bind r id, None).

Lemma wp_reply n eid pid rp (Q : unit -> net_dev E -> Prop) : net_inv n ->
  (forall e', ho_inv e' -> hv e' = hv_say (eid, pid, rp, None) (netv n) -> Q tt (set_nd_env e' n)) -> wp (n_reply eid pid rp) n Q.
Proof.
  intros Hi HQ. destruct (ho_reply eid pid rp (nd_env n) Hi) as (e' & Hrun & Hi' & Hv). eapply wpe_ok; [by apply on_host_run|]. by apply HQ.
Qed.

(** ip_bind for a port that is free, and for one that is not. *)
Lemma wp_ip_bind n l b x rq (Q : Z -> net_dev E -> Prop) : net_inv n -> hv_plenty (netv n) = true -> bindings n l ->
  (forall a, is_Some (ns_ip n !! a) -> a ∈ hv_used (netv n)) -> ns_binding n !! b = Some x ->
  rq_bind_proto rq = NET_proto_udp \/ rq_bind_proto rq = NET_proto_tcp ->
  ((exists a, a ∈ l /\ bkey n a = Some (rq_bind_proto rq, rq_bind_port_loc rq)) -> Q ERR n) ->
  ((forall a, a ∈ l -> bkey n a <> Some (rq_bind_proto rq, rq_bind_port_loc rq)) -> forall ip e',
     ip ∉ hv_used (netv n) -> ho_inv e' -> hv e' = hv_set_used ({[ip]} ∪ hv_used (netv n)) (netv n) ->
     Q OK (set_ns_ip (<[ip := mk_binding_ip (rq_bind_addr_loc rq) (rq_bind_port_loc rq) NIL 0 NIL 0 NIL]> (ns_ip n))
       (set_ns_binding (<[b := set_bd_proto_arg ip x]> (ns_binding n)) (set_nd_env e' n)))) ->
  wp (ip_bind rq b) n Q.
Proof.
  intros Hi Hpl Hbs Hui Hx Hproto Herr Hok. unfold ip_bind.
  destruct (find_binding_ip_run n l (rq_bind_proto rq) (rq_bind_port_loc rq) Hbs) as (r & Hr & Hc).
  apply wpe_bind. eapply wpe_ok; [exact Hr|]. cbn beta. destruct Hc as [[-> Hc]|[Hc1 Hc2]].
  2: { assert (r <> NIL) by (destruct Hbs as [Hsl _]; by destruct (sseg_elem _ _ _ _ _ Hsl Hc1)).
       rewrite (proj2 (Z.eqb_neq _ _)) by done. cbn [negb]. apply wpe_ret, Herr. exists r. by apply bound_bkey in Hc2. }
  change (NIL =? NIL) with true. cbn [negb]. apply wpe_bind. apply wp_alloc; [done|done|intros e' (Hp & _); congruence|].
  intros ip bs e' (Hp & Hu & _ & _ & Hi' & Hv). rewrite (proj2 (Z.eqb_neq _ _)) by done.
  assert (Hfree : forall a, a ∈ l -> bkey n a <> Some (rq_bind_proto rq, rq_bind_port_loc rq)).
  { intros a Ha Hk. apply bound_bkey in Hk. specialize (Hc a Ha). congruence. }
  specialize (Hok Hfree ip e' Hu Hi' Hv). unfold upd_binding. apply wpe_bind, wpe_bind. eapply wpe_read; [exact Hx|]. apply wpe_modify.
  apply wpe_bind, wpe_modify.
  lazymatch type of Hok with Q OK ?t =>
    assert (Hinit : forall f, (forall y, f y = y -> True) -> f (mk_binding_ip (rq_bind_addr_loc rq) (rq_bind_port_loc rq) NIL 0 NIL 0 NIL) = mk_binding_ip (rq_bind_addr_loc rq) (rq_bind_port_loc rq) NIL 0 NIL 0 NIL ->
      wp (let* x := get_binding b in upd_ip (bd_proto_arg x) f ;;; ret OK) t Q) end.
  { intros f _ Hf. apply wpe_bind. eapply wpe_read; [cbn; apply lookup_insert_eq|]. cbn beta. unfold upd_ip. apply wpe_bind, wpe_bind.
    eapply wpe_read; [cbn; apply lookup_insert_eq|]. cbn beta. apply wpe_modify, wpe_ret. cbn [bd_proto_arg set_bd_proto_arg]. rewrite Hf.
    lazymatch goal with |- Q _ ?s => lazymatch type of Hok with Q _ ?t => replace s with t; [exact Hok|] end end.
    unfold set_ns_ip, set_ns_binding, set_nd_env. cbn. by rewrite insert_insert_eq. }
  destruct Hproto as [-> | ->]; cbn [Z.eqb NET_proto_udp NET_proto_tcp]; by apply Hinit.
Qed.

(** A new binding at the front. *)
Lemma binds_push n n' l b x ip y : binds_ok n l -> b <> NIL -> b ∉ hv_used (netv n) -> ip ∉ hv_used (netv n) ->
  ns_binding n' !! b = Some x -> (forall a, a <> b -> ns_binding n' !! a = ns_binding n !! a) ->
  ns_ip n' !! ip = Some y -> (forall a, a <> ip -> ns_ip n' !! a = ns_ip n !! a) ->
  bd_next x = ni_bindings n -> ni_bindings n' = b -> bd_proto_arg x = ip -> bd_id x = ni_n_binding_id n ->
  ni_n_binding_id n' = ni_n_binding_id n + 1 -> hv_used (netv n') = {[ip]} ∪ ({[b]} ∪ hv_used (netv n)) ->
  (forall a, a ∈ l -> bkey n a <> Some (bd_proto x, bi_port_loc y)) ->
  binds_ok n' (b :: l) /\ (forall a, a ∈ l -> ns_binding n' !! a = ns_binding n !! a /\ bkey n' a = bkey n a) /\
  bkey n' b = Some (bd_proto x, bi_port_loc y).
Proof.
  intros [Hbs Hk Hids Hnx Hub Hui] Hb Hbu Hiu Hx Hxo Hy Hyo Hnext Hhead Harg Hid Hcnt Hused Hfree.
  assert (Hne : forall a, a ∈ l -> a <> b).
  { intros a Ha ->. destruct (bindings_dom n l b) as (z & Hz); [done|done|]. apply Hbu, Hub. by exists z. }
  assert (Hipne : forall a z, a ∈ l -> ns_binding n !! a = Some z -> bd_proto_arg z <> ip).
  { intros a z Ha Hz Heq. destruct Hbs as [_ Hbs]. destruct (Hbs a z Ha Hz) as (w & Hw). apply Hiu, Hui. exists w. by rewrite <-Heq. }
  assert (Hkb : bkey n' b = Some (bd_proto x, bi_port_loc y)) by (unfold bkey; rewrite Hx; cbn; by rewrite Harg, Hy).
  assert (Hkl : forall a, a ∈ l -> bkey n' a = bkey n a).
  { intros a Ha. unfold bkey. rewrite Hxo by auto. destruct (ns_binding n !! a) as [z|] eqn:Hz; [|done]. cbn. by rewrite Hyo by eauto. }
  assert (Hidl : forall a, a ∈ l -> bid n' a = bid n a) by (intros a Ha; unfold bid; by rewrite Hxo by auto).
  split; [|split; [|done]]. 2: { intros a Ha. split; [by apply Hxo, Hne|by apply Hkl]. }
  split.
  - destruct Hbs as [Hl Hi]. split.
    + rewrite Hhead. cbn. split_and!; [done..|]. exists (ni_bindings n). unfold nxb. rewrite Hx. cbn. rewrite Hnext. split; [done|].
      eapply sseg_ext; [|exact Hl]. intros a Ha. unfold nxb. by rewrite Hxo by auto.
    + intros a z [->|Ha]%elem_of_cons Hz; [exists y; congruence|]. rewrite Hxo in Hz by auto. destruct (Hi a z Ha Hz) as (w & Hw).
      exists w. by rewrite Hyo by eauto.
  - cbn. apply NoDup_cons. split; [|by rewrite (fmap_ext_in _ _ _ Hkl)]. rewrite Hkb. intros (a & Ha1 & Ha2)%list_elem_of_fmap.
    rewrite Hkl in Ha1 by done. by apply (Hfree a).
  - change (NoDup (bid n' b :: (bid n' <$> l))). apply NoDup_cons. split; [|by rewrite (fmap_ext_in _ _ _ Hidl)]. intros (a & Ha1 & Ha2)%list_elem_of_fmap. rewrite (Hidl a) in Ha1 by done.
    unfold bid in Ha1 at 1. rewrite Hx in Ha1. cbn in Ha1. symmetry in Ha1. specialize (Hnx a _ Ha2 Ha1). lia.
  - intros a i [->|Ha]%elem_of_cons Hai.
    + unfold bid in Hai. rewrite Hx in Hai. injection Hai as <-. lia.
    + rewrite Hidl in Hai by done. specialize (Hnx a i Ha Hai). lia.
  - intros a Ha. rewrite Hused. destruct (decide (a = b)) as [->|]; [set_solver|]. rewrite Hxo in Ha by done. specialize (Hub a Ha). set_solver.
  - intros a Ha. rewrite Hused. destruct (decide (a = ip)) as [->|]; [set_solver|]. rewrite Hyo in Ha by done. specialize (Hui a Ha). set_solver.
Qed.

(** The request for a binding. *)
Lemma wp_handle_bind n l eid from rq (Q : unit -> net_dev E -> Prop) : net_inv n -> hv_plenty (netv n) = true -> binds_ok n l ->
  0 <= ni_n_binding_id n < 2 ^ 31 - 1 -> rq_bind_proto rq = NET_proto_udp \/ rq_bind_proto rq = NET_proto_tcp ->
  (forall n', (exists a, a ∈ l /\ bkey n a = Some (rq_bind_proto rq, rq_bind_port_loc rq)) -> binds_ok n' l ->
     ns_binding n' = ns_binding n -> ns_ip n' = ns_ip n -> hv_said (netv n') = hv_said (netv n) ++ [(eid, from, R_bind ERR None, None)] -> Q tt n') ->
  (forall n' b x, (forall a, a ∈ l -> bkey n a <> Some (rq_bind_proto rq, rq_bind_port_loc rq)) -> binds_ok n' (b :: l) ->
     (forall a, a ∈ l -> ns_binding n' !! a = ns_binding n !! a /\ bkey n' a = bkey n a) ->
     ns_binding n' !! b = Some x -> bd_proc_id x = from -> bd_id x = ni_n_binding_id n -> bkey n' b = Some (rq_bind_proto rq, rq_bind_port_loc rq) ->
     hv_said (netv n') = hv_said (netv n) ++ [(eid, from, R_bind OK (Some (ni_n_binding_id n)), None)] -> Q tt n') ->
  wp (handle_bind eid from rq) n Q.
Proof.
  intros Hi Hpl [Hbs Hk Hids Hnx Hub Hui] Hn Hproto Herr Hok. unfold handle_bind. apply wpe_bind. apply wp_alloc; [done|done|intros e' (Hp & _); congruence|].
  intros b mem e1 (Hb & Hu & _ & _ & Hi1 & Hv1). rewrite (proj2 (Z.eqb_neq _ _)) by done. apply wpe_bind, wpe_get. cbv zeta.
  cbn [ni_n_binding_id set_nd_env]. rewrite s32_small by lia. apply wpe_bind, wpe_modify. apply wpe_bind, wpe_modify. cbn [ni_n_binding_id set_nd_env set_ns_binding].
  rewrite u32_small by lia. set (x0 := mk_binding NIL from (ni_n_binding_id n) (u8 (rq_bind_proto rq)) NIL). set (n1 := set_ni_n_binding_id _ _).
  assert (Hbl : b ∉ l) by (intros Hin; destruct (bindings_dom n l b) as (x & Hx); [done|done|]; apply Hu, Hub; by exists x).
  assert (Hbn : ns_binding n !! b = None) by (destruct (ns_binding n !! b) eqn:Hx; [|done]; destruct Hu; apply Hub; by eexists).
  destruct (binds_ext n n1 l) as (Hbs1 & Hk1 & Hid1); [intros a Ha; cbn; rewrite lookup_insert_ne; [done|by intros ->]|done|done|done|].
  apply wpe_bind. eapply (wp_ip_bind n1 l b x0); [exact Hi1|cbn; by rewrite Hv1|done| |cbn; apply lookup_insert_eq|done|..].
  { intros a Ha. cbn. rewrite Hv1. cbn. apply elem_of_union_r, Hui, Ha. }
  - intros (a & Ha & Hka). rewrite Hk1 in Hka by done. cbn [Z.eqb ERR OK]. change (ERR =? OK) with false. cbv iota. apply wpe_bind. unfold drop_binding.
    apply wpe_bind, wpe_modify. apply wp_free; [exact Hi1|cbn; rewrite Hv1; cbn; set_solver|]. intros e2 Hi2 Hv2. cbn in Hv2. rewrite Hv1 in Hv2. cbn in Hv2.
    apply wp_reply; [exact Hi2|]. intros e3 Hi3 Hv3. cbn in Hv3. rewrite Hv2 in Hv3.
    assert (Hsame : delete b (ns_binding n1) = ns_binding n) by (cbn; by rewrite delete_insert_id).
    apply Herr; [by exists a| |cbn; exact Hsame|done|cbn; by rewrite Hv3].
    destruct (binds_ext n (set_nd_env e3 (set_nd_env e2 (set_ns_binding (delete b (ns_binding n1)) n1))) l) as (Hbs3 & Hk3 & Hid3);
      [intros a' Ha'; cbn [ns_binding set_ns_binding set_nd_env]; by rewrite Hsame|done|done|done|].
    assert (Hused : hv_used (hv e3) = hv_used (netv n)) by (rewrite Hv3; cbn; set_solver).
    split; [exact Hbs3|by rewrite (fmap_ext_in _ _ _ Hk3)|by rewrite (fmap_ext_in _ _ _ Hid3)| | |].
    + intros a' i Ha' Hai. rewrite Hid3 in Hai by done. cbn. specialize (Hnx a' i Ha' Hai). lia.
    + intros a' Ha'. cbn [ns_binding set_ns_binding set_nd_env] in Ha'. rewrite Hsame in Ha'. cbn. rewrite Hused. by apply Hub.
    + intros a' Ha'. cbn. rewrite Hused. by apply Hui.
  - intros Hfree ip e2 Hipu Hi2 Hv2. cbn in Hv2. rewrite Hv1 in Hv2. cbn in Hv2. change (OK =? OK) with true. cbv iota. apply wpe_bind, wpe_bind, wpe_get.
    unfold upd_binding. apply wpe_bind, wpe_bind. eapply wpe_read; [cbn; apply lookup_insert_eq|]. apply wpe_modify. apply wpe_modify.
    apply wp_reply; [exact Hi2|]. intros e3 Hi3 Hv3. cbn in Hv3. rewrite Hv2 in Hv3.
  assert (Hport : u8 (rq_bind_proto rq) = rq_bind_proto rq) by (by destruct Hproto as [-> | ->]).
    match goal with |- Q tt ?s => set (n5 := s) end. destruct (binds_push n n5 l b (set_bd_next (ni_bindings n) (set_bd_proto_arg ip x0)) ip
      (mk_binding_ip (rq_bind_addr_loc rq) (rq_bind_port_loc rq) NIL 0 NIL 0 NIL)) as (Hbo & Hol & Hkb); [by split|exact Hb|exact Hu| |..].
    + cbn in Hipu. rewrite Hv1 in Hipu. cbn in Hipu. intros Hin. apply Hipu. set_solver.
    + cbn. apply lookup_insert_eq.
    + intros a Ha. cbn. by rewrite !lookup_insert_ne by done.
    + cbn. apply lookup_insert_eq.
    + intros a Ha. cbn. by rewrite lookup_insert_ne.
    + done.
    + done.
    + done.
    + done.
    + done.
    + cbn. by rewrite Hv3.
    + intros a Ha. rewrite <-Hk1 by done. cbn [bd_proto x0 set_bd_next set_bd_proto_arg bi_port_loc]. rewrite Hport. by apply Hfree.
    + eapply Hok; [|exact Hbo|exact Hol|cbn; apply lookup_insert_eq|done|done| |cbn; by rewrite Hv3].
      * intros a Ha. rewrite <-Hk1 by done. by apply Hfree.
      * rewrite Hkb. by do 2 f_equal.
Qed.
End bind.
