(* ===== verification/NetProps.v ===== *)
(** * The network stack: the properties *)
From S2P Require Import Prelude Bytes SList Net NetIp NetUdp NetTcp NetDev NetPres NetStates NetHost NetSum NetSend NetRecv NetArp NetStream NetBind.

Local Open Scope Z_scope.
Local Open Scope c_scope.

(** A binding for datagrams: the only one for its port. *)
Record udp_bound {E} (n : net_dev E) (b : Z) (x : binding) (ip : binding_ip) : Prop := {
  ub_list : exists l, bindings n l /\ b ∈ l /\ forall a, a ∈ l -> bound n NET_proto_udp (bi_port_loc ip) a = true -> a = b;
  ub_binding : ns_binding n !! b = Some x;
  ub_proto : bd_proto x = NET_proto_udp;
  ub_ip : ns_ip n !! bd_proto_arg x = Some ip;
  ub_port : 0 <= bi_port_loc ip < 2 ^ 16
}.

(** C33: What is sent with a datagram is what the other side reads.  Both devices have
    memory ([hv_plenty]), and nothing waits to be read at the binding of the receiver.  The
    [len] bytes that one client has in its frame are sent by send_udp_pkt as one packet,
    and for the process that sends nothing else changes: the memory for the packet is
    given back.  When the packet arrives at the device with its addresses, a read from the
    only binding for its port, into a frame with room for them, gives those bytes, in the
    frame of the other client, with the address and the port they came from; the memory
    the device used for them is given back, too. *)
Theorem udp_roundtrip {E1 E2} `{HostOk E1, HostOk E2} (n1 : net_dev E1) (n2 : net_dev E2)
    b1 x1 ip1 va cap1 bs1 len b2 x2 ip2 cap2 bs2 rq plen :
  dev_ok n1 -> hv_plenty (netv n1) = true -> ns_binding n1 !! b1 = Some x1 -> ns_ip n1 !! bd_proto_arg x1 = Some ip1 ->
  0 <= bi_port_loc ip1 < 2 ^ 16 -> hv_maps (netv n1) !! va = Some cap1 -> hv_frames (netv n1) !! cap1 = Some bs1 ->
  0 <= len <= Z.of_nat (length bs1) -> 28 + len < 2 ^ 16 ->
  dev_ok n2 -> hv_plenty (netv n2) = true -> pkts_used n2 -> udp_bound n2 b2 x2 ip2 -> udp_queue n2 ip2 [] -> bi_offset ip2 = 0 ->
  hv_frames (netv n2) !! cap2 = Some bs2 -> len <= rq_len rq < 2 ^ 32 -> len <= Z.of_nat (length bs2) ->
  wp (send_udp_pkt b1 (nd_mac n2) (nd_ipv4 n2) (bi_port_loc ip2) va len) n1 (fun sent n1' => sent = true /\
    exists pkt, netv n1' = hv_send pkt (netv n1) /\
    wp (net_process_pkt pkt plen ;;; ip_read_udp rq cap2 b2) n2 (fun _ n2' =>
      hv_said (netv n2') = hv_said (netv n2) ++ [(nd_mount_eid n2, bd_proc_id x2,
        R_read OK (bd_id x2) len (P_udp (nd_ipv4 n1) (bi_port_loc ip1)), Some cap2)] /\
      hv_frames (netv n2') !! cap2 = Some (overwrite bs2 0 (take (Z.to_nat len) bs1)) /\
      hv_used (netv n2') = hv_used (netv n2))).
Proof.
  intros Hdev1 Hpl1 Hb1 Hip1 Hport1 Hva Hcap1 Hlen Hmax Hdev2 Hpl2 Hpu [(l & Hbs & Hbl & Hun) Hx2 Hpr Hip2 Hport2] Hq Hoff Hcap2 Hw Hbs2.
  pose proof Hdev2 as ((Hm2 & _) & Hi2 & _). set (data := take (Z.to_nat len) bs1).
  assert (Hdata : Z.of_nat (length data) = len) by (unfold data; rewrite length_take; lia).
  eapply wp_send_udp_pkt; [done..|lia| |].
  { intros e' (He & _). congruence. }
  intros dscp e' Hds Hi' Hv. split; [done|]. eexists. split; [cbn; exact Hv|].
  pose proof Hdev1 as (Hmac1 & Hadr1 & _). apply wpe_bind.
  eapply (wp_process_udp n2 l b2 x2 ip2 [] (nd_mac n1) dscp (nd_ipv4_ident n1)); [done..| |done|done|done|done|done|done|fold data; lia|].
  { unfold bound. by rewrite Hx2, Hip2, Hpr, !Z.eqb_refl. }
  intros n3 n4 ip4 p y d E1' E2' _ Hi4 Hv4 Hpd Hyf Hyd Hp Hd Hpu4 Hdu4 Hme [(y4 & Hy4 & Hf4 & Hd4) Hip4 (_ & _ & Hoff4) Hq4 (Hbn4 & _)].
  rewrite Hyf in Hf4. rewrite Hyd in Hd4.
  eapply (wp_read_udp n4 b2 x2 ip4 rq cap2 p y4); [exact Hi4|by rewrite Hv4|by rewrite Hbn4, E1'|by rewrite Hip4, lookup_insert_eq|
    congruence|exact Hq4|exact Hy4|exact Hf4|by rewrite Hd4|rewrite Hd4, Hv4; cbn; set_solver|rewrite Hv4; cbn; set_solver|by rewrite Hd4|
    by rewrite Hv4|cbn; fold data; lia|lia|cbn; fold data; lia|cbn; fold data; lia|].
  cbn [dg_data dg_src dg_port]. fold data. rewrite Hdata. intros n5 ip5 Hs5 Hf5 Hu5 _ _. rewrite Hs5, Hf5, Hu5, Hv4, Hme, Hd4. cbn.
  split; [done|]. split; [by rewrite lookup_insert_eq|]. set_solver.
Qed.

(** C34: Writes that wait for an address are finished when the answer arrives.  This is
    where there is memory ([hv_plenty]) and where the requests for [ip] are writes
    ([answers_ok]: none is a connection that is opened; their bindings are there, their
    frames are mapped, each has its own memory), whatever the requests for other addresses
    are.  The packet of an answer from [ip] makes every write that waits for [ip] send its
    datagram to the address of the answer and answer its client, in order; exactly those
    requests are gone, and the address is known from then on. *)
Theorem arp_answer_finishes_writes {E} `{HostOk E} (n : net_dev E) mac ip tgt_mac tgt_ip plen :
  dev_ok n -> hv_plenty (netv n) = true -> nd_mac n <> broadcast -> mac_ok mac -> ip_ok ip ->
  length tgt_mac = 6%nat -> length tgt_ip = 4%nat -> 42 <= plen < 2 ^ 32 -> answers_ok n ip (ni_arp_requests n) ->
  wp (net_process_pkt (arp_pkt (nd_mac n) mac 2 mac ip tgt_mac tgt_ip) plen) n (fun _ n' =>
    ae_mac <$> find_entry ip (ni_arp_entries n') = Some mac /\
    ni_arp_requests n' = filter (fun q => aq_ip q <> ip) (ni_arp_requests n) /\
    exists pkts said,
      Forall2 (write_sent n mac) (omap (waits ip) (ni_arp_requests n)).*2 pkts /\
      Forall2 (write_said n) (omap (waits ip) (ni_arp_requests n)).*2 said /\
      hv_sent (netv n') = hv_sent (netv n) ++ pkts /\ hv_said (netv n') = hv_said (netv n) ++ said).
Proof.
  intros. apply wp_arp_answer; [done..|]. intros n' pkts said [Hk _ Hr Hp Hs E1 E2]. split; [done|]. split; [done|]. by exists pkts, said.
Qed.

(** C35: The connections of a device go through the states of [tcp_step] only.  A device
    is started and handles packets and requests, [evs], and then more, [evs'], where the
    memory that is given out for a connection is never that of another one ([run_fresh]).
    Each connection that is there in between is there at the end, in a state that steps
    lead to from the state it had; each new one is in a state that steps lead to from the
    state a new one has; and none is ever closed.  (Of runs that end: what the stack does
    for each packet and request may fault.) *)
Theorem net_connections {E} `{Host E} mount_eid mac (e e' : E) n0 n1 n2 evs evs' :
  net_init mount_eid mac e = Ok (Some n0) e' -> net_run evs n0 = Ok tt n1 -> run_fresh evs' n1 -> net_run evs' n1 = Ok tt n2 ->
  (forall c y, ns_con n1 !! c = Some y -> exists y', ns_con n2 !! c = Some y' /\ rtc tcp_step (cn_state y) (cn_state y')) /\
  (forall c y', ns_con n2 !! c = Some y' -> ns_con n1 !! c = None -> from_initial (cn_state y')) /\
  (forall c y', ns_con n2 !! c = Some y' -> cn_state y' <> TCP_state_closed).
Proof.
  intros Hi H1 Hf H2.
  assert (H0 : ns_con n0 = ∅).
  { unfold net_init, bind in Hi. destruct (h_malloc _ e) as [[i bs] e1| | |]; try done. destruct (_ =? _); [done|].
    by injection Hi as <- _. }
  assert (Hok0 : all_ok n0) by (intros c y; by rewrite H0, lookup_empty).
  destruct (net_run_moves _ _ _ H1 Hok0) as (Hok1 & _). destruct (net_run_moves _ _ _ H2 Hok1) as (Hok2 & _).
  destruct (net_run_steps _ _ _ Hok1 Hf H2) as [Hs Hn]. split; [exact Hs|]. split; [exact Hn|].
  intros c y' Hy. apply (Hok2 _ _ Hy).
Qed.

(** C36: The packet that create_ipv4_pkt builds has the fields it was asked for, in memory
    that was not in use, and a header whose checksum is right: the one's complement sum of
    its ten words ([ones_sum], [word_sum]) is all ones.  Without memory there is no packet
    and nothing changes. *)
Theorem create_ipv4_pkt_correct {E} `{HostOk E} (n : net_dev E) dst_mac dst proto len :
  dev_ok n -> length dst_mac = 6%nat -> ip_ok dst -> is_byte proto -> 0 <= len -> len + 48 < 2 ^ 32 ->
  wp (create_ipv4_pkt dst_mac dst 20 proto len) n (fun p n' =>
    match p with
    | None => hv_plenty (netv n) = false /\ netv n' = netv n
    | Some (pkt, buf) => exists dscp csum g, Z.of_nat (length g) = len + 14 /\
      buf = eth_bytes dst_mac (nd_mac n) 0x0800 ++ ipv4_hdr dscp (20 + len) (nd_ipv4_ident n) proto csum (nd_ipv4 n) dst ++ g /\
      ones_sum (word_sum (ipv4_hdr dscp (20 + len) (nd_ipv4_ident n) proto csum (nd_ipv4 n) dst)) = 0xffff /\
      nd_ipv4_ident n' = u16 (nd_ipv4_ident n + 1) /\
      pkt ∉ hv_used (netv n) /\ netv n' = hv_set_used ({[pkt]} ∪ hv_used (netv n)) (netv n)
    end).
Proof.
  intros Hdev Hm Hd Hp Hl Hmax. apply wp_create_ipv4_pkt; [done..| |].
  { intros e' (H1 & _ & H2). done. }
  intros pkt dscp g e' Hds Hg Hgb Hpn Hpu Hi Hv id. pose proof Hdev as (_ & Hni & _).
  exists dscp, (ipv4_csum dscp (20 + len) id proto (nd_ipv4 n) dst), g.
  split; [lia|]. split; [done|]. split; [by apply ipv4_hdr_sum|]. split; [done|]. split; [done|exact Hv].
Qed.

(** C37: The loop of ip_read_tcp, where nothing was read of the first packet yet
    ([cn_offset] is 0; for the other case see [read_in_parts]): it ends, it
    puts the first [want] bytes that follow each other without a gap, or all there are, into
    the frame, in order; and what the queue gives next is exactly what follows them. *)
Theorem read_tcp_correct {E} `{HostOk E} (n : net_dev E) c y va cap want bs :
  net_inv n -> ns_con n !! c = Some y -> cn_offset y = 0 -> recv_ok n (cn_recv_wait y) ->
  hv_maps (netv n) !! va = Some cap -> hv_frames (netv n) !! cap = Some bs -> 0 <= want <= Z.of_nat (length bs) -> want < 2 ^ 32 ->
  let stream := ready (cn_ack y) (cn_recv_wait y) in
  let given := take (Z.to_nat want) stream in
  wp (read_tcp_loop (S (S (length (cn_recv_wait y)))) c va want 0 (cn_ack y)) n (fun '(len, cont_ack) n' =>
    len = Z.of_nat (length given) /\
    hv_frames (netv n') !! cap = Some (overwrite bs 0 given) /\
    exists y', ns_con n' !! c = Some y' /\ 0 <= cn_offset y' /\
      drop (Z.to_nat (cn_offset y')) (ready cont_ack (cn_recv_wait y')) = drop (Z.to_nat len) stream).
Proof.
  intros Hi Hy Ho Hok Hva Hcap Hw Hw2. cbv zeta. eapply wp_read_tcp_loop; [|done|exact Hy|done|done|done|lia|lia|done|done|lia|]; [lia|].
  intros n' o l' cont' r Hi' Hcon Ho' Hdrop Hfr. unfold r in *. rewrite Z.sub_0_r in *. rewrite Z.add_0_l. split; [done|].
  split; [rewrite Hfr; apply lookup_insert_eq|]. exists (set_cn_recv o l' y). split; [rewrite Hcon; apply lookup_insert_eq|].
  split; [done|]. rewrite Nat2Z.id. exact Hdrop.
Qed.

(** C38: A request to bind a port, udp or tcp, keeps the bindings right (one for each
    protocol and port, different identifiers), where there is memory ([hv_plenty]) and
    fewer than 2^31 - 1 bindings were made so far: it is refused, and no binding changes,
    exactly when the port is taken; otherwise there is one more binding, which belongs to
    the client, and the others are as they were. *)
Theorem handle_bind_correct {E} `{HostOk E} (n : net_dev E) l eid from rq :
  net_inv n -> hv_plenty (netv n) = true -> binds_ok n l -> 0 <= ni_n_binding_id n < 2 ^ 31 - 1 ->
  rq_bind_proto rq = NET_proto_udp \/ rq_bind_proto rq = NET_proto_tcp ->
  wp (handle_bind eid from rq) n (fun _ n' =>
    (exists a, a ∈ l /\ bkey n a = Some (rq_bind_proto rq, rq_bind_port_loc rq)) /\ binds_ok n' l /\
      ns_binding n' = ns_binding n /\ ns_ip n' = ns_ip n /\
      hv_said (netv n') = hv_said (netv n) ++ [(eid, from, R_bind ERR None, None)] \/
    (forall a, a ∈ l -> bkey n a <> Some (rq_bind_proto rq, rq_bind_port_loc rq)) /\ exists b x, binds_ok n' (b :: l) /\
      (forall a, a ∈ l -> ns_binding n' !! a = ns_binding n !! a /\ bkey n' a = bkey n a) /\
      ns_binding n' !! b = Some x /\ bd_proc_id x = from /\ bd_id x = ni_n_binding_id n /\
      bkey n' b = Some (rq_bind_proto rq, rq_bind_port_loc rq) /\
      hv_said (netv n') = hv_said (netv n) ++ [(eid, from, R_bind OK (Some (ni_n_binding_id n)), None)]).
Proof.
  intros Hi Hpl Hok Hn Hp. eapply wp_handle_bind; [done..| |].
  - intros n' Ht Hb H1 H2 H3. by left.
  - intros n' b x Hf Hb Ho Hx H1 H2 H3 H4. right. split; [done|]. by exists b, x.
Qed.

(** ** Two devices
    The second has a connection, 12, in the state that is given. *)
Definition no_frags (d : list Z) (at_ len : Z) : tcp_pkt := mk_tcp_pkt at_ (at_ + 1) d len 0 0.
Definition mac_a : list Z := [2; 0; 0; 0; 0; 1].
Definition mac_b : list Z := [2; 0; 0; 0; 0; 2].
Definition ip_a : list Z := [10; 0; 0; 1].
Definition ip_b : list Z := [10; 0; 0; 2].
Definition sim_view (frames : gmap Z (list Z)) (maps : gmap Z Z) (used : list Z) : hview :=
  mk_hview true (list_to_set used) [] [] frames maps.
Definition bind_ip (ip : list Z) (port con : Z) : binding_ip := mk_binding_ip ip port NIL 1 con 0 NIL.
(** Bound to udp port 5000 (chan 321, client 3); its frame 7 is mapped at 9. *)
Definition dev_a (reqs : list arp_request) (used : list Z) : net_dev sim_host :=
  mk_net_dev 4 0xabcd mac_a ip_a [] reqs 322 1025 100 None
    {[100 := mk_binding NIL 3 321 NET_proto_udp 101]} {[101 := bind_ip ip_a 5000 NIL]} ∅ ∅
    (mk_sim 200 (sim_view {[7 := [1; 2; 3; 4]]} {[9 := 7]} (100 :: 101 :: used))).
(** Bound to udp port 53 (chan 321) and tcp port 80 (chan 322) for client 5, with frame 8. *)
Definition dev_b (con : tcp_con) : net_dev sim_host :=
  mk_net_dev 6 0x1000 mac_b ip_b [mk_arp_entry 105 ip_a mac_a] [] 323 1025 100 (Some NIL)
    {[100 := mk_binding 102 5 321 NET_proto_udp 101; 102 := mk_binding NIL 5 322 NET_proto_tcp 103]}
    {[101 := bind_ip ip_b 53 NIL; 103 := bind_ip ip_b 80 12]} {[12 := con]} ∅
    (mk_sim 200 (sim_view {[8 := [0; 0; 0; 0; 0; 0]]} {[90 := 8]} [12; 20; 21; 22; 23; 100; 101; 102; 103; 105])).
Definition con_b (s : tcp_state) (recv : list tcp_pkt) : tcp_con :=
  mk_tcp_con NIL (Some 102) 0 5000 mac_a (Some ip_a) s false 1024 1024 0 700 900 [] 0 recv.
(** Two packets that follow each other, from 700 on. *)
Definition recv_b : list tcp_pkt := [mk_tcp_pkt 20 21 [5; 6; 7] 3 700 0; mk_tcp_pkt 22 23 [8; 9] 2 703 0].
Definition le32 (x : Z) : list Z := [x mod 256; x / 256 mod 256; x / 65536 mod 256; x / 16777216].
Definition rq_read (chan len con : Z) : net_req := le32 NET_read ++ le32 chan ++ le32 len ++ le32 0 ++ le32 con.
Definition rq_bind (ip : list Z) (port proto : Z) : net_req := le32 NET_bind ++ ip ++ [port mod 256; port / 256; 0; 0] ++ le32 proto.
Definition view_of (n : net_dev sim_host) : hview := sh_view (nd_env n).

Lemma sim_inv_decide (n : net_dev sim_host) : bool_decide (0 < sh_next (nd_env n)) = true ->
  bool_decide (set_Forall (fun a => a < sh_next (nd_env n)) (hv_used (view_of n))) = true ->
  bool_decide (map_Forall (fun va (_ : Z) => va < sh_next (nd_env n)) (hv_maps (view_of n))) = true -> sim_inv (nd_env n).
Proof. intros H1%bool_decide_eq_true_1 H2%bool_decide_eq_true_1 H3%bool_decide_eq_true_1. split; [done|]. split; [exact H2|exact H3]. Qed.
Ltac sim := apply sim_inv_decide; vm_compute; reflexivity.
Lemma dev_a_ok reqs : dev_ok (dev_a reqs [150; 151; 152]).
Proof. split_and!; [..|sim]; (split; [done|]); repeat (apply Forall_cons; split; [done|]); apply Forall_nil; done. Qed.
Lemma dev_b_ok con : dev_ok (dev_b con).
Proof. split_and!; [..|sim]; (split; [done|]); repeat (apply Forall_cons; split; [done|]); apply Forall_nil; done. Qed.
Lemma dev_b_bindings con : bindings (dev_b con) [100; 102].
Proof.
  split; [vm_compute; split_and!; try done; eexists; split; [done|]; split_and!; try done; by eexists|].
  intros a x [->|[->|[]%elem_of_nil]%elem_of_cons]%elem_of_cons [= <-]; by eexists.
Qed.

(** [dev_a] sends its four bytes to [dev_b]: the frame there has them. *)
Lemma udp_roundtrip_witness : let b := dev_b (con_b TCP_state_established []) in
  exists pkt a' b', send_udp_pkt 100 mac_b ip_b 53 9 4 (dev_a [] [150; 151; 152]) = Ok true a' /\
    view_of a' = hv_send pkt (view_of (dev_a [] [150; 151; 152])) /\
    (net_process_pkt pkt 60 ;;; ip_read_udp (rq_read 321 6 0) 8 100) b = Ok tt b' /\
    hv_said (view_of b') = [(6, 5, R_read OK 321 4 (P_udp ip_a 5000), Some 8)] /\
    hv_frames (view_of b') !! 8 = Some [1; 2; 3; 4; 0; 0].
Proof.
  intros b. set (a := dev_a [] [150; 151; 152]).
  assert (Hw : wp (send_udp_pkt 100 (nd_mac b) (nd_ipv4 b) (bi_port_loc (bind_ip ip_b 53 NIL)) 9 4) a (fun sent a' => sent = true /\
    exists pkt, netv a' = hv_send pkt (netv a) /\
    wp (net_process_pkt pkt 60 ;;; ip_read_udp (rq_read 321 6 0) 8 100) b (fun _ b' =>
      hv_said (netv b') = hv_said (netv b) ++ [(nd_mount_eid b, bd_proc_id (mk_binding 102 5 321 NET_proto_udp 101),
        R_read OK 321 4 (P_udp (nd_ipv4 a) 5000), Some 8)] /\
      hv_frames (netv b') !! 8 = Some (overwrite [0; 0; 0; 0; 0; 0] 0 (take (Z.to_nat 4) [1; 2; 3; 4])) /\
      hv_used (netv b') = hv_used (netv b)))).
  { apply (udp_roundtrip a b 100 (mk_binding NIL 3 321 NET_proto_udp 101) (bind_ip ip_a 5000 NIL) 9 7 [1; 2; 3; 4] 4
      100 (mk_binding 102 5 321 NET_proto_udp 101) (bind_ip ip_b 53 NIL) 8 [0; 0; 0; 0; 0; 0] (rq_read 321 6 0) 60); try done.
    - apply dev_a_ok.
    - apply dev_b_ok.
    - intros p [? Hp]. done.
    - split; [|done..]. exists [100; 102]. split; [apply dev_b_bindings|]. split; [by left|].
      intros c [->|[->|[]%elem_of_nil]%elem_of_cons]%elem_of_cons Hc; done. }
  apply wp_inv in Hw as (sent & a' & Ha & -> & pkt & Hp & Hw). apply wp_inv in Hw as ([] & b' & Hb & Hs & Hf & _).
  exists pkt, a', b'. split; [exact Ha|]. split; [exact Hp|]. split; [exact Hb|]. split; [exact Hs|exact Hf].
Defined.

(** Two writes wait, one of them for the address that answers. *)
Definition waiting : list arp_request :=
  [mk_arp_request 150 ip_b (F_udp_write (mk_udp_write_req 151 100 7 9 4 ip_b 53));
   mk_arp_request 160 [10; 0; 0; 9] (F_udp_write (mk_udp_write_req 161 100 7 19 4 [10; 0; 0; 9] 53))].
Lemma arp_answer_finishes_writes_witness : let a := dev_a waiting [150; 151; 152] in
  wp (net_process_pkt (arp_pkt mac_a mac_b 2 mac_b ip_b mac_a ip_a) 60) a (fun _ n' =>
    ae_mac <$> find_entry ip_b (ni_arp_entries n') = Some mac_b /\
    ni_arp_requests n' = filter (fun q => aq_ip q <> ip_b) (ni_arp_requests a) /\
    exists pkts said,
      Forall2 (write_sent a mac_b) (omap (waits ip_b) (ni_arp_requests a)).*2 pkts /\
      Forall2 (write_said a) (omap (waits ip_b) (ni_arp_requests a)).*2 said /\
      hv_sent (netv n') = hv_sent (netv a) ++ pkts /\ hv_said (netv n') = hv_said (netv a) ++ said).
Proof.
  intros a. apply (arp_answer_finishes_writes a mac_b ip_b mac_a ip_a 60); try done.
  - apply dev_a_ok.
  - split; [done|]. repeat (apply Forall_cons; split; [done|]). by apply Forall_nil.
  - split; [done|]. repeat (apply Forall_cons; split; [done|]). by apply Forall_nil.
  - split.
    + apply Forall_cons. split; [intros _; by eexists|]. apply Forall_cons. split; [intros _; by eexists|]. by apply Forall_nil.
    + apply Forall_singleton. eexists _, _, _. split; [reflexivity|]. split; [reflexivity|]. split; [reflexivity|]. split; [done|]. split; [done|].
      split; [done|]. repeat (apply Forall_cons; split; [done|]). by apply Forall_nil.
    + by apply Forall_singleton.
    + cbn. apply NoDup_singleton.
    + repeat (apply Forall_cons; split; [vm_compute; reflexivity|]). by apply Forall_nil.
    + vm_compute. repeat constructor; set_solver.
Defined.

(** Bound, connected to, and sent an answer: two connections, in steps. *)
Definition rq_connect (chan : Z) (ip : list Z) (port : Z) : net_req := le32 NET_tcp_connect ++ le32 chan ++ ip ++ [port mod 256; port / 256; 0; 0].
Definition sim_new : sim_host := mk_sim 1 (sim_view ∅ ∅ []).
Definition ok_state {A} (r : outcome A unit) (d : A) : A := match r with Ok _ s => s | _ => d end.
Definition new_dev : net_dev sim_host := match net_init 4 mac_a sim_new with Ok (Some n) _ => n | _ => dev_a [] [] end.
(** The peer answers, with its address and then to the packet that opens the connection,
    and a second one is opened. *)
Definition ip_new : list Z := [192; 168; 10; 34].
Definition evs1 : list net_event := [Ev_message 4 3 (rq_bind ip_new 80 NET_proto_tcp) 0; Ev_message 4 3 (rq_connect 321 ip_b 80) 0].
Definition syn_ack : list Z := ipv4_pkt mac_a mac_b 0 7 IP_TCP ip_b ip_new
  (be16 80 ++ be16 80 ++ [0; 0; 2; 0; 0; 0; 16; 1; 0x50; 0x12; 4; 0; 0; 0; 0; 0]).
Definition evs2 : list net_event := [Ev_pkt (arp_pkt mac_a mac_b 2 mac_b ip_b mac_a ip_new) 60; Ev_pkt syn_ack 54;
  Ev_message 4 3 (rq_connect 321 ip_b 81) 0].
Lemma sim_malloc_fresh (n : net_dev sim_host) : bool_decide (ns_con n !! sh_next (nd_env n) = None) = true -> malloc_fresh n.
Proof.
  intros Hc%bool_decide_eq_true_1 a bs e'. cbn [h_malloc sim_host_ops]. unfold sim_malloc, bind, get. cbn beta iota.
  destruct (hv_plenty _); [|by intros [= <- _ _]]. by intros [= <- _ _] _.
Qed.
Lemma run_fresh_cons {E} `{Host E} ev evs (n n' : net_dev E) : malloc_fresh n -> net_event_run ev n = Ok tt n' -> run_fresh evs n' ->
  run_fresh (ev :: evs) n.
Proof. intros Hm Hr Hf. split; [done|]. by rewrite Hr. Qed.
Lemma net_connections_witness : let n1 := ok_state (net_run evs1 new_dev) new_dev in let n2 := ok_state (net_run evs2 n1) n1 in
  (cn_state <$> ns_con n1 !! 4) = Some TCP_state_syn_sent /\ (cn_state <$> ns_con n2 !! 4) = Some TCP_state_established /\
  size (ns_con n2) = 2%nat /\
  (forall c y, ns_con n1 !! c = Some y -> exists y', ns_con n2 !! c = Some y' /\ rtc tcp_step (cn_state y) (cn_state y')) /\
  (forall c y', ns_con n2 !! c = Some y' -> ns_con n1 !! c = None -> from_initial (cn_state y')) /\
  (forall c y', ns_con n2 !! c = Some y' -> cn_state y' <> TCP_state_closed).
Proof.
  intros n1 n2. split; [vm_compute; reflexivity|]. split; [vm_compute; reflexivity|]. split; [vm_compute; reflexivity|].
  apply (net_connections 4 mac_a sim_new (mk_sim 2 (sim_view ∅ ∅ [1])) new_dev n1 n2 evs1 evs2);
    [vm_compute; reflexivity|vm_compute; reflexivity| |vm_compute; reflexivity].
  repeat (eapply run_fresh_cons; [apply sim_malloc_fresh; vm_compute; reflexivity|vm_compute; reflexivity|]). exact I.
Defined.

Lemma create_ipv4_pkt_correct_witness : let a := dev_a [] [150; 151; 152] in
  wp (create_ipv4_pkt mac_b ip_b 20 IP_UDP 8) a (fun p n' =>
    match p with
    | None => hv_plenty (netv a) = false /\ netv n' = netv a
    | Some (pkt, buf) => exists dscp csum g, Z.of_nat (length g) = 8 + 14 /\
      buf = eth_bytes mac_b (nd_mac a) 0x0800 ++ ipv4_hdr dscp (20 + 8) (nd_ipv4_ident a) IP_UDP csum (nd_ipv4 a) ip_b ++ g /\
      ones_sum (word_sum (ipv4_hdr dscp (20 + 8) (nd_ipv4_ident a) IP_UDP csum (nd_ipv4 a) ip_b)) = 0xffff /\
      nd_ipv4_ident n' = u16 (nd_ipv4_ident a + 1) /\
      pkt ∉ hv_used (netv a) /\ netv n' = hv_set_used ({[pkt]} ∪ hv_used (netv a)) (netv a)
    end).
Proof.
  intros a. apply (create_ipv4_pkt_correct a mac_b ip_b IP_UDP 8); try done; [apply dev_a_ok|].
  split; [done|]. repeat (apply Forall_cons; split; [done|]). by apply Forall_nil.
Defined.

Lemma dev_b_inv con : net_inv (dev_b con).
Proof. apply dev_b_ok. Qed.
Lemma recv_b_ok con : recv_ok (dev_b con) recv_b.
Proof.
  split; [by repeat constructor|repeat (apply Forall_cons; split; [vm_compute; reflexivity|]); by apply Forall_nil|].
  vm_compute. repeat constructor; set_solver.
Qed.
Lemma read_tcp_correct_witness : let b := dev_b (con_b TCP_state_established recv_b) in
  exists len cont n', read_tcp_loop 4 12 90 4 0 700 b = Ok (len, cont) n' /\ len = 4 /\
    hv_frames (view_of n') !! 8 = Some [5; 6; 7; 8; 0; 0].
Proof.
  intros b. assert (Hw := read_tcp_correct b 12 (con_b TCP_state_established recv_b) 90 8 4 [0; 0; 0; 0; 0; 0]
    (dev_b_inv _) eq_refl eq_refl (recv_b_ok _) eq_refl eq_refl ltac:(done) eq_refl). cbv zeta in Hw.
  apply wp_inv in Hw as ([len cont] & n' & Hrun & Hlen & Hf & _). exists len, cont, n'. split; [exact Hrun|]. split; [exact Hlen|]. exact Hf.
Defined.

Lemma dev_b_binds_ok con : binds_ok (dev_b con) [100; 102].
Proof.
  split; [apply dev_b_bindings|vm_compute; repeat constructor; set_solver|vm_compute; repeat constructor; set_solver| | |].
  - intros a i [->|[->|[]%elem_of_nil]%elem_of_cons]%elem_of_cons [= <-]; done.
  - intros a [x Hx]. cbn in Hx. apply lookup_insert_Some in Hx as [[<- _]|[_ [<- _]%lookup_singleton_Some]]; vm_compute; reflexivity.
  - intros a [x Hx]. cbn in Hx. apply lookup_insert_Some in Hx as [[<- _]|[_ [<- _]%lookup_singleton_Some]]; vm_compute; reflexivity.
Qed.
(** Port 80 is taken for tcp and free for udp. *)
Lemma handle_bind_correct_witness : let b := dev_b (con_b TCP_state_established []) in
  (exists n', handle_bind 6 9 (rq_bind ip_b 80 NET_proto_tcp) b = Ok tt n' /\ hv_said (view_of n') = [(6, 9, R_bind ERR None, None)]) /\
  (exists n', handle_bind 6 9 (rq_bind ip_b 80 NET_proto_udp) b = Ok tt n' /\ hv_said (view_of n') = [(6, 9, R_bind OK (Some 323), None)]).
Proof.
  intros b. split.
  - assert (Hw := handle_bind_correct b [100; 102] 6 9 (rq_bind ip_b 80 NET_proto_tcp) (dev_b_inv _) eq_refl (dev_b_binds_ok _) ltac:(done) ltac:(by right)).
    apply wp_inv in Hw as ([] & n' & Hrun & [(_ & _ & _ & _ & Hs)|(Hf & _)]); [by exists n'|]. destruct (Hf 102); [by right; left|done].
  - assert (Hw := handle_bind_correct b [100; 102] 6 9 (rq_bind ip_b 80 NET_proto_udp) (dev_b_inv _) eq_refl (dev_b_binds_ok _) ltac:(done) ltac:(by left)).
    apply wp_inv in Hw as ([] & n' & Hrun & [((a & Ha & Hk) & _)|(_ & c & x & _ & _ & _ & _ & _ & _ & Hs)]); [|by exists n'].
    apply elem_of_cons in Ha as [->|Ha]; [done|]. apply elem_of_cons in Ha as [->|[]%elem_of_nil]. done.
Defined.
