(* ===== verification/NetFacts.v ===== *)
(** * The network stack: where it does not do what it means to

    What the devices of NetProps.v do with packets and requests that the code does not
    provide for. *)
From S2P Require Import Prelude Bytes Net NetIp NetUdp NetTcp NetDev NetStates NetHost NetSend NetProps.

Local Open Scope Z_scope.
Local Open Scope c_scope.

(** What the clients are told, when nothing goes wrong. *)
Definition said_after (m : M (net_dev sim_host) unit) (n : net_dev sim_host) : option (list (Z * Z * net_rsp * option Z)) :=
  match m n with Ok _ n' => Some (hv_said (view_of n')) | _ => None end.
Definition tcp_bytes (src_port dst_port seq ack flags : Z) (data : list Z) : list Z :=
  be16 src_port ++ be16 dst_port ++ be32 seq ++ be32 ack ++ be16 (Z.lor (Z.shiftl 5 12) flags) ++ be16 1024 ++ [0; 0; 0; 0] ++ data.
Definition tcp_to_b (src : list Z) (seq ack flags : Z) (data : list Z) : net_event :=
  Ev_pkt (ipv4_pkt mac_b mac_a 0 0 IP_TCP src ip_b (tcp_bytes 5000 80 seq ack flags data)) 60.
Definition read_b (len : Z) : net_event := Ev_message 6 5 (rq_read 322 len 0) 8.
Definition established : net_dev sim_host := dev_b (con_b TCP_state_established []).

(** A first packet from a host whose address is not known is freed twice. *)
Definition listening : net_dev sim_host :=
  mk_net_dev 6 0x1000 mac_b ip_b [] [] 323 1025 102 (Some NIL) {[102 := mk_binding NIL 5 322 NET_proto_tcp 103]}
    {[103 := mk_binding_ip ip_b 80 12 1 NIL 0 NIL]}
    {[12 := mk_tcp_con NIL None 0 0 [0; 0; 0; 0; 0; 0] None TCP_state_listen false 1024 0 0 0 0x1000 [] 0 []]} ∅
    (mk_sim 200 (sim_view ∅ ∅ [12; 102; 103])).
Lemma syn_freed_twice : net_run [tcp_to_b ip_a 1000 0 TCP_flag_syn []] listening = Fault FNil.
Proof. vm_compute. reflexivity. Qed.

(** A datagram whose length is less than that of its header is read far behind its end. *)
Lemma short_udp : net_run [Ev_pkt (ipv4_pkt mac_b mac_a 0 0 IP_UDP ip_a ip_b (be16 5000 ++ be16 53 ++ be16 4 ++ [0; 0])) 60] established = Fault FBounds.
Proof. vm_compute. reflexivity. Qed.

(** The packet that is expected next is put into the queue a second time when it comes a
    second time; behind the first one it is in the way of all that follows. *)
Lemma received_twice : said_after (net_run [tcp_to_b ip_a 700 900 TCP_flag_ack [1; 2; 3]; tcp_to_b ip_a 700 900 TCP_flag_ack [1; 2; 3];
    tcp_to_b ip_a 703 900 TCP_flag_ack [4; 5]; read_b 6; read_b 6; read_b 6]) established =
  Some [(6, 5, R_read OK 322 3 (P_tcp 0), Some 8); (6, 5, R_read OK 322 0 (P_tcp 0), Some 8); (6, 5, R_read OK 322 0 (P_tcp 0), Some 8)].
Proof. vm_compute. reflexivity. Qed.

(** A packet that is read in two parts is acknowledged by its second part only, and what
    follows it is never read. *)
Lemma read_in_parts : said_after (net_run [read_b 2; read_b 6; read_b 6]) (dev_b (con_b TCP_state_established recv_b)) =
  Some [(6, 5, R_read OK 322 2 (P_tcp 0), Some 8); (6, 5, R_read OK 322 1 (P_tcp 0), Some 8); (6, 5, R_read OK 322 0 (P_tcp 0), Some 8)].
Proof. vm_compute. reflexivity. Qed.

(** What came before the other side closed cannot be read after it. *)
Lemma unread_after_fin : said_after (net_run [tcp_to_b ip_a 700 900 TCP_flag_ack [1; 2; 3]; tcp_to_b ip_a 703 900 TCP_flag_fin []; read_b 6]) established =
  Some [(6, 5, R_read ERR 322 0 (P_tcp 0), Some 8)].
Proof. vm_compute. reflexivity. Qed.

(** Unbinding is refused while there are connections, and the binding is gone. *)
Lemma unbind_refused : match net_run [Ev_message 6 5 (le32 NET_unbind ++ le32 322) 0] established with
  | Ok _ n => (hv_said (view_of n), ns_binding n !! 102, bd_next <$> ns_binding n !! 100)
  | _ => ([], None, None)
  end = ([(6, 5, R_unbind ERR 322, None)], None, Some NIL).
Proof. vm_compute. reflexivity. Qed.

(** The last piece of a packet alone makes the packet complete; its bytes are not those of
    the piece, and the packet stays on the list of those that wait when it is freed. *)
Definition piece : list Z :=
  eth_bytes mac_b mac_a 0x0800 ++ [0x45; 0] ++ be16 30 ++ be16 7 ++ [0; 8; 0xff; IP_ICMP; 0; 0] ++ ip_a ++ ip_b ++ [1; 2; 3; 4; 5; 6; 7; 8; 9; 10].
Lemma piece_completes : match net_run [Ev_pkt piece 60] established with
  | Ok _ n => (ni_pkts n, p ← ni_pkts n; ip_next <$> ns_pkt n !! p)
  | _ => (None, None)
  end = (Some 202, None).
Proof. vm_compute. reflexivity. Qed.
Lemma piece_twice : net_run [Ev_pkt piece 60; Ev_pkt piece 60] established = Fault FNil.
Proof. vm_compute. reflexivity. Qed.
