(* ===== verification/LeBytes.v ===== *)
(** * Little-endian fields in buffers

    The words of the structures that a process keeps in memory, as the bytes they are
    made of, and what is left of a buffer when a part of it is written over. *)
From S2P Require Import Prelude Bytes.

Local Open Scope Z_scope.

Fixpoint le_bytes (n : nat) (x : Z) : list Z :=
  match n with O => [] | S n => x mod 256 :: le_bytes n (x / 256) end.
Fixpoint le_value (bs : list Z) : Z :=
  match bs with [] => 0 | b :: bs => b + 256 * le_value bs end.
Definition le32 (x : Z) : list Z := le_bytes 4 x.
Definition le64 (x : Z) : list Z := le_bytes 8 x.

(** A part of a buffer, and a buffer with a part written over. *)
Definition part (bs : list Z) (o len : Z) : list Z := take (Z.to_nat len) (drop (Z.to_nat o) bs).
Definition patch (bs : list Z) (o : Z) (b : list Z) : list Z :=
  take (Z.to_nat o) bs ++ b ++ drop (Z.to_nat o + length b) bs.
Definition word32 (bs : list Z) (o : Z) : Z := le_value (part bs o 4).
Definition word64 (bs : list Z) (o : Z) : Z := le_value (part bs o 8).
Abbreviation zlen l := (Z.of_nat (length l)).

Lemma le_bytes_length n x : length (le_bytes n x) = n.
Proof. revert x. induction n; intros; cbn; auto. Qed.

Lemma le_bytes_ok n x : Forall is_byte (le_bytes n x).
Proof. revert x. induction n; intros; cbn; constructor; [|done]. apply Z.mod_pos_bound. lia. Qed.

Lemma le_value_bytes n x : 0 <= x < 2 ^ (8 * Z.of_nat n) -> le_value (le_bytes n x) = x.
Proof.
  revert x. induction n as [|n IH]; intros x Hx; cbn [le_bytes le_value]; [cbn in Hx; lia|].
  rewrite IH; [pose proof (Z_div_mod_eq_full x 256); lia|].
  replace (8 * Z.of_nat (S n)) with (8 + 8 * Z.of_nat n) in Hx by lia. rewrite Z.pow_add_r in Hx by lia.
  split; [apply Z.div_pos; lia|]. apply Z.div_lt_upper_bound; lia.
Qed.

Lemma le_value_bound bs : Forall is_byte bs -> 0 <= le_value bs < 2 ^ (8 * Z.of_nat (length bs)).
Proof.
  induction 1 as [|b bs Hb _ IH]; [cbn; lia|]. cbn [le_value length].
  replace (8 * Z.of_nat (S (length bs))) with (8 + 8 * Z.of_nat (length bs)) by lia.
  rewrite Z.pow_add_r by lia. unfold is_byte in Hb. lia.
Qed.

Lemma length_patch bs o b : 0 <= o -> o + zlen b <= zlen bs -> length (patch bs o b) = length bs.
Proof. intros. unfold patch. rewrite !length_app, length_take, length_drop. lia. Qed.

Lemma length_part bs o len : 0 <= o -> 0 <= len -> o + len <= zlen bs -> zlen (part bs o len) = len.
Proof. intros. unfold part. rewrite length_take, length_drop. lia. Qed.

Lemma part_lookup bs o len i : 0 <= o -> (i < Z.to_nat len)%nat -> part bs o len !! i = bs !! (Z.to_nat o + i)%nat.
Proof. intros. unfold part. by rewrite lookup_take_lt, lookup_drop by lia. Qed.

Lemma patch_lookup bs o b i : 0 <= o -> o + zlen b <= zlen bs -> patch bs o b !! i =
  if decide (i < Z.to_nat o)%nat then bs !! i
  else if decide (i < Z.to_nat o + length b)%nat then b !! (i - Z.to_nat o)%nat else bs !! i.
Proof.
  intros Ho Hl. unfold patch. case_decide.
  - rewrite lookup_app_l by (rewrite length_take; lia). by rewrite lookup_take_lt by lia.
  - rewrite lookup_app_r by (rewrite length_take; lia). rewrite length_take_le by lia. case_decide.
    + by rewrite lookup_app_l by lia.
    + rewrite lookup_app_r by lia. rewrite lookup_drop. f_equal. lia.
Qed.

Lemma part_patch_same bs o b len : 0 <= o -> o + zlen b <= zlen bs -> len = zlen b -> part (patch bs o b) o len = b.
Proof.
  intros ? ? ->. unfold part, patch. rewrite drop_app_length' by (rewrite length_take; lia).
  rewrite Nat2Z.id. by rewrite take_app_length.
Qed.

Lemma part_ext bs bs' o len : 0 <= o -> length bs = length bs' ->
  (forall i, (Z.to_nat o <= i < Z.to_nat o + Z.to_nat len)%nat -> bs !! i = bs' !! i) -> part bs o len = part bs' o len.
Proof.
  intros Ho Hl H. apply list_eq. intros i. destruct (decide (i < Z.to_nat len)%nat).
  - rewrite !part_lookup by lia. apply H. lia.
  - unfold part. rewrite !lookup_take_ge by lia. done.
Qed.

Lemma part_patch_other bs o b o' len : 0 <= o -> o + zlen b <= zlen bs -> 0 <= o' -> 0 <= len ->
  o' + len <= o \/ o + zlen b <= o' -> part (patch bs o b) o' len = part bs o' len.
Proof.
  intros. apply part_ext; [lia|by apply length_patch|]. intros i Hi. rewrite patch_lookup by lia.
  repeat case_decide; [done|lia|done].
Qed.

Lemma patch_patch bs o b b' : 0 <= o -> o + zlen b <= zlen bs -> length b' = length b -> patch (patch bs o b) o b' = patch bs o b'.
Proof.
  intros Ho Hl Hb. apply list_eq. intros i. rewrite !patch_lookup by (rewrite ?length_patch; lia).
  rewrite Hb. by repeat case_decide.
Qed.

(** Writing back what is there. *)
Lemma patch_same bs o len : 0 <= o -> 0 <= len -> o + len <= zlen bs -> patch bs o (part bs o len) = bs.
Proof.
  intros. pose proof (length_part bs o len). apply list_eq. intros i. rewrite patch_lookup by lia.
  case_decide; [done|]. case_decide; [|done]. rewrite part_lookup by lia. f_equal. lia.
Qed.

Lemma patch_all bs b : length b = length bs -> patch bs 0 b = b.
Proof. intros H. unfold patch. cbn. rewrite drop_ge by lia. by rewrite app_nil_r. Qed.

Lemma part_all bs : part bs 0 (zlen bs) = bs.
Proof. unfold part. cbn. rewrite drop_0, Nat2Z.id. by apply take_ge. Qed.

Lemma Forall_patch (P : Z -> Prop) bs o b : Forall P bs -> Forall P b -> Forall P (patch bs o b).
Proof. intros. unfold patch. repeat apply Forall_app_2; auto using Forall_take, Forall_drop. Qed.

Lemma Forall_part (P : Z -> Prop) bs o len : Forall P bs -> Forall P (part bs o len).
Proof. intros. unfold part. auto using Forall_take, Forall_drop. Qed.

Lemma word32_le bs o v : 0 <= o -> o + 4 <= zlen bs -> 0 <= v < 2 ^ 32 -> word32 (patch bs o (le32 v)) o = v.
Proof.
  intros. unfold word32. rewrite part_patch_same by (unfold le32; rewrite ?le_bytes_length; lia).
  by apply (le_value_bytes 4).
Qed.

Lemma word64_le bs o v : 0 <= o -> o + 8 <= zlen bs -> 0 <= v < 2 ^ 64 -> word64 (patch bs o (le64 v)) o = v.
Proof.
  intros. unfold word64. rewrite part_patch_same by (unfold le64; rewrite ?le_bytes_length; lia).
  by apply (le_value_bytes 8).
Qed.

Lemma word32_bound bs o : Forall is_byte bs -> 0 <= word32 bs o < 2 ^ 32.
Proof.
  intros H. unfold word32. pose proof (le_value_bound (part bs o 4) (Forall_part _ _ _ _ H)) as Hb.
  split; [lia|]. apply Z.lt_le_trans with (2 ^ (8 * zlen (part bs o 4))); [lia|].
  apply Z.pow_le_mono_r; [lia|]. unfold part. rewrite length_take. lia.
Qed.

(** ** Parts one after the other *)
Lemma part_split bs o n m : 0 <= o -> 0 <= n -> 0 <= m -> part bs o (n + m) = part bs o n ++ part bs (o + n) m.
Proof.
  intros. unfold part. rewrite !Z2Nat.inj_add by lia. rewrite <-drop_drop. rewrite <-(take_drop (Z.to_nat n) (take (Z.to_nat n + Z.to_nat m) (drop (Z.to_nat o) bs))).
  rewrite take_take, Nat.min_l by lia. f_equal. rewrite skipn_firstn_comm. f_equal. lia.
Qed.

Lemma part_nil bs o : part bs o 0 = [].
Proof. done. Qed.

Lemma patch_nil bs o : patch bs o [] = bs.
Proof. unfold patch. cbn. rewrite Nat.add_0_r. apply take_drop. Qed.

Lemma part_app_l a b o len : 0 <= o -> 0 <= len -> o + len <= zlen a -> part (a ++ b) o len = part a o len.
Proof.
  intros. unfold part. rewrite drop_app_le by lia. rewrite take_app_le; [done|]. rewrite length_drop. lia.
Qed.

Lemma part_app_r a b o len : zlen a <= o -> part (a ++ b) o len = part b (o - zlen a) len.
Proof. intros. unfold part. rewrite drop_app_ge by lia. do 2 f_equal. lia. Qed.

(** What begins in [a] and goes on at the start of [b]. *)
Lemma part_app a b o n m : 0 <= o -> 0 <= n -> 0 <= m -> o + n <= zlen a -> m = 0 \/ o + n = zlen a ->
  part (a ++ b) o (n + m) = part a o n ++ part b 0 m.
Proof.
  intros. rewrite part_split by lia. rewrite part_app_l by lia. f_equal. destruct (decide (m = 0)) as [->|]; [done|].
  rewrite part_app_r by lia. f_equal. lia.
Qed.

Lemma patch_app a b o w1 w2 : 0 <= o -> o + zlen w1 <= zlen a -> w2 = [] \/ o + zlen w1 = zlen a ->
  patch (a ++ b) o (w1 ++ w2) = patch a o w1 ++ patch b 0 w2.
Proof.
  intros Ho Hl Hw. unfold patch. rewrite take_app_le by lia. rewrite <-!app_assoc. do 2 f_equal. rewrite length_app.
  destruct Hw as [->|He].
  - cbn. rewrite drop_0, Nat.add_0_r. rewrite drop_app_le by lia. done.
  - rewrite (drop_ge a (_ + _)) by lia. change (Z.to_nat 0) with 0%nat. rewrite take_0, !app_nil_l, drop_app_ge by lia. do 2 f_equal. lia.
Qed.

Lemma patch_next bs o w1 w2 : 0 <= o -> o + zlen w1 + zlen w2 <= zlen bs ->
  patch (patch bs o w1) (o + zlen w1) w2 = patch bs o (w1 ++ w2).
Proof.
  intros. apply list_eq. intros i. rewrite !patch_lookup by (rewrite ?length_patch, ?length_app; lia).
  rewrite length_app. repeat case_decide; try lia; try done.
  - by rewrite lookup_app_l by lia.
  - rewrite lookup_app_r by lia. f_equal. lia.
Qed.

(** Behind what is there. *)
Lemma patch_beyond a b o w : zlen a <= o -> patch (a ++ b) o w = a ++ patch b (o - zlen a) w.
Proof.
  intros. unfold patch. rewrite take_app_ge by lia. rewrite <-app_assoc. do 2 f_equal; [f_equal; lia|].
  f_equal. rewrite drop_app_ge by lia. f_equal. lia.
Qed.
