(* ===== verification/Block.v ===== *)
(** * Block devices: requests, the server, and the calls of a file system

    lib/block/block.c is the loop a driver of a disk runs; procs/lfs/help.c holds the
    calls a file system makes to it.  The process around a file system is an interface,
    [FsHost], and so is the one around a driver, [BlockHost], with the functions of the
    driver itself (they read and write registers). *)
From S2P Require Import Prelude Bytes LeBytes.

Local Open Scope Z_scope.
Local Open Scope c_scope.

(** include/block.h *)
Inductive block_req :=
  | BLOCK_info
  | BLOCK_read (blk n_blks off : Z)
  | BLOCK_write (blk n_blks off : Z)
  | BLOCK_other.
Inductive block_rsp :=
  | rsp_info (ret block_size nblocks : Z)
  | rsp_read (ret : Z)
  | rsp_write (ret : Z).
#[export] Instance block_rsp_eq_dec : EqDecision block_rsp.
Proof. solve_decision. Defined.

(** All answers have [ret] at the same place. *)
Definition rsp_ret (rp : block_rsp) : Z :=
  match rp with rsp_info r _ _ | rsp_read r | rsp_write r => r end.

(** ** The process of a file system
    Memory is reached through a pointer and an offset from it. *)
Class FsHost (E : Type) := {
  fh_malloc : Z -> M E (Z * list Z);
  fh_free : Z -> M E unit;
  fh_request_memory : Z -> Z -> M E Z;
  fh_release_memory : Z -> M E Z;
  fh_frame_map_anywhere : Z -> M E Z;
  fh_unmap_addr : Z -> Z -> M E Z;
  fh_load : Z -> Z -> Z -> M E (list Z);
  fh_store : Z -> Z -> list Z -> M E unit;
  fh_mesg : Z -> block_req -> M E (Z * block_rsp);
  fh_mesg_cap : Z -> block_req -> Z -> M E (Z * block_rsp)
}.

Section help.
Context {E : Type} `{FsHost E}.

Definition block_read (eid fid blk n : Z) : M E Z :=
  let* (r, rp) := fh_mesg_cap eid (BLOCK_read blk n 0) fid in
  if negb (r =? OK) then ret ERR
  else if negb (rsp_ret rp =? OK) then ret ERR
  else ret OK.

Definition block_write (eid fid blk n : Z) : M E Z :=
  let* (r, rp) := fh_mesg_cap eid (BLOCK_write blk n 0) fid in
  if negb (r =? OK) then ret ERR
  else if negb (rsp_ret rp =? OK) then ret ERR
  else ret OK.

(** The result and the size. *)
Definition block_get_block_size (eid : Z) : M E (Z * Z) :=
  let* (r, rp) := fh_mesg eid BLOCK_info in
  if negb (r =? OK) then ret (ERR, 0)
  else if negb (rsp_ret rp =? OK) then ret (ERR, 0)
  else match rp with rsp_info _ block_size _ => ret (OK, block_size) | _ => fail FBounds end.

Definition sizeof_mbr : Z := 512.
Definition PAGE_ALIGN_mbr : Z := align_up sizeof_mbr 4096.

(** A word of an entry of the table, [i] of the four. *)
Definition mbr_part (mbr i o : Z) : M E Z :=
  let* bs := fh_load mbr (446 + 16 * i + o) 4 in ret (le_value bs).

(** The result, the start and the length of the partition. *)
Definition mbr_get_partition_info (eid partition : Z) : M E (Z * Z * Z) :=
  let* (r, _) := block_get_block_size eid in
  if negb (r =? OK) then ret (ERR, 0, 0)
  else
    let len := PAGE_ALIGN_mbr in
    let* fid := fh_request_memory len 0x1000 in
    if fid <? 0 then ret (ERR, 0, 0)
    else
      let* r := block_read eid fid 0 1 in
      if negb (r =? OK) then ret (r, 0, 0)
      else
        let* mbr := fh_frame_map_anywhere fid in
        if mbr =? NIL then ret (ERR, 0, 0)
        else
          let* start := mbr_part mbr partition 8 in
          let* len := mbr_part mbr partition 12 in
          fh_unmap_addr fid mbr ;;;
          fh_release_memory fid ;;;
          ret (OK, start, len).
End help.

(** ** lib/block/block.c *)
Record block_dev := mk_block_dev {
  dv_mount_cap : Z; dv_block_size : Z; dv_nblocks : Z; dv_map_buffers : bool
}.

(** The process of a driver with the functions of its device: the type, address and
    length of a frame, or nothing; the transfer of blocks, to a pointer and an offset
    or to a physical address. *)
Class BlockHost (D : Type) := {
  bh_frame_info : Z -> M D (option (Z * Z * Z));
  bh_frame_map_anywhere : Z -> M D Z;
  bh_unmap_addr : Z -> Z -> M D Z;
  bh_reply_cap : Z -> Z -> block_rsp -> Z -> M D Z;
  bh_read_blocks_mapped : Z -> Z -> Z -> Z -> M D Z;
  bh_write_blocks_mapped : Z -> Z -> Z -> Z -> M D Z;
  bh_read_blocks : Z -> Z -> Z -> M D Z;
  bh_write_blocks : Z -> Z -> Z -> M D Z
}.

Section server.
Context {D : Type} `{BlockHost D}.

Definition handle_info (dev : block_dev) (eid from cap : Z) : M D Z :=
  bh_reply_cap eid from (rsp_info OK (dv_block_size dev) (dv_nblocks dev)) cap.

Definition handle_read (dev : block_dev) (eid from start n off cap : Z) : M D Z :=
  let* i := bh_frame_info cap in
  match i with
  | None => bh_reply_cap eid from (rsp_read ERR) cap
  | Some (_, pa, len) =>
    if u32 (len - off) <? u32 (n * dv_block_size dev) then bh_reply_cap eid from (rsp_read ERR) cap
    else if dv_map_buffers dev then
      let* addr := bh_frame_map_anywhere cap in
      if addr =? NIL then bh_reply_cap eid from (rsp_read ERR) cap
      else
        let* r := bh_read_blocks_mapped addr off start n in
        bh_unmap_addr cap addr ;;;
        bh_reply_cap eid from (rsp_read r) cap
    else
      let* r := bh_read_blocks (u32 (pa + off)) start n in
      bh_reply_cap eid from (rsp_read r) cap
  end.

Definition handle_write (dev : block_dev) (eid from start n off cap : Z) : M D Z :=
  let* i := bh_frame_info cap in
  match i with
  | None => bh_reply_cap eid from (rsp_write ERR) cap
  | Some (_, pa, len) =>
    if len <? u32 (off + u32 (n * dv_block_size dev)) then bh_reply_cap eid from (rsp_write ERR) cap
    else if dv_map_buffers dev then
      let* addr := bh_frame_map_anywhere cap in
      if addr =? NIL then bh_reply_cap eid from (rsp_write ERR) cap
      else
        let* r := bh_write_blocks_mapped addr off start n in
        bh_unmap_addr cap addr ;;;
        bh_reply_cap eid from (rsp_write r) cap
    else
      let* r := bh_write_blocks (u32 (pa + off)) start n in
      bh_reply_cap eid from (rsp_write r) cap
  end.

(** One round of the loop of block_dev_register: what recv_cap returned, the sender and
    the message; and the rounds for the messages that come.  The sender 0 is a signal. *)
Definition block_dev_round (dev : block_dev) (cap : Z) (got : Z * Z * block_req) : M D unit :=
  let '(r, from, brq) := got in
  if negb (r =? OK) then ret tt
  else if from =? 0 then ret tt
  else
    match brq with
    | BLOCK_info => handle_info dev (dv_mount_cap dev) from cap ;;; ret tt
    | BLOCK_read blk n off => handle_read dev (dv_mount_cap dev) from blk n off cap ;;; ret tt
    | BLOCK_write blk n off => handle_write dev (dv_mount_cap dev) from blk n off cap ;;; ret tt
    | BLOCK_other => ret tt
    end.
Fixpoint block_dev_register (dev : block_dev) (cap : Z) (l : list (Z * Z * block_req)) : M D unit :=
  match l with
  | [] => ret tt
  | got :: l => block_dev_round dev cap got ;;; block_dev_register dev cap l
  end.
End server.
