(* ===== verification/Lfs.v ===== *)
(** * The log-structured file system: state and metadata

    procs/lfs/lfs.h and the first half of procs/lfs/lfs.c: the superblock, the two
    checkpoints with the list of segments, and the scan of the segments for inodes.
    Segments, inodes and blocks are kept by address; what is on the disk and in mapped
    frames is bytes, read and written field by field through [FsHost]. *)
From S2P Require Import Prelude Bytes LeBytes Crc Block.

Local Open Scope Z_scope.
Local Open Scope c_scope.

Definition lfs_blk_size : Z := 4096.
Definition lfs_name_len : Z := 16.
Definition lfs_seg_blks : Z := 256.
Definition n_direct_blks : Z := 16.
Definition lfs_inode_magic : Z := 0xbf87ca93.
Definition lfs_segsum_magic : Z := 0xbf87ca92.
Definition lfs_checkpoint_magic : Z := 0xbf87ca91.
Definition lfs_superblock_magic : Z := 0xbf87ca90.
Definition lfs_blk_inode : Z := 0xffffffff.
Definition lfs_seg_free : Z := 0xffffffff.
Definition lfs_seg_end : Z := 0xfffffffe.

(** The sizes that are asked for, on a machine with words of four bytes. *)
Definition sizeof_lfs_blk : Z := 40.
Definition sizeof_lfs_inode : Z := 56.
Definition sizeof_lfs_segment : Z := 8.
Definition sizeof_lfs_b_checkpoint : Z := 20.

(** ** Structures in memory *)
Record lfs_blk := mk_lfs_blk {
  bl_inode : Z; bl_written : bool; bl_blk : Z; bl_crc : Z; bl_off : Z;
  bl_empty : bool; bl_cached : bool; bl_mem_fid : Z; bl_addr : Z; bl_bnext : Z
}.
Record lfs_inode := mk_lfs_inode {
  in_index : Z; in_created : bool; in_free : bool; in_name : list Z; in_blk_cnt : Z;
  in_len_real : Z; in_written : bool; in_inode_blk : Z; in_blks : Z; in_wnext : Z
}.
Record lfs_segment := mk_lfs_segment {
  sg_index : Z; sg_next : Z
}.
(** The array [checkpoint_blk] has two places. *)
Record lfs := mk_lfs {
  lf_blk_cid : Z; lf_part_off : Z; lf_part_len : Z; lf_sec_size : Z; lf_sec_per_blk : Z;
  lf_checkpoint_fid : Z; lf_checkpoint_blk0 : Z; lf_checkpoint_blk1 : Z; lf_checkpoint_blks : Z;
  lf_seg_start : Z;
  lf_checkpoint_timestamp : Z; lf_segsum_timestamp : Z; lf_n_segs : Z; lf_segments : Z; lf_seg_head
  : Z;
  lf_seg_tail : Z; lf_seg_free : Z; lf_n_inodes : Z; lf_inodes : Z; lf_pending : Z
}.

Definition set_lf_blk_cid v (x : lfs) : lfs :=
  mk_lfs v (lf_part_off x) (lf_part_len x) (lf_sec_size x) (lf_sec_per_blk x) (lf_checkpoint_fid x)
    (lf_checkpoint_blk0 x) (lf_checkpoint_blk1 x) (lf_checkpoint_blks x) (lf_seg_start x)
    (lf_checkpoint_timestamp x) (lf_segsum_timestamp x) (lf_n_segs x) (lf_segments x) (lf_seg_head x)
    (lf_seg_tail x) (lf_seg_free x) (lf_n_inodes x) (lf_inodes x) (lf_pending x).
Definition set_lf_part_off v (x : lfs) : lfs :=
  mk_lfs (lf_blk_cid x) v (lf_part_len x) (lf_sec_size x) (lf_sec_per_blk x) (lf_checkpoint_fid x)
    (lf_checkpoint_blk0 x) (lf_checkpoint_blk1 x) (lf_checkpoint_blks x) (lf_seg_start x)
    (lf_checkpoint_timestamp x) (lf_segsum_timestamp x) (lf_n_segs x) (lf_segments x) (lf_seg_head x)
    (lf_seg_tail x) (lf_seg_free x) (lf_n_inodes x) (lf_inodes x) (lf_pending x).
Definition set_lf_part_len v (x : lfs) : lfs :=
  mk_lfs (lf_blk_cid x) (lf_part_off x) v (lf_sec_size x) (lf_sec_per_blk x) (lf_checkpoint_fid x)
    (lf_checkpoint_blk0 x) (lf_checkpoint_blk1 x) (lf_checkpoint_blks x) (lf_seg_start x)
    (lf_checkpoint_timestamp x) (lf_segsum_timestamp x) (lf_n_segs x) (lf_segments x) (lf_seg_head x)
    (lf_seg_tail x) (lf_seg_free x) (lf_n_inodes x) (lf_inodes x) (lf_pending x).
Definition set_lf_sec_size v (x : lfs) : lfs :=
  mk_lfs (lf_blk_cid x) (lf_part_off x) (lf_part_len x) v (lf_sec_per_blk x) (lf_checkpoint_fid x)
    (lf_checkpoint_blk0 x) (lf_checkpoint_blk1 x) (lf_checkpoint_blks x) (lf_seg_start x)
    (lf_checkpoint_timestamp x) (lf_segsum_timestamp x) (lf_n_segs x) (lf_segments x) (lf_seg_head x)
    (lf_seg_tail x) (lf_seg_free x) (lf_n_inodes x) (lf_inodes x) (lf_pending x).
Definition set_lf_sec_per_blk v (x : lfs) : lfs :=
  mk_lfs (lf_blk_cid x) (lf_part_off x) (lf_part_len x) (lf_sec_size x) v (lf_checkpoint_fid x)
    (lf_checkpoint_blk0 x) (lf_checkpoint_blk1 x) (lf_checkpoint_blks x) (lf_seg_start x)
    (lf_checkpoint_timestamp x) (lf_segsum_timestamp x) (lf_n_segs x) (lf_segments x) (lf_seg_head x)
    (lf_seg_tail x) (lf_seg_free x) (lf_n_inodes x) (lf_inodes x) (lf_pending x).
Definition set_lf_checkpoint_fid v (x : lfs) : lfs :=
  mk_lfs (lf_blk_cid x) (lf_part_off x) (lf_part_len x) (lf_sec_size x) (lf_sec_per_blk x) v
    (lf_checkpoint_blk0 x) (lf_checkpoint_blk1 x) (lf_checkpoint_blks x) (lf_seg_start x)
    (lf_checkpoint_timestamp x) (lf_segsum_timestamp x) (lf_n_segs x) (lf_segments x) (lf_seg_head x)
    (lf_seg_tail x) (lf_seg_free x) (lf_n_inodes x) (lf_inodes x) (lf_pending x).
Definition set_lf_checkpoint_blk0 v (x : lfs) : lfs :=
  mk_lfs (lf_blk_cid x) (lf_part_off x) (lf_part_len x) (lf_sec_size x) (lf_sec_per_blk x) (lf_checkpoint_fid
    x) v (lf_checkpoint_blk1 x) (lf_checkpoint_blks x) (lf_seg_start x) (lf_checkpoint_timestamp x)
    (lf_segsum_timestamp x) (lf_n_segs x) (lf_segments x) (lf_seg_head x) (lf_seg_tail x) (lf_seg_free x)
    (lf_n_inodes x) (lf_inodes x) (lf_pending x).
Definition set_lf_checkpoint_blk1 v (x : lfs) : lfs :=
  mk_lfs (lf_blk_cid x) (lf_part_off x) (lf_part_len x) (lf_sec_size x) (lf_sec_per_blk x) (lf_checkpoint_fid
    x) (lf_checkpoint_blk0 x) v (lf_checkpoint_blks x) (lf_seg_start x) (lf_checkpoint_timestamp x)
    (lf_segsum_timestamp x) (lf_n_segs x) (lf_segments x) (lf_seg_head x) (lf_seg_tail x) (lf_seg_free x)
    (lf_n_inodes x) (lf_inodes x) (lf_pending x).
Definition set_lf_checkpoint_blks v (x : lfs) : lfs :=
  mk_lfs (lf_blk_cid x) (lf_part_off x) (lf_part_len x) (lf_sec_size x) (lf_sec_per_blk x) (lf_checkpoint_fid
    x) (lf_checkpoint_blk0 x) (lf_checkpoint_blk1 x) v (lf_seg_start x) (lf_checkpoint_timestamp x)
    (lf_segsum_timestamp x) (lf_n_segs x) (lf_segments x) (lf_seg_head x) (lf_seg_tail x) (lf_seg_free x)
    (lf_n_inodes x) (lf_inodes x) (lf_pending x).
Definition set_lf_seg_start v (x : lfs) : lfs :=
  mk_lfs (lf_blk_cid x) (lf_part_off x) (lf_part_len x) (lf_sec_size x) (lf_sec_per_blk x) (lf_checkpoint_fid
    x) (lf_checkpoint_blk0 x) (lf_checkpoint_blk1 x) (lf_checkpoint_blks x) v (lf_checkpoint_timestamp x)
    (lf_segsum_timestamp x) (lf_n_segs x) (lf_segments x) (lf_seg_head x) (lf_seg_tail x) (lf_seg_free x)
    (lf_n_inodes x) (lf_inodes x) (lf_pending x).
Definition set_lf_checkpoint_timestamp v (x : lfs) : lfs :=
  mk_lfs (lf_blk_cid x) (lf_part_off x) (lf_part_len x) (lf_sec_size x) (lf_sec_per_blk x) (lf_checkpoint_fid
    x) (lf_checkpoint_blk0 x) (lf_checkpoint_blk1 x) (lf_checkpoint_blks x) (lf_seg_start x) v
    (lf_segsum_timestamp x) (lf_n_segs x) (lf_segments x) (lf_seg_head x) (lf_seg_tail x) (lf_seg_free x)
    (lf_n_inodes x) (lf_inodes x) (lf_pending x).
Definition set_lf_segsum_timestamp v (x : lfs) : lfs :=
  mk_lfs (lf_blk_cid x) (lf_part_off x) (lf_part_len x) (lf_sec_size x) (lf_sec_per_blk x) (lf_checkpoint_fid
    x) (lf_checkpoint_blk0 x) (lf_checkpoint_blk1 x) (lf_checkpoint_blks x) (lf_seg_start x)
    (lf_checkpoint_timestamp x) v (lf_n_segs x) (lf_segments x) (lf_seg_head x) (lf_seg_tail x) (lf_seg_free
    x) (lf_n_inodes x) (lf_inodes x) (lf_pending x).
Definition set_lf_n_segs v (x : lfs) : lfs :=
  mk_lfs (lf_blk_cid x) (lf_part_off x) (lf_part_len x) (lf_sec_size x) (lf_sec_per_blk x) (lf_checkpoint_fid
    x) (lf_checkpoint_blk0 x) (lf_checkpoint_blk1 x) (lf_checkpoint_blks x) (lf_seg_start x)
    (lf_checkpoint_timestamp x) (lf_segsum_timestamp x) v (lf_segments x) (lf_seg_head x) (lf_seg_tail x)
    (lf_seg_free x) (lf_n_inodes x) (lf_inodes x) (lf_pending x).
Definition set_lf_segments v (x : lfs) : lfs :=
  mk_lfs (lf_blk_cid x) (lf_part_off x) (lf_part_len x) (lf_sec_size x) (lf_sec_per_blk x) (lf_checkpoint_fid
    x) (lf_checkpoint_blk0 x) (lf_checkpoint_blk1 x) (lf_checkpoint_blks x) (lf_seg_start x)
    (lf_checkpoint_timestamp x) (lf_segsum_timestamp x) (lf_n_segs x) v (lf_seg_head x) (lf_seg_tail x)
    (lf_seg_free x) (lf_n_inodes x) (lf_inodes x) (lf_pending x).
Definition set_lf_seg_head v (x : lfs) : lfs :=
  mk_lfs (lf_blk_cid x) (lf_part_off x) (lf_part_len x) (lf_sec_size x) (lf_sec_per_blk x) (lf_checkpoint_fid
    x) (lf_checkpoint_blk0 x) (lf_checkpoint_blk1 x) (lf_checkpoint_blks x) (lf_seg_start x)
    (lf_checkpoint_timestamp x) (lf_segsum_timestamp x) (lf_n_segs x) (lf_segments x) v (lf_seg_tail x)
    (lf_seg_free x) (lf_n_inodes x) (lf_inodes x) (lf_pending x).
Definition set_lf_seg_tail v (x : lfs) : lfs :=
  mk_lfs (lf_blk_cid x) (lf_part_off x) (lf_part_len x) (lf_sec_size x) (lf_sec_per_blk x) (lf_checkpoint_fid
    x) (lf_checkpoint_blk0 x) (lf_checkpoint_blk1 x) (lf_checkpoint_blks x) (lf_seg_start x)
    (lf_checkpoint_timestamp x) (lf_segsum_timestamp x) (lf_n_segs x) (lf_segments x) (lf_seg_head x) v
    (lf_seg_free x) (lf_n_inodes x) (lf_inodes x) (lf_pending x).
Definition set_lf_seg_free v (x : lfs) : lfs :=
  mk_lfs (lf_blk_cid x) (lf_part_off x) (lf_part_len x) (lf_sec_size x) (lf_sec_per_blk x) (lf_checkpoint_fid
    x) (lf_checkpoint_blk0 x) (lf_checkpoint_blk1 x) (lf_checkpoint_blks x) (lf_seg_start x)
    (lf_checkpoint_timestamp x) (lf_segsum_timestamp x) (lf_n_segs x) (lf_segments x) (lf_seg_head x)
    (lf_seg_tail x) v (lf_n_inodes x) (lf_inodes x) (lf_pending x).
Definition set_lf_n_inodes v (x : lfs) : lfs :=
  mk_lfs (lf_blk_cid x) (lf_part_off x) (lf_part_len x) (lf_sec_size x) (lf_sec_per_blk x) (lf_checkpoint_fid
    x) (lf_checkpoint_blk0 x) (lf_checkpoint_blk1 x) (lf_checkpoint_blks x) (lf_seg_start x)
    (lf_checkpoint_timestamp x) (lf_segsum_timestamp x) (lf_n_segs x) (lf_segments x) (lf_seg_head x)
    (lf_seg_tail x) (lf_seg_free x) v (lf_inodes x) (lf_pending x).
Definition set_lf_inodes v (x : lfs) : lfs :=
  mk_lfs (lf_blk_cid x) (lf_part_off x) (lf_part_len x) (lf_sec_size x) (lf_sec_per_blk x) (lf_checkpoint_fid
    x) (lf_checkpoint_blk0 x) (lf_checkpoint_blk1 x) (lf_checkpoint_blks x) (lf_seg_start x)
    (lf_checkpoint_timestamp x) (lf_segsum_timestamp x) (lf_n_segs x) (lf_segments x) (lf_seg_head x)
    (lf_seg_tail x) (lf_seg_free x) (lf_n_inodes x) v (lf_pending x).
Definition set_lf_pending v (x : lfs) : lfs :=
  mk_lfs (lf_blk_cid x) (lf_part_off x) (lf_part_len x) (lf_sec_size x) (lf_sec_per_blk x) (lf_checkpoint_fid
    x) (lf_checkpoint_blk0 x) (lf_checkpoint_blk1 x) (lf_checkpoint_blks x) (lf_seg_start x)
    (lf_checkpoint_timestamp x) (lf_segsum_timestamp x) (lf_n_segs x) (lf_segments x) (lf_seg_head x)
    (lf_seg_tail x) (lf_seg_free x) (lf_n_inodes x) (lf_inodes x) v.
Definition set_in_index v (x : lfs_inode) : lfs_inode :=
  mk_lfs_inode v (in_created x) (in_free x) (in_name x) (in_blk_cnt x) (in_len_real x) (in_written x)
    (in_inode_blk x) (in_blks x) (in_wnext x).
Definition set_in_created v (x : lfs_inode) : lfs_inode :=
  mk_lfs_inode (in_index x) v (in_free x) (in_name x) (in_blk_cnt x) (in_len_real x) (in_written x)
    (in_inode_blk x) (in_blks x) (in_wnext x).
Definition set_in_free v (x : lfs_inode) : lfs_inode :=
  mk_lfs_inode (in_index x) (in_created x) v (in_name x) (in_blk_cnt x) (in_len_real x) (in_written x)
    (in_inode_blk x) (in_blks x) (in_wnext x).
Definition set_in_name v (x : lfs_inode) : lfs_inode :=
  mk_lfs_inode (in_index x) (in_created x) (in_free x) v (in_blk_cnt x) (in_len_real x) (in_written x)
    (in_inode_blk x) (in_blks x) (in_wnext x).
Definition set_in_blk_cnt v (x : lfs_inode) : lfs_inode :=
  mk_lfs_inode (in_index x) (in_created x) (in_free x) (in_name x) v (in_len_real x) (in_written x)
    (in_inode_blk x) (in_blks x) (in_wnext x).
Definition set_in_len_real v (x : lfs_inode) : lfs_inode :=
  mk_lfs_inode (in_index x) (in_created x) (in_free x) (in_name x) (in_blk_cnt x) v (in_written x)
    (in_inode_blk x) (in_blks x) (in_wnext x).
Definition set_in_written v (x : lfs_inode) : lfs_inode :=
  mk_lfs_inode (in_index x) (in_created x) (in_free x) (in_name x) (in_blk_cnt x) (in_len_real x) v
    (in_inode_blk x) (in_blks x) (in_wnext x).
Definition set_in_inode_blk v (x : lfs_inode) : lfs_inode :=
  mk_lfs_inode (in_index x) (in_created x) (in_free x) (in_name x) (in_blk_cnt x) (in_len_real x) (in_written
    x) v (in_blks x) (in_wnext x).
Definition set_in_blks v (x : lfs_inode) : lfs_inode :=
  mk_lfs_inode (in_index x) (in_created x) (in_free x) (in_name x) (in_blk_cnt x) (in_len_real x) (in_written
    x) (in_inode_blk x) v (in_wnext x).
Definition set_in_wnext v (x : lfs_inode) : lfs_inode :=
  mk_lfs_inode (in_index x) (in_created x) (in_free x) (in_name x) (in_blk_cnt x) (in_len_real x) (in_written
    x) (in_inode_blk x) (in_blks x) v.
Definition set_bl_inode v (x : lfs_blk) : lfs_blk :=
  mk_lfs_blk v (bl_written x) (bl_blk x) (bl_crc x) (bl_off x) (bl_empty x) (bl_cached x) (bl_mem_fid x)
    (bl_addr x) (bl_bnext x).
Definition set_bl_written v (x : lfs_blk) : lfs_blk :=
  mk_lfs_blk (bl_inode x) v (bl_blk x) (bl_crc x) (bl_off x) (bl_empty x) (bl_cached x) (bl_mem_fid x)
    (bl_addr x) (bl_bnext x).
Definition set_bl_blk v (x : lfs_blk) : lfs_blk :=
  mk_lfs_blk (bl_inode x) (bl_written x) v (bl_crc x) (bl_off x) (bl_empty x) (bl_cached x) (bl_mem_fid x)
    (bl_addr x) (bl_bnext x).
Definition set_bl_crc v (x : lfs_blk) : lfs_blk :=
  mk_lfs_blk (bl_inode x) (bl_written x) (bl_blk x) v (bl_off x) (bl_empty x) (bl_cached x) (bl_mem_fid x)
    (bl_addr x) (bl_bnext x).
Definition set_bl_off v (x : lfs_blk) : lfs_blk :=
  mk_lfs_blk (bl_inode x) (bl_written x) (bl_blk x) (bl_crc x) v (bl_empty x) (bl_cached x) (bl_mem_fid x)
    (bl_addr x) (bl_bnext x).
Definition set_bl_empty v (x : lfs_blk) : lfs_blk :=
  mk_lfs_blk (bl_inode x) (bl_written x) (bl_blk x) (bl_crc x) (bl_off x) v (bl_cached x) (bl_mem_fid x)
    (bl_addr x) (bl_bnext x).
Definition set_bl_cached v (x : lfs_blk) : lfs_blk :=
  mk_lfs_blk (bl_inode x) (bl_written x) (bl_blk x) (bl_crc x) (bl_off x) (bl_empty x) v (bl_mem_fid x)
    (bl_addr x) (bl_bnext x).
Definition set_bl_mem_fid v (x : lfs_blk) : lfs_blk :=
  mk_lfs_blk (bl_inode x) (bl_written x) (bl_blk x) (bl_crc x) (bl_off x) (bl_empty x) (bl_cached x) v
    (bl_addr x) (bl_bnext x).
Definition set_bl_addr v (x : lfs_blk) : lfs_blk :=
  mk_lfs_blk (bl_inode x) (bl_written x) (bl_blk x) (bl_crc x) (bl_off x) (bl_empty x) (bl_cached x)
    (bl_mem_fid x) v (bl_bnext x).
Definition set_bl_bnext v (x : lfs_blk) : lfs_blk :=
  mk_lfs_blk (bl_inode x) (bl_written x) (bl_blk x) (bl_crc x) (bl_off x) (bl_empty x) (bl_cached x)
    (bl_mem_fid x) (bl_addr x) v.
Definition set_sg_index v (x : lfs_segment) : lfs_segment :=
  mk_lfs_segment v (sg_next x).
Definition set_sg_next v (x : lfs_segment) : lfs_segment :=
  mk_lfs_segment (sg_index x) v.

(** The file system with the process it runs in. *)
Record fs (E : Type) := mk_fs {
  fs_lfs : lfs;
  fs_segs : gmap Z lfs_segment; fs_inodes : gmap Z lfs_inode; fs_blks : gmap Z lfs_blk;
  fs_env : E
}.
Arguments mk_fs {E}.
Arguments fs_lfs {E}.
Arguments fs_segs {E}.
Arguments fs_inodes {E}.
Arguments fs_blks {E}.
Arguments fs_env {E}.

Definition checkpoint_blk (l : lfs) (idx : Z) : Z := if idx =? 0 then lf_checkpoint_blk0 l else lf_checkpoint_blk1 l.

Section lfs.
Context {E : Type} `{FsHost E}.
Implicit Types (s : fs E).
Abbreviation FM := (M (fs E)).

Definition set_fs_lfs v s : fs E := mk_fs v (fs_segs s) (fs_inodes s) (fs_blks s) (fs_env s).
Definition set_fs_segs v s : fs E := mk_fs (fs_lfs s) v (fs_inodes s) (fs_blks s) (fs_env s).
Definition set_fs_inodes v s : fs E := mk_fs (fs_lfs s) (fs_segs s) v (fs_blks s) (fs_env s).
Definition set_fs_blks v s : fs E := mk_fs (fs_lfs s) (fs_segs s) (fs_inodes s) v (fs_env s).
Definition set_fs_env v s : fs E := mk_fs (fs_lfs s) (fs_segs s) (fs_inodes s) (fs_blks s) v.

Definition env {A} (m : M E A) : FM A := zoom fs_env set_fs_env m.
Definition get_lfs : FM lfs := gets fs_lfs.
Definition upd_lfs (f : lfs -> lfs) : FM unit := modify (fun s => set_fs_lfs (f (fs_lfs s)) s).
Definition get_seg (a : Z) : FM lfs_segment := read FNil (fun s => fs_segs s !! a).
Definition get_inode (a : Z) : FM lfs_inode := read FNil (fun s => fs_inodes s !! a).
Definition get_blk (a : Z) : FM lfs_blk := read FNil (fun s => fs_blks s !! a).
Definition put_seg (a : Z) (x : lfs_segment) : FM unit := modify (fun s => set_fs_segs (<[a := x]> (fs_segs s)) s).
Definition put_inode (a : Z) (x : lfs_inode) : FM unit := modify (fun s => set_fs_inodes (<[a := x]> (fs_inodes s)) s).
Definition put_blk (a : Z) (x : lfs_blk) : FM unit := modify (fun s => set_fs_blks (<[a := x]> (fs_blks s)) s).
Definition upd_seg (a : Z) (f : lfs_segment -> lfs_segment) : FM unit := let* x := get_seg a in put_seg a (f x).
Definition upd_inode (a : Z) (f : lfs_inode -> lfs_inode) : FM unit := let* x := get_inode a in put_inode a (f x).
Definition upd_blk (a : Z) (f : lfs_blk -> lfs_blk) : FM unit := let* x := get_blk a in put_blk a (f x).

(** Fields of the structures in mapped memory. *)
Definition ld32 (p o : Z) : FM Z := let* bs := env (fh_load p o 4) in ret (le_value bs).
Definition ld64 (p o : Z) : FM Z := let* bs := env (fh_load p o 8) in ret (le_value bs).
Definition st32 (p o v : Z) : FM unit := env (fh_store p o (le32 v)).
Definition st64 (p o v : Z) : FM unit := env (fh_store p o (le64 v)).
Definition zero (p n : Z) : FM unit := env (fh_store p 0 (replicate (Z.to_nat n) 0)).
Definition checksum (p o n : Z) : FM Z := let* bs := env (fh_load p o n) in ret (crc_checksum bs).

Definition fs_request (len : Z) : FM Z := env (fh_request_memory len 0x1000).
Definition fs_release (fid : Z) : FM unit := env (fh_release_memory fid) ;;; ret tt.
Definition frame_map (fid : Z) : FM Z := env (fh_frame_map_anywhere fid).
Definition unmap (fid va : Z) : FM unit := env (fh_unmap_addr fid va) ;;; ret tt.

(** Elements of the arrays: a pointer that leaves its array is at no element. *)
Definition seg_at (l : lfs) (i : Z) : Z := lf_segments l + sizeof_lfs_segment * i.
Definition inode_at (l : lfs) (i : Z) : Z := lf_inodes l + sizeof_lfs_inode * i.

(** ** Checkpoints
    [struct lfs_b_checkpoint]: magic 0, crc 4, timestamp 8, seg_head 12, seg_tail 16,
    segs 20. *)
Definition o_segs (i : Z) : Z := 20 + 4 * i.

(** The loops over the list from [seg] and over the free segments. *)
Fixpoint fill_list (fuel : nat) (cp seg : Z) : FM unit :=
  match fuel with
  | O => nofuel
  | S fuel =>
    if seg =? NIL then ret tt
    else
      let* x := get_seg seg in
      let* next :=
        if negb (sg_next x =? NIL) then let* y := get_seg (sg_next x) in ret (sg_index y) else ret lfs_seg_end in
      st32 cp (o_segs (sg_index x)) next ;;;
      fill_list fuel cp (sg_next x)
  end.
Fixpoint fill_free (fuel : nat) (cp seg : Z) : FM unit :=
  match fuel with
  | O => nofuel
  | S fuel =>
    if seg =? NIL then ret tt
    else
      let* x := get_seg seg in
      st32 cp (o_segs (sg_index x)) lfs_seg_free ;;;
      fill_free fuel cp (sg_next x)
  end.
Definition lfs_checkpoint_fill_segs (cp : Z) : FM unit :=
  let* s := get in
  let l := fs_lfs s in
  (if negb (lf_seg_head l =? NIL) then
     let* h := get_seg (lf_seg_head l) in
     let* t := get_seg (lf_seg_tail l) in
     st32 cp 12 (sg_index h) ;;;
     st32 cp 16 (sg_index t)
   else
     st32 cp 12 lfs_seg_free ;;;
     st32 cp 16 lfs_seg_free) ;;;
  fill_list (S (size (fs_segs s))) cp (lf_seg_head l) ;;;
  fill_free (S (size (fs_segs s))) cp (lf_seg_free l).

Definition lfs_write_checkpoint : FM Z :=
  let* l := get_lfs in
  let* cp := frame_map (lf_checkpoint_fid l) in
  if cp =? NIL then ret ERR
  else
    let len := u32 (lf_checkpoint_blks l * lfs_blk_size) in
    zero cp len ;;;
    st32 cp 0 lfs_checkpoint_magic ;;;
    st32 cp 4 0 ;;;
    lfs_checkpoint_fill_segs cp ;;;
    st32 cp 8 (lf_checkpoint_timestamp l) ;;;
    let* crc := checksum cp 0 len in
    st32 cp 4 crc ;;;
    unmap (lf_checkpoint_fid l) cp ;;;
    let blk := checkpoint_blk l (lf_checkpoint_timestamp l mod 2) in
    let* r := env (block_write (lf_blk_cid l) (lf_checkpoint_fid l)
      (u32 (lf_part_off l + u32 (blk * lf_sec_per_blk l))) (u32 (lf_checkpoint_blks l * lf_sec_per_blk l))) in
    if negb (r =? OK) then ret ERR
    else
      upd_lfs (set_lf_checkpoint_timestamp (u32 (lf_checkpoint_timestamp l + 1))) ;;;
      ret OK.

Definition lfs_load_checkpoint_data (idx : Z) : FM Z :=
  let* l := get_lfs in
  let* r := env (block_read (lf_blk_cid l) (lf_checkpoint_fid l)
    (u32 (lf_part_off l + u32 (checkpoint_blk l idx * lf_sec_per_blk l)))
    (u32 (lf_checkpoint_blks l * lf_sec_per_blk l))) in
  if negb (r =? OK) then ret NIL
  else
    let* cp := frame_map (lf_checkpoint_fid l) in
    if cp =? NIL then ret NIL
    else
      let* magic := ld32 cp 0 in
      if negb (magic =? lfs_checkpoint_magic) then unmap (lf_checkpoint_fid l) cp ;;; ret NIL
      else
        let* crc_store := ld32 cp 4 in
        st32 cp 4 0 ;;;
        let* crc_expect := checksum cp 0 (u32 (lf_checkpoint_blks l * lfs_blk_size)) in
        if negb (crc_store =? crc_expect) then unmap (lf_checkpoint_fid l) cp ;;; ret NIL
        else ret cp.

(** [while (i != checkpoint->seg_tail)]: [i] stays as it is. *)
Fixpoint process_list (fuel : nat) (cp i : Z) : FM unit :=
  match fuel with
  | O => nofuel
  | S fuel =>
    let* tail := ld32 cp 16 in
    if i =? tail then ret tt
    else
      let* l := get_lfs in
      let* next := ld32 cp (o_segs i) in
      upd_seg (seg_at l i) (set_sg_next (seg_at l next)) ;;;
      process_list fuel cp i
  end.
(** The loop over the segments that are free; [f] is the last one found. *)
Fixpoint process_free (fuel : nat) (cp i f : Z) : FM unit :=
  match fuel with
  | O => nofuel
  | S fuel =>
    let* l := get_lfs in
    if negb (i <? lf_n_segs l) then ret tt
    else
      let* x := ld32 cp (o_segs i) in
      if negb (x =? lfs_seg_free) then process_free fuel cp (i + 1) f
      else
        let seg := seg_at l i in
        (if f =? NIL then upd_lfs (set_lf_seg_free seg) else upd_seg f (set_sg_next seg)) ;;;
        upd_seg seg (set_sg_next NIL) ;;;
        process_free fuel cp (i + 1) seg
  end.
Definition lfs_process_checkpoint (cp : Z) : FM Z :=
  let* l := get_lfs in
  let* head := ld32 cp 12 in
  (if head =? lfs_seg_free then
     upd_lfs (set_lf_seg_head NIL) ;;;
     upd_lfs (set_lf_seg_tail NIL)
   else
     let* tail := ld32 cp 16 in
     upd_lfs (set_lf_seg_head (seg_at l head)) ;;;
     upd_lfs (set_lf_seg_tail (seg_at l tail)) ;;;
     process_list (S (Z.to_nat (lf_n_segs l))) cp head ;;;
     let* l := get_lfs in
     upd_seg (lf_seg_tail l) (set_sg_next NIL)) ;;;
  upd_lfs (set_lf_seg_free NIL) ;;;
  process_free (S (Z.to_nat (lf_n_segs l))) cp 0 NIL ;;;
  ret OK.

(** One of the two: its timestamp, if it is valid. *)
Definition checkpoint_time (idx : Z) : FM (option Z) :=
  let* cp := lfs_load_checkpoint_data idx in
  if negb (cp =? NIL) then
    let* t := ld32 cp 8 in
    let* l := get_lfs in
    unmap (lf_checkpoint_fid l) cp ;;;
    ret (Some t)
  else ret None.
(** Which of the two to take. *)
Definition newer (t0 t1 : option Z) : option Z :=
  match t0, t1 with
  | Some t0, Some t1 =>
    if t0 =? u32 (t1 + 1) then Some 0 else if t1 =? u32 (t0 + 1) then Some 1 else None
  | Some _, None => Some 0
  | None, Some _ => Some 1
  | None, None => None
  end.
Definition lfs_load_checkpoint : FM Z :=
  let* t0 := checkpoint_time 0 in
  let* t1 := checkpoint_time 1 in
  match newer t0 t1 with
  | None => ret ERR
  | Some idx =>
    let* cp := lfs_load_checkpoint_data idx in
    if cp =? NIL then ret ERR
    else
      let* l := get_lfs in
      let* r := lfs_process_checkpoint cp in
      unmap (lf_checkpoint_fid l) cp ;;;
      ret (if negb (r =? OK) then ERR else OK)
  end.

(** ** The superblock
    [struct lfs_b_superblock]: magic 0, crc 4, n_segs 8, n_inodes 12, checkpoint_blks
    16, checkpoint_blk 20 and 24, seg_start 28. *)
Definition lfs_write_superblock : FM Z :=
  let* l := get_lfs in
  let* fid := fs_request lfs_blk_size in
  if fid <? 0 then ret fid
  else
    let* super := frame_map fid in
    if super =? NIL then fs_release fid ;;; ret ERR
    else
      zero super lfs_blk_size ;;;
      st32 super 0 lfs_superblock_magic ;;;
      st32 super 4 0 ;;;
      st32 super 8 (lf_n_segs l) ;;;
      st32 super 12 (lf_n_inodes l) ;;;
      st32 super 16 (lf_checkpoint_blks l) ;;;
      st32 super 20 (lf_checkpoint_blk0 l) ;;;
      st32 super 24 (lf_checkpoint_blk1 l) ;;;
      st32 super 28 (lf_seg_start l) ;;;
      let* crc := checksum super 0 lfs_blk_size in
      st32 super 4 crc ;;;
      unmap fid super ;;;
      let* r := env (block_write (lf_blk_cid l) fid (lf_part_off l) (lf_sec_per_blk l)) in
      fs_release fid ;;;
      ret (if negb (r =? OK) then ERR else OK).

(** A page of the disk that is mapped and has the right magic number and checksum:
    what lfs_load_superblock, lfs_scan_inode and lfs_scan_segment begin with.  Its frame
    and its place, or the code of the error: only lfs_load_superblock tells the first
    one, a refused request for memory, from ERR. *)
Definition load_page (magic sec : Z) : FM (Z + Z * Z) :=
  let* l := get_lfs in
  let* fid := fs_request lfs_blk_size in
  if fid <? 0 then ret (inl fid)
  else
    let* r := env (block_read (lf_blk_cid l) fid sec (lf_sec_per_blk l)) in
    if negb (r =? OK) then fs_release fid ;;; ret (inl ERR)
    else
      let* p := frame_map fid in
      if p =? NIL then fs_release fid ;;; ret (inl ERR)
      else
        let* m := ld32 p 0 in
        if negb (m =? magic) then unmap fid p ;;; fs_release fid ;;; ret (inl ERR)
        else
          let* crc_store := ld32 p 4 in
          st32 p 4 0 ;;;
          let* crc_expect := checksum p 0 lfs_blk_size in
          if negb (crc_store =? crc_expect) then unmap fid p ;;; fs_release fid ;;; ret (inl ERR)
          else ret (inr (fid, p)).

Definition lfs_load_superblock : FM Z :=
  let* l := get_lfs in
  let* g := load_page lfs_superblock_magic (lf_part_off l) in
  match g with
  | inl r => ret r
  | inr (fid, super) =>
    let* n_segs := ld32 super 8 in
    upd_lfs (set_lf_n_segs n_segs) ;;;
    let* n_inodes := ld32 super 12 in
    upd_lfs (set_lf_n_inodes n_inodes) ;;;
    let* blks := ld32 super 16 in
    upd_lfs (set_lf_checkpoint_blks blks) ;;;
    let* b0 := ld32 super 20 in
    upd_lfs (set_lf_checkpoint_blk0 b0) ;;;
    let* b1 := ld32 super 24 in
    upd_lfs (set_lf_checkpoint_blk1 b1) ;;;
    let* start := ld32 super 28 in
    upd_lfs (set_lf_seg_start start) ;;;
    unmap fid super ;;;
    fs_release fid ;;;
    ret OK
  end.
End lfs.
