(* ===== verification/LfsLog.v ===== *)
(** * The log-structured file system: the log

    procs/lfs/lfs.c, the part about segments: the scan when a partition is loaded, the
    arrays that are set up and freed, the formatting of a partition, and lfs_flush, which
    writes what is pending to the next free segments and then a checkpoint. *)
From S2P Require Import Prelude Bytes LeBytes Crc Block Lfs.

Local Open Scope Z_scope.
Local Open Scope c_scope.

Section log.
Context {E : Type} `{FsHost E}.
Implicit Types (s : fs E).
Abbreviation FM := (M (fs E)).

Definition fs_malloc (len : Z) : FM (Z * list Z) := env (fh_malloc len).
Definition fs_free (a : Z) : FM unit := env (fh_free a).
Definition sec_of_blk (l : lfs) (b : Z) : Z :=
  u32 (lf_part_off l + lf_seg_start l * lf_sec_per_blk l + b * lf_sec_per_blk l).

(** ** The scan
    [struct lfs_b_inode]: magic 0, crc 4, index 8, name 12, blk_cnt 28, len_real 32,
    direct 40, with a number and a checksum for each block. *)
Definition o_direct (b : Z) : Z := 40 + 8 * b.

Fixpoint scan_blks (fuel : nat) (im ib b lblk : Z) : FM Z :=
  match fuel with
  | O => nofuel
  | S fuel =>
    let* x := get_inode im in
    if negb (b <? in_blk_cnt x) then ret OK
    else
      let* (blk, _) := fs_malloc sizeof_lfs_blk in
      if blk =? NIL then ret ERR
      else
        let* num := ld32 ib (o_direct b) in
        let* crc := ld32 ib (o_direct b + 4) in
        put_blk blk (mk_lfs_blk im true num crc (u32 (b * lfs_blk_size)) ((num =? 0) && (crc =? 0)) false (-1) NIL NIL) ;;;
        (if b =? 0 then upd_inode im (set_in_blks blk) else upd_blk lblk (set_bl_bnext blk)) ;;;
        scan_blks fuel im ib (b + 1) blk
  end.
Definition lfs_scan_inode_blks (im ib : Z) : FM Z :=
  let* x := get_inode im in
  scan_blks (S (Z.to_nat (in_blk_cnt x))) im ib 0 NIL.

Definition lfs_scan_inode (blk : Z) : FM Z :=
  let* l := get_lfs in
  let* g := load_page lfs_inode_magic (sec_of_blk l blk) in
  match g with
  | inl _ => ret ERR
  | inr (fid, inode) =>
    let* index := ld32 inode 8 in
    let im := inode_at l index in
    upd_inode im (set_in_created true) ;;;
    upd_inode im (set_in_free false) ;;;
    let* name := env (fh_load inode 12 lfs_name_len) in
    upd_inode im (set_in_name name) ;;;
    let* cnt := ld32 inode 28 in
    upd_inode im (set_in_blk_cnt cnt) ;;;
    let* len := ld64 inode 32 in
    upd_inode im (set_in_len_real len) ;;;
    upd_inode im (set_in_inode_blk blk) ;;;
    let* r := lfs_scan_inode_blks im inode in
    unmap fid inode ;;;
    fs_release fid ;;;
    ret (if negb (r =? OK) then ERR else OK)
  end.

(** [struct lfs_b_segsum]: magic 0, crc 4, timestamp 8, blk_cnt 12, blk_inode 16. *)
Definition o_blk_inode (i : Z) : Z := 16 + 4 * i.

Fixpoint scan_loop (fuel : nat) (fid segsum index i : Z) : FM Z :=
  match fuel with
  | O => nofuel
  | S fuel =>
    let* cnt := ld32 segsum 12 in
    if negb (i <? cnt) then unmap fid segsum ;;; fs_release fid ;;; ret OK
    else
      let* x := ld32 segsum (o_blk_inode i) in
      if x =? lfs_blk_inode then
        let* r := lfs_scan_inode (u32 (index * lfs_seg_blks + 1 + i)) in
        if negb (r =? OK) then unmap fid segsum ;;; fs_release fid ;;; ret ERR
        else scan_loop fuel fid segsum index (i + 1)
      else scan_loop fuel fid segsum index (i + 1)
  end.
(** Entries beyond the page are outside of the mapping, so that its words are rounds enough. *)
Definition lfs_scan_segment (seg : Z) : FM Z :=
  let* l := get_lfs in
  let* x := get_seg seg in
  let* g := load_page lfs_segsum_magic (sec_of_blk l (sg_index x * lfs_seg_blks)) in
  match g with
  | inl _ => ret ERR
  | inr (fid, segsum) => scan_loop 1024 fid segsum (sg_index x) 0
  end.
Fixpoint scan_segs (fuel : nat) (seg : Z) : FM Z :=
  match fuel with
  | O => nofuel
  | S fuel =>
    if seg =? NIL then ret OK
    else
      let* r := lfs_scan_segment seg in
      if negb (r =? OK) then ret ERR
      else let* x := get_seg seg in scan_segs fuel (sg_next x)
  end.
Definition lfs_scan : FM Z :=
  let* s := get in
  scan_segs (S (size (fs_segs s))) (lf_seg_head (fs_lfs s)).

(** ** Set up and freed *)
Definition lfs_blk_free (blk : Z) : FM unit :=
  let* x := get_blk blk in
  (if negb (bl_addr x =? NIL) then unmap (bl_mem_fid x) (bl_addr x) else ret tt) ;;;
  (if 0 <? bl_mem_fid x then fs_release (bl_mem_fid x) else ret tt) ;;;
  fs_free blk ;;;
  modify (fun s => set_fs_blks (delete blk (fs_blks s)) s).
(** The loops that free a list of blocks. *)
Fixpoint free_blks (fuel : nat) (n : Z) : FM unit :=
  match fuel with
  | O => nofuel
  | S fuel =>
    if n =? NIL then ret tt
    else
      let* x := get_blk n in
      lfs_blk_free n ;;;
      free_blks fuel (bl_bnext x)
  end.
Definition free_blk_list (n : Z) : FM unit := let* s := get in free_blks (S (size (fs_blks s))) n.

Fixpoint free_inodes (fuel : nat) (i : Z) : FM unit :=
  match fuel with
  | O => nofuel
  | S fuel =>
    let* l := get_lfs in
    if negb (i <? lf_n_inodes l) then ret tt
    else
      let* x := get_inode (inode_at l i) in
      (if in_created x then free_blk_list (in_blks x) else ret tt) ;;;
      free_inodes fuel (i + 1)
  end.
(** The addresses of the elements of an array, which end to be objects when it is freed. *)
Definition array (base size n : Z) : list Z := (fun i => base + size * i) <$> seqZ 0 n.
Definition drop_all {A} (l : list Z) (m : gmap Z A) : gmap Z A := foldr delete m l.

Definition lfs_free : FM unit :=
  let* l := get_lfs in
  (if 0 <=? lf_checkpoint_fid l then fs_release (lf_checkpoint_fid l) else ret tt) ;;;
  (if negb (lf_segments l =? NIL) then
     fs_free (lf_segments l) ;;;
     modify (fun s => set_fs_segs (drop_all (array (lf_segments l) sizeof_lfs_segment (lf_n_segs l)) (fs_segs s)) s)
   else ret tt) ;;;
  (if negb (lf_inodes l =? NIL) then
     free_inodes (S (Z.to_nat (lf_n_inodes l))) 0 ;;;
     fs_free (lf_inodes l) ;;;
     modify (fun s => set_fs_inodes (drop_all (array (lf_inodes l) sizeof_lfs_inode (lf_n_inodes l)) (fs_inodes s)) s)
   else ret tt) ;;;
  upd_lfs (set_lf_checkpoint_fid (-1)) ;;;
  upd_lfs (set_lf_segments NIL) ;;;
  upd_lfs (set_lf_inodes NIL).

(** What a fresh array holds: the bytes that were there. *)
Definition raw_seg (bs : list Z) : lfs_segment := mk_lfs_segment (word32 bs 0) (word32 bs 4).
Definition raw_inode (bs : list Z) : lfs_inode :=
  mk_lfs_inode (word32 bs 0) (bool_decide (znth bs 4 <> Some 0)) (bool_decide (znth bs 5 <> Some 0)) (part bs 6 16)
    (word32 bs 24) (word64 bs 32) (bool_decide (znth bs 40 <> Some 0)) (word32 bs 44) (word32 bs 48) (word32 bs 52).
Definition raw_array {A} (raw : list Z -> A) (base size n : Z) (bs : list Z) (m : gmap Z A) : gmap Z A :=
  foldr (fun i m => <[base + size * i := raw (part bs (size * i) size)]> m) m (seqZ 0 n).

Fixpoint init_segs (fuel : nat) (i f : Z) : FM unit :=
  match fuel with
  | O => nofuel
  | S fuel =>
    let* l := get_lfs in
    if negb (i <? lf_n_segs l) then ret tt
    else
      let seg := seg_at l i in
      upd_seg seg (set_sg_index i) ;;;
      (if f =? NIL then upd_lfs (set_lf_seg_free seg) else upd_seg f (set_sg_next seg)) ;;;
      upd_seg seg (set_sg_next NIL) ;;;
      init_segs fuel (i + 1) seg
  end.
Definition new_inode (i : Z) (x : lfs_inode) : lfs_inode :=
  mk_lfs_inode i false true (replicate 16 0) 0 0 (in_written x) 0 NIL (in_wnext x).
Fixpoint init_inodes (fuel : nat) (i : Z) : FM unit :=
  match fuel with
  | O => nofuel
  | S fuel =>
    let* l := get_lfs in
    if negb (i <? lf_n_inodes l) then ret tt
    else
      upd_inode (inode_at l i) (new_inode i) ;;;
      init_inodes fuel (i + 1)
  end.
Definition lfs_init : FM Z :=
  let* l := get_lfs in
  let* fid := fs_request (u32 (lf_checkpoint_blks l * lfs_blk_size)) in
  upd_lfs (set_lf_checkpoint_fid fid) ;;;
  if fid <? 0 then lfs_free ;;; let* l := get_lfs in ret (lf_checkpoint_fid l)
  else
    let* (segs, bs) := fs_malloc (u32 (sizeof_lfs_segment * lf_n_segs l)) in
    upd_lfs (set_lf_segments segs) ;;;
    if segs =? NIL then lfs_free ;;; ret ERR
    else
      modify (fun s => set_fs_segs (raw_array raw_seg segs sizeof_lfs_segment (lf_n_segs l) bs (fs_segs s)) s) ;;;
      let* (inodes, bs) := fs_malloc (u32 (sizeof_lfs_inode * lf_n_inodes l)) in
      upd_lfs (set_lf_inodes inodes) ;;;
      if inodes =? NIL then lfs_free ;;; ret ERR
      else
        modify (fun s => set_fs_inodes (raw_array raw_inode inodes sizeof_lfs_inode (lf_n_inodes l) bs (fs_inodes s)) s) ;;;
        upd_lfs (set_lf_seg_head NIL) ;;;
        upd_lfs (set_lf_seg_tail NIL) ;;;
        upd_lfs (set_lf_seg_free NIL) ;;;
        init_segs (S (Z.to_nat (lf_n_segs l))) 0 NIL ;;;
        init_inodes (S (Z.to_nat (lf_n_inodes l))) 0 ;;;
        ret OK.

(** [sec_size] does not change when the size is not told. *)
Definition lfs_setup (blk_cid part_off part_len : Z) : FM Z :=
  upd_lfs (set_lf_blk_cid blk_cid) ;;;
  upd_lfs (set_lf_part_off part_off) ;;;
  upd_lfs (set_lf_part_len part_len) ;;;
  upd_lfs (set_lf_checkpoint_fid (-1)) ;;;
  upd_lfs (set_lf_segments NIL) ;;;
  upd_lfs (set_lf_inodes NIL) ;;;
  let* (r, size) := env (block_get_block_size blk_cid) in
  if negb (r =? OK) then ret ERR
  else
    upd_lfs (set_lf_sec_size size) ;;;
    if size =? 0 then fail FBounds
    else
      upd_lfs (set_lf_sec_per_blk (lfs_blk_size / size)) ;;;
      ret OK.

Definition lfs_load : FM Z :=
  let* r := lfs_load_superblock in
  if negb (r =? OK) then ret ERR
  else
    let* r := lfs_init in
    if negb (r =? OK) then ret ERR
    else
      let* r := lfs_load_checkpoint in
      if negb (r =? OK) then ret ERR
      else
        let* r := lfs_scan in
        ret (if negb (r =? OK) then ERR else OK).

(** ** Formatting
    The numbers that the length of the partition gives: seg_start, checkpoint_blks and
    n_segs. *)
Definition seg_bytes : Z := lfs_seg_blks * lfs_blk_size.
Definition layout (part_len sec_size : Z) : Z * Z * Z :=
  let start := lfs_seg_blks in
  let useful_len := u32 (part_len * sec_size - start * lfs_blk_size) in
  let n_segs_tent := useful_len / seg_bytes in
  let checkpoint_size := align_up (u32 (sizeof_lfs_b_checkpoint + 4 + 4 * n_segs_tent)) lfs_blk_size in
  let start :=
    if seg_bytes <? u32 (checkpoint_size * 2 + lfs_blk_size)
    then align_up (u32 (checkpoint_size * 2 + lfs_blk_size)) seg_bytes / lfs_blk_size else start in
  let useful_len := align_down (u32 (part_len * sec_size - start * lfs_blk_size)) seg_bytes in
  (start, checkpoint_size / lfs_blk_size, useful_len / seg_bytes).

Fixpoint zero_blks (fuel : nat) (fid idx o : Z) : FM Z :=
  match fuel with
  | O => nofuel
  | S fuel =>
    let* l := get_lfs in
    if negb (o <? lf_checkpoint_blks l) then ret OK
    else
      let blk := u32 (checkpoint_blk l idx + o) in
      let* r := env (block_write (lf_blk_cid l) fid (u32 (lf_part_off l + u32 (blk * lf_sec_per_blk l))) (lf_sec_per_blk l)) in
      if negb (r =? OK) then fs_release fid ;;; ret ERR
      else zero_blks fuel fid idx (o + 1)
  end.
Definition lfs_format : FM Z :=
  lfs_free ;;;
  let* l := get_lfs in
  let '(start, blks, n_segs) := layout (lf_part_len l) (lf_sec_size l) in
  upd_lfs (set_lf_seg_start start) ;;;
  upd_lfs (set_lf_checkpoint_blks blks) ;;;
  upd_lfs (set_lf_n_segs n_segs) ;;;
  upd_lfs (set_lf_n_inodes (u32 (n_segs * (lfs_seg_blks - 1)) / 2)) ;;;
  upd_lfs (set_lf_checkpoint_timestamp 0) ;;;
  upd_lfs (set_lf_segsum_timestamp 0) ;;;
  upd_lfs (set_lf_checkpoint_blk0 1) ;;;
  upd_lfs (set_lf_checkpoint_blk1 (u32 (1 + blks))) ;;;
  let* fid := fs_request lfs_blk_size in
  if fid <? 0 then ret ERR
  else
    let* va := frame_map fid in
    if va =? NIL then fs_release fid ;;; ret ERR
    else
      zero va lfs_blk_size ;;;
      unmap fid va ;;;
      let* r := zero_blks (S (Z.to_nat blks)) fid 0 0 in
      if negb (r =? OK) then ret ERR
      else
        let* r := zero_blks (S (Z.to_nat blks)) fid 1 0 in
        if negb (r =? OK) then ret ERR
        else
          fs_release fid ;;;
          let* r := lfs_init in
          if negb (r =? OK) then ret ERR
          else
            let* r := lfs_write_superblock in
            if negb (r =? OK) then ret ERR
            else
              let* r := lfs_write_checkpoint in
              ret (if negb (r =? OK) then ERR else OK).

(** ** Flushing *)
Definition lfs_get_free_seg : FM Z :=
  let* l := get_lfs in
  let* x := get_seg (lf_seg_free l) in
  upd_lfs (set_lf_seg_free (sg_next x)) ;;;
  ret (lf_seg_free l).

(** The numbers of the blocks, from the [n]th on; [buf] and [o] are the place of the inode. *)
Fixpoint fill_direct (fuel : nat) (buf o n blk : Z) : FM Z :=
  match fuel with
  | O => nofuel
  | S fuel =>
    if blk =? NIL then ret OK
    else
      let* x := get_blk blk in
      let num := if bl_empty x then 0 else bl_blk x in
      let crc := if bl_empty x then 0 else bl_crc x in
      if n <? n_direct_blks then
        st32 buf (o + o_direct n) num ;;;
        st32 buf (o + o_direct n + 4) crc ;;;
        fill_direct fuel buf o (n + 1) (bl_bnext x)
      else ret ERR
  end.
Definition lfs_fill_inode (inode buf o : Z) : FM Z :=
  let* x := get_inode inode in
  st32 buf (o + 0) lfs_inode_magic ;;;
  st32 buf (o + 4) 0 ;;;
  st32 buf (o + 8) (in_index x) ;;;
  env (fh_store buf (o + 12) (in_name x)) ;;;
  st32 buf (o + 28) (in_blk_cnt x) ;;;
  st64 buf (o + 32) (in_len_real x) ;;;
  let* r := fill_direct (S (S (Z.to_nat n_direct_blks))) buf o 0 (in_blks x) in
  if negb (r =? OK) then ret ERR
  else
    let* crc := checksum buf o lfs_blk_size in
    st32 buf (o + 4) crc ;;;
    ret OK.

(** Not called by the rest. *)
Definition lfs_fill_blk (blk buf o blk_index : Z) : FM Z :=
  let* x := get_blk blk in
  let* crc := checksum (bl_addr x) 0 lfs_blk_size in
  upd_blk blk (set_bl_crc crc) ;;;
  upd_blk blk (set_bl_blk blk_index) ;;;
  let* bs := env (fh_load (bl_addr x) 0 lfs_blk_size) in
  env (fh_store buf o bs) ;;;
  ret OK.

(** The blocks of an inode that are to be written; true at the end of the segment. *)
Fixpoint fill_blks (fuel : nat) (seg s max_blks inode blk : Z) : FM bool :=
  match fuel with
  | O => nofuel
  | S fuel =>
    if blk =? NIL then ret false
    else
      let* x := get_blk blk in
      let* cnt := ld32 s 12 in
      if cnt =? max_blks then ret true
      else
        (if negb (bl_written x) && negb (bl_empty x) then
           let* crc := checksum (bl_addr x) 0 lfs_blk_size in
           upd_blk blk (set_bl_crc crc) ;;;
           let* g := get_seg seg in
           upd_blk blk (set_bl_blk (u32 (sg_index g * lfs_seg_blks + (1 + cnt)))) ;;;
           let* bs := env (fh_load (bl_addr x) 0 lfs_blk_size) in
           env (fh_store s ((1 + cnt) * lfs_blk_size) bs) ;;;
           let* i := get_inode inode in
           st32 s (o_blk_inode cnt) (in_index i) ;;;
           st32 s 12 (u32 (cnt + 1)) ;;;
           upd_blk blk (set_bl_written true)
         else ret tt) ;;;
        fill_blks fuel seg s max_blks inode (bl_bnext x)
  end.
(** What is pending, up to the end of the segment. *)
Fixpoint fill_pending (fuel : nat) (seg s max_blks : Z) : FM Z :=
  match fuel with
  | O => nofuel
  | S fuel =>
    let* t := get in
    let inode := lf_pending (fs_lfs t) in
    if inode =? NIL then ret OK
    else
      let* cnt := ld32 s 12 in
      if cnt =? max_blks then ret OK
      else
        let* x := get_inode inode in
        let* full := fill_blks (S (size (fs_blks t))) seg s max_blks inode (in_blks x) in
        if (full : bool) then ret OK
        else
          let* cnt := ld32 s 12 in
          if cnt =? max_blks then ret OK
          else
            let* r := lfs_fill_inode inode s ((cnt + 1) * lfs_blk_size) in
            if negb (r =? OK) then ret ERR
            else
              st32 s (o_blk_inode cnt) lfs_blk_inode ;;;
              st32 s 12 (u32 (cnt + 1)) ;;;
              let* x := get_inode inode in
              upd_lfs (set_lf_pending (in_wnext x)) ;;;
              fill_pending fuel seg s max_blks
  end.
Definition lfs_fill_seg (seg s max_blks : Z) : FM Z :=
  st32 s 0 lfs_segsum_magic ;;;
  st32 s 4 0 ;;;
  let* l := get_lfs in
  st32 s 8 (lf_segsum_timestamp l) ;;;
  upd_lfs (set_lf_segsum_timestamp (u32 (lf_segsum_timestamp l + 1))) ;;;
  st32 s 12 0 ;;;
  let* t := get in
  let* r := fill_pending (S (size (fs_inodes t))) seg s max_blks in
  if negb (r =? OK) then ret ERR
  else
    let* crc := checksum s 0 lfs_blk_size in
    st32 s 4 crc ;;;
    ret OK.

(** One round of the loop of lfs_flush. *)
Definition flush_seg : FM Z :=
  let* seg := lfs_get_free_seg in
  if seg =? NIL then ret ERR
  else
    let* l := get_lfs in
    let* index :=
      if lf_seg_tail l =? NIL then ret 0 else let* t := get_seg (lf_seg_tail l) in ret (u32 (sg_index t + 1)) in
    upd_seg seg (set_sg_index index) ;;;
    let* fid := fs_request seg_bytes in
    if fid <? 0 then ret fid
    else
      let* p := frame_map fid in
      if p =? NIL then fs_release fid ;;; ret ERR
      else
        let* r := lfs_fill_seg seg p (lfs_seg_blks - 1) in
        if negb (r =? OK) then unmap fid p ;;; fs_release fid ;;; ret ERR
        else
          let* blk_cnt := ld32 p 12 in
          unmap fid p ;;;
          let* g := get_seg seg in
          let* r := env (block_write (lf_blk_cid l) fid (sec_of_blk l (sg_index g * lfs_seg_blks))
            (u32 ((1 + blk_cnt) * lf_sec_per_blk l))) in
          if negb (r =? OK) then fs_release fid ;;; ret ERR
          else
            fs_release fid ;;;
            (if lf_seg_tail l =? NIL then
               upd_lfs (set_lf_seg_head seg) ;;;
               upd_lfs (set_lf_seg_tail seg)
             else
               upd_seg (lf_seg_tail l) (set_sg_next seg) ;;;
               upd_lfs (set_lf_seg_tail seg)) ;;;
            upd_seg seg (set_sg_next NIL) ;;;
            ret OK.
Fixpoint flush_loop (fuel : nat) : FM Z :=
  match fuel with
  | O => nofuel
  | S fuel =>
    let* l := get_lfs in
    if lf_pending l =? NIL then ret OK
    else
      let* r := flush_seg in
      if negb (r =? OK) then ret r else flush_loop fuel
  end.
(** Each round ends with the segment full or with nothing pending. *)
Definition lfs_flush : FM Z :=
  let* s := get in
  let* r := flush_loop (S (size (fs_inodes s) + size (fs_blks s))) in
  if negb (r =? OK) then ret r
  else
    let* r := lfs_write_checkpoint in
    ret (if negb (r =? OK) then ERR else OK).
End log.
