(* ===== verification/LfsFile.v ===== *)
(** * The log-structured file system: files

    procs/lfs/lfs.c, the part that works on files: the table of inodes, which is open to
    probing, the list of what is pending, the blocks of a file and their cache, and
    lfs_create, lfs_rm, lfs_write, lfs_read and lfs_trunc. *)
From S2P Require Import Prelude Bytes LeBytes Crc Block Lfs LfsLog.

Local Open Scope Z_scope.
Local Open Scope c_scope.

Definition align_down64 (x a : Z) : Z := Z.land x (u64 (Z.lnot (a - 1))).

Section file.
Context {E : Type} `{FsHost E}.
Implicit Types (s : fs E).
Abbreviation FM := (M (fs E)).

(** ** The table of inodes *)
Definition name_sum (name : list Z) : Z := foldl (fun sum b => u32 (sum + b)) 0 name.
(** A division by zero has no value. *)
Definition lfs_hash (name : list Z) : FM Z :=
  let* l := get_lfs in
  if lf_n_inodes l =? 0 then fail FBounds else ret (name_sum name mod lf_n_inodes l).

Fixpoint find_loop (fuel : nat) (name : list Z) (creating : bool) (h i : Z) : FM Z :=
  match fuel with
  | O => nofuel
  | S fuel =>
    let* l := get_lfs in
    let inode := inode_at l i in
    let* x := get_inode inode in
    let next :=
      let i := u32 (i + 1) mod lf_n_inodes l in
      if negb (i =? h) then find_loop fuel name creating h i else ret NIL in
    if creating then if in_free x || negb (in_created x) then ret inode else next
    else if in_free x then ret NIL
    else if in_created x && bool_decide (in_name x = name) then ret inode
    else next
  end.
Definition lfs_find_inode (name : list Z) (creating : bool) : FM Z :=
  let* h := lfs_hash name in
  let* l := get_lfs in
  find_loop (S (Z.to_nat (lf_n_inodes l))) name creating h h.

(** ** What is pending
    The place of a pointer: [pending] of the file system, or [wnext] of an inode. *)
Definition get_pending (prev : Z) : FM Z :=
  if prev =? NIL then let* l := get_lfs in ret (lf_pending l) else let* x := get_inode prev in ret (in_wnext x).
Definition put_pending (prev v : Z) : FM unit :=
  if prev =? NIL then upd_lfs (set_lf_pending v) else upd_inode prev (set_in_wnext v).
Fixpoint remove_loop (fuel : nat) (prev inode : Z) : FM unit :=
  match fuel with
  | O => nofuel
  | S fuel =>
    let* o := get_pending prev in
    if o =? NIL then ret tt
    else if o =? inode then let* x := get_inode inode in put_pending prev (in_wnext x)
    else remove_loop fuel o inode
  end.
Definition lfs_remove_pending (inode : Z) : FM unit :=
  let* s := get in remove_loop (S (size (fs_inodes s))) NIL inode.
Definition lfs_add_pending (inode : Z) : FM unit :=
  lfs_remove_pending inode ;;;
  let* l := get_lfs in
  upd_inode inode (set_in_wnext (lf_pending l)) ;;;
  upd_lfs (set_lf_pending inode).

Definition lfs_create (name : list Z) : FM Z :=
  let* inode := lfs_find_inode name false in
  if negb (inode =? NIL) then ret ERR
  else
    let* inode := lfs_find_inode name true in
    if inode =? NIL then ret ERR
    else
      let* x := get_inode inode in
      put_inode inode (mk_lfs_inode (in_index x) true false name 0 0 false 0 NIL (in_wnext x)) ;;;
      lfs_add_pending inode ;;;
      ret OK.

Definition lfs_rm (name : list Z) : FM Z :=
  let* inode := lfs_find_inode name false in
  if inode =? NIL then ret ERR
  else
    let* x := get_inode inode in
    free_blk_list (in_blks x) ;;;
    upd_inode inode (set_in_blks NIL) ;;;
    upd_inode inode (set_in_blk_cnt 0) ;;;
    upd_inode inode (set_in_created false) ;;;
    lfs_add_pending inode ;;;
    ret OK.

(** ** Blocks *)
(** [mem_fid], [addr] and [bnext] are what the memory held. *)
Definition lfs_create_blk (inode off : Z) : FM Z :=
  let* (b, bs) := fs_malloc sizeof_lfs_blk in
  if b =? NIL then ret NIL
  else
    put_blk b (mk_lfs_blk inode false 0 0 off true false (s32 (word32 bs 28)) (word32 bs 32) (word32 bs 36)) ;;;
    ret b.

(** The place of a pointer to a block: [blks] of the inode, or [bnext] of a block. *)
Definition get_blks_at (inode prev : Z) : FM Z :=
  if prev =? NIL then let* x := get_inode inode in ret (in_blks x) else let* x := get_blk prev in ret (bl_bnext x).
Definition put_blks_at (inode prev v : Z) : FM unit :=
  if prev =? NIL then upd_inode inode (set_in_blks v) else upd_blk prev (set_bl_bnext v).

Definition more_blks (x : lfs_inode) : lfs_inode := set_in_blk_cnt (u32 (in_blk_cnt x + 1)) x.
Fixpoint get_blk_loop (fuel : nat) (inode prev off : Z) (add : bool) : FM Z :=
  match fuel with
  | O => nofuel
  | S fuel =>
    let* b := get_blks_at inode prev in
    let* b :=
      if b =? NIL then
        if add then
          let* n := lfs_create_blk inode off in
          if n =? NIL then ret NIL
          else
            upd_inode inode more_blks ;;;
            upd_blk n (set_bl_bnext b) ;;;
            put_blks_at inode prev n ;;;
            ret n
        else ret NIL
      else ret b in
    if b =? NIL then ret NIL
    else if off =? 0 then ret b
    else get_blk_loop fuel inode b (u64 (off - lfs_blk_size)) add
  end.
Definition lfs_inode_get_blk (inode off : Z) (add : bool) : FM Z :=
  if negb (align_down64 off lfs_blk_size =? off) then ret NIL
  else
    let* x := get_inode inode in
    if negb add && (u32 (in_blk_cnt x * lfs_blk_size) <? off) then ret NIL
    else get_blk_loop (S (Z.to_nat (off / lfs_blk_size))) inode NIL off add.

(** A checksum that is wrong ends with [return nil], which is OK. *)
Definition lfs_cache_blk (blk : Z) : FM Z :=
  let* x := get_blk blk in
  if bl_cached x then ret OK
  else
    let* fid := fs_request lfs_blk_size in
    upd_blk blk (set_bl_mem_fid fid) ;;;
    if fid <? 0 then ret fid
    else
      let* l := get_lfs in
      let* r :=
        if negb (bl_empty x) then
          env (block_read (lf_blk_cid l) fid (sec_of_blk l (bl_blk x)) (lf_sec_per_blk l))
        else ret OK in
      if negb (r =? OK) then
        fs_release fid ;;;
        upd_blk blk (set_bl_mem_fid (-1)) ;;;
        ret ERR
      else
        let* addr := frame_map fid in
        upd_blk blk (set_bl_addr addr) ;;;
        if addr =? NIL then
          fs_release fid ;;;
          upd_blk blk (set_bl_mem_fid (-1)) ;;;
          ret ERR
        else
          if negb (bl_empty x) then
            let* crc := checksum addr 0 lfs_blk_size in
            if negb (crc =? bl_crc x) then
              unmap fid addr ;;;
              fs_release fid ;;;
              upd_blk blk (set_bl_addr NIL) ;;;
              upd_blk blk (set_bl_mem_fid (-1)) ;;;
              ret NIL
            else upd_blk blk (set_bl_cached true) ;;; ret OK
          else
            zero addr lfs_blk_size ;;;
            upd_blk blk (set_bl_cached true) ;;;
            ret OK.

(** ** Reading and writing
    [len] bytes are taken from the buffer of the caller from [pos] on. *)
Definition from_buf (buf : list Z) (pos n : Z) : FM (list Z) :=
  read FBounds (fun _ => if pos + n <=? zlen buf then Some (part buf pos n) else None).

Definition in_this_blk (b_off len : Z) : Z :=
  if lfs_blk_size <? u64 (b_off + len) then u32 (lfs_blk_size - b_off) else len.

(** The offset behind what was written, or the error. *)
Fixpoint write_loop (fuel : nat) (inode b : Z) (buf : list Z) (pos off b_off len : Z) : FM (Z + Z) :=
  match fuel with
  | O => nofuel
  | S fuel =>
    if negb (0 <? len) then ret (inr off)
    else if b =? NIL then ret (inl ERR)
    else
      let* r := lfs_cache_blk b in
      if negb (r =? OK) then ret (inl ERR)
      else
        let n := in_this_blk b_off len in
        upd_blk b (set_bl_empty false) ;;;
        upd_blk b (set_bl_written false) ;;;
        let* x := get_blk b in
        let* bs := from_buf buf pos n in
        env (fh_store (bl_addr x) b_off bs) ;;;
        let off := u64 (off + n) in
        let len := u32 (len - n) in
        (if (bl_bnext x =? NIL) && (0 <? len) then
           let* c := lfs_create_blk inode off in
           upd_blk b (set_bl_bnext c) ;;;
           if negb (c =? NIL) then upd_inode inode more_blks else ret tt
         else ret tt) ;;;
        let* x := get_blk b in
        write_loop fuel inode (bl_bnext x) buf (pos + n) off 0 len
  end.
Definition lfs_write (name buf : list Z) (off len : Z) : FM Z :=
  let* inode := lfs_find_inode name false in
  if inode =? NIL then ret ERR
  else
    let aligned_off := align_down64 off lfs_blk_size in
    let* b := lfs_inode_get_blk inode aligned_off true in
    if b =? NIL then ret ERR
    else
      let* r := write_loop (S (Z.to_nat len)) inode b buf 0 off (u64 (off - aligned_off)) len in
      match r with
      | inl r => ret r
      | inr off =>
        let* x := get_inode inode in
        (if in_len_real x <? off then upd_inode inode (set_in_len_real off) else ret tt) ;;;
        lfs_add_pending inode ;;;
        ret OK
      end.

(** The result and the buffer. *)
Fixpoint read_loop (fuel : nat) (b : Z) (buf : list Z) (pos b_off len : Z) : FM (Z * list Z) :=
  match fuel with
  | O => nofuel
  | S fuel =>
    if negb (0 <? len) then ret (OK, buf)
    else if b =? NIL then ret (ERR, buf)
    else
      let* r := lfs_cache_blk b in
      if negb (r =? OK) then ret (ERR, buf)
      else
        let n := in_this_blk b_off len in
        let* x := get_blk b in
        let* bs := env (fh_load (bl_addr x) b_off n) in
        if zlen buf <? pos + n then fail FBounds
        else read_loop fuel (bl_bnext x) (patch buf pos bs) (pos + n) 0 (u32 (len - n))
  end.
Definition lfs_read (name buf : list Z) (off len : Z) : FM (Z * list Z) :=
  let* inode := lfs_find_inode name false in
  if inode =? NIL then ret (ERR, buf)
  else
    let* x := get_inode inode in
    if in_len_real x <? u64 (off + len) then ret (ERR, buf)
    else
      let aligned_off := align_down64 off lfs_blk_size in
      let* b := lfs_inode_get_blk inode aligned_off false in
      if b =? NIL then ret (ERR, buf)
      else read_loop (S (Z.to_nat len)) b buf 0 (u64 (off - aligned_off)) len.

Fixpoint trunc_loop (fuel : nat) (inode prev len : Z) : FM unit :=
  match fuel with
  | O => nofuel
  | S fuel =>
    let* b := get_blks_at inode prev in
    if b =? NIL then ret tt
    else
      let* x := get_blk b in
      if len <=? bl_off x then
        free_blk_list b ;;;
        put_blks_at inode prev NIL
      else
        upd_inode inode more_blks ;;;
        trunc_loop fuel inode b len
  end.
Definition lfs_trunc (name : list Z) (len : Z) : FM Z :=
  let* inode := lfs_find_inode name false in
  if inode =? NIL then ret ERR
  else
    let* x := get_inode inode in
    if in_len_real x <? len then ret ERR
    else if len =? in_len_real x then ret OK
    else
      upd_inode inode (set_in_len_real len) ;;;
      upd_inode inode (set_in_blk_cnt 0) ;;;
      let* s := get in
      trunc_loop (S (size (fs_blks s))) inode NIL len ;;;
      lfs_add_pending inode ;;;
      ret OK.
End file.
