(* ===== verification/FsHostSim.v ===== *)
(** * The process around a file system, and a disk

    [FsHostOk] is what a file system relies on: memory that is given out is not in use,
    frames hold what was written to them, and the disk gives back what was written to it.
    No request is refused: what is done when one is, is in the model and not here.
    [sim] is a process with a disk in memory behind the server of Block.v that has it. *)
From S2P Require Import Prelude Bytes LeBytes Block.

Local Open Scope Z_scope.
Local Open Scope c_scope.

(** What can be seen of the process: the blocks of memory in use with their lengths,
    whether they come filled with zeros, the frames, the places they are mapped to, the
    disk with the size of its sectors, and the writes to it, each with its first byte. *)
Record fview := mk_fview {
  fv_used : gmap Z Z; fv_clean : bool; fv_frames : gmap Z (list Z); fv_maps : gmap Z Z;
  fv_disk : list Z; fv_sec : Z; fv_writes : list (Z * list Z)
}.
Definition set_fv_used u v := mk_fview u (fv_clean v) (fv_frames v) (fv_maps v) (fv_disk v) (fv_sec v) (fv_writes v).
Definition set_fv_frames f v := mk_fview (fv_used v) (fv_clean v) f (fv_maps v) (fv_disk v) (fv_sec v) (fv_writes v).
Definition set_fv_maps m v := mk_fview (fv_used v) (fv_clean v) (fv_frames v) m (fv_disk v) (fv_sec v) (fv_writes v).
Definition fv_write (o : Z) (bs : list Z) v :=
  mk_fview (fv_used v) (fv_clean v) (fv_frames v) (fv_maps v) (patch (fv_disk v) o bs) (fv_sec v) (fv_writes v ++ [(o, bs)]).

(** Memory that meets nothing in use. *)
Definition fresh_range (u : gmap Z Z) (a len : Z) : Prop :=
  0 < a /\ forall b n, u !! b = Some n -> b + n <= a \/ a + len <= b.

Class FsHostOk (E : Type) `{FsHost E} := {
  fv : E -> fview;
  fo_inv : E -> Prop;
  fo_malloc len e : fo_inv e -> 0 < len -> exists a bs e', fh_malloc len e = Ok (a, bs) e' /\ fo_inv e' /\
    fresh_range (fv_used (fv e)) a len /\ zlen bs = len /\ Forall is_byte bs /\
    (fv_clean (fv e) = true -> Forall (eq 0) bs) /\ fv e' = set_fv_used (<[a := len]> (fv_used (fv e))) (fv e);
  fo_free a e : fo_inv e -> is_Some (fv_used (fv e) !! a) -> exists e', fh_free a e = Ok tt e' /\ fo_inv e' /\
    fv e' = set_fv_used (delete a (fv_used (fv e))) (fv e);
  fo_request len e : fo_inv e -> 0 < len < 2 ^ 32 -> exists fid bs e', fh_request_memory len 0x1000 e = Ok fid e' /\ fo_inv e' /\
    0 < fid /\ fv_frames (fv e) !! fid = None /\ (forall va, fv_maps (fv e) !! va <> Some fid) /\ zlen bs = len /\ Forall is_byte bs /\
    fv e' = set_fv_frames (<[fid := bs]> (fv_frames (fv e))) (fv e);
  fo_release fid e : fo_inv e -> is_Some (fv_frames (fv e) !! fid) -> (forall va, fv_maps (fv e) !! va <> Some fid) ->
    exists r e', fh_release_memory fid e = Ok r e' /\ fo_inv e' /\
    fv e' = set_fv_frames (delete fid (fv_frames (fv e))) (fv e);
  fo_map fid e : fo_inv e -> is_Some (fv_frames (fv e) !! fid) -> exists va e', fh_frame_map_anywhere fid e = Ok va e' /\
    fo_inv e' /\ va <> NIL /\ fv_maps (fv e) !! va = None /\ fv e' = set_fv_maps (<[va := fid]> (fv_maps (fv e))) (fv e);
  fo_unmap fid va e : fo_inv e -> fv_maps (fv e) !! va = Some fid -> exists r e', fh_unmap_addr fid va e = Ok r e' /\
    fo_inv e' /\ fv e' = set_fv_maps (delete va (fv_maps (fv e))) (fv e);
  fo_load fid va bs o len e : fo_inv e -> fv_maps (fv e) !! va = Some fid -> fv_frames (fv e) !! fid = Some bs ->
    0 <= o -> 0 <= len -> o + len <= zlen bs -> exists e', fh_load va o len e = Ok (part bs o len) e' /\ fo_inv e' /\ fv e' = fv e;
  fo_store fid va bs o b e : fo_inv e -> fv_maps (fv e) !! va = Some fid -> fv_frames (fv e) !! fid = Some bs ->
    Forall is_byte b -> 0 <= o -> o + zlen b <= zlen bs -> exists e', fh_store va o b e = Ok tt e' /\ fo_inv e' /\
    fv e' = set_fv_frames (<[fid := patch bs o b]> (fv_frames (fv e))) (fv e);
  fo_info eid e : fo_inv e -> exists nb e', fh_mesg eid BLOCK_info e = Ok (OK, rsp_info OK (fv_sec (fv e)) nb) e' /\
    fo_inv e' /\ fv e' = fv e;
  fo_read eid fid bs blk n e : fo_inv e -> fv_frames (fv e) !! fid = Some bs -> 0 <= blk -> 0 < n ->
    n * fv_sec (fv e) <= zlen bs -> (blk + n) * fv_sec (fv e) <= zlen (fv_disk (fv e)) ->
    exists e', fh_mesg_cap eid (BLOCK_read blk n 0) fid e = Ok (OK, rsp_read OK) e' /\ fo_inv e' /\
    fv e' = set_fv_frames (<[fid := patch bs 0 (part (fv_disk (fv e)) (blk * fv_sec (fv e)) (n * fv_sec (fv e)))]> (fv_frames (fv e))) (fv e);
  fo_write eid fid bs blk n e : fo_inv e -> fv_frames (fv e) !! fid = Some bs -> 0 <= blk -> 0 < n ->
    n * fv_sec (fv e) <= zlen bs -> (blk + n) * fv_sec (fv e) <= zlen (fv_disk (fv e)) ->
    exists e', fh_mesg_cap eid (BLOCK_write blk n 0) fid e = Ok (OK, rsp_write OK) e' /\ fo_inv e' /\
    fv e' = fv_write (blk * fv_sec (fv e)) (part bs 0 (n * fv_sec (fv e))) (fv e)
}.

(** ** A process with a disk
    Memory, frames and places are numbered upwards and not given out twice.  Bytes that
    were never written are [sm_fill] in memory and 0 elsewhere. *)
Record sim := mk_sim {
  sm_next : Z; sm_fill : Z; sm_used : gmap Z Z;
  sm_len : gmap Z Z; sm_data : gmap Z (gmap Z Z); sm_maps : gmap Z Z;
  sm_disk : gmap Z Z; sm_disk_len : Z; sm_sec : Z; sm_writes : list (Z * list Z);
  sm_answer : option block_rsp
}.
Definition sim_set (next : Z) used len data maps disk writes answer (x : sim) : sim :=
  mk_sim next (sm_fill x) used len data maps disk (sm_disk_len x) (sm_sec x) writes answer.
Definition bytes_of (m : gmap Z Z) (o len : Z) : list Z := (fun i => default 0 (m !! i)) <$> seqZ o len.
Definition put_bytes (o : Z) (bs : list Z) (m : gmap Z Z) : gmap Z Z := snd (foldl (fun '(i, m) b => (i + 1, <[i := b]> m)) (o, m) bs).

Definition sim_malloc (len : Z) : M sim (Z * list Z) := fun x =>
  let a := sm_next x in
  Ok (a, replicate (Z.to_nat len) (sm_fill x))
    (sim_set (a + len) (<[a := len]> (sm_used x)) (sm_len x) (sm_data x) (sm_maps x) (sm_disk x) (sm_writes x) (sm_answer x) x).
Definition sim_free (a : Z) : M sim unit := fun x =>
  match sm_used x !! a with
  | Some _ => Ok tt (sim_set (sm_next x) (delete a (sm_used x)) (sm_len x) (sm_data x) (sm_maps x) (sm_disk x) (sm_writes x) (sm_answer x) x)
  | None => Fault FNil
  end.
Definition sim_request (len : Z) : M sim Z := fun x =>
  let f := sm_next x in
  Ok f (sim_set (f + 1) (sm_used x) (<[f := len]> (sm_len x)) (<[f := ∅]> (sm_data x)) (sm_maps x) (sm_disk x) (sm_writes x) (sm_answer x) x).
Definition sim_release (f : Z) : M sim Z := fun x =>
  Ok OK (sim_set (sm_next x) (sm_used x) (delete f (sm_len x)) (delete f (sm_data x)) (sm_maps x) (sm_disk x) (sm_writes x) (sm_answer x) x).
Definition sim_map (f : Z) : M sim Z := fun x =>
  let va := sm_next x in
  Ok va (sim_set (va + 1) (sm_used x) (sm_len x) (sm_data x) (<[va := f]> (sm_maps x)) (sm_disk x) (sm_writes x) (sm_answer x) x).
Definition sim_unmap (f va : Z) : M sim Z := fun x =>
  Ok OK (sim_set (sm_next x) (sm_used x) (sm_len x) (sm_data x) (delete va (sm_maps x)) (sm_disk x) (sm_writes x) (sm_answer x) x).
(** The frame behind a place, with its length and bytes. *)
Definition sim_frame (va : Z) (x : sim) : option (Z * Z * gmap Z Z) :=
  f ← sm_maps x !! va; len ← sm_len x !! f; m ← sm_data x !! f; Some (f, len, m).
Definition sim_load (va o len : Z) : M sim (list Z) := fun x =>
  match sim_frame va x with
  | Some (_, n, m) => if (0 <=? o) && (o + len <=? n) then Ok (bytes_of m o len) x else Fault FBounds
  | None => Fault FNil
  end.
Definition sim_put (f : Z) (m : gmap Z Z) : M sim unit :=
  modify (fun x => sim_set (sm_next x) (sm_used x) (sm_len x) (<[f := m]> (sm_data x)) (sm_maps x) (sm_disk x) (sm_writes x) (sm_answer x) x).
Definition sim_store (va o : Z) (b : list Z) : M sim unit := fun x =>
  match sim_frame va x with
  | Some (f, n, m) => if (0 <=? o) && (o + zlen b <=? n) then sim_put f (put_bytes o b m) x else Fault FBounds
  | None => Fault FNil
  end.

(** The disk of the driver. *)
Definition sim_disk_ok (blk n : Z) (x : sim) : bool := (0 <=? blk) && (0 <=? n) && ((blk + n) * sm_sec x <=? sm_disk_len x).
Definition sim_read_blocks (va o blk n : Z) : M sim Z := fun x =>
  if sim_disk_ok blk n x then
    (let* _ := sim_store va o (bytes_of (sm_disk x) (blk * sm_sec x) (n * sm_sec x)) in ret OK) x
  else Ok ERR x.
Definition sim_write_blocks (va o blk n : Z) : M sim Z := fun x =>
  if sim_disk_ok blk n x then
    (let* bs := sim_load va o (n * sm_sec x) in
     modify (fun x => sim_set (sm_next x) (sm_used x) (sm_len x) (sm_data x) (sm_maps x)
       (put_bytes (blk * sm_sec x) bs (sm_disk x)) (sm_writes x ++ [(blk * sm_sec x, bs)]) (sm_answer x) x) ;;;
     ret OK) x
  else Ok ERR x.
#[export] Instance sim_block_host : BlockHost sim := {
  bh_frame_info f x := Ok ((fun len => (0, 0, len)) <$> sm_len x !! f) x;
  bh_frame_map_anywhere := sim_map;
  bh_unmap_addr := sim_unmap;
  bh_reply_cap eid from rsp cap := modify (fun x =>
    sim_set (sm_next x) (sm_used x) (sm_len x) (sm_data x) (sm_maps x) (sm_disk x) (sm_writes x) (Some rsp) x) ;;; ret OK;
  bh_read_blocks_mapped := sim_read_blocks;
  bh_write_blocks_mapped := sim_write_blocks;
  bh_read_blocks _ _ _ := ret ERR;
  bh_write_blocks _ _ _ := ret ERR
}.

(** A message to the server and its answer. *)
Definition sim_dev (x : sim) : block_dev := mk_block_dev 1 (sm_sec x) (sm_disk_len x / sm_sec x) true.
Definition sim_mesg (rq : block_req) (cap : Z) : M sim (Z * block_rsp) := fun x =>
  (block_dev_round (sim_dev x) cap (OK, 1, rq) ;;;
   let* y := get in match sm_answer y with Some rsp => ret (OK, rsp) | None => nofuel end) x.
#[export] Instance sim_fs_host : FsHost sim := {
  fh_malloc := sim_malloc;
  fh_free := sim_free;
  fh_request_memory len _ := sim_request len;
  fh_release_memory := sim_release;
  fh_frame_map_anywhere := sim_map;
  fh_unmap_addr := sim_unmap;
  fh_load := sim_load;
  fh_store := sim_store;
  fh_mesg eid rq := sim_mesg rq 0;
  fh_mesg_cap eid rq cap := sim_mesg rq cap
}.

(** ** The process keeps its promises *)
Lemma bytes_of_length m o len : 0 <= len -> zlen (bytes_of m o len) = len.
Proof. intros. unfold bytes_of. rewrite length_fmap, length_seqZ. lia. Qed.

Lemma bytes_of_lookup m o len i : (i < Z.to_nat len)%nat -> bytes_of m o len !! i = Some (default 0 (m !! (o + Z.of_nat i))).
Proof. intros. unfold bytes_of. by rewrite list_lookup_fmap, lookup_seqZ_lt by lia. Qed.

Lemma bytes_of_part m o len o' len' : 0 <= o' -> 0 <= len' -> o' + len' <= len -> part (bytes_of m o len) o' len' = bytes_of m (o + o') len'.
Proof.
  intros. apply list_eq. intros i. destruct (decide (i < Z.to_nat len')%nat).
  - rewrite part_lookup, !bytes_of_lookup by lia. do 3 f_equal. lia.
  - rewrite !lookup_ge_None_2; [done|..].
    + pose proof (bytes_of_length m (o + o') len'). lia.
    + pose proof (length_part (bytes_of m o len) o' len'). rewrite bytes_of_length in * by lia. lia.
Qed.

Lemma put_bytes_lookup b : forall o m i, put_bytes o b m !! i = if decide (o <= i < o + zlen b) then b !! Z.to_nat (i - o) else m !! i.
Proof.
  unfold put_bytes. induction b as [|x b IH]; intros o m i; cbn [foldl].
  - rewrite decide_False by (cbn; lia). done.
  - rewrite IH. cbn [length]. destruct (decide (i = o)) as [->|Hne].
    + rewrite decide_False, lookup_insert_eq by lia. rewrite decide_True by lia. by rewrite Z.sub_diag.
    + rewrite lookup_insert_ne by done. destruct (decide (o + 1 <= i < o + 1 + zlen b)).
      * rewrite decide_True by lia. replace (Z.to_nat (i - o)) with (S (Z.to_nat (i - (o + 1)))) by lia. done.
      * by rewrite decide_False by lia.
Qed.

Lemma bytes_of_put m o b len : 0 <= o -> o + zlen b <= len -> bytes_of (put_bytes o b m) 0 len = patch (bytes_of m 0 len) o b.
Proof.
  intros. assert (Hl : zlen (bytes_of m 0 len) = len) by (apply bytes_of_length; lia). apply list_eq. intros i. destruct (decide (i < Z.to_nat len)%nat).
  - rewrite patch_lookup by lia. rewrite !bytes_of_lookup, put_bytes_lookup, Z.add_0_l by lia. repeat case_decide; try lia; try done.
    destruct (lookup_lt_is_Some_2 b (i - Z.to_nat o)) as [x Hx]; [lia|]. rewrite Hx. replace (Z.to_nat (Z.of_nat i - o)) with (i - Z.to_nat o)%nat by lia.
    by rewrite Hx.
  - rewrite !lookup_ge_None_2; [done| |].
    + rewrite length_patch by lia. lia.
    + pose proof (bytes_of_length (put_bytes o b m) 0 len). lia.
Qed.

Definition sim_frames (x : sim) : gmap Z (list Z) := map_zip_with (fun len m => bytes_of m 0 len) (sm_len x) (sm_data x).
Definition sim_view (x : sim) : fview :=
  mk_fview (sm_used x) (bool_decide (sm_fill x = 0)) (sim_frames x) (sm_maps x) (bytes_of (sm_disk x) 0 (sm_disk_len x)) (sm_sec x) (sm_writes x).

Record sim_ok (x : sim) : Prop := {
  so_next : 0 < sm_next x;
  so_fill : is_byte (sm_fill x);
  so_sec : 0 < sm_sec x /\ 0 <= sm_disk_len x;
  so_used : forall a n, sm_used x !! a = Some n -> a + n <= sm_next x;
  so_len : forall f n, sm_len x !! f = Some n -> f < sm_next x /\ 0 <= n < 2 ^ 32;
  so_data : forall f, is_Some (sm_len x !! f) <-> is_Some (sm_data x !! f);
  so_maps : forall va f, sm_maps x !! va = Some f -> va < sm_next x /\ is_Some (sm_len x !! f)
}.

Lemma sim_frames_lookup x f bs : sim_frames x !! f = Some bs <->
  exists n m, sm_len x !! f = Some n /\ sm_data x !! f = Some m /\ bs = bytes_of m 0 n.
Proof. unfold sim_frames. rewrite map_lookup_zip_with_Some. naive_solver. Qed.

Lemma sim_frame_at x va f bs : sim_ok x -> sm_maps x !! va = Some f -> sim_frames x !! f = Some bs ->
  exists n m, sim_frame va x = Some (f, n, m) /\ sm_len x !! f = Some n /\ sm_data x !! f = Some m /\ bs = bytes_of m 0 n /\ zlen bs = n /\ 0 <= n < 2 ^ 32.
Proof.
  intros Ho Hm (n & m & Hn & Hd & ->)%sim_frames_lookup. exists n, m. unfold sim_frame. rewrite Hm. cbn. rewrite Hn. cbn. rewrite Hd.
  destruct (so_len _ Ho _ _ Hn) as [_ Hb]. rewrite bytes_of_length by lia. done.
Qed.

Lemma sim_load_run x va f bs o len : sim_ok x -> sm_maps x !! va = Some f -> sim_frames x !! f = Some bs -> 0 <= o -> 0 <= len -> o + len <= zlen bs ->
  sim_load va o len x = Ok (part bs o len) x.
Proof.
  intros Ho Hm Hf ? ? Hl. destruct (sim_frame_at _ _ _ _ Ho Hm Hf) as (n & m & Hfr & _ & _ & -> & Hn & _). unfold sim_load. rewrite Hfr.
  rewrite (proj2 (Z.leb_le 0 o)), (proj2 (Z.leb_le _ n)) by lia. cbn. rewrite bytes_of_part by lia. done.
Qed.

(** A frame with other bytes. *)
Lemma sim_put_ok x f n m m' next maps disk writes answer : sim_ok x -> sm_len x !! f = Some n -> sm_data x !! f = Some m -> sm_next x <= next ->
  maps = sm_maps x ->
  sim_ok (sim_set next (sm_used x) (sm_len x) (<[f := m']> (sm_data x)) maps disk writes answer x).
Proof.
  intros [H1 H2 H3 H4 H5 H6 H7] Hn Hm Hnx ->. split; cbn; try done; try lia.
  - intros a k Ha. specialize (H4 a k Ha). lia.
  - intros g k Hg. specialize (H5 g k Hg). lia.
  - intros g. rewrite H6. destruct (decide (g = f)) as [->|]; [rewrite lookup_insert_eq, Hm|by rewrite lookup_insert_ne]. by split; eexists.
  - intros va g Hg. destruct (H7 va g Hg). split; [lia|done].
Qed.

Lemma sim_frames_put x f n m' used maps disk writes answer next : sm_len x !! f = Some n ->
  sim_frames (sim_set next used (sm_len x) (<[f := m']> (sm_data x)) maps disk writes answer x) = <[f := bytes_of m' 0 n]> (sim_frames x).
Proof.
  intros Hn. unfold sim_frames. cbn. rewrite <-(insert_id (sm_len x) f n) at 1 by done. symmetry.
  exact (map_insert_zip_with (fun len m => bytes_of m 0 len) (sm_len x) (sm_data x) f n m').
Qed.

Lemma sim_store_run x va f bs o b : sim_ok x -> sm_maps x !! va = Some f -> sim_frames x !! f = Some bs -> 0 <= o -> o + zlen b <= zlen bs ->
  exists x', sim_store va o b x = Ok tt x' /\ sim_ok x' /\ sim_view x' = set_fv_frames (<[f := patch bs o b]> (sim_frames x)) (sim_view x) /\
    sm_next x' = sm_next x /\ sm_maps x' = sm_maps x.
Proof.
  intros Ho Hm Hf ? Hl. destruct (sim_frame_at _ _ _ _ Ho Hm Hf) as (n & m & Hfr & Hn & Hd & -> & Hz & _). unfold sim_store. rewrite Hfr.
  rewrite (proj2 (Z.leb_le 0 o)), (proj2 (Z.leb_le _ n)) by lia. cbn [andb]. eexists. split; [reflexivity|].
  split; [by eapply sim_put_ok|]. split; [|done]. unfold sim_view. erewrite sim_frames_put by done. rewrite bytes_of_put by lia. done.
Qed.

Lemma sim_map_run x f : sim_ok x -> is_Some (sim_frames x !! f) -> exists x', sim_map f x = Ok (sm_next x) x' /\ sim_ok x' /\
  sm_maps x !! sm_next x = None /\ sim_view x' = set_fv_maps (<[sm_next x := f]> (sm_maps x)) (sim_view x) /\
  sm_maps x' = <[sm_next x := f]> (sm_maps x) /\ sim_frames x' = sim_frames x.
Proof.
  intros [H1 H2 H3 H4 H5 H6 H7] [bs (n & m & Hn & _)%sim_frames_lookup]. eexists. split; [reflexivity|]. split; [|split; [|done]].
  - split; cbn; try done; try lia.
    + intros a k Ha. specialize (H4 a k Ha). lia.
    + intros g k Hg. specialize (H5 g k Hg). lia.
    + intros va g. rewrite lookup_insert_Some. intros [[<- <-]|[_ Hg]]; [split; [lia|by eexists]|]. destruct (H7 va g Hg). split; [lia|done].
  - destruct (sm_maps x !! sm_next x) as [g|] eqn:Hg; [|done]. destruct (H7 _ _ Hg). lia.
Qed.

Lemma sim_unmap_run x f va : sim_ok x -> exists x', sim_unmap f va x = Ok OK x' /\ sim_ok x' /\ sim_view x' = set_fv_maps (delete va (sm_maps x)) (sim_view x).
Proof.
  intros [H1 H2 H3 H4 H5 H6 H7]. eexists. split; [reflexivity|]. split; [|done]. split; cbn; try done; try lia.
  intros v g. rewrite lookup_delete_Some. intros [_ Hg]. by apply H7.
Qed.

(** The answer that waits is not part of what is seen. *)
Lemma sim_answer x rsp : sim_ok x -> exists x', sim_ok x' /\ sim_view x' = sim_view x /\ sm_answer x' = Some rsp /\
  forall eid from cap, bh_reply_cap eid from rsp cap x = Ok OK x'.
Proof.
  intros [H1 H2 H3 H4 H5 H6 H7]. exists (sim_set (sm_next x) (sm_used x) (sm_len x) (sm_data x) (sm_maps x) (sm_disk x) (sm_writes x) (Some rsp) x).
  split; [by split|]. done.
Qed.

(** The server reads and writes what it was asked for: the transfer is between the disk
    and the frame, which is mapped meanwhile. *)
Lemma map_and_back x f (m : Z -> M sim Z) (x2 : sim) v : sim_ok x -> is_Some (sim_frames x !! f) ->
  (forall x1, sim_map f x = Ok (sm_next x) x1 -> sim_ok x1 -> sm_maps x1 !! sm_next x = Some f -> sim_frames x1 = sim_frames x ->
    sim_view x1 = set_fv_maps (<[sm_next x := f]> (sm_maps x)) (sim_view x) ->
    exists x2, m (sm_next x) x1 = Ok OK x2 /\ sim_ok x2 /\ fv_maps (sim_view x2) = <[sm_next x := f]> (sm_maps x) /\
      set_fv_maps (sm_maps x) (sim_view x2) = v) ->
  forall (k : Z -> M sim Z),
  exists x3, (let* addr := sim_map f in if addr =? NIL then k ERR else let* r := m addr in sim_unmap f addr ;;; k r) x = k OK x3 /\
    sim_ok x3 /\ sim_view x3 = v.
Proof.
  intros Ho Hf Hm k. destruct (sim_map_run x f Ho Hf) as (x1 & Hm1 & Ho1 & Hnone & Hv1 & Hmaps1 & Hfr1).
  destruct (Hm x1 Hm1 Ho1) as (x2' & Hr & Ho2 & Hmaps2 & Hv2); [rewrite Hmaps1; apply lookup_insert_eq|done|done|].
  destruct (sim_unmap_run x2' f (sm_next x) Ho2) as (x3 & Hu & Ho3 & Hv3). exists x3. split; [|split; [done|]].
  - rewrite (bind_ok _ _ _ _ _ Hm1). rewrite (proj2 (Z.eqb_neq (sm_next x) NIL)) by (destruct Ho; unfold NIL; lia).
    rewrite (bind_ok _ _ _ _ _ Hr). by rewrite (bind_ok _ _ _ _ _ Hu).
  - rewrite Hv3. cbn in Hmaps2. rewrite Hmaps2, delete_insert_id by done. exact Hv2.
Qed.

Lemma sim_disk_okb x blk n : 0 <= blk -> 0 < n -> (blk + n) * sm_sec x <= sm_disk_len x -> sim_disk_ok blk n x = true.
Proof. intros. unfold sim_disk_ok. by rewrite (proj2 (Z.leb_le 0 blk)), (proj2 (Z.leb_le 0 n)), (proj2 (Z.leb_le _ _)) by lia. Qed.

Lemma sim_info x f bs : sim_ok x -> sim_frames x !! f = Some bs -> bh_frame_info f x = Ok (Some (0, 0, zlen bs)) x /\ zlen bs < 2 ^ 32.
Proof.
  intros Ho (n & m & Hn & _ & ->)%sim_frames_lookup. destruct (so_len _ Ho _ _ Hn) as [_ ?]. rewrite bytes_of_length by lia. cbn. rewrite Hn. split; [done|lia].
Qed.

Lemma sim_mesg_run x rq f x' rsp : block_dev_round (sim_dev x) f (OK, 1, rq) x = Ok tt x' -> sm_answer x' = Some rsp ->
  sim_mesg rq f x = Ok (OK, rsp) x'.
Proof. intros Hr Ha. unfold sim_mesg. rewrite (bind_ok _ _ _ _ _ Hr). unfold bind, get. by rewrite Ha. Qed.

Lemma sim_read_run x f bs blk n : sim_ok x -> sim_frames x !! f = Some bs -> 0 <= blk -> 0 < n -> n * sm_sec x <= zlen bs ->
  (blk + n) * sm_sec x <= sm_disk_len x -> exists x', sim_mesg (BLOCK_read blk n 0) f x = Ok (OK, rsp_read OK) x' /\ sim_ok x' /\
    sim_view x' = set_fv_frames (<[f := patch bs 0 (part (fv_disk (sim_view x)) (blk * sm_sec x) (n * sm_sec x))]> (sim_frames x)) (sim_view x).
Proof.
  intros Ho Hf Hb Hn Hfit Hdisk. pose proof (so_sec _ Ho) as [Hsec Hdl]. destruct (sim_info _ _ _ Ho Hf) as [Hi Hz].
  set (w := bytes_of (sm_disk x) (blk * sm_sec x) (n * sm_sec x)).
  assert (Hw : part (fv_disk (sim_view x)) (blk * sm_sec x) (n * sm_sec x) = w) by (cbn; rewrite bytes_of_part by nia; by rewrite Z.add_0_l).
  assert (Hwl : zlen w = n * sm_sec x) by (apply bytes_of_length; nia).
  destruct (map_and_back x f (fun a => sim_read_blocks a 0 blk n) x (set_fv_frames (<[f := patch bs 0 w]> (sim_frames x)) (sim_view x)) Ho)
    with (k := fun r => bh_reply_cap 1 1 (rsp_read r) f) as (x3 & Hr & Ho3 & Hv3).
  { by eexists. }
  { intros x1 Hm1 Ho1 Hat Hfr1 Hv1. destruct (sim_store_run x1 (sm_next x) f bs 0 w Ho1 Hat) as (x2 & Hs & Ho2 & Hv2 & _ & Hmp2).
    - by rewrite Hfr1.
    - lia.
    - lia.
    - exists x2. injection Hm1 as Hx1. split; [|split; [done|split]].
      + unfold sim_read_blocks. rewrite <-Hx1. cbn [sim_set sm_sec sm_disk]. rewrite sim_disk_okb by (cbn; done). rewrite Hx1. by erewrite bind_ok.
      + rewrite Hv2, Hv1. done.
      + rewrite Hv2, Hfr1, Hv1. done. }
  destruct (sim_answer x3 (rsp_read OK) Ho3) as (x4 & Ho4 & Hv4 & Ha4 & Hrep). exists x4. rewrite Hw. split; [|split; [done|congruence]].
  apply sim_mesg_run; [|done]. unfold block_dev_round. change (negb (OK =? OK)) with false. change (1 =? 0) with false. cbn match.
  rewrite (bind_ok _ _ _ OK x4); [done|]. unfold handle_read. rewrite (bind_ok _ _ _ _ _ Hi). cbn match beta.
  rewrite Z.sub_0_r. cbn [dv_block_size dv_map_buffers dv_mount_cap sim_dev]. rewrite !u32_small by lia. rewrite (proj2 (Z.ltb_ge _ _)) by lia.
  etrans; [exact Hr|apply Hrep].
Qed.

Lemma sim_write_run x f bs blk n : sim_ok x -> sim_frames x !! f = Some bs -> 0 <= blk -> 0 < n -> n * sm_sec x <= zlen bs ->
  (blk + n) * sm_sec x <= sm_disk_len x -> exists x', sim_mesg (BLOCK_write blk n 0) f x = Ok (OK, rsp_write OK) x' /\ sim_ok x' /\
    sim_view x' = fv_write (blk * sm_sec x) (part bs 0 (n * sm_sec x)) (sim_view x).
Proof.
  intros Ho Hf Hb Hn Hfit Hdisk. pose proof (so_sec _ Ho) as [Hsec Hdl]. destruct (sim_info _ _ _ Ho Hf) as [Hi Hz].
  pose proof (length_part bs 0 (n * sm_sec x) ltac:(lia) ltac:(nia) ltac:(lia)) as Hpl.
  destruct (map_and_back x f (fun a => sim_write_blocks a 0 blk n) x (fv_write (blk * sm_sec x) (part bs 0 (n * sm_sec x)) (sim_view x)) Ho)
    with (k := fun r => bh_reply_cap 1 1 (rsp_write r) f) as (x3 & Hr & Ho3 & Hv3).
  { by eexists. }
  { intros x1 Hm1 Ho1 Hat Hfr1 Hv1. pose proof (sim_load_run x1 (sm_next x) f bs 0 (n * sm_sec x1) Ho1 Hat) as Hs.
    injection Hm1 as Hx1. assert (Hsec1 : sm_sec x1 = sm_sec x) by (by rewrite <-Hx1).
    assert (Hdl1 : sm_disk_len x1 = sm_disk_len x) by (by rewrite <-Hx1).
    eexists. split; [|split; [|split]].
    - unfold sim_write_blocks. rewrite sim_disk_okb by (rewrite ?Hsec1, ?Hdl1; done).
      rewrite (bind_ok _ _ _ (part bs 0 (n * sm_sec x1)) x1); [reflexivity|]. apply Hs; [by rewrite Hfr1|lia|nia|lia].
    - destruct Ho1 as [G1 G2 G3 G4 G5 G6 G7]. by split.
    - cbn. injection Hv1. intros _ _ _ <- _ _ _. done.
    - cbn. rewrite Hsec1, <-Hx1. unfold sim_view, set_fv_maps, fv_write. cbn. rewrite bytes_of_put by nia. done. }
  destruct (sim_answer x3 (rsp_write OK) Ho3) as (x4 & Ho4 & Hv4 & Ha4 & Hrep). exists x4. split; [|split; [done|congruence]].
  apply sim_mesg_run; [|done]. unfold block_dev_round. change (negb (OK =? OK)) with false. change (1 =? 0) with false. cbn match.
  rewrite (bind_ok _ _ _ OK x4); [done|]. unfold handle_write. rewrite (bind_ok _ _ _ _ _ Hi). cbn match beta.
  rewrite Z.add_0_l. cbn [dv_block_size dv_map_buffers dv_mount_cap sim_dev]. rewrite !u32_small by (rewrite ?u32_small; nia). rewrite (proj2 (Z.ltb_ge _ _)) by lia.
  etrans; [exact Hr|apply Hrep].
Qed.

#[export] Instance sim_fs_host_ok : FsHostOk sim.
Proof.
  refine {| fv := sim_view; fo_inv := sim_ok |}.
  - intros len x [H1 H2 H3 H4 H5 H6 H7] Hl. do 3 eexists. split; [reflexivity|]. split; [|split; [|split; [|split; [|split; [|done]]]]].
    + split; cbn; try done; try lia.
      * intros a n. rewrite lookup_insert_Some. intros [[<- <-]|[_ Ha]]; [lia|]. specialize (H4 a n Ha). lia.
      * intros f n Hf. specialize (H5 f n Hf). lia.
      * intros va f Hf. destruct (H7 va f Hf). split; [lia|done].
    + split; [lia|]. intros b n Hb. left. cbn in Hb. specialize (H4 b n Hb). lia.
    + rewrite length_replicate. lia.
    + by apply Forall_replicate.
    + intros Hc. apply bool_decide_eq_true in Hc. apply Forall_replicate. done.
  - intros a x [H1 H2 H3 H4 H5 H6 H7] [n Hn]. cbn in Hn. unfold fh_free. cbn. unfold sim_free. rewrite Hn. eexists. split; [reflexivity|]. split; [|done].
    split; cbn; try done; try lia. intros b k. rewrite lookup_delete_Some. intros [_ Hb]. by apply H4.
  - intros len x [H1 H2 H3 H4 H5 H6 H7] Hl. assert (Hno : sm_len x !! sm_next x = None).
    { destruct (sm_len x !! sm_next x) as [n|] eqn:Hn; [|done]. destruct (H5 _ _ Hn). lia. }
    exists (sm_next x), (bytes_of ∅ 0 len). eexists. split; [reflexivity|]. split; [|split; [done|split; [|split; [|split; [|split]]]]].
    + split; cbn; try done; try lia.
      * intros a n Ha. specialize (H4 a n Ha). lia.
      * intros f n. rewrite lookup_insert_Some. intros [[<- <-]|[_ Hf]]; [lia|]. specialize (H5 f n Hf). lia.
      * intros f. destruct (decide (f = sm_next x)) as [->|]; [by rewrite !lookup_insert_eq; split; eexists|by rewrite !lookup_insert_ne].
      * intros va f Hf. destruct (H7 va f Hf) as [? [n Hn]]. split; [lia|]. rewrite lookup_insert_ne by congruence. by eexists.
    + destruct (fv_frames (sim_view x) !! sm_next x) as [bs|] eqn:Hf; [|done]. apply sim_frames_lookup in Hf as (n & m & Hn & _). congruence.
    + intros va Hf. destruct (H7 _ _ Hf) as [_ [n Hn]]. congruence.
    + apply bytes_of_length. lia.
    + unfold bytes_of. apply Forall_fmap, Forall_true. intros i. cbn. rewrite lookup_empty. unfold is_byte. cbn. lia.
    + unfold sim_view, set_fv_frames, sim_frames. cbn. f_equal. symmetry. exact (map_insert_zip_with (fun len m => bytes_of m 0 len) (sm_len x) (sm_data x) _ _ _).
  - intros f x [H1 H2 H3 H4 H5 H6 H7] _ Hm. do 2 eexists. split; [reflexivity|]. split.
    + split; cbn; try done; try lia.
      * intros g n. rewrite lookup_delete_Some. intros [_ Hg]. by apply H5.
      * intros g. destruct (decide (g = f)) as [->|]; [by rewrite !lookup_delete_eq; split; intros []|by rewrite !lookup_delete_ne].
      * intros va g Hg. destruct (H7 va g Hg). split; [done|]. rewrite lookup_delete_ne; [done|]. intros ->. by apply (Hm va).
    + unfold sim_view, set_fv_frames, sim_frames. cbn. f_equal. symmetry. apply map_delete_zip_with.
  - intros f x Ho Hf. destruct (sim_map_run x f Ho Hf) as (x' & Hr & Ho' & Hn & Hv & _). exists (sm_next x), x'. split; [exact Hr|].
    split; [done|]. split; [destruct Ho; unfold NIL; lia|]. by split.
  - intros f va x Ho _. destruct (sim_unmap_run x f va Ho) as (x' & Hr & Ho' & Hv). by exists OK, x'.
  - intros f va bs o len x Ho Hm Hf ? ? ?. exists x. split; [by eapply sim_load_run|]. done.
  - intros f va bs o b x Ho Hm Hf _ ? ?. destruct (sim_store_run x va f bs o b Ho Hm Hf) as (x' & Hr & Ho' & Hv & _); [done..|]. by exists x'.
  - intros eid x Ho. destruct (sim_answer x (rsp_info OK (sm_sec x) (sm_disk_len x / sm_sec x)) Ho) as (x' & Ho' & Hv & Ha & Hrep).
    exists (sm_disk_len x / sm_sec x), x'. split; [|done].
    apply (sim_mesg_run x BLOCK_info 0 x' _); [|exact Ha]. unfold block_dev_round. cbn match.
    change (negb (OK =? OK)) with false. change (1 =? 0) with false. cbn match. rewrite (bind_ok _ _ _ OK x'); [done|]. apply Hrep.
  - intros eid f bs blk n x Ho Hf ? ? ? Hd. cbn in Hd, Hf. pose proof (so_sec _ Ho). rewrite bytes_of_length in Hd by lia.
    destruct (sim_read_run x f bs blk n Ho Hf) as (x' & ? & ? & ?); [done..|]. by exists x'.
  - intros eid f bs blk n x Ho Hf ? ? ? Hd. cbn in Hd, Hf. pose proof (so_sec _ Ho). rewrite bytes_of_length in Hd by lia.
    destruct (sim_write_run x f bs blk n Ho Hf) as (x' & ? & ? & ?); [done..|]. by exists x'.
Defined.
