(* ===== verification/LfsTable.v ===== *)
(** * The log-structured file system: the table of inodes

    The rules for the accesses of the model, and the table of inodes with its probing:
    [table_ok] is the table, [probe_ok] says that the way to a file meets no inode that
    was never used.  lfs_find_inode finds a file exactly when it is there, and lfs_create
    puts a new one where it will be found. *)
From S2P Require Import Prelude Bytes LeBytes SList Block Lfs LfsLog LfsFile.

Local Open Scope Z_scope.
Local Open Scope c_scope.

Section rules.
Context {E : Type} `{FsHost E}.
Implicit Types (s : fs E).

Lemma wp_get_lfs s (Q : lfs -> fs E -> Prop) : Q (fs_lfs s) s -> wp get_lfs s Q.
Proof. exact id. Qed.
Lemma wp_upd_lfs f s (Q : unit -> fs E -> Prop) : Q tt (set_fs_lfs (f (fs_lfs s)) s) -> wp (upd_lfs f) s Q.
Proof. exact id. Qed.
Lemma wp_get_seg a x s (Q : lfs_segment -> fs E -> Prop) : fs_segs s !! a = Some x -> Q x s -> wp (get_seg a) s Q.
Proof. intros. by eapply wpe_read. Qed.
Lemma wp_get_inode a x s (Q : lfs_inode -> fs E -> Prop) : fs_inodes s !! a = Some x -> Q x s -> wp (get_inode a) s Q.
Proof. intros. by eapply wpe_read. Qed.
Lemma wp_get_blk a x s (Q : lfs_blk -> fs E -> Prop) : fs_blks s !! a = Some x -> Q x s -> wp (get_blk a) s Q.
Proof. intros. by eapply wpe_read. Qed.
Lemma wp_upd_seg a f x s (Q : unit -> fs E -> Prop) :
  fs_segs s !! a = Some x -> Q tt (set_fs_segs (<[a := f x]> (fs_segs s)) s) -> wp (upd_seg a f) s Q.
Proof. intros Hx HQ. unfold upd_seg. apply wpe_bind. by eapply wp_get_seg. Qed.
Lemma wp_upd_inode a f x s (Q : unit -> fs E -> Prop) :
  fs_inodes s !! a = Some x -> Q tt (set_fs_inodes (<[a := f x]> (fs_inodes s)) s) -> wp (upd_inode a f) s Q.
Proof. intros Hx HQ. unfold upd_inode. apply wpe_bind. by eapply wp_get_inode. Qed.
Lemma wp_upd_blk a f x s (Q : unit -> fs E -> Prop) :
  fs_blks s !! a = Some x -> Q tt (set_fs_blks (<[a := f x]> (fs_blks s)) s) -> wp (upd_blk a f) s Q.
Proof. intros Hx HQ. unfold upd_blk. apply wpe_bind. by eapply wp_get_blk. Qed.
Lemma wp_env {A} (m : M E A) s a e' (Q : A -> fs E -> Prop) :
  m (fs_env s) = Ok a e' -> Q a (set_fs_env e' s) -> wp (env m) s Q.
Proof. intros Hm HQ. unfold env. apply wpe_zoom. by eapply wpe_ok. Qed.
End rules.

(** ** The table *)
Section table.
Context {E : Type} `{FsHost E}.
Implicit Types (s : fs E) (x y : lfs_inode) (name : list Z).

Definition slot s (i : Z) (x : lfs_inode) : Prop :=
  0 <= i < lf_n_inodes (fs_lfs s) /\ fs_inodes s !! inode_at (fs_lfs s) i = Some x.
Definition table_ok s : Prop :=
  0 < lf_n_inodes (fs_lfs s) < 2 ^ 32 /\ 0 < lf_inodes (fs_lfs s) /\
  forall i, 0 <= i < lf_n_inodes (fs_lfs s) -> exists x, slot s i x /\ in_index x = i.

Definition home s name : Z := name_sum name mod lf_n_inodes (fs_lfs s).
(** The [k]th place that is looked at. *)
Definition probe s name (k : Z) : Z := (home s name + k) mod lf_n_inodes (fs_lfs s).
Definition is_file s name (i : Z) : Prop := exists x, slot s i x /\ in_created x = true /\ in_name x = name.

Definition probe_ok s : Prop :=
  (forall i x, slot s i x -> in_created x = true -> in_free x = false /\
    forall k y, 0 <= k < (i - home s (in_name x)) mod lf_n_inodes (fs_lfs s) -> slot s (probe s (in_name x) k) y -> in_free y = false) /\
  (forall name i j, is_file s name i -> is_file s name j -> i = j).

(** What the loop does with an inode. *)
Definition hit name (creating : bool) x : bool :=
  if creating then in_free x || negb (in_created x) else negb (in_free x) && (in_created x && bool_decide (in_name x = name)).
Definition ends (creating : bool) x : bool := negb creating && in_free x.

Lemma slot_det s i x y : slot s i x -> slot s i y -> x = y.
Proof. intros [_ Hx] [_ Hy]. congruence. Qed.

Lemma probe_bound s name k : table_ok s -> 0 <= probe s name k < lf_n_inodes (fs_lfs s).
Proof. intros [Hn _]. apply Z.mod_pos_bound. lia. Qed.

Lemma probe_slot s name k : table_ok s -> exists x, slot s (probe s name k) x.
Proof. intros Ht. destruct (proj2 (proj2 Ht) _ (probe_bound s name k Ht)) as (x & ? & _). by exists x. Qed.

Lemma probe_next s name k : table_ok s -> u32 (probe s name k + 1) mod lf_n_inodes (fs_lfs s) = probe s name (k + 1).
Proof.
  intros Ht. pose proof (probe_bound s name k Ht). destruct Ht as [Hn _]. rewrite u32_small by lia.
  unfold probe. rewrite Zplus_mod_idemp_l. f_equal. lia.
Qed.

Lemma home_bound s name : table_ok s -> 0 <= home s name < lf_n_inodes (fs_lfs s).
Proof. intros [Hn _]. apply Z.mod_pos_bound. lia. Qed.

Lemma probe_0 s name : table_ok s -> probe s name 0 = home s name.
Proof. intros Ht. pose proof (home_bound s name Ht). unfold probe. rewrite Z.add_0_r. by apply Z.mod_small. Qed.

Lemma probe_full s name : table_ok s -> probe s name (lf_n_inodes (fs_lfs s)) = home s name.
Proof.
  intros Ht. pose proof (home_bound s name Ht). unfold probe.
  rewrite <-Zplus_mod_idemp_r, Z_mod_same_full, Z.add_0_r. by apply Z.mod_small.
Qed.

(** The distance to a place on the way. *)
Lemma probe_dist s name k : table_ok s -> 0 <= k < lf_n_inodes (fs_lfs s) ->
  (probe s name k - home s name) mod lf_n_inodes (fs_lfs s) = k.
Proof.
  intros Ht Hk. unfold probe. rewrite Zminus_mod_idemp_l. replace (home s name + k - home s name) with k by lia.
  by apply Z.mod_small.
Qed.

Lemma probe_back s name k : table_ok s -> 0 < k <= lf_n_inodes (fs_lfs s) -> probe s name k = home s name -> k = lf_n_inodes (fs_lfs s).
Proof.
  intros Ht Hk He. destruct (decide (k = lf_n_inodes (fs_lfs s))) as [|Hne]; [done|].
  pose proof (probe_dist s name k Ht ltac:(lia)) as Hd. rewrite He, Z.sub_diag, Zmod_0_l in Hd. lia.
Qed.

Lemma probe_reach s name i : table_ok s -> 0 <= i < lf_n_inodes (fs_lfs s) ->
  probe s name ((i - home s name) mod lf_n_inodes (fs_lfs s)) = i.
Proof.
  intros Ht Hi. unfold probe. rewrite Zplus_mod_idemp_r. replace (home s name + (i - home s name)) with i by lia.
  by apply Z.mod_small.
Qed.

(** The search: where it ends, and that it passed what is before. *)
Definition found s name creating (k : Z) (r : Z) : Prop :=
  exists j, k <= j /\ (forall j' y, k <= j' < j -> slot s (probe s name j') y -> hit name creating y = false /\ ends creating y = false) /\
  (j = lf_n_inodes (fs_lfs s) /\ r = NIL \/
   j < lf_n_inodes (fs_lfs s) /\ exists x, slot s (probe s name j) x /\
     (ends creating x = true /\ r = NIL \/
      ends creating x = false /\ hit name creating x = true /\ r = inode_at (fs_lfs s) (probe s name j))).

Lemma find_loop_spec s name creating : table_ok s -> forall fuel k, 0 <= k < lf_n_inodes (fs_lfs s) ->
  lf_n_inodes (fs_lfs s) - k < Z.of_nat fuel ->
  wp (find_loop fuel name creating (home s name) (probe s name k)) s (fun r s' => s' = s /\ found s name creating k r).
Proof.
  intros Ht. induction fuel as [|fuel IH]; intros k Hk Hf; [lia|]. cbn [find_loop].
  destruct (probe_slot s name k Ht) as (x & Hx).
  apply wpe_bind, wp_get_lfs. apply wpe_bind. eapply wp_get_inode; [apply Hx|].
  rewrite (probe_next s name k Ht).
  assert (Hnext : hit name creating x = false -> ends creating x = false ->
    wp (if negb (probe s name (k + 1) =? home s name) then find_loop fuel name creating (home s name) (probe s name (k + 1)) else ret NIL)
      s (fun r s' => s' = s /\ found s name creating k r)).
  { intros Hh Hs. assert (Hpass : forall y, slot s (probe s name k) y -> hit name creating y = false /\ ends creating y = false)
      by (intros y Hy; by rewrite (slot_det _ _ _ _ Hy Hx)).
    destruct (Z.eqb_spec (probe s name (k + 1)) (home s name)) as [He|Hne]; cbn [negb].
    - apply wpe_ret. split; [done|]. exists (k + 1). apply probe_back in He; [|done|lia].
      split; [lia|]. split; [|by left]. intros j' y Hj. replace j' with k by lia. apply Hpass.
    - assert (k + 1 <> lf_n_inodes (fs_lfs s)) by (intros Hk1; apply Hne; rewrite Hk1; by apply probe_full).
      eapply wpe_mono; [apply IH; lia| |done]. intros r s' (-> & j & Hj & Hp & Hend). split; [done|].
      exists j. split; [lia|]. split; [|done]. intros j' y Hj' Hy.
      destruct (decide (j' = k)) as [->|]; [by apply Hpass|]. apply (Hp j'); [lia|done]. }
  assert (Hret : forall r, (ends creating x = true /\ r = NIL \/
      ends creating x = false /\ hit name creating x = true /\ r = inode_at (fs_lfs s) (probe s name k)) ->
      s = s /\ found s name creating k r).
  { intros r Hr. split; [done|]. exists k. split; [lia|]. split; [lia|]. right. split; [lia|]. by exists x. }
  unfold hit, ends in Hnext, Hret. destruct creating; cbn [negb andb] in Hnext, Hret.
  - destruct (in_free x || negb (in_created x)); [|by apply Hnext]. apply wpe_ret. apply Hret. by right.
  - destruct (in_free x); cbn [negb andb] in Hnext, Hret; [apply wpe_ret; apply Hret; by left|].
    destruct (in_created x && bool_decide (in_name x = name)); [|by apply Hnext]. apply wpe_ret. apply Hret. by right.
Qed.

Lemma lfs_find_spec s name creating : table_ok s ->
  wp (lfs_find_inode name creating) s (fun r s' => s' = s /\ found s name creating 0 r).
Proof.
  intros Ht. unfold lfs_find_inode, lfs_hash. apply wpe_bind, wpe_bind, wp_get_lfs.
  rewrite (proj2 (Z.eqb_neq _ 0)) by (destruct Ht; lia). apply wpe_ret, wpe_bind, wp_get_lfs.
  fold (home s name). rewrite <-(probe_0 s name Ht) at 2. apply find_loop_spec; [done|destruct Ht; lia|lia].
Qed.

(** A file is found, and nothing else is. *)
Lemma find_file s name : table_ok s -> probe_ok s ->
  wp (lfs_find_inode name false) s (fun r s' => s' = s /\
    ((exists i, is_file s name i /\ r = inode_at (fs_lfs s) i) \/ (forall i, ~ is_file s name i) /\ r = NIL)).
Proof.
  intros Ht [Hp Hu]. eapply wpe_mono; [by apply lfs_find_spec| |done]. intros r s' (-> & j & Hj & Hpass & Hend). split; [done|].
  assert (Hno : (forall i, is_file s name i -> (i - home s name) mod lf_n_inodes (fs_lfs s) < j -> False)).
  { intros i (x & Hx & Hc & Hnm) Hd. pose proof Hx as [Hi _].
    pose proof (Z.mod_pos_bound (i - home s name) (lf_n_inodes (fs_lfs s)) ltac:(lia)) as Hb.
    destruct (Hpass ((i - home s name) mod lf_n_inodes (fs_lfs s)) x) as [Hh _]; [lia|by rewrite probe_reach|].
    destruct (Hp i x Hx Hc) as [Hf _]. unfold hit in Hh. by rewrite Hf, Hc, bool_decide_true in Hh. }
  destruct Hend as [[-> ->]|(Hlt & x & Hx & [[Hs ->]|(_ & Hh & ->)])].
  - right. split; [|done]. intros i Hi. eapply Hno; [done|]. destruct Hi as (x & [? _] & _). apply Z.mod_pos_bound. lia.
  - right. split; [|done]. intros i Hi. pose proof Hi as (y & Hy & Hc & <-). pose proof Hy as [Hib _].
    destruct (Z.lt_trichotomy ((i - home s (in_name y)) mod lf_n_inodes (fs_lfs s)) j) as [Hd|[Hd|Hd]].
    + by eapply Hno.
    + rewrite <-Hd, probe_reach in Hx by done. rewrite (slot_det _ _ _ _ Hx Hy) in Hs. destruct (Hp i y Hy Hc) as [Hf _].
      unfold ends in Hs. by rewrite Hf in Hs.
    + destruct (Hp i y Hy Hc) as [_ Hway]. unfold ends in Hs. cbn in Hs. by rewrite (Hway j x) in Hs by (done || lia).
  - left. exists (probe s name j). split; [|done]. exists x. unfold hit in Hh.
    apply andb_true_iff in Hh as [_ [Hc Hn%bool_decide_eq_true]%andb_true_iff]. done.
Qed.

(** What can hold a new file. *)
Definition vacant x : bool := in_free x || negb (in_created x).

Lemma find_vacant s name : table_ok s ->
  wp (lfs_find_inode name true) s (fun r s' => s' = s /\
    ((exists k x, 0 <= k < lf_n_inodes (fs_lfs s) /\ slot s (probe s name k) x /\ vacant x = true /\ r = inode_at (fs_lfs s) (probe s name k) /\
       forall k' y, 0 <= k' < k -> slot s (probe s name k') y -> vacant y = false) \/
     (forall i x, slot s i x -> vacant x = false) /\ r = NIL)).
Proof.
  intros Ht. eapply wpe_mono; [by apply lfs_find_spec| |done]. intros r s' (-> & j & Hj & Hpass & Hend). split; [done|].
  destruct Hend as [[-> ->]|(Hlt & x & Hx & [[Hs _]|(_ & Hh & ->)])]; [right|done|left].
  - split; [|done]. intros i x Hx. pose proof Hx as [Hi _]. rewrite <-(probe_reach s name i) in Hx by done.
    apply (Hpass ((i - home s name) mod lf_n_inodes (fs_lfs s))); [|done]. apply Z.mod_pos_bound. lia.
  - exists j, x. split; [lia|]. split; [done|]. split; [exact Hh|]. split; [done|]. intros k' y Hk Hy. by apply (Hpass k').
Qed.

(** ** What is pending *)
Definition pnext s (a : Z) : option Z := in_wnext <$> fs_inodes s !! a.
Definition pending_is s (l : list Z) : Prop := slist (pnext s) (lf_pending (fs_lfs s)) l.

(** Only the list of what is pending changed. *)
Definition unlinked (m : gmap Z lfs_inode) : gmap Z lfs_inode := set_in_wnext NIL <$> m.
Definition same_but_list s s' : Prop :=
  set_lf_pending NIL (fs_lfs s') = set_lf_pending NIL (fs_lfs s) /\ unlinked (fs_inodes s') = unlinked (fs_inodes s) /\
  fs_segs s' = fs_segs s /\ fs_blks s' = fs_blks s /\ fs_env s' = fs_env s.

Lemma same_but_list_refl s : same_but_list s s.
Proof. by repeat split. Qed.
Lemma same_but_list_trans s1 s2 s3 : same_but_list s1 s2 -> same_but_list s2 s3 -> same_but_list s1 s3.
Proof. intros (?&?&?&?&?) (?&?&?&?&?). repeat split; congruence. Qed.

Lemma unlinked_insert m a v x : m !! a = Some x -> unlinked (<[a := set_in_wnext v x]> m) = unlinked m.
Proof.
  intros Hx. unfold unlinked. rewrite fmap_insert. apply insert_id. by rewrite lookup_fmap, Hx.
Qed.

Lemma put_pending_frame prev v s Q : (prev = NIL \/ is_Some (fs_inodes s !! prev)) ->
  (forall s', same_but_list s s' -> lf_pending (fs_lfs s') = (if prev =? NIL then v else lf_pending (fs_lfs s)) ->
    (forall a, pnext s' a = if decide (prev <> NIL /\ a = prev) then Some v else pnext s a) -> Q tt s') ->
  wp (put_pending prev v) s Q.
Proof.
  intros Hp HQ. unfold put_pending. destruct (Z.eqb_spec prev NIL) as [->|Hne].
  - apply wp_upd_lfs, HQ; [by repeat split|done|]. intros a. by rewrite decide_False by naive_solver.
  - destruct Hp as [?|[x Hx]]; [done|]. eapply wp_upd_inode; [done|]. apply HQ; [|done|].
    + repeat split. by apply unlinked_insert.
    + intros a. unfold pnext. cbn. destruct (decide (prev <> NIL /\ a = prev)) as [[_ ->]|Hd].
      * by rewrite lookup_insert_eq.
      * rewrite lookup_insert_ne; [done|]. naive_solver.
Qed.

(** The pointer behind the nodes [l1] of the list. *)
Definition behind (prev : Z) (l1 : list Z) : Prop := prev = NIL /\ l1 = [] \/ exists l0, l1 = l0 ++ [prev].

Lemma sseg_last nx h l0 a m : sseg nx h (l0 ++ [a]) m -> a <> NIL /\ nx a = Some m.
Proof. rewrite sseg_app. intros (m' & _ & (-> & Ha & n & Hn & ->)). done. Qed.

Lemma get_pending_at prev l1 m s : sseg (pnext s) (lf_pending (fs_lfs s)) l1 m -> behind prev l1 ->
  wp (get_pending prev) s (fun r s' => s' = s /\ r = m).
Proof.
  intros Hs [[-> ->]|[l0 ->]]; unfold get_pending.
  - cbn in Hs. by subst m.
  - apply sseg_last in Hs as [Hne Hn]. rewrite (proj2 (Z.eqb_neq _ _)) by done. unfold pnext in Hn.
    destruct (fs_inodes s !! prev) as [x|] eqn:Hx; [|done]. injection Hn as <-.
    apply wpe_bind. by eapply wp_get_inode.
Qed.

(** Taking out what follows. *)
Lemma put_pending_skip prev l1 l2 s : slist (pnext s) (lf_pending (fs_lfs s)) (l1 ++ l2) -> behind prev l1 ->
  forall v l3, sseg (pnext s) v l3 NIL -> (forall a, a ∈ l1 -> a ∉ l3) ->
  wp (put_pending prev v) s (fun _ s' => same_but_list s s' /\ pending_is s' (l1 ++ l3)).
Proof.
  intros Hl Hb v l3 Hv Hdis. pose proof (slist_NoDup _ _ _ Hl) as Hnd. pose proof Hl as (m & H1 & H2)%sseg_app.
  apply put_pending_frame.
  - destruct Hb as [[-> _]|[l0 ->]]; [by left|right]. apply sseg_last in H1 as [_ Hn]. unfold pnext in Hn.
    destruct (fs_inodes s !! prev); [eauto|done].
  - intros s' Hs Hp Hn. split; [done|]. unfold pending_is. rewrite Hp. destruct Hb as [[-> ->]|[l0 ->]].
    + cbn. eapply sseg_ext; [|done]. intros a _. rewrite Hn. by rewrite decide_False by naive_solver.
    + pose proof (sseg_last _ _ _ _ _ H1) as [Hne _]. rewrite (proj2 (Z.eqb_neq _ _)) by done.
      rewrite <-app_assoc in Hnd. apply NoDup_app in Hnd as (_ & Hd0 & _).
      apply sseg_app. exists v. split.
      * apply sseg_app in H1 as (p & H0 & H1). apply sseg_app. exists p. split.
        -- eapply sseg_ext; [|done]. intros a Ha. rewrite Hn, decide_False; [done|]. intros [_ ->]. apply (Hd0 prev); [done|]. cbn. left.
        -- cbn in H1 |- *. destruct H1 as (-> & _ & _). split_and!; [done..|]. exists v. split; [|done]. rewrite Hn. by rewrite decide_True.
      * eapply sseg_ext; [|done]. intros a Ha. rewrite Hn, decide_False; [done|]. intros [_ ->]. eapply Hdis; [|done]. apply elem_of_app. right. by left.
Qed.

Lemma filter_other (a : Z) (l : list Z) : a ∉ l -> filter (fun b => b <> a) l = l.
Proof.
  induction l as [|b l IH]; [done|]. intros Hn. rewrite filter_cons, decide_True by set_solver. f_equal. apply IH. set_solver.
Qed.

Lemma remove_loop_spec inode s : forall fuel prev l1 l2, pending_is s (l1 ++ l2) -> behind prev l1 -> inode ∉ l1 ->
  (length l2 < fuel)%nat ->
  wp (remove_loop fuel prev inode) s (fun _ s' => same_but_list s s' /\ pending_is s' (l1 ++ filter (fun b => b <> inode) l2)).
Proof.
  induction fuel as [|fuel IH]; intros prev l1 l2 Hl Hb Hni Hf; [lia|]. cbn [remove_loop].
  pose proof Hl as (m & H1 & H2)%sseg_app. apply wpe_bind. eapply wpe_mono; [by eapply get_pending_at| |done].
  intros r s' [-> ->]. pose proof (slist_NoDup _ _ _ Hl) as Hnd. destruct l2 as [|o l2]; cbn in H2.
  - subst m. rewrite Z.eqb_refl. apply wpe_ret. split; [apply same_but_list_refl|]. done.
  - destruct H2 as (-> & Hne & n & Hn & H2). rewrite (proj2 (Z.eqb_neq o NIL)) by done.
    pose proof Hnd as (Hnd1 & Hd & Hnd2)%NoDup_app. apply NoDup_cons in Hnd2 as [Ho Hnd2].
    destruct (Z.eqb_spec o inode) as [->|Hoi].
    + unfold pnext in Hn. destruct (fs_inodes s !! inode) as [x|] eqn:Hx; [|done]. injection Hn as <-.
      apply wpe_bind. eapply wp_get_inode; [done|]. rewrite filter_cons, decide_False by naive_solver. rewrite filter_other by done.
      eapply put_pending_skip; [done|done|done|]. intros a Ha Ha'. apply (Hd a Ha). by right.
    + rewrite filter_cons, decide_True by done. cbn in Hf. rewrite (cons_middle o l1 (filter _ _)), app_assoc.
      apply IH; [by rewrite <-app_assoc|right; by exists l1|set_solver|lia].
Qed.

Lemma same_but_list_inode s s' a x : same_but_list s s' -> fs_inodes s !! a = Some x ->
  exists v, fs_inodes s' !! a = Some (set_in_wnext v x).
Proof.
  intros (_ & Hi & _) Hx. apply (f_equal (.!! a)) in Hi. unfold unlinked in Hi. rewrite !lookup_fmap, Hx in Hi.
  destruct (fs_inodes s' !! a) as [y|]; [|done]. injection Hi as Hi. exists (in_wnext y). f_equal.
  unfold set_in_wnext. destruct x, y. cbn in *. congruence.
Qed.

Lemma lfs_add_pending_spec inode x l s : pending_is s l -> fs_inodes s !! inode = Some x -> inode <> NIL ->
  wp (lfs_add_pending inode) s (fun _ s' => same_but_list s s' /\ pending_is s' (inode :: filter (fun b => b <> inode) l)).
Proof.
  intros Hl Hx Hne. unfold lfs_add_pending, lfs_remove_pending. apply wpe_bind, wpe_bind, wpe_get.
  eapply wpe_mono; [apply (remove_loop_spec inode s _ NIL [] l Hl)|intros _ s1 [Hs1 Hl1]|done].
  - by left.
  - set_solver.
  - enough (length l <= size (fs_inodes s))%nat by lia. eapply slist_count; [|exact Hl]. intros a. unfold pnext. by rewrite fmap_is_Some.
  - apply wpe_bind, wp_get_lfs. apply wpe_bind. destruct (same_but_list_inode _ _ _ _ Hs1 Hx) as [v Hv].
    eapply wp_upd_inode; [done|]. apply wp_upd_lfs. cbn [app] in Hl1. split.
    + eapply same_but_list_trans; [done|]. repeat split. cbn. by apply unlinked_insert.
    + unfold pending_is. cbn. split_and!; [done..|]. exists (lf_pending (fs_lfs s1)). split.
      * unfold pnext. cbn. by rewrite lookup_insert_eq.
      * eapply sseg_ext; [|exact Hl1]. intros a [Ha _]%list_elem_of_filter. unfold pnext. cbn. by rewrite lookup_insert_ne by done.
Qed.
End table.
