(* ===== verification/LfsDir.v ===== *)
(** * The log-structured file system: making files

    What a directory is does not depend on the lists and the blocks of its files
    ([dir_same]), and lfs_create adds a file, or does nothing. *)
From S2P Require Import Prelude Bytes LeBytes SList Block Lfs LfsLog LfsFile LfsTable.

Local Open Scope Z_scope.
Local Open Scope c_scope.

Section dir.
Context {E : Type} `{FsHost E}.
Implicit Types (s : fs E) (x y : lfs_inode) (name : list Z).

(** ** What the directory depends on *)
Definition entry x : Z * bool * bool * list Z := (in_index x, in_created x, in_free x, in_name x).
Definition dir_same s s' : Prop :=
  lf_inodes (fs_lfs s') = lf_inodes (fs_lfs s) /\ lf_n_inodes (fs_lfs s') = lf_n_inodes (fs_lfs s) /\
  entry <$> fs_inodes s' = entry <$> fs_inodes s.

Lemma dir_same_refl s : dir_same s s.
Proof. done. Qed.
Lemma dir_same_sym s s' : dir_same s s' -> dir_same s' s.
Proof. intros (?&?&?). by repeat split. Qed.
Lemma dir_same_trans s1 s2 s3 : dir_same s1 s2 -> dir_same s2 s3 -> dir_same s1 s3.
Proof. intros (?&?&?) (?&?&?). repeat split; congruence. Qed.

Lemma dir_same_at s s' i : dir_same s s' -> inode_at (fs_lfs s') i = inode_at (fs_lfs s) i.
Proof. intros (Hi & _). unfold inode_at. by rewrite Hi. Qed.

Lemma dir_same_slot s s' i x : dir_same s s' -> slot s i x -> exists x', slot s' i x' /\ entry x' = entry x.
Proof.
  intros Hd [Hi Hx]. rewrite <-(dir_same_at s s') in Hx by done. destruct Hd as (_ & Hn & He).
  apply (f_equal (.!! inode_at (fs_lfs s') i)) in He. rewrite !lookup_fmap, Hx in He.
  destruct (fs_inodes s' !! inode_at (fs_lfs s') i) as [x'|] eqn:Hx'; [|done]. injection He as He.
  exists x'. unfold slot. rewrite Hn. split; [done|]. unfold entry. congruence.
Qed.

Lemma dir_same_file s s' name i : dir_same s s' -> is_file s name i -> is_file s' name i.
Proof.
  intros Hd (x & Hx & Hc & Hn). destruct (dir_same_slot _ _ _ _ Hd Hx) as (x' & Hx' & He). exists x'. unfold entry in He.
  split; [done|]. split; congruence.
Qed.

Lemma dir_same_files s s' name i : dir_same s s' -> is_file s' name i <-> is_file s name i.
Proof. intros Hd. split; apply dir_same_file; [by apply dir_same_sym|done]. Qed.

Lemma dir_same_table s s' : dir_same s s' -> table_ok s -> table_ok s'.
Proof.
  intros Hd (Hn & Hi & Ht). pose proof Hd as (H1 & H2 & _). unfold table_ok. rewrite H1, H2. split_and!; [lia|lia|done|].
  intros i Hib. destruct (Ht i Hib) as (x & Hx & Hidx). destruct (dir_same_slot _ _ _ _ Hd Hx) as (x' & Hx' & He).
  exists x'. split; [done|]. unfold entry in He. congruence.
Qed.

Lemma dir_same_probe s s' : dir_same s s' -> probe_ok s -> probe_ok s'.
Proof.
  intros Hd [Hp Hu]. pose proof Hd as (_ & Hn & _). split.
  - intros i x' Hx' Hc. destruct (dir_same_slot _ _ _ _ (dir_same_sym _ _ Hd) Hx') as (x & Hx & He). injection He as _ He2 He3 He4.
    destruct (Hp i x Hx) as [Hf Hway]; [congruence|]. split; [congruence|]. intros k y' Hk Hy'.
    destruct (dir_same_slot _ _ _ _ (dir_same_sym _ _ Hd) Hy') as (y & Hy & Hey). injection Hey as _ _ Hey _.
    rewrite <-Hey. unfold probe, home in *. rewrite Hn, <-He4 in *. by apply (Hway k).
  - intros name i j Hi Hj. apply (dir_same_files _ _ _ _ Hd) in Hi, Hj. by apply (Hu name).
Qed.

Lemma same_but_list_dir s s' : same_but_list s s' -> dir_same s s'.
Proof.
  intros (Hl & Hi & _). unfold dir_same. split_and!; [apply (f_equal lf_inodes Hl)|apply (f_equal lf_n_inodes Hl)|].
  apply (f_equal (fmap entry)) in Hi. unfold unlinked in Hi. by rewrite <-!map_fmap_compose in Hi.
Qed.

Lemma upd_dir_same s a x x' : fs_inodes s !! a = Some x -> entry x' = entry x -> dir_same s (set_fs_inodes (<[a := x']> (fs_inodes s)) s).
Proof.
  intros Hx He. unfold dir_same. cbn. split_and!; [done..|]. rewrite fmap_insert. apply insert_id. rewrite lookup_fmap, Hx. cbn. by rewrite He.
Qed.

(** ** An inode that is put in its place *)
Lemma slot_put s i x0 x : slot s i x0 -> forall j y,
  slot (set_fs_inodes (<[inode_at (fs_lfs s) i := x]> (fs_inodes s)) s) j y <-> j = i /\ y = x \/ j <> i /\ slot s j y.
Proof.
  intros [Hi Hx0] j y. unfold slot. cbn. destruct (decide (j = i)) as [->|Hne].
  - rewrite lookup_insert_eq. naive_solver.
  - rewrite lookup_insert_ne; [naive_solver|]. unfold inode_at, sizeof_lfs_inode. lia.
Qed.

Lemma table_put s i x0 x : table_ok s -> slot s i x0 -> in_index x = i ->
  table_ok (set_fs_inodes (<[inode_at (fs_lfs s) i := x]> (fs_inodes s)) s).
Proof.
  intros (Hn & Hi & Ht) Hx0 Hidx. split; [done|]. split; [done|]. intros j Hj. destruct (decide (j = i)) as [->|Hne].
  - exists x. split; [|done]. eapply slot_put; [done|]. by left.
  - destruct (Ht j Hj) as (y & Hy & ?). exists y. split; [|done]. eapply slot_put; [done|]. by right.
Qed.

Lemma is_file_put s i x0 x name j : slot s i x0 ->
  is_file (set_fs_inodes (<[inode_at (fs_lfs s) i := x]> (fs_inodes s)) s) name j <->
  j = i /\ in_created x = true /\ in_name x = name \/ j <> i /\ is_file s name j.
Proof.
  intros Hx0. unfold is_file. setoid_rewrite (slot_put _ _ _ x Hx0). naive_solver.
Qed.

(** A new file on the first vacant place of its way. *)
Lemma probe_put s name k x0 x : table_ok s -> probe_ok s -> (forall j, ~ is_file s name j) ->
  0 <= k < lf_n_inodes (fs_lfs s) -> slot s (probe s name k) x0 -> vacant x0 = true ->
  (forall k' y, 0 <= k' < k -> slot s (probe s name k') y -> vacant y = false) ->
  in_created x = true -> in_free x = false -> in_name x = name ->
  probe_ok (set_fs_inodes (<[inode_at (fs_lfs s) (probe s name k) := x]> (fs_inodes s)) s).
Proof.
  intros Ht [Hp Hu] Hno Hk Hx0 Hv Hway Hc Hf Hn. set (s' := set_fs_inodes _ _).
  assert (Hhome : forall nm, home s' nm = home s nm) by done. assert (Hprobe : forall nm k, probe s' nm k = probe s nm k) by done.
  split.
  - intros i y Hy Hyc. change (lf_n_inodes (fs_lfs s')) with (lf_n_inodes (fs_lfs s)). rewrite Hhome.
    apply (slot_put _ _ _ _ Hx0) in Hy as [[-> ->]|[Hne Hy]].
    + split; [done|]. rewrite Hn. rewrite probe_dist by done. intros k' z Hk' Hz.
      apply (slot_put _ _ _ _ Hx0) in Hz as [[_ ->]|[_ Hz]]; [done|]. specialize (Hway k' z Hk' Hz).
      by apply orb_false_iff in Hway as [-> _].
    + destruct (Hp i y Hy Hyc) as [Hyf Hw]. split; [done|]. intros k' z Hk' Hz.
      apply (slot_put _ _ _ _ Hx0) in Hz as [[_ ->]|[_ Hz]]; [done|]. by apply (Hw k').
  - intros nm i j Hi Hj. apply (is_file_put _ _ _ _ _ _ Hx0) in Hi, Hj.
    destruct Hi as [(-> & _ & <-)|[Hi1 Hi2]], Hj as [(-> & _ & Hj)|[Hj1 Hj2]]; [done|..].
    + rewrite Hn in Hj2. by destruct (Hno j).
    + rewrite <-Hj, Hn in Hi2. by destruct (Hno i).
    + by apply (Hu nm).
Qed.

(** The inode that lfs_create makes of [x]. *)
Definition fresh_file name x : lfs_inode := mk_lfs_inode (in_index x) true false name 0 0 false 0 NIL (in_wnext x).

Lemma inode_at_nonzero s i : table_ok s -> 0 <= i -> inode_at (fs_lfs s) i <> NIL.
Proof. intros (_ & Hi & _) ?. unfold inode_at, sizeof_lfs_inode, NIL. lia. Qed.

(** What lfs_create does when there is room. *)
Definition created s s' name l : Prop :=
  exists i x v, slot s i x /\ vacant x = true /\ slot s' i (set_in_wnext v (fresh_file name x)) /\
  pending_is s' (inode_at (fs_lfs s) i :: filter (fun b => b <> inode_at (fs_lfs s) i) l) /\
  same_but_list (set_fs_inodes (<[inode_at (fs_lfs s) i := fresh_file name x]> (fs_inodes s)) s) s' /\
  (forall nm j, is_file s' nm j <-> nm = name /\ j = i \/ nm <> name /\ is_file s nm j).

Lemma pending_is_put s a x l : fs_inodes s !! a = Some x -> pending_is s l -> forall x', in_wnext x' = in_wnext x ->
  pending_is (set_fs_inodes (<[a := x']> (fs_inodes s)) s) l.
Proof.
  intros Hx Hl x' Hw. unfold pending_is. eapply sseg_ext; [|exact Hl]. intros b _. unfold pnext. cbn.
  destruct (decide (b = a)) as [->|]; [by rewrite lookup_insert_eq, Hx; cbn; rewrite Hw|by rewrite lookup_insert_ne].
Qed.

Lemma lfs_create_spec s name l : table_ok s -> probe_ok s -> pending_is s l ->
  wp (lfs_create name) s (fun r s' => table_ok s' /\ probe_ok s' /\
    ((exists i, is_file s name i) /\ r = ERR /\ s' = s \/
     (forall i, ~ is_file s name i) /\ (forall i x, slot s i x -> vacant x = false) /\ r = ERR /\ s' = s \/
     (forall i, ~ is_file s name i) /\ r = OK /\ created s s' name l)).
Proof.
  intros Ht Hp Hl. unfold lfs_create. apply wpe_bind. eapply wpe_mono; [by apply find_file| |done].
  intros r s0 [-> [(i & Hi & ->)|[Hno ->]]].
  - pose proof Hi as (x & [? _] & _). rewrite (proj2 (Z.eqb_neq _ _)) by by (apply inode_at_nonzero; [|lia]).
    apply wpe_ret. split_and!; [done..|]. left. eauto.
  - rewrite Z.eqb_refl. cbn [negb]. apply wpe_bind. eapply wpe_mono; [by apply find_vacant| |done].
    intros r s0 [-> [(k & x & Hk & Hx & Hv & -> & Hway)|[Hall ->]]].
    + pose proof Hx as [Hb Hx']. rewrite (proj2 (Z.eqb_neq _ _)) by by (apply inode_at_nonzero; [|lia]).
      apply wpe_bind. eapply wp_get_inode; [done|]. apply wpe_bind, wpe_modify.
      set (s1 := set_fs_inodes _ s). apply wpe_bind.
      assert (Hs1 : slot s1 (probe s name k) (fresh_file name x)) by (apply (slot_put _ _ _ _ Hx); by left).
      eapply wpe_mono; [apply (lfs_add_pending_spec _ (fresh_file name x) l s1)| |done].
      * by eapply pending_is_put.
      * apply Hs1.
      * by apply inode_at_nonzero; [|lia].
      * intros _ s2 [Hs2 Hl2]. apply wpe_ret. pose proof (same_but_list_dir _ _ Hs2) as Hd.
        split; [|split].
        -- eapply dir_same_table; [done|]. eapply table_put; [done..|]. cbn. destruct Ht as (_ & _ & Ht).
           destruct (Ht _ Hb) as (y & Hy & Hidx). by rewrite (slot_det _ _ _ _ Hx Hy).
        -- eapply dir_same_probe; [done|]. by eapply probe_put.
        -- right. right. split; [done|]. split; [done|].
           destruct (same_but_list_inode _ _ _ _ Hs2 (proj2 Hs1)) as [v Hv2].
           exists (probe s name k), x, v. split_and!; [done|done| |done|done|].
           ++ pose proof Hd as (_ & Hn2 & _). split; [by rewrite Hn2|]. rewrite (dir_same_at _ _ _ Hd). done.
           ++ intros nm j. rewrite (dir_same_files _ _ _ _ Hd). unfold s1. rewrite (is_file_put _ _ _ _ _ _ Hx). cbn. split.
              ** intros [(-> & _ & <-)|[Hne Hf]]; [by left|]. right. split; [|done]. intros ->. by destruct (Hno j).
              ** intros [[-> ->]|[Hne Hf]]; [by left|]. right. split; [|done]. intros ->.
                 destruct Hf as (y & Hy & Hyc & Hyn). rewrite (slot_det _ _ _ _ Hy Hx) in *.
                 unfold vacant in Hv. destruct Hp as [Hp _]. destruct (Hp _ x Hx Hyc) as [Hyf _]. by rewrite Hyf, Hyc in Hv.
    + rewrite Z.eqb_refl. apply wpe_ret. split_and!; [done..|]. right. left. eauto.
Qed.
End dir.
