(* ===== verification/LfsCache.v ===== *)
(** * The log-structured file system: the blocks and their cache

    [blk_data] is what a block holds, wherever it is: in a frame, on the disk, or nowhere
    yet.  [cache_ok] is the invariant of the blocks; lfs_cache_blk keeps it and what every
    block holds ([data_same]). *)
From S2P Require Import Prelude Bytes LeBytes SList Crc Block Lfs LfsLog LfsFile FsHostSim LfsTable.

Local Open Scope Z_scope.
Local Open Scope c_scope.

(** ** Rules for the process *)
Section rules.
Context {E : Type} `{FsHostOk E}.
Implicit Types (s : fs E).

Abbreviation vw s := (fv (fs_env s)).

Lemma wp_request len s (Q : Z -> fs E -> Prop) : fo_inv (fs_env s) -> 0 < len < 2 ^ 32 ->
  (forall fid bs e', fo_inv e' -> 0 < fid -> fv_frames (vw s) !! fid = None -> (forall va, fv_maps (vw s) !! va <> Some fid) ->
    zlen bs = len -> Forall is_byte bs ->
    fv e' = set_fv_frames (<[fid := bs]> (fv_frames (vw s))) (vw s) -> Q fid (set_fs_env e' s)) -> wp (fs_request len) s Q.
Proof.
  intros Hi Hl HQ. destruct (fo_request len _ Hi Hl) as (fid & bs & e' & Hr & ? & ? & ? & ? & ? & ? & ?).
  unfold fs_request. eapply wp_env; [exact Hr|eauto].
Qed.
Lemma wp_release fid s (Q : unit -> fs E -> Prop) : fo_inv (fs_env s) -> is_Some (fv_frames (vw s) !! fid) ->
  (forall va, fv_maps (vw s) !! va <> Some fid) ->
  (forall e', fo_inv e' -> fv e' = set_fv_frames (delete fid (fv_frames (vw s))) (vw s) -> Q tt (set_fs_env e' s)) ->
  wp (fs_release fid) s Q.
Proof.
  intros Hi Hf Hm HQ. destruct (fo_release fid _ Hi Hf Hm) as (r & e' & Hr & ? & ?).
  unfold fs_release. apply wpe_bind. eapply wp_env; [exact Hr|]. apply wpe_ret. eauto.
Qed.
Lemma wp_frame_map fid s (Q : Z -> fs E -> Prop) : fo_inv (fs_env s) -> is_Some (fv_frames (vw s) !! fid) ->
  (forall va e', fo_inv e' -> va <> NIL -> fv_maps (vw s) !! va = None -> fv e' = set_fv_maps (<[va := fid]> (fv_maps (vw s))) (vw s) ->
    Q va (set_fs_env e' s)) -> wp (frame_map fid) s Q.
Proof.
  intros Hi Hf HQ. destruct (fo_map fid _ Hi Hf) as (va & e' & Hr & ? & ? & ? & ?).
  unfold frame_map. eapply wp_env; [exact Hr|eauto].
Qed.
Lemma wp_unmap fid va s (Q : unit -> fs E -> Prop) : fo_inv (fs_env s) -> fv_maps (vw s) !! va = Some fid ->
  (forall e', fo_inv e' -> fv e' = set_fv_maps (delete va (fv_maps (vw s))) (vw s) -> Q tt (set_fs_env e' s)) ->
  wp (unmap fid va) s Q.
Proof.
  intros Hi Hf HQ. destruct (fo_unmap fid va _ Hi Hf) as (r & e' & Hr & ? & ?).
  unfold unmap. apply wpe_bind. eapply wp_env; [exact Hr|]. apply wpe_ret. eauto.
Qed.
Lemma wp_load fid va bs o len s (Q : list Z -> fs E -> Prop) : fo_inv (fs_env s) -> fv_maps (vw s) !! va = Some fid ->
  fv_frames (vw s) !! fid = Some bs -> 0 <= o -> 0 <= len -> o + len <= zlen bs ->
  (forall e', fo_inv e' -> fv e' = vw s -> Q (part bs o len) (set_fs_env e' s)) -> wp (env (fh_load va o len)) s Q.
Proof.
  intros Hi Hm Hf ? ? ? HQ. destruct (fo_load fid va bs o len _ Hi Hm Hf) as (e' & Hr & ? & ?); [done..|].
  eapply wp_env; [exact Hr|eauto].
Qed.
Lemma wp_store fid va bs o b s (Q : unit -> fs E -> Prop) : fo_inv (fs_env s) -> fv_maps (vw s) !! va = Some fid ->
  fv_frames (vw s) !! fid = Some bs -> Forall is_byte b -> 0 <= o -> o + zlen b <= zlen bs ->
  (forall e', fo_inv e' -> fv e' = set_fv_frames (<[fid := patch bs o b]> (fv_frames (vw s))) (vw s) -> Q tt (set_fs_env e' s)) ->
  wp (env (fh_store va o b)) s Q.
Proof.
  intros Hi Hm Hf ? ? ? HQ. destruct (fo_store fid va bs o b _ Hi Hm Hf) as (e' & Hr & ? & ?); [done..|].
  eapply wp_env; [exact Hr|eauto].
Qed.
Lemma wp_checksum fid va bs o len s (Q : Z -> fs E -> Prop) : fo_inv (fs_env s) -> fv_maps (vw s) !! va = Some fid ->
  fv_frames (vw s) !! fid = Some bs -> 0 <= o -> 0 <= len -> o + len <= zlen bs ->
  (forall e', fo_inv e' -> fv e' = vw s -> Q (crc_checksum (part bs o len)) (set_fs_env e' s)) -> wp (checksum va o len) s Q.
Proof. intros. unfold checksum. apply wpe_bind. eapply wp_load; [eassumption..|]. intros. apply wpe_ret. eauto. Qed.
Lemma wp_ld32 fid va bs o s (Q : Z -> fs E -> Prop) : fo_inv (fs_env s) -> fv_maps (vw s) !! va = Some fid ->
  fv_frames (vw s) !! fid = Some bs -> 0 <= o -> o + 4 <= zlen bs ->
  (forall e', fo_inv e' -> fv e' = vw s -> Q (word32 bs o) (set_fs_env e' s)) -> wp (ld32 va o) s Q.
Proof. intros. unfold ld32. apply wpe_bind. eapply wp_load; [eassumption..|lia|lia|]. intros. apply wpe_ret. eauto. Qed.
Lemma wp_st32 fid va bs o x s (Q : unit -> fs E -> Prop) : fo_inv (fs_env s) -> fv_maps (vw s) !! va = Some fid ->
  fv_frames (vw s) !! fid = Some bs -> 0 <= o -> o + 4 <= zlen bs ->
  (forall e', fo_inv e' -> fv e' = set_fv_frames (<[fid := patch bs o (le32 x)]> (fv_frames (vw s))) (vw s) -> Q tt (set_fs_env e' s)) ->
  wp (st32 va o x) s Q.
Proof.
  intros. unfold st32. eapply wp_store; [eassumption..|apply le_bytes_ok|done| |done]. unfold le32. by rewrite le_bytes_length.
Qed.
Lemma wp_block_read eid fid bs blk n s (Q : Z -> fs E -> Prop) : fo_inv (fs_env s) -> fv_frames (vw s) !! fid = Some bs ->
  0 <= blk -> 0 < n -> n * fv_sec (vw s) <= zlen bs -> (blk + n) * fv_sec (vw s) <= zlen (fv_disk (vw s)) ->
  (forall e', fo_inv e' ->
    fv e' = set_fv_frames (<[fid := patch bs 0 (part (fv_disk (vw s)) (blk * fv_sec (vw s)) (n * fv_sec (vw s)))]> (fv_frames (vw s))) (vw s) ->
    Q OK (set_fs_env e' s)) -> wp (env (block_read eid fid blk n)) s Q.
Proof.
  intros Hi Hf ? ? ? ? HQ. destruct (fo_read eid fid bs blk n _ Hi Hf) as (e' & Hr & ? & ?); [done..|].
  eapply wp_env; [unfold block_read; by erewrite bind_ok by exact Hr|]. eauto.
Qed.
Lemma wp_block_write eid fid bs blk n s (Q : Z -> fs E -> Prop) : fo_inv (fs_env s) -> fv_frames (vw s) !! fid = Some bs ->
  0 <= blk -> 0 < n -> n * fv_sec (vw s) <= zlen bs -> (blk + n) * fv_sec (vw s) <= zlen (fv_disk (vw s)) ->
  (forall e', fo_inv e' -> fv e' = fv_write (blk * fv_sec (vw s)) (part bs 0 (n * fv_sec (vw s))) (vw s) -> Q OK (set_fs_env e' s)) ->
  wp (env (block_write eid fid blk n)) s Q.
Proof.
  intros Hi Hf ? ? ? ? HQ. destruct (fo_write eid fid bs blk n _ Hi Hf) as (e' & Hr & ? & ?); [done..|].
  eapply wp_env; [unfold block_write; by erewrite bind_ok by exact Hr|]. eauto.
Qed.
Lemma wp_fs_malloc len s (Q : Z * list Z -> fs E -> Prop) : fo_inv (fs_env s) -> 0 < len ->
  (forall a bs e', fo_inv e' -> fresh_range (fv_used (vw s)) a len -> zlen bs = len -> Forall is_byte bs ->
    (fv_clean (vw s) = true -> Forall (eq 0) bs) -> fv e' = set_fv_used (<[a := len]> (fv_used (vw s))) (vw s) ->
    Q (a, bs) (set_fs_env e' s)) -> wp (fs_malloc len) s Q.
Proof.
  intros Hi Hl HQ. destruct (fo_malloc len _ Hi Hl) as (a & bs & e' & Hr & ? & ? & ? & ? & ? & ?).
  unfold fs_malloc. eapply wp_env; [exact Hr|eauto].
Qed.
Lemma wp_fs_free a s (Q : unit -> fs E -> Prop) : fo_inv (fs_env s) -> is_Some (fv_used (vw s) !! a) ->
  (forall e', fo_inv e' -> fv e' = set_fv_used (delete a (fv_used (vw s))) (vw s) -> Q tt (set_fs_env e' s)) ->
  wp (fs_free a) s Q.
Proof.
  intros Hi Ha HQ. destruct (fo_free a _ Hi Ha) as (e' & Hr & ? & ?). unfold fs_free. eapply wp_env; [exact Hr|eauto].
Qed.
End rules.

(** ** Blocks *)
Section cache.
Context {E : Type} `{FsHostOk E}.
Implicit Types (s : fs E) (x : lfs_blk).
Abbreviation vw s := (fv (fs_env s)).

Definition zeros : list Z := replicate 4096 0.
(** A block of the disk behind seg_start. *)
Definition disk_blk s (b : Z) : list Z := part (fv_disk (vw s)) (sec_of_blk (fs_lfs s) b * fv_sec (vw s)) lfs_blk_size.
Definition blk_data s x : list Z :=
  if bl_cached x then default [] (fv_frames (vw s) !! bl_mem_fid x)
  else if bl_empty x then zeros
  else disk_blk s (bl_blk x).

Definition on_disk s (b : Z) : Prop :=
  (sec_of_blk (fs_lfs s) b + lf_sec_per_blk (fs_lfs s)) * fv_sec (vw s) <= zlen (fv_disk (vw s)).
(** The frame of a block, and the only place where it is mapped. *)
Definition frame_ok s (fid addr : Z) : Prop :=
  0 < fid /\ addr <> NIL /\ fid <> lf_checkpoint_fid (fs_lfs s) /\ (forall va, fv_maps (vw s) !! va = Some fid <-> va = addr) /\
  exists bs, fv_frames (vw s) !! fid = Some bs /\ zlen bs = lfs_blk_size /\ Forall is_byte bs.
Definition blk_ok s (b : Z) x : Prop :=
  b <> NIL /\ fv_used (vw s) !! b = Some sizeof_lfs_blk /\
  (bl_cached x = true -> frame_ok s (bl_mem_fid x) (bl_addr x)) /\
  (bl_cached x = false -> bl_empty x = false ->
    bl_written x = true /\ on_disk s (bl_blk x) /\ crc_checksum (disk_blk s (bl_blk x)) = bl_crc x).

(** The process and the shape of the disk. *)
Record host_ok s : Prop := {
  ho_inv : fo_inv (fs_env s);
  ho_sec : 0 < fv_sec (vw s) /\ 0 < lf_sec_per_blk (fs_lfs s) /\ lf_sec_per_blk (fs_lfs s) * fv_sec (vw s) = lfs_blk_size;
  ho_disk : Forall is_byte (fv_disk (vw s));
  ho_cp : is_Some (fv_frames (vw s) !! lf_checkpoint_fid (fs_lfs s))
}.
Record cache_ok s : Prop := {
  co_host : host_ok s;
  co_blk : forall b x, fs_blks s !! b = Some x -> blk_ok s b x;
  co_fid : forall b b' x x', fs_blks s !! b = Some x -> fs_blks s !! b' = Some x' -> bl_cached x = true -> bl_cached x' = true ->
    bl_mem_fid x = bl_mem_fid x' -> b = b'
}.

(** The fields that do not say where the data is kept in memory. *)
Definition core x : Z * bool * Z * Z * Z * bool * Z :=
  (bl_inode x, bl_written x, bl_blk x, bl_crc x, bl_off x, bl_empty x, bl_bnext x).
(** Nothing but the places of data in memory is different. *)
Record data_same s s' : Prop := {
  ds_lfs : fs_lfs s' = fs_lfs s;
  ds_inodes : fs_inodes s' = fs_inodes s;
  ds_segs : fs_segs s' = fs_segs s;
  ds_used : fv_used (vw s') = fv_used (vw s);
  ds_clean : fv_clean (vw s') = fv_clean (vw s);
  ds_disk : fv_disk (vw s') = fv_disk (vw s);
  ds_sec : fv_sec (vw s') = fv_sec (vw s);
  ds_writes : fv_writes (vw s') = fv_writes (vw s);
  ds_core : core <$> fs_blks s' = core <$> fs_blks s;
  ds_data : forall b x x', fs_blks s !! b = Some x -> fs_blks s' !! b = Some x' -> blk_data s' x' = blk_data s x
}.

Lemma data_same_refl s : data_same s s.
Proof. constructor; try done. intros b x x' Hx Hx'. congruence. Qed.

Lemma data_same_blk s s' b x : data_same s s' -> fs_blks s !! b = Some x -> exists x', fs_blks s' !! b = Some x' /\ core x' = core x /\ blk_data s' x' = blk_data s x.
Proof.
  intros Hd Hx. pose proof (ds_core _ _ Hd) as Hc. apply (f_equal (.!! b)) in Hc. rewrite !lookup_fmap, Hx in Hc.
  destruct (fs_blks s' !! b) as [x'|] eqn:Hx'; [|done]. exists x'. split; [done|]. split; [|by eapply ds_data].
  cbn in Hc. congruence.
Qed.

Lemma data_same_trans s1 s2 s3 : data_same s1 s2 -> data_same s2 s3 -> data_same s1 s3.
Proof.
  intros H1 H2. pose proof H1 as []. pose proof H2 as []. constructor; try congruence.
  intros b x x' Hx Hx'. destruct (data_same_blk _ _ _ _ H1 Hx) as (y & Hy & _ & Hd). rewrite <-Hd. by eapply ds_data.
Qed.

(** The data of a block is a block long. *)
Lemma disk_blk_length s b : 0 <= sec_of_blk (fs_lfs s) b -> host_ok s -> on_disk s b -> zlen (disk_blk s b) = lfs_blk_size.
Proof.
  intros Hb [_ (? & ? & Hs) _ _] Ho. unfold on_disk in Ho. unfold disk_blk. apply length_part; [nia|unfold lfs_blk_size; lia|].
  rewrite <-Hs. lia.
Qed.

Lemma sec_of_blk_nonneg l b : 0 <= sec_of_blk l b.
Proof. unfold sec_of_blk. apply u32_bound. Qed.

Lemma blk_data_ok s b x : cache_ok s -> fs_blks s !! b = Some x -> zlen (blk_data s x) = lfs_blk_size /\ Forall is_byte (blk_data s x).
Proof.
  intros Hc Hx. destruct (co_blk _ Hc _ _ Hx) as (_ & _ & Hf & Hd). unfold blk_data. destruct (bl_cached x).
  - destruct (Hf eq_refl) as (_ & _ & _ & _ & bs & -> & Hl & Hb). done.
  - destruct (bl_empty x).
    + split; [done|]. apply Forall_replicate. unfold is_byte. lia.
    + destruct (Hd eq_refl eq_refl) as (_ & Ho & _). split; [by apply disk_blk_length, Ho; [apply sec_of_blk_nonneg|apply Hc]|].
      apply Forall_part. apply Hc.
Qed.

(** ** lfs_cache_blk *)
Definition cached_at (fid va : Z) x : lfs_blk := set_bl_cached true (set_bl_addr va (set_bl_mem_fid fid x)).
Definition with_frame (fid va : Z) (bs : list Z) (v : fview) : fview :=
  set_fv_maps (<[va := fid]> (fv_maps v)) (set_fv_frames (<[fid := bs]> (fv_frames v)) v).

Lemma cached_ok s b x fid va bs e' : cache_ok s -> fs_blks s !! b = Some x -> bl_cached x = false -> fo_inv e' ->
  0 < fid -> fv_frames (vw s) !! fid = None -> (forall va, fv_maps (vw s) !! va <> Some fid) -> va <> NIL -> fv_maps (vw s) !! va = None ->
  bs = blk_data s x -> fv e' = with_frame fid va bs (vw s) ->
  let s' := set_fs_env e' (set_fs_blks (<[b := cached_at fid va x]> (fs_blks s)) s) in cache_ok s' /\ data_same s s'.
Proof.
  intros Hc Hx Hnc Hi Hfid Hfr Hnm Hva Hmp Hbs Hfv s'.
  assert (Hcp : fid <> lf_checkpoint_fid (fs_lfs s)) by (intros ->; destruct (ho_cp _ (co_host _ Hc)) as [? Hcp]; congruence).
  assert (Hold : forall c y, fs_blks s !! c = Some y -> bl_cached y = true -> bl_mem_fid y <> fid).
  { intros c y Hy Hyc. destruct (co_blk _ Hc _ _ Hy) as (_ & _ & Hf & _). destruct (Hf Hyc) as (_ & _ & _ & _ & ? & Hf' & _). congruence. }
  assert (Hdata : forall c y, fs_blks s !! c = Some y -> blk_data s' y = blk_data s y).
  { intros c y Hy. unfold blk_data. destruct (bl_cached y) eqn:Hyc.
    - cbn. rewrite Hfv. cbn. rewrite lookup_insert_ne by (intros ?; by eapply Hold). done.
    - destruct (bl_empty y); [done|]. unfold disk_blk. cbn. by rewrite Hfv. }
  assert (Hnew : blk_data s' (cached_at fid va x) = blk_data s x).
  { unfold blk_data at 1. cbn. rewrite Hfv. cbn. by rewrite lookup_insert_eq. }
  destruct (blk_data_ok _ _ _ Hc Hx) as [Hlen Hbytes]. split.
  - split.
    + destruct (co_host _ Hc) as [_ Hs Hd Hcpf]. split; cbn; rewrite ?Hfv; cbn; [done|done|done|]. by rewrite lookup_insert_ne.
    + intros c y. cbn. rewrite lookup_insert_Some. intros [[<- <-]|[Hne Hy]]; unfold blk_ok; cbn; rewrite Hfv; cbn.
      * destruct (co_blk _ Hc _ _ Hx) as (? & ? & _ & _). split_and!; [done|done| |done]. intros _. unfold frame_ok. cbn. rewrite Hfv. cbn.
        split_and!; [done..| |].
        -- intros v. destruct (decide (v = va)) as [->|]; [by rewrite lookup_insert_eq|]. rewrite lookup_insert_ne by done.
           split; [intros Hv; by destruct (Hnm v)|done].
        -- exists bs. rewrite lookup_insert_eq, Hbs. done.
      * destruct (co_blk _ Hc _ _ Hy) as (? & ? & Hf & Hd). split_and!; [done|done| |].
        -- intros Hyc. destruct (Hf Hyc) as (? & ? & ? & Hm & bs' & Hb' & ?). unfold frame_ok. cbn. rewrite Hfv. cbn.
           split_and!; [done..| |].
           ++ intros v. destruct (decide (v = va)) as [->|]; [|rewrite lookup_insert_ne by done; apply Hm].
              rewrite lookup_insert_eq. split; [intros [= ->]; by destruct (Hold c y Hy Hyc)|]. intros ->.
              rewrite (proj2 (Hm _) eq_refl) in Hmp. done.
           ++ exists bs'. rewrite lookup_insert_ne; [done|]. intros ?; by eapply Hold.
        -- unfold on_disk, disk_blk. cbn. rewrite Hfv. exact Hd.
    + intros c c' y y'. cbn. rewrite !lookup_insert_Some.
      intros [[<- <-]|[Hne Hy]] [[<- <-]|[Hne' Hy']] Hyc Hyc' Heq; cbn in Heq; [done|..].
      * by destruct (Hold c' y' Hy' Hyc').
      * by destruct (Hold c y Hy Hyc).
      * by eapply (co_fid _ Hc).
  - split; cbn; rewrite ?Hfv; try done.
    + rewrite fmap_insert. apply insert_id. rewrite lookup_fmap, Hx. done.
    + intros c y y' Hy. rewrite lookup_insert_Some. intros [[<- <-]|[Hne Hy']].
      * assert (y = x) as -> by congruence. exact Hnew.
      * assert (y' = y) as -> by congruence. by apply (Hdata c).
Qed.

(** What the frame is filled with. *)
Lemma lfs_cache_blk_spec s b x : cache_ok s -> fs_blks s !! b = Some x ->
  wp (lfs_cache_blk b) s (fun r s' => r = OK /\ cache_ok s' /\ data_same s s' /\ exists x', fs_blks s' !! b = Some x' /\ bl_cached x' = true).
Proof.
  intros Hc Hx. unfold lfs_cache_blk. apply wpe_bind. eapply wp_get_blk; [done|]. destruct (bl_cached x) eqn:Hcx.
  { apply wpe_ret. split_and!; [done..|apply data_same_refl|]. by exists x. }
  pose proof (co_host _ Hc) as [Hi (Hsec & Hspb & Hsz) Hdisk Hcp]. destruct (co_blk _ Hc _ _ Hx) as (_ & _ & _ & Hd).
  destruct (blk_data_ok _ _ _ Hc Hx) as [Hlen Hbytes].
  apply wpe_bind. apply wp_request; [done|done|]. intros fid bs e1 Hi1 Hfid Hfr Hnm Hbl Hbb He1.
  apply wpe_bind. eapply wp_upd_blk; [exact Hx|]. rewrite (proj2 (Z.ltb_ge _ _)) by lia. apply wpe_bind, wp_get_lfs. cbn [fs_lfs set_fs_blks set_fs_env].
  assert (Hread : forall Q : Z -> fs E -> Prop, (forall bs1 e2, fo_inv e2 -> zlen bs1 = lfs_blk_size -> (bl_empty x = false -> bs1 = blk_data s x) ->
      fv e2 = set_fv_frames (<[fid := bs1]> (fv_frames (vw s))) (vw s) ->
      Q OK (set_fs_env e2 (set_fs_blks (<[b := set_bl_mem_fid fid x]> (fs_blks s)) s))) ->
    wp (if negb (bl_empty x) then env (block_read (lf_blk_cid (fs_lfs s)) fid (sec_of_blk (fs_lfs s) (bl_blk x)) (lf_sec_per_blk (fs_lfs s))) else ret OK)
      (set_fs_blks (<[b := set_bl_mem_fid fid x]> (fs_blks (set_fs_env e1 s))) (set_fs_env e1 s)) Q).
  { intros Q HQ. destruct (bl_empty x) eqn:He; cbn [negb].
    - apply wpe_ret. apply (HQ bs e1); [done..|]. by rewrite He1.
    - destruct (Hd Hcx eq_refl) as (_ & Ho & _). pose proof (sec_of_blk_nonneg (fs_lfs s) (bl_blk x)).
      eapply wp_block_read; cbn; rewrite ?He1; cbn; [done|apply lookup_insert_eq|lia|lia|lia|exact Ho|].
      intros e2 Hi2 He2. rewrite Hsz in He2. apply (HQ (disk_blk s (bl_blk x))); [done|by apply disk_blk_length; [..|apply Hc|]| |].
      + intros _. unfold blk_data. by rewrite Hcx, He.
      + rewrite He2. unfold set_fv_frames. cbn. rewrite insert_insert_eq. rewrite patch_all; [done|].
        pose proof (disk_blk_length s (bl_blk x)). unfold disk_blk in *. apply Nat2Z.inj. rewrite H2 by (done || apply Hc). done. }
  apply wpe_bind. apply Hread. intros bs1 e2 Hi2 Hl1 Hbs1 He2. rewrite Z.eqb_refl. cbn [negb].
  apply wpe_bind. apply wp_frame_map; cbn; [done|rewrite He2; cbn; rewrite lookup_insert_eq; by eexists|].
  intros va e3 Hi3 Hva Hmp He3. rewrite He2 in Hmp, He3. cbn in Hmp, He3.
  apply wpe_bind. eapply wp_upd_blk; [cbn; by rewrite lookup_insert_eq|]. rewrite (proj2 (Z.eqb_neq _ _)) by done. cbn.
  (* the block is in its frame *)
  assert (Hend : forall e4 bs4, fo_inv e4 -> bs4 = blk_data s x -> fv e4 = with_frame fid va bs4 (vw s) ->
    wp (upd_blk b (set_bl_cached true) ;;; ret OK)
      (set_fs_env e4 (set_fs_blks (<[b := set_bl_addr va (set_bl_mem_fid fid x)]> (<[b := set_bl_mem_fid fid x]> (fs_blks s))) s))
      (fun r s' => r = OK /\ cache_ok s' /\ data_same s s' /\ exists x', fs_blks s' !! b = Some x' /\ bl_cached x' = true)).
  { intros e4 bs4 Hi4 Hb4 He4. apply wpe_bind. eapply wp_upd_blk; [cbn; by rewrite lookup_insert_eq|]. apply wpe_ret. split; [done|].
    unfold set_fs_blks, set_fs_env. cbn. rewrite !insert_insert_eq.
    destruct (cached_ok s b x fid va bs4 e4) as [Hc' Hd']; [done..|]. split; [exact Hc'|]. split; [exact Hd'|].
    exists (cached_at fid va x). split; [apply lookup_insert_eq|done]. }
  destruct (bl_empty x) eqn:He; cbn [negb].
  - apply wpe_bind. eapply wp_store; cbn; rewrite ?He3; cbn; [done|apply lookup_insert_eq|apply lookup_insert_eq| |done| |].
    + apply Forall_replicate. unfold is_byte. lia.
    + rewrite length_replicate. lia.
    + intros e4 Hi4 He4. apply (Hend e4 zeros); [done|unfold blk_data; by rewrite Hcx, He|].
      rewrite He4. unfold set_fv_frames, with_frame, set_fv_maps. cbn. rewrite insert_insert_eq. rewrite patch_all; [done|].
      rewrite length_replicate. unfold lfs_blk_size in *. lia.
  - destruct (Hd Hcx eq_refl) as (_ & _ & Hcrc). specialize (Hbs1 eq_refl).
    apply wpe_bind. eapply wp_checksum; cbn; rewrite ?He3; cbn; [done|apply lookup_insert_eq|apply lookup_insert_eq|done|done|lia|].
    intros e4 Hi4 He4. rewrite <-Hl1 at 1. rewrite part_all. rewrite Hbs1 at 1. unfold blk_data at 1. rewrite Hcx, He, Hcrc, Z.eqb_refl. cbn [negb].
    apply (Hend e4 bs1); [done..|]. rewrite He4. done.
Qed.
End cache.
