(* ===== verification/LfsRead.v ===== *)
(** * The log-structured file system: the blocks of a file, and reading

    A file is the list of its blocks ([blks_of]); its content is their data, one after
    the other ([content]).  lfs_read gives the part of it that was asked for. *)
From S2P Require Import Prelude Bytes LeBytes SList Crc Block Lfs LfsLog LfsFile FsHostSim LfsTable LfsDir LfsCache.

Local Open Scope Z_scope.
Local Open Scope c_scope.

Section content.
Context {E : Type} `{FsHostOk E}.
Implicit Types (s : fs E) (x : lfs_blk).

Definition bnx s (b : Z) : option Z := bl_bnext <$> fs_blks s !! b.
Definition owner s (b : Z) : option Z := bl_inode <$> fs_blks s !! b.
Definition blks_of s (h : Z) (l : list Z) : Prop := slist (bnx s) h l.
Definition data_at s (b : Z) : list Z := from_option (blk_data s) [] (fs_blks s !! b).
Definition content s (l : list Z) : list Z := mjoin (data_at s <$> l).

Lemma blks_at s h l b : blks_of s h l -> b ∈ l -> b <> NIL /\ exists x, fs_blks s !! b = Some x.
Proof.
  intros Hl Hb. destruct (sseg_elem _ _ _ _ _ Hl Hb) as [? [n Hn]]. split; [done|]. unfold bnx in Hn. destruct (fs_blks s !! b); [eauto|done].
Qed.

Lemma data_same_bnx s s' b : data_same s s' -> bnx s' b = bnx s b.
Proof.
  intros Hd. pose proof (ds_core _ _ Hd) as Hc. apply (f_equal (.!! b)) in Hc. rewrite !lookup_fmap in Hc. unfold bnx.
  destruct (fs_blks s' !! b), (fs_blks s !! b); try done. unfold core in Hc. cbn in Hc |- *. congruence.
Qed.

Lemma data_same_blks s s' h l : data_same s s' -> blks_of s h l -> blks_of s' h l.
Proof. intros Hd. apply sseg_ext. intros b _. by apply data_same_bnx. Qed.

Lemma data_same_at s s' b : data_same s s' -> data_at s' b = data_at s b.
Proof.
  intros Hd. unfold data_at. pose proof (ds_core _ _ Hd) as Hc. apply (f_equal (.!! b)) in Hc. rewrite !lookup_fmap in Hc.
  destruct (fs_blks s' !! b) eqn:Hx', (fs_blks s !! b) eqn:Hx; try done. cbn. by eapply ds_data.
Qed.

Lemma data_same_content s s' l : data_same s s' -> content s' l = content s l.
Proof. intros Hd. unfold content. f_equal. apply list_fmap_ext. intros i b _. by apply data_same_at. Qed.

Lemma data_at_ok s b h l : cache_ok s -> blks_of s h l -> b ∈ l -> zlen (data_at s b) = lfs_blk_size /\ Forall is_byte (data_at s b).
Proof.
  intros Hc Hl Hb. destruct (blks_at _ _ _ _ Hl Hb) as (_ & x & Hx). unfold data_at. rewrite Hx. by eapply blk_data_ok.
Qed.

Lemma content_app s l1 l2 : content s (l1 ++ l2) = content s l1 ++ content s l2.
Proof. unfold content. by rewrite fmap_app, join_app. Qed.

Lemma content_length s h l e : cache_ok s -> sseg (bnx s) h l e -> zlen (content s l) = lfs_blk_size * zlen l.
Proof.
  intros Hc. revert h. induction l as [|b l IH]; intros h; [done|]. intros (_ & _ & n & Hn & Hl). change (b :: l) with ([b] ++ l).
  rewrite content_app, !length_app. specialize (IH _ Hl). unfold content at 1. cbn. rewrite app_nil_r. unfold bnx in Hn. unfold data_at.
  destruct (fs_blks s !! b) as [x|] eqn:Hx; [|done]. destruct (blk_data_ok s b x Hc Hx) as [Hd _]. cbn. lia.
Qed.

(** ** Finding a block *)
(** The place behind the blocks [l1]. *)
Definition place_is (prev : Z) (l1 : list Z) : Prop :=
  prev = NIL /\ l1 = [] \/ prev <> NIL /\ exists l0, l1 = l0 ++ [prev].

Lemma get_blks_at_spec s a i prev l1 m : fs_inodes s !! a = Some i -> place_is prev l1 -> sseg (bnx s) (in_blks i) l1 m ->
  wp (get_blks_at a prev) s (fun r s' => s' = s /\ r = m).
Proof.
  intros Hi [[-> ->]|[Hne [l0 ->]]] Hs; unfold get_blks_at.
  - apply wpe_bind. eapply wp_get_inode; [done|]. by cbn in Hs.
  - rewrite (proj2 (Z.eqb_neq _ _)) by done. apply sseg_last in Hs as [_ Hn]. unfold bnx in Hn.
    destruct (fs_blks s !! prev) as [x|] eqn:Hx; [|done]. injection Hn as <-. apply wpe_bind. by eapply wp_get_blk.
Qed.

Lemma place_next prev l1 b : b <> NIL -> place_is prev l1 -> place_is b (l1 ++ [b]).
Proof. intros ? _. right. split; [done|]. by exists l1. Qed.

Lemma get_blk_find s a i : fs_inodes s !! a = Some i -> forall fuel l1 l2 prev k, blks_of s (in_blks i) (l1 ++ l2) -> place_is prev l1 ->
  0 <= k < 2 ^ 52 -> k < Z.of_nat fuel ->
  wp (get_blk_loop fuel a prev (k * lfs_blk_size) false) s (fun r s' => s' = s /\ r = default NIL (l2 !! Z.to_nat k)).
Proof.
  intros Hi. induction fuel as [|fuel IH]; intros l1 l2 prev k Hl Hp Hk Hf; [lia|]. cbn [get_blk_loop].
  pose proof Hl as (m & H1 & H2)%sseg_app. apply wpe_bind. eapply wpe_mono; [by eapply get_blks_at_spec| |done]. intros r s' [-> ->].
  destruct l2 as [|b l2]; cbn in H2.
  - subst m. rewrite Z.eqb_refl. apply wpe_bind, wpe_ret. rewrite Z.eqb_refl. apply wpe_ret. done.
  - destruct H2 as (-> & Hne & n & Hn & H2). rewrite (proj2 (Z.eqb_neq b _)) by done. apply wpe_bind, wpe_ret.
    rewrite (proj2 (Z.eqb_neq b _)) by done. destruct (Z.eqb_spec (k * lfs_blk_size) 0) as [Hk0|Hk0].
    + apply wpe_ret. assert (k = 0) as -> by (unfold lfs_blk_size in Hk0; lia). done.
    + assert (0 < k) by (unfold lfs_blk_size in Hk0; lia).
      replace (u64 (k * lfs_blk_size - lfs_blk_size)) with ((k - 1) * lfs_blk_size)
        by (unfold u64, lfs_blk_size; rewrite Z.mod_small by lia; lia).
      eapply wpe_mono; [apply (IH (l1 ++ [b]) l2 b (k - 1))| |done].
      * by rewrite <-app_assoc.
      * by eapply place_next.
      * lia.
      * lia.
      * intros r s' [-> ->]. split; [done|]. replace (Z.to_nat k) with (S (Z.to_nat (k - 1))) by lia. done.
Qed.

(** ** Reading *)
Lemma in_this_blk_spec b_off len : 0 <= b_off < lfs_blk_size -> 0 <= len < 2 ^ 32 ->
  in_this_blk b_off len = Z.min len (lfs_blk_size - b_off).
Proof.
  unfold in_this_blk, lfs_blk_size. intros Hb Hl. replace (u64 (b_off + len)) with (b_off + len) by (unfold u64; rewrite Z.mod_small; lia).
  destruct (Z.ltb_spec 4096 (b_off + len)); [rewrite u32_small|]; lia.
Qed.

Lemma read_loop_spec : forall fuel s l b buf pos b_off len, cache_ok s -> blks_of s b l ->
  0 <= b_off < lfs_blk_size -> 0 <= pos -> 0 <= len < 2 ^ 32 -> len < Z.of_nat fuel -> pos + len <= zlen buf ->
  (0 < len -> b_off + len <= lfs_blk_size * zlen l) ->
  wp (read_loop fuel b buf pos b_off len) s (fun '(r, buf') s' =>
    r = OK /\ buf' = patch buf pos (part (content s l) b_off len) /\ cache_ok s' /\ data_same s s').
Proof.
  induction fuel as [|fuel IH]; intros s l b buf pos b_off len Hc Hl Hb Hp Hlen Hf Hbuf Hfit; [lia|]. cbn [read_loop].
  destruct (Z.ltb_spec 0 len) as [Hpos|Hpos]; cbn [negb].
  2:{ apply wpe_ret. replace len with 0 by lia. rewrite part_nil, patch_nil. split_and!; [done..|apply data_same_refl]. }
  destruct l as [|c l]; [unfold lfs_blk_size in *; cbn in Hfit; lia|]. pose proof Hl as (-> & Hne & n & Hn & Hl').
  rewrite (proj2 (Z.eqb_neq c _)) by done. unfold bnx in Hn. destruct (fs_blks s !! c) as [x|] eqn:Hx; [|done]. injection Hn as <-.
  apply wpe_bind. eapply wpe_mono; [by eapply lfs_cache_blk_spec| |done]. intros r s1 (-> & Hc1 & Hd1 & x1 & Hx1 & Hcx1).
  rewrite Z.eqb_refl. cbn [negb]. rewrite in_this_blk_spec by done. set (n := Z.min len (lfs_blk_size - b_off)).
  assert (0 < n <= len /\ b_off + n <= lfs_blk_size) as [Hn1 Hn2] by lia.
  apply wpe_bind. eapply wp_get_blk; [done|]. destruct (co_blk _ Hc1 _ _ Hx1) as (_ & _ & Hfr & _).
  destruct (Hfr Hcx1) as (_ & _ & _ & Hm & bs & Hbs & Hbl & Hbb).
  apply wpe_bind. eapply wp_load; [apply Hc1|by apply Hm|exact Hbs|lia|lia|lia|]. intros e2 Hi2 He2.
  rewrite (proj2 (Z.ltb_ge _ _)) by lia.
  set (s2 := set_fs_env e2 s1).
  assert (Hd12 : data_same s1 s2).
  { split; cbn; rewrite ?He2; try done. intros b' y y' Hy Hy'. unfold blk_data, disk_blk, s2. cbn. rewrite He2. by assert (y = y') as -> by congruence. }
  assert (Hc2 : cache_ok s2).
  { destruct Hc1 as [[? ? ? ?] Hcb Hcf]. split; [split; cbn; rewrite ?He2; done| |exact Hcf].
    intros b' y Hy. specialize (Hcb b' y Hy). unfold blk_ok, frame_ok, on_disk, disk_blk, s2 in *. cbn. by rewrite He2. }
  assert (Hdata : bs = data_at s c).
  { rewrite <-(data_same_at s s1) by done. unfold data_at. rewrite Hx1. cbn. unfold blk_data. by rewrite Hcx1, Hbs. }
  assert (Hd02 : data_same s s2) by by eapply data_same_trans.
  assert (Hxx : bl_bnext x1 = bl_bnext x).
  { pose proof (data_same_bnx s s1 c Hd1) as Hb1. unfold bnx in Hb1. rewrite Hx1, Hx in Hb1. cbn in Hb1. congruence. }
  rewrite Hxx. change (u32 (len - n)) with ((len - n) mod 2 ^ 32). rewrite Z.mod_small by lia.
  pose proof (length_part bs b_off n ltac:(lia) ltac:(lia) ltac:(lia)) as Hpl.
  eapply wpe_mono; [apply (IH s2 l)| |done].
  - exact Hc2.
  - by eapply data_same_blks.
  - unfold lfs_blk_size. lia.
  - lia.
  - lia.
  - lia.
  - rewrite length_patch by lia. lia.
  - intros ?. cbn in Hfit. unfold lfs_blk_size in *. lia.
  - intros [r buf'] s3 (-> & -> & Hc3 & Hd3). split; [done|]. split; [|split; [done|by eapply data_same_trans]].
    rewrite (data_same_content s s2) by done. change (c :: l) with ([c] ++ l). rewrite content_app.
    assert (Hone : content s [c] = bs) by (unfold content; cbn; by rewrite app_nil_r, Hdata). rewrite Hone.
    replace len with (n + (len - n)) at 2 by lia. rewrite part_app by lia.
    destruct (decide (len = n)) as [He|He].
    + replace (len - n) with 0 by lia. by rewrite !part_nil, patch_nil, app_nil_r.
    + replace (pos + n) with (pos + zlen (part bs b_off n)) by lia. rewrite patch_next; [done|lia|]. assert (zlen l <> 0) by (intros Hz; cbn in Hfit; unfold lfs_blk_size in *; lia).
      rewrite Hpl. rewrite (length_part (content s l)); [lia|lia|lia|].
      rewrite (content_length s (bl_bnext x) l NIL) by done. cbn in Hfit. unfold lfs_blk_size in *. lia.
Qed.

Lemma align_down64_blk off : 0 <= off < 2 ^ 64 -> align_down64 off lfs_blk_size = off / lfs_blk_size * lfs_blk_size.
Proof. intros. unfold align_down64. by apply (land_lnot_mask 64 off 12). Qed.

(** ** A file
    Its inode, and its blocks; as much is stored as the length says, and less than the
    32-bit numbers of the code can tell. *)
Record file_is s name (i : Z) (x : lfs_inode) (l : list Z) : Prop := {
  fi_slot : slot s i x;
  fi_name : in_created x = true /\ in_name x = name;
  fi_blks : blks_of s (in_blks x) l;
  fi_own : forall b, b ∈ l -> owner s b = Some (inode_at (fs_lfs s) i);
  fi_cnt : in_blk_cnt x = zlen l;
  fi_len : 0 <= in_len_real x <= lfs_blk_size * zlen l;
  fi_small : lfs_blk_size * zlen l < 2 ^ 32
}.

Lemma file_is_file s name i (x : lfs_inode) l : file_is s name i x l -> is_file s name i.
Proof. intros [Hx [Hc Hn] _ _ _ _ _]. by exists x. Qed.

(** The parts that lfs_read takes after the file was found. *)
Lemma find_this s name i (x : lfs_inode) l : table_ok s -> probe_ok s -> file_is s name i x l ->
  wp (lfs_find_inode name false) s (fun r s' => s' = s /\ r = inode_at (fs_lfs s) i).
Proof.
  intros Ht Hp Hf. eapply wpe_mono; [by apply find_file| |done]. intros r s' [-> [(j & Hj & ->)|[Hno _]]].
  - split; [done|]. f_equal. eapply (proj2 Hp); [done|by eapply file_is_file].
  - destruct (Hno i). by eapply file_is_file.
Qed.

Lemma lfs_read_spec s name i (x : lfs_inode) l buf off len : table_ok s -> probe_ok s -> cache_ok s -> file_is s name i x l ->
  0 <= off -> 0 < len < 2 ^ 32 -> off + len < 2 ^ 64 -> len <= zlen buf ->
  wp (lfs_read name buf off len) s (fun '(r, buf') s' =>
    if in_len_real x <? off + len then r = ERR /\ buf' = buf /\ s' = s
    else r = OK /\ buf' = patch buf 0 (part (content s l) off len) /\ cache_ok s' /\ data_same s s').
Proof.
  intros Ht Hp Hc Hf Hoff Hlen Hover Hbuf. pose proof Hf as [[Hib Hx] _ Hl _ Hcnt Hreal Hsmall]. unfold lfs_read.
  apply wpe_bind. eapply wpe_mono; [by eapply find_this| |done]. intros r s' [-> ->].
  rewrite (proj2 (Z.eqb_neq _ _)) by by (apply inode_at_nonzero; [|lia]).
  apply wpe_bind. eapply wp_get_inode; [done|]. replace (u64 (off + len)) with (off + len) by (unfold u64; rewrite Z.mod_small; lia).
  destruct (Z.ltb_spec (in_len_real x) (off + len)) as [Hpast|Hin]; [by apply wpe_ret|].
  rewrite align_down64_blk by lia. pose proof (Z.mul_div_le off lfs_blk_size). pose proof (Z.mod_pos_bound off lfs_blk_size).
  pose proof (Z_div_mod_eq_full off lfs_blk_size) as Hdm. set (k := off / lfs_blk_size) in *.
  assert (Hk : 0 <= k < zlen l) by (unfold lfs_blk_size in *; lia).
  apply wpe_bind. unfold lfs_inode_get_blk. rewrite align_down64_blk by (unfold lfs_blk_size in *; lia).
  rewrite Z.div_mul, Z.eqb_refl by done. cbn [negb]. apply wpe_bind. eapply wp_get_inode; [done|].
  rewrite Hcnt, u32_small by (unfold lfs_blk_size in *; lia). rewrite (proj2 (Z.ltb_ge _ _)) by (unfold lfs_blk_size in *; lia). cbn [negb andb].
  eapply wpe_mono; [apply (get_blk_find s _ x Hx _ [] l NIL k Hl); [by left|unfold lfs_blk_size in *; lia|lia]| |done].
  intros r s' [-> ->]. destruct (lookup_lt_is_Some_2 l (Z.to_nat k)) as [b Hb]; [lia|]. rewrite Hb. cbn [default].
  destruct (blks_at s _ l b Hl) as [Hbn _]; [by eapply list_elem_of_lookup_2|]. rewrite (proj2 (Z.eqb_neq _ _)) by done.
  replace (u64 (off - k * lfs_blk_size)) with (off mod lfs_blk_size) by (unfold u64; rewrite (Z.mod_small (off - _)); unfold lfs_blk_size in *; lia).
  assert (Hsplit : l = take (Z.to_nat k) l ++ drop (Z.to_nat k) l) by by rewrite take_drop.
  assert (Hl2 : blks_of s b (drop (Z.to_nat k) l)).
  { rewrite Hsplit in Hl. apply sseg_app in Hl as (m & _ & Hl2). rewrite (drop_S _ _ _ Hb) in Hl2. pose proof Hl2 as (-> & _).
    by rewrite (drop_S _ _ _ Hb). }
  eapply wpe_mono; [apply (read_loop_spec _ s (drop (Z.to_nat k) l)); [done|done|unfold lfs_blk_size in *; lia|lia|lia|lia|lia|]| |done].
  - intros _. rewrite length_drop. unfold lfs_blk_size in *. lia.
  - intros [r buf'] s' (-> & -> & Hc' & Hd'). split_and!; [done| |done|done]. f_equal.
    rewrite Hsplit at 2. rewrite content_app. pose proof Hl as Hl1. rewrite Hsplit in Hl1. apply sseg_app in Hl1 as (m & Hl1 & _).
    assert (Hcl : zlen (content s (take (Z.to_nat k) l)) = lfs_blk_size * k).
    { erewrite content_length by done. rewrite length_take. f_equal. lia. }
    rewrite part_app_r by lia. f_equal. lia.
Qed.
End content.
