(* ===== verification/LfsGrow.v ===== *)
(** * The log-structured file system: files that grow

    What a write does to a file ([changed] says what it leaves alone): bytes go to a
    block in its frame, and blocks are added behind the last one. *)
From S2P Require Import Prelude Bytes LeBytes SList Crc Block Lfs LfsLog LfsFile FsHostSim LfsTable LfsDir LfsCache LfsRead.

Local Open Scope Z_scope.
Local Open Scope c_scope.

Section writing.
Context {E : Type} `{FsHostOk E}.
Implicit Types (s : fs E).
Abbreviation vw s := (fv (fs_env s)).

(** All but the file at [a] is as it was, and the blocks that are not among [S]. *)
Record changed (a : Z) (S : list Z) s s' : Prop := {
  ch_lfs : fs_lfs s' = fs_lfs s;
  ch_segs : fs_segs s' = fs_segs s;
  ch_clean : fv_clean (vw s') = fv_clean (vw s);
  ch_disk : fv_disk (vw s') = fv_disk (vw s);
  ch_sec : fv_sec (vw s') = fv_sec (vw s);
  ch_writes : fv_writes (vw s') = fv_writes (vw s);
  ch_inodes : forall c, c <> a -> fs_inodes s' !! c = fs_inodes s !! c;
  ch_inode : forall i, fs_inodes s !! a = Some i -> exists h n, fs_inodes s' !! a = Some (set_in_blks h (set_in_blk_cnt n i));
  ch_blks : forall c x, fs_blks s !! c = Some x -> exists x', fs_blks s' !! c = Some x' /\ bl_inode x' = bl_inode x /\
    (c ∉ S -> core x' = core x /\ blk_data s' x' = blk_data s x);
  ch_new : forall c x', fs_blks s !! c = None -> fs_blks s' !! c = Some x' -> bl_inode x' = a
}.

Lemma changed_refl a s : changed a [] s s.
Proof.
  constructor; try done; [|by eauto|congruence]. intros i Hi. exists (in_blks i), (in_blk_cnt i). rewrite Hi. by destruct i.
Qed.

Lemma changed_trans a S S' s1 s2 s3 : changed a S s1 s2 -> changed a S' s2 s3 -> changed a (S ++ S') s1 s3.
Proof.
  intros H1 H2. pose proof H1 as [? ? ? ? ? ? I1 J1 B1 N1]. pose proof H2 as [? ? ? ? ? ? I2 J2 B2 N2]. constructor; try congruence.
  - intros c Hc. by rewrite I2, I1.
  - intros i (h & n & Hi)%J1. destruct (J2 _ Hi) as (h' & n' & Hi'). by exists h', n'.
  - intros c x Hx. destruct (B1 _ _ Hx) as (y & Hy & Hyo & Hyd). destruct (B2 _ _ Hy) as (z & Hz & Hzo & Hzd).
    exists z. split; [done|]. split; [congruence|]. intros Hn. rewrite elem_of_app in Hn.
    destruct Hyd as [? ?]; [tauto|]. destruct Hzd as [? ?]; [tauto|].
    split; congruence.
  - intros c z Hx Hz. destruct (fs_blks s2 !! c) as [y|] eqn:Hy; [|by eapply N2]. specialize (N1 _ _ Hx Hy).
    destruct (B2 _ _ Hy) as (z' & Hz' & Ho & _). congruence.
Qed.

Lemma changed_mono a S S' s s' : (forall c, c ∈ S -> c ∈ S' \/ fs_blks s !! c = None) -> changed a S s s' -> changed a S' s s'.
Proof.
  intros HS [? ? ? ? ? ? ? ? B N]. constructor; try done. intros c x Hx. destruct (B _ _ Hx) as (x' & ? & ? & Hd). exists x'.
  split_and!; [done..|]. intros Hc. apply Hd. intros [?|?]%HS; [done|congruence].
Qed.

Lemma data_same_changed a s s' : data_same s s' -> changed a [] s s'.
Proof.
  intros Hd. pose proof Hd as []. constructor; try done; [congruence| | |].
  - intros i Hi. exists (in_blks i), (in_blk_cnt i). rewrite ds_inodes, Hi. by destruct i.
  - intros c x Hx. destruct (data_same_blk _ _ _ _ Hd Hx) as (x' & Hx' & Hc & Hb). exists x'. split; [done|].
    split; [unfold core in Hc; congruence|done].
  - intros c x' Hn Hx'. apply (f_equal (.!! c)) in ds_core. rewrite !lookup_fmap, Hn, Hx' in ds_core. done.
Qed.

(** Blocks that are not among [S] stay in their lists, with what they hold. *)
Lemma changed_bnx a S s s' c : changed a S s s' -> c ∉ S -> is_Some (fs_blks s !! c) -> bnx s' c = bnx s c /\ data_at s' c = data_at s c.
Proof.
  intros Hc Hn [x Hx]. destruct (ch_blks _ _ _ _ Hc _ _ Hx) as (x' & Hx' & _ & Hd). destruct (Hd Hn) as [Hk Hb].
  unfold bnx, data_at. rewrite Hx, Hx'. cbn. unfold core in Hk. split; [congruence|done].
Qed.

Lemma changed_seg a S s s' h l e : changed a S s s' -> (forall c, c ∈ l -> c ∉ S) -> sseg (bnx s) h l e ->
  sseg (bnx s') h l e /\ content s' l = content s l.
Proof.
  intros Hc Hn Hl. assert (Hin : forall c, c ∈ l -> is_Some (fs_blks s !! c)).
  { intros c Hc'. destruct (sseg_elem _ _ _ _ _ Hl Hc') as [_ Hs]. unfold bnx in Hs. by rewrite fmap_is_Some in Hs. }
  split.
  - eapply sseg_ext; [|done]. intros c Hc'. eapply changed_bnx; [done|by apply Hn|by apply Hin].
  - unfold content. f_equal. apply list_fmap_ext. intros k c Hc'%list_elem_of_lookup_2. eapply changed_bnx; [done|by apply Hn|by apply Hin].
Qed.

Lemma changed_owner a S s s' c o : changed a S s s' -> owner s c = Some o -> owner s' c = Some o.
Proof.
  intros Hc. unfold owner. destruct (fs_blks s !! c) as [x|] eqn:Hx; [|done]. intros [= <-].
  destruct (ch_blks _ _ _ _ Hc _ _ Hx) as (x' & -> & Ho & _). cbn. congruence.
Qed.

(** ** Bytes in a block *)
Definition touched (x : lfs_blk) : lfs_blk := set_bl_written false (set_bl_empty false x).

Lemma store_ok a s b x bs o w e' : cache_ok s -> fs_blks s !! b = Some x -> bl_cached x = true ->
  fv_frames (vw s) !! bl_mem_fid x = Some bs -> 0 <= o -> o + zlen w <= lfs_blk_size -> Forall is_byte w -> fo_inv e' ->
  fv e' = set_fv_frames (<[bl_mem_fid x := patch bs o w]> (fv_frames (vw s))) (vw s) ->
  let s' := set_fs_env e' (set_fs_blks (<[b := touched x]> (fs_blks s)) s) in
  cache_ok s' /\ changed a [b] s s' /\ data_at s b = bs /\ data_at s' b = patch bs o w.
Proof.
  intros Hc Hx Hcx Hbs Ho Hol Hw Hi Hfv s'. destruct (co_blk _ Hc _ _ Hx) as (Hb0 & Hused & Hf & _).
  destruct (Hf Hcx) as (F1 & F2 & F3 & F4 & bs' & Hbs' & Hlen & Hbytes). assert (bs' = bs) as -> by congruence.
  assert (Hother : forall c y, c <> b -> fs_blks s !! c = Some y -> bl_cached y = true -> bl_mem_fid y <> bl_mem_fid x).
  { intros c y Hne Hy Hcy Heq. by apply Hne, (co_fid _ Hc c b y x). }
  assert (Hdata : forall c y, c <> b -> fs_blks s !! c = Some y -> blk_data s' y = blk_data s y).
  { intros c y Hne Hy. unfold blk_data. destruct (bl_cached y) eqn:Hcy; [|by destruct (bl_empty y); [done|unfold disk_blk; cbn; rewrite Hfv]].
    cbn. rewrite Hfv. cbn. by rewrite lookup_insert_ne by (intros ?; by eapply (Hother c y)). }
  assert (Hpl : zlen (patch bs o w) = lfs_blk_size) by (rewrite length_patch by lia; done).
  split; [|split; [|split]].
  - split.
    + destruct (co_host _ Hc) as [_ Hs Hd [q Hcp]]. split; cbn; rewrite ?Hfv; cbn; [done..|]. rewrite lookup_insert_ne by done. by exists q.
    + intros c y. cbn. rewrite lookup_insert_Some. intros [[<- <-]|[Hne Hy]]; unfold blk_ok, frame_ok; cbn; rewrite Hfv; cbn.
      * split_and!; [done|done| |by rewrite Hcx]. intros _. split_and!; [done..|]. exists (patch bs o w). rewrite lookup_insert_eq.
        split_and!; [done..|]. by apply Forall_patch.
      * destruct (co_blk _ Hc _ _ Hy) as (? & ? & Hf' & Hd'). split_and!; [done|done| |].
        -- intros Hcy. destruct (Hf' Hcy) as (? & ? & ? & ? & q & Hq & ?). split_and!; [done..|]. exists q.
           rewrite lookup_insert_ne; [done|]. intros ?. by eapply (Hother c y).
        -- unfold on_disk, disk_blk. cbn. rewrite Hfv. exact Hd'.
    + intros c c' y y'. cbn. rewrite !lookup_insert_Some.
      intros [[<- <-]|[Hne Hy]] [[<- <-]|[Hne' Hy']] Hcy Hcy' Heq; cbn in Heq; [done|..].
      * exfalso. eapply (Hother c' y'); eauto.
      * exfalso. eapply (Hother c y); eauto.
      * by eapply (co_fid _ Hc).
  - constructor; cbn; rewrite ?Hfv; try done.
    + intros i Hi'. exists (in_blks i), (in_blk_cnt i). rewrite Hi'. by destruct i.
    + intros c y Hy. destruct (decide (c = b)) as [->|Hne].
      * rewrite lookup_insert_eq. exists (touched x). assert (y = x) as -> by congruence. split_and!; [done..|].
        intros Hn. destruct Hn. by left.
      * rewrite lookup_insert_ne by done. exists y. split_and!; [done..|]. intros _. split; [done|]. by apply (Hdata c).
    + intros c y Hn. rewrite lookup_insert_Some. intros [[<- _]|[_ ?]]; congruence.
  - unfold data_at. rewrite Hx. cbn. unfold blk_data. by rewrite Hcx, Hbs.
  - unfold data_at. cbn. rewrite lookup_insert_eq. cbn. unfold blk_data. cbn. rewrite Hcx, Hfv. cbn. by rewrite lookup_insert_eq.
Qed.

(** ** A new block *)
Lemma create_blk_spec a s off : cache_ok s ->
  wp (lfs_create_blk a off) s (fun c s' => cache_ok s' /\ changed a [c] s s' /\ fs_blks s !! c = None /\ c <> NIL /\
    owner s' c = Some a /\ data_at s' c = zeros /\ fs_inodes s' = fs_inodes s /\ (fv_clean (vw s) = true -> bnx s' c = Some NIL) /\
    exists x, fs_blks s' !! c = Some x /\ bl_cached x = false).
Proof.
  intros Hc. unfold lfs_create_blk. apply wpe_bind. apply wp_fs_malloc; [apply Hc|done|].
  intros c bs e' Hi (Hc0 & Hfresh) Hl Hb Hclean He'. rewrite (proj2 (Z.eqb_neq _ _)) by (unfold NIL; lia).
  apply wpe_bind, wpe_modify, wpe_ret. cbn [fs_blks set_fs_env].
  set (x := mk_lfs_blk _ _ _ _ _ _ _ _ _ _). set (s' := set_fs_blks _ _).
  assert (Hnone : fs_blks s !! c = None).
  { destruct (fs_blks s !! c) as [y|] eqn:Hy; [|done]. destruct (co_blk _ Hc _ _ Hy) as (_ & Hu & _).
    specialize (Hfresh _ _ Hu). unfold sizeof_lfs_blk in Hfresh. lia. }
  assert (Hdata : forall y, blk_data s' y = blk_data s y).
  { intros y. unfold blk_data, disk_blk. cbn. by rewrite He'. }
  split_and!; [|constructor|done|unfold NIL; lia| | |done| |]; cbn; rewrite ?He'; cbn; try done.
  - split.
    + destruct (co_host _ Hc) as [_ Hs Hd Hcp]. split; cbn; rewrite ?He'; done.
    + intros b y. cbn. rewrite lookup_insert_Some. intros [[<- <-]|[Hne Hy]]; unfold blk_ok, frame_ok, on_disk, disk_blk; cbn; rewrite He'; cbn.
      * split_and!; [unfold NIL; lia|by rewrite lookup_insert_eq|done|done].
      * destruct (co_blk _ Hc _ _ Hy) as (? & ? & Hf & Hd). split_and!; [done|by rewrite lookup_insert_ne|exact Hf|exact Hd].
    + intros b b' y y'. cbn. rewrite !lookup_insert_Some. intros [[<- <-]|[Hne Hy]] [[<- <-]|[Hne' Hy']]; [done..|]. by eapply (co_fid _ Hc).
  - intros i Hi'. exists (in_blks i), (in_blk_cnt i). rewrite Hi'. by destruct i.
  - intros b y Hy. rewrite lookup_insert_ne by congruence. exists y. split_and!; [done..|]. intros _. split; [done|]. apply Hdata.
  - intros b y Hn. rewrite lookup_insert_Some. intros [[<- <-]|[_ ?]]; [done|congruence].
  - unfold owner. cbn. by rewrite lookup_insert_eq.
  - unfold data_at. cbn. by rewrite lookup_insert_eq.
  - intros Hcl. unfold bnx. cbn. rewrite lookup_insert_eq. cbn. do 2 f_equal. unfold word32.
    assert (Hz : Forall (eq 0) (part bs 36 4)) by (apply Forall_part; auto). clear -Hz.
    induction Hz as [|? ? <- _ IH]; [done|]. cbn. by rewrite IH.
  - exists x. by rewrite lookup_insert_eq.
Qed.

(** ** Finding a block, with blocks added up to it *)
(** The inode at [a], the first of its blocks, and how many it says there are. *)
Definition inode_is s a (i : lfs_inode) (h n : Z) : Prop := fs_inodes s !! a = Some (set_in_blks h (set_in_blk_cnt n i)).

Lemma changed_put_inode a S s s' i h n : changed a S s s' -> is_Some (fs_inodes s !! a) ->
  (forall j, fs_inodes s' !! a = Some j -> exists h n, i = set_in_blks h (set_in_blk_cnt n j)) ->
  changed a S s (set_fs_inodes (<[a := set_in_blks h (set_in_blk_cnt n i)]> (fs_inodes s')) s').
Proof.
  intros [? ? ? ? ? ? I J B N] [i0 Hi0] Hi. constructor; try done; cbn.
  - intros c Hc. rewrite lookup_insert_ne by done. by apply I.
  - intros j Hj. rewrite lookup_insert_eq. destruct (J _ Hj) as (h1 & n1 & Hj1). destruct (Hi _ Hj1) as (h2 & n2 & ->). exists h, n. by destruct j.
Qed.

Lemma set_bnext_ok a s b x v : cache_ok s -> fs_blks s !! b = Some x ->
  let s' := set_fs_blks (<[b := set_bl_bnext v x]> (fs_blks s)) s in
  cache_ok s' /\ changed a [b] s s' /\ (forall c, data_at s' c = data_at s c) /\ (forall c, c <> b -> bnx s' c = bnx s c) /\ bnx s' b = Some v /\
  (forall c, owner s' c = owner s c).
Proof.
  intros Hc Hx s'. split; [|split; [constructor; try done|split; [|split; [|split]]]].
  - destruct Hc as [[? ? ? ?] Hcb Hcf]. split; [done| |].
    + intros c y. cbn. rewrite lookup_insert_Some. intros [[<- <-]|[_ Hy]]; [exact (Hcb b x Hx)|exact (Hcb c y Hy)].
    + intros c c' y y'. cbn. rewrite !lookup_insert_Some.
      intros [[<- <-]|[Hb Hy]] [[<- <-]|[Hb' Hy']]; cbn; [done| | |]; by eapply Hcf.
  - intros j Hj. exists (in_blks j), (in_blk_cnt j). cbn. rewrite Hj. by destruct j.
  - intros c y Hy. cbn. destruct (decide (c = b)) as [->|Hb].
    + rewrite lookup_insert_eq. assert (y = x) as -> by congruence. eexists. split_and!; [done..|]. intros Hn. destruct Hn. by left.
    + rewrite lookup_insert_ne by done. exists y. done.
  - intros c y Hn. cbn. rewrite lookup_insert_Some. intros [[<- _]|[_ ?]]; congruence.
  - intros c. unfold data_at. cbn. destruct (decide (c = b)) as [->|Hb]; [by rewrite lookup_insert_eq, Hx|by rewrite lookup_insert_ne].
  - intros c Hb. unfold bnx. cbn. by rewrite lookup_insert_ne.
  - unfold bnx. cbn. by rewrite lookup_insert_eq.
  - intros c. unfold owner. cbn. destruct (decide (c = b)) as [->|Hb]; [by rewrite lookup_insert_eq, Hx|by rewrite lookup_insert_ne].
Qed.

(** The pointer behind [l1] is set to a block that ends the list. *)
Lemma put_blks_at_spec a i s prev l1 c h n : cache_ok s -> inode_is s a i h n -> blks_of s h l1 -> place_is prev l1 ->
  bnx s c = Some NIL -> c ∉ l1 -> c <> NIL ->
  wp (put_blks_at a prev c) s (fun _ s' => cache_ok s' /\ changed a l1 s s' /\ (exists h', inode_is s' a i h' n /\ blks_of s' h' (l1 ++ [c])) /\
    (forall b, data_at s' b = data_at s b)).
Proof.
  intros Hc Hi Hl Hp Hcn Hcl Hc0. unfold put_blks_at. destruct Hp as [[-> ->]|[Hne [l0 ->]]].
  - cbn. eapply wp_upd_inode; [exact Hi|]. split_and!; [|apply changed_put_inode with (i := set_in_blks h (set_in_blk_cnt n i))| |done].
    + by destruct Hc as [[? ? ? ?] ? ?].
    + apply changed_refl.
    + by eexists.
    + intros j Hj. rewrite Hi in Hj. injection Hj as <-. exists h, n. by destruct i.
    + exists c. unfold inode_is. cbn. rewrite lookup_insert_eq. split; [by destruct i|]. split_and!; [done..|]. by exists NIL.
  - rewrite (proj2 (Z.eqb_neq _ _)) by done. pose proof (slist_NoDup _ _ _ Hl) as Hnd.
    apply sseg_app in Hl as (m & Hl0 & Hl1). cbn in Hl1. destruct Hl1 as (-> & _ & q & Hq & ->). unfold bnx in Hq.
    destruct (fs_blks s !! prev) as [x|] eqn:Hx; [|done]. eapply wp_upd_blk; [exact Hx|].
    destruct (set_bnext_ok a s prev x c Hc Hx) as (Hc' & Hch & Hd & Hold & Hnew & _). set (s' := set_fs_blks _ s) in *.
    apply NoDup_app in Hnd as (_ & Hd0 & _). split_and!; [done| | |done].
    + eapply changed_mono; [|exact Hch]. intros b Hb%list_elem_of_singleton. left. rewrite Hb. apply elem_of_app. right. by left.
    + exists h. split; [done|]. rewrite <-app_assoc. apply sseg_app. exists prev. split.
      * eapply sseg_ext; [|exact Hl0]. intros b Hb. apply Hold. intros ->. apply (Hd0 _ Hb). by left.
      * cbn. split_and!; [done..|]. exists c. split; [exact Hnew|]. split_and!; [done..|].
        exists NIL. split; [|done]. rewrite Hold; [done|]. intros ->. apply Hcl. apply elem_of_app. right. by left.
Qed.

(** A file that was written to: what it had and what was added at its end, which were no
    blocks before. *)
Record written a (i : lfs_inode) s s' (l l3 : list Z) : Prop := {
  wr_cache : cache_ok s';
  wr_changed : changed a l s s';
  wr_inode : exists h', inode_is s' a i h' (zlen (l ++ l3)) /\ blks_of s' h' (l ++ l3);
  wr_new : forall c, c ∈ l3 -> fs_blks s !! c = None /\ owner s' c = Some a
}.
(** The same if nothing but zeros was added. *)
Record longer a (i : lfs_inode) s s' (l l3 : list Z) : Prop := {
  gr_written : written a i s s' l l3;
  gr_zero : content s' l3 = concat (replicate (length l3) zeros);
  gr_data : forall b, is_Some (fs_blks s !! b) -> data_at s' b = data_at s b
}.

Lemma changed_some a S s s' b : changed a S s s' -> is_Some (fs_blks s !! b) -> is_Some (fs_blks s' !! b).
Proof. intros Hc [x Hx]. destruct (ch_blks _ _ _ _ Hc _ _ Hx) as (x' & ? & _). by exists x'. Qed.

Lemma owner_some s b o : owner s b = Some o -> is_Some (fs_blks s !! b).
Proof. unfold owner. destruct (fs_blks s !! b); [by eexists|done]. Qed.

Lemma written_refl a i s h l : cache_ok s -> inode_is s a i h (zlen l) -> blks_of s h l -> written a i s s l [].
Proof.
  intros Hc Hi Hl. split; try done.
  - eapply changed_mono; [|apply changed_refl]. intros c Hn. by apply not_elem_of_nil in Hn.
  - exists h. by rewrite app_nil_r.
  - intros c Hn. by apply not_elem_of_nil in Hn.
Qed.

Lemma written_trans a i s1 s2 s3 l l3 l4 : written a i s1 s2 l l3 -> written a i s2 s3 (l ++ l3) l4 -> written a i s1 s3 l (l3 ++ l4).
Proof.
  intros [C1 G1 I1 N1] [C2 G2 I2 N2]. split.
  - done.
  - eapply changed_mono; [|by eapply changed_trans]. intros c. rewrite !elem_of_app. intros [?|[?|Hc]]; [by left..|]. right. by apply N1.
  - by rewrite app_assoc.
  - intros c [Hc|Hc]%elem_of_app.
    + destruct (N1 c Hc) as [? Ho]. split; [done|]. by eapply changed_owner.
    + destruct (N2 c Hc) as [Hn ?]. split; [|done]. destruct (fs_blks s1 !! c) eqn:Hx; [|done].
      destruct (changed_some _ _ _ _ c G1) as [? ?]; [by eexists|congruence].
Qed.

Lemma longer_refl a i s h l : cache_ok s -> inode_is s a i h (zlen l) -> blks_of s h l -> longer a i s s l [].
Proof. intros. split; [by eapply written_refl|done..]. Qed.

Lemma content_ext s s' l : (forall b, b ∈ l -> data_at s' b = data_at s b) -> content s' l = content s l.
Proof. intros Hd. unfold content. f_equal. apply list_fmap_ext. intros k c Hc%list_elem_of_lookup_2. by apply Hd. Qed.

Lemma longer_trans a i s1 s2 s3 l l3 l4 : longer a i s1 s2 l l3 -> longer a i s2 s3 (l ++ l3) l4 -> longer a i s1 s3 l (l3 ++ l4).
Proof.
  intros [W1 Z1 D1] [W2 Z2 D2]. split.
  - by eapply written_trans.
  - rewrite content_app, length_app, replicate_add, concat_app. f_equal; [|done]. rewrite <-Z1. apply content_ext.
    intros c Hc. apply D2. eapply owner_some, W1, Hc.
  - intros b Hb. rewrite D2 by by (eapply changed_some; [apply W1|]). by apply D1.
Qed.

(** One block more. *)
Lemma add_blk_spec a i s prev h l off : cache_ok s -> inode_is s a i h (zlen l) -> blks_of s h l -> place_is prev l ->
  zlen l + 1 < 2 ^ 32 ->
  wp (let* n := lfs_create_blk a off in
      if n =? NIL then ret NIL
      else upd_inode a more_blks ;;; upd_blk n (set_bl_bnext NIL) ;;; put_blks_at a prev n ;;; ret n)
    s (fun c s' => c <> NIL /\ longer a i s s' l [c]).
Proof.
  intros Hc Hi Hl Hp Hlen. apply wpe_bind. eapply wpe_mono; [by apply create_blk_spec| |done].
  intros c s1 (Hc1 & Hch1 & Hnone & Hc0 & Hown & Hzero & Hin & _ & x & Hx & _).
  rewrite (proj2 (Z.eqb_neq _ _)) by done. apply wpe_bind.
  assert (Hi1 : inode_is s1 a i h (zlen l)) by (unfold inode_is; by rewrite Hin).
  eapply wp_upd_inode; [exact Hi1|]. apply wpe_bind. eapply wp_upd_blk; [exact Hx|].
  set (s2 := set_fs_inodes _ s1). assert (Hc2 : cache_ok s2) by (by destruct Hc1 as [[? ? ? ?] ? ?]).
  destruct (set_bnext_ok a s2 c x NIL Hc2 Hx) as (Hc3 & Hch3 & Hd3 & Hold3 & Hnew3 & Ho3).
  set (s3 := set_fs_blks _ _). change (set_fs_blks _ s2) with s3 in Hc3, Hch3, Hd3, Hold3, Hnew3, Ho3.
  assert (Hnl : c ∉ l) by (intros Hn; destruct (blks_at _ _ _ _ Hl Hn) as (_ & y & Hy); congruence).
  assert (Hl3 : blks_of s3 h l).
  { destruct (changed_seg _ _ _ _ h l NIL Hch1) as [Hl1 _]; [|exact Hl|].
    - intros b Hb ->%list_elem_of_singleton. done.
    - eapply sseg_ext; [|exact Hl1]. intros b Hb. rewrite Hold3; [done|]. intros ->. done. }
  assert (Hi3 : inode_is s3 a i h (zlen (l ++ [c]))).
  { unfold inode_is, s3, s2. cbn. rewrite lookup_insert_eq. f_equal. unfold more_blks. cbn. rewrite u32_small by lia.
    rewrite length_app. cbn. replace (zlen l + 1) with (Z.of_nat (length l + 1)) by lia. by destruct i. }
  apply wpe_bind. eapply wpe_mono; [by apply (put_blks_at_spec a i s3 prev l c h (zlen (l ++ [c])))| |done].
  intros _ s4 (Hc4 & Hch4 & (h' & Hi4 & Hl4) & Hd4). apply wpe_ret. split; [done|].
  assert (Hs12 : changed a [] s1 s2).
  { apply changed_put_inode with (i := set_in_blks h (set_in_blk_cnt (zlen l) i)) (h := h) (n := u32 (zlen l + 1)) (s := s1); [apply changed_refl|by eexists|].
    intros j Hj. unfold inode_is in Hi1. rewrite Hi1 in Hj. injection Hj as <-. exists h, (zlen l). by destruct i. }
  split; [split| |].
  - done.
  - eapply changed_mono; [|eapply changed_trans; [exact Hch1|eapply changed_trans; [exact Hs12|eapply changed_trans; [exact Hch3|exact Hch4]]]].
    intros b Hb. cbn in Hb. repeat (apply elem_of_cons in Hb as [->|Hb]; [by right|]). by left.
  - exists h'. done.
  - intros b Hb%list_elem_of_singleton. subst b. split; [done|]. eapply changed_owner; [exact Hch4|]. rewrite Ho3. exact Hown.
  - unfold content. cbn. rewrite !app_nil_r. rewrite Hd4, Hd3. exact Hzero.
  - intros b Hb. rewrite Hd4, Hd3. change (data_at s2 b) with (data_at s1 b). eapply changed_bnx; [exact Hch1| |done].
    intros ->%list_elem_of_singleton. destruct Hb as [? ?]. congruence.
Qed.

Lemma get_blk_add a i : forall fuel s l1 l2 prev k h, cache_ok s -> inode_is s a i h (zlen (l1 ++ l2)) -> blks_of s h (l1 ++ l2) ->
  place_is prev l1 -> 0 <= k -> zlen l1 + k + 1 < 2 ^ 32 -> k < Z.of_nat fuel ->
  wp (get_blk_loop fuel a prev (k * lfs_blk_size) true) s (fun r s' => exists l3, longer a i s s' (l1 ++ l2) l3 /\
    length (l2 ++ l3) = Nat.max (length l2) (S (Z.to_nat k)) /\ (l2 ++ l3) !! Z.to_nat k = Some r).
Proof.
  induction fuel as [|fuel IH]; intros s l1 l2 prev k h Hc Hi Hl Hp Hk Hsmall Hf; [lia|]. cbn [get_blk_loop].
  pose proof Hl as (m & H1 & H2)%sseg_app. apply wpe_bind. eapply wpe_mono; [eapply get_blks_at_spec; [exact Hi|done|by destruct i]| |done].
  intros r s' [-> ->].
  assert (Hnext : forall b s1 l3 l4, b <> NIL -> longer a i s s1 (l1 ++ l2) l3 -> l2 ++ l3 = b :: l4 -> l3 = [] \/ l2 = [] /\ l4 = [] ->
    wp (if b =? NIL then ret NIL else if k * lfs_blk_size =? 0 then ret b
        else get_blk_loop fuel a b (u64 (k * lfs_blk_size - lfs_blk_size)) true) s1
      (fun r s' => exists l3, longer a i s s' (l1 ++ l2) l3 /\
        length (l2 ++ l3) = Nat.max (length l2) (S (Z.to_nat k)) /\ (l2 ++ l3) !! Z.to_nat k = Some r)).
  { intros b s1 l3 l4 Hb Hg He Hl3. rewrite (proj2 (Z.eqb_neq b _)) by done. destruct (Z.eqb_spec (k * lfs_blk_size) 0) as [Hk0|Hk0].
    - apply wpe_ret. assert (k = 0) as -> by (unfold lfs_blk_size in Hk0; lia). exists l3. rewrite He. split_and!; [done| |done].
      destruct Hl3 as [->|[-> ->]]; [rewrite app_nil_r in He; rewrite He; cbn; lia|done].
    - assert (0 < k) by (unfold lfs_blk_size in Hk0; lia).
      replace (u64 (k * lfs_blk_size - lfs_blk_size)) with ((k - 1) * lfs_blk_size)
        by (unfold u64, lfs_blk_size; rewrite Z.mod_small by lia; lia).
      pose proof Hg as [[Hc1 _ (h' & Hi1 & Hl1) _] _ _]. rewrite <-app_assoc, He, (cons_middle b l1 l4), app_assoc in Hi1, Hl1.
      eapply wpe_mono; [eapply (IH s1 (l1 ++ [b]) l4 b (k - 1) h'); [done..| |lia| |lia]| |done].
      + right. split; [done|]. by exists l1.
      + rewrite length_app. cbn. lia.
      + intros r s' (l5 & Hg5 & Hlen & Hr). exists (l3 ++ l5). split_and!.
        * eapply longer_trans; [exact Hg|]. by rewrite <-app_assoc, He, (cons_middle b l1 l4), app_assoc.
        * rewrite app_assoc, He. cbn [app length] in *. rewrite Hlen. apply (f_equal length) in He. rewrite length_app in He. cbn in He.
          destruct Hl3 as [->|[-> ->]]; cbn in *; lia.
        * rewrite app_assoc, He. replace (Z.to_nat k) with (S (Z.to_nat (k - 1))) by lia. done. }
  destruct l2 as [|b l2]; cbn in H2.
  - subst m. rewrite Z.eqb_refl. apply wpe_bind. rewrite app_nil_r in Hi, Hl.
    eapply wpe_mono; [apply (add_blk_spec a i s prev h l1 (k * lfs_blk_size)); [done..|lia]| |done].
    intros c s1 [Hc0 Hg]. rewrite app_nil_r in Hnext. rewrite app_nil_r. apply (Hnext c s1 [c] []); [done|done|done|by right].
  - destruct H2 as (-> & Hne & n & Hn & H2). rewrite (proj2 (Z.eqb_neq b _)) by done. apply wpe_bind, wpe_ret.
    apply (Hnext b s [] l2); [done|by eapply longer_refl|by rewrite app_nil_r|by left].
Qed.
End writing.
