(* ===== verification/LfsWrite.v ===== *)
(** * The log-structured file system: writing

    The loop of lfs_write from any of the blocks of a file on, and lfs_write itself. *)
From S2P Require Import Prelude Bytes LeBytes SList Crc Block Lfs LfsLog LfsFile FsHostSim LfsTable LfsDir LfsCache LfsRead LfsGrow.

Local Open Scope Z_scope.
Local Open Scope c_scope.

Section writing.
Context {E : Type} `{FsHostOk E}.
Implicit Types (s : fs E).
Abbreviation vw s := (fv (fs_env s)).

(** The next block, when there is none and bytes are left. *)
Lemma add_next_spec a i s l0 b x h off : cache_ok s -> inode_is s a i h (zlen (l0 ++ [b])) -> blks_of s h (l0 ++ [b]) ->
  fs_blks s !! b = Some x -> fv_clean (vw s) = true -> zlen (l0 ++ [b]) + 1 < 2 ^ 32 ->
  wp (let* c := lfs_create_blk a off in
      upd_blk b (set_bl_bnext c) ;;; if negb (c =? NIL) then upd_inode a more_blks else ret tt)
    s (fun _ s' => exists c, longer a i s s' (l0 ++ [b]) [c]).
Proof.
  intros Hc Hi Hl Hx Hclean Hlen. apply wpe_bind. eapply wpe_mono; [by apply create_blk_spec| |done].
  intros c s1 (Hc1 & Hch1 & Hnone & Hc0 & Hown & Hzero & Hin & Hnil & y & Hy & _). specialize (Hnil Hclean).
  assert (Hnb : c <> b) by congruence.
  assert (Hnl : c ∉ l0 ++ [b]) by (intros Hn; destruct (blks_at _ _ _ _ Hl Hn) as (_ & z & Hz); congruence).
  destruct (ch_blks _ _ _ _ Hch1 _ _ Hx) as (x1 & Hx1 & _ & _).
  apply wpe_bind. eapply wp_upd_blk; [exact Hx1|]. rewrite (proj2 (Z.eqb_neq _ _)) by done. cbn [negb].
  destruct (set_bnext_ok a s1 b x1 c Hc1 Hx1) as (Hc2 & Hch2 & Hd2 & Hold2 & Hnew2 & Ho2). set (s2 := set_fs_blks _ _) in *.
  assert (Hi2 : inode_is s2 a i h (zlen (l0 ++ [b]))) by (unfold inode_is, s2; cbn; by rewrite Hin).
  eapply wp_upd_inode; [exact Hi2|]. exists c.
  pose proof (slist_NoDup _ _ _ Hl) as (_ & Hd0 & _)%NoDup_app.
  assert (Hl2 : blks_of s2 h ((l0 ++ [b]) ++ [c])).
  { pose proof Hl as (m & Hl0 & Hlb)%sseg_app. rewrite <-app_assoc. apply sseg_app. exists m. split.
    - destruct (changed_seg _ _ _ _ h l0 m Hch1) as [Hl1 _]; [|exact Hl0|].
      + intros d Hd ->%list_elem_of_singleton. apply Hnl. apply elem_of_app. by left.
      + eapply sseg_ext; [|exact Hl1]. intros d Hd. apply Hold2. intros ->. apply (Hd0 _ Hd). by left.
    - destruct Hlb as (-> & Hb0 & _). split_and!; [done..|]. exists c. split; [exact Hnew2|]. split_and!; [done..|].
      exists NIL. split; [|done]. by rewrite Hold2. }
  set (s3 := set_fs_inodes _ s2).
  assert (Hs23 : changed a [] s2 s3).
  { eapply (changed_put_inode a [] s2 s2 (set_in_blks h (set_in_blk_cnt (zlen (l0 ++ [b])) i)) h (u32 (zlen (l0 ++ [b]) + 1))); [apply changed_refl|by eexists|].
    intros j Hj. unfold inode_is in Hi2. rewrite Hi2 in Hj. injection Hj as <-. exists h, (zlen (l0 ++ [b])). by destruct i. }
  split; [split| |].
  - by destruct Hc2 as [[? ? ? ?] ? ?].
  - eapply changed_mono; [|eapply changed_trans; [exact Hch1|eapply changed_trans; [exact Hch2|exact Hs23]]].
    intros d Hd. cbn in Hd. apply elem_of_cons in Hd as [->|Hd]; [by right|]. apply list_elem_of_singleton in Hd as ->. left. apply elem_of_app. right. by left.
  - exists h. split; [|exact Hl2]. unfold inode_is, s3. cbn. rewrite lookup_insert_eq. f_equal. unfold more_blks. cbn. rewrite u32_small by lia.
    rewrite (length_app (l0 ++ [b])). cbn. replace (zlen (l0 ++ [b]) + 1) with (Z.of_nat (length (l0 ++ [b]) + 1)) by lia. by destruct i.
  - intros d Hd%list_elem_of_singleton. subst d. split; [done|]. change (owner s3 c) with (owner s2 c). rewrite Ho2. exact Hown.
  - unfold content. cbn. rewrite !app_nil_r. change (data_at s3 c) with (data_at s2 c). rewrite Hd2. exact Hzero.
  - intros d Hd. change (data_at s3 d) with (data_at s2 d). rewrite Hd2. eapply changed_bnx; [exact Hch1| |done].
    intros ->%list_elem_of_singleton. destruct Hd as [? ?]. congruence.
Qed.

Lemma content_single s b : content s [b] = data_at s b.
Proof. unfold content. cbn. apply app_nil_r. Qed.

(** One block of a list holds something else. *)
Lemma content_patch s s' l1 b l2 h o w : cache_ok s -> blks_of s h (l1 ++ b :: l2) -> (forall c, c ∈ l1 ++ l2 -> data_at s' c = data_at s c) ->
  data_at s' b = patch (data_at s b) o w -> 0 <= o -> o + zlen w <= lfs_blk_size ->
  content s' (l1 ++ b :: l2) = patch (content s (l1 ++ b :: l2)) (lfs_blk_size * zlen l1 + o) w.
Proof.
  intros Hc Hl Ho Hb Hoff Hw. change (b :: l2) with ([b] ++ l2) in *. rewrite !content_app, !content_single.
  pose proof Hl as (m & Hl1 & Hl2)%sseg_app. pose proof (content_length _ _ _ _ Hc Hl1) as Hn1.
  destruct (data_at_ok s b h (l1 ++ [b] ++ l2) Hc Hl) as [Hdl _]; [apply elem_of_app; right; by left|].
  rewrite (content_ext s s' l1), (content_ext s s' l2) by (intros c Hcl; apply Ho, elem_of_app; auto).
  rewrite patch_beyond by lia. f_equal. rewrite <-(app_nil_r w), patch_app by (rewrite ?app_nil_r; auto; lia).
  rewrite patch_nil, Hb. do 2 f_equal. lia.
Qed.

Lemma write_loop_0 fuel a b buf pos off b_off s : (0 < fuel)%nat -> wp (write_loop fuel a b buf pos off b_off 0) s (fun r s' => r = inr off /\ s' = s).
Proof. destruct fuel; [lia|]. intros _. cbn. done. Qed.

Lemma from_buf_spec buf pos n s (Q : list Z -> fs E -> Prop) : pos + n <= zlen buf -> Q (part buf pos n) s -> wp (from_buf buf pos n) s Q.
Proof. intros Hn HQ. unfold from_buf. eapply wpe_read; [by rewrite (proj2 (Z.leb_le _ _))|done]. Qed.

Lemma patch_two c z o o2 w1 w2 : 0 <= o -> o + zlen w1 <= zlen c -> w2 = [] \/ o2 = o + zlen w1 ->
  o + zlen w1 + zlen w2 <= zlen c + zlen z -> patch (patch c o w1 ++ z) o2 w2 = patch (c ++ z) o (w1 ++ w2).
Proof.
  intros Ho H1 H2 H3. assert (He : patch c o w1 ++ z = patch (c ++ z) o w1).
  { rewrite <-(app_nil_r w1) at 2. rewrite patch_app by auto. by rewrite patch_nil. }
  destruct H2 as [->| ->].
  - by rewrite patch_nil, app_nil_r.
  - rewrite He, patch_next; [done|done|]. rewrite length_app. lia.
Qed.

(** What the loop makes of a file whose blocks are [l1], [b] and [l2]. *)
Definition wrote a i buf s s' l1 b l2 pos b_off len : Prop :=
  exists l3, written a i s s' (l1 ++ b :: l2) l3 /\
    (l3 = [] \/ lfs_blk_size * (zlen (b :: l2 ++ l3) - 1) < b_off + len) /\
    (0 < len -> b_off + len <= lfs_blk_size * zlen (b :: l2 ++ l3)) /\
    content s' (l1 ++ b :: l2 ++ l3) =
      patch (content s (l1 ++ b :: l2) ++ concat (replicate (length l3) zeros)) (lfs_blk_size * zlen l1 + b_off) (part buf pos len).

Lemma zeros_length n : zlen (concat (replicate n zeros)) = lfs_blk_size * Z.of_nat n.
Proof.
  induction n as [|n IH]; [done|]. cbn [replicate concat]. rewrite length_app. unfold zeros at 1. rewrite length_replicate. unfold lfs_blk_size in *. lia.
Qed.

Lemma wrote_more a i buf s s2 s3 s' l1 b l2 c l4 l5 pos b_off n len h : cache_ok s -> blks_of s h (l1 ++ b :: l2) ->
  written a i s s2 (l1 ++ b :: l2) [] -> content s2 (l1 ++ b :: l2) = patch (content s (l1 ++ b :: l2)) (lfs_blk_size * zlen l1 + b_off) (part buf pos n) ->
  longer a i s2 s3 (l1 ++ b :: l2) l5 -> l2 ++ l5 = c :: l4 -> l5 = [] \/ l4 = [] /\ l2 = [] -> 0 <= b_off -> 0 <= pos -> 0 < n <= len -> pos + len <= zlen buf ->
  b_off + n <= lfs_blk_size -> n = len \/ b_off + n = lfs_blk_size -> (l5 <> [] -> n < len) ->
  wrote a i buf s3 s' (l1 ++ [b]) c l4 (pos + n) 0 (len - n) ->
  wrote a i buf s s' l1 b l2 pos b_off len.
Proof.
  intros Hc Hl W02 C2 [W23 Z23 D23] He Hl5 Hb0 Hp Hn Hbuf Hfit Hend Hadd (l6 & W3 & Hmin & Hmax & C3).
  assert (Hlist : (l1 ++ [b]) ++ c :: l4 = (l1 ++ b :: l2) ++ l5) by (rewrite <-!app_assoc; cbn; by rewrite He).
  assert (Hlist6 : (l1 ++ [b]) ++ c :: l4 ++ l6 = l1 ++ b :: l2 ++ l5 ++ l6)
    by (rewrite <-!app_assoc; cbn; rewrite (app_assoc l2), He; done).
  exists (l5 ++ l6). rewrite Hlist in W3, C3. rewrite Hlist6 in C3.
  assert (Hcnt : zlen (b :: l2 ++ l5 ++ l6) = 1 + zlen (c :: l4 ++ l6)).
  { cbn [length]. rewrite (app_assoc l2), He. cbn. lia. }
  split_and!.
  - pose proof (written_trans _ _ _ _ _ _ _ _ W02 ltac:(by rewrite app_nil_r)) as W03. exact (written_trans _ _ _ _ _ _ _ _ W03 W3).
  - destruct Hmin as [->|Hmin]; [|right; rewrite Hcnt; unfold lfs_blk_size in *; lia].
    destruct Hl5 as [->|[-> ->]]; [by left|]. rewrite app_nil_r. cbn in He. subst l5. right. cbn. assert (n < len) by by apply Hadd.
    unfold lfs_blk_size in *. lia.
  - intros _. rewrite Hcnt. destruct (decide (n = len)); [unfold lfs_blk_size in *; lia|]. specialize (Hmax ltac:(lia)). unfold lfs_blk_size in *. lia.
  - rewrite C3. assert (Hc3 : content s3 ((l1 ++ b :: l2) ++ l5) = content s2 (l1 ++ b :: l2) ++ concat (replicate (length l5) zeros)).
    { rewrite content_app, Z23. f_equal. apply content_ext. intros d Hd. apply D23. eapply changed_some; [apply W02|].
      destruct (blks_at _ _ _ _ Hl Hd) as (_ & ? & ?). by eexists. }
    rewrite Hc3, C2, <-app_assoc, <-concat_app, <-replicate_add, <-length_app.
    replace len with (n + (len - n)) at 2 by lia. rewrite part_split by lia.
    pose proof (content_length _ _ _ _ Hc Hl) as Hlen. pose proof (length_part buf pos n) as Hp1. pose proof (length_part buf (pos + n) (len - n)) as Hp2.
    rewrite length_app in Hlen. cbn in Hlen. apply patch_two.
    + unfold lfs_blk_size. lia.
    + unfold lfs_blk_size in *. lia.
    + destruct Hend as [->|Hend]; [left; by rewrite Z.sub_diag|right]. rewrite length_app. cbn. unfold lfs_blk_size in *. lia.
    + rewrite zeros_length. rewrite Hp1, Hp2 by lia. destruct (decide (n = len)); [unfold lfs_blk_size in *; lia|]. specialize (Hmax ltac:(lia)).
      apply (f_equal length) in He. rewrite length_app in He. cbn in He, Hmax. rewrite length_app in *. unfold lfs_blk_size in *. lia.
Qed.

(** The body of a round up to the bytes in the block: the state, and the rest of the round. *)
Lemma write_step a i s l1 b l2 buf pos b_off len h : cache_ok s -> inode_is s a i h (zlen (l1 ++ b :: l2)) -> blks_of s h (l1 ++ b :: l2) ->
  Forall is_byte buf -> 0 <= b_off < lfs_blk_size -> 0 <= pos -> 0 < len < 2 ^ 32 -> pos + len <= zlen buf ->
  forall (rest : lfs_blk -> M (fs E) (Z + Z)) (Q : Z + Z -> fs E -> Prop),
  (forall x s2, written a i s s2 (l1 ++ b :: l2) [] -> fs_blks s2 !! b = Some x -> fv_clean (vw s2) = fv_clean (vw s) ->
    content s2 (l1 ++ b :: l2) = patch (content s (l1 ++ b :: l2)) (lfs_blk_size * zlen l1 + b_off) (part buf pos (in_this_blk b_off len)) ->
    bl_bnext x = from_option id NIL (head l2) ->
    wp (rest x) s2 Q) ->
  wp (let* r := lfs_cache_blk b in
      if negb (r =? OK) then ret (inl ERR)
      else
        upd_blk b (set_bl_empty false) ;;;
        upd_blk b (set_bl_written false) ;;;
        let* x := get_blk b in
        let* bs := from_buf buf pos (in_this_blk b_off len) in
        env (fh_store (bl_addr x) b_off bs) ;;;
        rest x) s Q.
Proof.
  intros Hc Hi Hl Hbytes Hb Hp Hlen Hbuf rest Q HQ. pose proof Hl as (m & Hl1 & Hl2)%sseg_app. pose proof Hl2 as (-> & Hb0 & q & Hq & Hl2').
  unfold bnx in Hq. destruct (fs_blks s !! b) as [x|] eqn:Hx; [|done]. injection Hq as <-.
  apply wpe_bind. eapply wpe_mono; [by eapply lfs_cache_blk_spec| |done]. intros r s1 (-> & Hc1 & Hd1 & x1 & Hx1 & Hcx1).
  rewrite Z.eqb_refl. cbn [negb]. rewrite in_this_blk_spec in * by lia. set (n := Z.min len (lfs_blk_size - b_off)) in *.
  assert (Hn : 0 < n <= len /\ b_off + n <= lfs_blk_size) by lia.
  destruct (co_blk _ Hc1 _ _ Hx1) as (_ & _ & Hfr & _). destruct (Hfr Hcx1) as (_ & _ & _ & Hm & bs & Hbs & Hbl & _).
  pose proof (length_part buf pos n ltac:(lia) ltac:(lia) ltac:(lia)) as Hpl.
  apply wpe_bind. eapply wp_upd_blk; [exact Hx1|]. apply wpe_bind. eapply wp_upd_blk; [cbn; by rewrite lookup_insert_eq|].
  apply wpe_bind. eapply wp_get_blk; [cbn; by rewrite lookup_insert_eq|]. apply wpe_bind. apply from_buf_spec; [lia|].
  apply wpe_bind. eapply wp_store; cbn; [apply Hc1|by apply Hm|exact Hbs|by apply Forall_part|lia|lia|]. intros e2 Hi2 He2.
  destruct (store_ok a s1 b x1 bs b_off (part buf pos n) e2 Hc1 Hx1 Hcx1 Hbs) as (Hc2 & Hch2 & Hd0 & Hd2); [lia|lia|by apply Forall_part|done|done|].
  set (s2 := set_fs_env e2 (set_fs_blks (<[b := touched x1]> (fs_blks s1)) s1)) in *.
  match goal with |- wpe _ ?t _ _ => assert (Hs2 : t = s2) by (unfold s2, set_fs_env, set_fs_blks; cbn; by rewrite !insert_insert_eq) end.
  rewrite Hs2. clear Hs2.
  assert (Hch : changed a [b] s s2) by exact (changed_trans _ _ _ _ _ _ (data_same_changed a _ _ Hd1) Hch2).
  assert (Hb12 : forall c, bnx s2 c = bnx s c).
  { intros c. rewrite <-(data_same_bnx s s1 c Hd1). unfold bnx, s2. cbn. destruct (decide (c = b)) as [->|]; [by rewrite lookup_insert_eq, Hx1|by rewrite lookup_insert_ne]. }
  assert (Hnext : bl_bnext (touched x1) = bl_bnext x).
  { pose proof (Hb12 b) as Hbb. unfold bnx, s2 in Hbb. cbn in Hbb. rewrite lookup_insert_eq, Hx in Hbb. cbn in Hbb. cbn. congruence. }
  pose proof (slist_NoDup _ _ _ Hl) as Hnd.
  assert (Hnb : forall c, c ∈ l1 ++ l2 -> c <> b).
  { intros c Hcl ->. apply NoDup_app in Hnd as (_ & Hd & Hnd2). apply NoDup_cons in Hnd2 as [Hb2 _]. apply elem_of_app in Hcl as [Hcl|Hcl]; [|done].
    apply (Hd _ Hcl). by left. }
  apply (HQ _ s2).
  - split.
    + done.
    + eapply changed_mono; [|exact Hch]. intros c ->%list_elem_of_singleton. left. apply elem_of_app. right. by left.
    + exists h. rewrite app_nil_r. split; [|eapply sseg_ext; [|exact Hl]; intros c _; apply Hb12].
      unfold inode_is, s2. cbn. by rewrite (ds_inodes _ _ Hd1).
    + intros c Hn0. by apply not_elem_of_nil in Hn0.
  - unfold s2. cbn. by rewrite lookup_insert_eq.
  - rewrite (ch_clean _ _ _ _ Hch). done.
  - apply (content_patch s s2 l1 b l2 h); [done|done| | |lia|lia].
    + intros c Hcl. eapply changed_bnx; [exact Hch| |].
      * intros ->%list_elem_of_singleton. by eapply Hnb.
      * destruct (blks_at _ _ _ c Hl) as (_ & y & Hy); [|by eexists]. rewrite elem_of_app in Hcl |- *. rewrite elem_of_cons. tauto.
    + rewrite Hd2. f_equal. rewrite <-Hd0. by apply data_same_at.
  - cbn in Hnext |- *. rewrite Hnext. destruct l2 as [|c l2]; cbn in Hl2' |- *; [done|]. by destruct Hl2' as (-> & _).
Qed.

Lemma write_loop_spec a i buf : Forall is_byte buf -> forall fuel s l1 b l2 pos off b_off len h,
  cache_ok s -> inode_is s a i h (zlen (l1 ++ b :: l2)) -> blks_of s h (l1 ++ b :: l2) ->
  0 <= b_off < lfs_blk_size -> 0 <= pos -> 0 <= len < 2 ^ 32 -> len < Z.of_nat fuel -> pos + len <= zlen buf -> 0 <= off -> off + len < 2 ^ 64 ->
  b_off + len <= lfs_blk_size * zlen (b :: l2) \/ fv_clean (vw s) = true -> lfs_blk_size * zlen l1 + b_off + len <= 2 ^ 32 ->
  wp (write_loop fuel a b buf pos off b_off len) s (fun r s' => r = inr (off + len) /\ wrote a i buf s s' l1 b l2 pos b_off len).
Proof.
  intros Hbytes. induction fuel as [|fuel IH]; intros s l1 b l2 pos off b_off len h Hc Hi Hl Hb Hp Hlen Hf Hbuf Hoff Hover Hfit Hsmall; [lia|].
  destruct (decide (len = 0)) as [->|Hpos].
  { eapply wpe_mono; [apply write_loop_0; lia| |done]. intros r s' [-> ->]. split; [f_equal; lia|]. exists []. split_and!.
    - by eapply written_refl.
    - by left.
    - lia.
    - rewrite part_nil, patch_nil. cbn. by rewrite !app_nil_r. }
  cbn [write_loop]. rewrite (proj2 (Z.ltb_lt 0 len)) by lia. cbn [negb].
  assert (Hb0 : b <> NIL) by (eapply blks_at; [exact Hl|apply elem_of_app; right; by left]). rewrite (proj2 (Z.eqb_neq b _)) by done.
  eapply write_step; [done..|lia|done|]. intros x s2 W02 Hx2 Hclean C2 Hnext.
  rewrite in_this_blk_spec in * by lia. set (n := Z.min len (lfs_blk_size - b_off)) in *.
  assert (Hn : 0 < n <= len /\ b_off + n <= lfs_blk_size /\ (n = len \/ b_off + n = lfs_blk_size)) by lia.
  replace (u64 (off + n)) with (off + n) by (unfold u64; rewrite Z.mod_small; lia). rewrite (u32_small (len - n)) by lia.
  pose proof W02 as [Hc2 Hch2 (h2 & Hi2 & Hl2) _]. rewrite app_nil_r in Hi2, Hl2.
  assert (Hgo : forall s3 l5 c l4, longer a i s2 s3 (l1 ++ b :: l2) l5 -> l2 ++ l5 = c :: l4 -> l5 = [] \/ l4 = [] /\ l2 = [] -> (l5 <> [] -> n < len) ->
    fv_clean (vw s3) = fv_clean (vw s) ->
    wp (let* x := get_blk b in write_loop fuel a (bl_bnext x) buf (pos + n) (off + n) 0 (len - n)) s3
      (fun r s' => r = inr (off + len) /\ wrote a i buf s s' l1 b l2 pos b_off len)).
  { intros s3 l5 c l4 Hg He Hl5 Hadd Hclean3. pose proof Hg as [[Hc3 _ (h3 & Hi3 & Hl3) _] _ _].
    rewrite <-app_assoc in Hi3, Hl3. cbn [app] in Hi3, Hl3. rewrite He in Hi3, Hl3. rewrite (cons_middle b l1 (c :: l4)), app_assoc in Hi3, Hl3.
    pose proof Hl3 as (m & Hm1 & Hm2)%sseg_app. cbn in Hm2. destruct Hm2 as (-> & _). apply sseg_last in Hm1 as [_ Hm1]. unfold bnx in Hm1.
    destruct (fs_blks s3 !! b) as [y|] eqn:Hy; [|done]. injection Hm1 as Hm1. apply wpe_bind. eapply wp_get_blk; [exact Hy|]. rewrite Hm1.
    pose proof (f_equal length He) as Hel. rewrite length_app in Hel. cbn in Hel.
    eapply wpe_mono; [eapply (IH s3 (l1 ++ [b]) c l4 (pos + n) (off + n) 0 (len - n) h3); [done..|unfold lfs_blk_size; lia|lia|lia|lia|lia|lia|lia| |]| |done].
    - destruct Hfit as [Hfit|Hfit]; [left|right; congruence]. cbn [length] in *. unfold lfs_blk_size in *. lia.
    - rewrite length_app. cbn. unfold lfs_blk_size in *. lia.
    - intros r s' [-> Hw]. split; [f_equal; lia|]. eapply (wrote_more a i buf s s2 s3 s' l1 b l2 c l4 l5 pos b_off n len h); try eassumption; lia. }
  destruct l2 as [|c l2]; cbn in Hnext; rewrite Hnext.
  - rewrite Z.eqb_refl. cbn [andb]. destruct (Z.ltb_spec 0 (len - n)) as [Hmore|Hmore].
    + apply wpe_bind. destruct Hfit as [Hfit|Hfit]; [cbn in Hfit; unfold lfs_blk_size in *; lia|].
      eapply wpe_mono; [eapply (add_next_spec a i s2 l1 b x h2); [done..|congruence|]| |done].
      * rewrite length_app. cbn. unfold lfs_blk_size in *. lia.
      * intros _ s3 [c Hg]. apply (Hgo s3 [c] c []); [done|done|by right|lia|].
        pose proof Hg as [[_ Hch3 _ _] _ _]. rewrite (ch_clean _ _ _ _ Hch3). done.
    + apply wpe_bind, wpe_ret. apply wpe_bind. eapply wp_get_blk; [exact Hx2|]. replace (len - n) with 0 by lia.
      eapply wpe_mono; [apply write_loop_0; lia| |done]. intros r s' [-> ->]. replace n with len in * by lia. split; [done|]. exists []. split_and!.
      * done.
      * by left.
      * intros _. cbn in *. unfold lfs_blk_size in *. lia.
      * cbn. by rewrite !app_nil_r.
  - assert (c <> NIL) by (eapply blks_at; [exact Hl|apply elem_of_app; right; right; by left]).
    rewrite (proj2 (Z.eqb_neq c _)) by done. cbn [andb]. apply wpe_bind, wpe_ret.
    apply (Hgo s2 [] c l2); [by eapply longer_refl|by rewrite app_nil_r|by left|done|done].
Qed.
End writing.
