(* ===== verification/LfsFiles.v ===== *)
(** * The log-structured file system: what files hold

    [stored s name d] says that the file [name] holds [d]; the theorems are in these
    terms: lfs_create, lfs_write and lfs_read for the file they are called for, and for
    all the others. *)
From S2P Require Import Prelude Bytes LeBytes SList Crc Block Lfs LfsLog LfsFile FsHostSim LfsTable LfsDir LfsCache LfsRead LfsGrow LfsWrite.

Local Open Scope Z_scope.
Local Open Scope c_scope.

Section files.
Context {E : Type} `{FsHostOk E}.
Implicit Types (s : fs E) (name : list Z).
Abbreviation vw s := (fv (fs_env s)).

(** The invariant, with the list of what is pending. *)
Record fs_ok s (p : list Z) : Prop := {
  fs_table : table_ok s;
  fs_probe : probe_ok s;
  fs_cache : cache_ok s;
  fs_pending : pending_is s p
}.

Lemma changed_dir a S s s' : changed a S s s' -> is_Some (fs_inodes s !! a) -> dir_same s s'.
Proof.
  intros Hc [i Hi]. unfold dir_same. rewrite (ch_lfs _ _ _ _ Hc). split_and!; [done..|]. apply map_eq. intros c. rewrite !lookup_fmap.
  destruct (decide (c = a)) as [->|Hne].
  - destruct (ch_inode _ _ _ _ Hc _ Hi) as (h & n & ->). by rewrite Hi.
  - by rewrite (ch_inodes _ _ _ _ Hc).
Qed.

Lemma changed_pending a S s s' p : changed a S s s' -> pending_is s p -> pending_is s' p.
Proof.
  intros Hc Hp. unfold pending_is in *. rewrite (ch_lfs _ _ _ _ Hc). eapply sseg_ext; [|exact Hp]. intros c Hcp.
  unfold pnext. destruct (decide (c = a)) as [->|Hne]; [|by rewrite (ch_inodes _ _ _ _ Hc)].
  destruct (sseg_elem _ _ _ _ _ Hp Hcp) as [_ Hs]. unfold pnext in Hs. destruct (fs_inodes s !! a) as [i|] eqn:Hi; [|by destruct Hs].
  by destruct (ch_inode _ _ _ _ Hc _ Hi) as (h & n & ->).
Qed.

(** Lists of blocks and what they hold depend on the blocks and the process alone. *)
Lemma same_but_list_data s s' : same_but_list s s' -> (forall b, bnx s' b = bnx s b) /\ (forall b, owner s' b = owner s b) /\
  (forall l, content s' l = content s l) /\ (cache_ok s -> cache_ok s').
Proof.
  intros (Hl & _ & _ & Hb & He).
  pose proof (f_equal lf_part_off Hl) as L1. pose proof (f_equal lf_seg_start Hl) as L2.
  pose proof (f_equal lf_sec_per_blk Hl) as L3. pose proof (f_equal lf_checkpoint_fid Hl) as L4. cbn in L1, L2, L3, L4.
  assert (Hd : forall x, blk_data s' x = blk_data s x).
  { intros x. unfold blk_data, disk_blk. rewrite He. destruct (bl_cached x); [done|]. destruct (bl_empty x); [done|].
    unfold sec_of_blk. by rewrite L1, L2, L3. }
  split_and!.
  - intros b. unfold bnx. by rewrite Hb.
  - intros b. unfold owner. by rewrite Hb.
  - intros l. unfold content. f_equal. apply list_fmap_ext. intros k b _. unfold data_at. rewrite Hb. destruct (fs_blks s !! b); [apply Hd|done].
  - intros [[H1 H2 H3 H4] Hcb Hcf]. split; [split; rewrite ?He, ?L3, ?L4; done| |by rewrite Hb].
    intros b x. rewrite Hb. intros Hx. specialize (Hcb b x Hx). unfold blk_ok, frame_ok, on_disk, disk_blk, sec_of_blk in *.
    rewrite He, L1, L2, L3, L4. exact Hcb.
Qed.

(** The table is where it was. *)
Definition same_place s s' : Prop := lf_inodes (fs_lfs s') = lf_inodes (fs_lfs s) /\ lf_n_inodes (fs_lfs s') = lf_n_inodes (fs_lfs s).
Lemma dir_same_place s s' : dir_same s s' -> same_place s s'.
Proof. by intros (? & ? & _). Qed.
Lemma same_place_at s s' i : same_place s s' -> inode_at (fs_lfs s') i = inode_at (fs_lfs s) i.
Proof. intros [Hi _]. unfold inode_at. by rewrite Hi. Qed.

(** Another file, after one was written to. *)
Lemma other_file a z S s s' s'' name j y m : changed a S s s' ->
  same_but_list (set_fs_inodes (<[a := z]> (fs_inodes s')) s') s'' -> (forall b, b ∈ S -> owner s b = Some a) ->
  inode_at (fs_lfs s) j <> a -> same_place s s'' -> file_is s name j y m ->
  (exists v, file_is s'' name j (set_in_wnext v y) m) /\ content s'' m = content s m.
Proof.
  intros Hc Hl HS Hj Hd [[Hjb Hy] Hn Hm Ho Hcnt Hlen Hsm].
  assert (HmS : forall b, b ∈ m -> b ∉ S) by (intros b Hb Hb'; specialize (Ho b Hb); specialize (HS b Hb'); congruence).
  destruct (changed_seg _ _ _ _ _ m NIL Hc HmS Hm) as [Hm' Hct]. destruct (same_but_list_data _ _ Hl) as (D1 & D2 & D3 & _).
  split; [|by rewrite D3].
  assert (Hy' : <[a := z]> (fs_inodes s') !! inode_at (fs_lfs s) j = Some y) by by rewrite lookup_insert_ne, (ch_inodes _ _ _ _ Hc).
  destruct (same_but_list_inode _ _ _ _ Hl Hy') as [v Hv]. exists v.
  split; try done.
  - split; [by destruct Hd as (_ & ->)|]. by rewrite (same_place_at _ _ _ Hd).
  - eapply sseg_ext; [|exact Hm']. intros b _. apply D1.
  - intros b Hb. rewrite D2, (same_place_at _ _ _ Hd).
    eapply (changed_owner a S s s'); [exact Hc|]. by apply Ho.
Qed.

(** The file itself, after it was written to and put on the list of what is pending. *)
Lemma this_file a i x s s' s'' name l l3 v len : written a x s s' l l3 -> file_is s name i x l -> a = inode_at (fs_lfs s) i ->
  same_but_list (set_fs_inodes (alter (set_in_len_real len) a (fs_inodes s')) s') s'' -> dir_same s s'' ->
  fs_inodes s'' !! a = set_in_wnext v <$> (set_in_len_real len <$> fs_inodes s' !! a) ->
  0 <= len <= lfs_blk_size * zlen (l ++ l3) -> lfs_blk_size * zlen (l ++ l3) < 2 ^ 32 ->
  exists x', file_is s'' name i x' (l ++ l3) /\ in_len_real x' = len /\ content s'' (l ++ l3) = content s' (l ++ l3).
Proof.
  intros [Hc Hch (h & Hi & Hl) Hnew] [[Hib Hx] [Hcr Hn] Hm Ho Hcnt Hlen Hsm] -> Hp Hd Hv Hlen' Hsm'.
  destruct (same_but_list_data _ _ Hp) as (D1 & D2 & D3 & _). unfold inode_is in Hi. rewrite Hi in Hv. cbn in Hv.
  eexists. split; [split|split; [|exact (D3 (l ++ l3))]].
  - split; [by destruct Hd as (_ & -> & _)|]. rewrite (dir_same_at _ _ _ Hd). exact Hv.
  - done.
  - eapply sseg_ext; [|exact Hl]. intros b _. apply D1.
  - intros b Hb. rewrite (dir_same_at _ _ _ Hd), D2. change (owner s' b = Some (inode_at (fs_lfs s) i)).
    apply elem_of_app in Hb as [Hb|Hb]; [eapply changed_owner; [exact Hch|by apply Ho]|by apply Hnew].
  - done.
  - exact Hlen'.
  - done.
  - done.
Qed.

Lemma lfs_write_spec s p name i x l buf off len : fs_ok s p -> file_is s name i x l -> Forall is_byte buf ->
  0 <= off -> 0 < len <= zlen buf -> off + len <= 2 ^ 32 - 2 * lfs_blk_size ->
  off + len <= lfs_blk_size * Z.max (zlen l) (off / lfs_blk_size + 1) \/ fv_clean (vw s) = true ->
  wp (lfs_write name buf off len) s (fun r s' => r = OK /\
    fs_ok s' (inode_at (fs_lfs s) i :: filter (fun b => b <> inode_at (fs_lfs s) i) p) /\ dir_same s s' /\
    (exists x' l3, file_is s' name i x' (l ++ l3) /\ in_len_real x' = Z.max (in_len_real x) (off + len) /\
      content s' (l ++ l3) = patch (content s l ++ concat (replicate (length l3) zeros)) off (part buf 0 len)) /\
    (forall name2 j y m, name2 <> name -> file_is s name2 j y m ->
      (exists v, file_is s' name2 j (set_in_wnext v y) m) /\ content s' m = content s m)).
Proof.
  intros [Ht Hp Hc Hpend] Hf Hbytes Hoff Hlen Hsmall Hfit. pose proof Hf as [[Hib Hx] [Hcr Hnm] Hl Hown Hcnt Hreal Hsm].
  set (a := inode_at (fs_lfs s) i) in *. assert (Ha : a <> NIL) by by (apply inode_at_nonzero; [|lia]).
  unfold lfs_write. apply wpe_bind. eapply wpe_mono; [by eapply find_this| |done]. intros r s' [-> ->]. fold a.
  rewrite (proj2 (Z.eqb_neq a _)) by done. rewrite align_down64_blk by (unfold lfs_blk_size in *; lia).
  pose proof (Z.mod_pos_bound off lfs_blk_size). pose proof (Z_div_mod_eq_full off lfs_blk_size) as Hdm. set (k := off / lfs_blk_size) in *.
  assert (Hk : 0 <= k < 2 ^ 20) by (unfold lfs_blk_size in *; lia). assert (Hlc : 0 <= zlen l < 2 ^ 20) by (unfold lfs_blk_size in *; lia).
  apply wpe_bind. unfold lfs_inode_get_blk. rewrite align_down64_blk by (unfold lfs_blk_size in *; lia).
  rewrite Z.div_mul, Z.eqb_refl by done. cbn [negb]. apply wpe_bind. eapply wp_get_inode; [done|]. cbn [negb andb].
  assert (Hi : inode_is s a x (in_blks x) (zlen ([] ++ l))) by (unfold inode_is; rewrite Hx; cbn; rewrite <-Hcnt; by destruct x).
  eapply wpe_mono; [apply (get_blk_add a x _ s [] l NIL k (in_blks x) Hc Hi Hl); [by left|lia|cbn; lia|lia]| |done].
  intros b s1 (l3 & Hg & Hll & Hb). cbn [app] in Hg. pose proof Hg as [W1 Z1 D1]. pose proof W1 as [Hc1 Hch1 (h1 & Hi1 & Hl1) _].
  assert (Hsplit : l ++ l3 = take (Z.to_nat k) (l ++ l3) ++ b :: drop (S (Z.to_nat k)) (l ++ l3)) by by rewrite take_drop_middle.
  rewrite Hsplit in Hi1, Hl1. assert (Hb0 : b <> NIL) by (eapply blks_at; [exact Hl1|apply elem_of_app; right; by left]).
  rewrite (proj2 (Z.eqb_neq b _)) by done.
  replace (u64 (off - k * lfs_blk_size)) with (off mod lfs_blk_size) by (unfold u64; rewrite (Z.mod_small (off - _)); unfold lfs_blk_size in *; lia).
  set (m1 := take (Z.to_nat k) (l ++ l3)) in *. set (m2 := drop (S (Z.to_nat k)) (l ++ l3)) in *.
  assert (Hm1 : zlen m1 = k) by (unfold m1; rewrite length_take; lia).
  assert (Hm2 : zlen (b :: m2) = Z.max (zlen l) (k + 1) - k) by (apply (f_equal length) in Hsplit; rewrite (length_app m1) in Hsplit; lia).
  assert (Hlen32 : 0 <= len < 2 ^ 32 /\ off + len < 2 ^ 64) by (unfold lfs_blk_size in *; lia).
  apply wpe_bind. eapply wpe_mono; [eapply (write_loop_spec a x buf Hbytes _ s1 m1 b m2 0 off (off mod lfs_blk_size) len h1); try done; try lia| |done].
  - unfold lfs_blk_size in *. lia.
  - destruct Hfit as [Hfit|Hfit]; [left; rewrite Hm2; unfold lfs_blk_size in *; lia|right]. by rewrite (ch_clean _ _ _ _ Hch1).
  - rewrite Hm1. unfold lfs_blk_size in *. lia.
  - intros r s2 (-> & l4 & W2 & Hmin & Hmax & C2). specialize (Hmax ltac:(lia)). rewrite <-Hsplit in W2, C2.
    rewrite (app_comm_cons m2 l4 b), app_assoc, <-Hsplit, Hm1, <-Hdm, <-app_assoc in C2.
    pose proof (written_trans _ _ _ _ _ _ _ _ W1 W2) as W. pose proof W as [Hc2 Hch2 (h2 & Hi2 & Hl2) _].
    assert (Hcs : content s1 (l ++ l3) = content s l ++ concat (replicate (length l3) zeros)).
    { rewrite content_app, Z1. f_equal. apply content_ext. intros c Hcl. apply D1. destruct (blks_at _ _ _ _ Hl Hcl) as (_ & ? & ?). by eexists. }
    rewrite Hcs, <-(app_assoc (content s l)), <-concat_app, <-replicate_add, <-length_app in C2.
    assert (Hall : zlen (l ++ l3 ++ l4) = k + zlen (b :: m2 ++ l4)).
    { rewrite app_assoc, Hsplit, <-app_assoc, (length_app m1). cbn. lia. }
    assert (Hcase : zlen (b :: m2 ++ l4) = zlen (b :: m2) + zlen l4) by (cbn; rewrite length_app; lia).
    assert (Hsm2 : lfs_blk_size * zlen (l ++ l3 ++ l4) < 2 ^ 32).
    { rewrite Hall. destruct Hmin as [->|Hmin]; [|unfold lfs_blk_size in *; lia]. rewrite Hcase, Hm2. cbn [length]. unfold lfs_blk_size in *. lia. }
    set (newlen := Z.max (in_len_real x) (off + len)).
    assert (Hnew : 0 <= newlen <= lfs_blk_size * zlen (l ++ l3 ++ l4)).
    { rewrite Hall. unfold newlen. unfold lfs_blk_size in *. lia. }
    (* the length, and the list *)
    set (x2 := set_in_blks h2 (set_in_blk_cnt (zlen (l ++ l3 ++ l4)) x)).
    set (s3 := set_fs_inodes (<[a := set_in_len_real newlen x2]> (fs_inodes s2)) s2).
    assert (Hs3 : wp (let* x := get_inode a in if in_len_real x <? off + len then upd_inode a (set_in_len_real (off + len)) else ret tt) s2 (fun _ s' => s' = s3)).
    { apply wpe_bind. eapply wp_get_inode; [exact Hi2|]. cbn. unfold s3, newlen. destruct (Z.ltb_spec (in_len_real x) (off + len)).
      - eapply wp_upd_inode; [exact Hi2|]. rewrite Z.max_r by lia. done.
      - apply wpe_ret. rewrite Z.max_l by lia. rewrite insert_id; [by destruct s2|]. rewrite Hi2. unfold x2. by destruct x. }
    assert (Hd23 : dir_same s s3).
    { eapply dir_same_trans; [eapply changed_dir; [exact Hch2|by eexists]|]. eapply upd_dir_same; [exact Hi2|done]. }
    assert (Hp3 : pending_is s3 p).
    { unfold s3. eapply pending_is_put; [exact Hi2|by eapply changed_pending|done]. }
    assert (Hi3 : fs_inodes s3 !! a = Some (set_in_len_real newlen x2)) by (unfold s3; cbn; by rewrite lookup_insert_eq).
    enough (wp (lfs_add_pending a ;;; ret OK) s3 (fun r s' => r = OK /\ fs_ok s' (a :: filter (fun b => b <> a) p) /\ dir_same s s' /\
      (exists x' l3, file_is s' name i x' (l ++ l3) /\ in_len_real x' = newlen /\
        content s' (l ++ l3) = patch (content s l ++ concat (replicate (length l3) zeros)) off (part buf 0 len)) /\
      (forall name2 j y m, name2 <> name -> file_is s name2 j y m ->
        (exists v, file_is s' name2 j (set_in_wnext v y) m) /\ content s' m = content s m))) as Hend.
    { apply wpe_bind_inv in Hs3. apply wpe_bind. eapply wpe_mono; [exact Hs3| |done]. intros y s' Hy. apply wpe_bind. eapply wpe_mono; [exact Hy| |done].
      intros _ s'' ->. exact Hend. }
    apply wpe_bind. eapply wpe_mono; [apply (lfs_add_pending_spec a (set_in_len_real newlen x2) p s3 Hp3 Hi3 Ha)| |done].
    intros _ s4 [Hs4 Hp4]. apply wpe_ret. split; [done|].
    assert (Hd : dir_same s s4) by (eapply dir_same_trans; [exact Hd23|by apply same_but_list_dir]).
    assert (Hc3 : cache_ok s3) by (by destruct Hc2 as [[? ? ? ?] ? ?]).
    split; [split; [by eapply dir_same_table|by eapply dir_same_probe|by eapply same_but_list_data|done]|]. split; [done|]. split.
    + destruct (same_but_list_inode _ _ _ _ Hs4 Hi3) as [v Hv].
      assert (Hal : s3 = set_fs_inodes (alter (set_in_len_real newlen) a (fs_inodes s2)) s2).
      { unfold s3. f_equal. rewrite <-(insert_id (fs_inodes s2) a x2) at 2 by exact Hi2. by rewrite alter_insert_eq. }
      rewrite Hal in Hs4. destruct (this_file a i x s s2 s4 name l (l3 ++ l4) v newlen W Hf eq_refl Hs4 Hd) as (x' & F1 & F2 & F3).
      * rewrite Hv. unfold inode_is in Hi2. by rewrite Hi2.
      * done.
      * done.
      * exists x', (l3 ++ l4). split; [exact F1|]. split; [exact F2|]. rewrite F3. exact C2.
    + intros name2 j y m Hne Hfj. eapply (other_file a _ l s s2 s4); [exact Hch2|exact Hs4|exact Hown| |by apply dir_same_place|exact Hfj].
      intros Hji. destruct Hfj as [Hy [_ Hyn] _ _ _ _ _]. apply Hne. rewrite <-Hyn, <-Hnm. f_equal. eapply slot_det; [exact Hy|].
      replace j with i; [by split|]. unfold a, inode_at, sizeof_lfs_inode in Hji. lia.
Qed.

(** ** In terms of what files hold *)
Definition stored s name (d : list Z) : Prop :=
  exists i x l, file_is s name i x l /\ d = take (Z.to_nat (in_len_real x)) (content s l).

Lemma stored_length s name d p i x l : fs_ok s p -> file_is s name i x l -> d = take (Z.to_nat (in_len_real x)) (content s l) -> zlen d = in_len_real x.
Proof.
  intros Ho [_ _ Hl _ _ Hlen _] ->. pose proof (content_length _ _ _ _ (fs_cache _ _ Ho) Hl). rewrite length_take. lia.
Qed.

Lemma stored_same s s' name i x l d : file_is s' name i x l -> content s' l = content s l -> d = take (Z.to_nat (in_len_real x)) (content s l) -> stored s' name d.
Proof. intros Hf Hc ->. exists i, x, l. by rewrite Hc. Qed.

(** Cutting a patched content to its length. *)
Lemma take_patch c z o w n : 0 <= o <= n -> n <= zlen c ->
  take (Z.to_nat (Z.max n (o + zlen w))) (patch (c ++ z) o w) = patch (take (Z.to_nat n) c) o w.
Proof.
  intros Ho Hn. unfold patch. rewrite (take_app_le c) by lia.
  replace (take (Z.to_nat o) (take (Z.to_nat n) c)) with (take (Z.to_nat o) c) by (rewrite take_take; f_equal; lia).
  rewrite take_app_ge by (rewrite length_take; lia). rewrite length_take_le by lia. f_equal.
  rewrite take_app_ge by lia. f_equal. rewrite skipn_firstn_comm. destruct (decide (o + zlen w <= n)).
  - rewrite drop_app_le by lia. rewrite take_app_le by (rewrite length_drop; lia). f_equal. lia.
  - replace (Z.to_nat (Z.max n (o + zlen w)) - Z.to_nat o - length w)%nat with 0%nat by lia.
    by replace (Z.to_nat n - (Z.to_nat o + length w))%nat with 0%nat by lia.
Qed.

Lemma write_stored s p name d buf off len : fs_ok s p -> stored s name d -> Forall is_byte buf ->
  0 <= off <= zlen d -> 0 < len <= zlen buf -> off + len <= 2 ^ 32 - 2 * lfs_blk_size ->
  off mod lfs_blk_size + len <= lfs_blk_size \/ fv_clean (vw s) = true ->
  wp (lfs_write name buf off len) s (fun r s' => r = OK /\ (exists p', fs_ok s' p') /\
    stored s' name (patch d off (part buf 0 len)) /\
    (forall name2 d2, name2 <> name -> stored s name2 d2 -> stored s' name2 d2)).
Proof.
  intros Ho (i & x & l & Hf & Hd) Hb Hoff Hlen Hsm Hfit. pose proof (stored_length _ _ _ _ _ _ _ Ho Hf Hd) as Hdl.
  pose proof (fi_len _ _ _ _ _ Hf). pose proof (content_length _ _ _ _ (fs_cache _ _ Ho) (fi_blks _ _ _ _ _ Hf)) as Hcl.
  eapply wpe_mono; [apply (lfs_write_spec s p name i x l buf off len); try done; try lia| |done].
  - destruct Hfit as [Hfit|]; [left|by right]. pose proof (Z_div_mod_eq_full off lfs_blk_size). unfold lfs_blk_size in *. lia.
  - intros r s' (-> & Ho' & _ & (x' & l3 & Hf' & Hx' & Hc') & Hother). split; [done|]. split; [by eexists|]. split.
    + exists i, x', (l ++ l3). split; [done|]. rewrite Hc', Hx', Hd.
      replace (off + len) with (off + zlen (part buf 0 len)) by (rewrite length_part; lia). symmetry. apply take_patch; lia.
    + intros name2 d2 Hne (j & y & m & Hfj & Hdj). destruct (Hother name2 j y m Hne Hfj) as ((v & Hv) & Hcm). eapply stored_same; [exact Hv|done|done].
Qed.

Lemma read_stored s p name d buf off len : fs_ok s p -> stored s name d -> 0 <= off -> 0 < len < 2 ^ 32 -> off + len <= zlen d -> len <= zlen buf ->
  wp (lfs_read name buf off len) s (fun '(r, buf') s' => r = OK /\ buf' = patch buf 0 (part d off len) /\ fs_ok s' p /\
    (forall name2 d2, stored s name2 d2 -> stored s' name2 d2)).
Proof.
  intros Ho (i & x & l & Hf & Hd) Hoff Hlen Hin Hbuf. pose proof (stored_length _ _ _ _ _ _ _ Ho Hf Hd) as Hdl.
  pose proof (fi_len _ _ _ _ _ Hf). pose proof (fi_small _ _ _ _ _ Hf). pose proof (content_length _ _ _ _ (fs_cache _ _ Ho) (fi_blks _ _ _ _ _ Hf)) as Hcl.
  eapply wpe_mono; [apply (lfs_read_spec s name i x l buf off len); try done; try apply Ho; lia| |done].
  intros [r buf']. rewrite (proj2 (Z.ltb_ge _ _)) by lia. intros s' (-> & -> & Hc' & Hds). split; [done|]. split; [|split].
  - f_equal. rewrite Hd. unfold part. rewrite skipn_firstn_comm, take_take. f_equal. lia.
  - destruct Ho as [Ht Hp _ Hpd]. pose proof Hds as [L I]. split; [| |done|].
    + unfold table_ok, slot in *. rewrite L, I. done.
    + unfold probe_ok, is_file, slot, probe, home in *. rewrite L, I. done.
    + unfold pending_is, pnext in *. rewrite L, I. done.
  - intros name2 d2 (j & y & m & [Fs Fn Fb Fo Fc Fl Fm] & Hdj). pose proof Hds as [L I].
    exists j, y, m. rewrite (data_same_content s s') by done. split; [|done]. split; try done.
    + unfold slot in *. by rewrite L, I.
    + by eapply data_same_blks.
    + intros b Hb. rewrite L. specialize (Fo b Hb). eapply changed_owner; [by apply (data_same_changed NIL)|done].
Qed.

Lemma create_stored s p name : fs_ok s p ->
  wp (lfs_create name) s (fun r s' => (exists p', fs_ok s' p') /\
    (if decide (r = OK) then (forall i, ~ is_file s name i) /\ stored s' name [] /\ forall name2 d, stored s name2 d -> stored s' name2 d
     else r = ERR /\ s' = s /\ ((exists i, is_file s name i) \/ forall i x, slot s i x -> vacant x = false))).
Proof.
  intros [Ht Hp Hc Hpd]. eapply wpe_mono; [by apply lfs_create_spec| |done].
  intros r s' (Ht' & Hp' & [(Hf & -> & ->)|[(Hno & Hall & -> & ->)|(Hno & -> & Hcr)]]).
  - split; [by exists p|]. by split_and!; [|..|left].
  - split; [by exists p|]. by split_and!; [|..|right].
  - destruct Hcr as (i & x & v & Hx & Hv & Hx' & Hp2 & Hsl & Hfiles). cbn [decide]. destruct (same_but_list_data _ _ Hsl) as (D1 & D2 & D3 & D4).
    assert (Hpl : same_place s s') by (pose proof (same_but_list_dir _ _ Hsl) as (? & ? & _); done).
    split; [|split; [done|split]].
    + eexists. split; [done|done| |exact Hp2]. apply D4. by destruct Hc as [[? ? ? ?] ? ?].
    + exists i, (set_in_wnext v (fresh_file name x)), []. split; [|done]. split; try done. intros b Hb. by apply not_elem_of_nil in Hb.
    + intros name2 d (j & y & m & Hfj & Hd). assert (Hji : j <> i).
      { intros ->. destruct Hfj as [Hy [Hyc Hyn] _ _ _ _ _]. rewrite (slot_det _ _ _ _ Hx Hy) in *. unfold vacant in Hv.
        destruct Hp as [Hp _]. destruct (Hp i y Hy Hyc) as [Hyf _]. by rewrite Hyf, Hyc in Hv. }
      destruct (other_file (inode_at (fs_lfs s) i) (fresh_file name x) [] s s s' name2 j y m) as ((w & Hw) & Hcm); try done.
      * apply changed_refl.
      * intros b Hb. by apply not_elem_of_nil in Hb.
      * unfold inode_at, sizeof_lfs_inode. lia.
      * eapply stored_same; [exact Hw|done|done].
Qed.
End files.
