(* ===== verification/LfsProps.v ===== *)
(** * The log-structured file system: theorems

    Making files, and what a read gives after a write, with small file systems on which
    they are applied. *)
From S2P Require Import Prelude Bytes LeBytes SList Block Lfs LfsLog LfsFile FsHostSim LfsTable LfsDir LfsCache LfsRead LfsGrow LfsWrite LfsFiles.

Local Open Scope Z_scope.
Local Open Scope c_scope.

(** C39: lfs_create makes an empty file of a name that no file has, if a place of the table
    is vacant, and is refused otherwise; either way the table keeps its invariant, a way
    to each file that meets no unused place, and the other files keep what they hold. *)
Theorem lfs_create_correct {E} `{FsHostOk E} (s : fs E) p name : fs_ok s p ->
  wp (lfs_create name) s (fun r s' => (exists p', fs_ok s' p') /\
    (if decide (r = OK) then (forall i, ~ is_file s name i) /\ stored s' name [] /\ forall name2 d, stored s name2 d -> stored s' name2 d
     else r = ERR /\ s' = s /\ ((exists i, is_file s name i) \/ forall i x, slot s i x -> vacant x = false))).
Proof. apply create_stored. Qed.

(** C40: What lfs_read gives after lfs_write: the file that was written holds the bytes in
    place of those it had, or behind them, and every other file what it had.  The range
    written begins inside the file or at its end ([off <= zlen d]), the range read is inside
    the file, and no request for memory, a mapping or the disk is refused ([FsHostOk]).
    Either the write stays within one block, or memory is given out filled with zeros:
    otherwise the blocks behind the first are not linked right ([next_not_set]). *)
Theorem lfs_write_read {E} `{FsHostOk E} (s : fs E) p name d buf off len name2 d2 buf2 off2 len2 :
  fs_ok s p -> stored s name d -> stored s name2 d2 -> Forall is_byte buf ->
  0 <= off <= zlen d -> 0 < len <= zlen buf -> off + len <= 2 ^ 32 - 2 * lfs_blk_size ->
  off mod lfs_blk_size + len <= lfs_blk_size \/ fv_clean (fv (fs_env s)) = true ->
  let d' := if decide (name2 = name) then patch d off (part buf 0 len) else d2 in
  0 <= off2 -> 0 < len2 <= zlen buf2 -> len2 < 2 ^ 32 -> off2 + len2 <= zlen d' ->
  wp (let* r := lfs_write name buf off len in
      let* (r2, buf') := lfs_read name2 buf2 off2 len2 in ret (r, r2, buf'))
    s (fun '(r, r2, buf') s' => r = OK /\ r2 = OK /\ buf' = patch buf2 0 (part d' off2 len2) /\ exists p', fs_ok s' p').
Proof.
  intros Ho Hd Hd2 Hb Hoff Hlen Hsm Hfit d' Hoff2 Hlen2 Hlen32 Hin. apply wpe_bind.
  eapply wpe_mono; [by apply (write_stored s p name d)| |done]. intros r s1 (-> & (p1 & Ho1) & Hw & Hother).
  assert (Hd1 : stored s1 name2 d') by (unfold d'; case_decide; [by subst|by apply Hother]).
  apply wpe_bind. eapply wpe_mono; [apply (read_stored s1 p1 name2 d'); try done; lia| |done].
  intros [r2 buf'] s2 (-> & -> & Ho2 & _). apply wpe_ret. by split_and!; [..|exists p1].
Qed.

(** ** Small file systems
    A table of four inodes at 1000; the first has its home on the place 1. *)
Definition demo_name : list Z := 97 :: replicate 15 0.
Definition free_inode (i : Z) : lfs_inode := mk_lfs_inode i false true (replicate 16 0) 0 0 false 0 NIL NIL.
Definition demo_inode (cnt len blks : Z) : lfs_inode := mk_lfs_inode 1 true false demo_name cnt len false 0 blks NIL.
Definition demo_lfs : lfs := mk_lfs 5 0 0 512 8 7 1 2 1 1 0 0 0 0 0 0 0 4 1000 NIL.
Definition demo_sim (used : gmap Z Z) (fill : Z) : sim := mk_sim 2000 fill used {[7 := 4096]} {[7 := ∅]} ∅ ∅ 0 512 [] None.
Definition demo_fs (x : lfs_inode) (blks : gmap Z lfs_blk) (fill : Z) : fs sim :=
  mk_fs demo_lfs ∅ {[1000 := free_inode 0; 1056 := x; 1112 := free_inode 2; 1168 := free_inode 3]} blks
    (demo_sim ((fun _ => sizeof_lfs_blk) <$> blks) fill).
(** No file; a file of ten zeros that were never written, in the block at 300. *)
Definition no_files : fs sim := demo_fs (free_inode 1) ∅ 204.
Definition hole : lfs_blk := mk_lfs_blk 1056 false 0 0 0 true false 0 NIL NIL.
Definition one_file : fs sim := demo_fs (demo_inode 1 10 300) {[300 := hole]} 204.

Lemma demo_slots x blks fill i y : slot (demo_fs x blks fill) i y ->
  i = 0 /\ y = free_inode 0 \/ i = 1 /\ y = x \/ i = 2 /\ y = free_inode 2 \/ i = 3 /\ y = free_inode 3.
Proof.
  intros [Hi Hy]. cbn in Hi. assert (i = 0 \/ i = 1 \/ i = 2 \/ i = 3) as [->|[->|[->| ->]]] by lia; vm_compute in Hy; injection Hy as <-; tauto.
Qed.

Lemma demo_table x blks fill : in_index x = 1 -> table_ok (demo_fs x blks fill).
Proof.
  intros Hx. split; [done|]. split; [done|]. intros i Hi. cbn in Hi.
  assert (i = 0 \/ i = 1 \/ i = 2 \/ i = 3) as [->|[->|[->| ->]]] by lia;
    (eexists; split; [split; [done|reflexivity]|done]).
Qed.

Lemma demo_probe x blks fill : (in_created x = true -> x = demo_inode (in_blk_cnt x) (in_len_real x) (in_blks x)) -> probe_ok (demo_fs x blks fill).
Proof.
  intros Hx. split.
  - intros i y Hy Hc. destruct (demo_slots _ _ _ _ _ Hy) as [[-> ->]|[[-> ->]|[[-> ->]|[-> ->]]]]; try done.
    rewrite (Hx Hc). split; [done|]. intros k z Hk. exfalso. revert Hk.
    change (lf_n_inodes _) with 4. replace (home _ _) with 1 by reflexivity. change ((1 - 1) mod 4) with 0. lia.
  - intros name i j (y & Hy & Hc & _) (z & Hz & Hc' & _).
    destruct (demo_slots _ _ _ _ _ Hy) as [[-> ->]|[[-> ->]|[[-> ->]|[-> ->]]]]; try done.
    by destruct (demo_slots _ _ _ _ _ Hz) as [[-> ->]|[[-> ->]|[[-> ->]|[-> ->]]]].
Qed.

Lemma demo_cache x blks fill : is_byte fill -> (forall b y, blks !! b = Some y -> 0 < b <= 1000 /\ bl_cached y = false /\ bl_empty y = true) ->
  cache_ok (demo_fs x blks fill).
Proof.
  intros Hf Hb. split.
  - split; [|done|done|by eexists]. split; cbn; try done.
    + intros a n. rewrite lookup_fmap. destruct (blks !! a) as [y|] eqn:Hy; [|done]. intros [= <-]. destruct (Hb _ _ Hy). unfold sizeof_lfs_blk. lia.
    + intros f n Hn. apply lookup_singleton_Some in Hn as [<- <-]. lia.
    + intros f. destruct (decide (f = 7)) as [->|]; [|by rewrite !lookup_singleton_ne]. by split; eexists.
  - intros b y Hy. destruct (Hb b y Hy) as (? & Hc & He). split_and!; [unfold NIL; lia| |by rewrite Hc|by rewrite He].
    cbn. rewrite lookup_fmap. cbn in Hy. by rewrite Hy.
  - intros b b' y y' Hy _ Hc. destruct (Hb b y Hy) as (_ & Hnc & _). congruence.
Qed.

Lemma no_files_ok : fs_ok no_files [].
Proof. split; [by apply demo_table|by apply demo_probe|apply demo_cache; [unfold is_byte; lia|done]|done]. Qed.

Lemma one_file_ok : fs_ok one_file [].
Proof.
  split; [by apply demo_table|by apply demo_probe|apply demo_cache; [unfold is_byte; lia|]|done].
  intros b y Hy. apply lookup_singleton_Some in Hy as [<- <-]. done.
Qed.

Lemma one_file_stored : stored one_file demo_name (replicate 10 0).
Proof.
  exists 1, (demo_inode 1 10 300), [300]. split; [|reflexivity]. split; try done.
  - cbn. split_and!; [done..|]. by exists NIL.
  - intros b Hb%list_elem_of_singleton. by subst b.
Qed.

Lemma lfs_create_correct_witness : fs_ok no_files [] /\
  wp (lfs_create demo_name) no_files (fun r s' => (exists p', fs_ok s' p') /\
    (if decide (r = OK) then (forall i, ~ is_file no_files demo_name i) /\ stored s' demo_name [] /\ forall name2 d, stored no_files name2 d -> stored s' name2 d
     else r = ERR /\ s' = no_files /\ ((exists i, is_file no_files demo_name i) \/ forall i x, slot no_files i x -> vacant x = false))).
Proof. split; [exact no_files_ok|]. apply (lfs_create_correct no_files [] demo_name no_files_ok). Defined.

Lemma lfs_write_read_witness : fs_ok one_file [] /\
  wp (let* r := lfs_write demo_name [1; 2; 3] 8 3 in
      let* (r2, buf') := lfs_read demo_name (replicate 5 9) 6 5 in ret (r, r2, buf'))
    one_file (fun '(r, r2, buf') s' => r = OK /\ r2 = OK /\ buf' = [0; 0; 1; 2; 3] /\ exists p', fs_ok s' p').
Proof.
  split; [exact one_file_ok|].
  apply (lfs_write_read one_file [] demo_name (replicate 10 0) [1; 2; 3] 8 3 demo_name (replicate 10 0) (replicate 5 9) 6 5 one_file_ok one_file_stored one_file_stored);
    [by repeat constructor|done|done|done|by left|done..].
Defined.
