(* ===== verification/LfsFacts.v ===== *)
(** * The log-structured file system: where it does not do what it means to

    What the file systems of LfsProps.v do in the cases that the code does not provide for. *)
From S2P Require Import Prelude Bytes LeBytes Block Lfs LfsLog LfsFile FsHostSim LfsProps.

Local Open Scope Z_scope.
Local Open Scope c_scope.

Definition val_of {A} (o : outcome (fs sim) A) : option A := match o with Ok a _ => Some a | _ => None end.
(** An empty file, and memory that comes filled with the byte [fill]. *)
Definition empty_file (fill : Z) : fs sim := demo_fs (demo_inode 0 0 NIL) ∅ fill.

(** The blocks that lfs_inode_get_blk makes have the offset that is left to go, which is
    that of the last block for the first one: lfs_trunc frees it with all behind it, and
    what the file holds is lost. *)
Lemma trunc_loses :
  val_of ((let* a := lfs_write demo_name [4] 8192 1 in
           let* b := lfs_write demo_name [1; 2; 3] 0 3 in
           let* c := lfs_read demo_name [9; 9; 9] 0 3 in
           let* d := lfs_trunc demo_name 5000 in
           let* e := lfs_read demo_name [9; 9; 9] 0 3 in ret (a, b, c, d, e)) (empty_file 0)) =
  Some (OK, OK, (OK, [1; 2; 3]), OK, (ERR, [9; 9; 9])).
Proof. vm_compute. reflexivity. Qed.

(** What was cut off comes back when the file grows again. *)
Lemma trunc_comes_back :
  val_of ((let* a := lfs_write demo_name [1; 2; 3; 4] 0 4 in
           let* b := lfs_trunc demo_name 1 in
           let* c := lfs_write demo_name [5] 3 1 in
           let* d := lfs_read demo_name [9; 9; 9; 9] 0 4 in ret (a, b, c, d)) (empty_file 0)) =
  Some (OK, OK, OK, (OK, [1; 2; 3; 5])).
Proof. vm_compute. reflexivity. Qed.

(** lfs_create_blk leaves [bnext] as it is, and the loop of lfs_write does not set it:
    where memory comes with other bytes than 0, the next write goes where they point. *)
Definition over_the_edge : M (fs sim) Z :=
  lfs_write demo_name [1; 2] 4095 2 ;;; lfs_write demo_name [3] 8192 1.
Lemma next_not_set : over_the_edge (empty_file 204) = Fault FNil /\ val_of (over_the_edge (empty_file 0)) = Some OK.
Proof. split; vm_compute; reflexivity. Qed.

(** A block of the disk with another checksum than the inode has is taken as read. *)
Definition bad_blk : lfs_blk := mk_lfs_blk 1056 true 0 1 0 false false (-1) NIL NIL.
Definition bad_file : fs sim :=
  mk_fs demo_lfs ∅ {[1056 := demo_inode 1 10 300]} {[300 := bad_blk]}
    (mk_sim 2000 0 {[300 := 40]} ∅ ∅ ∅ ∅ 1048576 512 [] None).
Lemma bad_checksum : match lfs_cache_blk 300 bad_file with
  | Ok r s => (r =? OK) && bool_decide ((bl_addr <$> fs_blks s !! 300) = Some NIL)
  | _ => false
  end = true.
Proof. vm_compute. reflexivity. Qed.

(** A checkpoint that has more than one segment in its list is never loaded: the loop
    over the list does not go on, whatever the fuel. *)
Definition two_segs : fs sim :=
  mk_fs (set_lf_n_segs 2 (set_lf_segments 500 demo_lfs)) {[500 := mk_lfs_segment 0 508; 508 := mk_lfs_segment 1 NIL]} ∅ ∅
    (mk_sim 2000 0 ∅ {[7 := 32]} {[7 := put_bytes 16 (le32 1 ++ le32 1) ∅]} {[600 := 7]} ∅ 0 512 [] None).
Lemma list_never_ends fuel : process_list fuel 600 0 two_segs = NoFuel.
Proof.
  induction fuel as [|fuel IH]; [done|]. cbn [process_list].
  rewrite (bind_ok _ _ _ 1 two_segs) by (vm_compute; reflexivity). change (0 =? 1) with false. cbn match.
  rewrite (bind_ok _ _ _ (fs_lfs two_segs) two_segs) by reflexivity.
  rewrite (bind_ok _ _ _ 1 two_segs) by (vm_compute; reflexivity).
  rewrite (bind_ok _ _ _ tt two_segs) by (vm_compute; reflexivity). exact IH.
Qed.

(** When no segment is free, a flush follows the null pointer. *)
Lemma no_free_seg {E} `{FsHost E} (s : fs E) n : lf_pending (fs_lfs s) <> NIL -> lf_seg_free (fs_lfs s) = NIL ->
  fs_segs s !! NIL = None -> flush_loop (S n) s = Fault FNil.
Proof.
  intros Hp Hf Hn. cbn [flush_loop]. rewrite (bind_ok _ _ _ (fs_lfs s) s) by reflexivity. rewrite (proj2 (Z.eqb_neq _ _) Hp).
  unfold flush_seg, lfs_get_free_seg, bind. cbn. unfold get_seg, read. by rewrite Hf, Hn.
Qed.

(** The end of a range wraps around: the server of a driver writes blocks from behind
    the frame it was given. *)
Lemma write_wraps {D} `{BlockHost D} (dev : block_dev) eid from cap pa n e :
  dv_map_buffers dev = false -> dv_block_size dev = 512 -> bh_frame_info cap e = Ok (Some (0, pa, 4096)) e ->
  0 <= pa < 2 ^ 32 ->
  handle_write dev eid from n 1 (2 ^ 32 - 512) cap e =
  (let* r := bh_write_blocks (u32 (pa - 512)) n 1 in bh_reply_cap eid from (rsp_write r) cap) e.
Proof.
  intros Hm Hb Hi Hpa. unfold handle_write. rewrite (bind_ok _ _ _ _ _ Hi). cbn match beta. rewrite Hb, Hm.
  change (4096 <? _) with false. cbn match. replace (u32 (pa + (2 ^ 32 - 512))) with (u32 (pa - 512)); [done|].
  unfold u32. replace (pa + (2 ^ 32 - 512)) with (pa - 512 + 1 * 2 ^ 32) by lia. by rewrite Z.mod_add by lia.
Qed.
